(* ===== verification/_CoqProject ===== *)
-Q . S2P
Prelude.v
Vector.v
MinMaxHeap.v
Time.v
ExclusiveTime.v
Strings.v
Hash.v
HashTree.v
Sql.v
Url.v
Datastore.v
Slowsqls.v
HashMap.v
StringPool.v
Metrics.v
SegmentChildren.v
Slab.v
Txn.v
Config.v
Segment.v
SegmentIter.v
SegmentTour.v
SegmentTree.v
SegmentFinal.v
SegmentEnd.v
Sdk.v
SdkSample.v
SdkGlobal.v
SdkTransaction.v
SdkSegment.v
Session.v
Transactions.v
SessionEnds.v
Frames.v
Calls.v
Lifetimes.v
SessionSample.v
Behaviour.v
SegmentTypes.v
TxnBehaviour.v
Threads.v
LifeSample.v
LifeBehaviour.v
Examples.v
ExampleRuns.v
ExampleBehaviour.v
