(* ===== verification/Prelude.v ===== *)
(** * Verification of the New Relic C SDK

    The C SDK (repository [newrelic/c-sdk]) is a library that C programs call to report
    transactions, segments of transactions, errors, metrics and events.  [src/*.c] and [include/*.h]
    are the API; it is a layer of handles, checks and locks over the agent library "axiom"
    ([vendor/newrelic/axiom]), which keeps the data and sends it to a daemon; [examples/*.c] are
    programs that use it.

    This development models the API and the examples whole, and of axiom the data structures and the
    parts of transactions and segments the API works on.  File names below are the ones of the
    repository; every definition has the name of the C function or type it models unless it is a part
    of one (a loop, a branch), and a comment with the file and the lines.

    ** The parts, bottom up

    - [Prelude]: machine integers ([u64], [u32]: wrap-around is written out), [memmove] on lists,
      loops with fuel, generic lemmas.  Every other file builds on it.
    - [Vector] (util_vector.c, util_stack.c), [MinMaxHeap] (util_minmax_heap.c), [Time]
      (util_time.h), [ExclusiveTime] (nr_exclusive_time.c), [Strings] (util_strings.c,
      util_memory.c), [Hash] and [HashTree] (util_hash.c and the trees two tables share), [HashMap]
      (util_hashmap.c), [StringPool] (util_string_pool.c), [Metrics] (util_metrics.c, util_apdex.c),
      [SegmentChildren] (nr_segment_children.c), [Slab] (util_slab.c): the data structures.
    - [Sql] (util_sql.c: obfuscation, normal form, table of a query), [Url] (util_url.c), [Datastore]
      (nr_datastore.c, nr_datastore_instance.c), [Slowsqls] (nr_slowsqls.c): what axiom makes of the
      parameters of a query or a call before it sends them.
    - [Txn] (nr_txn.c, nr_errors.c): the transaction of axiom as a record, and what sets its path,
      error, metrics and flags.  It uses a pool of names through the class [NamePool], which
      [StringPool] implements, so that its theorems rest on the laws of the class only.
    - [Segment] (nr_segment.c and the stack functions of nr_txn.c): the memory of axiom, [world]: maps
      from addresses to segments and transactions.  Segments point to each other, so pointers are
      explicit and every operation takes and gives the memory.  Memory for segments comes through the
      class [ObjectAllocator], which [Slab] implements.
    - [SegmentIter] (nr_segment.c: nr_segment_iterate): the loop that colors segments and visits their
      children; [SegmentTour]: the order in which it calls back on a tree, and a rule to prove what the
      callbacks do along the way.  [SegmentTree] (nr_segment.c: the heaps of segments and
      nr_segment_tree_to_heap): the callbacks of the first pass over the segments of a transaction that
      ended, which adds up exclusive times, makes the metrics and picks the segments to keep.  It
      composes [SegmentTour], [ExclusiveTime], [Metrics] and [MinMaxHeap].  [SegmentFinal]
      (nr_segment_tree.c, util_set.c): nr_segment_tree_finalise, which runs that pass, corrects the total
      time and turns the heaps into sets for the passes that write the data.
    - [SegmentEnd] (nr_segment_datastore.c, nr_segment_external.c): the end of the two kinds of
      segments that carry parameters, with their metrics.
    - [Config] (libnewrelic.h, config.c): the settings, their defaults, the options of a transaction.
    - [Sdk]: the handles of the API (app.h, transaction.h, segment.h, custom_event.h), the mutexes
      (util_threads.c), the state [sdk] of the whole process and programs over it, [prog]: a program
      takes a state and gives a result and a state, or [None] where C has no defined behaviour (NULL
      or a dead pointer is dereferenced, a thread waits for itself).  The state records, for the
      theorems only, the order of locks, unlocks and uses of transactions.
    - [SdkGlobal] (global.c, version.c, app.c, app_internal.c), [SdkTransaction] (transaction.c,
      custom_metric.c, error.c, stack.c, attribute.c, custom_event.c), [SdkSegment] (segment.c,
      datastore.c, external.c, distributed_trace.c): every function of the API, as a program.
    - [Session], [Transactions], [SessionEnds], [Frames] and [Calls]: the invariant of the state between
      two calls, [sdk_ok]; that every call keeps it, and what a call leaves alone ([Frames]: a class of
      relations that the steps of programs keep); calls as data, [api_call], and sequences of them.
    - [Lifetimes]: all the calls of a process, [life_call], from its start to its end, with the class
      [TxnLifecycle] of what axiom promises about the beginning and the end of transactions.
    - [Examples] (examples/*.c): the example programs, over the API and what is beside it: an environment,
      files, strings that a program allocates and frees, and what it prints; [ExampleRuns]: how they run.
    - [SdkSample], [SessionSample], [LifeSample]: a concrete axiom and states on which the theorems are
      tried out; it fulfils [TxnLifecycle].
    - [SegmentTypes]: the types of the segments of all handles, and what each call does to them.
    - [Behaviour], [TxnBehaviour], [Threads], [LifeBehaviour], [ExampleBehaviour]: the theorems about
      calls, sessions, threads, processes and the examples.

    ** What the theorems show

    - Process and applications: setting up the process implements an abstract machine with three
      phases; creating an application succeeds exactly when the daemon answers and gives one, and what it
      does on every branch; which settings reach a transaction, read as they are documented.
    - Calls and sessions: from a state in order each call of the API does what it promises on every
      branch, and a program can make valid calls in any order (live handles, strings and metrics in range,
      memory left, no custom segment in a transaction that is ignored, which dereferences NULL): they all
      return, nothing undefined happens, the segments of each transaction stay a forest, and all
      locks are free afterwards.  Changing a parent never makes a cycle.  The union in a handle always holds
      the member that the type of its segment names.  The parameters of a
      datastore segment reach axiom.
    - Whole processes: the same from the start of a process, with applications and transactions made
      and given back on the way; when every transaction has ended axiom holds no memory for them.  The
      examples are such processes: they end, return 0 and leave nothing behind, if their environment is
      right; what they say and do if it is not.  The two that work together on files: what each turn of
      the server does, what it leaks, and exactly when the client ends.
    - The end of a transaction: iterating over segments ends on any graph and calls back exactly once
      for each segment that can be reached; on a tree the first pass gives every segment the
      exclusive time that its children leave and the transaction the sum, without the time it was
      blocked, which is never more; every metric of every segment is added; as many segments as the
      limits allow are chosen, none lower than one left out.
    - Privacy: an obfuscated query shows no quoted string and no digit of the original (other literals are
      not recognised); a cleaned URL has no credentials and no query; the slowest query is never the one that is dropped.
    - Threads: most calls use a transaction under its lock only (the exceptions are listed); threads
      that make such calls at once never use a transaction at the same time and never block each
      other for good.
    - Data structures: each implements its mathematical counterpart (a list, a map, a multiset, the
      measure of a set of times), including what happens when it is full or memory runs out; loops
      end; copies stay in their buffers; the slab serves every request while there is memory, and its
      objects never overlap.

    ** Bounds and fuel

    Loops over a structure recurse on it; the others take fuel: the number of elements for chains of
    buckets and ancestors, the number of segments for iterations over them, 64 for the doubling of a 64-bit capacity, the number of entries for the
    descent of a tree, the length of the text for the scanners of [Sql] and [Url].  The theorems prove
    that the fuel suffices from the invariants, so running out of it never makes one true.  [sdk_ok k]
    says the state has room for [k] additions below the limits of the tables (2^29 children, 2^31 names
    and metrics); a call uses at most sixteen.  The two loops of the examples that wait for other
    programs take the number of their turns.

    ** What is not modelled, and how it appears

    The class [AxiomLib] in [Sdk] lists what the API calls in the rest of axiom and in the system:
    logging, the connection to the daemon and the list of applications (nr_agent.c, nr_app.c), the
    beginning, the end and the sending of a transaction ([nr_txn_begin], [nr_txn_end],
    cmd_txndata_transmit.c), distributed tracing, JSON objects (util_object.c), the host name,
    [pthread_mutex_init].  These are arbitrary functions on a state of their own, so the theorems about
    the API and about sessions hold whatever they do.  The theorems about whole processes assume of
    them what the class [TxnLifecycle] says: [nr_txn_begin] gives a new transaction in order or NULL,
    [nr_txn_end] and [nr_txn_destroy] take away that transaction and its segments and nothing else, and
    the payloads of distributed tracing leave the memory in order.  Of external segments the rollup and
    the header of a response are not modelled: the SDK never asks for them.  Of the end of a transaction
    the passes that write traces and span events from the chosen segments (JSON) are a parameter of
    [SegmentFinal], and its callback [nr_txn_handle_total_time] and the destruction of segments, behind
    [nr_txn_end] and [nr_txn_destroy], are not modelled.  Also not modelled: log
    messages, freeing memory that is unreachable (the examples' own strings are), closing files and waiting
    for a FIFO to be opened, the daemon (Go) and the tests. *)

From stdpp Require Export base tactics option list numbers gmap strings sorting.
From Stdlib Require Export ZArith Lia Sorting.Sorted.

#[export] Set Default Goal Selector "!".

Open Scope Z_scope.

(** [lia] with division and remainder by constants. *)
Ltac dlia := Z.to_euclidean_division_equations; lia.

(** ** Machine integers *)

(** [size_t], [uint64_t] and [unsigned long] are 64 bits wide on the platforms the SDK
    supports; [uint32_t] and [unsigned int] are 32 bits wide. *)
Definition u64 (z : Z) : Z := z mod 2 ^ 64.
Definition u32 (z : Z) : Z := z mod 2 ^ 32.

Definition in_u64 (z : Z) : Prop := 0 <= z < 2 ^ 64.
Definition in_u32 (z : Z) : Prop := 0 <= z < 2 ^ 32.

Definition SIZE_MAX : Z := 2 ^ 64 - 1.

Lemma u64_id (z : Z) : in_u64 z -> u64 z = z.
Proof. apply Z.mod_small. Qed.

Lemma u32_id (z : Z) : in_u32 z -> u32 z = z.
Proof. apply Z.mod_small. Qed.

Lemma u64_range (z : Z) : in_u64 (u64 z).
Proof. by apply Z.mod_pos_bound. Qed.

Lemma u64_add_l (a b : Z) : u64 (u64 a + b) = u64 (a + b).
Proof. apply Z.add_mod_idemp_l. lia. Qed.

Lemma u32_range (z : Z) : in_u32 (u32 z).
Proof. by apply Z.mod_pos_bound. Qed.

(** The status code most functions return. *)
Inductive nr_status_t : Type := NR_SUCCESS | NR_FAILURE.

#[export] Instance nr_status_t_eq_dec : EqDecision nr_status_t.
Proof. solve_decision. Defined.

(** ** Arrays as lists *)

(** [memmove (&a[dst]) (&a[src]) n] on an array held as a list. *)
Definition memmove {A : Type} (a : list A) (dst src n : nat) : list A :=
  take dst a ++ take n (drop src a) ++ drop (dst + n) a.

Lemma length_memmove {A : Type} (a : list A) (dst src n : nat) :
  (dst + n <= length a)%nat -> (src + n <= length a)%nat ->
  length (memmove a dst src n) = length a.
Proof.
  intros H1 H2. unfold memmove.
  rewrite !length_app, !length_take, !length_drop. lia.
Qed.

(** Shifting the tail of an array up by one and filling the hole is an insertion. *)
Lemma memmove_up_insert {A : Type} (l junk : list A) (pos : nat) (x : A) :
  (pos <= length l)%nat -> (1 <= length junk)%nat ->
  <[pos := x]> (memmove (l ++ junk) (pos + 1) pos (length l - pos))
  = (take pos l ++ x :: drop pos l) ++ drop 1 junk.
Proof.
  intros Hp Hj. unfold memmove.
  destruct junk as [|j junk]; [simpl in Hj; lia|].
  apply list_eq; intros i.
  destruct (decide (i = pos)) as [->|Hne].
  - rewrite list_lookup_insert_eq.
    2:{ rewrite !length_app, !length_take, !length_drop, !length_app. simpl. lia. }
    rewrite lookup_app_l by (rewrite length_app, length_take; simpl; lia).
    rewrite lookup_app_r by (rewrite length_take; lia).
    rewrite length_take. by replace (pos - pos `min` length l)%nat with 0%nat by lia.
  - rewrite list_lookup_insert_ne by done.
    destruct (decide (i < pos)%nat).
    + rewrite lookup_app_l by (rewrite length_take, length_app; simpl; lia).
      rewrite lookup_take_lt by lia.
      rewrite !lookup_app_l by (rewrite ?length_app, ?length_take; simpl; lia).
      by rewrite lookup_take_lt by lia.
    + rewrite lookup_app_r by (rewrite length_take, length_app; simpl; lia).
      rewrite length_take, length_app; simpl.
      replace ((pos + 1) `min` (length l + S (length junk)))%nat with (pos + 1)%nat by lia.
      destruct (decide (i <= length l)%nat).
      * rewrite lookup_app_l
          by (rewrite length_take, length_drop, length_app; simpl; lia).
        rewrite lookup_take_lt, lookup_drop by lia.
        rewrite lookup_app_l by lia.
        rewrite lookup_app_l by (rewrite length_app, length_take; simpl; rewrite length_drop; lia).
        rewrite lookup_app_r by (rewrite length_take; lia).
        rewrite length_take.
        replace (i - pos `min` length l)%nat with (S (i - pos - 1)) by lia.
        simpl. rewrite lookup_drop. f_equal; lia.
      * rewrite lookup_app_r
          by (rewrite length_take, length_drop, length_app; simpl; lia).
        rewrite length_take, length_drop, length_app; simpl.
        rewrite lookup_drop, lookup_app_r by lia.
        rewrite lookup_app_r by (rewrite length_app, length_take; simpl; rewrite length_drop; lia).
        rewrite length_app, length_take; simpl; rewrite length_drop.
        rewrite drop_0.
        replace (pos + 1 + (length l - pos) + _ - length l)%nat
          with (S (i - (pos `min` length l + S (length l - pos)))) by lia.
        done.
Qed.

(** Shifting the tail of an array down by one is a deletion. *)
Lemma memmove_down_delete {A : Type} (l junk : list A) (pos : nat) :
  (pos < length l)%nat ->
  take (length l - 1) (memmove (l ++ junk) pos (pos + 1) (length l - pos - 1))
  = take pos l ++ drop (pos + 1) l.
Proof.
  intros Hp. unfold memmove.
  rewrite (take_app_le l) by lia.
  rewrite (drop_app_le l _ (pos + 1)), (take_app_le (drop (pos + 1) l)), app_assoc
    by (rewrite ?length_drop; lia).
  rewrite (take_ge (drop _ _)) by (rewrite length_drop; lia).
  rewrite take_app_le by (rewrite length_app, length_take, length_drop; lia).
  apply take_ge. rewrite length_app, length_take, length_drop. lia.
Qed.

Lemma memmove_in_bounds_tail {A : Type} (l junk : list A) (dst src n : nat) :
  (dst + n <= length l)%nat -> (src + n <= length l)%nat ->
  memmove (l ++ junk) dst src n = memmove l dst src n ++ junk.
Proof.
  intros H1 H2. unfold memmove.
  rewrite (take_app_le l) by lia.
  rewrite (drop_app_le l _ src), (take_app_le (drop src l)) by (rewrite ?length_drop; lia).
  rewrite drop_app_le by lia.
  by rewrite <- !app_assoc.
Qed.

(** A filter that keeps everything. *)
Lemma filter_all {A : Type} (P : A -> Prop) `{forall x, Decision (P x)} (l : list A) :
  (forall x, x ∈ l -> P x) -> filter P l = l.
Proof.
  induction l as [|x l IH]; intros Hl; [done|].
  rewrite filter_cons_True by (apply Hl; left). f_equal. apply IH. intros y Hy. apply Hl. by right.
Qed.

(** ** Sorting with a comparison function *)

(** What the C library's sorting functions promise for a comparison function. *)
Definition cmp_le {T : Type} (cmp : T -> T -> Z) (x y : T) : Prop := cmp x y <= 0.

#[export] Instance cmp_le_dec {T : Type} (cmp : T -> T -> Z) : RelDecision (cmp_le cmp).
Proof. intros x y. apply Z.le_dec. Defined.

Definition sorts {T : Type} (cmp : T -> T -> Z) (l l' : list T) : Prop :=
  l' ≡ₚ l /\ StronglySorted (cmp_le cmp) l'.

(** A sort to run the model with: merge sort. *)
Definition merge_sort_r {T : Type} (cmp : T -> T -> Z) (l : list T) : list T :=
  merge_sort (cmp_le cmp) l.

Lemma merge_sort_r_sorts {T : Type} (cmp : T -> T -> Z) (l : list T) :
  (forall x y, cmp x y <= 0 \/ cmp y x <= 0) ->
  (forall x y z, cmp x y <= 0 -> cmp y z <= 0 -> cmp x z <= 0) ->
  sorts cmp l (merge_sort_r cmp l).
Proof.
  intros Htotal Htrans. split; [apply merge_sort_Permutation|].
  apply StronglySorted_merge_sort; [exact Htrans|exact Htotal].
Qed.

(** ** Automation *)

Create HintDb axiom discriminated.

(** Case analysis on the conditionals of a translated function. *)
Ltac case_if :=
  match goal with
  | |- context [if ?b then _ else _] =>
      lazymatch type of b with
      | bool => let E := fresh "E" in destruct b eqn:E
      end
  | H : context [if ?b then _ else _] |- _ =>
      lazymatch type of b with
      | bool => let E := fresh "E" in destruct b eqn:E
      end
  end.

(** Turn boolean integer tests into propositions. *)
Ltac boolp :=
  repeat match goal with
  | H : (_ && _) = true |- _ => apply andb_prop in H as [? ?]
  | H : (_ || _) = false |- _ => apply orb_false_elim in H as [? ?]
  | H : (_ <? _) = true |- _ => apply Z.ltb_lt in H
  | H : (_ <? _) = false |- _ => apply Z.ltb_ge in H
  | H : (_ <=? _) = true |- _ => apply Z.leb_le in H
  | H : (_ <=? _) = false |- _ => apply Z.leb_gt in H
  | H : (_ =? _) = true |- _ => apply Z.eqb_eq in H
  | H : (_ =? _) = false |- _ => apply Z.eqb_neq in H
  | H : negb _ = true |- _ => apply negb_true_iff in H
  | H : negb _ = false |- _ => apply negb_false_iff in H
  end.

(** Unfold the wrap-around of an addition that stays in range. *)
Ltac wrap_small :=
  repeat first
    [ rewrite u64_id by (unfold in_u64 in *; lia)
    | rewrite u32_id by (unfold in_u32 in *; lia) ].
