(* ===== verification/Vector.v ===== *)
(** * Growable vectors and stacks

    [util_vector.c], [util_vector.h], [util_stack.c], [util_stack.h] and the allocation
    wrapper [nr_reallocarray] of [util_memory.c].

    A [void*] is an [option A]: [None] is the NULL pointer.  The array [v->elements] is the
    list [v_elements], as long as the capacity.  Slots that [reallocarray] adds hold
    indeterminate bytes in C and [None] here; no operation reads them (every read is below
    [v->used]).  An operation whose capacity loop does not end returns [None]. *)

From S2P Require Import Prelude.

(** ** Allocation *)

Section Alloc.
Context {A : Type}.
(** Whether the C library's [realloc] of that many bytes succeeds. *)
Context (realloc_ok : Z -> bool).

(** [(size_t)1 << (sizeof(size_t) * 4)] *)
Definition MUL_NO_OVERFLOW : Z := 2 ^ 32.

(* @map util_memory.c:101-143 nr_reallocarray *)
Definition nr_reallocarray (ptr : list (option A)) (nmemb size : Z)
  : option (list (option A)) :=
  if ((MUL_NO_OVERFLOW <=? nmemb) || (MUL_NO_OVERFLOW <=? size))
     && (0 <? nmemb) && (SIZE_MAX / nmemb <? size)
  then None
  else if negb (bool_decide (ptr = [])) && ((0 =? size) || (0 =? nmemb))
  then None
  else if realloc_ok (u64 (size * nmemb))
  then Some (resize (Z.to_nat nmemb) None ptr)
  else None.
End Alloc.

(** The size of a pointer. *)
Definition sizeof_ptr : Z := 8.

(** ** The vector *)

(* @map util_vector.h:13-20 nr_vector_t *)
Record nr_vector_t (A : Type) : Type := mk_vector {
  v_capacity : Z;
  v_used : Z;
  v_elements : list (option A);
  v_dtor : bool  (** whether a destructor is registered *)
}.
Arguments mk_vector {A} _ _ _ _.
Arguments v_capacity {A} _.
Arguments v_used {A} _.
Arguments v_elements {A} _.
Arguments v_dtor {A} _.

Section Vector.
Context {A : Type} `{EqDecision A}.
Context (realloc_ok : Z -> bool).

Implicit Types (v : nr_vector_t A) (e : option A).

(** [v->elements[i]] *)
Definition elem_at (v : nr_vector_t A) (i : Z) : option A := v_elements v !!! Z.to_nat i.

(* @map util_vector.c:16-25 nr_vector_init_impl *)
Definition nr_vector_init_impl (initial : Z) (dtor : bool) : nr_vector_t A :=
  let capacity := if initial =? 0 then 8 else initial in
  mk_vector capacity 0 (replicate (Z.to_nat capacity) None) dtor.

(* @map util_vector.c:27-34 nr_vector_create *)
Definition nr_vector_create (initial : Z) (dtor : bool) : nr_vector_t A :=
  nr_vector_init_impl initial dtor.

(* @map util_vector.c:36-46 nr_vector_init *)
Definition nr_vector_init (vp : option (nr_vector_t A)) (initial : Z) (dtor : bool)
  : bool * option (nr_vector_t A) :=
  match vp with
  | None => (false, None)
  | Some _ => (true, Some (nr_vector_init_impl initial dtor))
  end.

(** The second component is the list of the elements given to the destructor. *)
(* @map util_vector.c:48-60 nr_vector_deinit_impl *)
Definition nr_vector_deinit_impl (v : nr_vector_t A) : nr_vector_t A * list (option A) :=
  let destroyed := if v_dtor v then take (Z.to_nat (v_used v)) (v_elements v) else [] in
  (mk_vector 0 0 [] (v_dtor v), destroyed).

(* @map util_vector.c:62-70 nr_vector_destroy *)
Definition nr_vector_destroy (v_ptr : option (option (nr_vector_t A)))
  : bool * option (option (nr_vector_t A)) * list (option A) :=
  match v_ptr with
  | None => (false, None, [])
  | Some None => (false, Some None, [])
  | Some (Some v) => (true, Some None, snd (nr_vector_deinit_impl v))
  end.

(* @map util_vector.c:72-79 nr_vector_deinit *)
Definition nr_vector_deinit (vp : option (nr_vector_t A))
  : bool * option (nr_vector_t A) * list (option A) :=
  match vp with
  | None => (false, None, [])
  | Some v => let '(v', destroyed) := nr_vector_deinit_impl v in (true, Some v', destroyed)
  end.

(** The loop [for (...; new_capacity < capacity; new_capacity *= 2);]. *)
(* @map util_vector.c:89-91 nr_vector_ensure_impl *)
Fixpoint ensure_loop (fuel : nat) (new_capacity capacity : Z) : option Z :=
  if new_capacity <? capacity then
    match fuel with
    | O => None
    | S fuel => ensure_loop fuel (u64 (new_capacity * 2)) capacity
    end
  else Some new_capacity.

(** Sixty-four doublings take any nonzero capacity past every [size_t] or to zero. *)
Definition ensure_fuel : nat := 64.

(* @map util_vector.c:81-102 nr_vector_ensure_impl *)
Definition nr_vector_ensure_impl (v : nr_vector_t A) (capacity : Z)
  : option (bool * nr_vector_t A) :=
  if capacity <=? v_capacity v then Some (true, v)
  else
    new_capacity ←
      ensure_loop ensure_fuel (if v_capacity v =? 0 then 8 else v_capacity v) capacity;
    match nr_reallocarray realloc_ok (v_elements v) new_capacity sizeof_ptr with
    | None => Some (false, v)
    | Some new_elements => Some (true, mk_vector new_capacity (v_used v) new_elements (v_dtor v))
    end.

(* @map util_vector.c:104-110 nr_vector_ensure *)
Definition nr_vector_ensure (vp : option (nr_vector_t A)) (capacity : Z)
  : option (bool * option (nr_vector_t A)) :=
  match vp with
  | None => Some (false, None)
  | Some v =>
      if capacity =? 0 then Some (false, Some v)
      else '(ok, v') ← nr_vector_ensure_impl v capacity; Some (ok, Some v')
  end.

(* @map util_vector.c:112-140 nr_vector_shrink_if_necessary_impl *)
Definition nr_vector_shrink_if_necessary (v : nr_vector_t A) : bool * nr_vector_t A :=
  if (v_used v <? 4) || (v_capacity v / 2 <=? v_used v) then (true, v)
  else
    let new_capacity := v_capacity v / 2 in
    match nr_reallocarray realloc_ok (v_elements v) new_capacity sizeof_ptr with
    | None => (false, v)
    | Some new_elements => (true, mk_vector new_capacity (v_used v) new_elements (v_dtor v))
    end.

(* @map util_vector.c:142-162 nr_vector_insert_impl *)
Definition nr_vector_insert_impl (v : nr_vector_t A) (pos : Z) (element : option A)
  : option (bool * nr_vector_t A) :=
  '(ok, v) ← nr_vector_ensure_impl v (u64 (v_used v + 1));
  if negb ok then Some (false, v)
  else
    let '(pos, elements) :=
      if pos <? v_used v
      then (pos, memmove (v_elements v) (Z.to_nat (pos + 1)) (Z.to_nat pos)
                   (Z.to_nat (v_used v - pos)))
      else (v_used v, v_elements v) in
    Some (true, mk_vector (v_capacity v) (u64 (v_used v + 1))
                  (<[Z.to_nat pos := element]> elements) (v_dtor v)).

(** The last component is what [*element_ptr] was set to, when it was. *)
(* @map util_vector.c:164-183 nr_vector_remove_impl *)
Definition nr_vector_remove_impl (v : nr_vector_t A) (pos : Z)
  : bool * nr_vector_t A * option (option A) :=
  if v_used v <=? pos then (false, v, None)
  else
    let element := elem_at v pos in
    let elements :=
      if pos <? v_used v - 1
      then memmove (v_elements v) (Z.to_nat pos) (Z.to_nat (pos + 1))
             (Z.to_nat (v_used v - pos - 1))
      else v_elements v in
    let v' := mk_vector (v_capacity v) (v_used v - 1) elements (v_dtor v) in
    (true, snd (nr_vector_shrink_if_necessary v'), Some element).

(* @map util_vector.c:211-217 nr_vector_insert *)
Definition nr_vector_insert (vp : option (nr_vector_t A)) (pos : Z) (element : option A)
  : option (bool * option (nr_vector_t A)) :=
  match vp with
  | None => Some (false, None)
  | Some v => '(ok, v') ← nr_vector_insert_impl v pos element; Some (ok, Some v')
  end.

(** [element_ptr] says whether the pointer argument is not NULL. *)
(* @map util_vector.c:219-225 nr_vector_remove *)
Definition nr_vector_remove (vp : option (nr_vector_t A)) (pos : Z) (element_ptr : bool)
  : bool * option (nr_vector_t A) * option (option A) :=
  match vp with
  | None => (false, None, None)
  | Some v =>
      if negb element_ptr then (false, Some v, None)
      else let '(ok, v', e) := nr_vector_remove_impl v pos in (ok, Some v', e)
  end.

(* @map util_vector.c:185-187 nr_vector_push_front *)
Definition nr_vector_push_front (vp : option (nr_vector_t A)) (element : option A) :=
  nr_vector_insert vp 0 element.

(* @map util_vector.c:189-195 nr_vector_push_back *)
Definition nr_vector_push_back (vp : option (nr_vector_t A)) (element : option A)
  : option (bool * option (nr_vector_t A)) :=
  match vp with
  | None => Some (false, None)
  | Some v => '(ok, v') ← nr_vector_insert_impl v (v_used v) element; Some (ok, Some v')
  end.

(* @map util_vector.c:197-199 nr_vector_pop_front *)
Definition nr_vector_pop_front (vp : option (nr_vector_t A)) (element_ptr : bool) :=
  nr_vector_remove vp 0 element_ptr.

(* @map util_vector.c:201-209 nr_vector_pop_back *)
Definition nr_vector_pop_back (vp : option (nr_vector_t A)) (element_ptr : bool)
  : bool * option (nr_vector_t A) * option (option A) :=
  match vp with
  | None => (false, None, None)
  | Some v =>
      if negb element_ptr || (v_used v =? 0) then (false, Some v, None)
      else let '(ok, v', e) := nr_vector_remove_impl v (v_used v - 1) in (ok, Some v', e)
  end.

(* @map util_vector.h:82-84 nr_vector_capacity *)
Definition nr_vector_capacity (vp : option (nr_vector_t A)) : Z :=
  match vp with Some v => v_capacity v | None => 0 end.

(* @map util_vector.h:95-97 nr_vector_size *)
Definition nr_vector_size (vp : option (nr_vector_t A)) : Z :=
  match vp with Some v => v_used v | None => 0 end.

(* @map util_vector.h:203-209 nr_vector_get *)
Definition nr_vector_get (vp : option (nr_vector_t A)) (pos : Z) : option A :=
  match vp with
  | None => None
  | Some v => if v_used v <=? pos then None else elem_at v pos
  end.

(* @map util_vector.c:227-234 nr_vector_get_element *)
Definition nr_vector_get_element (vp : option (nr_vector_t A)) (pos : Z) (element_ptr : bool)
  : bool * option (option A) :=
  match vp with
  | None => (false, None)
  | Some v =>
      if negb element_ptr || (v_used v <=? pos) then (false, None)
      else (true, Some (elem_at v pos))
  end.

(** The last component lists what the destructor was called on. *)
(* @map util_vector.c:236-247 nr_vector_replace *)
Definition nr_vector_replace (vp : option (nr_vector_t A)) (pos : Z) (element : option A)
  : bool * option (nr_vector_t A) * list (option A) :=
  match vp with
  | None => (false, None, [])
  | Some v =>
      if v_used v <=? pos then (false, Some v, [])
      else
        let destroyed := if v_dtor v then [elem_at v pos] else [] in
        (true,
         Some (mk_vector (v_capacity v) (v_used v)
                 (<[Z.to_nat pos := element]> (v_elements v)) (v_dtor v)),
         destroyed)
  end.

(** The comparator is [None] when NULL.  [qsort_r] is the C library's. *)
(* @map util_sort.c:70-93 nr_sort *)
Definition nr_sort (qsort_r : (option A -> option A -> Z) -> list (option A) -> list (option A))
    (base : list (option A)) (nmemb : Z) (compar : option (option A -> option A -> Z))
  : list (option A) :=
  match compar with
  | None => base
  | Some cmp => qsort_r cmp (take (Z.to_nat nmemb) base) ++ drop (Z.to_nat nmemb) base
  end.

(* @map util_vector.c:254-281 nr_vector_sort *)
Definition nr_vector_sort
    (qsort_r : (option A -> option A -> Z) -> list (option A) -> list (option A))
    (vp : option (nr_vector_t A)) (comparator : option (option A -> option A -> Z))
  : bool * option (nr_vector_t A) :=
  match vp, comparator with
  | Some v, Some cmp =>
      (true, Some (mk_vector (v_capacity v) (v_used v)
                     (nr_sort qsort_r (v_elements v) (v_used v) (Some cmp)) (v_dtor v)))
  | _, _ => (false, vp)
  end.

(** The callback threads the state its [userdata] points to. *)
(* @map util_vector.c:292-298 nr_vector_iterate *)
Fixpoint iterate_loop {S : Type} (callback : option A -> S -> bool * S)
    (elements : list (option A)) (st : S) : bool * S :=
  match elements with
  | [] => (true, st)
  | e :: rest =>
      let '(continue, st) := callback e st in
      if negb continue then (false, st) else iterate_loop callback rest st
  end.

(* @map util_vector.c:283-299 nr_vector_iterate *)
Definition nr_vector_iterate {S : Type} (vp : option (nr_vector_t A))
    (callback : option (option A -> S -> bool * S)) (userdata : S) : bool * S :=
  match vp, callback with
  | Some v, Some f => iterate_loop f (take (Z.to_nat (v_used v)) (v_elements v)) userdata
  | _, _ => (false, userdata)
  end.

(** The loop of both searches: [for (i = start; i < v->used; i += delta)].  The inner option
    is the index found; a [delta] of [-1] leaves the array by wrapping past zero. *)
(* @map util_vector.c:310-319 nr_vector_find_comparator *)
Fixpoint find_loop (fuel : nat) (found : option A -> bool) (v : nr_vector_t A) (i delta : Z)
  : option (option Z) :=
  if i <? v_used v then
    match fuel with
    | O => None
    | S fuel =>
        if found (elem_at v i) then Some (Some i)
        else find_loop fuel found v (u64 (i + delta)) delta
    end
  else Some None.

Definition find_fuel (v : nr_vector_t A) : nat := S (Z.to_nat (v_used v)).

(* @map util_vector.c:301-320 nr_vector_find_comparator *)
Definition nr_vector_find_comparator (v : nr_vector_t A) (start delta : Z) (needle : option A)
    (comparator : option A -> option A -> Z) : option (option Z) :=
  find_loop (find_fuel v) (fun x => 0 =? comparator x needle) v start delta.

(* @map util_vector.c:322-339 nr_vector_find_direct *)
Definition nr_vector_find_direct (v : nr_vector_t A) (start delta : Z) (needle : option A)
  : option (option Z) :=
  find_loop (find_fuel v) (fun x => bool_decide (x = needle)) v start delta.

(* @map util_vector.c:341-362 nr_vector_find *)
Definition nr_vector_find (v : nr_vector_t A) (start : Z) (forward : bool) (needle : option A)
    (comparator : option (option A -> option A -> Z)) : option (option Z) :=
  let delta := if forward then 1 else -1 in
  if v_used v <=? start then Some None
  else match comparator with
       | Some cmp => nr_vector_find_comparator v start delta needle cmp
       | None => nr_vector_find_direct v start delta needle
       end.

(* @map util_vector.c:364-378 nr_vector_find_first *)
Definition nr_vector_find_first (vp : option (nr_vector_t A)) (needle : option A)
    (comparator : option (option A -> option A -> Z)) : option (option Z) :=
  match vp with
  | None => Some None
  | Some v => if v_used v =? 0 then Some None else nr_vector_find v 0 true needle comparator
  end.

(* @map util_vector.c:380-395 nr_vector_find_last *)
Definition nr_vector_find_last (vp : option (nr_vector_t A)) (needle : option A)
    (comparator : option (option A -> option A -> Z)) : option (option Z) :=
  match vp with
  | None => Some None
  | Some v =>
      if v_used v =? 0 then Some None
      else nr_vector_find v (v_used v - 1) false needle comparator
  end.

(** ** Stacks: a stack is a vector *)

Definition NR_STACK_DEFAULT_CAPACITY : Z := 32.

(* @map util_stack.c:4-10 nr_stack_init *)
Definition nr_stack_init (s : option (nr_vector_t A)) (capacity : Z)
  : bool * option (nr_vector_t A) :=
  if capacity =? 0 then (false, s) else nr_vector_init s capacity false.

(* @map util_stack.h:38-44 nr_stack_is_empty *)
Definition nr_stack_is_empty (s : option (nr_vector_t A)) : bool :=
  match s with Some _ => nr_vector_size s =? 0 | None => true end.

(* @map util_stack.c:12-20 nr_stack_get_top *)
Definition nr_stack_get_top (s : option (nr_vector_t A)) : option A :=
  let size := nr_vector_size s in
  if size =? 0 then None else nr_vector_get s (size - 1).

(* @map util_stack.c:22-24 nr_stack_push *)
Definition nr_stack_push (s : option (nr_vector_t A)) (new_element : option A)
  : option (option (nr_vector_t A)) :=
  snd <$> nr_vector_push_back s new_element.

(* @map util_stack.c:26-31 nr_stack_pop *)
Definition nr_stack_pop (s : option (nr_vector_t A))
  : option A * option (nr_vector_t A) :=
  let '(_, s, element) := nr_vector_pop_back s true in
  (default None element, s).

(* @map util_stack.c:33-35 nr_stack_destroy_fields *)
Definition nr_stack_destroy_fields (s : option (nr_vector_t A)) : option (nr_vector_t A) :=
  let '(_, s, _) := nr_vector_deinit s in s.

(* @map util_stack.c:37-52 nr_stack_remove_topmost *)
Definition nr_stack_remove_topmost (s : option (nr_vector_t A)) (element : option A)
  : option (bool * option (nr_vector_t A)) :=
  index ← nr_vector_find_last s element None;
  match index with
  | Some index => let '(ok, s, _) := nr_vector_remove s index true in Some (ok, s)
  | None => Some (false, s)
  end.

(** ** The abstract vector: a list *)

Definition vrep (v : nr_vector_t A) (l : list (option A)) : Prop :=
  v_used v = Z.of_nat (length l)
  /\ v_capacity v = Z.of_nat (length (v_elements v))
  /\ v_capacity v < 2 ^ 60
  /\ exists junk, v_elements v = l ++ junk.

(** Insertion before position [pos], at the end when [pos] is past it. *)
Definition list_insert_at (l : list (option A)) (pos : Z) (e : option A) : list (option A) :=
  take (Z.to_nat pos) l ++ e :: drop (Z.to_nat pos) l.

Definition list_delete_at (l : list (option A)) (pos : Z) : list (option A) :=
  take (Z.to_nat pos) l ++ drop (Z.to_nat pos + 1) l.

(** glibc refuses allocations of more than [PTRDIFF_MAX] bytes. *)
Definition realloc_limited : Prop := forall n, realloc_ok n = true -> n < 2 ^ 63.

Lemma vrep_elem_at v l i :
  vrep v l -> 0 <= i < v_used v -> elem_at v i = l !!! Z.to_nat i.
Proof.
  intros (Hu & _ & _ & junk & He) Hi. unfold elem_at. rewrite He.
  apply lookup_total_app_l. lia.
Qed.

Lemma vrep_take v l : vrep v l -> take (Z.to_nat (v_used v)) (v_elements v) = l.
Proof.
  intros (Hu & _ & _ & junk & He). rewrite He, Hu, Nat2Z.id. apply take_app_length.
Qed.

Lemma ensure_loop_spec (fuel : nat) (c req : Z) :
  0 < c -> req <= 2 ^ 63 -> req <= c * 2 ^ Z.of_nat fuel ->
  exists n, ensure_loop fuel c req = Some n /\ req <= n /\ c <= n /\ (n = c \/ n < 2 * req).
Proof.
  revert c. induction fuel as [|fuel IH]; intros c Hc Hr Hf; simpl.
  - rewrite Z.mul_1_r in Hf. destruct (Z.ltb_spec c req); [lia|]. exists c. split_and!; [done|lia..|by left].
  - destruct (Z.ltb_spec c req) as [Hlt|Hge]; [|exists c; split_and!; [done|lia..|by left]].
    rewrite u64_id by (unfold in_u64; lia).
    rewrite Nat2Z.inj_succ, Z.pow_succ_r in Hf by lia.
    destruct (IH (c * 2)) as (n & -> & ? & ? & Hn); [lia|lia|lia|].
    exists n. split_and!; [done|lia..|destruct Hn; lia].
Qed.

Lemma ensure_loop_zero (fuel : nat) (req : Z) : 0 < req -> ensure_loop fuel 0 req = None.
Proof.
  intros H. induction fuel as [|fuel IH]; simpl; destruct (Z.ltb_spec 0 req); try lia; done.
Qed.

(** From a power of two, a request above [2^63] makes the capacity wrap to zero, and the
    loop never ends. *)
Lemma ensure_loop_overflow (fuel : nat) (k req : Z) :
  0 <= k <= 63 -> 2 ^ 63 < req -> ensure_loop fuel (2 ^ k) req = None.
Proof.
  revert k. induction fuel as [|fuel IH]; intros k Hk Hr; simpl;
    (assert (2 ^ k <= 2 ^ 63) by (apply Z.pow_le_mono_r; lia));
    destruct (Z.ltb_spec (2 ^ k) req); try lia; [done|].
  replace (2 ^ k * 2) with (2 ^ (k + 1)) by (rewrite Z.pow_add_r; lia).
  destruct (decide (k = 63)) as [->|].
  - apply ensure_loop_zero. lia.
  - rewrite u64_id; [apply IH; lia|].
    assert (2 ^ (k + 1) <= 2 ^ 63) by (apply Z.pow_le_mono_r; lia).
    unfold in_u64. lia.
Qed.

Lemma nr_reallocarray_spec (ptr : list (option A)) (n : Z) (new : list (option A)) :
  realloc_limited -> 0 < n < 2 ^ 61 ->
  nr_reallocarray realloc_ok ptr n sizeof_ptr = Some new ->
  n < 2 ^ 60 /\ new = resize (Z.to_nat n) None ptr.
Proof.
  intros Hlim Hn. unfold nr_reallocarray, sizeof_ptr. repeat case_if; try done.
  intros [= <-]. split; [|done]. apply Hlim in E1. rewrite u64_id in E1; unfold in_u64; lia.
Qed.

(** Memory is short: a request of at most [n] slots, and at most eight or twice as many,
    was refused. *)
Definition refused (n : Z) : Prop :=
  exists bytes, 0 <= bytes <= 64 + 16 * n /\ realloc_ok bytes = false.

Lemma nr_reallocarray_refused (ptr : list (option A)) (n : Z) :
  0 < n < 2 ^ 61 -> nr_reallocarray realloc_ok ptr n sizeof_ptr = None ->
  realloc_ok (n * sizeof_ptr) = false.
Proof.
  intros Hn. unfold nr_reallocarray, sizeof_ptr, MUL_NO_OVERFLOW, SIZE_MAX.
  assert (8 <= (2 ^ 64 - 1) / n) by (apply Z.div_le_lower_bound; lia).
  destruct (Z.ltb_spec ((2 ^ 64 - 1) / n) 8); [lia|]. rewrite andb_false_r.
  destruct (Z.eqb_spec 0 n); [lia|]. simpl. rewrite andb_false_r.
  rewrite u64_id by (unfold in_u64; lia). rewrite Z.mul_comm. by case_if.
Qed.

Lemma nr_vector_ensure_impl_spec v l (req : Z) :
  realloc_limited -> vrep v l -> 0 < req <= 2 ^ 60 ->
  exists ok v', nr_vector_ensure_impl v req = Some (ok, v')
    /\ vrep v' l /\ v_used v' = v_used v
    /\ (ok = true -> req <= v_capacity v') /\ (ok = false -> v' = v /\ refused req).
Proof.
  intros Hlim Hv Hreq. unfold nr_vector_ensure_impl.
  destruct (Z.leb_spec req (v_capacity v)) as [|Hlt].
  { exists true, v. by split_and!. }
  pose proof Hv as (Hu & Hc & Hb & junk & He).
  set (c0 := if v_capacity v =? 0 then 8 else v_capacity v).
  assert (Hc0 : 0 < c0 < 2 ^ 60 /\ (v_capacity v <= c0)) by (subst c0; case_if; boolp; lia).
  destruct (ensure_loop_spec ensure_fuel c0 req) as (n & -> & ? & ? & Hn);
    [lia|lia|unfold ensure_fuel; lia|].
  assert (Hn8 : n = 8 \/ n < 2 * req) by (subst c0; destruct Hn as [->|]; [case_if; boolp; lia|by right]).
  simpl. destruct (nr_reallocarray _ _ _ _) as [new|] eqn:Hnew.
  - apply nr_reallocarray_spec in Hnew as [? ->]; [|done|lia].
    eexists true, _. split; [done|]. split; [|by split_and!].
    split_and!; simpl; [done|rewrite length_resize; lia|lia|].
    rewrite He. exists (resize (Z.to_nat n - length l) None junk).
    rewrite resize_app_ge; [done|]. rewrite Hc, He, length_app in *. lia.
  - exists false, v. split_and!; [done..|]. intros _. split; [done|].
    apply nr_reallocarray_refused in Hnew; [|lia]. unfold sizeof_ptr in Hnew.
    exists (n * 8). split; [lia|done].
Qed.

Lemma list_insert_at_ge l pos e :
  Z.of_nat (length l) <= pos -> list_insert_at l pos e = l ++ [e].
Proof. intros H. unfold list_insert_at. rewrite take_ge, drop_ge by lia. done. Qed.

(** Insertion returns, whatever the allocator does; it inserts or leaves the vector. *)
Lemma nr_vector_insert_impl_spec v l pos e :
  realloc_limited -> vrep v l -> 0 <= pos ->
  exists ok v', nr_vector_insert_impl v pos e = Some (ok, v')
    /\ (if ok then vrep v' (list_insert_at l pos e)
        else v' = v /\ refused (Z.of_nat (length l) + 1)).
Proof.
  intros Hlim Hv Hpos. unfold nr_vector_insert_impl.
  pose proof Hv as (Hu & Hc & Hb & junk & He).
  assert (Z.of_nat (length l) <= v_capacity v) by (rewrite Hc, He, length_app; lia).
  rewrite (u64_id (v_used v + 1)) by (unfold in_u64; lia).
  destruct (nr_vector_ensure_impl_spec v l (v_used v + 1) Hlim Hv) as (ok & v1 & -> & Hv1 & Hu1 & Hok & Hno);
    [lia|].
  simpl. destruct ok; simpl; [|by exists false, v1; rewrite <- Hu; auto].
  specialize (Hok eq_refl).
  destruct Hv1 as (Hu1' & Hc1 & Hb1 & junk1 & He1).
  assert (Hj : (1 <= length junk1)%nat) by (rewrite Hc1, He1, length_app in Hok; lia).
  destruct (Z.ltb_spec pos (v_used v1)) as [Hlt|Hge].
  - eexists true, _. split; [done|].
    assert (Hres : <[Z.to_nat pos:=e]> (memmove (v_elements v1) (Z.to_nat (pos + 1)) (Z.to_nat pos)
                                 (Z.to_nat (v_used v1 - pos)))
              = list_insert_at l pos e ++ drop 1 junk1).
    { rewrite He1. replace (Z.to_nat (pos + 1)) with (Z.to_nat pos + 1)%nat by lia.
      replace (Z.to_nat (v_used v1 - pos)) with (length l - Z.to_nat pos)%nat by lia.
      apply memmove_up_insert; lia. }
    split_and!; simpl; [| |done|by exists (drop 1 junk1)].
    + rewrite u64_id by (unfold in_u64; lia). unfold list_insert_at.
      rewrite length_app, length_take; simpl; rewrite length_drop. lia.
    + rewrite length_insert, length_memmove; [done|rewrite Hc1 in *; lia..].
  - eexists true, _. split; [done|]. rewrite list_insert_at_ge by lia.
    split_and!; simpl; [|by rewrite length_insert|done|exists (drop 1 junk1)].
    + rewrite u64_id by (unfold in_u64; lia). rewrite length_app. simpl. lia.
    + rewrite He1, Hu1', Nat2Z.id. destruct junk1 as [|j junk1]; simpl in *; [lia|].
      rewrite drop_0, <- app_assoc. simpl.
      rewrite <- (Nat.add_0_r (length l)), insert_app_r. done.
Qed.

Lemma nr_vector_shrink_spec v l :
  realloc_limited -> vrep v l -> vrep (snd (nr_vector_shrink_if_necessary v)) l.
Proof.
  intros Hlim Hv. unfold nr_vector_shrink_if_necessary. case_if; [done|]. boolp.
  destruct (nr_reallocarray _ _ _ _) as [new|] eqn:Hnew; simpl; [|done].
  destruct Hv as (Hu & Hc & Hb & junk & He).
  apply nr_reallocarray_spec in Hnew as [? ->]; [|done|dlia].
  split_and!; simpl; [done|rewrite length_resize; dlia|done|].
  rewrite He. exists (resize (Z.to_nat (v_capacity v / 2) - length l) None junk).
  apply resize_app_ge. dlia.
Qed.

Lemma nr_vector_remove_impl_spec v l pos :
  realloc_limited -> vrep v l -> 0 <= pos < v_used v ->
  exists v', nr_vector_remove_impl v pos = (true, v', Some (l !!! Z.to_nat pos))
    /\ vrep v' (list_delete_at l pos).
Proof.
  intros Hlim Hv Hpos. unfold nr_vector_remove_impl.
  destruct (Z.leb_spec (v_used v) pos); [lia|].
  rewrite (vrep_elem_at v l) by (done || lia).
  eexists. split; [done|]. apply nr_vector_shrink_spec; [done|].
  destruct Hv as (Hu & Hc & Hb & junk & He).
  assert (Hlen : length (list_delete_at l pos) = (length l - 1)%nat)
    by (unfold list_delete_at; rewrite length_app, length_take, length_drop; lia).
  split_and!; simpl; [lia| |done|].
  - case_if; [|done]. rewrite length_memmove; [done|rewrite He, length_app; lia..].
  - destruct (Z.ltb_spec pos (v_used v - 1)).
    + pose proof (memmove_down_delete l junk (Z.to_nat pos)) as Hm.
      replace (Z.to_nat (pos + 1)) with (Z.to_nat pos + 1)%nat by lia.
      replace (Z.to_nat (v_used v - pos - 1)) with (length l - Z.to_nat pos - 1)%nat by lia.
      rewrite He. unfold list_delete_at. rewrite <- Hm by lia.
      eexists. symmetry. apply take_drop.
    + rewrite He. exists (drop (length l - 1) l ++ junk).
      rewrite app_assoc. f_equal. unfold list_delete_at.
      rewrite (drop_ge l (Z.to_nat pos + 1)), app_nil_r by lia.
      replace (Z.to_nat pos) with (length l - 1)%nat by lia.
      symmetry. apply take_drop.
Qed.

Lemma vrep_replace v l pos e :
  vrep v l -> 0 <= pos < v_used v ->
  vrep (mk_vector (v_capacity v) (v_used v) (<[Z.to_nat pos:=e]> (v_elements v)) (v_dtor v))
    (<[Z.to_nat pos:=e]> l).
Proof.
  intros (Hu & Hc & Hb & junk & He) Hpos.
  split_and!; simpl; [by rewrite length_insert|by rewrite length_insert|done|].
  exists junk. rewrite He. apply insert_app_l. lia.
Qed.

Lemma vrep_init (initial : Z) (dtor : bool) :
  0 <= initial < 2 ^ 60 -> vrep (nr_vector_init_impl initial dtor) [].
Proof.
  intros H. unfold nr_vector_init_impl. case_if; boolp; split_and!; simpl;
    rewrite ?length_replicate; try lia; try done; by eexists.
Qed.

(** *** Searching *)

(** [r] is the first index of [l] that satisfies [p], from [from] on. *)
Definition first_match (p : option A -> bool) (l : list (option A)) (from : Z) (r : option Z)
  : Prop :=
  match r with
  | Some i => from <= i < Z.of_nat (length l) /\ p (l !!! Z.to_nat i) = true
              /\ forall j, from <= j < i -> p (l !!! Z.to_nat j) = false
  | None => forall j, from <= j < Z.of_nat (length l) -> p (l !!! Z.to_nat j) = false
  end.

(** [r] is the last index of [l] up to [upto] that satisfies [p]. *)
Definition last_match (p : option A -> bool) (l : list (option A)) (upto : Z) (r : option Z)
  : Prop :=
  match r with
  | Some i => 0 <= i <= upto /\ p (l !!! Z.to_nat i) = true
              /\ forall j, i < j <= upto -> p (l !!! Z.to_nat j) = false
  | None => forall j, 0 <= j <= upto -> p (l !!! Z.to_nat j) = false
  end.

Lemma find_loop_forward (fuel : nat) p v l i :
  vrep v l -> 0 <= i -> (Z.to_nat (v_used v - i) <= fuel)%nat ->
  exists r, find_loop fuel p v i 1 = Some r /\ first_match p l i r.
Proof.
  intros Hv. pose proof Hv as (Hu & Hc & Hb & junk & He).
  assert (v_used v < 2 ^ 60) by (rewrite Hc, He, length_app in Hb; lia).
  revert i. induction fuel as [|fuel IH]; intros i Hi Hf; simpl;
    destruct (Z.ltb_spec i (v_used v)); try lia;
    try (exists None; split; [done|]; simpl; lia).
  rewrite (vrep_elem_at v l) by (done || lia).
  destruct (p (l !!! Z.to_nat i)) eqn:Hp.
  - exists (Some i). split; [done|]. simpl. split_and!; [lia|lia|done|lia].
  - rewrite u64_id by (unfold in_u64; lia).
    destruct (IH (i + 1)) as (r & -> & Hr); [lia|lia|]. exists r. split; [done|].
    destruct r as [k|]; simpl in *.
    + destruct Hr as (? & ? & Hb'). split_and!; [lia|lia|done|].
      intros j Hj. destruct (decide (j = i)) as [->|]; [done|apply Hb'; lia].
    + intros j Hj. destruct (decide (j = i)) as [->|]; [done|apply Hr; lia].
Qed.

Lemma find_loop_backward (fuel : nat) p v l i :
  vrep v l -> 0 <= i < v_used v -> (Z.to_nat i < fuel)%nat ->
  exists r, find_loop fuel p v i (-1) = Some r /\ last_match p l i r.
Proof.
  intros Hv. pose proof Hv as (Hu & Hc & Hb & junk & He).
  assert (v_used v < 2 ^ 60) by (rewrite Hc, He, length_app in Hb; lia).
  revert i. induction fuel as [|fuel IH]; intros i Hi Hf; [lia|].
  cbn [find_loop]. destruct (Z.ltb_spec i (v_used v)); [|lia].
  rewrite (vrep_elem_at v l) by (done || lia).
  destruct (p (l !!! Z.to_nat i)) eqn:Hp.
  { exists (Some i). split; [done|]. simpl. split_and!; [lia|lia|done|lia]. }
  destruct (decide (i = 0)) as [->|Hi0].
  - exists None. split.
    + destruct fuel; simpl; destruct (Z.ltb_spec (u64 (0 + -1)) (v_used v)) as [Hw|]; try done;
        exfalso; revert Hw; change (u64 (0 + -1)) with (2 ^ 64 - 1); lia.
    + simpl. intros j Hj. by replace j with 0 by lia.
  - rewrite u64_id by (unfold in_u64; lia).
    destruct (IH (i + -1)) as (r & -> & Hr); [lia|lia|]. exists r. split; [done|].
    destruct r as [k|]; simpl in *.
    + destruct Hr as (? & ? & Hb'). split_and!; [lia|lia|done|].
      intros j Hj. destruct (decide (j = i)) as [->|]; [done|apply Hb'; lia].
    + intros j Hj. destruct (decide (j = i)) as [->|]; [done|apply Hr; lia].
Qed.

(** What [comparator] looks for: pointer equality when it is NULL. *)
Definition found_by (comparator : option (option A -> option A -> Z)) (needle x : option A)
  : bool :=
  match comparator with
  | Some cmp => 0 =? cmp x needle
  | None => bool_decide (x = needle)
  end.

Lemma nr_vector_find_spec v l start forward needle comparator :
  vrep v l -> 0 <= start ->
  exists r, nr_vector_find v start forward needle comparator = Some r /\
    (if v_used v <=? start then r = None
     else if forward then first_match (found_by comparator needle) l start r
     else last_match (found_by comparator needle) l start r).
Proof.
  intros Hv Hs. unfold nr_vector_find. destruct (Z.leb_spec (v_used v) start); [by exists None|].
  destruct forward, comparator;
    unfold nr_vector_find_comparator, nr_vector_find_direct, find_fuel;
    (apply find_loop_forward || apply find_loop_backward); (done || lia).
Qed.

Lemma nr_vector_find_last_spec v l needle comparator :
  vrep v l ->
  exists r, nr_vector_find_last (Some v) needle comparator = Some r
    /\ last_match (found_by comparator needle) l (v_used v - 1) r.
Proof.
  intros Hv. simpl. pose proof Hv as (Hu & _).
  destruct (Z.eqb_spec (v_used v) 0) as [H0|H0].
  - exists None. split; [done|]. simpl. lia.
  - destruct (nr_vector_find_spec v l (v_used v - 1) false needle comparator) as (r & -> & Hr);
      [done|lia|].
    destruct (Z.leb_spec (v_used v) (v_used v - 1)); [lia|]. by exists r.
Qed.

(** *** Refinement: sequences of calls *)

Inductive vec_op : Type :=
| PushFront (e : option A) | PushBack (e : option A) | Insert (pos : Z) (e : option A)
| PopFront | PopBack | Remove (pos : Z)
| Replace (pos : Z) (e : option A) | Get (pos : Z) | FindFirst (needle : option A).

Inductive vec_out : Type :=
| OStatus (ok : bool) | OElement (e : option (option A)) | OIndex (i : option Z).

Definition run_op (vp : option (nr_vector_t A)) (op : vec_op)
  : option (vec_out * option (nr_vector_t A)) :=
  let removal '(ok, v, e) := Some (OElement e, v) in
  match op with
  | PushFront e => '(ok, v) ← nr_vector_push_front vp e; Some (OStatus ok, v)
  | PushBack e => '(ok, v) ← nr_vector_push_back vp e; Some (OStatus ok, v)
  | Insert pos e => '(ok, v) ← nr_vector_insert vp pos e; Some (OStatus ok, v)
  | PopFront => removal (nr_vector_pop_front vp true)
  | PopBack => removal (nr_vector_pop_back vp true)
  | Remove pos => removal (nr_vector_remove vp pos true)
  | Replace pos e => let '(ok, v, _) := nr_vector_replace vp pos e in Some (OStatus ok, v)
  | Get pos => Some (OElement (snd (nr_vector_get_element vp pos true)), vp)
  | FindFirst needle => r ← nr_vector_find_first vp needle None; Some (OIndex r, vp)
  end.

(** What the same call does to a list; the position of an insertion is clipped by
    [list_insert_at], and an insertion may fail for lack of memory. *)
Definition removes_at (l : list (option A)) (pos : Z) (o : vec_out) (l' : list (option A))
  : Prop :=
  if Z.of_nat (length l) <=? pos then o = OElement None /\ l' = l
  else o = OElement (Some (l !!! Z.to_nat pos)) /\ l' = list_delete_at l pos.

Definition inserts_at (l : list (option A)) (pos : Z) (e : option A) (o : vec_out)
    (l' : list (option A)) : Prop :=
  (o = OStatus true /\ l' = list_insert_at l pos e) 
  \/ (o = OStatus false /\ l' = l /\ refused (Z.of_nat (length l) + 1)).

Definition list_step (l : list (option A)) (op : vec_op) (o : vec_out) (l' : list (option A))
  : Prop :=
  match op with
  | PushFront e => inserts_at l 0 e o l'
  | PushBack e => inserts_at l (Z.of_nat (length l)) e o l'
  | Insert pos e => inserts_at l pos e o l'
  | PopFront => removes_at l 0 o l'
  | PopBack => if (length l =? 0)%nat then o = OElement None /\ l' = l
               else removes_at l (Z.of_nat (length l) - 1) o l'
  | Remove pos => removes_at l pos o l'
  | Replace pos e =>
      if Z.of_nat (length l) <=? pos then o = OStatus false /\ l' = l
      else o = OStatus true /\ l' = <[Z.to_nat pos := e]> l
  | Get pos => l' = l /\ o = OElement (if Z.of_nat (length l) <=? pos then None
                                        else Some (l !!! Z.to_nat pos))
  | FindFirst needle =>
      l' = l /\ exists r, o = OIndex r /\ first_match (found_by None needle) l 0 r
  end.

(** Positions are [size_t]. *)
Definition op_wf (op : vec_op) : Prop :=
  match op with
  | Insert pos _ | Remove pos | Replace pos _ | Get pos => 0 <= pos
  | _ => True
  end.

Lemma insert_refines v l pos e :
  realloc_limited -> vrep v l -> 0 <= pos ->
  exists o v' l', ('(ok, v') ← nr_vector_insert_impl v pos e; Some (OStatus ok, Some v'))
                   = Some (o, Some v')
    /\ inserts_at l pos e o l' /\ vrep v' l'.
Proof.
  intros Hlim Hv Hpos.
  destruct (nr_vector_insert_impl_spec v l pos e Hlim Hv Hpos) as (ok & v' & -> & Hok).
  simpl. exists (OStatus ok), v'. destruct ok; [|destruct Hok as [-> ?]];
    eexists; (split_and!; [done| |eassumption]); [by left|by right].
Qed.

Lemma remove_refines v l pos :
  realloc_limited -> vrep v l -> 0 <= pos ->
  exists o v' l', (let '(ok, v', e) := nr_vector_remove_impl v pos in
                   Some (OElement e, Some v')) = Some (o, Some v')
    /\ removes_at l pos o l' /\ vrep v' l'.
Proof.
  intros Hlim Hv Hpos. pose proof Hv as (Hu & _). unfold removes_at.
  destruct (Z.leb_spec (Z.of_nat (length l)) pos) as [Hge|Hlt].
  - unfold nr_vector_remove_impl. destruct (Z.leb_spec (v_used v) pos); [|lia].
    exists (OElement None), v, l. by split_and!.
  - destruct (nr_vector_remove_impl_spec v l pos) as (v' & -> & Hv'); [done..|lia|].
    eexists _, v', _. split; [done|]. by split.
Qed.

Lemma run_op_refines v l op :
  realloc_limited -> vrep v l -> op_wf op ->
  exists o v' l', run_op (Some v) op = Some (o, Some v') /\ list_step l op o l' /\ vrep v' l'.
Proof.
  intros Hlim Hv Hop. pose proof Hv as (Hu & _). destruct op; simpl in *.
  - destruct (insert_refines v l 0 e) as (o & v' & l' & H & ?); [done..|].
    exists o, v', l'. split; [|done]. by destruct (nr_vector_insert_impl v 0 e) as [[]|].
  - rewrite <- Hu.
    destruct (insert_refines v l (v_used v) e) as (o & v' & l' & H & ?); [done|done|lia|].
    exists o, v', l'. split; [|done]. by destruct (nr_vector_insert_impl v (v_used v) e) as [[]|].
  - destruct (insert_refines v l pos e) as (o & v' & l' & H & ?); [done..|].
    exists o, v', l'. split; [|done]. by destruct (nr_vector_insert_impl v pos e) as [[]|].
  - destruct (remove_refines v l 0) as (o & v' & l' & H & ?); [done..|].
    exists o, v', l'. split; [|done]. simpl. by destruct (nr_vector_remove_impl v 0) as [[]].
  - destruct (Z.eqb_spec (v_used v) 0), (Nat.eqb_spec (length l) 0); try lia.
    { by exists (OElement None), v, l. }
    rewrite <- Hu.
    destruct (remove_refines v l (v_used v - 1)) as (o & v' & l' & H' & ?); [done|done|lia|].
    exists o, v', l'. split; [|done]. by destruct (nr_vector_remove_impl v (v_used v - 1)) as [[]].
  - destruct (remove_refines v l pos) as (o & v' & l' & H & ?); [done..|].
    exists o, v', l'. split; [|done]. simpl. by destruct (nr_vector_remove_impl v pos) as [[]].
  - rewrite <- Hu. destruct (Z.leb_spec (v_used v) pos).
    + by exists (OStatus false), v, l.
    + eexists (OStatus true), _, _. split; [done|]. split; [done|]. by apply vrep_replace; [|lia].
  - rewrite <- Hu. destruct (Z.leb_spec (v_used v) pos); simpl.
    + by exists (OElement None), v, l.
    + exists (OElement (Some (l !!! Z.to_nat pos))), v, l. split; [|done].
      by rewrite (vrep_elem_at v l) by (done || lia).
  - destruct (Z.eqb_spec (v_used v) 0).
    + exists (OIndex None), v, l. split_and!; [done|done| |done].
      exists None. split; [done|]. simpl. lia.
    + destruct (nr_vector_find_spec v l 0 true needle None) as (r & -> & Hr); [done|lia|].
      destruct (Z.leb_spec (v_used v) 0); [lia|].
      exists (OIndex r), v, l. split_and!; [done|done|by exists r|done].
Qed.

Fixpoint run_ops (vp : option (nr_vector_t A)) (ops : list vec_op)
  : option (list vec_out * option (nr_vector_t A)) :=
  match ops with
  | [] => Some ([], vp)
  | op :: ops =>
      '(o, vp) ← run_op vp op;
      '(os, vp) ← run_ops vp ops;
      Some (o :: os, vp)
  end.

Fixpoint list_steps (l : list (option A)) (ops : list vec_op) (os : list vec_out)
    (l' : list (option A)) : Prop :=
  match ops, os with
  | [], [] => l' = l
  | op :: ops, o :: os => exists l1, list_step l op o l1 /\ list_steps l1 ops os l'
  | _, _ => False
  end.
End Vector.

(** ** Properties *)

(* @about nr_vector_create nr_vector_push_front nr_vector_push_back nr_vector_insert nr_vector_pop_front nr_vector_pop_back nr_vector_remove nr_vector_replace nr_vector_get_element nr_vector_find_first nr_vector_insert_impl nr_vector_remove_impl *)
(** C29 (refinement): every sequence of vector calls on a vector created with any initial
    size returns, and its outputs and final contents are those of the same calls on a list,
    where only insertions may fail, leaving the list alone, and only when [realloc] refused a
    request in proportion to the length of the list. *)
Theorem nr_vector_refines_list {A : Type} `{EqDecision A} (realloc_ok : Z -> bool)
    (initial : Z) (dtor : bool) (ops : list (@vec_op A)) :
  realloc_limited realloc_ok -> 0 <= initial < 2 ^ 60 -> Forall op_wf ops ->
  exists os v l,
    run_ops realloc_ok (Some (nr_vector_create initial dtor)) ops = Some (os, Some v)
    /\ list_steps realloc_ok [] ops os l /\ vrep v l.
Proof.
  intros Hlim Hi Hops.
  pose proof (vrep_init (A:=A) initial dtor Hi) as Hv.
  change (nr_vector_init_impl initial dtor) with (@nr_vector_create A initial dtor) in Hv.
  generalize dependent (@nr_vector_create A initial dtor).
  generalize (@nil (option A)) as l.
  induction Hops as [|op ops Hop Hops IH]; intros l v Hv; simpl; [by exists [], v, l|].
  destruct (run_op_refines realloc_ok v l op Hlim Hv Hop) as (o & v1 & l1 & -> & Hstep & Hv1).
  destruct (IH l1 v1 Hv1) as (os & v2 & l2 & Hrun & Hsteps & Hv2).
  simpl. rewrite Hrun. simpl. exists (o :: os), v2, l2. eauto.
Qed.

(** A library allocator that refuses what glibc refuses and grants the rest. *)
Definition permissive_realloc (n : Z) : bool := n <? 2 ^ 63.

Lemma permissive_realloc_limited : realloc_limited permissive_realloc.
Proof. intros n H. by apply Z.ltb_lt in H. Qed.

Lemma nr_vector_refines_list_witness :
  exists os v l,
    run_ops permissive_realloc (Some (nr_vector_create 1 false))
      [PushBack (Some 1%nat); PushFront (Some 2%nat); Insert 1 None; Remove 0; PopBack;
       FindFirst (Some 7%nat)] = Some (os, Some v)
    /\ list_steps permissive_realloc []
         [PushBack (Some 1%nat); PushFront (Some 2%nat); Insert 1 None; Remove 0; PopBack;
          FindFirst (Some 7%nat)] os l
    /\ vrep v l.
Proof.
  apply nr_vector_refines_list; [exact permissive_realloc_limited|lia|].
  repeat constructor; simpl; lia.
Defined.

(** Reserving capacity returns for every request up to [2^60] slots, with at
    least that capacity unless memory is short and with the contents unchanged; a request
    above [2^63] that exceeds a power-of-two capacity makes the doubling loop run forever,
    whatever the fuel. *)
Theorem nr_vector_ensure_terminates {A : Type} `{EqDecision A} (realloc_ok : Z -> bool)
    (v : nr_vector_t A) (l : list (option A)) (capacity : Z) :
  realloc_limited realloc_ok -> vrep v l -> 0 < capacity ->
  (capacity <= 2 ^ 60 ->
     exists ok v', nr_vector_ensure realloc_ok (Some v) capacity = Some (ok, Some v')
       /\ vrep v' l /\ (ok = true -> capacity <= v_capacity v')
       /\ (ok = false -> v' = v /\ refused realloc_ok capacity))
  /\ (forall k fuel, 0 <= k <= 59 -> v_capacity v = 2 ^ k -> 2 ^ 63 < capacity ->
        ensure_loop fuel (v_capacity v) capacity = None
        /\ nr_vector_ensure realloc_ok (Some v) capacity = None).
Proof.
  intros Hlim Hv Hpos. split.
  - intros Hcap. unfold nr_vector_ensure. destruct (Z.eqb_spec capacity 0); [lia|].
    destruct (nr_vector_ensure_impl_spec realloc_ok v l capacity Hlim Hv)
      as (ok & v' & -> & ? & _ & ? & ?); [lia|]. by exists ok, v'.
  - intros k fuel Hk Hc Hbig.
    assert (2 ^ k <= 2 ^ 59) by (apply Z.pow_le_mono_r; lia).
    assert (0 < 2 ^ k) by (apply Z.pow_pos_nonneg; lia).
    rewrite Hc. split; [apply ensure_loop_overflow; lia|].
    unfold nr_vector_ensure, nr_vector_ensure_impl.
    destruct (Z.eqb_spec capacity 0); [lia|]. rewrite Hc.
    destruct (Z.leb_spec capacity (2 ^ k)); [lia|]. destruct (Z.eqb_spec (2 ^ k) 0); [lia|].
    by rewrite ensure_loop_overflow by lia.
Qed.

Lemma nr_vector_ensure_terminates_witness :
  (exists ok v', nr_vector_ensure permissive_realloc (Some (nr_vector_init_impl (A:=nat) 8 false)) 100
     = Some (ok, Some v') /\ vrep v' [])
  /\ nr_vector_ensure permissive_realloc (Some (nr_vector_init_impl (A:=nat) 8 false)) (2 ^ 63 + 1)
     = None.
Proof.
  split.
  - destruct (proj1 (nr_vector_ensure_terminates permissive_realloc
      (nr_vector_init_impl (A:=nat) 8 false) [] 100 permissive_realloc_limited
      (vrep_init 8 false ltac:(lia)) ltac:(lia)) ltac:(lia)) as (ok & v' & H & ? & _).
    exists ok, v'. by split.
  - apply (proj2 (nr_vector_ensure_terminates permissive_realloc
      (nr_vector_init_impl (A:=nat) 8 false) [] (2 ^ 63 + 1) permissive_realloc_limited
      (vrep_init 8 false ltac:(lia)) ltac:(lia)) 3 0%nat ltac:(lia) ltac:(reflexivity) ltac:(lia)).
Defined.

Section StackProperties.
Context {A : Type} `{EqDecision A} (realloc_ok : Z -> bool).

(** A stack as the list of its elements, topmost last. *)
Definition srep (s : option (nr_vector_t A)) (l : list (option A)) : Prop :=
  exists v, s = Some v /\ vrep v l.

Lemma nr_stack_init_spec (v : nr_vector_t A) (capacity : Z) :
  0 < capacity < 2 ^ 60 ->
  exists s, nr_stack_init (Some v) capacity = (true, s) /\ srep s [].
Proof.
  intros Hc. unfold nr_stack_init, nr_vector_init. destruct (Z.eqb_spec capacity 0); [lia|].
  eexists. split; [done|]. eexists. split; [done|]. apply vrep_init. lia.
Qed.

Lemma nr_stack_get_top_spec s l : srep s l -> nr_stack_get_top s = mjoin (last l).
Proof.
  intros (v & -> & Hv). pose proof Hv as (Hu & _). unfold nr_stack_get_top. simpl.
  destruct (Z.eqb_spec (v_used v) 0) as [H0|H0].
  - destruct l; [done|simpl in Hu; lia].
  - destruct (Z.leb_spec (v_used v) (v_used v - 1)); [lia|].
    rewrite (vrep_elem_at v l) by first [done | lia].
    rewrite last_lookup, list_lookup_total_alt. rewrite Hu.
    replace (Z.to_nat (Z.of_nat (length l) - 1)) with (pred (length l)) by lia.
    destruct (lookup_lt_is_Some_2 l (pred (length l))) as [x ->]; [lia|]. done.
Qed.

Lemma nr_stack_is_empty_spec s l : srep s l -> nr_stack_is_empty s = bool_decide (l = []).
Proof.
  intros (v & -> & Hu & _). unfold nr_stack_is_empty, nr_vector_size. rewrite Hu.
  case_bool_decide as H; [by subst|]. apply Z.eqb_neq. destruct l; [done|simpl; lia].
Qed.

(** A push either appends or, for lack of memory, silently does nothing. *)
Lemma nr_stack_push_spec s l e :
  realloc_limited realloc_ok -> srep s l ->
  exists s', nr_stack_push realloc_ok s e = Some s' 
    /\ (srep s' (l ++ [e]) \/ (s' = s /\ refused realloc_ok (Z.of_nat (length l) + 1))).
Proof.
  intros Hlim (v & -> & Hv). pose proof Hv as (Hu & _).
  destruct (nr_vector_insert_impl_spec realloc_ok v l (v_used v) e Hlim Hv)
    as (ok & v' & H & Hok); [lia|].
  unfold nr_stack_push, nr_vector_push_back. rewrite H. simpl. eexists. split; [done|].
  destruct ok; [left|right; by destruct Hok as [-> ?]]. eexists. split; [done|].
  rewrite list_insert_at_ge in Hok by lia. done.
Qed.

Lemma nr_stack_pop_spec s l e :
  realloc_limited realloc_ok -> srep s (l ++ [e]) ->
  exists s', nr_stack_pop realloc_ok s = (e, s') /\ srep s' l.
Proof.
  intros Hlim (v & -> & Hv). pose proof Hv as (Hu & _). rewrite length_app in Hu. simpl in Hu.
  unfold nr_stack_pop, nr_vector_pop_back. simpl. destruct (Z.eqb_spec (v_used v) 0); [lia|].
  destruct (nr_vector_remove_impl_spec realloc_ok v (l ++ [e]) (v_used v - 1))
    as (v' & -> & Hv'); [done..|lia|].
  replace (Z.to_nat (v_used v - 1)) with (length l) by lia. simpl.
  rewrite list_lookup_total_middle by done. eexists. split; [done|]. exists v'. split; [done|].
  unfold list_delete_at in Hv'. replace (Z.to_nat (v_used v - 1)) with (length l) in Hv' by lia.
  rewrite take_app_length, drop_ge, app_nil_r in Hv' by (rewrite length_app; simpl; lia). done.
Qed.

Lemma stack_find_topmost s l e :
  srep s l ->
  exists r, nr_vector_find_last s e None = Some r
    /\ last_match (found_by None e) l (Z.of_nat (length l) - 1) r.
Proof.
  intros (v & -> & Hv). pose proof Hv as (<- & _). by apply nr_vector_find_last_spec.
Qed.

(** Searching from the top finds the split of the list at the last occurrence. *)
Lemma last_match_found (l1 l2 : list (option A)) e r :
  e ∉ l2 ->
  last_match (found_by None e) (l1 ++ e :: l2) (Z.of_nat (length (l1 ++ e :: l2)) - 1) r ->
  r = Some (Z.of_nat (length l1)).
Proof.
  intros He Hr. rewrite length_app in Hr. simpl in Hr. destruct r as [i|]; simpl in Hr.
  - destruct Hr as (Hi & Hp & Hno). apply bool_decide_eq_true in Hp.
    destruct (Z.lt_trichotomy i (Z.of_nat (length l1))) as [Hlt|[->|Hgt]]; [|done|].
    + exfalso. specialize (Hno (Z.of_nat (length l1)) ltac:(lia)).
      apply bool_decide_eq_false in Hno. rewrite Nat2Z.id, list_lookup_total_middle in Hno by done.
      done.
    + exfalso. apply He. rewrite lookup_total_app_r in Hp by lia.
      replace (Z.to_nat i - length l1)%nat with (S (Z.to_nat i - length l1 - 1)) in Hp by lia.
      simpl in Hp. rewrite <- Hp. apply list_elem_of_lookup_total_2. lia.
  - exfalso. specialize (Hr (Z.of_nat (length l1)) ltac:(lia)).
    apply bool_decide_eq_false in Hr. rewrite Nat2Z.id, list_lookup_total_middle in Hr by done.
    done.
Qed.

Lemma last_match_absent (l : list (option A)) e r :
  e ∉ l -> last_match (found_by None e) l (Z.of_nat (length l) - 1) r -> r = None.
Proof.
  intros He Hr. destruct r as [i|]; [|done]. destruct Hr as (Hi & Hp & _).
  apply bool_decide_eq_true in Hp. exfalso. apply He. rewrite <- Hp.
  apply list_elem_of_lookup_total_2. lia.
Qed.

Lemma nr_stack_remove_topmost_absent s l e :
  srep s l -> e ∉ l -> nr_stack_remove_topmost realloc_ok s e = Some (false, s).
Proof.
  intros Hs He. unfold nr_stack_remove_topmost.
  destruct (stack_find_topmost s l e Hs) as (r & -> & Hr).
  by rewrite (last_match_absent l e r).
Qed.

Lemma nr_stack_remove_topmost_found s l1 l2 e :
  realloc_limited realloc_ok -> srep s (l1 ++ e :: l2) -> e ∉ l2 ->
  exists s', nr_stack_remove_topmost realloc_ok s e = Some (true, s') /\ srep s' (l1 ++ l2).
Proof.
  intros Hlim Hs He. unfold nr_stack_remove_topmost.
  destruct (stack_find_topmost s _ e Hs) as (r & -> & Hr).
  rewrite (last_match_found l1 l2 e r He Hr). destruct Hs as (v & -> & Hv). simpl.
  pose proof Hv as (Hu & _). rewrite length_app in Hu. simpl in Hu.
  destruct (nr_vector_remove_impl_spec realloc_ok v (l1 ++ e :: l2) (Z.of_nat (length l1)))
    as (v' & -> & Hv'); [done..|lia|].
  eexists. split; [done|]. exists v'. split; [done|].
  unfold list_delete_at in Hv'. rewrite Nat2Z.id in Hv'.
  rewrite take_app_length, Nat.add_1_r, cons_middle, app_assoc in Hv'.
  rewrite drop_app_length' in Hv' by (rewrite length_app; simpl; lia). done.
Qed.
End StackProperties.

(** A stack is last-in first-out.  On a stack that holds [l] (topmost last),
    the top is the last element of [l] (NULL for the empty stack) and [is_empty] tests [l]; a
    push returns and either appends or, for lack of memory, changes nothing; what was pushed
    is what the next pop returns, leaving the older elements; and removing the topmost
    occurrence of an element deletes exactly its last occurrence, or reports failure and
    changes nothing when there is none. *)
Theorem nr_stack_lifo {A : Type} `{EqDecision A} (realloc_ok : Z -> bool)
    (s : option (nr_vector_t A)) (l : list (option A)) (e : option A) :
  realloc_limited realloc_ok -> srep s l ->
  nr_stack_get_top s = mjoin (last l)
  /\ nr_stack_is_empty s = bool_decide (l = [])
  /\ (exists s', nr_stack_push realloc_ok s e = Some s'
        /\ ((srep s' (l ++ [e]) /\ exists s'', nr_stack_pop realloc_ok s' = (e, s'') /\ srep s'' l)
            \/ (s' = s /\ refused realloc_ok (Z.of_nat (length l) + 1))))
  /\ (e ∉ l -> nr_stack_remove_topmost realloc_ok s e = Some (false, s))
  /\ (forall l1 l2, l = l1 ++ e :: l2 -> e ∉ l2 ->
        exists s', nr_stack_remove_topmost realloc_ok s e = Some (true, s') /\ srep s' (l1 ++ l2)).
Proof.
  intros Hlim Hs. split_and!.
  - by apply nr_stack_get_top_spec.
  - by apply nr_stack_is_empty_spec.
  - destruct (nr_stack_push_spec realloc_ok s l e Hlim Hs) as (s' & Hpush & Hs').
    exists s'. split; [done|]. destruct Hs' as [Hs'|]; [left|by right].
    split; [done|]. by apply nr_stack_pop_spec.
  - by apply nr_stack_remove_topmost_absent.
  - intros l1 l2 -> He. by apply nr_stack_remove_topmost_found.
Qed.

Lemma nr_stack_lifo_witness :
  nr_stack_get_top (Some (nr_vector_init_impl (A:=nat) 32 false)) = None
  /\ nr_stack_remove_topmost permissive_realloc
       (Some (nr_vector_init_impl (A:=nat) 32 false)) (Some 3%nat)
     = Some (false, Some (nr_vector_init_impl (A:=nat) 32 false)).
Proof.
  assert (Hs : srep (Some (nr_vector_init_impl (A:=nat) 32 false)) [])
    by (eexists; split; [done|apply vrep_init; lia]).
  pose proof (nr_stack_lifo permissive_realloc _ [] (Some 3%nat)
                permissive_realloc_limited Hs) as (Htop & _ & _ & Habs & _).
  split; [exact Htop|apply Habs, not_elem_of_nil].
Defined.
