(* ===== verification/MinMaxHeap.v ===== *)
(** * The min-max heap

    [util_minmax_heap.c], [util_minmax_heap_private.h], and [nr_log2_64] of [util_math.h].

    A [void*] value is an [option A] ([None] is NULL).  The array [heap->elements] is the list
    [h_elements], as long as the capacity.  Indices are [ssize_t]; the largest index formed is
    [4 * used + 3], and its overflow (undefined in C) needs more elements than memory holds.
    [nr_malloc], [nr_calloc] and [nr_realloc] end the process when memory is exhausted, so an
    operation that returns was given its memory.  The recursive routines take fuel, and return
    [None] when it runs out; the properties show that it does not. *)

From S2P Require Import Prelude.

(** ** Logarithms *)

(** The portable branch, [while (n >>= 1) value++]; the builtin branch computes the same. *)
(* @map util_math.h:44-56 nr_log2_64 *)
Fixpoint nr_log2_64_loop (fuel : nat) (n value : Z) : option Z :=
  let n := Z.shiftr n 1 in
  if n =? 0 then Some value
  else match fuel with
       | O => None
       | S fuel => nr_log2_64_loop fuel n (u64 (value + 1))
       end.

(* @map util_math.h:44-56 nr_log2_64 *)
Definition nr_log2_64 (n : Z) : Z := default 0 (nr_log2_64_loop 64 n 0).

Lemma nr_log2_64_loop_spec (fuel : nat) (n value : Z) :
  1 <= n < 2 ^ (Z.of_nat fuel + 1) -> 0 <= value -> value + Z.of_nat fuel < 2 ^ 64 ->
  nr_log2_64_loop fuel n value = Some (value + Z.log2 n).
Proof.
  revert n value. induction fuel as [|fuel IH]; intros n value Hn Hv Hf;
    cbn [nr_log2_64_loop]; rewrite Z.shiftr_div_pow2 by lia; change (2 ^ 1) with 2.
  - assert (n = 1) as -> by (simpl in Hn; lia). simpl. by rewrite Z.add_0_r.
  - destruct (Z.eqb_spec (n / 2) 0) as [H0|H0].
    + assert (n = 1) as -> by dlia. simpl. by rewrite Z.add_0_r.
    + assert (Hlog : Z.log2 n = Z.log2 (n / 2) + 1).
      { assert (n = 2 * (n / 2) \/ n = 2 * (n / 2) + 1) as [H|H] by dlia.
        - rewrite H at 1. rewrite Z.log2_double by dlia. lia.
        - rewrite H at 1. rewrite Z.log2_succ_double by dlia. lia. }
      rewrite u64_id by (unfold in_u64; lia). rewrite IH; [f_equal; lia| |lia|lia].
      replace (Z.of_nat (S fuel) + 1) with (Z.of_nat fuel + 1 + 1) in Hn by lia.
      rewrite Z.pow_add_r in Hn by lia. dlia.
Qed.

Lemma nr_log2_64_spec (n : Z) : 1 <= n < 2 ^ 64 -> nr_log2_64 n = Z.log2 n.
Proof.
  intros Hn. unfold nr_log2_64. rewrite nr_log2_64_loop_spec; [done|simpl; lia|lia|lia].
Qed.

(** ** The heap *)

(* @map util_minmax_heap_private.h:8-11 nr_minmax_heap_element_t *)
Record nr_minmax_heap_element_t (A : Type) : Type := mk_element {
  e_used : bool;
  e_value : option A
}.
Arguments mk_element {A} _ _.
Arguments e_used {A} _.
Arguments e_value {A} _.

#[export] Instance element_inhabited A : Inhabited (nr_minmax_heap_element_t A) :=
  populate (mk_element false None).

(** Comparators are C functions closed over their [userdata]; of the destructor, whether
    there is one.  Operations return the values they gave it. *)
(* @map util_minmax_heap_private.h:16-30 nr_minmax_heap_t *)
Record nr_minmax_heap_t (A : Type) : Type := mk_heap {
  h_bound : Z;
  h_capacity : Z;
  h_used : Z;
  h_elements : list (nr_minmax_heap_element_t A);
  h_comparator : option A -> option A -> Z;
  h_destructor : bool
}.
Arguments mk_heap {A} _ _ _ _ _ _.
Arguments h_bound {A} _.
Arguments h_capacity {A} _.
Arguments h_used {A} _.
Arguments h_elements {A} _.
Arguments h_comparator {A} _.
Arguments h_destructor {A} _.

(* @map util_minmax_heap_private.h:37-37 NR_MINMAX_HEAP_CHUNK_SIZE *)
Definition NR_MINMAX_HEAP_CHUNK_SIZE : Z := 64.

(* @map util_minmax_heap.c:43-53 is_min *)
Definition is_min (n : Z) : bool :=
  if n <? 0 then false else Z.land (nr_log2_64 (u64 n)) 1 =? 0.

(* @map util_minmax_heap.c:55-57 parent *)
Definition parent (n : Z) : Z := Z.quot n 2.

(* @map util_minmax_heap.c:59-61 first_child *)
Definition first_child (n : Z) : Z := n * 2.

(* @map util_minmax_heap.c:63-65 second_child *)
Definition second_child (n : Z) : Z := n * 2 + 1.

(* @map util_minmax_heap.c:79-83 compare_t *)
Inductive compare_t : Type := COMPARE_LESS_THAN | COMPARE_GREATER_THAN | COMPARE_EQUAL.

Section Elements.
Context {A : Type} (comparator : option A -> option A -> Z).

(** [elements[i]] *)
Definition el (els : (list (nr_minmax_heap_element_t A))) (i : Z) : nr_minmax_heap_element_t A := els !!! Z.to_nat i.

(* @map util_minmax_heap.c:74-77 compare *)
Definition compare (els : (list (nr_minmax_heap_element_t A))) (i j : Z) : Z :=
  comparator (e_value (el els i)) (e_value (el els j)).

(* @map util_minmax_heap.c:85-100 compare_expect *)
Definition compare_expect (els : (list (nr_minmax_heap_element_t A))) (i j : Z) (op : compare_t) : bool :=
  let result := compare els i j in
  match op with
  | COMPARE_LESS_THAN => result <? 0
  | COMPARE_GREATER_THAN => 0 <? result
  | COMPARE_EQUAL => result =? 0
  end.

(* @map util_minmax_heap.c:102-107 swap *)
Definition swap (els : (list (nr_minmax_heap_element_t A))) (i j : Z) : (list (nr_minmax_heap_element_t A)) :=
  let tmp := el els i in
  <[Z.to_nat j := tmp]> (<[Z.to_nat i := el els j]> els).

(* @map util_minmax_heap.c:109-120 bubbleup_minmax *)
Fixpoint bubbleup_minmax (fuel : nat) (els : (list (nr_minmax_heap_element_t A))) (i : Z) (op : compare_t)
  : option (list (nr_minmax_heap_element_t A)) :=
  let grandparent := parent (parent i) in
  if grandparent <=? 0 then Some els
  else if compare_expect els i grandparent op then
    match fuel with
    | O => None
    | S fuel => bubbleup_minmax fuel (swap els i grandparent) grandparent op
    end
  else Some els.

(* @map util_minmax_heap.c:122-124 bubbleup_min *)
Definition bubbleup_min (fuel : nat) (els : (list (nr_minmax_heap_element_t A))) (i : Z) :=
  bubbleup_minmax fuel els i COMPARE_LESS_THAN.

(* @map util_minmax_heap.c:126-128 bubbleup_max *)
Definition bubbleup_max (fuel : nat) (els : (list (nr_minmax_heap_element_t A))) (i : Z) :=
  bubbleup_minmax fuel els i COMPARE_GREATER_THAN.

(* @map util_minmax_heap.c:130-152 bubbleup *)
Definition bubbleup (fuel : nat) (els : (list (nr_minmax_heap_element_t A))) (i : Z) : option (list (nr_minmax_heap_element_t A)) :=
  let p := parent i in
  if p <=? 0 then Some els
  else if is_min i then
    if 0 <? compare els i p then bubbleup_max fuel (swap els i p) p
    else bubbleup_min fuel els i
  else
    if compare els i p <? 0 then bubbleup_min fuel (swap els i p) p
    else bubbleup_max fuel els i.

(* @map util_minmax_heap.c:154-187 index_minmax_child_grandchild *)
Definition index_minmax_child_grandchild (used : Z) (els : (list (nr_minmax_heap_element_t A))) (i : Z) (op : compare_t)
  : Z :=
  let a := first_child i in
  let b := second_child i in
  let c := first_child a in
  let d := second_child a in
  let e := first_child b in
  let f := second_child b in
  let idx := -1 in
  let idx := if a <=? used then a else idx in
  let idx := if (b <=? used) && compare_expect els b idx op then b else idx in
  let idx := if (c <=? used) && compare_expect els c idx op then c else idx in
  let idx := if (d <=? used) && compare_expect els d idx op then d else idx in
  let idx := if (e <=? used) && compare_expect els e idx op then e else idx in
  if (f <=? used) && compare_expect els f idx op then f else idx.

(* @map util_minmax_heap.c:189-213 trickledown_minmax *)
Fixpoint trickledown_minmax (fuel : nat) (used : Z) (els : (list (nr_minmax_heap_element_t A))) (i : Z) (op : compare_t)
  : option (list (nr_minmax_heap_element_t A)) :=
  let m := index_minmax_child_grandchild used els i op in
  if m <=? -1 then Some els
  else if second_child i <? m then
    if compare_expect els m i op then
      let els := swap els i m in
      let els := if negb (compare_expect els m (parent m) op) then swap els m (parent m)
                 else els in
      match fuel with
      | O => None
      | S fuel => trickledown_minmax fuel used els m op
      end
    else Some els
  else if compare_expect els m i op then Some (swap els i m)
  else Some els.

(* @map util_minmax_heap.c:215-217 trickledown_max *)
Definition trickledown_max (fuel : nat) (used : Z) (els : (list (nr_minmax_heap_element_t A))) (i : Z) :=
  trickledown_minmax fuel used els i COMPARE_GREATER_THAN.

(* @map util_minmax_heap.c:219-221 trickledown_min *)
Definition trickledown_min (fuel : nat) (used : Z) (els : (list (nr_minmax_heap_element_t A))) (i : Z) :=
  trickledown_minmax fuel used els i COMPARE_LESS_THAN.

(* @map util_minmax_heap.c:223-229 trickledown *)
Definition trickledown (fuel : nat) (used : Z) (els : (list (nr_minmax_heap_element_t A))) (i : Z) :=
  if is_min i then trickledown_min fuel used els i else trickledown_max fuel used els i.
End Elements.

Section Heap.
Context {A : Type}.
Implicit Types (h : nr_minmax_heap_t A) (hp : option (nr_minmax_heap_t A)) (x : option A).

(* @map util_minmax_heap.c:234-259 nr_minmax_heap_create *)
Definition nr_minmax_heap_create (bound : Z) (comparator : option (option A -> option A -> Z))
    (destructor : bool) : option (nr_minmax_heap_t A) :=
  match comparator with
  | None => None
  | Some cmp =>
      if (bound =? 1) || (bound <? 0) then None
      else
        let capacity := if 0 <? bound then bound + 1 else NR_MINMAX_HEAP_CHUNK_SIZE in
        Some (mk_heap bound capacity 0 (replicate (Z.to_nat capacity) (mk_element false None))
                cmp destructor)
  end.

(** The values the loops over [0 <= i <= used] visit: those marked used. *)
(* @map util_minmax_heap.c:271-275 used *)
Definition used_values h : list (option A) :=
  e_value <$> filter (fun e => e_used e = true) (take (S (Z.to_nat (h_used h))) (h_elements h)).

(** What the destructor is called on. *)
(* @map util_minmax_heap.c:261-280 nr_minmax_heap_destroy *)
Definition nr_minmax_heap_destroy (heap_ptr : option (option (nr_minmax_heap_t A)))
  : option (option (nr_minmax_heap_t A)) * list (option A) :=
  match heap_ptr with
  | None => (None, [])
  | Some None => (Some None, [])
  | Some (Some h) => (Some None, if h_destructor h then used_values h else [])
  end.

(* @map util_minmax_heap.c:282-284 nr_minmax_heap_bound *)
Definition nr_minmax_heap_bound hp : Z := from_option h_bound 0 hp.

(* @map util_minmax_heap.c:286-288 nr_minmax_heap_capacity *)
Definition nr_minmax_heap_capacity hp : Z := from_option h_capacity 0 hp.

(* @map util_minmax_heap.c:290-292 nr_minmax_heap_size *)
Definition nr_minmax_heap_size hp : Z := from_option h_used 0 hp.

(** Fuel for the recursion along one path of a heap of [used] elements. *)
Definition heap_fuel (used : Z) : nat := S (Z.to_nat used).

(* @map util_minmax_heap.c:414-420 nr_minmax_heap_peek_min *)
Definition nr_minmax_heap_peek_min hp : option A :=
  match hp with
  | None => None
  | Some h => if h_used h =? 0 then None else e_value (el (h_elements h) 1)
  end.

(* @map util_minmax_heap.c:422-440 nr_minmax_heap_peek_max *)
Definition nr_minmax_heap_peek_max hp : option A :=
  match hp with
  | None => None
  | Some h =>
      if h_used h =? 0 then None
      else if h_used h =? 1 then e_value (el (h_elements h) 1)
      else if h_used h =? 2 then e_value (el (h_elements h) 2)
      else if 0 <? compare (h_comparator h) (h_elements h) 2 3
      then e_value (el (h_elements h) 2)
      else e_value (el (h_elements h) 3)
  end.

Definition set_used_elements h (used : Z) (els : list (nr_minmax_heap_element_t A)) :=
  mk_heap (h_bound h) (h_capacity h) used els (h_comparator h) (h_destructor h).

(** [elements[i].used = false] *)
Definition clear_used (els : list (nr_minmax_heap_element_t A)) (i : Z) :=
  <[Z.to_nat i := mk_element false (e_value (el els i))]> els.

(* @map util_minmax_heap.c:361-383 nr_minmax_heap_pop_min *)
Definition nr_minmax_heap_pop_min hp : option (option A * option (nr_minmax_heap_t A)) :=
  match hp with
  | None => Some (None, None)
  | Some h =>
      if h_used h =? 0 then Some (None, Some h)
      else
        let els := h_elements h in
        let value := e_value (el els 1) in
        if h_used h =? 1 then
          Some (value, Some (set_used_elements h (h_used h - 1) (clear_used els 1)))
        else
          let els := <[1%nat := el els (h_used h)]> els in
          let els := clear_used els (h_used h) in
          let used := h_used h - 1 in
          els ← trickledown (h_comparator h) (heap_fuel used) used els 1;
          Some (value, Some (set_used_elements h used els))
  end.

(* @map util_minmax_heap.c:385-412 nr_minmax_heap_pop_max *)
Definition nr_minmax_heap_pop_max hp : option (option A * option (nr_minmax_heap_t A)) :=
  match hp with
  | None => Some (None, None)
  | Some h =>
      if 0 =? h_used h then Some (None, Some h)
      else
        let els := h_elements h in
        if h_used h <=? 2 then
          let idx := h_used h in
          let els := clear_used els idx in
          Some (e_value (el els idx), Some (set_used_elements h (h_used h - 1) els))
        else
          let idx := if compare (h_comparator h) els 2 3 <? 0 then 3 else 2 in
          let value := e_value (el els idx) in
          let els := <[Z.to_nat idx := el els (h_used h)]> els in
          let els := clear_used els (h_used h) in
          let used := h_used h - 1 in
          els ← trickledown (h_comparator h) (heap_fuel used) used els idx;
          Some (value, Some (set_used_elements h used els))
  end.

(** The end of an insertion: growing the array when needed, and adding the element. *)
(* @map util_minmax_heap.c:323-359 nr_minmax_heap_insert *)
Definition heap_add h x : option (nr_minmax_heap_t A) :=
  let '(capacity, els) :=
    if h_capacity h <=? h_used h + 1
    then let new_capacity := h_capacity h * 2 in
         (new_capacity, resize (Z.to_nat new_capacity) (mk_element false None) (h_elements h))
    else (h_capacity h, h_elements h) in
  let used := h_used h + 1 in
  let els := <[Z.to_nat used := mk_element true x]> els in
  els ← bubbleup (h_comparator h) (heap_fuel used) els used;
  Some (mk_heap (h_bound h) capacity used els (h_comparator h) (h_destructor h)).

(** The second component lists what the destructor was called on. *)
(* @map util_minmax_heap.c:294-359 nr_minmax_heap_insert *)
Definition nr_minmax_heap_insert hp x : option (option (nr_minmax_heap_t A) * list (option A)) :=
  match hp with
  | None => Some (None, [])
  | Some h =>
      let destroyed y : list (option A) := if h_destructor h then [y] else [] in
      if negb (h_bound h =? 0) && (h_bound h <=? h_used h) then
        if 0 <? h_comparator h (nr_minmax_heap_peek_min (Some h)) x
        then Some (Some h, destroyed x)
        else
          '(min, hp) ← nr_minmax_heap_pop_min (Some h);
          match hp with
          | None => None
          | Some h => h ← heap_add h x; Some (Some h, destroyed min)
          end
      else h ← heap_add h x; Some (Some h, [])
  end.

(** The callback threads the state its [userdata] points to; its result is ignored. *)
(* @map util_minmax_heap.c:442-456 nr_minmax_heap_iterate *)
Definition nr_minmax_heap_iterate {S : Type} hp (callback : option (option A -> S -> bool * S))
    (userdata : S) : S :=
  match hp, callback with
  | Some h, Some f => foldl (fun st x => snd (f x st)) userdata (used_values h)
  | _, _ => userdata
  end.
End Heap.

(** ** Levels of the tree *)

(** Even depths, the root's included, are min levels. *)
Definition lv (n : Z) : bool := Z.even (Z.log2 n).

Lemma lv_half (b : Z) : 2 <= b -> lv (b / 2) = negb (lv b).
Proof.
  intros Hb. unfold lv.
  assert (b = 2 * (b / 2) \/ b = 2 * (b / 2) + 1) as H by dlia.
  assert (Z.log2 b = Z.succ (Z.log2 (b / 2))) as ->.
  { destruct H as [H|H]; rewrite H at 1;
      [rewrite Z.log2_double by dlia | rewrite Z.log2_succ_double by dlia]; done. }
  by rewrite Z.even_succ, <- Z.negb_even, negb_involutive.
Qed.

Lemma lv_quarter (b : Z) : 4 <= b -> lv (b / 4) = lv b.
Proof.
  intros Hb. replace (b / 4) with (b / 2 / 2) by dlia.
  rewrite !lv_half by dlia. apply negb_involutive.
Qed.

Lemma is_min_lv (n : Z) : 1 <= n < 2 ^ 63 -> is_min n = lv n.
Proof.
  intros Hn. unfold is_min, lv. destruct (Z.ltb_spec n 0); [lia|].
  rewrite u64_id, nr_log2_64_spec by (unfold in_u64; lia).
  change 1 with (Z.ones 1) at 1. rewrite Z.land_ones by lia. change (2 ^ 1) with 2.
  by rewrite Zeven_mod.
Qed.

Lemma parent_div (n : Z) : 0 <= n -> parent n = n / 2.
Proof. intros. apply Z.quot_div_nonneg; lia. Qed.

(** ** Comparators *)

(** A comparison function that orders the values, up to ties. *)
Class TotalCmp {A : Type} (cmp : option A -> option A -> Z) : Prop := {
  cmp_antisym a b : cmp a b < 0 <-> 0 < cmp b a;
  cmp_trans a b c : cmp a b <= 0 -> cmp b c <= 0 -> cmp a c <= 0
}.

Section Order.
Context {A : Type} (cmp : option A -> option A -> Z) `{!TotalCmp cmp}.
Implicit Types (v : Z -> option A) (d : bool).

(** [a] may stand above [b] when [a]'s level is of kind [d]. *)
Definition le d (a b : option A) : Prop := if d then cmp a b <= 0 else cmp b a <= 0.

Lemma le_refl d a : le d a a.
Proof. destruct d; simpl; destruct (cmp_antisym a a); lia. Qed.

Lemma le_trans d a b c : le d a b -> le d b c -> le d a c.
Proof. destruct d; simpl; eauto using cmp_trans. Qed.

Lemma le_negb d a b : le (negb d) a b = le d b a.
Proof. by destruct d. Qed.

Lemma le_total d a b : ~ le d a b -> le d b a.
Proof. destruct d; simpl; pose proof (cmp_antisym a b); pose proof (cmp_antisym b a); lia. Qed.

(** [a] is the parent or the grandparent of [b]. *)
Definition anc (a b : Z) : Prop := b / 2 = a \/ b / 4 = a.

(** The min-max order on the indices up to [n], except for the pairs in [ex]. *)
Definition ordered_but (ex : Z -> Z -> Prop) v (n : Z) : Prop :=
  forall a b, 1 <= a -> b <= n -> anc a b -> ~ ex a b -> le (lv a) (v a) (v b).

Definition ordered v (n : Z) : Prop := ordered_but (fun _ _ => False) v n.

(** Exchanging two values. *)
Definition tr v (i j k : Z) : option A :=
  if decide (k = i) then v j else if decide (k = j) then v i else v k.

Lemma tr_l v i j : tr v i j i = v j.
Proof. unfold tr. by rewrite decide_True. Qed.

Lemma tr_r v i j : tr v i j j = v i.
Proof. unfold tr. case_decide; [by subst|by rewrite decide_True]. Qed.

Lemma tr_ne v i j k : k <> i -> k <> j -> tr v i j k = v k.
Proof. intros. unfold tr. by rewrite !decide_False. Qed.

(** *** Bubbling up *)

(** The invariant while the value at [i] moves up through its level: only the pair of [i] and
    its grandparent may be wrong, and the grandparent may stand above [i]'s descendants. *)
Definition bubbling v (n i : Z) : Prop :=
  ordered_but (fun a b => a = i / 4 /\ b = i) v n
  /\ forall x, x <= n -> anc i x -> 1 <= i / 4 -> le (lv i) (v (i / 4)) (v x).

Lemma bubbling_done v n i :
  1 <= i -> bubbling v n i -> (1 <= i / 4 -> le (lv i) (v (i / 4)) (v i)) -> ordered v n.
Proof.
  intros Hi [H _] Hg a b Ha Hb Hab _.
  destruct (decide (a = i / 4 /\ b = i)) as [[-> ->]|]; [|by apply H].
  rewrite lv_quarter by dlia. auto.
Qed.

Lemma bubbling_step v n i :
  1 <= i / 4 -> i <= n -> bubbling v n i -> ~ le (lv i) (v (i / 4)) (v i) ->
  bubbling (tr v i (i / 4)) n (i / 4).
Proof.
  intros Hg Hin [H K] Hlt. apply le_total in Hlt.
  remember (i / 4) as g eqn:Eg. remember (i / 2) as p eqn:Ep.
  assert (Hp : lv p = negb (lv i)) by (rewrite Ep; apply lv_half; dlia).
  assert (Hlg : lv g = lv i) by (rewrite Eg; apply lv_quarter; dlia).
  assert (g < p < i) by dlia. assert (Hpg : p / 2 = g) by dlia.
  assert (Hgp : le (lv i) (v g) (v p)).
  { rewrite <- Hlg. apply H; [lia|lia|by left|lia]. }
  assert (Hpi : le (lv i) (v i) (v p)).
  { rewrite <- le_negb, <- Hp. apply H; [lia|lia|by left|lia]. }
  split.
  - intros a b Ha Hb Hab Hex.
    destruct (decide (b = i)) as [->|Hbi]; [|destruct (decide (b = g)) as [->|Hbg]].
    + rewrite tr_l. destruct Hab as [<-|<-]; rewrite <- ?Ep, <- ?Eg.
      * rewrite tr_ne, Hp, le_negb by lia. done.
      * by rewrite tr_r, Hlg.
    + rewrite tr_r. destruct Hab as [<-|<-]; [|exfalso; by apply Hex].
      rewrite tr_ne by dlia. rewrite lv_half, Hlg, le_negb by dlia.
      apply le_trans with (v p); [done|]. rewrite <- le_negb, <- Hlg, <- lv_half by dlia.
      apply H; [lia|lia|right; dlia|dlia].
    + rewrite (tr_ne _ _ _ b) by done.
      destruct (decide (a = i)) as [->|]; [|destruct (decide (a = g)) as [->|]].
      * rewrite tr_l. apply K; auto.
      * rewrite tr_r, Hlg. apply le_trans with (v g); [done|]. rewrite <- Hlg.
        apply H; [done..|lia].
      * rewrite tr_ne by done. apply H; [done..|lia].
  - intros x Hx Hgx Hgg. rewrite (tr_ne _ _ _ (g / 4)) by dlia.
    assert (Hgg' : le (lv i) (v (g / 4)) (v g)).
    { rewrite <- Hlg, <- (lv_quarter g) by dlia. apply H; [done|lia|by right|lia]. }
    rewrite Hlg. destruct (decide (x = i)) as [->|]; [by rewrite tr_l|].
    rewrite tr_ne by (unfold anc in Hgx; dlia).
    apply le_trans with (v g); [done|]. rewrite <- Hlg. apply H; [lia|done..|lia].
Qed.

(** A value added at the end starts bubbling, at its index or at its parent's. *)
Lemma bubbling_start_stay v n :
  2 <= n -> ordered v (n - 1) -> le (negb (lv n)) (v (n / 2)) (v n) -> bubbling v n n.
Proof.
  intros Hn H Hp. split; [|intros x Hx Hnx; unfold anc in Hnx; dlia].
  intros a b Ha Hb Hab Hex. destruct (decide (b = n)) as [->|].
  - destruct Hab as [<-|<-]; [by rewrite lv_half|exfalso; by apply Hex].
  - apply H; [done|lia|done|auto].
Qed.

Lemma bubbling_start_swap v n :
  2 <= n -> ordered v (n - 1) -> ~ le (negb (lv n)) (v (n / 2)) (v n) ->
  bubbling (tr v n (n / 2)) n (n / 2).
Proof.
  intros Hn H Hlt. apply le_total in Hlt. rewrite le_negb in Hlt.
  remember (n / 2) as p eqn:Ep. remember (p / 2) as g eqn:Eg.
  assert (Hp : lv p = negb (lv n)) by (rewrite Ep; apply lv_half; dlia).
  assert (g < p < n) by dlia. assert (1 <= p) by dlia.
  split.
  - intros a b Ha Hb Hab Hex.
    destruct (decide (b = n)) as [->|]; [|destruct (decide (b = p)) as [->|]].
    + rewrite tr_l. destruct Hab as [<-|<-]; rewrite <- ?Ep.
      * by rewrite tr_r, Hp, le_negb.
      * rewrite tr_ne by dlia. rewrite lv_quarter by dlia.
        replace (n / 4) with g in * by dlia.
        rewrite <- (negb_involutive (lv n)), <- Hp, <- (lv_half p), <- Eg by dlia.
        apply H; [dlia|lia|by left|auto].
    + rewrite tr_r. destruct Hab as [<-|<-]; [|exfalso; by apply Hex]. rewrite <- Eg.
      rewrite tr_ne by lia. rewrite Eg at 1. rewrite lv_half, Hp, negb_involutive by dlia.
      apply le_trans with (v p); [|done].
      rewrite <- (negb_involutive (lv n)), <- Hp, <- (lv_half p), <- Eg by dlia.
      apply H; [dlia|lia|by left|auto].
    + rewrite (tr_ne _ _ _ b) by done.
      destruct (decide (a = n)) as [->|]; [unfold anc in Hab; dlia|].
      destruct (decide (a = p)) as [->|].
      * rewrite tr_r. rewrite Hp, le_negb. apply le_trans with (v p); [|done].
        rewrite <- le_negb, <- Hp. apply H; [lia|lia|done|auto].
      * rewrite tr_ne by done. apply H; [done|lia|done|auto].
  - intros x Hx Hpx Hgg. rewrite (tr_ne _ _ _ (p / 4)) by dlia.
    assert (Hgg' : le (lv p) (v (p / 4)) (v p)).
    { rewrite <- (lv_quarter p) by dlia. apply H; [done|lia|by right|auto]. }
    destruct (decide (x = n)) as [->|]; [by rewrite tr_l|].
    rewrite tr_ne by (unfold anc in Hpx; dlia).
    apply le_trans with (v p); [done|]. apply H; [lia|lia|done|auto].
Qed.

(** *** Trickling down *)

(** The invariant while the value at [i] moves down: only the pairs of [i] and its descendants
    may be wrong, and [i]'s grandparent may stand above these descendants. *)
Definition trickling v (n i : Z) : Prop :=
  ordered_but (fun a _ => a = i) v n
  /\ forall x, x <= n -> anc i x -> 1 <= i / 4 -> le (lv i) (v (i / 4)) (v x).

(** [m] holds the extreme of the values below [i]. *)
Definition extreme v (n i m : Z) : Prop :=
  m <= n /\ anc i m /\ forall x, x <= n -> anc i x -> le (lv i) (v m) (v x).

Lemma trickling_done v n i :
  trickling v n i -> (forall x, x <= n -> anc i x -> le (lv i) (v i) (v x)) -> ordered v n.
Proof.
  intros [H _] Hi a b Ha Hb Hab _. destruct (decide (a = i)) as [->|]; [auto|by apply H].
Qed.

(** The ancestors of [i] stand above the value that replaces [i]'s. *)
Lemma trickling_above v n i m a :
  1 <= i -> trickling v n i -> m <= n -> anc i m -> 1 <= a -> anc a i ->
  le (lv a) (v a) (v m).
Proof.
  intros Hi [H K] Hm Him Ha [Hai|Hai].
  - assert (Ea : lv a = negb (lv i)) by (rewrite <- Hai; apply lv_half; dlia).
    destruct Him as [Hmi|Hmi]; [apply H; [done|done|right; dlia|dlia]|].
    apply le_trans with (v (m / 2)); [apply H; [done|dlia|right; dlia|dlia]|].
    rewrite Ea, <- Hmi, lv_quarter, <- lv_half by dlia.
    apply H; [dlia|done|by left|dlia].
  - assert (Ea : lv a = lv i) by (rewrite <- Hai; apply lv_quarter; dlia).
    rewrite Ea, <- Hai. apply K; [done..|lia].
Qed.

(** The extreme is a child and changes places with its parent. *)
Lemma trickling_child v n i m :
  1 <= i -> trickling v n i -> extreme v n i m -> m / 2 = i -> ~ le (lv i) (v i) (v m) ->
  ordered (tr v i m) n.
Proof.
  intros Hi HT (Hmn & Him & Hext) Hm Hlt. apply le_total in Hlt.
  pose proof HT as [H _].
  assert (Em : lv m = negb (lv i)) by (rewrite <- Hm, lv_half, negb_involutive by dlia; done).
  intros a b Ha Hb Hab _.
  destruct (decide (b = i)) as [->|Hbi]; [|destruct (decide (b = m)) as [->|Hbm]].
  - rewrite tr_l, tr_ne by (unfold anc in Hab; dlia). by apply (trickling_above _ n i).
  - rewrite tr_r. destruct Hab as [Hab|Hab].
    + replace a with i by dlia. by rewrite tr_l.
    + rewrite tr_ne by dlia. apply H; [done|dlia|left; dlia|dlia].
  - rewrite (tr_ne _ _ _ b) by done.
    destruct (decide (a = i)) as [->|]; [|destruct (decide (a = m)) as [->|]].
    + rewrite tr_l. by apply Hext.
    + rewrite tr_r, Em, le_negb. apply le_trans with (v m); [|done].
      rewrite <- le_negb, <- Em. apply H; [done|done|done|dlia].
    + rewrite tr_ne by done. by apply H.
Qed.

(** The extreme is a grandchild: it changes places with [i], and the value that went down
    changes places with its new parent if it stands on the wrong side of it. *)
Lemma trickling_grandchild v n i m w :
  1 <= i -> trickling v n i -> extreme v n i m -> m / 4 = i -> ~ le (lv i) (v i) (v m) ->
  (forall k, k <> m -> k <> m / 2 -> w k = tr v i m k) ->
  (w m = v i /\ w (m / 2) = v (m / 2) /\ le (lv i) (v i) (v (m / 2))
   \/ w m = v (m / 2) /\ w (m / 2) = v i /\ le (lv i) (v (m / 2)) (v i)) ->
  trickling w n m.
Proof.
  intros Hi HT (Hmn & Him & Hext) Hm Hlt Hw Hcase. apply le_total in Hlt.
  pose proof HT as [H _]. remember (m / 2) as p eqn:Ep.
  assert (Em : lv m = lv i) by (rewrite <- Hm, lv_quarter by dlia; done).
  assert (El : lv p = negb (lv i)) by (rewrite Ep, lv_half by dlia; by rewrite Em).
  assert (i < p < m) by dlia. assert (Hpi : p / 2 = i) by dlia.
  assert (Hwi : w i = v m) by (rewrite Hw, tr_l by lia; done).
  assert (Hwo : forall k, k <> i -> k <> p -> k <> m -> w k = v k).
  { intros k ???. rewrite Hw, tr_ne by done. done. }
  assert (Hwm : le (lv i) (w m) (w p)) by (destruct Hcase as [(-> & -> & ?)|(-> & -> & ?)]; done).
  assert (Hip : le (lv i) (v m) (v p)) by (apply Hext; [lia|by left]).
  assert (Hpp : le (lv i) (v p) (w p))
    by (destruct Hcase as [(_ & -> & _)|(_ & -> & ?)]; [apply le_refl|done]).
  split.
  - intros a b Ha Hb Hab Hex.
    destruct (decide (a = i)) as [->|Hai]; [|destruct (decide (a = p)) as [->|Hap]].
    + rewrite Hwi. destruct (decide (b = m)) as [->|]; [|destruct (decide (b = p)) as [->|]].
      * by destruct Hcase as [(-> & _)|(-> & _)].
      * by apply le_trans with (v p).
      * rewrite Hwo by (unfold anc in Hab; dlia). by apply Hext.
    + rewrite El, le_negb. destruct (decide (b = m)) as [->|]; [done|].
      rewrite (Hwo b) by (unfold anc in Hab; dlia). apply le_trans with (v p); [|done].
      rewrite <- le_negb, <- El. apply H; [done..|lia].
    + rewrite (Hwo a) by done. destruct (decide (b = i)) as [->|].
      { rewrite Hwi. by apply (trickling_above _ n i). }
      destruct (decide (b = m)) as [->|]; [unfold anc in Hab; dlia|].
      destruct (decide (b = p)) as [->|].
      * assert (Hai' : a = i / 2) by (unfold anc in Hab; dlia).
        destruct Hcase as [(_ & -> & _)|(_ & -> & _)]; apply H; try done.
        -- lia.
        -- by left.
      * rewrite Hwo by done. apply H; done.
  - intros x Hx Hmx _. rewrite Hm, Hwi, Em, Hwo by (unfold anc in Hmx; dlia).
    rewrite <- Em. apply H; [lia|done|done|lia].
Qed.

(** *** The extremes of an ordered heap *)

Lemma ordered_min v n j : ordered v n -> 1 <= j <= n -> cmp (v 1) (v j) <= 0.
Proof.
  intros H. revert j. apply (well_founded_induction (Z.lt_wf 0) (fun j => 1 <= j <= n -> _)).
  intros j IH Hj. destruct (decide (j = 1)) as [->|]; [apply (le_refl true)|].
  destruct (lv j) eqn:Ej.
  - assert (4 <= j).
    { destruct (decide (4 <= j)); [done|]. assert (j = 2 \/ j = 3) as [->| ->] by lia; done. }
    apply cmp_trans with (v (j / 4)); [apply IH; dlia|].
    assert (Hle : le (lv (j / 4)) (v (j / 4)) (v j)) by (apply H; [dlia|lia|by right|auto]).
    by rewrite lv_quarter, Ej in Hle by lia.
  - apply cmp_trans with (v (j / 2)); [apply IH; dlia|].
    assert (Hle : le (lv (j / 2)) (v (j / 2)) (v j)) by (apply H; [dlia|lia|by left|auto]).
    by rewrite lv_half, Ej in Hle by lia.
Qed.

(** Every index but the root is below the second or the third. *)
Lemma ordered_max v n j :
  ordered v n -> 2 <= j <= n -> exists r, (r = 2 \/ r = 3) /\ r <= n /\ cmp (v j) (v r) <= 0.
Proof.
  intros H. revert j.
  apply (well_founded_induction (Z.lt_wf 0) (fun j => 2 <= j <= n -> exists r, _)).
  intros j IH Hj. destruct (decide (j <= 3)).
  { exists j. split_and!; [lia|lia|apply (le_refl true)]. }
  destruct (lv j) eqn:Ej.
  - destruct (IH (j / 2)) as (r & ? & ? & ?); [dlia|dlia|]. exists r. split_and!; [done|done|].
    apply cmp_trans with (v (j / 2)); [|done].
    assert (Hle : le (lv (j / 2)) (v (j / 2)) (v j)) by (apply H; [dlia|lia|by left|auto]).
    by rewrite lv_half, Ej in Hle by lia.
  - assert (8 <= j).
    { destruct (decide (8 <= j)); [done|].
      assert (j = 4 \/ j = 5 \/ j = 6 \/ j = 7) as [->|[->|[->| ->]]] by lia; done. }
    destruct (IH (j / 4)) as (r & ? & ? & ?); [dlia|dlia|]. exists r. split_and!; [done|done|].
    apply cmp_trans with (v (j / 4)); [|done].
    assert (Hle : le (lv (j / 4)) (v (j / 4)) (v j)) by (apply H; [dlia|lia|by right|auto]).
    by rewrite lv_quarter, Ej in Hle by lia.
Qed.
End Order.

(** ** The array routines *)

Section Arrays.
Context {A : Type} (cmp : option A -> option A -> Z) `{!TotalCmp cmp}.
Implicit Types (els : list (nr_minmax_heap_element_t A)).

Definition vals els (k : Z) : option A := e_value (el els k).

(** The values at the indices [1..n]. *)
Definition contents els (n : Z) : list (option A) := map (vals els) (seqZ 1 n).

(** Exactly the elements [1..n] are marked used. *)
Definition live els (n : Z) : Prop :=
  forall k, 0 <= k < Z.of_nat (length els) -> e_used (el els k) = bool_decide (1 <= k <= n).

(** [els'] is [els] with the elements [1..n] in another order. *)
Definition shuffled els els' (n : Z) : Prop :=
  length els' = length els /\ (live els n -> live els' n) /\ contents els' n ≡ₚ contents els n.

Lemma shuffled_refl els n : shuffled els els n.
Proof. by split_and!. Qed.

Lemma shuffled_trans els1 els2 els3 n :
  shuffled els1 els2 n -> shuffled els2 els3 n -> shuffled els1 els3 n.
Proof.
  intros (H1 & H2 & H3) (H4 & H5 & H6). split_and!; [congruence|auto|by rewrite H6].
Qed.

Lemma ordered_but_ext ex v w n :
  (forall k, w k = v k) -> ordered_but cmp ex v n -> ordered_but cmp ex w n.
Proof. intros E H a b Ha Hb Hab Hex. rewrite !E. by apply H. Qed.

Lemma bubbling_ext v w n i : (forall k, w k = v k) -> bubbling cmp v n i -> bubbling cmp w n i.
Proof.
  intros E [H K]. split; [by eapply ordered_but_ext|]. intros x Hx Hix Hi. rewrite !E. auto.
Qed.

Lemma el_insert els i x k :
  1 <= i < Z.of_nat (length els) -> el (<[Z.to_nat i := x]> els) k = if decide (k = i) then x else el els k.
Proof.
  intros Hi. unfold el. case_decide as Hk.
  - subst. by rewrite list_lookup_total_insert_eq by lia.
  - destruct (decide (Z.to_nat i = Z.to_nat k)) as [E|E]; [lia|].
    by rewrite list_lookup_total_insert_ne.
Qed.

Lemma el_swap els i j k :
  1 <= i < Z.of_nat (length els) -> 1 <= j < Z.of_nat (length els) ->
  el (swap els i j) k
  = if decide (k = i) then el els j else if decide (k = j) then el els i else el els k.
Proof.
  intros Hi Hj. unfold swap. rewrite el_insert by (rewrite length_insert; lia).
  rewrite el_insert by lia. repeat case_decide; congruence.
Qed.

Lemma vals_swap els i j k :
  1 <= i < Z.of_nat (length els) -> 1 <= j < Z.of_nat (length els) ->
  vals (swap els i j) k = tr (vals els) i j k.
Proof. intros Hi Hj. unfold vals, tr. rewrite el_swap by done. by repeat case_decide. Qed.

Lemma map_tr_permutation (v : Z -> option A) i j n :
  1 <= i <= n -> 1 <= j <= n -> map (tr v i j) (seqZ 1 n) ≡ₚ map v (seqZ 1 n).
Proof.
  intros Hi Hj. set (s k := if decide (k = i) then j else if decide (k = j) then i else k).
  transitivity (map v (map s (seqZ 1 n))).
  - rewrite map_map. apply reflexive_eq, map_ext. intros k. unfold tr, s. by repeat case_decide.
  - apply Permutation_map, NoDup_Permutation; [|apply NoDup_seqZ|].
    + apply NoDup_fmap_2_strong; [|apply NoDup_seqZ]. intros x y _ _. unfold s.
      repeat case_decide; congruence.
    + intros x. rewrite list_elem_of_fmap. setoid_rewrite elem_of_seqZ. split.
      * intros (y & -> & Hy). unfold s. repeat case_decide; lia.
      * intros Hx. exists (s x). unfold s. repeat case_decide; subst; try congruence; lia.
Qed.

Lemma contents_ext els els' n :
  (forall k, 1 <= k <= n -> vals els' k = vals els k) -> contents els' n = contents els n.
Proof.
  intros H. unfold contents. apply list_fmap_ext. intros i x Hx.
  apply lookup_seqZ in Hx as [-> ?]. apply H. lia.
Qed.

Lemma swap_shuffled els i j n :
  1 <= i <= n -> 1 <= j <= n -> n < Z.of_nat (length els) -> shuffled els (swap els i j) n.
Proof.
  intros Hi Hj Hn. split_and!.
  - unfold swap. by rewrite !length_insert.
  - intros HL k Hk. rewrite el_swap by lia. unfold swap in Hk. rewrite !length_insert in Hk.
    repeat case_decide; subst; rewrite HL by lia; apply bool_decide_ext; lia.
  - rewrite <- (map_tr_permutation (vals els) i j n) by done. apply reflexive_eq, map_ext.
    intros k. apply vals_swap; lia.
Qed.

(** The comparison each direction uses. *)
Definition op_of (d : bool) : compare_t := if d then COMPARE_LESS_THAN else COMPARE_GREATER_THAN.

Lemma compare_expect_spec els i j d :
  compare_expect cmp els i j (op_of d) = true <-> ~ le cmp d (vals els j) (vals els i).
Proof.
  unfold compare_expect, compare, vals. destruct d; simpl; rewrite Z.ltb_lt; [|lia].
  rewrite cmp_antisym. lia.
Qed.

Lemma compare_expect_false els i j d :
  compare_expect cmp els i j (op_of d) = false -> le cmp d (vals els j) (vals els i).
Proof.
  unfold compare_expect, compare, vals. destruct d; simpl; rewrite Z.ltb_ge; [|done].
  pose proof (cmp_antisym (e_value (el els i)) (e_value (el els j))). lia.
Qed.

Lemma bubbleup_minmax_spec (fuel : nat) els i n :
  1 <= i <= n -> n < Z.of_nat (length els) -> bubbling cmp (vals els) n i ->
  (Z.to_nat i <= fuel)%nat ->
  exists els', bubbleup_minmax cmp fuel els i (op_of (lv i)) = Some els'
    /\ ordered cmp (vals els') n /\ shuffled els els' n.
Proof.
  revert els i. induction fuel as [|fuel IH]; intros els i Hi Hlen HB Hfuel; [lia|].
  cbn [bubbleup_minmax]. rewrite !parent_div by (rewrite ?parent_div by lia; dlia).
  replace (i / 2 / 2) with (i / 4) by dlia.
  destruct (Z.leb_spec (i / 4) 0).
  { exists els. split_and!; [done| |apply shuffled_refl].
    eapply bubbling_done; [|done|]; dlia. }
  destruct (compare_expect cmp els i (i / 4) (op_of (lv i))) eqn:E.
  - apply compare_expect_spec in E. rewrite <- (lv_quarter i) by dlia.
    destruct (IH (swap els i (i / 4)) (i / 4)) as (els' & -> & Hord & Hsh).
    + dlia.
    + unfold swap. rewrite !length_insert. done.
    + eapply bubbling_ext; [intros k; apply vals_swap; dlia|].
      apply bubbling_step; [done|lia|lia|done|done].
    + dlia.
    + exists els'. split_and!; [done|done|]. eapply shuffled_trans; [|done].
      apply swap_shuffled; dlia.
  - apply compare_expect_false in E. exists els. split_and!; [done| |apply shuffled_refl].
    eapply bubbling_done; [|done|]; [lia|auto].
Qed.

Lemma bubbleup_spec (fuel : nat) els n :
  1 <= n < 2 ^ 63 -> n < Z.of_nat (length els) -> ordered cmp (vals els) (n - 1) ->
  (Z.to_nat n <= fuel)%nat ->
  exists els', bubbleup cmp fuel els n = Some els'
    /\ ordered cmp (vals els') n /\ shuffled els els' n.
Proof.
  intros Hn Hlen Hord Hfuel. unfold bubbleup. rewrite parent_div by lia.
  destruct (Z.leb_spec (n / 2) 0).
  { exists els. split_and!; [done| |apply shuffled_refl]. assert (n = 1) as -> by dlia.
    intros a b Ha Hb Hab. unfold anc in Hab. dlia. }
  rewrite is_min_lv by lia.
  assert (Hp : lv (n / 2) = negb (lv n)) by (apply lv_half; dlia).
  assert (Hswap : ~ le cmp (negb (lv n)) (vals els (n / 2)) (vals els n) ->
    exists els', bubbleup_minmax cmp fuel (swap els n (n / 2)) (n / 2) (op_of (lv (n / 2)))
                 = Some els' /\ ordered cmp (vals els') n /\ shuffled els els' n).
  { intros Hlt. destruct (bubbleup_minmax_spec fuel (swap els n (n / 2)) (n / 2) n)
      as (els' & -> & ? & ?).
    - dlia.
    - unfold swap. by rewrite !length_insert.
    - eapply bubbling_ext; [intros k; apply vals_swap; dlia|].
      apply bubbling_start_swap; [done|dlia|done|done].
    - dlia.
    - exists els'. split_and!; [done|done|]. eapply shuffled_trans; [|done].
      apply swap_shuffled; dlia. }
  assert (Hstay : le cmp (negb (lv n)) (vals els (n / 2)) (vals els n) ->
    exists els', bubbleup_minmax cmp fuel els n (op_of (lv n)) = Some els'
                 /\ ordered cmp (vals els') n /\ shuffled els els' n).
  { intros Hle. apply bubbleup_minmax_spec; [lia|done| |done].
    apply bubbling_start_stay; [dlia|done|done]. }
  rewrite Hp in Hswap.
  unfold bubbleup_max, bubbleup_min, compare, vals in *.
  destruct (lv n); simpl in *; case_if; boolp; (apply Hswap || apply Hstay);
    pose proof (cmp_antisym (e_value (el els n)) (e_value (el els (n / 2)))); 
    pose proof (cmp_antisym (e_value (el els (n / 2))) (e_value (el els n))); lia.
Qed.

(** [idx] is the best of the indices in [P]. *)
Definition best els d (P : Z -> Prop) (idx : Z) : Prop :=
  P idx /\ forall x, P x -> le cmp d (vals els idx) (vals els x).

Lemma best_step els d P idx x used :
  best els d P idx ->
  best els d (fun y => P y \/ y = x /\ x <= used)
    (if (x <=? used) && compare_expect cmp els x idx (op_of d) then x else idx).
Proof.
  intros [Hin Hle]. destruct (Z.leb_spec x used); simpl.
  2:{ split; [by left|]. intros y [Hy|[-> ?]]; [auto|lia]. }
  destruct (compare_expect cmp els x idx (op_of d)) eqn:E.
  - apply compare_expect_spec, le_total in E; [|done]. split; [by right|].
    intros y [Hy|[-> _]]; [|apply le_refl; done]. eapply le_trans; [done|done|auto].
  - apply compare_expect_false in E. split; [by left|]. intros y [Hy|[-> _]]; auto.
Qed.

Lemma index_extreme used els i :
  1 <= i ->
  let m := index_minmax_child_grandchild cmp used els i (op_of (lv i)) in
  if used <? 2 * i then m = -1 else extreme cmp (vals els) used i m.
Proof.
  intros Hi. unfold index_minmax_child_grandchild, first_child, second_child. cbv zeta.
  destruct (Z.ltb_spec used (2 * i)).
  { rewrite (proj2 (Z.leb_gt (i * 2) used)), (proj2 (Z.leb_gt (i * 2 + 1) used)),
      (proj2 (Z.leb_gt (i * 2 * 2) used)), (proj2 (Z.leb_gt (i * 2 * 2 + 1) used)),
      (proj2 (Z.leb_gt ((i * 2 + 1) * 2) used)), (proj2 (Z.leb_gt ((i * 2 + 1) * 2 + 1) used))
      by lia.
    done. }
  destruct (Z.leb_spec (i * 2) used); [|lia].
  assert (HB : best els (lv i) (fun y => y = i * 2) (i * 2)).
  { split; [done|]. intros x ->. by apply le_refl. }
  apply (best_step _ _ _ _ (i * 2 + 1) used) in HB.
  apply (best_step _ _ _ _ (i * 2 * 2) used) in HB.
  apply (best_step _ _ _ _ (i * 2 * 2 + 1) used) in HB.
  apply (best_step _ _ _ _ ((i * 2 + 1) * 2) used) in HB.
  apply (best_step _ _ _ _ ((i * 2 + 1) * 2 + 1) used) in HB.
  match type of HB with best _ _ _ ?m => generalize dependent m end.
  intros m [Hin Hle]. split_and!.
  - lia.
  - unfold anc. dlia.
  - intros x Hx Hix. apply Hle. unfold anc in Hix. dlia.
Qed.

Lemma trickling_ext v w n i : (forall k, w k = v k) -> trickling cmp v n i -> trickling cmp w n i.
Proof.
  intros E [H K]. split; [by eapply ordered_but_ext|]. intros x Hx Hix Hi. rewrite !E. auto.
Qed.

Lemma ordered_ext v w n : (forall k, w k = v k) -> ordered cmp v n -> ordered cmp w n.
Proof. apply ordered_but_ext. Qed.

(** The two exchanges of a step down past a grandchild. *)
Lemma trickle_step els i m n :
  1 <= i -> n < Z.of_nat (length els) -> trickling cmp (vals els) n i ->
  extreme cmp (vals els) n i m -> m / 4 = i -> ~ le cmp (lv i) (vals els i) (vals els m) ->
  let els1 := swap els i m in
  let els2 := if negb (compare_expect cmp els1 m (parent m) (op_of (lv i)))
              then swap els1 m (parent m) else els1 in
  trickling cmp (vals els2) n m /\ shuffled els els2 n /\ length els2 = length els.
Proof.
  intros Hi Hlen HT Hext Hm Hlt els1. pose proof Hext as (Hmn & _ & _).
  assert (Hlen1 : length els1 = length els) by (unfold els1, swap; by rewrite !length_insert).
  assert (Hsh1 : shuffled els els1 n) by (apply swap_shuffled; dlia).
  assert (Hv1 : forall k, vals els1 k = tr (vals els) i m k) by (intros k; apply vals_swap; dlia).
  rewrite parent_div by dlia.
  assert (Hv1m : vals els1 m = vals els i) by (rewrite Hv1; apply tr_r).
  assert (Hv1p : vals els1 (m / 2) = vals els (m / 2)) by (rewrite Hv1, tr_ne; [done|dlia..]).
  destruct (compare_expect cmp els1 m (m / 2) (op_of (lv i))) eqn:E; simpl; split_and!; try done.
  - apply compare_expect_spec, le_total in E; [|done]. rewrite Hv1m, Hv1p in E.
    apply (trickling_grandchild cmp (vals els) n i m); try done.
    left. by split_and!.
  - apply compare_expect_false in E. rewrite Hv1m, Hv1p in E.
    assert (Hv2 : forall k, vals (swap els1 m (m / 2)) k = tr (vals els1) m (m / 2) k)
      by (intros k; apply vals_swap; dlia).
    apply (trickling_grandchild cmp (vals els) n i m); try done.
    + intros k ??. by rewrite Hv2, tr_ne, Hv1.
    + right. by rewrite !Hv2, tr_l, tr_r, Hv1m, Hv1p.
  - eapply shuffled_trans; [done|]. apply swap_shuffled; dlia.
  - unfold swap. by rewrite !length_insert.
Qed.

Lemma trickledown_minmax_spec (fuel : nat) els i n :
  1 <= i -> n < Z.of_nat (length els) -> trickling cmp (vals els) n i ->
  (Z.to_nat (n - i) < fuel)%nat ->
  exists els', trickledown_minmax cmp fuel n els i (op_of (lv i)) = Some els'
    /\ ordered cmp (vals els') n /\ shuffled els els' n.
Proof.
  revert els i. induction fuel as [|fuel IH]; intros els i Hi Hlen HT Hfuel; [lia|].
  cbn [trickledown_minmax]. unfold second_child.
  pose proof (index_extreme n els i Hi) as Hm. cbv zeta in Hm.
  generalize dependent (index_minmax_child_grandchild cmp n els i (op_of (lv i))). intros m Hm.
  destruct (Z.ltb_spec n (2 * i)) as [Hn|Hn].
  { subst m. simpl. exists els. split_and!; [done| |apply shuffled_refl].
    eapply trickling_done; [done|]. intros x Hx Hix. unfold anc in Hix. dlia. }
  pose proof Hm as (Hmn & Him & Hext). assert (2 * i <= m) by (unfold anc in Him; dlia). destruct (Z.leb_spec m (-1)); [lia|].
  assert (Hstop : compare_expect cmp els m i (op_of (lv i)) = false ->
    ordered cmp (vals els) n /\ shuffled els els n).
  { intros E%compare_expect_false. split; [|apply shuffled_refl].
    eapply trickling_done; [done|]. intros x Hx Hix. eapply le_trans; [done|done|auto]. }
  destruct (compare_expect cmp els m i (op_of (lv i))) eqn:E;
    [|destruct (Hstop eq_refl); case_if; by exists els].
  apply compare_expect_spec in E. destruct (Z.ltb_spec (i * 2 + 1) m).
  - assert (Hm4 : m / 4 = i) by (unfold anc in Him; dlia).
    destruct (trickle_step els i m n) as (HT2 & Hsh2 & Hlen2); [done..|].
    generalize dependent (if negb (compare_expect cmp (swap els i m) m (parent m) (op_of (lv i)))
      then swap (swap els i m) m (parent m) else swap els i m).
    intros els2 HT2 Hsh2 Hlen2. rewrite <- Hm4, lv_quarter by dlia.
    destruct (IH els2 m) as (els' & -> & ? & ?); [lia|lia|done|lia|].
    exists els'. split_and!; [done|done|by eapply shuffled_trans].
  - exists (swap els i m). split_and!; [done| |apply swap_shuffled; lia].
    eapply ordered_ext; [intros k; apply vals_swap; lia|].
    apply trickling_child; try done. unfold anc in Him. dlia.
Qed.

Lemma trickledown_spec (fuel : nat) els i n :
  1 <= i < 2 ^ 63 -> n < Z.of_nat (length els) -> trickling cmp (vals els) n i ->
  (Z.to_nat (n - i) < fuel)%nat ->
  exists els', trickledown cmp fuel n els i = Some els'
    /\ ordered cmp (vals els') n /\ shuffled els els' n.
Proof.
  intros Hi Hlen HT Hfuel. unfold trickledown, trickledown_min, trickledown_max.
  rewrite is_min_lv by lia.
  destruct (trickledown_minmax_spec fuel els i n) as (els' & Hrun & ?); [lia|done..|].
  exists els'. split; [|done]. by destruct (lv i).
Qed.
End Arrays.

(** ** The operations *)

Section Operations.
Context {A : Type}.
Implicit Types (h : nr_minmax_heap_t A) (x : option A).

(** The values in the heap, in no particular order. *)
Definition heap_contents h : list (option A) := contents (h_elements h) (h_used h).

(** The invariant: the array has the capacity, exactly the indices [1..used] are in use and
    in min-max order, and a bounded heap is never over its bound. *)
Record heap_ok h : Prop := {
  ok_cmp : TotalCmp (h_comparator h);
  ok_used : 0 <= h_used h < h_capacity h;
  ok_small : h_used h < 2 ^ 62;
  ok_capacity : h_capacity h = Z.of_nat (length (h_elements h));
  ok_live : live (h_elements h) (h_used h);
  ok_ordered : ordered (h_comparator h) (vals (h_elements h)) (h_used h);
  ok_bound : h_bound h = 0
             \/ (2 <= h_bound h < 2 ^ 62 /\ h_capacity h = h_bound h + 1 /\ h_used h <= h_bound h)
}.

(** The parts of a heap that no operation changes. *)
Definition same_setup h h' : Prop :=
  h_bound h' = h_bound h /\ h_comparator h' = h_comparator h /\ h_destructor h' = h_destructor h.

Lemma contents_snoc (els : list (nr_minmax_heap_element_t A)) n :
  1 <= n -> contents els n = contents els (n - 1) ++ [vals els n].
Proof.
  intros Hn. unfold contents. replace n with (n - 1 + 1) at 1 by lia.
  rewrite seqZ_app, map_app by lia. simpl. do 3 f_equal. lia.
Qed.

Lemma length_contents (els : list (nr_minmax_heap_element_t A)) n :
  0 <= n -> Z.of_nat (length (contents els n)) = n.
Proof. intros Hn. unfold contents. rewrite length_map, length_seqZ. lia. Qed.

Lemma elem_of_contents (els : list (nr_minmax_heap_element_t A)) n x :
  x ∈ contents els n <-> exists k, 1 <= k <= n /\ x = vals els k.
Proof.
  unfold contents. rewrite list_elem_of_fmap. setoid_rewrite elem_of_seqZ.
  split; intros (k & ? & ?); exists k; (split; [lia|done]) || (split; [done|lia]).
Qed.

Lemma nr_minmax_heap_create_ok (bound : Z) cmp (dtor : bool) :
  TotalCmp cmp -> 0 <= bound < 2 ^ 62 -> bound <> 1 ->
  exists h, nr_minmax_heap_create bound (Some cmp) dtor = Some h
    /\ heap_ok h /\ heap_contents h = [] /\ h_used h = 0
    /\ h_bound h = bound /\ h_comparator h = cmp /\ h_destructor h = dtor.
Proof.
  intros Hcmp Hb H1. unfold nr_minmax_heap_create.
  destruct (Z.eqb_spec bound 1); [lia|]. destruct (Z.ltb_spec bound 0); [lia|].
  eexists. split; [done|].
  assert (Hc : 0 < (if 0 <? bound then bound + 1 else NR_MINMAX_HEAP_CHUNK_SIZE))
    by (case_if; unfold NR_MINMAX_HEAP_CHUNK_SIZE; lia).
  split_and!; try done. split; simpl.
  - done.
  - lia.
  - lia.
  - rewrite length_replicate. lia.
  - intros k Hk. rewrite length_replicate in Hk. unfold el.
    rewrite lookup_total_replicate_2 by lia. simpl. symmetry. apply bool_decide_eq_false. lia.
  - intros a b Ha Hb' Hab. unfold anc in Hab. dlia.
  - destruct (Z.ltb_spec 0 bound); [right; lia|left; lia].
Qed.

Lemma heap_add_spec h x :
  heap_ok h -> h_used h + 1 < 2 ^ 62 -> h_bound h = 0 \/ h_used h < h_bound h ->
  exists h', heap_add h x = Some h' /\ heap_ok h' /\ h_used h' = h_used h + 1
    /\ heap_contents h' ≡ₚ x :: heap_contents h /\ same_setup h h'.
Proof.
  intros [Hcmp Hu Hs Hc HL Ho Hb] Hsmall Hroom. unfold heap_add.
  remember (if h_capacity h <=? h_used h + 1 then _ else _) as grown eqn:Eg.
  assert (Hgrown : exists extra,
    grown = (h_capacity h + Z.of_nat (length extra), h_elements h ++ extra)
    /\ Forall (fun e => e_used e = false) extra
    /\ h_used h + 1 < h_capacity h + Z.of_nat (length extra)
    /\ (h_bound h <> 0 -> extra = [])).
  { subst grown. destruct (Z.leb_spec (h_capacity h) (h_used h + 1)).
    - exists (replicate (Z.to_nat (h_capacity h)) (mk_element false None)).
      rewrite length_replicate. split_and!.
      + f_equal; [lia|]. rewrite resize_ge by lia. do 2 f_equal. lia.
      + by apply Forall_replicate.
      + lia.
      + lia.
    - exists []. rewrite app_nil_r, Z.add_0_r. by split_and!. }
  destruct Hgrown as (extra & -> & Hextra & Hcap & Hbx).
  set (u := h_used h + 1) in *. set (els := <[Z.to_nat u := mk_element true x]> (h_elements h ++ extra)).
  assert (Hlen : Z.of_nat (length els) = h_capacity h + Z.of_nat (length extra))
    by (unfold els; rewrite length_insert, length_app; lia).
  assert (Hel : forall k, el els k = if decide (k = u) then mk_element true x
                                      else el (h_elements h ++ extra) k).
  { intros k. apply el_insert. rewrite length_app. lia. }
  assert (Hold : forall k, k <= h_used h -> el els k = el (h_elements h) k).
  { intros k Hk. rewrite Hel, decide_False by lia. apply lookup_total_app_l. lia. }
  assert (HLu : live els u).
  { intros k Hk. rewrite Hel. case_decide; [subst; symmetry; apply bool_decide_eq_true; simpl; lia|].
    destruct (decide (k < h_capacity h)).
    - unfold el. rewrite lookup_total_app_l by lia. fold (el (h_elements h) k).
      rewrite HL by lia. apply bool_decide_ext. lia.
    - unfold el. rewrite lookup_total_app_r by lia. rewrite bool_decide_eq_false_2 by lia.
      eapply (Forall_lookup_total_1 _ _ _ Hextra). lia. }
  destruct (bubbleup_spec (h_comparator h) (heap_fuel u) els u) as (els' & -> & Ho' & Hlen' & HL' & Hp).
  - lia.
  - lia.
  - intros a b Ha Hb' Hab _. unfold vals. rewrite !Hold by (unfold anc in Hab; dlia).
    apply Ho; [lia|lia|done|auto].
  - unfold heap_fuel. lia.
  - simpl. eexists. split; [done|]. split; [|split_and!; simpl; [done| |done..]].
    + split; simpl; [done|lia|done|by rewrite Hlen', Hlen|by apply HL'|done|].
      destruct Hb as [Hb|Hb]; [by left|right]. rewrite Hbx by lia. simpl. lia.
    + unfold heap_contents. simpl. rewrite Hp, contents_snoc by lia.
      rewrite Permutation_app_comm. simpl. apply reflexive_eq. f_equal.
      * unfold vals. by rewrite Hel, decide_True.
      * replace (u - 1) with (h_used h) by lia. apply contents_ext. intros k Hk.
        unfold vals. by rewrite Hold by lia.
Qed.

(** Taking the value at the front index [idx] out, the last element put in its place. *)
Lemma take_out h idx :
  heap_ok h -> 1 <= idx <= 3 -> idx <= h_used h ->
  let u := h_used h in
  let els := clear_used (<[Z.to_nat idx := el (h_elements h) u]> (h_elements h)) u in
  length els = length (h_elements h) /\ live els (u - 1)
  /\ trickling (h_comparator h) (vals els) (u - 1) idx
  /\ heap_contents h ≡ₚ vals (h_elements h) idx :: contents els (u - 1).
Proof.
  intros [Hcmp Hu Hs Hc HL Ho Hb] Hidx Hiu u els.
  assert (Hel : forall k, 0 <= k -> k <> u -> el els k = el (h_elements h) (if decide (k = idx) then u else k)).
  { intros k Hk Hku. unfold els, clear_used.
    rewrite el_insert, decide_False, el_insert by (rewrite ?length_insert; lia). by case_decide. }
  assert (Helu : e_used (el els u) = false).
  { unfold els, clear_used. rewrite el_insert, decide_True by (rewrite ?length_insert; lia). done. }
  split_and!.
  - unfold els, clear_used. by rewrite !length_insert.
  - intros k Hk. unfold els, clear_used in Hk. rewrite !length_insert in Hk.
    destruct (decide (k = u)) as [->|].
    + rewrite Helu. symmetry. apply bool_decide_eq_false. lia.
    + rewrite Hel by lia. case_decide; rewrite HL by lia; apply bool_decide_ext; lia.
  - split; [|intros; dlia]. intros a b Ha Hbu Hab Hai. unfold vals.
    rewrite !Hel by (unfold anc in Hab; dlia). rewrite (decide_False (P := a = idx)) by done.
    case_decide as Hbi.
    + assert (a = 1) as -> by (unfold anc in Hab; dlia).
      apply (ordered_min (h_comparator h) (vals (h_elements h)) u u); [done|lia].
    + apply Ho; [done|lia|done|auto].
  - unfold heap_contents. fold u. rewrite <- (map_tr_permutation (vals (h_elements h)) idx u u) by lia.
    replace (seqZ 1 u) with (seqZ 1 (u - 1 + 1)) by (f_equal; lia).
    rewrite seqZ_app, map_app by lia. rewrite Permutation_app_comm. simpl.
    replace (1 + (u - 1)) with u by lia. rewrite tr_r. constructor.
    apply reflexive_eq, list_fmap_ext. intros i k Hk. apply lookup_seqZ in Hk as [-> ?].
    unfold tr, vals. rewrite Hel by lia. repeat case_decide; done || lia.
Qed.

(** Removing the last element without moving anything. *)
Lemma take_last h :
  heap_ok h -> 1 <= h_used h ->
  let els := clear_used (h_elements h) (h_used h) in
  heap_ok (set_used_elements h (h_used h - 1) els)
  /\ heap_contents h ≡ₚ vals (h_elements h) (h_used h) :: contents els (h_used h - 1).
Proof.
  intros [Hcmp Hu Hs Hc HL Ho Hb] Hu1 els.
  assert (Hel : forall k, k <> h_used h -> el els k = el (h_elements h) k).
  { intros k Hk. unfold els, clear_used. by rewrite el_insert, decide_False by lia. }
  split.
  - split; simpl; [done|lia|lia|unfold els, clear_used; by rewrite length_insert| | |lia].
    + intros k Hk. unfold els, clear_used in Hk. rewrite length_insert in Hk.
      destruct (decide (k = h_used h)) as [->|].
      * unfold els, clear_used. rewrite el_insert, decide_True by lia. simpl.
        symmetry. apply bool_decide_eq_false. lia.
      * rewrite Hel by done. rewrite HL by lia. apply bool_decide_ext. lia.
    + intros a b Ha Hb' Hab _. unfold vals. rewrite !Hel by (unfold anc in Hab; dlia).
      apply Ho; [done|lia|done|auto].
  - unfold heap_contents. rewrite contents_snoc by lia. rewrite Permutation_app_comm. simpl.
    constructor. apply reflexive_eq. apply contents_ext. intros k Hk. unfold vals.
    by rewrite Hel by lia.
Qed.

(** The rest of a removal at a front index: the last element trickles down. *)
Lemma take_out_trickle h idx :
  heap_ok h -> 1 <= idx <= 3 -> idx <= h_used h -> 1 < h_used h ->
  let u := h_used h in
  let els := clear_used (<[Z.to_nat idx := el (h_elements h) u]> (h_elements h)) u in
  exists els', trickledown (h_comparator h) (heap_fuel (u - 1)) (u - 1) els idx = Some els'
    /\ heap_ok (set_used_elements h (u - 1) els')
    /\ heap_contents h ≡ₚ vals (h_elements h) idx :: contents els' (u - 1).
Proof.
  intros Hok Hidx Hiu Hu1 u els.
  destruct (take_out h idx Hok Hidx Hiu) as (Hlen & HL & HT & Hp). fold u els in Hlen, HL, HT, Hp.
  destruct Hok as [Hcmp Hu Hs Hc _ _ Hb].
  destruct (trickledown_spec (h_comparator h) (heap_fuel (u - 1)) els idx (u - 1))
    as (els' & -> & Ho' & Hlen' & HL' & Hp'); [lia|lia|done|unfold heap_fuel; lia|].
  exists els'. split_and!; [done| |by rewrite Hp, Hp'].
  split; simpl; [done|lia|lia|by rewrite Hlen', Hlen|auto|done|lia].
Qed.

Lemma heap_contents_set h u els : heap_contents (set_used_elements h u els) = contents els u.
Proof. done. Qed.

Lemma nr_minmax_heap_pop_min_spec h :
  heap_ok h -> 0 < h_used h ->
  exists x h', nr_minmax_heap_pop_min (Some h) = Some (x, Some h')
    /\ nr_minmax_heap_peek_min (Some h) = x
    /\ heap_ok h' /\ h_used h' = h_used h - 1 /\ same_setup h h'
    /\ heap_contents h ≡ₚ x :: heap_contents h'
    /\ (forall y, y ∈ heap_contents h -> h_comparator h x y <= 0).
Proof.
  intros Hok Hu. exists (vals (h_elements h) 1).
  assert (Hmin : forall y, y ∈ heap_contents h -> h_comparator h (vals (h_elements h) 1) y <= 0).
  { intros y (k & Hk & ->)%elem_of_contents. pose proof (ok_cmp h Hok).
    apply (ordered_min _ _ (h_used h)); [apply (ok_ordered h Hok)|done]. }
  unfold nr_minmax_heap_pop_min, nr_minmax_heap_peek_min.
  destruct (Z.eqb_spec (h_used h) 0); [lia|]. destruct (Z.eqb_spec (h_used h) 1) as [H1|H1].
  - destruct (take_last h Hok) as [Hok' Hp]; [lia|]. rewrite H1 in Hp, Hok'.
    eexists. split; [done|]. rewrite H1. split_and!; done.
  - destruct (take_out_trickle h 1 Hok) as (els' & Hrun & Hok' & Hp); [lia..|].
    change (Z.to_nat 1) with 1%nat in Hrun. rewrite Hrun. simpl.
    eexists. split; [done|]. split_and!; done.
Qed.

Lemma nr_minmax_heap_pop_max_spec h :
  heap_ok h -> 0 < h_used h ->
  exists x h', nr_minmax_heap_pop_max (Some h) = Some (x, Some h')
    /\ heap_ok h' /\ h_used h' = h_used h - 1 /\ same_setup h h'
    /\ heap_contents h ≡ₚ x :: heap_contents h'
    /\ (forall y, y ∈ heap_contents h -> h_comparator h y x <= 0).
Proof.
  intros Hok Hu. pose proof (ok_cmp h Hok) as Hcmp. pose proof (ok_ordered h Hok) as Ho.
  unfold nr_minmax_heap_pop_max. destruct (Z.eqb_spec 0 (h_used h)); [lia|].
  destruct (Z.leb_spec (h_used h) 2).
  - destruct (take_last h Hok) as [Hok' Hp]; [lia|]. eexists _, _. split; [done|].
    assert (Hval : e_value (el (clear_used (h_elements h) (h_used h)) (h_used h))
                   = vals (h_elements h) (h_used h)).
    { destruct Hok. unfold clear_used. rewrite el_insert, decide_True by lia. done. }
    rewrite Hval. split_and!; try done. intros y (k & Hk & ->)%elem_of_contents.
    assert (k = h_used h \/ k = 1) as [->| ->] by lia; [apply (le_refl _ true)|].
    apply (ordered_min _ _ (h_used h)); [done|lia].
  - set (idx := if compare (h_comparator h) (h_elements h) 2 3 <? 0 then 3 else 2).
    assert (Hidx : 2 <= idx <= 3) by (unfold idx; case_if; lia).
    destruct (take_out_trickle h idx Hok) as (els' & Hrun & Hok' & Hp); [lia..|].
    rewrite Hrun. simpl. exists (vals (h_elements h) idx). eexists. split; [done|].
    split_and!; try done. intros y (k & Hk & ->)%elem_of_contents.
    assert (Hbig : forall r, r = 2 \/ r = 3 ->
      h_comparator h (vals (h_elements h) r) (vals (h_elements h) idx) <= 0).
    { unfold idx, compare, vals.
      pose proof (cmp_antisym (e_value (el (h_elements h) 3)) (e_value (el (h_elements h) 2))).
      pose proof (cmp_antisym (e_value (el (h_elements h) 2)) (e_value (el (h_elements h) 3))).
      intros r [->| ->]; case_if; boolp; try lia; apply (le_refl _ true). }
    destruct (decide (k = 1)) as [->|].
    + apply (ordered_min _ _ (h_used h)); [done|lia].
    + destruct (ordered_max (h_comparator h) (vals (h_elements h)) (h_used h) k)
        as (r & Hr & _ & Hle); [done|lia|].
      eapply cmp_trans; [exact Hle|]. by apply Hbig.
Qed.

Lemma nr_minmax_heap_peek_max_spec h :
  heap_ok h -> 0 < h_used h ->
  nr_minmax_heap_peek_max (Some h) ∈ heap_contents h
  /\ forall y, y ∈ heap_contents h -> h_comparator h y (nr_minmax_heap_peek_max (Some h)) <= 0.
Proof.
  intros Hok Hu. pose proof (ok_cmp h Hok) as Hcmp. pose proof (ok_ordered h Hok) as Ho.
  assert (Hpeek : exists r, nr_minmax_heap_peek_max (Some h) = vals (h_elements h) r
    /\ 1 <= r <= h_used h
    /\ (1 < h_used h -> forall q, q = 2 \/ q = 3 -> q <= h_used h ->
          h_comparator h (vals (h_elements h) q) (vals (h_elements h) r) <= 0)).
  { unfold nr_minmax_heap_peek_max. destruct (Z.eqb_spec (h_used h) 0); [lia|].
    destruct (Z.eqb_spec (h_used h) 1); [exists 1; split_and!; [done|lia..]|].
    destruct (Z.eqb_spec (h_used h) 2) as [E|].
    { exists 2. split_and!; [done|lia..|]. intros _ q [->| ->]; [|lia]. intros _.
      apply (le_refl _ true). }
    unfold compare. fold (vals (h_elements h) 2) (vals (h_elements h) 3).
    destruct (Z.ltb_spec 0 (h_comparator h (vals (h_elements h) 2) (vals (h_elements h) 3))).
    - exists 2. split_and!; [done|lia..|]. intros _ q [->| ->] _; [apply (le_refl _ true)|].
      pose proof (cmp_antisym (vals (h_elements h) 3) (vals (h_elements h) 2)). lia.
    - exists 3. split_and!; [done|lia..|]. intros _ q [->| ->] _; [lia|apply (le_refl _ true)]. }
  destruct Hpeek as (r & -> & Hr & Hbig). split.
  - apply elem_of_contents. by exists r.
  - intros y (k & Hk & ->)%elem_of_contents. destruct (decide (k = 1)) as [->|].
    + apply (ordered_min _ _ (h_used h)); [done|lia].
    + destruct (ordered_max (h_comparator h) (vals (h_elements h)) (h_used h) k)
        as (q & Hq & Hqn & Hle); [done|lia|].
      eapply cmp_trans; [exact Hle|]. apply Hbig; [lia|done|done].
Qed.

(** Iteration meets exactly the values in the heap. *)
Lemma used_values_contents h : heap_ok h -> used_values h = heap_contents h.
Proof.
  intros [_ Hu _ Hc HL _ _]. unfold used_values, heap_contents, contents.
  assert (Htake : take (S (Z.to_nat (h_used h))) (h_elements h)
                  = el (h_elements h) 0 :: map (el (h_elements h)) (seqZ 1 (h_used h))).
  { apply list_eq. intros i. destruct (decide (i < S (Z.to_nat (h_used h)))%nat) as [Hi|Hi].
    - rewrite lookup_take_lt by done. unfold el. destruct i as [|i].
      + apply list_lookup_lookup_total_lt. lia.
      + simpl. rewrite list_lookup_fmap, lookup_seqZ_lt by lia. simpl.
        rewrite list_lookup_lookup_total_lt by lia. f_equal. f_equal. lia.
    - rewrite lookup_take_ge by lia. destruct i as [|i]; [lia|]. simpl.
      rewrite list_lookup_fmap, lookup_seqZ_ge by lia. done. }
  rewrite Htake. rewrite filter_cons_False.
  2:{ rewrite HL by lia. rewrite bool_decide_eq_false_2 by lia. done. }
  rewrite filter_all.
  - unfold vals. rewrite <- list_fmap_compose. done.
  - intros e (k & -> & Hk%elem_of_seqZ)%list_elem_of_fmap. rewrite HL by lia.
    apply bool_decide_eq_true. lia.
Qed.

Lemma nr_minmax_heap_insert_room h x :
  heap_ok h -> h_used h + 1 < 2 ^ 62 -> h_bound h = 0 \/ h_used h < h_bound h ->
  exists h', nr_minmax_heap_insert (Some h) x = Some (Some h', [])
    /\ heap_ok h' /\ heap_contents h' ≡ₚ x :: heap_contents h /\ same_setup h h'
    /\ h_used h' = h_used h + 1.
Proof.
  intros Hok Hsmall Hroom. unfold nr_minmax_heap_insert.
  destruct (Z.eqb_spec (h_bound h) 0), (Z.leb_spec (h_bound h) (h_used h)); simpl; try lia;
    (destruct (heap_add_spec h x) as (h' & -> & ?); [done..|]; exists h'; split; [done|]; split_and!; by tauto).
Qed.

Lemma nr_minmax_heap_insert_full h x :
  heap_ok h -> 0 < h_bound h -> h_used h = h_bound h ->
  exists h' out, nr_minmax_heap_insert (Some h) x
                 = Some (Some h', if h_destructor h then [out] else [])
    /\ heap_ok h' /\ same_setup h h' /\ h_used h' = h_used h
    /\ x :: heap_contents h ≡ₚ out :: heap_contents h'
    /\ (forall y, y ∈ heap_contents h' -> h_comparator h out y <= 0)
    /\ (0 < h_comparator h (nr_minmax_heap_peek_min (Some h)) x -> out = x /\ h' = h)
    /\ (h_comparator h (nr_minmax_heap_peek_min (Some h)) x <= 0 ->
          out = nr_minmax_heap_peek_min (Some h)).
Proof.
  intros Hok Hb Hfull. unfold nr_minmax_heap_insert. pose proof (ok_small h Hok).
  destruct (Z.eqb_spec (h_bound h) 0); [lia|]. destruct (Z.leb_spec (h_bound h) (h_used h)); [|lia].
  simpl (negb false && true).
  pose proof (ok_cmp h Hok) as Hcmp.
  destruct (nr_minmax_heap_pop_min_spec h Hok) as (m & h1 & Hpop & -> & Hok1 & Hu1 & Hs1 & Hp1 & Hmin); [lia|].
  destruct (Z.ltb_spec 0 (h_comparator h m x)).
  - exists h, x. split_and!; try done; [|lia]. intros y Hy.
    apply cmp_trans with m; [apply Z.lt_le_incl, cmp_antisym; done|auto].
  - rewrite Hpop. simpl. destruct Hs1 as (Hb1 & Hc1 & Hd1).
    destruct (heap_add_spec h1 x) as (h' & -> & Hok' & Hu' & Hp' & (Hb' & Hc' & Hd')); [done|lia|lia|].
    exists h', m. simpl. split_and!; try done; try congruence; try lia.
    + by split_and!; congruence.
    + rewrite Hp1, Hp'. apply perm_swap.
    + intros y Hy. rewrite Hp' in Hy. apply elem_of_cons in Hy as [->|Hy]; [done|].
      apply Hmin. rewrite Hp1. by right.
Qed.
End Operations.

(** ** Properties *)

(* @about nr_minmax_heap_pop_min nr_minmax_heap_pop_max nr_minmax_heap_peek_min nr_minmax_heap_peek_max trickledown_minmax index_minmax_child_grandchild *)
(** C31 (functional): on a well-formed heap that is not empty, [pop_min] returns a least value
    and [pop_max] a greatest one, both operations return, remove exactly that value from the
    contents, and leave a well-formed heap; [peek_min] is the value [pop_min] removes and
    [peek_max] a greatest value of the heap. *)
Theorem nr_minmax_heap_pop_extremes {A : Type} (h : nr_minmax_heap_t A) :
  heap_ok h -> 0 < h_used h ->
  (exists x h', nr_minmax_heap_pop_min (Some h) = Some (x, Some h')
     /\ nr_minmax_heap_peek_min (Some h) = x /\ heap_ok h'
     /\ heap_contents h ≡ₚ x :: heap_contents h'
     /\ forall y, y ∈ heap_contents h -> h_comparator h x y <= 0)
  /\ (exists x h', nr_minmax_heap_pop_max (Some h) = Some (x, Some h') /\ heap_ok h'
     /\ heap_contents h ≡ₚ x :: heap_contents h'
     /\ forall y, y ∈ heap_contents h -> h_comparator h y x <= 0)
  /\ nr_minmax_heap_peek_max (Some h) ∈ heap_contents h
  /\ (forall y, y ∈ heap_contents h -> h_comparator h y (nr_minmax_heap_peek_max (Some h)) <= 0).
Proof.
  intros Hok Hu. split_and!.
  - destruct (nr_minmax_heap_pop_min_spec h Hok Hu) as (x & h' & ? & ? & ? & _ & _ & ? & ?).
    by exists x, h'.
  - destruct (nr_minmax_heap_pop_max_spec h Hok Hu) as (x & h' & ? & ? & _ & _ & ? & ?).
    by exists x, h'.
  - apply nr_minmax_heap_peek_max_spec; done.
  - apply nr_minmax_heap_peek_max_spec; done.
Qed.

(** Comparing the numbers the pointers point to. *)
Definition cmp_Z (a b : option Z) : Z := default 0 a - default 0 b.

#[export] Instance cmp_Z_total : TotalCmp cmp_Z.
Proof. split; unfold cmp_Z; intros; lia. Qed.

(** Inserting the values one after the other, collecting what the destructor was given. *)
Fixpoint insert_all {A : Type} (hp : option (nr_minmax_heap_t A)) (xs : list (option A))
  : option (option (nr_minmax_heap_t A) * list (option A)) :=
  match xs with
  | [] => Some (hp, [])
  | x :: xs =>
      '(hp, out) ← nr_minmax_heap_insert hp x;
      '(hp, outs) ← insert_all hp xs;
      Some (hp, out ++ outs)
  end.

(** [k] is a selection of the [n] greatest values of [xs]; [out] is the rest. *)
Definition greatest_of {A : Type} (cmp : option A -> option A -> Z) (n : Z)
    (xs k out : list (option A)) : Prop :=
  k ++ out ≡ₚ xs /\ Z.of_nat (length k) = n `min` Z.of_nat (length xs)
  /\ forall x y, x ∈ out -> y ∈ k -> cmp x y <= 0.

(** One insertion into a bounded heap that has kept the greatest values so far. *)
Lemma insert_keeps {A : Type} (h : nr_minmax_heap_t A) (x : option A) (kept out : list (option A)) :
  heap_ok h -> 0 < h_bound h -> greatest_of (h_comparator h) (h_bound h) kept (heap_contents h) out ->
  exists h' o, nr_minmax_heap_insert (Some h) x = Some (Some h', if h_destructor h then o else [])
    /\ heap_ok h' /\ same_setup h h'
    /\ greatest_of (h_comparator h) (h_bound h) (kept ++ [x]) (heap_contents h') (out ++ o).
Proof.
  intros Hok Hb (Hperm & Hlen & Hle).
  assert (Hu : Z.of_nat (length (heap_contents h)) = h_used h)
    by (apply length_contents; apply (ok_used h Hok)).
  pose proof (ok_cmp h Hok) as Hcmp. pose proof (ok_small h Hok). pose proof (ok_bound h Hok) as Hbd.
  pose proof (ok_used h Hok). pose proof (Permutation_length Hperm) as Hpl. rewrite length_app in Hpl.
  destruct (decide (h_used h < h_bound h)) as [Hroom|Hfull].
  - assert (out = []) as -> by (destruct out; [done|simpl in *; lia]). rewrite app_nil_r in Hperm.
    destruct (nr_minmax_heap_insert_room h x Hok) as (h1 & -> & Hok1 & Hp1 & Hsame & Hu1);
      [destruct Hbd; lia|by right|].
    exists h1, []. split_and!; [by destruct (h_destructor h)|done|done|].
    split_and!.
    + rewrite app_nil_r, Hp1, Hperm. apply Permutation_cons_append.
    + rewrite Hp1. simpl in *. rewrite length_app. simpl. lia.
    + intros ?? []%elem_of_nil.
  - destruct (nr_minmax_heap_insert_full h x Hok Hb) as (h1 & o & -> & Hok1 & Hsame & Hu1 & Hp1 & Hle1 & _); [lia|].
    assert (Hpe : heap_contents h1 ++ out ++ [o] ≡ₚ kept ++ [x]).
    { rewrite app_assoc, <- !Permutation_cons_append, <- Hperm.
      change (o :: heap_contents h1 ++ out) with ((o :: heap_contents h1) ++ out).
      by rewrite <- Hp1. }
    exists h1, [o]. split_and!; [done..|]. split_and!; [done| |].
    + assert (Z.of_nat (length (heap_contents h1)) = h_used h1)
        by (apply length_contents; apply (ok_used h1 Hok1)).
      rewrite length_app. simpl. lia.
    + intros y z [Hy|Hy%list_elem_of_singleton]%elem_of_app Hz; [|subst y; by apply Hle1].
      assert (Ho : o ∈ x :: heap_contents h) by (rewrite Hp1; by left).
      apply elem_of_cons in Ho as [->|Ho].
      * apply Permutation_cons_inv in Hp1. apply Hle; [done|by rewrite Hp1].
      * assert (Hz' : z ∈ o :: heap_contents h1) by by right.
        rewrite <- Hp1 in Hz'. apply elem_of_cons in Hz' as [->|Hz']; [|by apply Hle].
        eapply cmp_trans; [by apply (Hle _ o)|]. by apply Hle1.
Qed.

Lemma insert_all_keeps {A : Type} (h : nr_minmax_heap_t A) (xs kept out : list (option A)) :
  heap_ok h -> 0 < h_bound h -> h_destructor h = true ->
  greatest_of (h_comparator h) (h_bound h) kept (heap_contents h) out ->
  exists h' out', insert_all (Some h) xs = Some (Some h', out') /\ heap_ok h' /\ same_setup h h'
    /\ greatest_of (h_comparator h) (h_bound h) (kept ++ xs) (heap_contents h') (out ++ out').
Proof.
  intros Hok Hb Hd. revert h kept out Hok Hb Hd.
  induction xs as [|x xs IH]; intros h kept out Hok Hb Hd Hg; cbn [insert_all].
  { exists h, []. rewrite !app_nil_r. split_and!; done. }
  destruct (insert_keeps h x kept out Hok Hb Hg) as (h1 & o & -> & Hok1 & (Hb1 & Hc1 & Hd1) & Hg1). rewrite Hd.
  cbn [mbind option_bind]. rewrite <- Hb1, <- Hc1 in Hg1.
  destruct (IH h1 (kept ++ [x]) (out ++ o)) as (h' & out' & -> & Hok' & (? & ? & ?) & Hg'); [done|lia|congruence|done|].
  exists h', (o ++ out'). rewrite <- !app_assoc in Hg'. rewrite Hb1, Hc1 in Hg'.
  split_and!; [done|done|by split_and!; congruence|done].
Qed.

(* @about nr_minmax_heap_create nr_minmax_heap_insert nr_minmax_heap_pop_min nr_minmax_heap_peek_min bubbleup_minmax *)
(** C32 (functional): a bounded heap keeps the greatest values.  After any sequence of
    insertions into a heap created with bound [b], every insertion has returned, the heap is
    well formed and holds [min b n] of the [n] values, the destructor was called on exactly
    the others, and none of those compares greater than a value that was kept. *)
Theorem nr_minmax_heap_bounded_keeps_greatest {A : Type}
    (cmp : option A -> option A -> Z) (bound : Z) (xs : list (option A)) :
  TotalCmp cmp -> 2 <= bound < 2 ^ 62 ->
  exists h h' out,
    nr_minmax_heap_create bound (Some cmp) true = Some h
    /\ insert_all (Some h) xs = Some (Some h', out)
    /\ heap_ok h' /\ greatest_of cmp bound xs (heap_contents h') out.
Proof.
  intros Hcmp Hb.
  destruct (nr_minmax_heap_create_ok bound cmp true Hcmp)
    as (h & Hcreate & Hok & Hnil & _ & Hbd & Hc & Hd); [lia..|].
  destruct (insert_all_keeps h xs [] []) as (h' & out & Hrun & Hok' & _ & Hg);
    [done|lia|done| |].
  { rewrite Hnil. split_and!; [done|simpl; lia|]. intros ?? []%elem_of_nil. }
  rewrite Hbd, Hc in Hg. by exists h, h', out.
Qed.

Lemma nr_minmax_heap_bounded_keeps_greatest_witness :
  exists h h' out,
    nr_minmax_heap_create 2 (Some cmp_Z) true = Some h
    /\ insert_all (Some h) [Some 3; Some 1; Some 4; Some 1; Some 5] = Some (Some h', out)
    /\ heap_ok h' /\ greatest_of cmp_Z 2 [Some 3; Some 1; Some 4; Some 1; Some 5] (heap_contents h') out.
Proof. apply nr_minmax_heap_bounded_keeps_greatest; [exact cmp_Z_total|lia]. Defined.

(** The run itself, evaluated: 3, 1 and 1 are evicted or refused, in that order. *)
Example bounded_heap_run :
  match nr_minmax_heap_create 2 (Some cmp_Z) true with
  | Some h => snd <$> insert_all (Some h) [Some 3; Some 1; Some 4; Some 1; Some 5]
  | None => None
  end = Some [Some 1; Some 1; Some 3].
Proof. reflexivity. Qed.

Lemma insert_all_unbounded {A : Type} (h : nr_minmax_heap_t A) (xs : list (option A)) :
  heap_ok h -> h_bound h = 0 -> h_used h + Z.of_nat (length xs) < 2 ^ 62 ->
  exists h', insert_all (Some h) xs = Some (Some h', []) /\ heap_ok h' /\ same_setup h h'
    /\ heap_contents h' ≡ₚ xs ++ heap_contents h.
Proof.
  revert h. induction xs as [|x xs IH]; intros h Hok Hb Hsmall; cbn [insert_all].
  { exists h. by split_and!. }
  simpl in Hsmall.
  destruct (nr_minmax_heap_insert_room h x Hok) as (h1 & -> & Hok1 & Hp1 & (Hb1 & Hc1 & Hd1) & Hu1);
    [lia|by left|].
  cbn [mbind option_bind].
  destruct (IH h1) as (h' & -> & Hok' & (? & ? & ?) & Hp'); [done|lia|lia|].
  exists h'. split_and!; [done|done|by split_and!; congruence|].
  rewrite Hp', Hp1. simpl. symmetry. apply Permutation_middle.
Qed.

(** Taking [n] values out with [pop_min]. *)
Fixpoint drain {A : Type} (n : nat) (hp : option (nr_minmax_heap_t A))
  : option (list (option A)) :=
  match n with
  | O => Some []
  | S n => '(x, hp) ← nr_minmax_heap_pop_min hp; xs ← drain n hp; Some (x :: xs)
  end.

Lemma drain_sorted {A : Type} (n : nat) (h : nr_minmax_heap_t A) :
  heap_ok h -> h_used h = Z.of_nat n ->
  exists ys, drain n (Some h) = Some ys /\ ys ≡ₚ heap_contents h
    /\ StronglySorted (fun x y => h_comparator h x y <= 0) ys.
Proof.
  revert h. induction n as [|n IH]; intros h Hok Hu; cbn [drain].
  - exists []. split_and!; [done| |constructor].
    unfold heap_contents. by rewrite Hu.
  - destruct (nr_minmax_heap_pop_min_spec h Hok) as (x & h' & -> & _ & Hok' & Hu' & (_ & Hc & _) & Hp & Hmin);
      [lia|].
    cbn [mbind option_bind]. destruct (IH h' Hok') as (ys & -> & Hys & Hsort); [lia|].
    exists (x :: ys). split_and!; [done|by rewrite Hp, Hys|]. rewrite Hc in Hsort.
    constructor; [done|]. apply Forall_forall. intros y Hy. apply Hmin. rewrite Hp, <- Hys. by right.
Qed.

(** An unbounded heap sorts.  Inserting any values into it, growing its array
    as needed, and popping the minimum as many times returns all of them, once each, in
    ascending order; every operation on the way returns. *)
Theorem nr_minmax_heap_sorts {A : Type} (cmp : option A -> option A -> Z) (dtor : bool)
    (xs : list (option A)) :
  TotalCmp cmp -> Z.of_nat (length xs) < 2 ^ 62 ->
  exists h h' ys,
    nr_minmax_heap_create 0 (Some cmp) dtor = Some h
    /\ insert_all (Some h) xs = Some (Some h', [])
    /\ drain (length xs) (Some h') = Some ys
    /\ ys ≡ₚ xs /\ StronglySorted (fun x y => cmp x y <= 0) ys.
Proof.
  intros Hcmp Hlen.
  destruct (nr_minmax_heap_create_ok 0 cmp dtor Hcmp)
    as (h & Hcreate & Hok & Hnil & Hu0 & Hbd & Hc & Hd); [lia..|].
  destruct (insert_all_unbounded h xs Hok) as (h' & Hrun & Hok' & (_ & Hc' & _) & Hp); [lia..|].
  rewrite Hnil, app_nil_r in Hp.
  destruct (drain_sorted (length xs) h' Hok') as (ys & Hdrain & Hys & Hsort).
  { rewrite <- (Permutation_length Hp). symmetry. apply length_contents, (ok_used h' Hok'). }
  rewrite Hc', Hc in Hsort. exists h, h', ys. split_and!; [done..|by rewrite Hys|done].
Qed.

Lemma nr_minmax_heap_sorts_witness :
  exists h h' ys,
    nr_minmax_heap_create 0 (Some cmp_Z) false = Some h
    /\ insert_all (Some h) [Some 3; Some 1; Some 2] = Some (Some h', [])
    /\ drain 3 (Some h') = Some ys
    /\ ys ≡ₚ [Some 3; Some 1; Some 2] /\ StronglySorted (fun x y => cmp_Z x y <= 0) ys.
Proof. apply (nr_minmax_heap_sorts cmp_Z false [Some 3; Some 1; Some 2] cmp_Z_total). simpl; lia. Defined.

Lemma nr_minmax_heap_pop_extremes_witness :
  exists h : nr_minmax_heap_t Z, heap_ok h /\ 0 < h_used h
    /\ nr_minmax_heap_peek_max (Some h) ∈ heap_contents h.
Proof.
  destruct (nr_minmax_heap_create_ok 0 cmp_Z false cmp_Z_total)
    as (h & Hcreate & Hok & Hnil & Hu0 & Hbd & Hc & Hd); [lia..|].
  destruct (nr_minmax_heap_insert_room h (Some 7) Hok) as (h1 & _ & Hok1 & _ & _ & Hu1); [lia|by left|].
  exists h1. assert (Hpos : 0 < h_used h1) by lia. split_and!; [done|done|].
  apply (nr_minmax_heap_pop_extremes h1 Hok1 Hpos).
Defined.
