(* ===== verification/Time.v ===== *)
(** * Times and apdex zones

    [util_time.h] and [util_apdex.c].  [nrtime_t] is a [uint64_t] of microseconds. *)

From S2P Require Import Prelude.

(* @map util_time.h:15-15 NR_TIME_MAX *)
Definition NR_TIME_MAX : Z := 2 ^ 64 - 1.

(* @map util_time.h:32-33 NR_TIME_DIVISOR *)
Definition NR_TIME_DIVISOR : Z := 1000000.

(* @map util_time.h:36-36 NR_TIME_DIVISOR_US *)
Definition NR_TIME_DIVISOR_US : Z := 1.

(* @map util_time.h:35-35 NR_TIME_DIVISOR_MS *)
Definition NR_TIME_DIVISOR_MS : Z := 1000.

(** The clock reading of [gettimeofday] is an argument. *)
(* @map util_time.h:47-55 nr_get_time *)
Definition nr_get_time (tv_sec tv_usec : Z) : Z := u64 (u64 (tv_sec * NR_TIME_DIVISOR) + tv_usec).

(* @map util_time.h:62-68 nr_time_duration *)
Definition nr_time_duration (start stop : Z) : Z :=
  if stop <? start then 0 else u64 (stop - start).

(* @map util_apdex.h:15-19 nr_apdex_zone_t *)
Inductive nr_apdex_zone_t : Type := NR_APDEX_SATISFYING | NR_APDEX_TOLERATING | NR_APDEX_FAILING.

#[export] Instance nr_apdex_zone_t_eq_dec : EqDecision nr_apdex_zone_t.
Proof. solve_decision. Defined.

(* @map util_apdex.c:5-13 nr_apdex_zone *)
Definition nr_apdex_zone (apdex_threshold duration : Z) : nr_apdex_zone_t :=
  if duration <=? apdex_threshold then NR_APDEX_SATISFYING
  else if duration <=? u64 (4 * apdex_threshold) then NR_APDEX_TOLERATING
  else NR_APDEX_FAILING.

Definition ascii_S : Z := 83.
Definition ascii_T : Z := 84.
Definition ascii_F : Z := 70.

(* @map util_apdex.c:15-29 nr_apdex_zone_label *)
Definition nr_apdex_zone_label (apdex : nr_apdex_zone_t) : Z :=
  match apdex with
  | NR_APDEX_SATISFYING => ascii_S
  | NR_APDEX_TOLERATING => ascii_T
  | NR_APDEX_FAILING => ascii_F
  end.

Lemma nr_time_duration_spec (start stop : Z) :
  in_u64 start -> in_u64 stop -> nr_time_duration start stop = Z.max 0 (stop - start).
Proof.
  intros [? ?] [? ?]. unfold nr_time_duration. destruct (Z.ltb_spec stop start); [lia|].
  rewrite u64_id by (unfold in_u64; lia). lia.
Qed.

Lemma nr_time_duration_range (start stop : Z) : in_u64 (nr_time_duration start stop).
Proof. unfold nr_time_duration. case_if; [done|apply u64_range]. Qed.

(** The zone worsens with the duration when [4 * T] does not overflow. *)
Lemma nr_apdex_zone_spec (t d : Z) :
  0 <= t < 2 ^ 62 -> 0 <= d ->
  (nr_apdex_zone t d = NR_APDEX_SATISFYING <-> d <= t)
  /\ (nr_apdex_zone t d = NR_APDEX_TOLERATING <-> t < d <= 4 * t)
  /\ (nr_apdex_zone t d = NR_APDEX_FAILING <-> 4 * t < d).
Proof.
  intros Ht Hd. unfold nr_apdex_zone. rewrite u64_id by (unfold in_u64; lia).
  destruct (Z.leb_spec d t), (Z.leb_spec d (4 * t)); split_and!; split; intros; try done; lia.
Qed.
