(* ===== verification/ExclusiveTime.v ===== *)
(** * Exclusive time

    [nr_exclusive_time.c], [nr_exclusive_time_private.h]: how much of a segment's time is
    covered by none of its children.  The C library's [qsort_r], which [nr_sort] calls, is a
    parameter, assumed to sort. *)

From S2P Require Import Prelude Time.

(* @map nr_exclusive_time_private.h:13-16 type *)
Inductive transition_type : Type := CHILD_START | CHILD_STOP.

#[export] Instance transition_type_eq_dec : EqDecision transition_type.
Proof. solve_decision. Defined.

(* @map nr_exclusive_time_private.h:11-17 nr_exclusive_time_transition_t *)
Record nr_exclusive_time_transition_t : Type := mk_transition {
  tr_time : Z;
  tr_type : transition_type
}.

(** Of the array, the [used] elements that were written; [transitions.used] is their number. *)
(* @map nr_exclusive_time_private.h:19-27 _nr_exclusive_time_t *)
Record nr_exclusive_time_t : Type := mk_exclusive_time {
  et_start_time : Z;
  et_stop_time : Z;
  et_capacity : Z;
  et_transitions : list nr_exclusive_time_transition_t
}.

Definition et_used (et : nr_exclusive_time_t) : Z := Z.of_nat (length (et_transitions et)).

(* @map nr_exclusive_time.c:10-27 nr_exclusive_time_create *)
Definition nr_exclusive_time_create (child_segments start_time stop_time : Z)
  : option nr_exclusive_time_t :=
  if stop_time <? start_time then None
  else Some (mk_exclusive_time start_time stop_time (u64 (child_segments * 2)) []).

(* @map nr_exclusive_time.c:29-37 nr_exclusive_time_destroy *)
Definition nr_exclusive_time_destroy (et_ptr : option (option nr_exclusive_time_t))
  : bool * option (option nr_exclusive_time_t) :=
  match et_ptr with
  | None => (false, None)
  | Some None => (false, Some None)
  | Some (Some _) => (true, Some None)
  end.

(* @map nr_exclusive_time.c:39-80 nr_exclusive_time_add_child *)
Definition nr_exclusive_time_add_child (parent_et : option nr_exclusive_time_t)
    (start_time stop_time : Z) : bool * option nr_exclusive_time_t :=
  match parent_et with
  | None => (false, None)
  | Some et =>
      if et_capacity et <? u64 (et_used et + 2) then (false, Some et)
      else if stop_time <? start_time then (false, Some et)
      else if (stop_time <? et_start_time et) || (et_stop_time et <? start_time)
      then (true, Some et)
      else
        (true,
         Some (mk_exclusive_time (et_start_time et) (et_stop_time et) (et_capacity et)
                 (et_transitions et
                  ++ [mk_transition start_time CHILD_START; mk_transition stop_time CHILD_STOP])))
  end.

(** The arguments are never NULL: [nr_sort] passes the addresses of elements. *)
(* @map nr_exclusive_time.c:82-119 nr_exclusive_time_transition_compare *)
Definition nr_exclusive_time_transition_compare (a b : nr_exclusive_time_transition_t) : Z :=
  if tr_time a <? tr_time b then -1
  else if tr_time b <? tr_time a then 1
  else if negb (bool_decide (tr_type a = tr_type b)) then
    match tr_type a, tr_type b with
    | CHILD_START, _ => -1
    | _, CHILD_START => 1
    | _, _ => 0
    end
  else 0.

(** The loop over the sorted transitions; [active_children] is an [unsigned int]. *)
(* @map nr_exclusive_time.c:152-236 nr_exclusive_time_calculate *)
Fixpoint calculate_loop (start_time stop_time : Z) (ts : list nr_exclusive_time_transition_t)
    (active_children exclusive_time last_start : Z) : Z :=
  match ts with
  | [] => exclusive_time
  | t :: ts =>
      let time := tr_time t in
      match tr_type t with
      | CHILD_START =>
          let last_start :=
            if active_children =? 0 then (if start_time <? time then time else start_time)
            else last_start in
          calculate_loop start_time stop_time ts (u32 (active_children + 1)) exclusive_time
            last_start
      | CHILD_STOP =>
          if active_children =? 0 then
            calculate_loop start_time stop_time ts active_children exclusive_time last_start
          else if active_children =? 1 then
            let duration :=
              if stop_time <? time then nr_time_duration last_start stop_time
              else nr_time_duration last_start time in
            if exclusive_time <? duration then 0
            else
              let exclusive_time := u64 (exclusive_time - duration) in
              if stop_time <? time then exclusive_time
              else calculate_loop start_time stop_time ts (u32 (active_children - 1))
                     exclusive_time last_start
          else calculate_loop start_time stop_time ts (u32 (active_children - 1)) exclusive_time
                 last_start
      end
  end.

Section Calculate.
Context (qsort_r : (nr_exclusive_time_transition_t -> nr_exclusive_time_transition_t -> Z)
                   -> list nr_exclusive_time_transition_t -> list nr_exclusive_time_transition_t).

(** The array is sorted in place. *)
(* @map nr_exclusive_time.c:121-237 nr_exclusive_time_calculate *)
Definition nr_exclusive_time_calculate (et : option nr_exclusive_time_t)
  : Z * option nr_exclusive_time_t :=
  match et with
  | None => (0, None)
  | Some et =>
      if et_used et =? 0 then (nr_time_duration (et_start_time et) (et_stop_time et), Some et)
      else
        let ts := qsort_r nr_exclusive_time_transition_compare (et_transitions et) in
        (calculate_loop (et_start_time et) (et_stop_time et) ts 0
           (nr_time_duration (et_start_time et) (et_stop_time et)) 0,
         Some (mk_exclusive_time (et_start_time et) (et_stop_time et) (et_capacity et) ts))
  end.
End Calculate.

(** ** The order of the transitions *)

(** Transitions sort by time, starts before stops. *)
Definition key (t : nr_exclusive_time_transition_t) : Z :=
  2 * tr_time t + match tr_type t with CHILD_START => 0 | CHILD_STOP => 1 end.

Lemma compare_key (a b : nr_exclusive_time_transition_t) :
  nr_exclusive_time_transition_compare a b <= 0 <-> key a <= key b.
Proof.
  unfold nr_exclusive_time_transition_compare, key.
  destruct (Z.ltb_spec (tr_time a) (tr_time b)), (Z.ltb_spec (tr_time b) (tr_time a)),
    (tr_type a), (tr_type b); simpl; lia.
Qed.

Lemma compare_total (a b : nr_exclusive_time_transition_t) :
  nr_exclusive_time_transition_compare a b <= 0 \/ nr_exclusive_time_transition_compare b a <= 0.
Proof. rewrite !compare_key. lia. Qed.

Lemma compare_trans (a b c : nr_exclusive_time_transition_t) :
  nr_exclusive_time_transition_compare a b <= 0 ->
  nr_exclusive_time_transition_compare b c <= 0 -> nr_exclusive_time_transition_compare a c <= 0.
Proof. rewrite !compare_key. lia. Qed.

(** ** Counting active children *)

(** What a transition adds to the number of active children. *)
Definition delta (t : nr_exclusive_time_transition_t) : Z :=
  match tr_type t with CHILD_START => 1 | CHILD_STOP => -1 end.

Definition sum_over {T : Type} (f : T -> Z) (l : list T) : Z := foldr (fun x n => f x + n) 0 l.

Lemma sum_over_app {T : Type} (f : T -> Z) (l k : list T) :
  sum_over f (l ++ k) = sum_over f l + sum_over f k.
Proof. induction l as [|x l IH]; simpl in *; [done|]. rewrite IH. lia. Qed.

Lemma sum_over_permutation {T : Type} (f : T -> Z) (l k : list T) :
  l ≡ₚ k -> sum_over f l = sum_over f k.
Proof. induction 1; simpl in *; lia. Qed.

Lemma sum_over_le {T : Type} (f g : T -> Z) (l : list T) :
  (forall x, x ∈ l -> f x <= g x) -> sum_over f l <= sum_over g l.
Proof.
  induction l as [|x l IH]; intros H; simpl; [lia|].
  pose proof (H x ltac:(left)). assert (sum_over f l <= sum_over g l) by (apply IH; intros; apply H; by right).
  unfold sum_over in *. lia.
Qed.

Lemma sum_over_ext {T : Type} (f g : T -> Z) (l : list T) :
  (forall x, x ∈ l -> f x = g x) -> sum_over f l = sum_over g l.
Proof.
  intros H. apply Z.le_antisymm; apply sum_over_le; intros x Hx; by rewrite H.
Qed.

Lemma sum_over_plus {T : Type} (f g : T -> Z) (l : list T) :
  sum_over (fun x => f x + g x) l = sum_over f l + sum_over g l.
Proof. induction l as [|x l IH]; simpl in *; lia. Qed.

(** The number of active children at time [t], as the transitions tell it. *)
Definition active_at (ts : list nr_exclusive_time_transition_t) (t : Z) : Z :=
  sum_over (fun x => if tr_time x <=? t then delta x else 0) ts.

(** Counting from [a], no prefix goes below zero and the count ends at zero. *)
Fixpoint balanced (a : Z) (ts : list nr_exclusive_time_transition_t) : Prop :=
  match ts with
  | [] => a = 0
  | x :: ts => 0 <= a + delta x /\ balanced (a + delta x) ts
  end.

(** A child is a start and a stop time. *)
Definition child_transitions (c : Z * Z) : list nr_exclusive_time_transition_t :=
  [mk_transition (fst c) CHILD_START; mk_transition (snd c) CHILD_STOP].

Definition transitions_of (cs : list (Z * Z)) : list nr_exclusive_time_transition_t :=
  concat (map child_transitions cs).

(** Up to a key, at least as many children have started as have stopped: each starts first. *)
Lemma starts_before_stops (cs : list (Z * Z)) (k : Z) :
  Forall (fun c => fst c <= snd c) cs ->
  sum_over (fun x => match tr_type x with CHILD_STOP => if key x <=? k then 1 else 0 | _ => 0 end)
    (transitions_of cs)
  <= sum_over (fun x => match tr_type x with CHILD_START => if key x <? k then 1 else 0 | _ => 0 end)
       (transitions_of cs).
Proof.
  induction 1 as [|c cs Hc Hcs IH]; simpl; [lia|].
  unfold transitions_of, sum_over in *. simpl. unfold key at 1 3. simpl.
  destruct (Z.leb_spec (2 * snd c + 1) k), (Z.ltb_spec (2 * fst c + 0) k); lia.
Qed.

Lemma delta_split (ts : list nr_exclusive_time_transition_t) :
  sum_over delta ts
  = sum_over (fun x => match tr_type x with CHILD_START => 1 | _ => 0 end) ts
    - sum_over (fun x => match tr_type x with CHILD_STOP => 1 | _ => 0 end) ts.
Proof.
  induction ts as [|x ts IH]; [done|]. simpl in *. unfold delta at 1.
  destruct (tr_type x); simpl in *; lia.
Qed.

Lemma sum_over_nonneg {T : Type} (f : T -> Z) (l : list T) :
  (forall x, 0 <= f x) -> 0 <= sum_over f l.
Proof. intros H. induction l as [|x l IH]; simpl; [lia|]. pose proof (H x). unfold sum_over in *. lia. Qed.

(** No prefix of the sorted transitions stops more children than it starts. *)
Lemma sorted_prefix (cs : list (Z * Z)) (p : list nr_exclusive_time_transition_t) x q :
  Forall (fun c => fst c <= snd c) cs ->
  p ++ x :: q ≡ₚ transitions_of cs ->
  StronglySorted (fun x y => key x <= key y) (p ++ x :: q) ->
  0 <= sum_over delta (p ++ [x]).
Proof.
  intros Hcs Hp Hs. rewrite delta_split.
  pose proof (starts_before_stops cs (key x) Hcs) as Hle.
  rewrite <- !(sum_over_permutation _ _ _ Hp) in Hle.
  replace (p ++ x :: q) with ((p ++ [x]) ++ q) in Hle, Hs by (by rewrite <- app_assoc).
  rewrite !sum_over_app with (k := q) in Hle.
  assert (Hpre : forall y, y ∈ p ++ [x] -> key y <= key x).
  { intros y [Hy| ->%list_elem_of_singleton]%elem_of_app; [|lia].
    rewrite <- app_assoc in Hs. apply list_elem_of_split in Hy as (p1 & p2 & ->).
    rewrite <- app_assoc in Hs. simpl in Hs. apply StronglySorted_app_1_r in Hs.
    apply StronglySorted_inv in Hs as [_ Hf]. rewrite Forall_forall in Hf. apply Hf.
    apply elem_of_app. right. by left. }
  assert (Hpost : forall y, y ∈ q -> key x <= key y).
  { intros y Hy. rewrite <- app_assoc in Hs. apply StronglySorted_app_1_r in Hs.
    apply StronglySorted_inv in Hs as [_ Hf]. rewrite Forall_forall in Hf. by apply Hf. }
  assert (Hq0 : sum_over (fun x0 => match tr_type x0 with CHILD_START => if key x0 <? key x then 1 else 0 | _ => 0 end) q = 0).
  { rewrite (sum_over_ext _ (fun _ => 0)); [clear; induction q; simpl in *; lia|].
    intros y Hy. pose proof (Hpost y Hy). destruct (tr_type y); [|done].
    by rewrite (proj2 (Z.ltb_ge _ _)). }
  assert (Hqs : 0 <= sum_over (fun x0 => match tr_type x0 with CHILD_STOP => if key x0 <=? key x then 1 else 0 | _ => 0 end) q).
  { apply sum_over_nonneg. intros y. destruct (tr_type y); [done|]. case_if; lia. }
  assert (Hps : sum_over (fun x0 => match tr_type x0 with CHILD_STOP => if key x0 <=? key x then 1 else 0 | _ => 0 end) (p ++ [x])
                = sum_over (fun x0 => match tr_type x0 with CHILD_STOP => 1 | _ => 0 end) (p ++ [x])).
  { apply sum_over_ext. intros y Hy. destruct (tr_type y); [done|].
    by rewrite (proj2 (Z.leb_le _ _) (Hpre y Hy)). }
  assert (Hpt : sum_over (fun x0 => match tr_type x0 with CHILD_START => if key x0 <? key x then 1 else 0 | _ => 0 end) (p ++ [x])
                <= sum_over (fun x0 => match tr_type x0 with CHILD_START => 1 | _ => 0 end) (p ++ [x])).
  { apply sum_over_le. intros y _. destruct (tr_type y); [|done]. case_if; lia. }
  lia.
Qed.

Lemma sum_delta_transitions (cs : list (Z * Z)) : sum_over delta (transitions_of cs) = 0.
Proof.
  induction cs as [|c cs IH]; [done|].
  change (transitions_of (c :: cs)) with (child_transitions c ++ transitions_of cs).
  by rewrite sum_over_app, IH.
Qed.

Lemma sorted_balanced (cs : list (Z * Z)) (ts : list nr_exclusive_time_transition_t) :
  Forall (fun c => fst c <= snd c) cs -> ts ≡ₚ transitions_of cs ->
  StronglySorted (fun x y => key x <= key y) ts -> balanced 0 ts.
Proof.
  intros Hcs Hp Hs.
  assert (H : forall q p, ts = p ++ q -> balanced (sum_over delta p) q).
  { induction q as [|x q IH]; intros p Hpq; simpl.
    - rewrite app_nil_r in Hpq. subst p.
      rewrite (sum_over_permutation _ _ _ Hp). apply sum_delta_transitions.
    - assert (Hsum : sum_over delta p + delta x = sum_over delta (p ++ [x]))
        by (rewrite sum_over_app; simpl; lia).
      rewrite Hsum. split.
      + subst ts. by apply (sorted_prefix cs p x q).
      + apply IH. by rewrite <- app_assoc. }
  by apply (H ts []).
Qed.

(** ** Counting ticks *)

Definition count (f : Z -> bool) (lo hi : Z) : Z :=
  sum_over (fun t => if f t then 1 else 0) (seqZ lo (hi - lo)).

Lemma count_empty f lo hi : hi <= lo -> count f lo hi = 0.
Proof. intros H. unfold count. by rewrite seqZ_nil by lia. Qed.

Lemma count_split f lo mid hi : lo <= mid <= hi -> count f lo hi = count f lo mid + count f mid hi.
Proof.
  intros H. unfold count. replace (hi - lo) with ((mid - lo) + (hi - mid)) by lia.
  rewrite seqZ_app, sum_over_app by lia. by replace (lo + (mid - lo)) with mid by lia.
Qed.

Lemma count_ext f g lo hi : (forall t, lo <= t < hi -> f t = g t) -> count f lo hi = count g lo hi.
Proof.
  intros H. unfold count. apply sum_over_ext. intros t Ht%elem_of_seqZ. rewrite H; [done|lia].
Qed.

Lemma count_const (b : bool) lo hi :
  lo <= hi -> count (fun _ => b) lo hi = if b then hi - lo else 0.
Proof.
  intros H. unfold count.
  assert (E : forall l : list Z, sum_over (fun _ => if b then 1 else 0) l = if b then Z.of_nat (length l) else 0).
  { induction l as [|x l IH]; [by destruct b|]. simpl in *. rewrite IH. destruct b; lia. }
  rewrite E, length_seqZ. destruct b; lia.
Qed.

Lemma count_negb f lo hi : lo <= hi -> count (fun t => negb (f t)) lo hi = hi - lo - count f lo hi.
Proof.
  intros H. pose proof (count_const true lo hi H) as E. simpl in E. rewrite <- E. unfold count.
  assert (E' : sum_over (fun _ => 1) (seqZ lo (hi - lo))
          = sum_over (fun t => (if negb (f t) then 1 else 0) + (if f t then 1 else 0)) (seqZ lo (hi - lo))).
  { apply sum_over_ext. intros t _. by destruct (f t). }
  rewrite E', sum_over_plus. lia.
Qed.

Lemma count_nonneg f lo hi : 0 <= count f lo hi.
Proof. apply sum_over_nonneg. intros t. by destruct (f t). Qed.

(** ** The sweep *)

Section Sweep.
Context (start_time stop_time : Z) (Hwin : 0 <= start_time <= stop_time) (Hmax : stop_time < 2 ^ 64).

(** A time moved into the segment's window. *)
Definition clamp (t : Z) : Z := Z.min (Z.max t start_time) stop_time.

(** The ticks from [tau] on at which a child is active, [a] being active before [ts]. *)
Definition busy (tau a : Z) (ts : list nr_exclusive_time_transition_t) : Z :=
  count (fun t => 0 <? a + active_at ts t) (clamp tau) stop_time.

Lemma active_at_before (ts : list nr_exclusive_time_transition_t) (t : Z) :
  (forall x, x ∈ ts -> t < tr_time x) -> active_at ts t = 0.
Proof.
  intros H. unfold active_at. rewrite (sum_over_ext _ (fun _ => 0)).
  - clear. induction ts; simpl in *; lia.
  - intros x Hx. rewrite (proj2 (Z.leb_gt _ _)); [done|]. by apply H.
Qed.

Lemma busy_step (tau a : Z) x ts :
  tau <= tr_time x -> (forall y, y ∈ ts -> tr_time x <= tr_time y) ->
  busy tau a (x :: ts)
  = (if 0 <? a then clamp (tr_time x) - clamp tau else 0) + busy (tr_time x) (a + delta x) ts.
Proof.
  intros Htau Hts. unfold busy. unfold clamp in *.
  rewrite (count_split _ _ (Z.min (Z.max (tr_time x) start_time) stop_time)) by lia. f_equal.
  - rewrite (count_ext _ (fun _ => 0 <? a)); [apply count_const; lia|].
    intros t Ht. rewrite active_at_before; [by rewrite Z.add_0_r|].
    intros y [->|Hy]%elem_of_cons; [lia|]. pose proof (Hts y Hy). lia.
  - apply count_ext. intros t Ht. unfold active_at. simpl.
    rewrite (proj2 (Z.leb_le (tr_time x) t)) by lia. by rewrite Z.add_assoc.
Qed.

(** Transitions as [nr_exclusive_time_add_child] records them. *)
Definition in_window (x : nr_exclusive_time_transition_t) : Prop :=
  match tr_type x with
  | CHILD_START => 0 <= tr_time x <= stop_time
  | CHILD_STOP => start_time <= tr_time x < 2 ^ 64
  end.

Lemma calculate_loop_spec (ts : list nr_exclusive_time_transition_t) (tau a excl last : Z) :
  StronglySorted (fun x y => key x <= key y) ts ->
  Forall in_window ts -> (forall x, x ∈ ts -> tau <= tr_time x) -> balanced a ts ->
  0 <= a -> a + Z.of_nat (length ts) < 2 ^ 32 ->
  (0 < a -> start_time <= last <= clamp tau) ->
  (if 0 <? a then clamp tau - last else 0) + busy tau a ts <= excl < 2 ^ 64 ->
  calculate_loop start_time stop_time ts a excl last
  = excl - (if 0 <? a then clamp tau - last else 0) - busy tau a ts.
Proof.
  intros Hs. revert tau a excl last.
  induction Hs as [|x ts Hs IH Hx]; intros tau a excl last Hwf Htau Hbal Ha Hlen Hlast Hexcl.
  { simpl in *. subst a. simpl. unfold busy.
    rewrite (count_ext _ (fun _ => false)), count_const by (unfold clamp; (done || lia)). lia. }
  apply Forall_cons in Hwf as [Hwx Hwf]. destruct Hbal as [Hax Hbal].
  assert (Hts : forall y, y ∈ ts -> tr_time x <= tr_time y).
  { intros y Hy. rewrite Forall_forall in Hx. specialize (Hx y Hy). unfold key in Hx.
    destruct (tr_type x), (tr_type y); lia. }
  pose proof (Htau x ltac:(left)) as Htx.
  rewrite busy_step in Hexcl |- * by done.
  pose proof (count_nonneg (fun t => 0 <? a + delta x + active_at ts t) (clamp (tr_time x)) stop_time) as Hnn.
  fold (busy (tr_time x) (a + delta x) ts) in Hnn.
  specialize (IH (tr_time x) (a + delta x)). cbn [calculate_loop]. simpl in Hlen.
  unfold in_window in Hwx. unfold delta in *. destruct (tr_type x).
  - rewrite u32_id by (unfold in_u32; lia).
    destruct (Z.ltb_spec 0 (a + 1)); [|lia].
    destruct (Z.eqb_spec a 0) as [Ha0|Ha0], (Z.ltb_spec 0 a); try lia.
    + destruct (Z.ltb_spec start_time (tr_time x)); (rewrite IH; [..|unfold clamp in *; lia]);
        try done; unfold clamp in *; lia.
    + rewrite IH; [lia|done..|lia|lia|unfold clamp in *; lia|lia].
  - destruct (Z.eqb_spec a 0); [lia|]. destruct (Z.ltb_spec 0 a); [|lia].
    specialize (Hlast ltac:(lia)).
    destruct (Z.eqb_spec a 1) as [->|Ha1].
    + simpl in IH, Hexcl, Hnn |- *.
      assert (Hdur : (if stop_time <? tr_time x then nr_time_duration last stop_time
                      else nr_time_duration last (tr_time x)) = clamp (tr_time x) - last).
      { unfold clamp in *. destruct (Z.ltb_spec stop_time (tr_time x));
          rewrite nr_time_duration_spec by (unfold in_u64; lia); lia. }
      rewrite Hdur. destruct (Z.ltb_spec excl (clamp (tr_time x) - last)); [lia|].
      rewrite u64_id by (unfold in_u64, clamp in *; lia).
      destruct (Z.ltb_spec stop_time (tr_time x)).
      * unfold busy at 1. rewrite count_empty by (unfold clamp; lia). lia.
      * rewrite u32_id by done. rewrite IH; [lia|done..|lia|lia|lia|unfold clamp in *; lia].
    + rewrite u32_id by (unfold in_u32; lia). destruct (Z.ltb_spec 0 (a + -1)); [|lia].
      replace (a - 1) with (a + -1) by lia.
      rewrite IH; [lia|done..|lia|lia|unfold clamp in *; lia|lia].
Qed.
End Sweep.

(** ** The whole computation *)

(** A child covers the ticks from its start up to its stop. *)
Definition covers (t : Z) (c : Z * Z) : bool := (fst c <=? t) && (t <? snd c).

(** The specification: the ticks of the segment that no child covers. *)
Definition exclusive_ticks (start_time stop_time : Z) (cs : list (Z * Z)) : Z :=
  count (fun t => negb (existsb (covers t) cs)) start_time stop_time.

Definition valid_child (c : Z * Z) : bool := fst c <=? snd c.

(** The children whose transitions are recorded. *)
Definition recorded (start_time stop_time : Z) (c : Z * Z) : bool :=
  valid_child c && negb ((snd c <? start_time) || (stop_time <? fst c)).

(** Adding children one after the other, with the results. *)
Fixpoint add_children (et : option nr_exclusive_time_t) (cs : list (Z * Z))
  : list bool * option nr_exclusive_time_t :=
  match cs with
  | [] => ([], et)
  | c :: cs =>
      let '(ok, et) := nr_exclusive_time_add_child et (fst c) (snd c) in
      let '(oks, et) := add_children et cs in
      (ok :: oks, et)
  end.

Lemma add_child_records (S P capacity : Z) (c : Z * Z) ts :
  Z.of_nat (length ts) + 2 <= capacity < 2 ^ 64 ->
  nr_exclusive_time_add_child (Some (mk_exclusive_time S P capacity ts)) (fst c) (snd c)
  = (valid_child c,
     Some (mk_exclusive_time S P capacity
             (ts ++ transitions_of (filter (fun c => recorded S P c = true) [c])))).
Proof.
  intros Hcap. unfold nr_exclusive_time_add_child, et_used. cbn [et_capacity et_transitions].
  rewrite u64_id by (unfold in_u64; lia). destruct (Z.ltb_spec capacity (Z.of_nat (length ts) + 2)); [lia|].
  rewrite filter_cons, filter_nil. cbn [et_start_time et_stop_time]. unfold recorded, valid_child.
  destruct (Z.ltb_spec (snd c) (fst c)), (Z.leb_spec (fst c) (snd c)); try lia.
  { rewrite decide_False by done. by rewrite app_nil_r. }
  destruct ((snd c <? S) || (P <? fst c)); [|done]. rewrite decide_False by done. by rewrite app_nil_r.
Qed.

Lemma transitions_of_app (cs cs' : list (Z * Z)) : transitions_of (cs ++ cs') = transitions_of cs ++ transitions_of cs'.
Proof. unfold transitions_of. by rewrite map_app, concat_app. Qed.

Lemma length_transitions_of (cs : list (Z * Z)) : length (transitions_of cs) = (2 * length cs)%nat.
Proof.
  induction cs as [|c cs IH]; [done|].
  change (transitions_of (c :: cs)) with (child_transitions c ++ transitions_of cs).
  rewrite length_app, IH. simpl. lia.
Qed.

Lemma add_children_spec (S P capacity : Z) (cs : list (Z * Z)) ts :
  Z.of_nat (length ts) + 2 * Z.of_nat (length cs) <= capacity < 2 ^ 64 ->
  add_children (Some (mk_exclusive_time S P capacity ts)) cs
  = (map valid_child cs,
     Some (mk_exclusive_time S P capacity
             (ts ++ transitions_of (filter (fun c => recorded S P c = true) cs)))).
Proof.
  revert ts. induction cs as [|c cs IH]; intros ts Hcap; cbn [add_children map].
  { by rewrite filter_nil, app_nil_r. }
  simpl in Hcap. rewrite add_child_records by lia.
  assert (Hle : (length (transitions_of (filter (fun c => recorded S P c = true) [c])) <= 2)%nat).
  { rewrite length_transitions_of. pose proof (length_filter (fun c => recorded S P c = true) [c]). simpl in *. lia. }
  rewrite IH by (rewrite length_app; lia).
  by rewrite <- app_assoc, <- transitions_of_app, <- filter_app.
Qed.

Lemma active_at_transitions (cs : list (Z * Z)) (t : Z) :
  Forall (fun c => fst c <= snd c) cs ->
  0 <= active_at (transitions_of cs) t
  /\ (0 <? active_at (transitions_of cs) t) = existsb (covers t) cs.
Proof.
  induction 1 as [|c cs Hc Hcs [IH1 IH2]]; [done|].
  change (transitions_of (c :: cs)) with (child_transitions c ++ transitions_of cs).
  unfold active_at in *. rewrite sum_over_app. cbn [existsb]. rewrite <- IH2. unfold covers.
  generalize dependent (sum_over (fun x => if tr_time x <=? t then delta x else 0)
    (transitions_of cs)). intros n IH1 IH2.
  unfold child_transitions, sum_over, delta. simpl.
  destruct (Z.leb_spec (fst c) t), (Z.leb_spec (snd c) t), (Z.ltb_spec t (snd c)); try lia;
    simpl; (split; [lia|]); try done; apply Z.ltb_lt; lia.
Qed.

(** Children that are not recorded cover nothing of the segment. *)
Lemma unrecorded_cover_nothing (S P t : Z) (cs : list (Z * Z)) :
  S <= t < P ->
  existsb (covers t) (filter (fun c => recorded S P c = true) cs) = existsb (covers t) cs.
Proof.
  intros Ht. induction cs as [|c cs IH]; [done|]. rewrite filter_cons. case_decide as Hr.
  - simpl. by rewrite IH.
  - simpl. rewrite IH. unfold recorded, valid_child, covers in *.
    destruct (Z.leb_spec (fst c) (snd c)), (Z.ltb_spec (snd c) S), (Z.ltb_spec P (fst c)),
      (Z.leb_spec (fst c) t), (Z.ltb_spec t (snd c)); simpl in *; done || lia.
Qed.

Lemma recorded_facts (S P : Z) (cs : list (Z * Z)) :
  Forall (fun c => in_u64 (fst c) /\ in_u64 (snd c)) cs ->
  Forall (fun c => fst c <= snd c) (filter (fun c => recorded S P c = true) cs)
  /\ Forall (in_window S P) (transitions_of (filter (fun c => recorded S P c = true) cs)).
Proof.
  induction 1 as [|c cs [Hc1 Hc2] Hcs [IH1 IH2]]; [by rewrite filter_nil|].
  rewrite filter_cons. case_decide as Hr; [|done].
  unfold recorded, valid_child in Hr. apply andb_prop in Hr as [Hv Hw]. boolp.
  unfold in_u64 in *. split; [by constructor|].
  change (transitions_of (c :: ?l)) with (child_transitions c ++ transitions_of l).
  apply Forall_app. split; [|done]. unfold child_transitions, in_window.
  repeat constructor; simpl; lia.
Qed.

Lemma key_sorted (ts : list nr_exclusive_time_transition_t) :
  StronglySorted (cmp_le nr_exclusive_time_transition_compare) ts ->
  StronglySorted (fun x y => key x <= key y) ts.
Proof.
  induction 1 as [|x ts Hs IH Hx]; constructor; [done|].
  eapply Forall_impl; [exact Hx|]. intros y. apply compare_key.
Qed.

(** The calculation, once the transitions of the children are recorded. *)
Lemma calculate_counts
    (qsort_r : (nr_exclusive_time_transition_t -> nr_exclusive_time_transition_t -> Z)
               -> list nr_exclusive_time_transition_t -> list nr_exclusive_time_transition_t)
    (S P capacity : Z) (cs : list (Z * Z)) :
  (forall l, sorts nr_exclusive_time_transition_compare l
               (qsort_r nr_exclusive_time_transition_compare l)) ->
  0 <= S <= P -> P < 2 ^ 64 -> Forall (fun c => in_u64 (fst c) /\ in_u64 (snd c)) cs ->
  Z.of_nat (length cs) < 2 ^ 31 ->
  exists et', nr_exclusive_time_calculate qsort_r
    (Some (mk_exclusive_time S P capacity (transitions_of (filter (fun c => recorded S P c = true) cs))))
  = (exclusive_ticks S P cs, Some et').
Proof.
  intros Hsort HSP HP Hcs Hn. set (rs := filter (fun c => recorded S P c = true) cs).
  destruct (recorded_facts S P cs Hcs) as [Hvalid Hwin]. fold rs in Hvalid, Hwin.
  assert (Hbusy : exclusive_ticks S P cs
                  = P - S - count (fun t => 0 <? active_at (transitions_of rs) t) S P).
  { unfold exclusive_ticks. rewrite count_negb by lia. f_equal. apply count_ext.
    intros t Ht. destruct (active_at_transitions rs t Hvalid) as [_ ->].
    symmetry. by apply unrecorded_cover_nothing. }
  assert (Hlen : (length rs <= length cs)%nat) by apply length_filter.
  unfold nr_exclusive_time_calculate, et_used. cbn [et_transitions et_start_time et_stop_time].
  rewrite nr_time_duration_spec by (unfold in_u64; lia).
  destruct (Z.eqb_spec (Z.of_nat (length (transitions_of rs))) 0) as [H0|H0]; eexists; f_equal.
  - simpl. destruct rs as [|r rs']; [|rewrite length_transitions_of in H0; simpl in H0; lia].
    rewrite Hbusy. rewrite (count_ext _ (fun _ => false)) by done. rewrite count_const by lia. lia.
  - destruct (Hsort (transitions_of rs)) as [Hperm Hss]. apply key_sorted in Hss.
    set (ts := qsort_r nr_exclusive_time_transition_compare (transitions_of rs)) in *.
    assert (Hb : busy S P 0 0 ts = count (fun t => 0 <? active_at (transitions_of rs) t) S P).
    { unfold busy, clamp. replace (Z.min (Z.max 0 S) P) with S by lia. apply count_ext.
      intros t _. unfold active_at. by rewrite (sum_over_permutation _ _ _ Hperm). }
    assert (Hw : Forall (in_window S P) ts) by (by rewrite Hperm).
    assert (0 <= exclusive_ticks S P cs) by apply count_nonneg.
    rewrite Z.max_r by lia.
    rewrite (calculate_loop_spec S P HSP HP ts 0); try done;
      [cbn; lia| | | |cbn; lia].
    + intros x Hx. rewrite Forall_forall in Hw. specialize (Hw x Hx). unfold in_window in Hw.
      destruct (tr_type x); lia.
    + apply (sorted_balanced rs); done.
    + rewrite (Permutation_length Hperm), length_transitions_of. lia.
Qed.

(** ** Properties *)

(* @about nr_exclusive_time_create nr_exclusive_time_add_child nr_exclusive_time_calculate nr_exclusive_time_transition_compare calculate_loop *)
(** C30 (equivalence): exclusive time is what it means.  Create the structure for a segment
    [S..P] with room for the children, add any list of children (those that stop before they
    start are refused, the others accepted), and calculate: the sorted sweep returns exactly
    the number of ticks of [S..P] that no accepted child covers, overlaps and children that
    stick out of the segment included, and never goes below zero.  The sort is the C
    library's, assumed to permute and order its input. *)
Theorem nr_exclusive_time_counts_uncovered
    (qsort_r : (nr_exclusive_time_transition_t -> nr_exclusive_time_transition_t -> Z)
               -> list nr_exclusive_time_transition_t -> list nr_exclusive_time_transition_t)
    (n S P : Z) (cs : list (Z * Z)) :
  (forall l, sorts nr_exclusive_time_transition_compare l
               (qsort_r nr_exclusive_time_transition_compare l)) ->
  0 <= S <= P -> P < 2 ^ 64 ->
  Forall (fun c => in_u64 (fst c) /\ in_u64 (snd c)) cs ->
  Z.of_nat (length cs) <= n < 2 ^ 31 ->
  exists et et',
    nr_exclusive_time_create n S P = Some et
    /\ add_children (Some et) cs = (map valid_child cs, Some et')
    /\ fst (nr_exclusive_time_calculate qsort_r (Some et')) = exclusive_ticks S P cs.
Proof.
  intros Hsort HSP HP Hcs Hn. unfold nr_exclusive_time_create.
  destruct (Z.ltb_spec P S); [lia|]. rewrite u64_id by (unfold in_u64; lia).
  eexists _, _. split; [done|]. split; [apply add_children_spec; simpl; lia|]. cbn [app].
  by destruct (calculate_counts qsort_r S P (n * 2) cs Hsort HSP HP Hcs) as [et' ->]; [lia|].
Qed.

Lemma nr_exclusive_time_counts_uncovered_witness :
  exists et et',
    nr_exclusive_time_create 3 10 20 = Some et
    /\ add_children (Some et) [(12, 15); (14, 17); (19, 30)] = ([true; true; true], Some et')
    /\ fst (nr_exclusive_time_calculate merge_sort_r (Some et'))
       = exclusive_ticks 10 20 [(12, 15); (14, 17); (19, 30)].
Proof.
  apply (nr_exclusive_time_counts_uncovered merge_sort_r 3 10 20 [(12, 15); (14, 17); (19, 30)]).
  - intros l. apply merge_sort_r_sorts; [apply compare_total|apply compare_trans].
  - lia.
  - lia.
  - repeat constructor; simpl; lia.
  - simpl. lia.
Defined.

(** Of the ten ticks, 12-16 and 19 are covered. *)
Example exclusive_ticks_example : exclusive_ticks 10 20 [(12, 15); (14, 17); (19, 30)] = 4.
Proof. reflexivity. Qed.
