(* ===== verification/Strings.v ===== *)
(** * Memory and C strings

    [util_strings.c], [util_strings.h] and the copying functions of [util_memory.c] and
    [util_memory.h].

    A [const char*] that is not NULL is the list of the bytes (0 to 255) from the address on; a
    string ends at its first NUL, or at the end of the list, which stands for its terminator.
    A destination buffer is the list of its bytes, and a write past its end is an error: the
    function returns [None].  The C library's [strcmp], [strcasecmp], [tolower] and the like
    are modelled as the C standard (and the "C" locale) define them. *)

From S2P Require Import Prelude.

Abbreviation cstr := (list Z).

(** String literals. *)
Fixpoint str (s : String.string) : cstr :=
  match s with
  | String.EmptyString => []
  | String.String a s => Z.of_N (Ascii.N_of_ascii a) :: str s
  end.

(** Conversion to a 32-bit [int]. *)
Definition s32 (z : Z) : Z := (z + 2 ^ 31) mod 2 ^ 32 - 2 ^ 31.

Lemma s32_id (z : Z) : - 2 ^ 31 <= z < 2 ^ 31 -> s32 z = z.
Proof. intros H. unfold s32. rewrite Z.mod_small; lia. Qed.

(** Character constants, written as strings of one character. *)
Definition chr (s : String.string) : Z :=
  match s with
  | String.EmptyString => 0
  | String.String a _ => Z.of_N (Ascii.N_of_ascii a)
  end.

(** Character constants as numbers. *)
Ltac chars :=
  repeat match goal with
  | |- context [chr ?s] => let v := eval vm_compute in (chr s) in change (chr s) with v
  end.

(** [s[i]] *)
Definition byte_at (s : cstr) (i : Z) : Z := nth (Z.to_nat i) s 0.

(** The bytes before the NUL. *)
Fixpoint c_str (s : cstr) : cstr :=
  match s with
  | [] => []
  | c :: s => if c =? 0 then [] else c :: c_str s
  end.

Definition strlen (s : cstr) : Z := Z.of_nat (length (c_str s)).

(** ** Characters *)

(* @map util_strings.h:253-256 nr_isalnum *)
Definition nr_isalnum (c : Z) : bool :=
  ((48 <=? c) && (c <=? 57)) || ((65 <=? c) && (c <=? 90)) || ((97 <=? c) && (c <=? 122)).

(* @map util_strings.h:273-275 nr_isalpha *)
Definition nr_isalpha (c : Z) : bool := ((65 <=? c) && (c <=? 90)) || ((97 <=? c) && (c <=? 122)).

(* @map util_strings.h:288-290 nr_isblank *)
Definition nr_isblank (c : Z) : bool := (9 =? c) || (32 =? c).

(* @map util_strings.h:306-308 nr_isdigit *)
Definition nr_isdigit (c : Z) : bool := (48 <=? c) && (c <=? 57).

(* @map util_strings.h:324-326 nr_islower *)
Definition nr_islower (c : Z) : bool := (97 <=? c) && (c <=? 122).

(* @map util_strings.h:347-349 nr_isspace *)
Definition nr_isspace (c : Z) : bool := (32 =? c) || ((9 <=? c) && (c <=? 13)).

(* @map util_strings.h:365-367 nr_isupper *)
Definition nr_isupper (c : Z) : bool := (65 <=? c) && (c <=? 90).

(* @map util_strings.h:383-386 nr_isxdigit *)
Definition nr_isxdigit (c : Z) : bool :=
  ((48 <=? c) && (c <=? 57)) || ((65 <=? c) && (c <=? 70)) || ((97 <=? c) && (c <=? 102)).

(* @map util_strings.h:399-404 nr_tolower *)
Definition nr_tolower (c : Z) : Z := if (65 <=? c) && (c <=? 90) then Z.lor c 32 else c.

(* @map util_strings.h:417-422 nr_toupper *)
Definition nr_toupper (c : Z) : Z := if (97 <=? c) && (c <=? 122) then Z.land c 223 else c.

(** ** Lengths and comparisons *)

(* @map util_strings.h:62-64 nr_strlen *)
Definition nr_strlen (s : option cstr) : Z := match s with Some s => s32 (strlen s) | None => 0 end.

(* @map util_strings.h:70-72 nr_strempty *)
Definition nr_strempty (s : option cstr) : bool :=
  match s with None => true | Some s => 0 =? byte_at s 0 end.

(* @map util_strings.c:134-145 nr_strnlen *)
Definition nr_strnlen (s : option cstr) (maxlen : Z) : Z :=
  match s with
  | Some s => if 0 <? maxlen then Z.min (strlen s) maxlen else 0
  | None => 0
  end.

(** The sign is that of the first difference, the terminator counting as zero. *)
Fixpoint lex (a b : cstr) : Z :=
  match a, b with
  | [], [] => 0
  | [], y :: _ => - y
  | x :: _, [] => x
  | x :: a, y :: b => if x =? y then lex a b else x - y
  end.

Definition strcmp (a b : cstr) : Z := lex (c_str a) (c_str b).

Definition strcasecmp (a b : cstr) : Z := lex (map nr_tolower (c_str a)) (map nr_tolower (c_str b)).

Definition strncmp (a b : cstr) (n : Z) : Z :=
  lex (take (Z.to_nat n) (c_str a)) (take (Z.to_nat n) (c_str b)).

Definition strncasecmp (a b : cstr) (n : Z) : Z :=
  lex (map nr_tolower (take (Z.to_nat n) (c_str a))) (map nr_tolower (take (Z.to_nat n) (c_str b))).

(** What a NULL-safe comparison answers when one side is NULL. *)
Definition null_cmp (s1 s2 : option cstr) : Z :=
  match s1, s2 with Some _, _ => 1 | None, Some _ => -1 | None, None => 0 end.

(* @map util_strings.h:109-114 nr_strcmp *)
Definition nr_strcmp (s1 s2 : option cstr) : Z :=
  match s1, s2 with Some a, Some b => strcmp a b | _, _ => null_cmp s1 s2 end.

(* @map util_strings.h:116-121 nr_stricmp *)
Definition nr_stricmp (s1 s2 : option cstr) : Z :=
  match s1, s2 with Some a, Some b => strcasecmp a b | _, _ => null_cmp s1 s2 end.

(* @map util_strings.h:123-130 nr_strncmp *)
Definition nr_strncmp (s1 s2 : option cstr) (n : Z) : Z :=
  match s1, s2 with
  | Some a, Some b => if 0 <? n then strncmp a b n else if 0 =? n then 0 else 1
  | None, None => 0
  | _, _ => if 0 =? n then 0 else null_cmp s1 s2
  end.

(* @map util_strings.h:132-139 nr_strnicmp *)
Definition nr_strnicmp (s1 s2 : option cstr) (n : Z) : Z :=
  match s1, s2 with
  | Some a, Some b => if 0 <? n then strncasecmp a b n else if 0 =? n then 0 else 1
  | None, None => 0
  | _, _ => if 0 =? n then 0 else null_cmp s1 s2
  end.

(* @map util_strings.h:145-147 nr_streq *)
Definition nr_streq (s1 s2 : option cstr) : bool := 0 =? nr_strcmp s1 s2.

(* @map util_strings.h:149-151 nr_strieq *)
Definition nr_strieq (s1 s2 : option cstr) : bool := 0 =? nr_stricmp s1 s2.

(* @map util_memory.h:131-140 nr_memcmp *)
Definition nr_memcmp (s1 s2 : option cstr) (len : Z) : Z :=
  match s1, s2 with
  | Some a, Some b =>
      if 0 <? len
      then lex (map (fun i => byte_at a (Z.of_nat i)) (seq 0 (Z.to_nat len)))
               (map (fun i => byte_at b (Z.of_nat i)) (seq 0 (Z.to_nat len)))
      else 0
  | _, _ => if len <=? 0 then 0 else null_cmp s1 s2
  end.

(** ** Copies *)

(** The copying functions return a fresh string; [nr_malloc] never fails when it returns. *)
(* @map util_memory.c:145-170 nr_strdup *)
Definition nr_strdup (orig : option cstr) : cstr := match orig with None => [] | Some s => c_str s end.

(* @map util_memory.c:172-181 nr_strdup_or *)
Definition nr_strdup_or (string_if_not_null default_string : option cstr) : cstr :=
  match string_if_not_null, default_string with
  | Some s, _ => nr_strdup (Some s)
  | None, Some d => nr_strdup (Some d)
  | None, None => nr_strdup (Some [])
  end.

(* @map util_memory.c:183-215 nr_strndup *)
Definition nr_strndup (orig : option cstr) (len : Z) : cstr :=
  if len =? 0 then nr_strdup (Some [])
  else match orig with
       | None => nr_strdup (Some [])
       | Some s => take (Z.to_nat len) (c_str s)
       end.

(* @map util_strings.c:15-32 nr_string_to_lowercase *)
Definition nr_string_to_lowercase (s : option cstr) : option cstr :=
  match s with None => None | Some _ => Some (map nr_tolower (nr_strdup s)) end.

(** The [n] bytes from the address on. *)
Definition bytes_from (s : cstr) (n : Z) : list Z :=
  map (fun i => byte_at s (Z.of_nat i)) (seq 0 (Z.to_nat n)).

(** Writing bytes into a buffer at an offset; [None] when they do not fit. *)
Definition write_at (buf : list Z) (off : Z) (bytes : list Z) : option (list Z) :=
  if (off <? 0) || (Z.of_nat (length buf) <? off + Z.of_nat (length bytes)) then None
  else Some (take (Z.to_nat off) buf ++ bytes
             ++ drop (Z.to_nat off + length bytes) buf).

(* @map util_memory.h:105-110 nr_memcpy *)
Definition nr_memcpy (dest : list Z) (off : Z) (src : option cstr) (len : Z) : option (list Z) :=
  match src with
  | Some s => if 0 <? len then write_at dest off (bytes_from s len) else Some dest
  | None => Some dest
  end.

(** The result of a copy into a buffer: the buffer, and the returned pointer as the index of
    the byte of the buffer it points to. *)
Definition copied : Type := option (list Z) * option Z.

(* @map util_strings.c:119-132 nr_strxcpy *)
Definition nr_strxcpy (dest : option (list Z)) (src : option cstr) (len : Z) : option copied :=
  match dest with
  | None => Some (None, None)
  | Some d =>
      match src with
      | Some _ =>
          if 0 <? len then
            d ← nr_memcpy d 0 src len; d ← write_at d len [0]; Some (Some d, Some len)
          else d ← write_at d 0 [0]; Some (Some d, Some 0)
      | None => d ← write_at d 0 [0]; Some (Some d, Some 0)
      end
  end.

(* @map util_strings.c:147-160 nr_strcpy *)
Definition nr_strcpy (dest : option (list Z)) (src : option cstr) : option copied :=
  match dest with
  | None => Some (None, None)
  | Some d =>
      match src with
      | Some s =>
          let slen := s32 (strlen s) in
          d ← nr_memcpy d 0 src (slen + 1); Some (Some d, Some slen)
      | None => d ← write_at d 0 [0]; Some (Some d, Some 0)
      end
  end.

(* @map util_strings.c:162-181 nr_strlcpy *)
Definition nr_strlcpy (dest : option (list Z)) (src : option cstr) (len : Z) : option copied :=
  match dest with
  | None => Some (None, None)
  | Some d =>
      if 0 <? len then
        match src with
        | Some s =>
            let slen := s32 (strlen s) in
            let slen := if len <=? slen then len - 1 else slen in
            d ← nr_memcpy d 0 src slen; d ← write_at d slen [0]; Some (Some d, Some slen)
        | None => d ← write_at d 0 [0]; Some (Some d, Some 0)
        end
      else Some (Some d, None)
  end.

(* @map util_strings.c:183-201 nr_strcat *)
Definition nr_strcat (dest : option (list Z)) (src : option cstr) : option copied :=
  match dest with
  | None => Some (None, None)
  | Some d =>
      match src with
      | Some s =>
          let dl := s32 (strlen d) in
          let sl := s32 (strlen s) in
          d ← nr_memcpy d dl src (sl + 1); Some (Some d, Some (dl + sl))
      | None => Some (Some d, Some (s32 (strlen d)))
      end
  end.

(* @map util_strings.c:203-225 nr_strncat *)
Definition nr_strncat (dest : option (list Z)) (src : option cstr) (len : Z) : option copied :=
  match dest with
  | None => Some (None, None)
  | Some d =>
      match src with
      | Some s =>
          if 0 <? len then
            let dl := s32 (strlen d) in
            let sl := s32 (strlen s) in
            let sl := if len <? sl then len else sl in
            d ← nr_memcpy d dl src sl; d ← write_at d (dl + sl) [0]; Some (Some d, Some (dl + sl))
          else Some (Some d, Some (s32 (strlen d)))
      | None => Some (Some d, Some (s32 (strlen d)))
      end
  end.

(** ** Searches *)

(** [tolower(needle[0]) == tolower(s[i]) && 0 == strncasecmp(s + i, needle, needle_len)] *)
Definition case_match (s needle : cstr) (needle_len i : Z) : bool :=
  (nr_tolower (byte_at needle 0) =? nr_tolower (byte_at s i))
  && (strncasecmp (drop (Z.to_nat i) s) needle needle_len =? 0).

(* @map util_strings.c:253-264 nr_strcaseidx *)
Fixpoint strcaseidx_loop (fuel : nat) (s needle : cstr) (needle_len i : Z) : Z :=
  match fuel with
  | O => -1
  | S fuel =>
      if byte_at s i =? 0 then -1
      else if case_match s needle needle_len i then i
      else strcaseidx_loop fuel s needle needle_len (i + 1)
  end.

(* @map util_strings.c:238-264 nr_strcaseidx *)
Definition nr_strcaseidx (s needle : option cstr) : Z :=
  match s, needle with
  | Some s, Some n =>
      let needle_len := nr_strlen needle in
      if 0 =? needle_len then 0
      else strcaseidx_loop (S (length s)) s n needle_len 0
  | _, _ => -1
  end.

(* @map util_strings.c:284-297 nr_strncaseidx *)
Fixpoint strncaseidx_loop (fuel : nat) (s needle : cstr) (needle_len len i : Z) : Z :=
  match fuel with
  | O => -1
  | S fuel =>
      if i <? len - needle_len + 1 then
        if byte_at s i =? 0 then -1
        else if case_match s needle needle_len i then i
        else strncaseidx_loop fuel s needle needle_len len (i + 1)
      else -1
  end.

(* @map util_strings.c:266-298 nr_strncaseidx *)
Definition nr_strncaseidx (s needle : option cstr) (len : Z) : Z :=
  match s, needle with
  | Some s, Some n =>
      if len <=? 0 then -1
      else
        let needle_len := nr_strlen needle in
        if 0 =? needle_len then -1
        else if len <? needle_len then -1
        else strncaseidx_loop (S (length s)) s n needle_len len 0
  | _, _ => -1
  end.

(* @map util_strings.c:326-336 nr_strncaseidx_last_match *)
Fixpoint last_match_loop (fuel : nat) (s needle : cstr) (needle_len i : Z) : Z :=
  match fuel with
  | O => -1
  | S fuel =>
      if i <? 0 then -1
      else if case_match s needle needle_len i then i
      else last_match_loop fuel s needle needle_len (i - 1)
  end.

(** The first loop shortens [len] to the position of a NUL before it. *)
(* @map util_strings.c:300-337 nr_strncaseidx_last_match *)
Definition nr_strncaseidx_last_match (s needle : option cstr) (len : Z) : Z :=
  match s, needle with
  | Some s, Some n =>
      if len <=? 0 then -1
      else
        let len := Z.min len (strlen s) in
        let needle_len := nr_strlen needle in
        if 0 =? needle_len then -1
        else if len <? needle_len then -1
        else last_match_loop (S (length s)) s n needle_len (len - needle_len)
  | _, _ => -1
  end.

(** [wp] runs while [s1[wp]] is one of the [s2len] bytes of [s2]. *)
(* @map util_strings.c:362-372 nr_strnspn *)
Fixpoint strnspn_loop (fuel : nat) (s1 : cstr) (s1len : Z) (set : list Z) (wp : Z) : Z :=
  match fuel with
  | O => wp
  | S fuel =>
      if wp =? s1len then wp
      else if existsb (Z.eqb (byte_at s1 wp)) set then strnspn_loop fuel s1 s1len set (wp + 1)
      else wp
  end.

(* @map util_strings.c:346-373 nr_strnspn *)
Definition nr_strnspn (s1 : option cstr) (s1len : Z) (s2 : option cstr) (s2len : Z) : Z :=
  match s1, s2 with
  | Some a, Some b =>
      if (s1len <=? 0) || (s2len <=? 0) then 0
      else strnspn_loop (S (Z.to_nat s1len)) a s1len (bytes_from b s2len) 0
  | _, _ => 0
  end.

(* @map util_strings.c:391-400 nr_strncspn *)
Fixpoint strncspn_loop (fuel : nat) (s1 : cstr) (s1len : Z) (set : list Z) (wp : Z) : Z :=
  match fuel with
  | O => wp
  | S fuel =>
      if existsb (Z.eqb (byte_at s1 wp)) set || (wp =? s1len) then wp
      else strncspn_loop fuel s1 s1len set (wp + 1)
  end.

(* @map util_strings.c:375-402 nr_strncspn *)
Definition nr_strncspn (s1 : option cstr) (s1len : Z) (s2 : option cstr) (s2len : Z) : Z :=
  match s1, s2 with
  | Some a, Some b =>
      if (s1len <=? 0) || (s2len <=? 0) then 0
      else strncspn_loop (S (Z.to_nat s1len)) a s1len (bytes_from b s2len) 0
  | _, _ => 0
  end.

(** The C library's [strchr], [strstr], [strspn] and [strcspn] on strings that are not NULL: the
    rest of the string from the match on; a needle or set without NUL. *)

(* @map util_strings.h:157-159 nr_strchr *)
Fixpoint nr_strchr (str : cstr) (c : Z) : option cstr :=
  match str with
  | [] => if c =? 0 then Some [] else None
  | x :: s => if x =? c then Some str else if x =? 0 then None else nr_strchr s c
  end.

(* @map util_strings.h:171-173 nr_strstr *)
Fixpoint nr_strstr (str needle : cstr) : option cstr :=
  if bool_decide (take (length needle) str = needle) then Some str
  else match str with
       | [] => None
       | x :: s => if x =? 0 then None else nr_strstr s needle
       end.

(** How many bytes from the start are in a set, or are not. *)
Fixpoint span_of (f : Z -> bool) (s : cstr) : Z :=
  match s with
  | [] => 0
  | c :: s => if f c then 1 + span_of f s else 0
  end.

(* @map util_strings.h:215-217 nr_strspn *)
Definition nr_strspn (s1 s2 : cstr) : Z := s32 (span_of (fun c => existsb (Z.eqb c) s2) (c_str s1)).

(* @map util_strings.h:219-221 nr_strcspn *)
Definition nr_strcspn (s1 s2 : cstr) : Z := s32 (span_of (fun c => negb (existsb (Z.eqb c) s2)) (c_str s1)).

(* @map util_strings.c:404-419 nr_str_char_count *)
Definition nr_str_char_count (s : option cstr) (c : Z) : Z :=
  match s with
  | None => 0
  | Some s => Z.of_nat (length (filter (fun x => x = c) (c_str s)))
  end.

(** ** Lemmas on strings *)

Lemma span_of_bounds (f : Z -> bool) (s : cstr) : 0 <= span_of f s <= Z.of_nat (length s).
Proof. induction s as [|c s IH]; simpl; [lia|]. destruct (f c); lia. Qed.

Lemma span_of_take (f : Z -> bool) (s : cstr) : Forall (fun c => f c = true) (take (Z.to_nat (span_of f s)) s).
Proof.
  induction s as [|c s IH]; simpl; [constructor|]. destruct (f c) eqn:E; [|constructor].
  pose proof (span_of_bounds f s). replace (Z.to_nat (1 + span_of f s)) with (S (Z.to_nat (span_of f s))) by lia.
  by constructor.
Qed.

Lemma span_of_head (f : Z -> bool) (s : cstr) :
  f (byte_at (drop (Z.to_nat (span_of f s)) s) 0) = true -> span_of f s = Z.of_nat (length s).
Proof.
  induction s as [|c s IH]; [done|]. simpl. pose proof (span_of_bounds f s). destruct (f c) eqn:E.
  - replace (Z.to_nat (1 + span_of f s)) with (S (Z.to_nat (span_of f s))) by lia. cbn [drop]. intros Hf.
    rewrite IH by done. lia.
  - unfold byte_at. simpl. by rewrite E.
Qed.

Lemma span_of_zero (f : Z -> bool) (s : cstr) : span_of f s = 0 -> s = [] \/ f (byte_at s 0) = false.
Proof.
  destruct s as [|c s]; [by left|]. right. cbn in *. pose proof (span_of_bounds f s). unfold byte_at. simpl.
  destruct (f c); [lia|done].
Qed.

Lemma c_str_prefix (s : cstr) : exists rest, s = c_str s ++ rest /\ (rest = [] \/ head rest = Some 0).
Proof.
  induction s as [|c s (rest & IH & Hr)]; simpl; [exists []; by split; [|left]|].
  destruct (Z.eqb_spec c 0) as [->|]; [exists (0 :: s); by split; [|right]|].
  exists rest. split; [by rewrite IH at 1|done].
Qed.

Lemma c_str_nonzero (s : cstr) : Forall (fun c => c <> 0) (c_str s).
Proof. induction s as [|c s IH]; simpl; [done|]. destruct (Z.eqb_spec c 0); [done|]. by constructor. Qed.

(** A string of nonzero bytes is its own content. *)
Lemma c_str_id (s : cstr) : Forall (fun c => c <> 0) s -> c_str s = s.
Proof.
  induction 1 as [|c s Hc Hs IH]; simpl; [done|]. destruct (Z.eqb_spec c 0); [done|]. by rewrite IH.
Qed.

Lemma c_str_idemp (s : cstr) : c_str (c_str s) = c_str s.
Proof. apply c_str_id, c_str_nonzero. Qed.

Lemma c_str_terminated (a b : cstr) : Forall (fun c => c <> 0) a -> c_str (a ++ 0 :: b) = a.
Proof.
  induction 1 as [|c a Hc Ha IH]; simpl; [done|]. destruct (Z.eqb_spec c 0); [done|]. by rewrite IH.
Qed.

Lemma strlen_le (s : cstr) : 0 <= strlen s <= Z.of_nat (length s).
Proof.
  unfold strlen. destruct (c_str_prefix s) as (rest & E & _).
  assert (length s = length (c_str s) + length rest)%nat by (rewrite E at 1; apply length_app). lia.
Qed.

Lemma byte_at_lookup (s : cstr) (i : Z) : byte_at s i = default 0 (s !! Z.to_nat i).
Proof. unfold byte_at. by rewrite nth_lookup. Qed.

Lemma byte_at_c_str (s : cstr) (i : Z) : 0 <= i < strlen s -> byte_at s i = byte_at (c_str s) i.
Proof.
  unfold strlen. intros Hi. destruct (c_str_prefix s) as (rest & E & _). rewrite E at 1.
  unfold byte_at. apply app_nth1. lia.
Qed.

(** A NUL is read at and only at the length, up to it. *)
Lemma byte_at_zero (s : cstr) (i : Z) : 0 <= i <= strlen s -> byte_at s i = 0 <-> i = strlen s.
Proof.
  intros Hi. destruct (c_str_prefix s) as (rest & E & Hr). unfold strlen in *.
  split.
  - intros H0. destruct (decide (i = Z.of_nat (length (c_str s)))); [done|].
    rewrite byte_at_c_str in H0 by (unfold strlen; lia).
    pose proof (c_str_nonzero s) as Hn. rewrite Forall_forall in Hn. exfalso.
    apply (Hn 0); [|done]. rewrite <- H0. unfold byte_at. apply list_elem_of_In, nth_In. lia.
  - intros ->. rewrite E at 1. unfold byte_at. rewrite app_nth2 by lia.
    replace (_ - _)%nat with 0%nat by lia. destruct rest as [|c rest]; [done|].
    destruct Hr as [?|[= ->]]; done.
Qed.

Lemma lex_zero (a b : cstr) :
  Forall (fun c => c <> 0) a -> Forall (fun c => c <> 0) b -> lex a b = 0 <-> a = b.
Proof.
  intros Ha. revert b. induction Ha as [|x a Hx Ha IH]; intros b Hb; destruct Hb as [|y b Hy Hb];
    simpl; [done|split; [lia|done]|split; [lia|done]|].
  destruct (Z.eqb_spec x y) as [->|].
  - rewrite IH by done. split; [by intros ->|by intros [= ->]].
  - split; [lia|by intros [= -> ->]].
Qed.

(** [nr_streq] is equality of the contents. *)
Lemma nr_streq_spec (a b : cstr) : nr_streq (Some a) (Some b) = true <-> c_str a = c_str b.
Proof.
  unfold nr_streq, nr_strcmp, strcmp. rewrite Z.eqb_eq.
  rewrite <- lex_zero by apply c_str_nonzero. split; congruence.
Qed.

Lemma nr_tolower_nonzero (c : Z) : c <> 0 -> nr_tolower c <> 0.
Proof.
  intros Hc. unfold nr_tolower. case_if; [|done]. intros H0. apply Z.lor_eq_0_iff in H0. lia.
Qed.

Lemma lower_nonzero (s : cstr) :
  Forall (fun c => c <> 0) s -> Forall (fun c => c <> 0) (map nr_tolower s).
Proof. intros H. apply Forall_map. eapply Forall_impl; [exact H|]. apply nr_tolower_nonzero. Qed.

Lemma bytes_from_take (s : cstr) (n : Z) :
  0 <= n <= strlen s -> bytes_from s n = take (Z.to_nat n) (c_str s).
Proof.
  intros Hn. unfold bytes_from, strlen in *. apply list_eq. intros i.
  destruct (decide (i < Z.to_nat n)%nat).
  - rewrite list_lookup_fmap, lookup_seq_lt, lookup_take_lt by lia. simpl.
    rewrite byte_at_c_str by (unfold strlen; lia). rewrite byte_at_lookup, Nat2Z.id.
    destruct (lookup_lt_is_Some_2 (c_str s) i) as [c Hc]; [lia|by rewrite Hc].
  - rewrite lookup_ge_None_2 by (rewrite length_map, length_seq; lia).
    by rewrite lookup_take_ge by lia.
Qed.

Lemma length_bytes_from (s : cstr) (n : Z) : length (bytes_from s n) = Z.to_nat n.
Proof. unfold bytes_from. by rewrite length_map, length_seq. Qed.

Lemma write_at_spec (buf : list Z) (off : Z) (bytes : list Z) :
  0 <= off -> off + Z.of_nat (length bytes) <= Z.of_nat (length buf) ->
  exists buf', write_at buf off bytes = Some buf' /\ length buf' = length buf
    /\ buf' = take (Z.to_nat off) buf ++ bytes ++ drop (Z.to_nat off + length bytes) buf.
Proof.
  intros Hoff Hlen. unfold write_at. destruct (Z.ltb_spec off 0); [lia|].
  destruct (Z.ltb_spec (Z.of_nat (length buf)) (off + Z.of_nat (length bytes))); [lia|].
  eexists. split; [done|]. split; [|done]. rewrite !length_app, length_take, length_drop. lia.
Qed.

(** Copying [n] bytes of a string to the front of a buffer and terminating them. *)
Lemma copy_and_terminate (d : list Z) (s : cstr) (n : Z) :
  0 <= n <= strlen s -> n < Z.of_nat (length d) ->
  exists d', (d ← nr_memcpy d 0 (Some s) n; write_at d n [0]) = Some d'
    /\ d' = take (Z.to_nat n) (c_str s) ++ 0 :: drop (Z.to_nat n + 1) d.
Proof.
  intros Hn Hd. unfold strlen in Hn.
  assert (Hcopy : exists d1, nr_memcpy d 0 (Some s) n = Some d1
            /\ d1 = take (Z.to_nat n) (c_str s) ++ drop (Z.to_nat n) d).
  { unfold nr_memcpy. destruct (Z.ltb_spec 0 n).
    - destruct (write_at_spec d 0 (bytes_from s n)) as (d1 & -> & _ & ->);
        [lia|rewrite length_bytes_from; lia|].
      eexists. split; [done|]. by rewrite length_bytes_from, bytes_from_take by (unfold strlen; lia).
    - exists d. replace n with 0 by lia. by rewrite drop_0. }
  destruct Hcopy as (d1 & -> & ->). simpl.
  assert (Hlt : length (take (Z.to_nat n) (c_str s)) = Z.to_nat n) by (rewrite length_take; lia).
  destruct (write_at_spec (take (Z.to_nat n) (c_str s) ++ drop (Z.to_nat n) d) n [0])
    as (d2 & -> & _ & ->); [lia|rewrite length_app, Hlt, length_drop; simpl; lia|].
  eexists. split; [done|].
  - rewrite take_app_le, take_ge by (rewrite ?Hlt; lia). f_equal. simpl. f_equal.
    rewrite drop_app_ge by (rewrite Hlt; lia). rewrite Hlt, drop_drop. f_equal. lia.
Qed.

(** ** Properties *)

(* @about nr_strlcpy nr_memcpy nr_strlen *)
(** C40 (bounds): [nr_strlcpy] into a buffer of at least [len] bytes never writes past [len]
    and always succeeds: it stores the longest prefix of the source that fits with its NUL
    (cutting the source to [len - 1] bytes), returns the position of that NUL, and leaves the
    rest of the buffer alone. *)
Theorem nr_strlcpy_truncates (d : list Z) (s : cstr) (len : Z) :
  0 < len <= Z.of_nat (length d) -> strlen s < 2 ^ 31 ->
  exists d' n,
    nr_strlcpy (Some d) (Some s) len = Some (Some d', Some n)
    /\ n = Z.min (strlen s) (len - 1)
    /\ c_str d' = take (Z.to_nat n) (c_str s) /\ byte_at d' n = 0
    /\ length d' = length d /\ drop (Z.to_nat len) d' = drop (Z.to_nat len) d.
Proof.
  intros Hlen Hs. pose proof (strlen_le s) as Hsl.
  unfold nr_strlcpy. destruct (Z.ltb_spec 0 len); [|lia]. rewrite s32_id by lia.
  set (n := if len <=? strlen s then len - 1 else strlen s).
  assert (Hn : n = Z.min (strlen s) (len - 1)) by (unfold n; case_if; boolp; lia).
  destruct (copy_and_terminate d s n) as (d' & Hd' & E); [lia|lia|].
  exists d', n. destruct (nr_memcpy d 0 (Some s) n) as [d1|]; [|done]. simpl in *. rewrite Hd'.
  assert (Hlt : length (take (Z.to_nat n) (c_str s)) = Z.to_nat n)
    by (unfold strlen in *; rewrite length_take; lia).
  subst d'. split_and!; [done|done| | | |].
  - apply c_str_terminated. apply Forall_take, c_str_nonzero.
  - unfold byte_at. rewrite app_nth2 by lia. by rewrite Hlt, Nat.sub_diag.
  - rewrite length_app. simpl. rewrite length_drop. lia.
  - rewrite drop_app_ge by lia. rewrite Hlt.
    replace (Z.to_nat len - Z.to_nat n)%nat with (S (Z.to_nat len - Z.to_nat n - 1)) by lia. simpl.
    rewrite drop_drop. f_equal. lia.
Qed.

Lemma nr_strlcpy_truncates_witness :
  exists d' n,
    nr_strlcpy (Some [9; 9; 9; 9; 9]) (Some (str "select")) 4 = Some (Some d', Some n)
    /\ n = Z.min (strlen (str "select")) (4 - 1)
    /\ c_str d' = take (Z.to_nat n) (c_str (str "select")) /\ byte_at d' n = 0
    /\ length d' = 5%nat /\ drop 4 d' = [9].
Proof.
  apply (nr_strlcpy_truncates [9; 9; 9; 9; 9] (str "select") 4); [simpl; lia|].
  vm_compute. reflexivity.
Defined.

(** The needle's bytes are at position [i] of the haystack, up to case. *)
Definition matches_at (s needle : cstr) (i : Z) : Prop :=
  map nr_tolower (take (length (c_str needle)) (drop (Z.to_nat i) (c_str s)))
  = map nr_tolower (c_str needle).

Lemma c_str_drop (s : cstr) (i : Z) :
  0 <= i <= strlen s -> c_str (drop (Z.to_nat i) s) = drop (Z.to_nat i) (c_str s).
Proof.
  unfold strlen. intros Hi. destruct (c_str_prefix s) as (rest & E & Hr). rewrite E at 1.
  rewrite drop_app_le by lia.
  assert (Hn : Forall (fun c => c <> 0) (drop (Z.to_nat i) (c_str s))) by apply Forall_drop, c_str_nonzero.
  destruct rest as [|c rest]; [rewrite app_nil_r; by apply c_str_id|].
  destruct Hr as [?|[= ->]]; [done|]. by apply c_str_terminated.
Qed.

Lemma case_match_spec (s needle : cstr) (i : Z) :
  0 <= i <= strlen s -> c_str needle <> [] ->
  case_match s needle (strlen needle) i = true <-> matches_at s needle i.
Proof.
  intros Hi Hne. unfold case_match, matches_at, strncasecmp. rewrite c_str_drop by done.
  unfold strlen at 1 2. rewrite Nat2Z.id, (take_ge (c_str needle)) by lia.
  rewrite andb_true_iff, !Z.eqb_eq, lex_zero.
  2:{ apply lower_nonzero, Forall_take, Forall_drop, c_str_nonzero. }
  2:{ apply lower_nonzero, c_str_nonzero. }
  split; [by intros [_ ?]|]. intros H. split; [|done].
  assert (Hb : forall t, byte_at t 0 = byte_at (c_str t) 0).
  { intros [|c t]; [done|]. unfold byte_at. simpl. by destruct (Z.eqb_spec c 0). }
  rewrite (Hb needle).
  destruct (c_str needle) as [|c rest] eqn:En; [done|]. simpl in H.
  destruct (drop (Z.to_nat i) (c_str s)) as [|c' rest'] eqn:Ed; [done|]. simpl in H.
  injection H as H _. unfold byte_at at 1. simpl. rewrite <- H. f_equal.
  assert (Hlt : i < strlen s).
  { destruct (decide (i < strlen s)); [done|]. rewrite drop_ge in Ed by (unfold strlen in *; lia). done. }
  rewrite byte_at_c_str by lia. rewrite byte_at_lookup.
  rewrite <- (Nat.add_0_r (Z.to_nat i)), <- lookup_drop, Ed. done.
Qed.

Lemma strncaseidx_loop_spec (fuel : nat) (s needle : cstr) (len i : Z) :
  c_str needle <> [] -> 0 <= i <= strlen s -> strlen s - i < Z.of_nat fuel ->
  let r := strncaseidx_loop fuel s needle (strlen needle) len i in
  if r =? -1 then
    forall j, i <= j -> j + strlen needle <= Z.min len (strlen s) -> ~ matches_at s needle j
  else i <= r /\ r + strlen needle <= len /\ r < strlen s /\ matches_at s needle r
       /\ forall j, i <= j < r -> ~ matches_at s needle j.
Proof.
  intros Hne. assert (Hpos : 0 < strlen needle)
    by (unfold strlen; destruct (c_str needle); [done|simpl; lia]).
  revert i. induction fuel as [|fuel IH]; intros i Hi Hf; [lia|]. cbn [strncaseidx_loop]. cbv zeta.
  destruct (Z.ltb_spec i (len - strlen needle + 1)); [|simpl; lia].
  destruct (Z.eqb_spec (byte_at s i) 0) as [H0|H0].
  { apply byte_at_zero in H0; [|done]. simpl. lia. }
  assert (Hi' : i < strlen s) by (rewrite byte_at_zero in H0 by done; lia).
  destruct (case_match s needle (strlen needle) i) eqn:Em.
  - rewrite case_match_spec in Em by (done || lia). destruct (Z.eqb_spec i (-1)); [lia|].
    split_and!; [lia|lia|lia|done|lia].
  - assert (Hno : ~ matches_at s needle i).
    { rewrite <- case_match_spec by (done || lia). by rewrite Em. }
    specialize (IH (i + 1) ltac:(lia) ltac:(lia)). cbv zeta in IH.
    destruct (Z.eqb_spec (strncaseidx_loop fuel s needle (strlen needle) len (i + 1)) (-1)).
    + intros j Hj Hl. destruct (decide (j = i)) as [->|]; [done|apply IH; lia].
    + destruct IH as (? & ? & ? & ? & Hfirst). split_and!; [lia|done|done|done|].
      intros j Hj. destruct (decide (j = i)) as [->|]; [done|apply Hfirst; lia].
Qed.

Lemma last_match_loop_spec (fuel : nat) (s needle : cstr) (i : Z) :
  c_str needle <> [] -> -1 <= i <= strlen s -> i < Z.of_nat fuel ->
  let r := last_match_loop fuel s needle (strlen needle) i in
  if r =? -1 then forall j, 0 <= j <= i -> ~ matches_at s needle j
  else 0 <= r <= i /\ matches_at s needle r /\ forall j, r < j <= i -> ~ matches_at s needle j.
Proof.
  intros Hne. revert i. induction fuel as [|fuel IH]; intros i Hi Hf; cbn [last_match_loop]; cbv zeta.
  { simpl. lia. }
  destruct (Z.ltb_spec i 0); [simpl; lia|].
  destruct (case_match s needle (strlen needle) i) eqn:Em.
  - rewrite case_match_spec in Em by (done || lia). destruct (Z.eqb_spec i (-1)); [lia|].
    split_and!; [lia|lia|done|lia].
  - assert (Hno : ~ matches_at s needle i).
    { rewrite <- case_match_spec by (done || lia). by rewrite Em. }
    specialize (IH (i - 1) ltac:(lia) ltac:(lia)). cbv zeta in IH.
    destruct (Z.eqb_spec (last_match_loop fuel s needle (strlen needle) (i - 1)) (-1)).
    + intros j Hj. destruct (decide (j = i)) as [->|]; [done|apply IH; lia].
    + destruct IH as (? & ? & Hlast). split_and!; [lia|lia|done|].
      intros j Hj. destruct (decide (j = i)) as [->|]; [done|apply Hlast; lia].
Qed.

(** Searching a string of limited length without regard to case, for a needle
    that is not empty.  [nr_strncaseidx] returns the first position whose match lies within
    the first [len] bytes and before the NUL, [nr_strncaseidx_last_match] the last one, and
    each returns [-1] exactly when there is none. *)
Theorem nr_strncaseidx_finds (s needle : cstr) (len : Z) :
  c_str needle <> [] -> 0 < len -> strlen s < 2 ^ 31 -> strlen needle < 2 ^ 31 ->
  let within j := 0 <= j /\ j + strlen needle <= Z.min len (strlen s) in
  let first := nr_strncaseidx (Some s) (Some needle) len in
  let last := nr_strncaseidx_last_match (Some s) (Some needle) len in
  (if first =? -1 then forall j, within j -> ~ matches_at s needle j
   else within first /\ matches_at s needle first
        /\ forall j, within j -> j < first -> ~ matches_at s needle j)
  /\ (if last =? -1 then forall j, within j -> ~ matches_at s needle j
      else within last /\ matches_at s needle last
           /\ forall j, within j -> last < j -> ~ matches_at s needle j).
Proof.
  intros Hne Hlen Hs Hn. cbv zeta. pose proof (strlen_le s) as Hsl.
  assert (Hpos : 0 < strlen needle) by (unfold strlen; destruct (c_str needle); [done|simpl; lia]).
  unfold nr_strncaseidx, nr_strncaseidx_last_match, nr_strlen. rewrite !s32_id by lia.
  destruct (Z.leb_spec len 0); [lia|]. destruct (Z.eqb_spec 0 (strlen needle)); [lia|]. split.
  - destruct (Z.ltb_spec len (strlen needle)); [simpl; lia|].
    pose proof (strncaseidx_loop_spec (S (length s)) s needle len 0 Hne ltac:(lia) ltac:(lia)) as H2.
    cbv zeta in H2. case_if; [intros j [? ?]; auto|].
    destruct H2 as (? & ? & ? & Hm & Hfirst). split_and!; [lia| |done|intros j [? ?] ?; apply Hfirst; lia].
    apply (f_equal length) in Hm. rewrite !length_map, length_take, length_drop in Hm.
    unfold strlen in *. lia.
  - destruct (Z.ltb_spec (Z.min len (strlen s)) (strlen needle)); [simpl; lia|].
    pose proof (last_match_loop_spec (S (length s)) s needle (Z.min len (strlen s) - strlen needle)
      Hne ltac:(lia) ltac:(lia)) as H2.
    cbv zeta in H2. case_if; [intros j [? ?]; apply H2; lia|].
    destruct H2 as (? & Hm & Hlast). split_and!; [lia|lia|done|intros j [? ?] ?; apply Hlast; lia].
Qed.

Lemma nr_strncaseidx_finds_witness :
  nr_strncaseidx (Some (str "SELECT * FROM a, From b")) (Some (str "from")) 20 = 9
  /\ matches_at (str "SELECT * FROM a, From b") (str "from") 9.
Proof.
  pose proof (nr_strncaseidx_finds (str "SELECT * FROM a, From b") (str "from") 20) as H.
  specialize (H ltac:(done) ltac:(lia) ltac:(reflexivity) ltac:(reflexivity)).
  split; [reflexivity|]. exact (proj1 (proj2 (proj1 H))).
Defined.
