(* ===== verification/Hash.v ===== *)
(** * The string hash

    [nr_mkhash] (MurmurHash3) and [nr_hash_md5_low32] of [util_hash.c].  Words are loaded
    little-endian, as on the platforms the SDK supports; all arithmetic is on 32-bit words. *)

From S2P Require Import Prelude Strings.

(** Rotation of a 32-bit word. *)
Definition rotl32 (x r : Z) : Z := Z.lor (u32 (Z.shiftl x r)) (Z.shiftr x (32 - r)).

Definition c1 : Z := 0xcc9e2d51.
Definition c2 : Z := 0x1b873593.
Definition hash_seed : Z := 0x290848ab.

(** [blocks[i]] *)
Definition block (s : cstr) (i : Z) : Z :=
  Z.lor (byte_at s (4 * i))
    (Z.lor (Z.shiftl (byte_at s (4 * i + 1)) 8)
       (Z.lor (Z.shiftl (byte_at s (4 * i + 2)) 16) (Z.shiftl (byte_at s (4 * i + 3)) 24))).

(** The mixing common to the blocks and the tail. *)
(* @map util_hash.c:174-176 nr_mkhash *)
Definition mix_k (k : Z) : Z :=
  let k := u32 (k * c1) in
  let k := rotl32 k 15 in
  u32 (k * c2).

(* @map util_hash.c:171-181 nr_mkhash *)
Fixpoint mkhash_blocks (num_blocks : nat) (s : cstr) (i hash : Z) : Z :=
  match num_blocks with
  | O => hash
  | S n =>
      let k := mix_k (block s i) in
      let hash := Z.lxor hash k in
      let hash := rotl32 hash 13 in
      let hash := u32 (hash * 5 + 0xe6546b64) in
      mkhash_blocks n s (i + 1) hash
  end.

(** The one, two or three bytes after the last block. *)
(* @map util_hash.c:188-203 nr_mkhash *)
Definition mkhash_tail (s : cstr) (num_blocks str_len hash : Z) : Z :=
  let tail i := byte_at s (num_blocks * 4 + i) in
  let rest := Z.land str_len 3 in
  if rest =? 0 then hash
  else
    let k1 := 0 in
    let k1 := if rest =? 3 then Z.lxor k1 (Z.shiftl (tail 2) 16) else k1 in
    let k1 := if 2 <=? rest then Z.lxor k1 (Z.shiftl (tail 1) 8) else k1 in
    let k1 := Z.lxor k1 (tail 0) in
    Z.lxor hash (mix_k k1).

(* @map util_hash.c:208-215 nr_mkhash *)
Definition mkhash_final (hash str_len : Z) : Z :=
  let hash := Z.lxor hash (u32 str_len) in
  let hash := Z.lxor hash (Z.shiftr hash 16) in
  let hash := u32 (hash * 0x85ebca6b) in
  let hash := Z.lxor hash (Z.shiftr hash 13) in
  let hash := u32 (hash * 0xc2b2ae35) in
  Z.lxor hash (Z.shiftr hash 16).

(** The second component is what [*len] holds at the end, when [len] is not NULL. *)
(* @map util_hash.c:108-216 nr_mkhash *)
Definition nr_mkhash (s : option cstr) (len : option Z) : Z * option Z :=
  match s with
  | None => (0, match len with Some _ => Some 0 | None => None end)
  | Some b =>
      if byte_at b 0 =? 0 then (0, match len with Some _ => Some 0 | None => None end)
      else
        let '(str_len, len) :=
          match len with
          | None => (nr_strlen s, None)
          | Some l => if l =? 0 then (nr_strlen s, Some (nr_strlen s)) else (l, Some l)
          end in
        let num_blocks := Z.quot str_len 4 in
        let hash := mkhash_blocks (Z.to_nat num_blocks) b 0 hash_seed in
        let hash := mkhash_tail b num_blocks str_len hash in
        (mkhash_final hash str_len, len)
  end.

(* @map util_hash.c:95-106 nr_hash_md5_low32 *)
Definition nr_hash_md5_low32 (md5 : option cstr) : Z :=
  match md5 with
  | None => 0
  | Some b =>
      Z.lor (Z.lor (Z.lor (Z.shiftl (byte_at b 12) 24) (Z.shiftl (byte_at b 13) 16))
               (Z.shiftl (byte_at b 14) 8)) (byte_at b 15)
  end.

(** ** Lemmas *)

Lemma lxor_u32 (a b : Z) : in_u32 a -> in_u32 b -> in_u32 (Z.lxor a b).
Proof.
  unfold in_u32. intros Ha Hb. split; [apply Z.lxor_nonneg; lia|].
  destruct (decide (Z.lxor a b = 0)) as [->|H0]; [done|].
  assert (0 <= Z.lxor a b) by (apply Z.lxor_nonneg; lia).
  apply Z.log2_lt_pow2; [lia|]. eapply Z.le_lt_trans; [apply Z.log2_lxor; lia|].
  assert (Hl : forall x, 0 <= x < 2 ^ 32 -> Z.log2 x < 32).
  { intros x Hx. destruct (decide (x = 0)) as [->|]; [done|]. apply Z.log2_lt_pow2; lia. }
  pose proof (Hl a Ha). pose proof (Hl b Hb). lia.
Qed.

Lemma shiftr_u32 (a n : Z) : in_u32 a -> 0 <= n -> in_u32 (Z.shiftr a n).
Proof.
  unfold in_u32. intros Ha Hn. rewrite Z.shiftr_div_pow2 by lia.
  assert (0 < 2 ^ n) by (apply Z.pow_pos_nonneg; lia).
  split; [apply Z.div_pos; lia|]. apply Z.div_lt_upper_bound; nia.
Qed.

Lemma mkhash_final_range (hash str_len : Z) : in_u32 hash -> in_u32 (mkhash_final hash str_len).
Proof.
  intros H. unfold mkhash_final. apply lxor_u32; [|apply shiftr_u32; [|lia]]; apply u32_range.
Qed.

Lemma mix_k_range (k : Z) : in_u32 (mix_k k).
Proof. apply u32_range. Qed.

Lemma mkhash_blocks_range (n : nat) (s : cstr) (i hash : Z) :
  in_u32 hash -> in_u32 (mkhash_blocks n s i hash).
Proof.
  revert i hash. induction n as [|n IH]; intros i hash H; [done|]. apply IH, u32_range.
Qed.

Lemma nr_mkhash_range (s : option cstr) (len : option Z) : in_u32 (fst (nr_mkhash s len)).
Proof.
  unfold nr_mkhash. destruct s as [b|]; [|done]. case_if; [done|].
  destruct (match len with None => _ | Some l => _ end) as [str_len l']. simpl.
  apply mkhash_final_range. unfold mkhash_tail. case_if.
  - by apply mkhash_blocks_range.
  - apply lxor_u32; [by apply mkhash_blocks_range|apply mix_k_range].
Qed.

(** The hash of a string of which the length is given depends on these bytes only. *)
Lemma mkhash_blocks_ext (n : nat) (a b : cstr) (i hash : Z) :
  0 <= i -> (forall j, 0 <= j < 4 * (i + Z.of_nat n) -> byte_at a j = byte_at b j) ->
  mkhash_blocks n a i hash = mkhash_blocks n b i hash.
Proof.
  revert i hash. induction n as [|n IH]; intros i hash Hi H; [done|]. cbn [mkhash_blocks].
  assert (block a i = block b i) as -> by (unfold block; rewrite !H by lia; done).
  apply IH; [lia|]. intros j Hj. apply H. lia.
Qed.

Lemma nr_mkhash_ext (a b : cstr) (len : Z) :
  0 < len -> (forall j, 0 <= j < len -> byte_at a j = byte_at b j) ->
  nr_mkhash (Some a) (Some len) = nr_mkhash (Some b) (Some len).
Proof.
  intros Hlen H. unfold nr_mkhash. rewrite (H 0) by lia. case_if; [done|].
  destruct (Z.eqb_spec len 0); [lia|].
  assert (Hq : Z.quot len 4 = len / 4) by (apply Z.quot_div_nonneg; lia). rewrite Hq.
  rewrite (mkhash_blocks_ext _ a b) by (intros; try apply H; dlia).
  f_equal. f_equal. unfold mkhash_tail.
  assert (Hr : Z.land len 3 = len mod 4) by (apply (Z.land_ones len 2); lia). rewrite Hr.
  destruct (Z.eqb_spec (len mod 4) 0), (Z.eqb_spec (len mod 4) 3), (Z.leb_spec 2 (len mod 4));
    try done; rewrite ?H by dlia; try done; dlia.
Qed.

(** Values of the unit tests. *)
Example mkhash_null : nr_mkhash None None = (0, None).
Proof. reflexivity. Qed.

Example mkhash_length : snd (nr_mkhash (Some (str "abcdef")) (Some 0)) = Some 6.
Proof. reflexivity. Qed.

Example mkhash_abc : nr_mkhash (Some (str "abc")) None = (fst (nr_mkhash (Some (str "abc")) (Some 3)), None).
Proof. reflexivity. Qed.
