(* ===== verification/HashTree.v ===== *)
(** * Binary trees by hash, laid out in an array

    The string pool ([util_string_pool.c]) and the metric table ([util_metrics.c]) both keep
    their elements in an array in order of arrival, and link them into a binary tree ordered
    by hash: a node's left child is taken for a greater hash, its right child otherwise.  This
    file holds what the two have in common: the shape of the tree, the walk down it, and that
    hanging a new node under the last node of its walk keeps every node reachable by its own
    hash.  A node is its hash and the indices of its children, [-1] standing for none. *)

From S2P Require Import Prelude.

Abbreviation tnode := (Z * Z * Z)%type.

Definition t_hash (n : tnode) : Z := n.1.1.

(** The child to go to when looking for [h]. *)
Definition child (n : tnode) (h : Z) : Z := let '(hash, l, r) := n in if hash <? h then l else r.

(** Hanging [k] under a node on the side [h] belongs to. *)
Definition hang (n : tnode) (h k : Z) : tnode :=
  let '(hash, l, r) := n in if hash <? h then (hash, k, r) else (hash, l, k).

Definition step (t : list tnode) (h : Z) (i : nat) : Z :=
  match t !! i with Some n => child n h | None => -1 end.

(** The nodes met on the way down from [i]. *)
Inductive walk (t : list tnode) (h : Z) (i : nat) : nat -> Prop :=
  | walk_here : walk t h i i
  | walk_next j k : walk t h i j -> step t h j = Z.of_nat k -> walk t h i k.

(** Children come later in the array, and each node is on the walk of its own hash. *)
Record tree_ok (t : list tnode) : Prop := {
  children_later : forall i h, (i < length t)%nat ->
    step t h i = -1 \/ Z.of_nat i < step t h i < Z.of_nat (length t);
  on_own_walk : forall i n, t !! i = Some n -> walk t (t_hash n) 0 i;
}.

(** The walk itself: to the first node that matches, or to the last node. *)
Fixpoint tree_search (fuel : nat) (t : list tnode) (matches : nat -> bool) (h : Z) (i : nat)
  : option (nat + nat) :=
  match fuel with
  | O => None
  | S fuel =>
      if matches i then Some (inl i)
      else if step t h i =? -1 then Some (inr i)
      else tree_search fuel t matches h (Z.to_nat (step t h i))
  end.

Lemma walk_trans t h i j k : walk t h i j -> walk t h j k -> walk t h i k.
Proof. intros Hi Hj. induction Hj; [done|]. by eapply walk_next. Qed.

Lemma walk_inv t h i j : walk t h i j -> i = j \/ exists k, step t h i = Z.of_nat k /\ walk t h k j.
Proof.
  induction 1 as [|j k Hw IH Hs]; [by left|]. right.
  destruct IH as [->|(m & Hm & Hmj)]; [exists k; split; [done|constructor]|].
  exists m. split; [done|]. by eapply walk_next.
Qed.

Lemma walk_bound t h i j : tree_ok t -> (i < length t)%nat -> walk t h i j -> (i <= j < length t)%nat.
Proof.
  intros Hok Hi. induction 1 as [|j k Hw IH Hs]; [lia|].
  destruct (children_later t Hok j h) as [Hc|Hc]; [lia|lia|]. lia.
Qed.

Lemma tree_search_spec (fuel : nat) t matches h (i : nat) :
  tree_ok t -> (i < length t)%nat -> (length t <= fuel + i)%nat ->
  exists r, tree_search fuel t matches h i = Some r
    /\ match r with
       | inl j => walk t h i j /\ matches j = true
       | inr p => walk t h i p /\ step t h p = -1 /\ forall j, walk t h i j -> matches j = false
       end.
Proof.
  intros Hok. revert i. induction fuel as [|fuel IH]; intros i Hi Hf; [lia|]. cbn [tree_search].
  destruct (matches i) eqn:Em; [exists (inl i); by repeat constructor|].
  destruct (Z.eqb_spec (step t h i) (-1)) as [Hs|Hs].
  - exists (inr i). split_and!; [done|constructor|done|]. intros j Hj.
    destruct (walk_inv t h i j Hj) as [->|(k & Hk & _)]; [done|lia].
  - destruct (children_later t Hok i h Hi) as [|Hc]; [lia|].
    assert (Hk : step t h i = Z.of_nat (Z.to_nat (step t h i))) by lia.
    destruct (IH (Z.to_nat (step t h i)) ltac:(lia) ltac:(lia)) as (r & Hr & Hspec).
    exists r. split; [done|].
    assert (Hstep : forall j, walk t h (Z.to_nat (step t h i)) j -> walk t h i j).
    { intros j Hj. eapply walk_trans; [|exact Hj]. eapply walk_next; [constructor|exact Hk]. }
    destruct r as [j|p].
    + destruct Hspec as [Hw Hm]. split; [by apply Hstep|done].
    + destruct Hspec as (Hw & Hl & Hno). split_and!; [by apply Hstep|done|]. intros j Hj.
      destruct (walk_inv t h i j Hj) as [->|(k & Hk' & Hkj)]; [done|]. apply Hno.
      by replace (Z.to_nat (step t h i)) with k by lia.
Qed.

(** Enough fuel gives the answer. *)
Lemma tree_search_total t matches h :
  tree_ok t -> t <> [] ->
  exists r, tree_search (length t) t matches h 0 = Some r
    /\ match r with
       | inl j => (j < length t)%nat /\ matches j = true
       | inr p => walk t h 0 p /\ (p < length t)%nat /\ step t h p = -1
                  /\ forall j n, t !! j = Some n -> t_hash n = h -> matches j = false
       end.
Proof.
  intros Hok Hne. assert (0 < length t)%nat by (destruct t; [done|simpl; lia]).
  destruct (tree_search_spec (length t) t matches h 0 Hok) as (r & Hr & Hspec); [lia|lia|].
  exists r. split; [done|]. destruct r as [j|p].
  - destruct Hspec as [Hw Hm]. split; [|done].
    destruct (walk_bound t h 0 j); [done|lia|done|lia].
  - destruct Hspec as (Hw & Hl & Hno). split_and!; [done| |done|].
    + destruct (walk_bound t h 0 p); [done|lia|done|lia].
    + intros j n Hj <-. apply Hno. by eapply on_own_walk.
Qed.

Lemma tree_ok_singleton h : tree_ok [(h, -1, -1)].
Proof.
  split.
  - intros [|i] h' Hi; [|simpl in Hi; lia]. left. unfold step. simpl. by destruct (h <? h').
  - intros [|i] n Hn; [constructor|done].
Qed.

Lemma child_hang n h k h' :
  child n h = -1 -> child (hang n h k) h' = child n h' \/ child n h' = -1 /\ child (hang n h k) h' = k.
Proof.
  destruct n as [[a l] r]. unfold child, hang. intros H.
  destruct (a <? h) eqn:E1, (a <? h') eqn:E2; simpl; rewrite ?E1, ?E2; auto.
Qed.

Lemma child_hang_same n h k : child (hang n h k) h = k.
Proof.
  destruct n as [[a l] r]. unfold child, hang. by destruct (a <? h) eqn:E; rewrite E.
Qed.

Lemma t_hash_hang n h k : t_hash (hang n h k) = t_hash n.
Proof. destruct n as [[a l] r]. unfold hang. by destruct (a <? h). Qed.

(** Hanging a new node under the last node of its walk. *)
Lemma tree_ok_insert t h (p : nat) n :
  tree_ok t -> walk t h 0 p -> t !! p = Some n -> step t h p = -1 ->
  tree_ok (<[p := hang n h (Z.of_nat (length t))]> t ++ [(h, -1, -1)]).
Proof.
  intros Hok Hw Hp Hs. pose proof (lookup_lt_Some _ _ _ Hp) as Hlt.
  set (t' := <[p := hang n h (Z.of_nat (length t))]> t ++ [(h, -1, -1)]).
  assert (Hcn : child n h = -1) by (unfold step in Hs; by rewrite Hp in Hs).
  assert (Hlen : length t' = S (length t)) by (unfold t'; rewrite length_app, length_insert; simpl; lia).
  assert (Hstep : forall i h', (i < length t)%nat ->
    step t' h' i = step t h' i \/ i = p /\ step t h' i = -1 /\ step t' h' i = Z.of_nat (length t)).
  { intros i h' Hi. unfold step, t'. rewrite lookup_app_l by (by rewrite length_insert).
    destruct (decide (i = p)) as [->|Hip].
    - rewrite list_lookup_insert_eq, Hp by done.
      destruct (child_hang n h (Z.of_nat (length t)) h' Hcn); intuition.
    - rewrite list_lookup_insert_ne by done. by left. }
  assert (Hlast : t' !! length t = Some (h, -1, -1)).
  { unfold t'. rewrite lookup_app_r by (rewrite length_insert; lia). by rewrite length_insert, Nat.sub_diag. }
  assert (Hwalk : forall h' i j, (i < length t)%nat -> walk t h' i j -> walk t' h' i j).
  { intros h' i j Hi Hj. induction Hj as [|j k Hj IH Hk]; [constructor|].
    destruct (walk_bound t h' i j); [done|lia|done|].
    eapply walk_next; [exact IH|]. destruct (Hstep j h') as [E|(? & E & _)]; [lia|by rewrite E|lia]. }
  split.
  - intros i h' Hi. rewrite Hlen in *. destruct (decide (i = length t)) as [->|Hne].
    + left. unfold step. rewrite Hlast. unfold child. by destruct (h <? h').
    + destruct (children_later t Hok i h') as [E|E]; [lia| |];
        destruct (Hstep i h') as [E'|(? & ? & E')]; rewrite ?E'; lia.
  - intros i m Hm. destruct (decide (i = length t)) as [->|Hne].
    + rewrite Hlast in Hm. injection Hm as <-. unfold t_hash. simpl.
      eapply walk_next; [apply Hwalk; [lia|exact Hw]|].
      unfold step, t'. rewrite lookup_app_l by (by rewrite length_insert).
      rewrite list_lookup_insert_eq by done. apply child_hang_same.
    + pose proof (lookup_lt_Some _ _ _ Hm) as Hi. rewrite Hlen in Hi.
      assert (exists n', t !! i = Some n' /\ t_hash n' = t_hash m) as (n' & Hn' & <-).
      { unfold t' in Hm. rewrite lookup_app_l in Hm by (rewrite length_insert; lia).
        destruct (decide (i = p)) as [->|].
        - rewrite list_lookup_insert_eq in Hm by done. injection Hm as <-. exists n.
          split; [done|]. by rewrite t_hash_hang.
        - rewrite list_lookup_insert_ne in Hm by done. by exists m. }
      apply Hwalk; [lia|]. by apply on_own_walk.
Qed.
