(* ===== verification/Sql.v ===== *)
(** * SQL queries

    [util_sql.c]: hiding the literals of a query, the normal form of a hidden query, and the
    operation and the table of a query.

    A pointer into a query is the list of its bytes up to the terminator; reading past the
    terminator is an error, the function returns [None].  A result is written into a buffer of
    [room] bytes, and writing past it is an error too. *)

From S2P Require Import Prelude Strings Hash.

(** ** Hiding literals *)

(** The states of the scanner: 0; 1 and 2, inside a string in the given quotes; 3. *)
Inductive obf_state : Type :=
  | Normal
  | InQuotes (q : Z)
  | InNumber.

(** [*q++ = c] *)
Definition emit (c : Z) (room : Z) (k : Z -> option cstr) : option cstr :=
  if 0 <? room then cons c <$> k (room - 1) else None.

(** [*q = 0] *)
Definition finish (room : Z) : option cstr := if 0 <? room then Some [] else None.

(** A number is left without reading on, so a round consumes a byte or leaves state 3. *)
(* @map util_sql.c:26-154 nr_sql_obfuscate *)
Fixpoint obfuscate_loop (fuel : nat) (state : obf_state) (p : cstr) (room : Z) : option cstr :=
  match fuel with
  | O => None
  | S fuel =>
      match p with
      | [] => finish room
      | c :: p1 =>
          match state with
          | Normal =>
              if (c =? 34) || (c =? chr "'") then emit (chr "?") room (obfuscate_loop fuel (InQuotes c) p1)
              else if c =? chr "-" then
                if byte_at p1 0 =? chr "-" then
                  match nr_strchr p 10 with
                  | None => finish room
                  | Some p => obfuscate_loop fuel Normal (drop 1 p) room
                  end
                else emit c room (obfuscate_loop fuel Normal p1)
              else if c =? chr "/" then
                if byte_at p1 0 =? chr "*" then
                  match nr_strstr p [chr "*"; chr "/"] with
                  | None => finish room
                  | Some p => obfuscate_loop fuel Normal (drop 2 p) room
                  end
                else emit c room (obfuscate_loop fuel Normal p1)
              else if nr_isdigit c then emit (chr "?") room (obfuscate_loop fuel InNumber p1)
              else emit c room (obfuscate_loop fuel Normal p1)
          | InQuotes q =>
              if c =? chr "\" then
                match p1 with
                | [] => None
                | _ :: p2 => obfuscate_loop fuel state p2 room
                end
              else if c =? q then
                if byte_at p1 0 =? q then obfuscate_loop fuel state (drop 1 p1) room
                else obfuscate_loop fuel Normal p1 room
              else obfuscate_loop fuel state p1 room
          | InNumber =>
              if nr_isdigit c then obfuscate_loop fuel InNumber p1 room
              else obfuscate_loop fuel Normal p room
          end
      end
  end.

(** [nr_malloc(nr_strlen(raw) + 1)]: an [int] that overflows is an error. *)
Definition buffer_for (s : cstr) : option Z :=
  let n := nr_strlen (Some s) + 1 in
  if n <? 2 ^ 31 then Some n else None.

(* @map util_sql.c:12-159 nr_sql_obfuscate *)
Definition nr_sql_obfuscate (raw : option cstr) : option (option cstr) :=
  match raw with
  | None => Some None
  | Some s =>
      room ← buffer_for s;
      let p := c_str s in
      Some <$> obfuscate_loop (2 * length p + 1) Normal p room
  end.

(** ** Normal form *)

(* @map util_sql.c:179-241 nr_sql_normalize *)
Fixpoint normalize_loop (state : Z) (p : cstr) (room : Z) : option cstr :=
  match p with
  | [] => finish room
  | c :: p =>
      match state with
      | 0 => emit c room (normalize_loop (if (c =? chr "i") || (c =? chr "I") then 1 else 0) p)
      | 1 => emit c room (normalize_loop (if (c =? chr "n") || (c =? chr "N") then 2 else 0) p)
      | 2 => emit c room (normalize_loop (if c =? chr "(" then 3 else if nr_isspace c then 2 else 0) p)
      | 3 =>
          if (c =? chr "?") || (c =? chr ",") || nr_isspace c then normalize_loop 3 p room
          else if c =? chr ")" then emit (chr "?") room (fun room => emit (chr ")") room (normalize_loop 0 p))
          else emit c room (normalize_loop 4 p)
      | _ => emit c room (normalize_loop (if c =? chr ")" then 0 else 4) p)
      end
  end.

(* @map util_sql.c:161-246 nr_sql_normalize *)
Definition nr_sql_normalize (obfuscated_sql : option cstr) : option (option cstr) :=
  match obfuscated_sql with
  | None => Some None
  | Some s =>
      if byte_at s 0 =? 0 then Some None
      else room ← buffer_for s; Some <$> normalize_loop 0 (c_str s) room
  end.

(* @map util_sql.c:248-260 nr_sql_normalized_id *)
Definition nr_sql_normalized_id (obfuscated_sql : option cstr) : option Z :=
  normalized ← nr_sql_normalize obfuscated_sql;
  match normalized with
  | None => Some 0
  | Some n => Some (fst (nr_mkhash (Some n) None))
  end.

(** ** Operation and table *)

(* @map util_sql.c:267-272 nr_sql_parse_type_t *)
Inductive nr_sql_parse_type_t : Type :=
  | NR_SQL_PARSE_UNKNOWN
  | NR_SQL_PARSE_UPDATE
  | NR_SQL_PARSE_FROM
  | NR_SQL_PARSE_INTO.

#[export] Instance nr_sql_parse_type_t_eq_dec : EqDecision nr_sql_parse_type_t.
Proof. solve_decision. Defined.

(** Space, carriage return, newline, tabs and form feed; and with them the quotes, the backquote, the
    opening parenthesis, bracket and brace and the at sign. *)
(* @map util_sql.c:290-290 NR_SQL_WHITESPACE_CHARS *)
Definition NR_SQL_WHITESPACE_CHARS : cstr := [32; 13; 10; 9; 11; 12].
(* @map util_sql.c:291-291 NR_SQL_DELIMITER_CHARS *)
Definition NR_SQL_DELIMITER_CHARS : cstr := NR_SQL_WHITESPACE_CHARS ++ [39; 34; 96; 40; 91; 64; 123].

(** [p + n] *)
Definition advance (p : cstr) (n : Z) : option cstr :=
  if (0 <=? n) && (n <=? Z.of_nat (length p)) then Some (drop (Z.to_nat n) p) else None.

(** The end of a comment; NULL when it has none. *)
(* @map util_sql.c:321-333 nr_sql_whitespace_comment_prefix *)
Fixpoint comment_end (s : cstr) : option cstr :=
  match s with
  | [] => None
  | c :: t => if (c =? chr "*") && (byte_at t 0 =? chr "/") then Some (drop 1 t) else comment_end t
  end.

(** The outer [option] is for errors, the inner one for NULL.  Every round consumes a comment. *)
(* @map util_sql.c:318-337 nr_sql_whitespace_comment_prefix *)
Fixpoint comments_loop (fuel : nat) (s : cstr) : option (option cstr) :=
  match fuel with
  | O => None
  | S fuel =>
      if (byte_at s 0 =? chr "/") && (byte_at s 1 =? chr "*") then
        match comment_end (drop 2 s) with
        | None => Some None
        | Some s => s ← advance s (nr_strspn s NR_SQL_WHITESPACE_CHARS); comments_loop fuel s
        end
      else Some (Some s)
  end.

(* @map util_sql.c:302-340 nr_sql_whitespace_comment_prefix *)
Definition nr_sql_whitespace_comment_prefix (sql : option cstr) : option (option cstr) :=
  match sql with
  | None => Some None
  | Some s =>
      let s := c_str s in
      if byte_at s 0 =? 0 then Some (Some s)
      else s ← advance s (nr_strspn s NR_SQL_WHITESPACE_CHARS); comments_loop (S (length s)) s
  end.

(* @map util_sql.c:342-355 nr_sql_parse_over *)
Definition nr_sql_parse_over (str : cstr) (character : Z) : option cstr := drop 1 <$> nr_strchr str character.

(* @map util_sql.c:366-382 sql_parse_expectation_t *)
Definition operations : list (cstr * nr_sql_parse_type_t) :=
  [(str "select", NR_SQL_PARSE_FROM);
   (str "update", NR_SQL_PARSE_UPDATE);
   (str "insert", NR_SQL_PARSE_INTO);
   (str "replace", NR_SQL_PARSE_INTO);
   (str "delete", NR_SQL_PARSE_FROM)].

(* @map util_sql.c:402-406 nr_sql_get_operation_and_table *)
Fixpoint find_operation (l : list (cstr * nr_sql_parse_type_t)) (sql : cstr) : option (cstr * nr_sql_parse_type_t) :=
  match l with
  | [] => None
  | (opname, opflag) :: l =>
      if 0 =? nr_strnicmp (Some opname) (Some sql) (Z.of_nat (length opname)) then Some (opname, opflag)
      else find_operation l sql
  end.

(** A word of four letters in front of a delimiter or of the end, whatever its case. *)
(* @map util_sql.c:452-466 nr_sql_get_operation_and_table *)
Definition keyword_at (word : cstr) (x : cstr) : bool :=
  (byte_at word 0 =? nr_tolower (byte_at x 0)) && (byte_at word 1 =? nr_tolower (byte_at x 1))
  && (byte_at word 2 =? nr_tolower (byte_at x 2)) && (byte_at word 3 =? nr_tolower (byte_at x 3))
  && (match nr_strchr NR_SQL_DELIMITER_CHARS (byte_at x 4) with Some _ => true | None => false end).

(** Every round consumes a byte or ends the loop. *)
(* @map util_sql.c:430-470 nr_sql_get_operation_and_table *)
Fixpoint keyword_loop (fuel : nat) (opflag : nr_sql_parse_type_t) (x : cstr) : option (option cstr) :=
  match fuel with
  | O => None
  | S fuel =>
      if byte_at x 0 =? 0 then Some (Some x)
      else
        x ← nr_sql_whitespace_comment_prefix (Some x);
        match x with
        | None => Some None
        | Some x =>
            if (byte_at x 0 =? 39) || (byte_at x 0 =? 34) then
              match nr_sql_parse_over (drop 1 x) (byte_at x 0) with
              | None => Some None
              | Some x => keyword_loop fuel opflag x
              end
            else if bool_decide (opflag = NR_SQL_PARSE_FROM) && keyword_at (str "from") x then Some (Some (drop 4 x))
            else if bool_decide (opflag = NR_SQL_PARSE_INTO) && keyword_at (str "into") x then Some (Some (drop 4 x))
            else x ← advance x (nr_strcspn x (NR_SQL_WHITESPACE_CHARS ++ [39; 34])); keyword_loop fuel opflag x
        end
  end.

(** The delimiters and closing parentheses, semicolons, commas, stars, dots and slashes end a name;
    all but the dot are skipped after it. *)
(* @map util_sql.c:510-529 nr_sql_get_operation_and_table *)
Fixpoint name_loop (fuel : nat) (x : cstr) : option (cstr * Z) :=
  match fuel with
  | O => None
  | S fuel =>
      let x := if existsb (Z.eqb (byte_at x 0)) [96; 39; 34; 123] then drop 1 x else x in
      let start := x in
      let sl := nr_strcspn x (NR_SQL_DELIMITER_CHARS ++ str "]});,*./") in
      x ← advance x sl;
      let sl2 := nr_strspn x (NR_SQL_DELIMITER_CHARS ++ str "]});,*/") in
      x2 ← advance x sl2;
      if byte_at x2 0 =? chr "." then name_loop fuel (drop 1 x2)
      else Some (start, sl)
  end.

(* @map util_sql.c:510-538 nr_sql_get_operation_and_table *)
Definition table_name (x : cstr) : option (option cstr) :=
  '(start, sl) ← name_loop (S (length x)) x;
  if sl <=? 0 then Some None else Some (Some (nr_strndup (Some start) sl)).

(** What follows the keyword. *)
(* @map util_sql.c:476-538 nr_sql_get_operation_and_table *)
Definition find_table (x : cstr) : option (option cstr) :=
  x ← nr_sql_whitespace_comment_prefix (Some x);
  match x with
  | None => Some None
  | Some x =>
      if byte_at x 0 =? chr "(" then
        let x := drop 1 x in
        if existsb (Z.eqb (byte_at x 0)) [96; 39; 34] then table_name x
        else
          let sl := nr_strcspn x (NR_SQL_WHITESPACE_CHARS ++ str ",`)';" ++ [34]) in
          x2 ← advance x sl;
          if (byte_at x2 0 =? chr ")") || (byte_at x2 0 =? chr ",") then table_name x
          else Some (Some (nr_strdup (Some (str "(subquery)"))))
      else table_name x
  end.

(** The operation and the table; the log is left out.  [operation_ptr] and [table_ptr] say whether
    the pointers are not NULL. *)
(* @map util_sql.c:357-544 nr_sql_get_operation_and_table *)
Definition nr_sql_get_operation_and_table (sql : option cstr) (operation_ptr table_ptr : bool)
  : option (option cstr * option cstr) :=
  if negb (operation_ptr && table_ptr) then Some (None, None)
  else
    sql ← nr_sql_whitespace_comment_prefix sql;
    match sql with
    | None => Some (None, None)
    | Some sql =>
        match find_operation operations sql with
        | None => Some (None, None)
        | Some (opname, opflag) =>
            x ← (if bool_decide (opflag = NR_SQL_PARSE_UPDATE)
                 then Some <$> advance sql (nr_strcspn sql NR_SQL_WHITESPACE_CHARS)
                 else keyword_loop (S (length sql)) opflag sql);
            match x with
            | None => Some (Some opname, None)
            | Some x => table ← find_table x; Some (Some opname, table)
            end
        end
    end.

(** ** The tokens of a query *)

(** What is between the quotes [q] of a string. *)
Inductive sql_piece : Type :=
  | Plain (c : Z)
  | Escaped (c : Z)
  | TwoQuotes.

Inductive sql_token : Type :=
  | Byte (c : Z)
  | Literal (q : Z) (l : list sql_piece)
  | Number (ds : list Z)
  | LineComment (t : list Z)
  | BlockComment (t : list Z).

(** How a query ends: after a token, or inside one. *)
Inductive sql_end : Type :=
  | AtEnd
  | OpenLiteral (q : Z) (l : list sql_piece)
  | DanglingEscape (q : Z) (l : list sql_piece)
  | OpenLine (t : list Z)
  | OpenBlock (t : list Z).

Definition is_quote (q : Z) : Prop := q = 34 \/ q = 39.

Definition piece_text (q : Z) (x : sql_piece) : cstr :=
  match x with Plain c => [c] | Escaped c => [92; c] | TwoQuotes => [q; q] end.
Definition pieces_text (q : Z) (l : list sql_piece) : cstr := concat (map (piece_text q) l).

Definition piece_ok (q : Z) (x : sql_piece) : Prop :=
  match x with Plain c => c <> 0 /\ c <> q /\ c <> 92 | Escaped c => c <> 0 | TwoQuotes => True end.

(** The bytes 45, 10, 47 and 42 are the dash, the newline, the slash and the star. *)
Definition token_text (t : sql_token) : cstr :=
  match t with
  | Byte c => [c]
  | Literal q l => q :: pieces_text q l ++ [q]
  | Number ds => ds
  | LineComment t => 45 :: 45 :: t ++ [10]
  | BlockComment t => 47 :: t ++ [42; 47]
  end.

Definition end_text (e : sql_end) : cstr :=
  match e with
  | AtEnd => []
  | OpenLiteral q l => q :: pieces_text q l
  | DanglingEscape q l => q :: pieces_text q l ++ [92]
  | OpenLine t => 45 :: 45 :: t
  | OpenBlock t => 47 :: 42 :: t
  end.

(** No [*/] in a text. *)
Definition no_close (s : cstr) : Prop := forall a b, s <> a ++ 42 :: 47 :: b.

Definition nonzero (s : cstr) : Prop := Forall (fun c => c <> 0) s.

(** Tokens are as long as possible; a comment that starts [/*] may end with the same star. *)
Definition token_ok (t : sql_token) (rest : cstr) : Prop :=
  match t with
  | Byte c => c <> 0 /\ c <> 34 /\ c <> 39 /\ nr_isdigit c = false
              /\ (c = 45 -> head rest <> Some 45) /\ (c = 47 -> head rest <> Some 42)
  | Literal q l => is_quote q /\ Forall (piece_ok q) l /\ head rest <> Some q
  | Number ds => ds <> [] /\ Forall (fun c => nr_isdigit c = true) ds
                 /\ (forall c, head rest = Some c -> nr_isdigit c = false)
  | LineComment t => Forall (fun c => c <> 10) t /\ nonzero t
  | BlockComment t => head (t ++ [42]) = Some 42 /\ no_close (t ++ [42]) /\ nonzero t
  end.

Definition end_ok (e : sql_end) : Prop :=
  match e with
  | AtEnd => True
  | OpenLiteral q l | DanglingEscape q l => is_quote q /\ Forall (piece_ok q) l
  | OpenLine t => Forall (fun c => c <> 10) t /\ nonzero t
  | OpenBlock t => no_close (42 :: t) /\ nonzero t
  end.

Inductive lexes : cstr -> list sql_token -> sql_end -> Prop :=
  | lexes_end e : end_ok e -> lexes (end_text e) [] e
  | lexes_token t rest ts e :
      token_ok t rest -> lexes rest ts e -> lexes (token_text t ++ rest) (t :: ts) e.

(** What is left of a token: literals and numbers are question marks, comments go. *)
Definition token_image (t : sql_token) : cstr :=
  match t with
  | Byte c => [c]
  | Literal _ _ | Number _ => [63]
  | LineComment _ | BlockComment _ => []
  end.

Definition end_image (e : sql_end) : option cstr :=
  match e with
  | AtEnd | OpenLine _ | OpenBlock _ => Some []
  | OpenLiteral _ _ => Some [63]
  | DanglingEscape _ _ => None
  end.

Definition obfuscated (ts : list sql_token) (e : sql_end) : option cstr :=
  app (concat (map token_image ts)) <$> end_image e.

(** ** Searching *)

Lemma strchr_found (a b : cstr) (c : Z) :
  nonzero a -> Forall (fun x => x <> c) a -> nr_strchr (a ++ c :: b) c = Some (c :: b).
Proof.
  induction a as [|x a IH]; intros Hn Ha; simpl; [by rewrite Z.eqb_refl|].
  inversion_clear Hn. inversion_clear Ha.
  destruct (Z.eqb_spec x c); [done|]. destruct (Z.eqb_spec x 0); [done|]. by apply IH.
Qed.

Lemma strchr_missing (a : cstr) (c : Z) :
  c <> 0 -> Forall (fun x => x <> c) a -> nr_strchr a c = None.
Proof.
  intros Hc. induction 1 as [|x a Hx Ha IH]; simpl; [by destruct (Z.eqb_spec c 0)|].
  destruct (Z.eqb_spec x c); [done|]. destruct (x =? 0); done.
Qed.

Lemma no_close_cons (x : Z) (s : cstr) : no_close (x :: s) -> no_close s.
Proof. intros Hn a b ->. by apply (Hn (x :: a) b). Qed.

Lemma no_close_star (s : cstr) : no_close (42 :: 47 :: s) -> False.
Proof. intros Hn. by apply (Hn [] s). Qed.

Lemma strstr_found (a b : cstr) :
  nonzero a -> no_close (a ++ [42]) -> nr_strstr (a ++ 42 :: 47 :: b) [42; 47] = Some (42 :: 47 :: b).
Proof.
  induction a as [|x a IH]; intros Hn Hc.
  { cbn [app nr_strstr length take]. by rewrite bool_decide_true. }
  inversion_clear Hn. cbn [app nr_strstr length].
  rewrite bool_decide_false.
  - destruct (Z.eqb_spec x 0); [done|]. apply IH; [done|]. by eapply no_close_cons.
  - destruct a as [|y a]; cbn; intros [= -> ->]. by apply no_close_star in Hc.
Qed.

Lemma strstr_missing (a : cstr) : no_close a -> nr_strstr a [42; 47] = None.
Proof.
  induction a as [|x a IH]; intros Hc; [done|]. cbn [nr_strstr length]. rewrite bool_decide_false.
  - destruct (x =? 0); [done|]. apply IH. by eapply no_close_cons.
  - destruct a as [|y a]; cbn; [done|]. intros [= -> ->]. by apply no_close_star in Hc.
Qed.

(** Every text without a NUL is split at the first end of line, at the first end of a comment, at
    its first byte that is no digit, or at the end of a string. *)
Lemma split_line (p : cstr) :
  Forall (fun c => c <> 10) p \/ exists a b, p = a ++ 10 :: b /\ Forall (fun c => c <> 10) a.
Proof.
  induction p as [|c p IH]; [by left|]. destruct (decide (c = 10)) as [->|]; [right; by exists [], p|].
  destruct IH as [IH|(a & b & -> & Ha)]; [left; by constructor|].
  right. exists (c :: a), b. split; [done|by constructor].
Qed.

Lemma no_close_extend (c : Z) (s : cstr) :
  no_close s -> (c = 42 -> head s <> Some 47) -> no_close (c :: s).
Proof.
  intros Hs Hc [|x a] b E; injection E as -> E; [|by apply (Hs a b)]. subst s. by apply Hc.
Qed.

Lemma split_close (p : cstr) :
  no_close p \/ exists a b, p = a ++ 42 :: 47 :: b /\ no_close (a ++ [42]).
Proof.
  induction p as [|c p IH]; [left; by intros [|??] b|].
  destruct IH as [IH|(a & b & -> & Ha)].
  - destruct (decide (c = 42 /\ head p = Some 47)) as [[-> Hp]|Hc].
    + right. destruct p as [|y p]; [done|]. injection Hp as ->. exists [], p. split; [done|].
      intros [|x a] b E; [done|]. destruct a; done.
    + left. apply no_close_extend; [done|]. intros -> E. by apply Hc.
  - destruct (decide (c = 42 /\ head (a ++ [42]) = Some 47)) as [[-> Hp]|Hc].
    + right. destruct a as [|y a]; [done|]. injection Hp as ->. exists [], (a ++ 42 :: 47 :: b). split; [done|].
      intros [|x a'] b' E; [done|]. destruct a'; done.
    + right. exists (c :: a), b. split; [done|]. apply no_close_extend; [done|]. intros -> E. by apply Hc.
Qed.

Lemma split_digits (p : cstr) :
  exists a b, p = a ++ b /\ Forall (fun c => nr_isdigit c = true) a /\ forall c, head b = Some c -> nr_isdigit c = false.
Proof.
  induction p as [|c p (a & b & -> & Ha & Hb)]; [by exists [], []|].
  destruct (nr_isdigit c) eqn:E.
  - exists (c :: a), b. split; [done|]. split; [by constructor|done].
  - exists [], (c :: a ++ b). split; [done|]. split; [constructor|]. by intros ? [= <-].
Qed.

Definition literal_split (q : Z) (p : cstr) : Prop :=
  exists l, Forall (piece_ok q) l /\
    (p = pieces_text q l \/ p = pieces_text q l ++ [92]
     \/ exists rest, p = pieces_text q l ++ q :: rest /\ head rest <> Some q).

Lemma literal_split_cons (q : Z) (x : sql_piece) (p : cstr) :
  piece_ok q x -> literal_split q p -> literal_split q (piece_text q x ++ p).
Proof.
  intros Hx (l & Hl & Hp). exists (x :: l). split; [by constructor|].
  unfold pieces_text in *. cbn [map concat]. rewrite <- app_assoc.
  destruct Hp as [->|[->|(rest & -> & Hr)]]; [by left|by right; left; rewrite app_assoc|].
  right; right. exists rest. by rewrite app_assoc.
Qed.

Lemma split_literal (q : Z) (n : nat) (p : cstr) :
  is_quote q -> (length p <= n)%nat -> nonzero p -> literal_split q p.
Proof.
  intros Hq. revert p. induction n as [|n IH]; intros p Hn Hp.
  { destruct p; [|simpl in Hn; lia]. exists []. split; [constructor|]. by left. }
  destruct p as [|c p]; [exists []; split; [constructor|by left]|].
  simpl in Hn. inversion_clear Hp. destruct (decide (c = 92)) as [->|Hc].
  - destruct p as [|y p]; [exists []; split; [constructor|by right; left]|].
    simpl in Hn. inversion_clear H0. apply (literal_split_cons q (Escaped y)); [done|]. apply IH; [lia|done].
  - destruct (decide (c = q)) as [->|]; [|apply (literal_split_cons q (Plain c)); [done|]; apply IH; [lia|done]].
    destruct (decide (head p = Some q)) as [Eq|Hne].
    + destruct p as [|y p]; [done|]. injection Eq as ->. simpl in Hn. inversion_clear H0.
      apply (literal_split_cons q TwoQuotes); [done|]. apply IH; [lia|done].
    + exists []. split; [constructor|]. right; right. by exists p.
Qed.

Lemma lexes_app (t : sql_token) (rest p : cstr) (ts : list sql_token) (e : sql_end) :
  p = token_text t ++ rest -> token_ok t rest -> lexes rest ts e -> exists ts e, lexes p ts e.
Proof. intros -> Ht Hl. exists (t :: ts), e. by constructor. Qed.

Lemma lexes_at_end (p : cstr) (e : sql_end) : p = end_text e -> end_ok e -> exists ts e, lexes p ts e.
Proof. intros -> He. exists [], e. by constructor. Qed.

Lemma nonzero_app (a b : cstr) : nonzero (a ++ b) -> nonzero a /\ nonzero b.
Proof. apply Forall_app. Qed.

(** One token off the front of a text. *)
Definition token_split (p : cstr) : Prop :=
  (exists e, p = end_text e /\ end_ok e)
  \/ exists t rest, p = token_text t ++ rest /\ token_ok t rest /\ (length rest < length p)%nat.

Lemma split_quote (q : Z) (p : cstr) : is_quote q -> nonzero p -> token_split (q :: p).
Proof.
  intros Hq Hp. destruct (split_literal q (length p) p Hq) as (l & Hl & Hs); [lia|done|].
  destruct Hs as [->|[->|(rest & -> & Hr)]].
  - left. by exists (OpenLiteral q l).
  - left. by exists (DanglingEscape q l).
  - right. exists (Literal q l), rest. split; [cbn [token_text]; by rewrite <- app_comm_cons, <- app_assoc|].
    split; [done|]. simpl. rewrite length_app. simpl. lia.
Qed.

Lemma split_dash (p : cstr) : nonzero p -> token_split (45 :: 45 :: p).
Proof.
  intros Hp. destruct (split_line p) as [Hl|(a & b & -> & Ha)].
  - left. by exists (OpenLine p).
  - apply nonzero_app in Hp as [Hn _]. right. exists (LineComment a), b.
    split; [cbn [token_text]; by rewrite <- !app_comm_cons, <- app_assoc|]. split; [done|].
    simpl. rewrite length_app. simpl. lia.
Qed.

Lemma split_slash (p : cstr) : nonzero p -> token_split (47 :: 42 :: p).
Proof.
  intros Hp. destruct (split_close (42 :: p)) as [Hl|(a & b & E & Ha)].
  - left. by exists (OpenBlock p).
  - right. exists (BlockComment a), b. assert (nonzero (42 :: p)) as Hn by (by constructor).
    rewrite E in Hn. apply nonzero_app in Hn as [Hn _].
    split; [cbn [token_text]; rewrite E; cbn [app]; by rewrite <- app_assoc|].
    split; [|rewrite E; simpl; rewrite length_app; simpl; lia].
    split; [|done]. destruct a as [|x a]; [done|]. by injection E as <-.
Qed.

Lemma split_token (p : cstr) : nonzero p -> token_split p.
Proof.
  intros Hp. destruct p as [|c p]; [left; by exists AtEnd|]. inversion_clear Hp as [|? ? Hc Hn].
  destruct (decide (c = 34 \/ c = 39)) as [Hq|Hq]; [by apply split_quote|].
  destruct (nr_isdigit c) eqn:Ed.
  { destruct (split_digits (c :: p)) as (a & b & E & Ha & Hb). right. exists (Number a), b.
    assert (a <> []) as Hne. { intros ->. rewrite (Hb c) in Ed; [done|]. cbn in E. by rewrite <- E. }
    split; [done|]. split; [done|]. rewrite E, length_app. destruct a; [done|simpl; lia]. }
  destruct (decide (c = 45 /\ head p = Some 45)) as [[-> Hd]|Hd].
  { destruct p as [|y p]; [done|]. injection Hd as ->. inversion_clear Hn. by apply split_dash. }
  destruct (decide (c = 47 /\ head p = Some 42)) as [[-> Hs]|Hs].
  { destruct p as [|y p]; [done|]. injection Hs as ->. inversion_clear Hn. by apply split_slash. }
  right. exists (Byte c), p. split; [done|]. split; [|simpl; lia]. cbn. naive_solver.
Qed.

(** Every query can be cut into tokens. *)
Lemma lexes_total (n : nat) (p : cstr) : (length p < n)%nat -> nonzero p -> exists ts e, lexes p ts e.
Proof.
  revert p. induction n as [|n IH]; intros p Hn Hp; [lia|].
  destruct (split_token p Hp) as [(e & E & He)|(t & rest & E & Ht & Hlt)]; [by eapply lexes_at_end|].
  destruct (IH rest) as (ts & e & Hl); [lia|subst p; by eapply nonzero_app|]. by eapply lexes_app.
Qed.

(** ** The scanner follows the tokens *)

(** [out] and then what a computation gives. *)
Definition after (out : cstr) (o : option cstr) : option cstr := app out <$> o.

Lemma after_nil (o : option cstr) : after [] o = o.
Proof. by destruct o. Qed.

Lemma after_app (a b : cstr) (o : option cstr) : after a (after b o) = after (a ++ b) o.
Proof. destruct o; [|done]. unfold after. simpl. by rewrite app_assoc. Qed.

Lemma emit_run (c room : Z) (k : Z -> option cstr) : 0 < room -> emit c room k = after [c] (k (room - 1)).
Proof. intros Hr. unfold emit. by destruct (Z.ltb_spec 0 room); [|lia]. Qed.

(** Enough fuel for a rest of the query, and enough room for it and the terminator. *)
Definition enough (fuel : nat) (p : cstr) (room : Z) : Prop :=
  (2 * length p < fuel)%nat /\ Z.of_nat (length p) < room.

(** Deciding the comparisons of bytes that come up. *)
Ltac byte_cases :=
  repeat match goal with
  | |- context [?a =? ?b] => destruct (Z.eqb_spec a b); try lia; cbn [orb]
  end.

Lemma quotes_step (fuel : nat) (q : Z) (x : sql_piece) (rest : cstr) (room : Z) :
  is_quote q -> piece_ok q x ->
  obfuscate_loop (S fuel) (InQuotes q) (piece_text q x ++ rest) room = obfuscate_loop fuel (InQuotes q) rest room.
Proof.
  intros Hq Hx. unfold is_quote in Hq.
  destruct x as [c|c|]; cbn [piece_text app obfuscate_loop]; chars; cbn in Hx; byte_cases; try done.
Qed.

Lemma quotes_scan (q : Z) (l : list sql_piece) (fuel : nat) (rest : cstr) (room : Z) :
  is_quote q -> Forall (piece_ok q) l -> enough fuel (pieces_text q l ++ rest) room ->
  exists fuel', enough fuel' rest room
    /\ obfuscate_loop fuel (InQuotes q) (pieces_text q l ++ rest) room = obfuscate_loop fuel' (InQuotes q) rest room.
Proof.
  intros Hq Hl. revert fuel. induction Hl as [|x l Hx Hl IH]; intros fuel He; [by exists fuel|].
  unfold pieces_text in *. cbn [map concat] in *. rewrite <- app_assoc in *.
  destruct fuel as [|fuel]; [destruct He; lia|]. rewrite quotes_step by done. apply IH.
  destruct He as [H1 H2]. rewrite length_app in H1, H2.
  assert (1 <= length (piece_text q x))%nat by (destruct x; simpl; lia). split; lia.
Qed.

Lemma number_scan (ds : list Z) (fuel : nat) (rest : cstr) (room : Z) :
  Forall (fun c => nr_isdigit c = true) ds -> (forall c, head rest = Some c -> nr_isdigit c = false) ->
  (2 * length (ds ++ rest) + 1 < fuel)%nat -> Z.of_nat (length (ds ++ rest)) < room ->
  exists fuel', enough fuel' rest room
    /\ obfuscate_loop fuel InNumber (ds ++ rest) room = obfuscate_loop fuel' Normal rest room.
Proof.
  intros Hd Hr. revert fuel. induction Hd as [|d ds Hd Hds IH]; intros fuel Hf Hroom; cbn [app] in *.
  - destruct fuel as [|fuel]; [lia|]. destruct rest as [|c rest].
    + exists (S fuel). split; [split; [simpl in *; lia|done]|done].
    + exists fuel. split; [split; [lia|done]|]. cbn [obfuscate_loop]. by rewrite Hr.
  - destruct fuel as [|fuel]; [lia|]. cbn [obfuscate_loop]. rewrite Hd. simpl in *. apply IH; lia.
Qed.

Lemma byte_head (p : cstr) (c : Z) : c <> 0 -> byte_at p 0 = c <-> head p = Some c.
Proof. intros Hc. unfold byte_at. destruct p; simpl; [split; congruence|]. split; [by intros ->|by intros [= ->]]. Qed.

Lemma obfuscate_byte (fuel : nat) (c : Z) (rest : cstr) (room : Z) :
  token_ok (Byte c) rest -> 0 < room ->
  obfuscate_loop (S fuel) Normal (c :: rest) room = after [c] (obfuscate_loop fuel Normal rest (room - 1)).
Proof.
  intros (H0 & H1 & H2 & Hd & H3 & H4) Hr. cbn [obfuscate_loop]. chars. rewrite Hd.
  destruct (Z.eqb_spec c 34); [done|]. destruct (Z.eqb_spec c 39); [done|]. cbn [orb].
  assert ((byte_at rest 0 =? 45) = true -> head rest = Some 45) as B1 by (intros E; apply byte_head; lia).
  assert ((byte_at rest 0 =? 42) = true -> head rest = Some 42) as B2 by (intros E; apply byte_head; lia).
  destruct (Z.eqb_spec c 45); [|destruct (Z.eqb_spec c 47)].
  - destruct (byte_at rest 0 =? 45); [by destruct H3; [|apply B1]|by apply emit_run].
  - destruct (byte_at rest 0 =? 42); [by destruct H4; [|apply B2]|by apply emit_run].
  - by apply emit_run.
Qed.

Lemma obfuscate_quote (fuel : nat) (q : Z) (p : cstr) (room : Z) :
  is_quote q -> 0 < room ->
  obfuscate_loop (S fuel) Normal (q :: p) room = after [63] (obfuscate_loop fuel (InQuotes q) p (room - 1)).
Proof.
  intros Hq Hr. cbn [obfuscate_loop]. chars.
  replace ((q =? 34) || (q =? 39)) with true by (unfold is_quote in Hq; byte_cases; done). by apply emit_run.
Qed.

Lemma obfuscate_digit (fuel : nat) (d : Z) (p : cstr) (room : Z) :
  nr_isdigit d = true -> 0 < room ->
  obfuscate_loop (S fuel) Normal (d :: p) room = after [63] (obfuscate_loop fuel InNumber p (room - 1)).
Proof.
  intros Hd Hr. cbn [obfuscate_loop]. chars. rewrite Hd. unfold nr_isdigit in Hd.
  assert (48 <= d) by lia. byte_cases. by apply emit_run.
Qed.

Lemma obfuscate_dash (fuel : nat) (p : cstr) (room : Z) :
  obfuscate_loop (S fuel) Normal (45 :: 45 :: p) room
  = match nr_strchr (45 :: 45 :: p) 10 with
    | None => finish room
    | Some p => obfuscate_loop fuel Normal (drop 1 p) room
    end.
Proof. done. Qed.

Lemma obfuscate_slash (fuel : nat) (p : cstr) (room : Z) :
  obfuscate_loop (S fuel) Normal (47 :: 42 :: p) room
  = match nr_strstr (47 :: 42 :: p) [42; 47] with
    | None => finish room
    | Some p => obfuscate_loop fuel Normal (drop 2 p) room
    end.
Proof. done. Qed.

Lemma enough_app (fuel : nat) (a b : cstr) (room : Z) :
  enough (S fuel) (a ++ b) room -> (1 <= length a)%nat -> enough fuel b room.
Proof. unfold enough. rewrite length_app. lia. Qed.

(** The loop over one token. *)
Lemma obfuscate_token (t : sql_token) (rest : cstr) (fuel : nat) (room : Z) :
  token_ok t rest -> enough fuel (token_text t ++ rest) room ->
  exists fuel' room', enough fuel' rest room'
    /\ obfuscate_loop fuel Normal (token_text t ++ rest) room
       = after (token_image t) (obfuscate_loop fuel' Normal rest room').
Proof.
  intros Ht He. destruct fuel as [|fuel]; [destruct He; lia|].
  assert (0 < room) as Hr by (destruct He; lia).
  destruct t as [c|q l|ds|t|t]; cbn [token_text token_image app] in *.
  - exists fuel, (room - 1). split; [unfold enough in *; simpl in *; lia|by apply obfuscate_byte].
  - destruct Ht as (Hq & Hl & Hne). rewrite obfuscate_quote, <- app_assoc by done.
    destruct (quotes_scan q l fuel ([q] ++ rest) (room - 1)) as (fuel' & He' & ->); [done|done| |].
    { unfold enough in *. rewrite <- app_assoc in He. simpl in *. lia. }
    destruct fuel' as [|fuel']; [destruct He'; simpl in *; lia|].
    exists fuel', (room - 1). split; [unfold enough in *; simpl in *; lia|].
    cbn [app obfuscate_loop]. chars. rewrite Z.eqb_refl.
    replace (q =? 92) with false by (unfold is_quote in Hq; lia).
    assert (byte_at rest 0 <> q) as Hb. { rewrite byte_head; [done|unfold is_quote in Hq; lia]. }
    by destruct (Z.eqb_spec (byte_at rest 0) q).
  - destruct Ht as (Hne & Hd & Hr'). destruct ds as [|d ds]; [done|]. inversion_clear Hd as [|? ? Hdd Hds].
    cbn [app]. rewrite obfuscate_digit by done.
    destruct (number_scan ds fuel rest (room - 1)) as (fuel' & He' & ->);
      [done|done|unfold enough in *; simpl in *; lia|unfold enough in *; simpl in *; lia|].
    by exists fuel', (room - 1).
  - destruct Ht as (Hl & Hn). exists fuel, room. rewrite after_nil, <- app_assoc in *. cbn [app] in *.
    pose proof (strchr_found (45 :: 45 :: t) rest 10) as Ef. cbn [app] in Ef.
    rewrite obfuscate_dash, Ef by (repeat constructor; done).
    split; [unfold enough in *; simpl in *; rewrite length_app in *; simpl in *; lia|done].
  - destruct Ht as (Hh & Hc & Hn). exists fuel, room. rewrite after_nil, <- app_assoc in *. cbn [app] in *.
    assert (exists u, t ++ 42 :: 47 :: rest = 42 :: u) as [u Eu].
    { destruct t as [|x t]; [by eexists|]. injection Hh as ->. by eexists. }
    split; [unfold enough in *; simpl in *; rewrite length_app in *; simpl in *; lia|].
    pose proof (strstr_found (47 :: t) rest) as Ef. cbn [app] in Ef.
    rewrite Eu, obfuscate_slash, <- Eu, Ef; [done|by constructor|].
    apply no_close_extend; [done|done].
Qed.

Lemma obfuscate_end (e : sql_end) (fuel : nat) (room : Z) :
  end_ok e -> enough fuel (end_text e) room ->
  obfuscate_loop fuel Normal (end_text e) room = end_image e.
Proof.
  intros Hok He. destruct fuel as [|fuel]; [destruct He; lia|].
  assert (finish room = Some []) as Hf by (unfold finish; destruct (Z.ltb_spec 0 room); destruct He; [done|lia]).
  destruct e as [|q l|q l|t|t]; cbn [end_text end_image] in *; [done| | | |].
  - destruct Hok as [Hq Hl]. assert (0 < room) by (destruct He; lia). rewrite obfuscate_quote by done.
    destruct (quotes_scan q l fuel [] (room - 1)) as (fuel' & He' & E); [done|done| |].
    { rewrite app_nil_r. unfold enough in *. simpl in *. lia. }
    rewrite app_nil_r in E. rewrite E. destruct fuel' as [|fuel']; [destruct He'; lia|].
    cbn. unfold finish. destruct He'. by destruct (Z.ltb_spec 0 (room - 1)); [|lia].
  - destruct Hok as [Hq Hl]. assert (0 < room) by (destruct He; lia). rewrite obfuscate_quote by done.
    destruct (quotes_scan q l fuel [92] (room - 1)) as (fuel' & He' & ->); [done|done| |].
    { unfold enough in *. simpl in *. lia. }
    destruct fuel' as [|fuel']; [destruct He'; simpl in *; lia|]. done.
  - destruct Hok as [Hl Hn]. by rewrite obfuscate_dash, strchr_missing by (repeat constructor; done).
  - destruct Hok as [Hc Hn]. rewrite obfuscate_slash, strstr_missing by (by apply no_close_extend). done.
Qed.

Lemma obfuscate_lexed (p : cstr) (ts : list sql_token) (e : sql_end) (fuel : nat) (room : Z) :
  lexes p ts e -> enough fuel p room -> obfuscate_loop fuel Normal p room = obfuscated ts e.
Proof.
  intros Hl. revert fuel room. induction Hl as [e He|t rest ts e Ht Hl IH]; intros fuel room Hen.
  - rewrite obfuscate_end by done. unfold obfuscated. cbn. by destruct (end_image e).
  - destruct (obfuscate_token t rest fuel room Ht Hen) as (fuel' & room' & Hen' & ->).
    rewrite (IH _ _ Hen'). unfold obfuscated. cbn [map concat]. apply after_app.
Qed.

Definition hidden (c : Z) : Prop := nr_isdigit c = false /\ ~ is_quote c.

Lemma mark_hidden : hidden 63.
Proof. split; [done|]. unfold is_quote. lia. Qed.

Lemma token_hidden (t : sql_token) (rest : cstr) : token_ok t rest -> Forall hidden (token_image t).
Proof.
  destruct t as [c|q l|ds|t|t]; intros Ht; simpl; try apply Forall_nil_2; try (rewrite Forall_singleton; exact mark_hidden).
  rewrite Forall_singleton. destruct Ht as (_ & H1 & H2 & Hd & _). split; [done|]. unfold is_quote. lia.
Qed.

Lemma end_hidden (e : sql_end) (out : cstr) : end_image e = Some out -> Forall hidden out /\ (length out <= length (end_text e))%nat.
Proof.
  destruct e; intros [= <-]; (split; [|simpl; lia]); try apply Forall_nil_2; rewrite Forall_singleton; exact mark_hidden.
Qed.

(** The image of a query has no digits and no quotes and is no longer than the query. *)
Lemma image_clean (p : cstr) (ts : list sql_token) (e : sql_end) (out : cstr) :
  lexes p ts e -> obfuscated ts e = Some out ->
  Forall hidden out /\ (length out <= length p)%nat.
Proof.
  intros Hl. revert out. induction Hl as [e He|t rest ts e Ht Hl IH]; intros out E; unfold obfuscated in *; cbn in E.
  - destruct (end_image e) as [o|] eqn:Ee; [|done]. injection E as <-. by apply end_hidden.
  - destruct (end_image e) as [tail|]; [|done]. injection E as <-.
    destruct (IH _ eq_refl) as [Hf Hlen]. rewrite <- app_assoc, (length_app (token_image t)), (length_app (token_text t)).
    split; [apply Forall_app; split; [by eapply token_hidden|done]|].
    enough (length (token_image t) <= length (token_text t))%nat by lia.
    destruct t as [| |ds| |]; simpl; [lia|lia| |lia|lia]. destruct Ht as [Hne _]. destruct ds; [done|simpl; lia].
Qed.

Lemma buffer_for_eq (s : cstr) : strlen s < 2 ^ 31 - 1 -> buffer_for s = Some (strlen s + 1).
Proof.
  intros Hs. pose proof (strlen_le s). unfold buffer_for, nr_strlen. rewrite s32_id by lia.
  by destruct (Z.ltb_spec (strlen s + 1) (2 ^ 31)); [|lia].
Qed.

Lemma obfuscate_eq (raw : cstr) (ts : list sql_token) (e : sql_end) :
  strlen raw < 2 ^ 31 - 1 -> lexes (c_str raw) ts e -> nr_sql_obfuscate (Some raw) = Some <$> obfuscated ts e.
Proof.
  intros Hs Hl. unfold nr_sql_obfuscate. rewrite buffer_for_eq by done. cbn [mbind option_bind].
  rewrite (obfuscate_lexed _ ts e); [done|done|]. unfold enough, strlen. lia.
Qed.

Lemma lexes_string (raw : cstr) : exists ts e, lexes (c_str raw) ts e.
Proof. eapply lexes_total; [apply Nat.lt_succ_diag_r|apply c_str_nonzero]. Qed.

(* @about nr_sql_obfuscate obfuscate_loop *)
(** C16 (safety): an obfuscated query shows no quoted string and no digit.  Every query shorter than
    [2^31 - 1] bytes is a sequence of tokens: plain bytes, strings in single or double quotes with
    backslash escapes and doubled quotes, runs of digits, [--] and C comments, the last of which may
    be cut off by the end.  The result is the same sequence with each string and each run of digits,
    those of an identifier too, replaced by one question mark and the comments left out, so it does
    not depend on what they hold; the function returns unless the query ends in a backslash inside a
    string, where it reads past the terminator.  The result has no digit and no quote and never
    outgrows the buffer.  Nothing else is recognised as a literal: the letters of hexadecimal numbers
    and UUIDs, booleans, dollar quotes and [#] comments are plain bytes, which stay; the shared test
    data of the repository wants otherwise. *)
Theorem nr_sql_obfuscate_hides_literals (raw : cstr) :
  strlen raw < 2 ^ 31 - 1 ->
  (exists ts e, lexes (c_str raw) ts e)
  /\ (forall ts e, lexes (c_str raw) ts e ->
        nr_sql_obfuscate (Some raw) = Some <$> obfuscated ts e
        /\ (nr_sql_obfuscate (Some raw) = None <-> exists q l, e = DanglingEscape q l))
  /\ (forall out, nr_sql_obfuscate (Some raw) = Some (Some out) ->
        Forall hidden out /\ (length out <= length (c_str raw))%nat).
Proof.
  intros Hs. split; [apply lexes_string|]. split.
  - intros ts e Hl. rewrite (obfuscate_eq raw ts e) by done. split; [done|].
    unfold obfuscated. destruct e; cbn; split; try done; try (intros (? & ? & ?); done). by eauto.
  - intros out E. destruct (lexes_string raw) as (ts & e & Hl). rewrite (obfuscate_eq raw ts e) in E by done.
    destruct (obfuscated ts e) as [o|] eqn:Eo; [|done]. injection E as <-. by eapply image_clean.
Qed.

Lemma nr_sql_obfuscate_hides_literals_witness :
  strlen (str "a = 'b\'c' and d = 12 -- e") < 2 ^ 31 - 1
  /\ nr_sql_obfuscate (Some (str "a = 'b\'c' and d = 12 -- e")) = Some (Some (str "a = ? and d = ? "))
  /\ exists ts e, lexes (c_str (str "a = 'b\'c' and d = 12 -- e")) ts e.
Proof.
  assert (strlen (str "a = 'b\'c' and d = 12 -- e") < 2 ^ 31 - 1) as Hs by (vm_compute; reflexivity).
  split; [exact Hs|]. split; [vm_compute; reflexivity|].
  exact (proj1 (nr_sql_obfuscate_hides_literals _ Hs)).
Defined.

(** Queries of [cross_agent_tests/sql_obfuscation/sql_obfuscation.json] for which the data asks for
    something else: the digits of identifiers are to stay; a hexadecimal number, a UUID, a boolean, a
    dollar quote and a [#] comment are to go; in a dialect without backslash escapes the second string
    is to go. *)
Lemma nr_sql_obfuscate_shared_data :
  nr_sql_obfuscate (Some (str "SELECT c11.col1, c22.col2 FROM table c11, table c22 WHERE value='nothing'"))
    = Some (Some (str "SELECT c?.col?, c?.col? FROM table c?, table c? WHERE value=?"))
  /\ nr_sql_obfuscate (Some (str "select * from foo where bar=0x2F and x=5")) = Some (Some (str "select * from foo where bar=?x?F and x=?"))
  /\ nr_sql_obfuscate (Some (str "select * from foo where bar=01234567-89ab-cdef-0123-456789abcdef and x=5"))
    = Some (Some (str "select * from foo where bar=?-?ab-cdef-?-?abcdef and x=?"))
  /\ nr_sql_obfuscate (Some (str "select * from truestory where bar=true and x=FALSE"))
    = Some (Some (str "select * from truestory where bar=true and x=FALSE"))
  /\ nr_sql_obfuscate (Some (str "SELECT foo, bar FROM baz WHERE password='hunter2' # Secret"))
    = Some (Some (str "SELECT foo, bar FROM baz WHERE password=? # Secret"))
  /\ nr_sql_obfuscate (Some (str "WHERE foo = $a$dollar quotes can be $b$nested$b$$a$ and bar = 'baz'"))
    = Some (Some (str "WHERE foo = $a$dollar quotes can be $b$nested$b$$a$ and bar = ?"))
  /\ nr_sql_obfuscate (Some (str "SELECT * FROM table WHERE name='foo\' AND color='blue'"))
    = Some (Some (str "SELECT * FROM table WHERE name=?blue?")).
Proof. split_and!; vm_compute; reflexivity. Qed.

(** Obfuscating twice can change a query again, for a comment between two dashes goes. *)
Lemma nr_sql_obfuscate_not_idempotent :
  nr_sql_obfuscate (Some (str "1-/**/-1")) = Some (Some (str "?--?"))
  /\ nr_sql_obfuscate (Some (str "?--?")) = Some (Some (str "?")).
Proof. split; vm_compute; reflexivity. Qed.

(** ** What the normal form is *)

(** The result without the buffer. *)
Fixpoint normal (state : Z) (p : cstr) : cstr :=
  match p with
  | [] => []
  | c :: p =>
      match state with
      | 0 => c :: normal (if (c =? 105) || (c =? 73) then 1 else 0) p
      | 1 => c :: normal (if (c =? 110) || (c =? 78) then 2 else 0) p
      | 2 => c :: normal (if c =? 40 then 3 else if nr_isspace c then 2 else 0) p
      | 3 =>
          if (c =? 63) || (c =? 44) || nr_isspace c then normal 3 p
          else if c =? 41 then 63 :: 41 :: normal 0 p
          else c :: normal 4 p
      | _ => c :: normal (if c =? 41 then 0 else 4) p
      end
  end.

(** The state after a text. *)
Fixpoint normal_state (state : Z) (p : cstr) : Z :=
  match p with
  | [] => state
  | c :: p =>
      normal_state
        match state with
        | 0 => if (c =? 105) || (c =? 73) then 1 else 0
        | 1 => if (c =? 110) || (c =? 78) then 2 else 0
        | 2 => if c =? 40 then 3 else if nr_isspace c then 2 else 0
        | 3 => if (c =? 63) || (c =? 44) || nr_isspace c then 3 else if c =? 41 then 0 else 4
        | _ => if c =? 41 then 0 else 4
        end p
  end.

(** A computation that writes [out] into [room] bytes with a terminator. *)
Definition fits (out : cstr) (room : Z) : option cstr :=
  if Z.of_nat (length out) <? room then Some out else None.

Lemma emit_fits (c : Z) (room : Z) (out : cstr) (k : Z -> option cstr) :
  k (room - 1) = fits out (room - 1) -> emit c room k = fits (c :: out) room.
Proof.
  intros Hk. unfold emit. rewrite Hk. unfold fits. simpl length.
  destruct (Z.ltb_spec 0 room), (Z.ltb_spec (Z.of_nat (length out)) (room - 1)),
    (Z.ltb_spec (Z.of_nat (S (length out))) room); try lia; done.
Qed.

(** Case analysis on one of the five states. *)
Ltac state_cases H := destruct H as [-> | [-> | [-> | [-> | ->]]]]; cbn [normalize_loop normal normal_state].

Definition is_state (state : Z) : Prop := state = 0 \/ state = 1 \/ state = 2 \/ state = 3 \/ state = 4.

Lemma normalize_fits (p : cstr) (state room : Z) :
  is_state state -> normalize_loop state p room = fits (normal state p) room.
Proof.
  revert state room. induction p as [|c p IH]; intros state room Hs; [done|].
  state_cases Hs; chars; try (apply emit_fits, IH; unfold is_state; repeat case_if; lia).
  destruct ((c =? 63) || (c =? 44) || nr_isspace c); [by apply IH; unfold is_state; lia|].
  destruct (c =? 41); [do 2 apply emit_fits|apply emit_fits]; apply IH; unfold is_state; lia.
Qed.

Lemma normal_app (a p : cstr) (state : Z) :
  is_state state -> normal state (a ++ p) = normal state a ++ normal (normal_state state a) p.
Proof.
  revert state. induction a as [|c a IH]; intros state Hs; [done|]. cbn [app]. unfold is_state in *.
  state_cases Hs; try (cbn [app]; f_equal; apply IH; repeat case_if; lia).
  destruct ((c =? 63) || (c =? 44) || nr_isspace c); [apply IH; lia|].
  destruct (c =? 41); cbn [app]; do 2 f_equal; apply IH; lia.
Qed.

(** No list without an element, written [()]. *)
Definition no_empty_list (p : cstr) : Prop := forall a b, p <> a ++ 40 :: 41 :: b.

Lemma no_empty_cons (c : Z) (p : cstr) : no_empty_list (c :: p) -> no_empty_list p.
Proof. intros Hn a b ->. by apply (Hn (c :: a) b). Qed.

Lemma no_empty_head (p : cstr) : no_empty_list (40 :: p) -> head p <> Some 41.
Proof. intros Hn E. destruct p as [|x p]; [done|]. injection E as ->. by apply (Hn [] p). Qed.

(** Only a list closed at once makes the text longer. *)
Definition closes (state : Z) (p : cstr) : nat :=
  if (state =? 3) && bool_decide (head p = Some 41) then 1 else 0.

Lemma normal_length (p : cstr) (state : Z) :
  is_state state -> no_empty_list p -> (length (normal state p) <= length p + closes state p)%nat.
Proof.
  revert state. induction p as [|c p IH]; intros state Hs Hn; [simpl; lia|].
  pose proof (no_empty_cons c p Hn) as Hp. unfold is_state in *.
  assert (forall (b : bool) st st', (if b then st else st') <> 3 -> is_state (if b then st else st') ->
            (length (normal (if b then st else st') p) <= length p)%nat) as IH'.
  { intros b st st' H3 Hst. specialize (IH _ Hst Hp). unfold closes in IH.
    destruct (Z.eqb_spec (if b then st else st') 3); [done|]. simpl in IH. lia. }
  assert (length (normal 3 p) <= length p + closes 3 p)%nat as IH3 by (apply IH; [lia|done]).
  unfold is_state in *. state_cases Hs; unfold closes; cbn [length head Z.eqb andb].
  1,2,5: enough (forall (b : bool) st st', st <> 3 -> st' <> 3 -> is_state st -> is_state st' ->
           (length (normal (if b then st else st') p) <= length p)%nat) as E;
         [rewrite Nat.add_0_r; apply le_n_S, E; unfold is_state; lia
         |intros [] st st' ? ? ? ?; [apply (IH' true st st')|apply (IH' false st st')]; done].
  - destruct (Z.eqb_spec c 40) as [->|].
    + apply no_empty_head in Hn. unfold closes in IH3. rewrite bool_decide_false in IH3 by done. simpl in *. lia.
    + rewrite Nat.add_0_r. apply le_n_S, IH'; case_if; unfold is_state; lia.
  - pose proof (IH' true 0 0). pose proof (IH' true 4 4). unfold is_state in *. simpl in *.
    destruct ((c =? 63) || (c =? 44) || nr_isspace c); [unfold closes in IH3; simpl in IH3; case_bool_decide; lia|].
    destruct (Z.eqb_spec c 41) as [->|]; cbn [length]; [rewrite bool_decide_true by done|]; lia.
Qed.

Lemma normal_idempotent (p : cstr) (state : Z) : is_state state -> normal state (normal state p) = normal state p.
Proof.
  unfold is_state. revert state. induction p as [|c p IH]; intros state Hs; [done|].
  state_cases Hs; try (f_equal; apply IH; repeat case_if; lia).
  destruct ((c =? 63) || (c =? 44) || nr_isspace c) eqn:E; [apply IH; lia|].
  destruct (c =? 41) eqn:E2; cbn [normal]; [|rewrite E, E2; f_equal; apply IH; lia].
  simpl. do 2 f_equal. apply IH; lia.
Qed.

(** A list of question marks: only these, commas and white space before the closing parenthesis. *)
Definition marks (items : cstr) : Prop := Forall (fun c => (c =? 63) || (c =? 44) || nr_isspace c = true) items.

Lemma normal_marks (items b : cstr) : marks items -> normal 3 (items ++ 41 :: b) = 63 :: 41 :: normal 0 b.
Proof. induction 1 as [|c items Hc Hi IH]; cbn [app normal]; [done|by rewrite Hc]. Qed.

Lemma normal_nonzero (p : cstr) (state : Z) : is_state state -> nonzero p -> nonzero (normal state p).
Proof.
  unfold is_state, nonzero. intros Hs Hp. revert state Hs. induction Hp as [|c p Hc Hp IH]; intros state Hs; [constructor|].
  state_cases Hs; try (constructor; [done|]; apply IH; repeat case_if; lia).
  destruct ((c =? 63) || (c =? 44) || nr_isspace c); [apply IH; lia|].
  destruct (c =? 41); repeat constructor; try done; apply IH; lia.
Qed.

Lemma normalize_eq (s : cstr) :
  strlen s < 2 ^ 31 - 1 -> c_str s <> [] ->
  nr_sql_normalize (Some s)
  = (if bool_decide (length (normal 0 (c_str s)) <= length (c_str s))%nat then Some (Some (normal 0 (c_str s))) else None).
Proof.
  intros Hs Hne. unfold nr_sql_normalize.
  replace (byte_at s 0 =? 0) with false.
  2:{ unfold byte_at. destruct s as [|c s]; [done|]. simpl in *. by destruct (Z.eqb_spec c 0). }
  rewrite buffer_for_eq by done. cbn [mbind option_bind]. rewrite normalize_fits by (by left).
  unfold fits, strlen. case_bool_decide; destruct (Z.ltb_spec (Z.of_nat (length (normal 0 (c_str s)))) (Z.of_nat (length (c_str s)) + 1));
    try lia; done.
Qed.

(* @about nr_sql_normalize normalize_loop *)
(** C37 (safety): the normal form of a query, which identifies slow queries.  The function returns exactly
    when the normal form is not longer than the query, which is so for every query without the text
    [()]; with one, as in [IN ()], it writes past the end of its buffer.  The normal form is its own
    normal form.  Two queries that differ only in the length of a list of question marks after [IN]
    have the same normal form. *)
Theorem nr_sql_normalize_bounds (s : cstr) :
  strlen s < 2 ^ 31 - 1 -> c_str s <> [] ->
  nr_sql_normalize (Some s)
  = (if bool_decide (length (normal 0 (c_str s)) <= length (c_str s))%nat then Some (Some (normal 0 (c_str s))) else None)
  /\ (no_empty_list (c_str s) -> nr_sql_normalize (Some s) <> None)
  /\ (forall out, nr_sql_normalize (Some s) = Some (Some out) -> nr_sql_normalize (Some out) = Some (Some out))
  /\ (forall a b items items', c_str s = a ++ items ++ 41 :: b -> normal_state 0 a = 3 -> marks items -> marks items' ->
        normal 0 (c_str s) = normal 0 (a ++ items' ++ 41 :: b)).
Proof.
  intros Hs Hne. rewrite normalize_eq by done. split; [done|]. split; [|split].
  - intros Hn. pose proof (normal_length (c_str s) 0 (or_introl eq_refl) Hn) as Hl.
    rewrite bool_decide_true; [done|]. unfold closes in Hl. simpl in Hl. lia.
  - intros out E. case_bool_decide as Hl; [|done]. injection E as <-.
    pose proof (normal_nonzero (c_str s) 0 (or_introl eq_refl) (c_str_nonzero s)) as Hz. pose proof (c_str_id _ Hz) as Ec.
    rewrite normalize_eq; rewrite ?Ec, ?normal_idempotent by (by left); [by rewrite bool_decide_true| |].
    + unfold strlen in *. rewrite Ec. lia.
    + by destruct (c_str s).
  - intros a b items items' E Ha Hi Hi'. rewrite E, !(normal_app a), Ha, !normal_marks by (done || by left). done.
Qed.

Lemma nr_sql_normalize_bounds_witness :
  (strlen (str "a in (?,?)") < 2 ^ 31 - 1 /\ c_str (str "a in (?,?)") <> [])
  /\ nr_sql_normalize (Some (str "a in (?,?)")) = Some (Some (str "a in (?)"))
  /\ normal 0 (c_str (str "a in (?,?)")) = normal 0 (str "a in (" ++ str "?, ?, ?" ++ str ")").
Proof.
  assert (strlen (str "a in (?,?)") < 2 ^ 31 - 1) as Hs by (vm_compute; reflexivity).
  assert (c_str (str "a in (?,?)") <> []) as Hne by (vm_compute; discriminate).
  split; [split; [exact Hs|exact Hne]|]. split; [vm_compute; reflexivity|].
  apply (proj2 (proj2 (proj2 (nr_sql_normalize_bounds _ Hs Hne))) (str "a in (") [] (str "?,?") (str "?, ?, ?"));
    [reflexivity|reflexivity|vm_compute; repeat constructor|vm_compute; repeat constructor].
Defined.

(** The buffer is one byte short for an empty list. *)
Lemma nr_sql_normalize_overflows : nr_sql_normalize (Some (str "in()")) = None.
Proof. vm_compute. reflexivity. Qed.

(** ** Finding the table *)

(** A pointer into a query: what is left of it at a place. *)
Definition within (sql x : cstr) : Prop := x `suffix_of` sql.

(** Queries whose length is an [int]. *)
Definition query (sql : cstr) : Prop := nonzero sql /\ Z.of_nat (length sql) < 2 ^ 31.

Lemma query_suffix (sql x : cstr) : query sql -> within sql x -> query x.
Proof. intros [Hn Hl] [a ->]. apply nonzero_app in Hn as [_ Hn]. rewrite length_app in Hl. split; [done|lia]. Qed.

Lemma within_drop (sql x : cstr) (n : nat) : within sql x -> within sql (drop n x).
Proof. intros [a ->]. exists (a ++ take n x). by rewrite <- app_assoc, take_drop. Qed.

Lemma strspn_eq (x set : cstr) : query x -> nr_strspn x set = span_of (fun c => existsb (Z.eqb c) set) x.
Proof.
  intros [Hn Hl]. unfold nr_strspn. rewrite c_str_id by done. apply s32_id.
  pose proof (span_of_bounds (fun c => existsb (Z.eqb c) set) x). lia.
Qed.

Lemma strcspn_eq (x set : cstr) : query x -> nr_strcspn x set = span_of (fun c => negb (existsb (Z.eqb c) set)) x.
Proof.
  intros [Hn Hl]. unfold nr_strcspn. rewrite c_str_id by done. apply s32_id.
  pose proof (span_of_bounds (fun c => negb (existsb (Z.eqb c) set)) x). lia.
Qed.

Lemma advance_run (x : cstr) (n : Z) : 0 <= n <= Z.of_nat (length x) -> advance x n = Some (drop (Z.to_nat n) x).
Proof. intros Hn. unfold advance. by destruct (Z.leb_spec 0 n), (Z.leb_spec n (Z.of_nat (length x))); try lia. Qed.

(** Whether a pointer is at white space. *)
Definition at_space (x : cstr) : bool := existsb (Z.eqb (byte_at x 0)) NR_SQL_WHITESPACE_CHARS.

Lemma advance_spaces (sql x : cstr) :
  query sql -> within sql x ->
  exists y, advance x (nr_strspn x NR_SQL_WHITESPACE_CHARS) = Some y /\ within sql y
    /\ (length y <= length x)%nat /\ at_space y = false.
Proof.
  intros Hq Hx. pose proof (query_suffix sql x Hq Hx) as Hqx. rewrite strspn_eq by done.
  set (f := fun c => existsb (Z.eqb c) NR_SQL_WHITESPACE_CHARS). pose proof (span_of_bounds f x) as Hb.
  rewrite advance_run by done. eexists. split; [done|]. split; [by apply within_drop|].
  split; [rewrite length_drop; lia|]. destruct (at_space _) eqn:E; [|done].
  destruct x as [|c x]; [done|]. assert (span_of f (c :: x) = Z.of_nat (length (c :: x))) as Hall by (by apply span_of_head).
  unfold at_space in E. rewrite Hall, Nat2Z.id, drop_all in E. done.
Qed.

Lemma comment_end_within (sql s r : cstr) :
  within sql s -> comment_end s = Some r -> within sql r /\ (length r < length s)%nat.
Proof.
  revert r. induction s as [|c s IH]; intros r Hs; [done|]. cbn [comment_end].
  destruct ((c =? chr "*") && (byte_at s 0 =? chr "/")).
  - intros [= <-]. split; [by apply (within_drop sql (c :: s) 2)|]. simpl. rewrite length_drop. lia.
  - intros E. destruct (IH r) as [Hr Hl]; [by apply (within_drop sql (c :: s) 1)|done|]. split; [done|simpl; lia].
Qed.

(** The result of skipping: NULL, or a place behind that is not at white space. *)
Definition skipped (sql x : cstr) (r : option cstr) : Prop :=
  match r with
  | None => True
  | Some y => within sql y /\ (length y <= length x)%nat /\ at_space y = false
  end.

Lemma comments_loop_spec (sql s : cstr) (fuel : nat) :
  query sql -> within sql s -> at_space s = false -> (length s < fuel)%nat ->
  exists r, comments_loop fuel s = Some r /\ skipped sql s r.
Proof.
  intros Hq. revert s. induction fuel as [|fuel IH]; intros s Hs Ha Hf; [lia|]. cbn [comments_loop].
  destruct ((byte_at s 0 =? chr "/") && (byte_at s 1 =? chr "*")); [|by eexists].
  destruct (comment_end (drop 2 s)) as [e|] eqn:E; [|by exists None].
  apply (comment_end_within sql) in E as [He Hl]; [|by apply within_drop]. rewrite length_drop in Hl.
  destruct (advance_spaces sql e Hq He) as (y & -> & Hy & Hly & Hay). cbn [mbind option_bind].
  destruct (IH y) as (r & -> & Hr); [done|done|lia|]. exists r. split; [done|].
  destruct r as [r|]; [|done]. destruct Hr as (H1 & H2 & H3). split; [done|]. split; [lia|done].
Qed.

Lemma prefix_spec (sql x : cstr) :
  query sql -> within sql x -> exists r, nr_sql_whitespace_comment_prefix (Some x) = Some r /\ skipped sql x r.
Proof.
  intros Hq Hx. pose proof (query_suffix sql x Hq Hx) as [Hn _]. unfold nr_sql_whitespace_comment_prefix.
  rewrite c_str_id by done. destruct (Z.eqb_spec (byte_at x 0) 0) as [E|].
  { exists (Some x). split; [done|]. split; [done|]. split; [done|]. unfold at_space. by rewrite E. }
  destruct (advance_spaces sql x Hq Hx) as (y & -> & Hy & Hly & Hay). cbn [mbind option_bind].
  destruct (comments_loop_spec sql y (S (length y)) Hq Hy Hay) as (r & -> & Hr); [lia|]. exists r. split; [done|].
  destruct r as [r|]; [|done]. destruct Hr as (H1 & H2 & H3). split; [done|]. split; [lia|done].
Qed.

Lemma strchr_suffix (s r : cstr) (c : Z) : nr_strchr s c = Some r -> r `suffix_of` s.
Proof.
  revert r. induction s as [|x s IH]; intros r; cbn [nr_strchr]; [destruct (c =? 0); [|done]; by intros [= <-]|].
  destruct (x =? c); [by intros [= <-]|]. destruct (x =? 0); [done|]. intros E. by apply suffix_cons_r, IH.
Qed.

(** The end of a word lies behind its start. *)
Lemma advance_word (sql y : cstr) :
  query sql -> within sql y -> at_space y = false -> (byte_at y 0 =? 39) || (byte_at y 0 =? 34) = false -> y <> [] ->
  exists z, advance y (nr_strcspn y (NR_SQL_WHITESPACE_CHARS ++ [39; 34])) = Some z /\ within sql z
    /\ (length z < length y)%nat.
Proof.
  intros Hq Hy Ha Hquote Hne. rewrite strcspn_eq by (by eapply query_suffix).
  set (f := fun c => negb _). pose proof (span_of_bounds f y). rewrite advance_run by done.
  eexists. split; [done|]. split; [by apply within_drop|]. rewrite length_drop.
  assert (span_of f y <> 0) as Hs; [|destruct y; [done|simpl in *; lia]].
  intros E. apply span_of_zero in E as [?|E]; [done|]. unfold f in E. rewrite existsb_app in E.
  unfold at_space in Ha. rewrite Ha in E. cbn [existsb orb] in E. rewrite orb_false_r, Hquote in E. done.
Qed.

(** A place in the query, or NULL. *)
Definition place (sql : cstr) (r : option cstr) : Prop := from_option (within sql) True r.

Lemma keyword_loop_spec (sql x : cstr) (opflag : nr_sql_parse_type_t) (fuel : nat) :
  query sql -> within sql x -> (length x < fuel)%nat ->
  exists r, keyword_loop fuel opflag x = Some r /\ place sql r.
Proof.
  intros Hq. revert x. induction fuel as [|fuel IH]; intros x Hx Hf; [lia|]. cbn [keyword_loop].
  destruct (Z.eqb_spec (byte_at x 0) 0) as [|Hx0]; [by exists (Some x)|].
  assert (1 <= length x)%nat by (destruct x; [done|simpl; lia]).
  destruct (prefix_spec sql x Hq Hx) as (y & -> & Hy). cbn [mbind option_bind].
  destruct y as [y|]; [|by exists None]. destruct Hy as (Hy & Hl & Ha).
  destruct ((byte_at y 0 =? 39) || (byte_at y 0 =? 34)) eqn:Equ.
  - assert (y <> []) as Hne by (intros ->; done). unfold nr_sql_parse_over.
    destruct (nr_strchr (drop 1 y) (byte_at y 0)) as [z|] eqn:Ez; cbn [fmap option_fmap option_map]; [|by exists None].
    apply strchr_suffix in Ez. assert (length z <= length (drop 1 y))%nat by (by apply suffix_length).
    apply IH; [|rewrite length_drop in *; destruct y; [done|simpl in *; lia]].
    apply within_drop. unfold within. etrans; [exact Ez|]. by apply (within_drop sql y 1).
  - destruct (bool_decide _ && keyword_at (str "from") y); [by exists (Some (drop 4 y)); split; [|apply within_drop]|].
    destruct (bool_decide _ && keyword_at (str "into") y); [by exists (Some (drop 4 y)); split; [|apply within_drop]|].
    destruct (decide (y = [])) as [->|Hne].
    + cbn [mbind option_bind]. destruct fuel as [|fuel]; [lia|]. by exists (Some []).
    + destruct (advance_word sql y Hq Hy Ha Equ Hne) as (z & -> & Hz & Hlz). cbn [mbind option_bind].
      apply IH; [done|lia].
Qed.

(** The bytes a name is made of. *)
Definition name_byte (c : Z) : bool := negb (existsb (Z.eqb c) (NR_SQL_DELIMITER_CHARS ++ str "]});,*./")).

Lemma name_loop_spec (sql x : cstr) (fuel : nat) :
  query sql -> within sql x -> (length x < fuel)%nat ->
  exists start, name_loop fuel x = Some (start, span_of name_byte start) /\ within sql start.
Proof.
  intros Hq. revert x. induction fuel as [|fuel IH]; intros x Hx Hf; [lia|]. cbn [name_loop].
  set (y := if existsb _ _ then drop 1 x else x).
  assert (within sql y /\ (length y <= length x)%nat) as [Hy Hl].
  { unfold y. destruct (existsb _ _); [|done]. split; [by apply within_drop|rewrite length_drop; lia]. }
  clearbody y. pose proof (query_suffix sql y Hq Hy) as Hqy. rewrite strcspn_eq by done. fold name_byte.
  change (fun c => negb (existsb (Z.eqb c) (NR_SQL_DELIMITER_CHARS ++ str "]});,*./"))) with name_byte.
  pose proof (span_of_bounds name_byte y). rewrite advance_run by done. cbn [mbind option_bind].
  set (z := drop _ y). assert (within sql z) as Hz by (by apply within_drop).
  pose proof (query_suffix sql z Hq Hz). rewrite strspn_eq by done. set (g := fun c => existsb _ _).
  pose proof (span_of_bounds g z). rewrite advance_run by done. cbn [mbind option_bind].
  set (u := drop _ z). destruct (Z.eqb_spec (byte_at u 0) (chr ".")) as [E|]; [|by exists y].
  assert (u <> []) as Hu by (intros Hu; by rewrite Hu in E).
  assert (length u <= length y)%nat by (unfold u, z; rewrite !length_drop; lia).
  apply IH; [by do 2 apply within_drop|rewrite length_drop; destruct u; [done|simpl in *; lia]].
Qed.

(** A table: part of the query without delimiters, or the text for a subquery. *)
Definition table_ok (sql : cstr) (t : option cstr) : Prop :=
  match t with
  | None => True
  | Some t => t = str "(subquery)" \/
      (t <> [] /\ Forall (fun c => name_byte c = true) t /\ exists a b, sql = a ++ t ++ b)
  end.

Lemma table_name_spec (sql x : cstr) :
  query sql -> within sql x -> exists t, table_name x = Some t /\ table_ok sql t.
Proof.
  intros Hq Hx. unfold table_name.
  destruct (name_loop_spec sql x (S (length x)) Hq Hx) as (start & -> & Hs); [lia|]. cbn [mbind option_bind].
  pose proof (span_of_bounds name_byte start). destruct (Z.leb_spec (span_of name_byte start) 0); [by exists None|].
  eexists. split; [done|]. right. pose proof (query_suffix sql start Hq Hs) as [Hn _].
  unfold nr_strndup. destruct (Z.eqb_spec (span_of name_byte start) 0); [lia|]. rewrite c_str_id by done.
  split; [|split; [apply span_of_take|]].
  - intros E. apply (f_equal length) in E. rewrite length_take in E. simpl in E. lia.
  - destruct Hs as [a ->]. exists a, (drop (Z.to_nat (span_of name_byte start)) start). by rewrite take_drop.
Qed.

Lemma find_table_spec (sql x : cstr) :
  query sql -> within sql x -> exists t, find_table x = Some t /\ table_ok sql t.
Proof.
  intros Hq Hx. unfold find_table. destruct (prefix_spec sql x Hq Hx) as (y & -> & Hy). cbn [mbind option_bind].
  destruct y as [y|]; [|by exists None]. destruct Hy as (Hy & _ & _).
  destruct (byte_at y 0 =? chr "("); [|by apply table_name_spec].
  assert (within sql (drop 1 y)) as Hd by (by apply within_drop).
  destruct (existsb _ _); [by apply table_name_spec|].
  rewrite strcspn_eq by (by eapply query_suffix). set (f := fun c => negb _).
  pose proof (span_of_bounds f (drop 1 y)). rewrite advance_run by done. cbn [mbind option_bind].
  destruct (_ || _); [by apply table_name_spec|]. eexists. split; [done|]. by left.
Qed.

Lemma find_operation_elem (l : list (cstr * nr_sql_parse_type_t)) (sql opname : cstr) (opflag : nr_sql_parse_type_t) :
  find_operation l sql = Some (opname, opflag) ->
  (opname, opflag) ∈ l /\ nr_strnicmp (Some opname) (Some sql) (Z.of_nat (length opname)) = 0.
Proof.
  induction l as [|[o g] l IH]; cbn [find_operation]; [done|].
  destruct (Z.eqb_spec 0 (nr_strnicmp (Some o) (Some sql) (Z.of_nat (length o)))) as [E|].
  - intros [= -> ->]. split; [by left|done].
  - intros E. destruct (IH E). split; [by right|done].
Qed.

(* @about nr_sql_get_operation_and_table keyword_loop name_loop comments_loop find_table *)
(** C36 (termination): the operation and the table of a query are found by scans that always end and never
    read past the terminator, whatever the query.  The operation is one of the five known ones, and
    the first word after comments and white space starts with it, in any case; there is no table
    without an operation; and a table is a part of the query that is not empty and holds no
    delimiter, or the text for a subquery. *)
Theorem nr_sql_get_operation_and_table_returns (sql : cstr) :
  strlen sql < 2 ^ 31 ->
  exists operation table, nr_sql_get_operation_and_table (Some sql) true true = Some (operation, table)
    /\ table_ok (c_str sql) table
    /\ (operation = None -> table = None)
    /\ (forall o, operation = Some o -> o ∈ map fst operations
          /\ exists x, nr_sql_whitespace_comment_prefix (Some sql) = Some (Some x) /\ within (c_str sql) x
             /\ nr_strnicmp (Some o) (Some x) (Z.of_nat (length o)) = 0).
Proof.
  intros Hs. assert (query (c_str sql)) as Hq by (split; [apply c_str_nonzero|done]).
  assert (nr_sql_whitespace_comment_prefix (Some sql) = nr_sql_whitespace_comment_prefix (Some (c_str sql))) as Ep.
  { unfold nr_sql_whitespace_comment_prefix. by rewrite c_str_idemp. }
  unfold nr_sql_get_operation_and_table. cbn [andb negb]. rewrite Ep.
  destruct (prefix_spec (c_str sql) (c_str sql) Hq) as (x & E & Hx); [by exists []|]. rewrite E. cbn [mbind option_bind].
  destruct x as [x|]; [|by exists None, None]. destruct Hx as (Hx & _ & _).
  destruct (find_operation operations x) as [[opname opflag]|] eqn:Eo; [|by exists None, None].
  apply find_operation_elem in Eo as [Hin Hcmp].
  assert (opname ∈ map fst operations) as Hin' by (apply list_elem_of_fmap; by exists (opname, opflag)).
  assert (exists y, (if bool_decide (opflag = NR_SQL_PARSE_UPDATE)
                     then Some <$> advance x (nr_strcspn x NR_SQL_WHITESPACE_CHARS)
                     else keyword_loop (S (length x)) opflag x) = Some y /\ place (c_str sql) y) as (y & -> & Hy).
  { case_bool_decide; [|by apply keyword_loop_spec; [| |lia]].
    rewrite strcspn_eq by (by eapply query_suffix). set (f := fun c => negb _). pose proof (span_of_bounds f x).
    rewrite advance_run by done. eexists. split; [done|]. by apply within_drop. }
  cbn [mbind option_bind]. destruct y as [y|]; [|exists (Some opname), None; naive_solver].
  destruct (find_table_spec (c_str sql) y Hq Hy) as (t & -> & Ht). cbn [mbind option_bind].
  exists (Some opname), t. naive_solver.
Qed.

Lemma nr_sql_get_operation_and_table_returns_witness :
  strlen (str "SELECT * FROM /* x */ `db`.`tab` WHERE 'from x'") < 2 ^ 31
  /\ nr_sql_get_operation_and_table (Some (str "SELECT * FROM /* x */ `db`.`tab` WHERE 'from x'")) true true
     = Some (Some (str "select"), Some (str "tab"))
  /\ exists operation table,
       nr_sql_get_operation_and_table (Some (str "SELECT * FROM /* x */ `db`.`tab` WHERE 'from x'")) true true
       = Some (operation, table).
Proof.
  assert (strlen (str "SELECT * FROM /* x */ `db`.`tab` WHERE 'from x'") < 2 ^ 31) as Hs by (vm_compute; reflexivity).
  split; [exact Hs|]. split; [vm_compute; reflexivity|].
  destruct (nr_sql_get_operation_and_table_returns _ Hs) as (o & t & E & _). exists o, t. exact E.
Defined.
