(* ===== verification/Datastore.v ===== *)
(** * Datastores

    [nr_datastore.c] and [nr_datastore_instance.c]: the names of datastores, and the host, the port
    and the database of one. *)

From S2P Require Import Prelude Strings.

(* @map nr_datastore.h:15-31 nr_datastore_t *)
Inductive nr_datastore_t : Type :=
  | NR_DATASTORE_OTHER
  | NR_DATASTORE_MONGODB
  | NR_DATASTORE_MEMCACHE
  | NR_DATASTORE_MYSQL
  | NR_DATASTORE_REDIS
  | NR_DATASTORE_MSSQL
  | NR_DATASTORE_ORACLE
  | NR_DATASTORE_POSTGRES
  | NR_DATASTORE_SQLITE
  | NR_DATASTORE_FIREBIRD
  | NR_DATASTORE_ODBC
  | NR_DATASTORE_SYBASE
  | NR_DATASTORE_INFORMIX
  | NR_DATASTORE_PDO
  | NR_DATASTORE_MUST_BE_LAST.

#[export] Instance nr_datastore_t_eq_dec : EqDecision nr_datastore_t.
Proof. solve_decision. Defined.

(* @map nr_datastore_instance.h:4-8 nr_datastore_instance_t *)
Record nr_datastore_instance_t : Type := mk_instance {
  di_host : option cstr;
  di_port_path_or_id : option cstr;
  di_database_name : option cstr;
}.

(** The product, its name, the name in lower case, whether it speaks SQL. *)
(* @map nr_datastore_private.h:15-31 datastore_mappings *)
Definition datastore_mappings : list (nr_datastore_t * option cstr * option cstr * bool) :=
  [(NR_DATASTORE_OTHER, None, None, false);
   (NR_DATASTORE_MONGODB, Some (str "MongoDB"), Some (str "mongodb"), false);
   (NR_DATASTORE_MEMCACHE, Some (str "Memcached"), Some (str "memcached"), false);
   (NR_DATASTORE_MYSQL, Some (str "MySQL"), Some (str "mysql"), true);
   (NR_DATASTORE_REDIS, Some (str "Redis"), Some (str "redis"), false);
   (NR_DATASTORE_MSSQL, Some (str "MSSQL"), Some (str "mssql"), true);
   (NR_DATASTORE_ORACLE, Some (str "Oracle"), Some (str "oracle"), true);
   (NR_DATASTORE_POSTGRES, Some (str "Postgres"), Some (str "postgres"), true);
   (NR_DATASTORE_SQLITE, Some (str "SQLite"), Some (str "sqlite"), true);
   (NR_DATASTORE_FIREBIRD, Some (str "Firebird"), Some (str "firebird"), true);
   (NR_DATASTORE_ODBC, Some (str "ODBC"), Some (str "odbc"), false);
   (NR_DATASTORE_SYBASE, Some (str "Sybase"), Some (str "sybase"), true);
   (NR_DATASTORE_INFORMIX, Some (str "Informix"), Some (str "informix"), true);
   (NR_DATASTORE_PDO, Some (str "PDO"), Some (str "pdo"), false);
   (NR_DATASTORE_MUST_BE_LAST, None, None, false)].

(* @map nr_datastore.c:8-18 nr_datastore_as_string *)
Fixpoint as_string_loop (l : list (nr_datastore_t * option cstr * option cstr * bool)) (ds : nr_datastore_t)
  : option cstr :=
  match l with
  | [] => None
  | (datastore, name, _, _) :: l => if bool_decide (ds = datastore) then name else as_string_loop l ds
  end.

(* @map nr_datastore.c:8-18 nr_datastore_as_string *)
Definition nr_datastore_as_string (ds : nr_datastore_t) : option cstr := as_string_loop datastore_mappings ds.

(* @map nr_datastore.c:30-37 nr_datastore_from_string *)
Fixpoint from_string_loop (l : list (nr_datastore_t * option cstr * option cstr * bool)) (lcstr : option cstr)
  : nr_datastore_t :=
  match l with
  | [] => NR_DATASTORE_OTHER
  | (datastore, _, expected, _) :: l =>
      match expected with
      | Some _ => if 0 =? nr_strcmp expected lcstr then datastore else from_string_loop l lcstr
      | None => from_string_loop l lcstr
      end
  end.

(* @map nr_datastore.c:20-41 nr_datastore_from_string *)
Definition nr_datastore_from_string (str : option cstr) : nr_datastore_t :=
  match str with
  | None => NR_DATASTORE_OTHER
  | Some _ => from_string_loop datastore_mappings (nr_string_to_lowercase str)
  end.

(* @map nr_datastore.c:43-53 nr_datastore_is_sql *)
Fixpoint is_sql_loop (l : list (nr_datastore_t * option cstr * option cstr * bool)) (ds : nr_datastore_t) : bool :=
  match l with
  | [] => false
  | (datastore, _, _, is_sql) :: l => if bool_decide (ds = datastore) then is_sql else is_sql_loop l ds
  end.

(* @map nr_datastore.c:43-53 nr_datastore_is_sql *)
Definition nr_datastore_is_sql (ds : nr_datastore_t) : bool := is_sql_loop datastore_mappings ds.

(* @map nr_datastore_instance.c:49-67 nr_datastore_instance_is_localhost *)
Definition nr_datastore_instance_is_localhost (host : option cstr) : bool :=
  existsb (fun name => 0 =? nr_strcmp host (Some name))
    [str "localhost"; str "127.0.0.1"; str "0.0.0.0"; str "0:0:0:0:0:0:0:1"; str "::1"; str "0:0:0:0:0:0:0:0"; str "::"].

(** [hostname] is what [nr_system_get_hostname] answers. *)
(* @map nr_datastore_instance.c:95-111 nr_datastore_instance_set_host *)
Definition nr_datastore_instance_set_host (instance : option nr_datastore_instance_t) (host : option cstr)
  (hostname : cstr) : option nr_datastore_instance_t :=
  match instance with
  | None => None
  | Some i =>
      let host := if nr_datastore_instance_is_localhost host then hostname
                  else if nr_strempty host then nr_strdup (Some (str "unknown")) else nr_strdup host in
      Some (mk_instance (Some host) (di_port_path_or_id i) (di_database_name i))
  end.

(* @map nr_datastore_instance.c:113-126 nr_datastore_instance_set_port_path_or_id *)
Definition nr_datastore_instance_set_port_path_or_id (instance : option nr_datastore_instance_t)
  (port_path_or_id : option cstr) : option nr_datastore_instance_t :=
  match instance with
  | None => None
  | Some i =>
      let port := if nr_strempty port_path_or_id then nr_strdup (Some (str "unknown")) else nr_strdup port_path_or_id in
      Some (mk_instance (di_host i) (Some port) (di_database_name i))
  end.

(* @map nr_datastore_instance.c:128-140 nr_datastore_instance_set_database_name *)
Definition nr_datastore_instance_set_database_name (instance : option nr_datastore_instance_t)
  (database_name : option cstr) : option nr_datastore_instance_t :=
  match instance with
  | None => None
  | Some i =>
      let name := if nr_strempty database_name then nr_strdup (Some (str "unknown")) else nr_strdup database_name in
      Some (mk_instance (di_host i) (di_port_path_or_id i) (Some name))
  end.

(* @map nr_datastore_instance.c:41-47 nr_datastore_instance_destroy_fields *)
Definition nr_datastore_instance_destroy_fields (instance : option nr_datastore_instance_t)
  : option nr_datastore_instance_t :=
  match instance with
  | None => None
  | Some _ => Some (mk_instance None None None)
  end.

(** ** Names of datastores *)

Lemma strcmp_zero (a b : cstr) : (0 =? nr_strcmp (Some a) (Some b)) = bool_decide (c_str a = c_str b).
Proof.
  destruct (bool_decide_reflect (c_str a = c_str b)) as [E|E].
  - by apply nr_streq_spec in E.
  - destruct (0 =? nr_strcmp (Some a) (Some b)) eqn:E'; [|done]. exfalso. by apply E, nr_streq_spec.
Qed.

Lemma from_string_loop_found l (n : cstr) ds :
  from_string_loop l (Some n) = ds ->
  ds = NR_DATASTORE_OTHER \/ exists name e sql, (ds, name, Some e, sql) ∈ l /\ c_str e = c_str n.
Proof.
  induction l as [|[[[datastore name] [e|]] sql] l IH]; cbn [from_string_loop]; [by left| |].
  - rewrite strcmp_zero. case_bool_decide.
    + intros <-. right. exists name, e, sql. split; [left|done].
    + intros [?|(name' & e' & sql' & Hin & E)]%IH; [by left|right]. exists name', e', sql'. split; [by right|done].
  - intros [?|(name' & e' & sql' & Hin & E)]%IH; [by left|right]. exists name', e', sql'. split; [by right|done].
Qed.

(** The table is the one [nr_datastore_as_string] reads, in lower case. *)
Lemma datastore_mappings_lowercase :
  Forall (fun entry => match entry with
                       | (ds, name, Some e, _) => nr_datastore_as_string ds = name /\ (fun n => map nr_tolower (c_str n)) <$> name = Some (c_str e)
                       | _ => True
                       end) datastore_mappings.
Proof. repeat constructor. Qed.

Lemma c_str_lower (s : cstr) : c_str (map nr_tolower (c_str s)) = map nr_tolower (c_str s).
Proof. apply c_str_id, lower_nonzero, c_str_nonzero. Qed.

(* @about nr_datastore_from_string nr_datastore_as_string datastore_mappings *)
(** C38 (roundtrip): the names of datastores.  A product that is the name of a type, in upper or
    lower case, gives the type; a product that gives a type other than NR_DATASTORE_OTHER is the
    name of that type, in upper or lower case.  The search ends at the first entry with the name
    and no two entries have the same one, so no type hides another. *)
Theorem nr_datastore_string_round_trip (s : cstr) (ds : nr_datastore_t) :
  (forall name, nr_datastore_as_string ds = Some name -> map nr_tolower (c_str s) = map nr_tolower (c_str name) ->
     nr_datastore_from_string (Some s) = ds)
  /\ (nr_datastore_from_string (Some s) = ds -> ds <> NR_DATASTORE_OTHER ->
      exists name, nr_datastore_as_string ds = Some name /\ map nr_tolower (c_str s) = map nr_tolower (c_str name)).
Proof.
  unfold nr_datastore_from_string, nr_string_to_lowercase. cbn [nr_strdup]. split.
  - intros name Hname ->. by destruct ds; vm_compute in Hname; simplify_eq; vm_compute.
  - intros Hds Hother. apply from_string_loop_found in Hds as [?|(name & e & sql & Hin & E)]; [done|].
    pose proof (proj1 (Forall_forall _ _) datastore_mappings_lowercase _ Hin) as [Has Hlow].
    destruct name as [name|]; [|done]. injection Hlow as Hlow. exists name. split; [done|].
    rewrite c_str_lower in E. congruence.
Qed.

Lemma nr_datastore_string_round_trip_witness :
  nr_datastore_from_string (Some (str "PostGres")) = NR_DATASTORE_POSTGRES
  /\ exists name, nr_datastore_as_string NR_DATASTORE_REDIS = Some name
       /\ map nr_tolower (c_str (str "REDIS")) = map nr_tolower (c_str name).
Proof.
  split.
  - apply (proj1 (nr_datastore_string_round_trip (str "PostGres") NR_DATASTORE_POSTGRES) (str "Postgres")); reflexivity.
  - apply (proj2 (nr_datastore_string_round_trip (str "REDIS") NR_DATASTORE_REDIS)); [reflexivity|discriminate].
Defined.
