(* ===== verification/Slowsqls.v ===== *)
(** * Slow queries

    [nr_slowsqls.c]: the slow queries of a transaction.  Queries with the same normal form share an
    entry; when all entries are taken, the one whose slowest query is fastest makes room.  The JSON
    of the parameters is made by [util_object.c], which is a parameter. *)

From S2P Require Import Prelude Strings Hash Time Sql Datastore.

(* @map nr_slowsqls.c:14-25 _nr_slowsql_t *)
Record nr_slowsql_t : Type := mk_slowsql {
  sq_metric_name : option cstr;
  sq_sql_id : Z;
  sq_count : Z;
  sq_total : Z;
  sq_min_time : Z;
  sq_max_time : Z;
  sq_params_json : option cstr;
  sq_sql : option cstr;
}.

(** Of the array the elements in use; [slowsqls_used] is their number. *)
(* @map nr_slowsqls.c:27-31 _nr_slowsqls_t *)
Record nr_slowsqls_t : Type := mk_slowsqls {
  max_slowsqls : Z;
  slowsqls : list nr_slowsql_t;
}.

Definition slowsqls_used (s : nr_slowsqls_t) : Z := Z.of_nat (length (slowsqls s)).

(* @map nr_slowsqls.h:52-74 _nr_slowsqls_params_t *)
Record nr_slowsqls_params_t : Type := mk_slowsqls_params {
  sp_sql : option cstr;
  sp_duration : Z;
  sp_stacktrace_json : option cstr;
  sp_metric_name : option cstr;
  sp_plan_json : option cstr;
  sp_input_query_json : option cstr;
  sp_instance : option nr_datastore_instance_t;
  sp_instance_reporting_enabled : Z;
  sp_database_name_reporting_enabled : Z;
}.

(** [None] when the query is one that cannot be obfuscated or normalised. *)
(* @map nr_slowsqls.c:33-45 nr_sql_id *)
Definition nr_sql_id (sql : option cstr) : option Z :=
  obfuscated ← nr_sql_obfuscate sql;
  match obfuscated with
  | None => Some 0
  | Some _ => nr_sql_normalized_id obfuscated
  end.

(* @map nr_slowsqls.c:47-52 nr_slowsql_id *)
Definition nr_slowsql_id (slow : option nr_slowsql_t) : Z := from_option sq_sql_id 0 slow.
(* @map nr_slowsqls.c:54-59 nr_slowsql_count *)
Definition nr_slowsql_count (slow : option nr_slowsql_t) : Z := from_option sq_count 0 slow.
(* @map nr_slowsqls.c:61-66 nr_slowsql_min *)
Definition nr_slowsql_min (slow : option nr_slowsql_t) : Z := from_option sq_min_time 0 slow.
(* @map nr_slowsqls.c:68-73 nr_slowsql_max *)
Definition nr_slowsql_max (slow : option nr_slowsql_t) : Z := from_option sq_max_time 0 slow.
(* @map nr_slowsqls.c:75-80 nr_slowsql_total *)
Definition nr_slowsql_total (slow : option nr_slowsql_t) : Z := from_option sq_total 0 slow.
(* @map nr_slowsqls.c:82-87 nr_slowsql_metric *)
Definition nr_slowsql_metric (slow : option nr_slowsql_t) : option cstr := slow ≫= sq_metric_name.
(* @map nr_slowsqls.c:89-94 nr_slowsql_query *)
Definition nr_slowsql_query (slow : option nr_slowsql_t) : option cstr := slow ≫= sq_sql.
(* @map nr_slowsqls.c:96-101 nr_slowsql_params *)
Definition nr_slowsql_params (slow : option nr_slowsql_t) : option cstr := slow ≫= sq_params_json.

(* @map nr_slowsqls.c:103-122 nr_slowsql_dup *)
Definition nr_slowsql_dup (orig : nr_slowsql_t) : nr_slowsql_t :=
  mk_slowsql (Some (nr_strdup (sq_metric_name orig))) (sq_sql_id orig) (sq_count orig) (sq_total orig)
    (sq_min_time orig) (sq_max_time orig) (Some (nr_strdup (sq_params_json orig))) (Some (nr_strdup (sq_sql orig))).

(** The count is an [int]: it fails when it overflows. *)
(* @map nr_slowsqls.c:124-145 nr_slowsql_merge *)
Definition nr_slowsql_merge (dest src : nr_slowsql_t) : option nr_slowsql_t :=
  let count := sq_count dest + sq_count src in
  if 2 ^ 31 <=? count then None
  else
    let total := u64 (sq_total dest + sq_total src) in
    let min_time := if sq_min_time src <? sq_min_time dest then sq_min_time src else sq_min_time dest in
    Some (if sq_max_time dest <? sq_max_time src then
            mk_slowsql (Some (nr_strdup (sq_metric_name src))) (sq_sql_id dest) count total min_time
              (sq_max_time src) (Some (nr_strdup (sq_params_json src))) (Some (nr_strdup (sq_sql src)))
          else
            mk_slowsql (sq_metric_name dest) (sq_sql_id dest) count total min_time (sq_max_time dest)
              (sq_params_json dest) (sq_sql dest)).

(** [nr_zalloc] gives the memory or ends the process. *)
(* @map nr_slowsqls.c:182-196 nr_slowsqls_create *)
Definition nr_slowsqls_create (max_slowsqls : Z) : option nr_slowsqls_t :=
  if max_slowsqls <=? 0 then None else Some (mk_slowsqls max_slowsqls []).

(* @map nr_slowsqls.c:198-203 nr_slowsqls_saved *)
Definition nr_slowsqls_saved (s : option nr_slowsqls_t) : Z := from_option slowsqls_used 0 s.

(* @map nr_slowsqls.c:205-216 nr_slowsqls_at *)
Definition nr_slowsqls_at (s : option nr_slowsqls_t) (i : Z) : option nr_slowsql_t :=
  match s with
  | None => None
  | Some s => if (i <? 0) || (slowsqls_used s <=? i) then None else slowsqls s !! Z.to_nat i
  end.

(** The first entry with the same id, merged; [None] when there is none. *)
(* @map nr_slowsqls.c:231-236 nr_slowsqls_add_internal *)
Fixpoint merge_first (l : list nr_slowsql_t) (slow : nr_slowsql_t) : option (option (list nr_slowsql_t)) :=
  match l with
  | [] => Some None
  | x :: l =>
      if sq_sql_id slow =? sq_sql_id x then x ← nr_slowsql_merge x slow; Some (Some (x :: l))
      else r ← merge_first l slow; Some (option_map (cons x) r)
  end.

(** The index and the value of the smallest maximum among [l], which starts at index [i]. *)
(* @map nr_slowsqls.c:248-253 nr_slowsqls_add_internal *)
Fixpoint smallest_max (l : list nr_slowsql_t) (i smallest_max_idx smallest_max_time : Z) : Z * Z :=
  match l with
  | [] => (smallest_max_idx, smallest_max_time)
  | x :: l =>
      if sq_max_time x <? smallest_max_time then smallest_max l (i + 1) i (sq_max_time x)
      else smallest_max l (i + 1) smallest_max_idx smallest_max_time
  end.

(* @map nr_slowsqls.c:218-262 nr_slowsqls_add_internal *)
Definition nr_slowsqls_add_internal (s : option nr_slowsqls_t) (slow : option nr_slowsql_t) : option (option nr_slowsqls_t) :=
  match s, slow with
  | Some s, Some slow =>
      merged ← merge_first (slowsqls s) slow;
      match merged with
      | Some l => Some (Some (mk_slowsqls (max_slowsqls s) l))
      | None =>
          if slowsqls_used s <? max_slowsqls s then
            Some (Some (mk_slowsqls (max_slowsqls s) (slowsqls s ++ [nr_slowsql_dup slow])))
          else
            first ← slowsqls s !! 0%nat;
            let '(idx, time) := smallest_max (drop 1 (slowsqls s)) 1 0 (sq_max_time first) in
            if sq_max_time slow <? time then Some (Some s)
            else Some (Some (mk_slowsqls (max_slowsqls s) (<[Z.to_nat idx := nr_slowsql_dup slow]> (slowsqls s))))
      end
  | _, _ => Some s
  end.

(** JSON objects are not modelled; [json_of] makes the text of one from its keys and values, [true]
    for a value that is JSON itself. *)
Definition json_field : Type := cstr * (bool * option cstr).

(** A key with a value unless the value is not wanted. *)
Definition field_if (wanted : bool) (key : cstr) (json : bool) (value : option cstr) : list json_field :=
  if wanted then [(key, (json, value))] else [].

Section Add.
Context (json_of : list json_field -> option cstr).

(* @map nr_slowsqls.c:264-298 nr_slowsqls_create_params_json *)
Definition nr_slowsqls_create_params_json (params : nr_slowsqls_params_t) : option cstr :=
  json_of
    (field_if (match sp_plan_json params with Some p => negb (byte_at p 0 =? 0) | None => false end)
       (str "explain_plan") true (sp_plan_json params)
     ++ field_if (bool_decide (is_Some (sp_stacktrace_json params))) (str "backtrace") true (sp_stacktrace_json params)
     ++ field_if (bool_decide (is_Some (sp_input_query_json params))) (str "input_query") true (sp_input_query_json params)
     ++ match sp_instance params with
        | None => []
        | Some i =>
            field_if (negb (sp_instance_reporting_enabled params =? 0)) (str "host") false (di_host i)
            ++ field_if (negb (sp_instance_reporting_enabled params =? 0)) (str "port_path_or_id") false (di_port_path_or_id i)
            ++ field_if (negb (sp_database_name_reporting_enabled params =? 0)) (str "database_name") false (di_database_name i)
        end).

(* @map nr_slowsqls.c:300-350 nr_slowsqls_add *)
Definition nr_slowsqls_add (s : option nr_slowsqls_t) (params : option nr_slowsqls_params_t) : option (option nr_slowsqls_t) :=
  match s, params with
  | Some _, Some p =>
      match sp_sql p, sp_stacktrace_json p, sp_metric_name p with
      | Some _, Some _, Some _ =>
          if sp_duration p =? 0 then Some s
          else
            id ← nr_sql_id (sp_sql p);
            if id =? 0 then Some s
            else
              nr_slowsqls_add_internal s
                (Some (mk_slowsql (Some (nr_strdup (sp_metric_name p))) id 1 (sp_duration p) (sp_duration p)
                         (sp_duration p) (nr_slowsqls_create_params_json p) (Some (nr_strdup (sp_sql p)))))
      | _, _, _ => Some s
      end
  | _, _ => Some s
  end.
End Add.

(** ** What is kept *)

(** Adding queries one after another. *)
Fixpoint add_all (s : option nr_slowsqls_t) (xs : list nr_slowsql_t) : option (option nr_slowsqls_t) :=
  match xs with
  | [] => Some s
  | x :: xs => s ← nr_slowsqls_add_internal s (Some x); add_all s xs
  end.

(** A query that ran once. *)
Definition once (x : nr_slowsql_t) : Prop :=
  sq_count x = 1 /\ sq_total x = sq_max_time x /\ sq_min_time x = sq_max_time x /\ in_u64 (sq_max_time x).

Definition ids (l : list nr_slowsql_t) : list Z := map sq_sql_id l.
Definition same_id (i : Z) (xs : list nr_slowsql_t) : list nr_slowsql_t := filter (fun x => sq_sql_id x = i) xs.

(** An entry is the slowest of some queries. *)
Definition slowest_of (e : nr_slowsql_t) (xs : list nr_slowsql_t) : Prop :=
  (exists x, x ∈ xs /\ sq_sql_id x = sq_sql_id e /\ sq_max_time x = sq_max_time e)
  /\ forall x, x ∈ xs -> sq_max_time x <= sq_max_time e.

(** An entry sums up queries. *)
Definition sums_up (e : nr_slowsql_t) (xs : list nr_slowsql_t) : Prop :=
  sq_count e = Z.of_nat (length xs)
  /\ sq_total e = u64 (foldr (fun x n => sq_max_time x + n) 0 xs)
  /\ slowest_of e xs
  /\ (exists x, x ∈ xs /\ sq_max_time x = sq_min_time e) /\ (forall x, x ∈ xs -> sq_min_time e <= sq_max_time x).

Lemma ids_elem (i : Z) (l : list nr_slowsql_t) : i ∈ ids l <-> exists x, x ∈ l /\ sq_sql_id x = i.
Proof. unfold ids. rewrite list_elem_of_fmap. split; intros (e & H1 & H2); by exists e. Qed.

Lemma merge_run (e x : nr_slowsql_t) :
  sq_count e + sq_count x < 2 ^ 31 ->
  exists e', nr_slowsql_merge e x = Some e' /\ sq_sql_id e' = sq_sql_id e
    /\ sq_count e' = sq_count e + sq_count x /\ sq_total e' = u64 (sq_total e + sq_total x)
    /\ sq_min_time e' = Z.min (sq_min_time e) (sq_min_time x) /\ sq_max_time e' = Z.max (sq_max_time e) (sq_max_time x).
Proof.
  intros Hc. unfold nr_slowsql_merge. destruct (Z.leb_spec (2 ^ 31) (sq_count e + sq_count x)); [lia|].
  eexists. split; [done|].
  destruct (Z.ltb_spec (sq_min_time x) (sq_min_time e)), (Z.ltb_spec (sq_max_time e) (sq_max_time x));
    cbn [sq_sql_id sq_count sq_total sq_min_time sq_max_time]; split_and!; try done; lia.
Qed.

Lemma merge_first_spec (l : list nr_slowsql_t) (x : nr_slowsql_t) :
  (forall e, e ∈ l -> sq_count e + sq_count x < 2 ^ 31) ->
  ((sq_sql_id x ∉ ids l) /\ merge_first l x = Some None)
  \/ exists a e b e', l = a ++ e :: b /\ sq_sql_id e = sq_sql_id x /\ nr_slowsql_merge e x = Some e'
       /\ merge_first l x = Some (Some (a ++ e' :: b)).
Proof.
  induction l as [|y l IH]; intros Hc; cbn [merge_first]; [left; split; [by apply not_elem_of_nil|done]|].
  destruct (Z.eqb_spec (sq_sql_id x) (sq_sql_id y)) as [E|Hne].
  - right. destruct (merge_run y x) as (e' & Em & _); [apply Hc; by left|]. exists [], y, l, e'. by rewrite Em.
  - destruct IH as [[Hn ->]|(a & e & b & e' & -> & E & Em & ->)]; [intros e He; apply Hc; by right| |].
    + left. split; [|done]. unfold ids in *. cbn [map]. apply not_elem_of_cons. done.
    + right. by exists (y :: a), e, b, e'.
Qed.

Lemma smallest_max_spec (l : list nr_slowsql_t) (i idx time : Z) :
  0 <= i ->
  exists idx' time', smallest_max l i idx time = (idx', time')
    /\ (forall e, e ∈ l -> time' <= sq_max_time e) /\ time' <= time
    /\ ((idx', time') = (idx, time)
        \/ exists k e, l !! k = Some e /\ idx' = i + Z.of_nat k /\ time' = sq_max_time e).
Proof.
  revert i idx time. induction l as [|x l IH]; intros i idx time Hi; cbn [smallest_max].
  { exists idx, time. split; [done|]. split; [by intros e ?%elem_of_nil|]. split; [lia|by left]. }
  destruct (Z.ltb_spec (sq_max_time x) time).
  - destruct (IH (i + 1) i (sq_max_time x)) as (idx' & time' & -> & Hl & Ht & Hc); [lia|]. exists idx', time'.
    split; [done|]. split; [intros e [->|He]%elem_of_cons; [done|by apply Hl]|]. split; [lia|]. right.
    destruct Hc as [[= -> ->]|(k & e & Hk & -> & ->)]; [exists 0%nat, x; split; [done|]; split; [lia|done]|].
    exists (S k), e. split; [done|]. split; [lia|done].
  - destruct (IH (i + 1) idx time) as (idx' & time' & -> & Hl & Ht & Hc); [lia|]. exists idx', time'.
    split; [done|]. split; [intros e [->|He]%elem_of_cons; [lia|by apply Hl]|]. split; [lia|].
    destruct Hc as [?|(k & e & Hk & -> & ->)]; [by left|right]. exists (S k), e. split; [done|]. split; [lia|done].
Qed.

(** The entry that makes room is one whose slowest query is no slower than any other's. *)
Lemma smallest_of (l : list nr_slowsql_t) (first : nr_slowsql_t) :
  l !! 0%nat = Some first ->
  exists k e, smallest_max (drop 1 l) 1 0 (sq_max_time first) = (Z.of_nat k, sq_max_time e) /\ l !! k = Some e
    /\ forall y, y ∈ l -> sq_max_time e <= sq_max_time y.
Proof.
  intros Hf. destruct l as [|x l]; [done|]. injection Hf as ->. change (drop 1 (first :: l)) with l.
  destruct (smallest_max_spec l 1 0 (sq_max_time first)) as (idx & time & -> & Hl & Ht & Hc); [lia|].
  destruct Hc as [[= -> ->]|(k & e & Hk & -> & ->)].
  - exists 0%nat, first. split; [done|]. split; [done|]. intros y [->|Hy]%elem_of_cons; [lia|by apply Hl].
  - exists (S k), e. split; [f_equal; lia|]. split; [done|]. intros y [->|Hy]%elem_of_cons; [lia|by apply Hl].
Qed.

(** The state after some queries, in a store of [n] entries. *)
Record kept (n : Z) (xs : list nr_slowsql_t) (s : nr_slowsqls_t) : Prop := {
  ke_max : max_slowsqls s = n;
  ke_used : slowsqls_used s <= n;
  ke_ids : NoDup (ids (slowsqls s));
  ke_from : forall e, e ∈ slowsqls s -> sq_sql_id e ∈ ids xs /\ sq_count e <= Z.of_nat (length xs);
  ke_bound : forall e, e ∈ slowsqls s -> exists x, x ∈ xs /\ sq_max_time x = sq_max_time e;
  ke_slowest : xs = [] \/ exists e, e ∈ slowsqls s /\ slowest_of e xs;
  ke_sums : Z.of_nat (size (list_to_set (ids xs) : gset Z)) <= n ->
    (forall i, i ∈ ids xs -> i ∈ ids (slowsqls s))
    /\ forall e, e ∈ slowsqls s -> sums_up e (same_id (sq_sql_id e) xs);
}.

Lemma same_id_app (i : Z) (xs ys : list nr_slowsql_t) : same_id i (xs ++ ys) = same_id i xs ++ same_id i ys.
Proof. apply filter_app. Qed.

Lemma same_id_new (x : nr_slowsql_t) (i : Z) (xs : list nr_slowsql_t) :
  same_id i (xs ++ [x]) = same_id i xs ++ if decide (sq_sql_id x = i) then [x] else [].
Proof. rewrite same_id_app. f_equal. Qed.

Lemma same_id_none (i : Z) (xs : list nr_slowsql_t) : i ∉ ids xs -> same_id i xs = [].
Proof.
  intros Hi. apply elem_of_nil_inv. intros x Hx. unfold same_id in Hx. apply list_elem_of_filter in Hx as [<- Hx].
  apply Hi, ids_elem. by exists x.
Qed.

Lemma ids_replace (l : list nr_slowsql_t) (k : nat) (y : nr_slowsql_t) :
  NoDup (ids l) -> sq_sql_id y ∉ ids l -> NoDup (ids (<[k := y]> l)).
Proof.
  intros Hnd Hy. unfold ids in *. change (map sq_sql_id (<[k := y]> l)) with (sq_sql_id <$> <[k := y]> l).
  rewrite list_fmap_insert. apply NoDup_alt. intros a b i Ha Hb.
  apply list_lookup_insert_Some in Ha as [(<- & <- & _)|[Hka Ha]];
    apply list_lookup_insert_Some in Hb as [(<- & E & _)|[Hkb Hb]]; try done.
  - exfalso. apply Hy. by eapply list_elem_of_lookup_2.
  - exfalso. apply Hy. rewrite E. by eapply list_elem_of_lookup_2.
  - by apply (NoDup_lookup (map sq_sql_id l) a b i).
Qed.

Lemma slowest_merge (e x e' : nr_slowsql_t) (ys : list nr_slowsql_t) :
  slowest_of e ys -> sq_sql_id x = sq_sql_id e' -> sq_sql_id e' = sq_sql_id e ->
  sq_max_time e' = Z.max (sq_max_time e) (sq_max_time x) -> slowest_of e' (ys ++ [x]).
Proof.
  intros [(y & Hy & Ey & My) Hle] Ex Ee Em. split.
  - destruct (Z.max_spec (sq_max_time e) (sq_max_time x)) as [[_ Hm]|[_ Hm]].
    + exists x. split; [set_solver|]. split; [done|lia].
    + exists y. split; [set_solver|]. split; [congruence|lia].
  - intros z [Hz|Hz%list_elem_of_singleton]%elem_of_app; [specialize (Hle z Hz); lia|subst; lia].
Qed.

Lemma sum_snoc (x : nr_slowsql_t) (ys : list nr_slowsql_t) :
  foldr (fun x n => sq_max_time x + n) 0 (ys ++ [x]) = foldr (fun x n => sq_max_time x + n) 0 ys + sq_max_time x.
Proof. induction ys as [|y ys IH]; simpl in *; lia. Qed.

Lemma sums_merge (e x e' : nr_slowsql_t) (ys : list nr_slowsql_t) :
  once x -> sq_count e + sq_count x < 2 ^ 31 -> nr_slowsql_merge e x = Some e' -> sq_sql_id x = sq_sql_id e ->
  sums_up e ys -> sums_up e' (ys ++ [x]).
Proof.
  intros (Hc & Ht & Hmin & Hu) Hlt Em Ex (H1 & H2 & H3 & (y & Hy & Ey) & H5).
  destruct (merge_run e x Hlt) as (e0 & E & I1 & I2 & I3 & I4 & I5). rewrite Em in E. injection E as <-.
  split; [rewrite length_app; simpl; lia|]. split.
  - rewrite I3, H2, sum_snoc, Ht. unfold u64. by rewrite Zplus_mod_idemp_l.
  - split; [eapply slowest_merge; [exact H3|congruence|done|done]|]. split.
    + destruct (Z.min_spec (sq_min_time e) (sq_min_time x)) as [[_ Hm]|[_ Hm]].
      * exists y. split; [set_solver|lia].
      * exists x. split; [set_solver|lia].
    + intros z [Hz|Hz%list_elem_of_singleton]%elem_of_app; [specialize (H5 z Hz); lia|subst; lia].
Qed.

Lemma sums_single (x : nr_slowsql_t) : once x -> sums_up (nr_slowsql_dup x) [x].
Proof.
  intros (Hc & Ht & Hmin & Hu). split; [done|]. split; [simpl; rewrite Z.add_0_r, u64_id by done; done|].
  split; [split; [exists x; split; [set_solver|done]|]|split; [exists x; split; [set_solver|done]|]];
    intros z ->%list_elem_of_singleton; simpl; lia.
Qed.

(** The distinct queries of a list that holds an id more than another one without repetitions. *)
Lemma too_many (l xs : list nr_slowsql_t) (x : nr_slowsql_t) :
  NoDup (ids l) -> (forall e, e ∈ l -> sq_sql_id e ∈ ids xs) -> (sq_sql_id x ∉ ids l) ->
  (length l < size (list_to_set (ids (xs ++ [x])) : gset Z))%nat.
Proof.
  intros Hnd Hfrom Hx. assert (NoDup (sq_sql_id x :: ids l)) as Hnd' by (by constructor).
  apply Nat.lt_le_trans with (size (list_to_set (sq_sql_id x :: ids l) : gset Z)).
  - rewrite size_list_to_set by done. simpl. unfold ids. rewrite length_map. lia.
  - apply subseteq_size. intros i. rewrite !elem_of_list_to_set. unfold ids in *. rewrite map_app.
    intros [->|Hi]%elem_of_cons; [set_solver|]. apply ids_elem in Hi as (e & He & <-). apply elem_of_app. left. by apply Hfrom.
Qed.

Lemma fewer (xs : list nr_slowsql_t) (x : nr_slowsql_t) (n : Z) :
  Z.of_nat (size (list_to_set (ids (xs ++ [x])) : gset Z)) <= n -> Z.of_nat (size (list_to_set (ids xs) : gset Z)) <= n.
Proof.
  intros Hn. enough (size (list_to_set (ids xs) : gset Z) <= size (list_to_set (ids (xs ++ [x])) : gset Z))%nat by lia.
  apply subseteq_size. intros i. rewrite !elem_of_list_to_set. unfold ids. rewrite map_app. set_solver.
Qed.

Lemma ids_snoc (xs : list nr_slowsql_t) (x : nr_slowsql_t) (i : Z) : i ∈ ids (xs ++ [x]) <-> i ∈ ids xs \/ i = sq_sql_id x.
Proof. unfold ids. rewrite map_app, elem_of_app. simpl. by rewrite list_elem_of_singleton. Qed.

Section Step.
Context (n : Z) (xs : list nr_slowsql_t) (s : nr_slowsqls_t) (x : nr_slowsql_t).
Context (Hk : kept n xs s) (Hx : once x) (Hlen : Z.of_nat (length xs) + 1 < 2 ^ 31) (Hn : 0 < n).

Lemma length_new : Z.of_nat (length (xs ++ [x])) = Z.of_nat (length xs) + 1.
Proof. rewrite length_app. simpl. lia. Qed.

(** The slowest of all, when the new query is no slower. *)
Lemma slowest_stays m : slowest_of m xs -> sq_max_time x <= sq_max_time m -> slowest_of m (xs ++ [x]).
Proof.
  intros [(y & Hy & E) Hle] Hm. split; [exists y; split; [set_solver|done]|].
  intros z [Hz|Hz%list_elem_of_singleton]%elem_of_app; [by apply Hle|by subst].
Qed.

(** And when it is. *)
Lemma slowest_new e' m :
  slowest_of m xs -> sq_max_time m <= sq_max_time x -> sq_sql_id e' = sq_sql_id x -> sq_max_time e' = sq_max_time x ->
  slowest_of e' (xs ++ [x]).
Proof.
  intros [_ Hle] Hm E1 E2. split; [exists x; split; [set_solver|done]|].
  intros z [Hz|Hz%list_elem_of_singleton]%elem_of_app; [specialize (Hle z Hz); lia|subst; lia].
Qed.

(** No other query has the id of an entry. *)
Lemma id_unique (a b : list nr_slowsql_t) (e y : nr_slowsql_t) :
  NoDup (ids (a ++ e :: b)) -> y ∈ a \/ y ∈ b -> sq_sql_id y <> sq_sql_id e.
Proof.
  unfold ids. rewrite map_app. intros (_ & Hd & Hb)%NoDup_app [Hy|Hy] E.
  - apply (Hd (sq_sql_id y)); [by apply list_elem_of_fmap_2|]. simpl. rewrite E. by left.
  - simpl in Hb. apply NoDup_cons in Hb as [Hb _]. apply Hb. rewrite <- E. by apply list_elem_of_fmap_2.
Qed.

(** Summing up, for an entry of another query. *)
Lemma sums_other y : sums_up y (same_id (sq_sql_id y) xs) -> sq_sql_id x <> sq_sql_id y -> sums_up y (same_id (sq_sql_id y) (xs ++ [x])).
Proof. intros Hs Hne. by rewrite same_id_new, decide_False, app_nil_r. Qed.

Lemma kept_merge (a b : list nr_slowsql_t) (e e' : nr_slowsql_t) :
  slowsqls s = a ++ e :: b -> sq_sql_id e = sq_sql_id x -> nr_slowsql_merge e x = Some e' ->
  kept n (xs ++ [x]) (mk_slowsqls (max_slowsqls s) (a ++ e' :: b)).
Proof.
  intros El Ee Em. destruct Hk as [K1 K2 K3 K4 K7 K5 K6]. unfold slowsqls_used in *. rewrite El in *.
  assert (sq_count e + sq_count x < 2 ^ 31) as Hlt.
  { destruct Hx as [Hc _]. destruct (K4 e) as [_ ?]; [set_solver|]. lia. }
  destruct (merge_run e x Hlt) as (e0 & E0 & I1 & I2 & I3 & I4 & I5). rewrite Em in E0. injection E0 as <-.
  assert (ids (a ++ e' :: b) = ids (a ++ e :: b)) as Eids by (unfold ids; rewrite !map_app; simpl; by rewrite I1).
  constructor; cbn [max_slowsqls slowsqls]; unfold slowsqls_used; cbn [slowsqls].
  - done.
  - rewrite length_app in *. exact K2.
  - by rewrite Eids.
  - intros y Hy. rewrite length_new, ids_snoc.
    assert (y = e' \/ y ∈ a ++ e :: b) as [->|Hin] by set_solver.
    + split; [right; congruence|]. destruct (K4 e) as [_ ?]; [set_solver|]. destruct Hx as [Hc _]. lia.
    + destruct (K4 y Hin) as [H1 H2]. split; [by left|lia].
  - intros y Hy. assert (y = e' \/ y ∈ a ++ e :: b) as [->|Hin] by set_solver.
    + rewrite I5. destruct (Z.max_spec (sq_max_time e) (sq_max_time x)) as [[_ ->]|[_ ->]]; [exists x; set_solver|].
      destruct (K7 e) as (z & Hz & <-); [set_solver|]. exists z. set_solver.
    + destruct (K7 y Hin) as (z & Hz & <-). exists z. set_solver.
  - right. destruct K5 as [->|(m & Hm & Hs)]; [destruct (K4 e) as [Hin _]; [set_solver|]; by apply not_elem_of_nil in Hin|].
    destruct (Z.le_gt_cases (sq_max_time x) (sq_max_time m)) as [Hle|Hgt].
    + assert (m = e \/ m ∈ a ++ e' :: b) as [->|Hm'] by set_solver.
      * exists e'. split; [set_solver|]. eapply slowest_merge; [exact Hs|congruence|done|done].
      * exists m. split; [done|by apply slowest_stays].
    + exists e'. split; [set_solver|]. apply (slowest_new e' m Hs); [lia|congruence|].
      destruct (K7 e) as (z & Hz & <-) in I5 |- *; [set_solver|]. destruct Hs as [_ Hs]. specialize (Hs z Hz). lia.
  - intros Hsize. apply fewer in Hsize. destruct (K6 Hsize) as [H1 H2]. split.
    + intros i Hi. rewrite Eids. apply ids_snoc in Hi as [Hi| ->]; [by apply H1|]. apply ids_elem. exists e. split; [set_solver|done].
    + intros y Hy. apply elem_of_app in Hy as [Hy|[->|Hy]%elem_of_cons].
      * apply sums_other; [apply H2; set_solver|]. rewrite <- Ee. intros E. by apply (id_unique a b e y); [|left|].
      * rewrite same_id_new, decide_True by congruence. apply (sums_merge e); [done|done|done|done|]. rewrite I1. apply H2. set_solver.
      * apply sums_other; [apply H2; set_solver|]. rewrite <- Ee. intros E. by apply (id_unique a b e y); [|right|].
Qed.

Lemma kept_append :
  sq_sql_id x ∉ ids (slowsqls s) -> slowsqls_used s < n ->
  kept n (xs ++ [x]) (mk_slowsqls (max_slowsqls s) (slowsqls s ++ [nr_slowsql_dup x])).
Proof.
  intros Hnew Hroom. destruct Hk as [K1 K2 K3 K4 K7 K5 K6]. unfold slowsqls_used in *.
  constructor; cbn [max_slowsqls slowsqls]; unfold slowsqls_used; cbn [slowsqls].
  - done.
  - rewrite length_app. simpl. lia.
  - unfold ids in *. rewrite map_app. apply NoDup_app. split; [done|]. split; [|apply NoDup_singleton].
    intros i Hi ->%list_elem_of_singleton. done.
  - intros y [Hy| ->%list_elem_of_singleton]%elem_of_app; rewrite length_new, ids_snoc.
    + destruct (K4 y Hy). split; [by left|lia].
    + split; [by right|]. destruct Hx as [Hc _]. simpl. lia.
  - intros y [Hy| ->%list_elem_of_singleton]%elem_of_app; [|exists x; set_solver].
    destruct (K7 y Hy) as (z & Hz & <-). exists z. set_solver.
  - right. destruct K5 as [->|(m & Hm & Hs)].
    + exists (nr_slowsql_dup x). split; [set_solver|]. split; [exists x; split; [set_solver|done]|].
      by intros z ->%list_elem_of_singleton.
    + destruct (Z.le_gt_cases (sq_max_time x) (sq_max_time m)) as [Hle|Hgt].
      * exists m. split; [set_solver|by apply slowest_stays].
      * exists (nr_slowsql_dup x). split; [set_solver|]. apply (slowest_new _ m Hs); [lia|done|done].
  - intros Hsize. apply fewer in Hsize. destruct (K6 Hsize) as [H1 H2]. split.
    + intros i Hi. unfold ids in *. rewrite map_app. apply ids_snoc in Hi as [Hi| ->]; set_solver.
    + intros y [Hy| ->%list_elem_of_singleton]%elem_of_app.
      * apply sums_other; [by apply H2|]. intros E. apply Hnew. rewrite E. by apply list_elem_of_fmap_2.
      * cbn [nr_slowsql_dup sq_sql_id]. rewrite same_id_new, decide_True by done.
        assert (same_id (sq_sql_id x) xs = []) as ->; [|by apply sums_single].
        apply same_id_none. intros Hi. by apply Hnew, H1.
Qed.

Lemma kept_full (s' : nr_slowsqls_t) :
  sq_sql_id x ∉ ids (slowsqls s) -> n <= slowsqls_used s ->
  max_slowsqls s' = n -> slowsqls_used s' = slowsqls_used s -> NoDup (ids (slowsqls s')) ->
  (forall e, e ∈ slowsqls s' -> e ∈ slowsqls s \/ e = nr_slowsql_dup x) ->
  (exists m, m ∈ slowsqls s' /\ slowest_of m (xs ++ [x])) ->
  kept n (xs ++ [x]) s'.
Proof.
  intros Hnew Hfull Hm Hu Hnd Hin Hslow. destruct Hk as [K1 K2 K3 K4 K7 K5 K6]. constructor; [done|lia|done| | |by right|].
  - intros y Hy. rewrite length_new, ids_snoc. destruct (Hin y Hy) as [H| ->].
    + destruct (K4 y H). split; [by left|lia].
    + split; [by right|]. destruct Hx as [Hc _]. simpl. lia.
  - intros y Hy. destruct (Hin y Hy) as [H| ->]; [|exists x; set_solver].
    destruct (K7 y H) as (z & Hz & <-). exists z. set_solver.
  - intros Hsize. exfalso. unfold slowsqls_used in *.
    pose proof (too_many (slowsqls s) xs x K3 (fun e He => proj1 (K4 e He)) Hnew). lia.
Qed.

Lemma kept_unchanged m e :
  m ∈ slowsqls s -> slowest_of m xs -> e ∈ slowsqls s -> sq_max_time x < sq_max_time e ->
  sq_sql_id x ∉ ids (slowsqls s) -> n <= slowsqls_used s -> kept n (xs ++ [x]) s.
Proof.
  intros Hm Hs He Hlt Hnew Hfull. apply kept_full; [done|done|by destruct Hk|done|by destruct Hk|by left|].
  exists m. split; [done|]. apply slowest_stays; [done|]. destruct (ke_bound _ _ _ Hk e He) as (z & Hz & Ez).
  destruct Hs as [_ Hs]. specialize (Hs z Hz). lia.
Qed.

Lemma kept_replace m k e :
  m ∈ slowsqls s -> slowest_of m xs -> slowsqls s !! k = Some e -> sq_max_time e <= sq_max_time x ->
  sq_sql_id x ∉ ids (slowsqls s) -> n <= slowsqls_used s ->
  kept n (xs ++ [x]) (mk_slowsqls (max_slowsqls s) (<[k := nr_slowsql_dup x]> (slowsqls s))).
Proof.
  intros Hm Hs He Hle Hnew Hfull. pose proof (lookup_lt_Some _ _ _ He) as Hlt.
  apply kept_full; unfold slowsqls_used; cbn [max_slowsqls slowsqls]; [done|done|by destruct Hk|by rewrite length_insert| | |].
  - apply ids_replace; [by destruct Hk|done].
  - intros y Hy. apply list_elem_of_lookup in Hy as (j & Hj). apply list_lookup_insert_Some in Hj as [(_ & <- & _)|[_ Hj]];
      [by right|left; by eapply list_elem_of_lookup_2].
  - apply list_elem_of_lookup in Hm as (j & Hj).
    assert (sq_max_time m <= sq_max_time x \/ (sq_max_time x <= sq_max_time m /\ j <> k)) as [Hc|[Hc Hne]].
    { destruct (decide (j = k)) as [->|]; [left; congruence|]. lia. }
    + exists (nr_slowsql_dup x). split; [by apply list_elem_of_insert|]. by apply (slowest_new _ m Hs).
    + exists m. split; [|by apply slowest_stays]. apply (list_elem_of_lookup_2 _ j). by rewrite list_lookup_insert_ne.
Qed.

(** One more query. *)
Lemma kept_step : exists s', nr_slowsqls_add_internal (Some s) (Some x) = Some (Some s') /\ kept n (xs ++ [x]) s'.
Proof.
  unfold nr_slowsqls_add_internal. destruct (merge_first_spec (slowsqls s) x) as [[Hnew ->]|(a & e & b & e' & El & Ee & Em & ->)].
  - intros e He. destruct (ke_from _ _ _ Hk e He), Hx as [Hc _]. lia.
  - cbn [mbind option_bind]. rewrite (ke_max _ _ _ Hk). destruct (Z.ltb_spec (slowsqls_used s) n) as [Hr|Hf].
    { pose proof (kept_append Hnew Hr) as K. rewrite (ke_max _ _ _ Hk) in K. by eexists. }
    destruct (slowsqls s !! 0%nat) as [first|] eqn:E0; [|apply lookup_ge_None in E0; unfold slowsqls_used in Hf; lia].
    destruct (smallest_of _ _ E0) as (k & e & Es & He & Hmin). cbn [mbind option_bind]. rewrite Es.
    destruct (ke_slowest _ _ _ Hk) as [->|(m & Hm & Hs)].
    { destruct (ke_bound _ _ _ Hk first) as (z & Hz & _); [by eapply list_elem_of_lookup_2|]. by apply not_elem_of_nil in Hz. }
    destruct (Z.ltb_spec (sq_max_time x) (sq_max_time e)); (eexists; split; [done|]).
    + eapply kept_unchanged; [exact Hm|done|by eapply list_elem_of_lookup_2|done|done|done].
    + rewrite Nat2Z.id. pose proof (kept_replace m k e Hm Hs He ltac:(lia) Hnew Hf) as K. by rewrite (ke_max _ _ _ Hk) in K.
  - cbn [mbind option_bind]. eexists. split; [done|]. by eapply kept_merge.
Qed.
End Step.

Lemma kept_start (n : Z) : 0 < n -> kept n [] (mk_slowsqls n []).
Proof.
  intros Hn. constructor; cbn [max_slowsqls slowsqls]; unfold slowsqls_used; cbn [slowsqls length];
    try done; try lia; try (intros e He; by apply not_elem_of_nil in He).
  - constructor.
  - by left.
  - intros _. split; [done|]. intros e He. by apply not_elem_of_nil in He.
Qed.

Lemma add_all_snoc (xs : list nr_slowsql_t) (x : nr_slowsql_t) (s : option nr_slowsqls_t) :
  add_all s (xs ++ [x]) = (s ← add_all s xs; nr_slowsqls_add_internal s (Some x)).
Proof.
  revert s. induction xs as [|y xs IH]; intros s; cbn [app add_all].
  - cbn [mbind option_bind]. by destruct (nr_slowsqls_add_internal s (Some x)).
  - destruct (nr_slowsqls_add_internal s (Some y)) as [s'|]; cbn [mbind option_bind]; [apply IH|done].
Qed.

(* @about nr_slowsqls_add_internal nr_slowsqls_create nr_slowsql_merge nr_slowsql_dup merge_first smallest_max *)
(** C18 (functional): the store of slow queries of [n] entries, after any sequence of queries that ran
    once each (fewer than 2^31, so that the counters do not overflow): every addition succeeds; no
    two entries have the same normal form and no more than [n] are in use; an entry has the time of
    the slowest query of all, which is never the one evicted; and when there were no more than [n]
    distinct queries none was lost: each has an entry, and each entry has the number of its runs, the
    sum of their times (modulo 2^64), the fastest and the slowest. *)
Theorem nr_slowsqls_keeps_slowest (n : Z) (xs : list nr_slowsql_t) :
  0 < n -> Forall once xs -> Z.of_nat (length xs) < 2 ^ 31 ->
  exists s, add_all (nr_slowsqls_create n) xs = Some (Some s)
    /\ slowsqls_used s <= n /\ NoDup (ids (slowsqls s))
    /\ (xs = [] \/ exists e, e ∈ slowsqls s /\ slowest_of e xs)
    /\ (Z.of_nat (size (list_to_set (ids xs) : gset Z)) <= n ->
        (forall i, i ∈ ids xs -> i ∈ ids (slowsqls s))
        /\ forall e, e ∈ slowsqls s -> sums_up e (same_id (sq_sql_id e) xs)).
Proof.
  intros Hn Hxs Hlen.
  enough (exists s, add_all (nr_slowsqls_create n) xs = Some (Some s) /\ kept n xs s) as (s & E & [K1 K2 K3 K4 K7 K5 K6]).
  { exists s. by split_and!. }
  unfold nr_slowsqls_create. destruct (Z.leb_spec n 0); [lia|].
  induction xs as [|x xs IH] using rev_ind; [eexists; split; [done|by apply kept_start]|].
  rewrite length_app in Hlen. simpl in Hlen. apply Forall_app in Hxs as [Hxs Hx%Forall_inv].
  destruct IH as (s & E & K); [done|lia|]. rewrite add_all_snoc, E. cbn [mbind option_bind].
  apply kept_step; [done|done|lia|done].
Qed.

(** Three runs of two queries in a store of one entry. *)
Definition sample_query (id time : Z) : nr_slowsql_t := mk_slowsql (Some []) id 1 time time time (Some []) (Some []).

Example nr_slowsqls_keeps_slowest_witness :
  exists s, add_all (nr_slowsqls_create 1) [sample_query 1 5; sample_query 2 9; sample_query 1 7] = Some (Some s)
    /\ slowsqls_used s <= 1 /\ NoDup (ids (slowsqls s)).
Proof.
  destruct (nr_slowsqls_keeps_slowest 1 [sample_query 1 5; sample_query 2 9; sample_query 1 7]) as (s & E & H1 & H2 & _).
  - lia.
  - repeat (apply Forall_cons_2; [unfold once, in_u64; simpl; lia|]). by apply Forall_nil_2.
  - simpl. lia.
  - by exists s.
Defined.
