(* ===== verification/HashMap.v ===== *)
(** * The hash map

    [util_hashmap.c], [util_hashmap_private.h] and the index wrappers of [util_hashmap.h].

    The buckets are nodes of doubly linked lists.  They live in a store from addresses to
    nodes, which belongs to the map; a pointer is an address or NULL ([None]).  A function
    returns [None] if it follows a pointer to a node that is not there, or if a list does not
    end.  Keys are byte strings of which the length is given, and need no terminator. *)

From S2P Require Import Prelude Strings Hash.

Abbreviation addr := positive.

(* @map util_hashmap_private.h:9-13 nr_hashmap_key_t *)
Record nr_hashmap_key_t : Type := mk_key { k_length : Z; k_value : list Z }.

(* @map util_hashmap_private.h:19-25 nr_hashmap_bucket_t *)
Record nr_hashmap_bucket_t (A : Type) : Type := mk_bucket {
  b_prev : option addr;
  b_next : option addr;
  b_key : nr_hashmap_key_t;
  b_value : option A
}.
Arguments mk_bucket {A} _ _ _ _.
Arguments b_prev {A} _.
Arguments b_next {A} _.
Arguments b_key {A} _.
Arguments b_value {A} _.

(** Of the destructor, whether there is one; operations return the values they gave it. *)
(* @map util_hashmap_private.h:27-33 _nr_hashmap_t *)
Record nr_hashmap_t (A : Type) : Type := mk_hashmap {
  hm_dtor : bool;
  hm_log2_num_buckets : Z;
  hm_buckets : list (option addr);
  hm_elements : Z;
  hm_store : gmap addr (nr_hashmap_bucket_t A)
}.
Arguments mk_hashmap {A} _ _ _ _ _.
Arguments hm_dtor {A} _.
Arguments hm_log2_num_buckets {A} _.
Arguments hm_buckets {A} _.
Arguments hm_elements {A} _.
Arguments hm_store {A} _.

(** [1 << n] on an [int]; undefined from [n = 31] on. *)
Definition int_shl1 (n : Z) : option Z := if (0 <=? n) && (n <? 31) then Some (Z.shiftl 1 n) else None.

(* @map util_hashmap.c:302-319 nr_hashmap_hash_key *)
Definition nr_hashmap_hash_key (log2_num_buckets : Z) (key : cstr) (key_len : Z) : Z :=
  let len := s32 key_len in
  let hash := fst (nr_mkhash (Some key) (Some len)) in
  Z.land hash (Z.shiftl 1 log2_num_buckets - 1).

Section HashMap.
Context {A : Type}.
Implicit Types (h : nr_hashmap_t A) (store : gmap addr (nr_hashmap_bucket_t A)).

(* @map util_hashmap.c:10-12 nr_hashmap_count_buckets *)
Definition nr_hashmap_count_buckets h : Z := Z.shiftl 1 (hm_log2_num_buckets h).

(* @map util_hashmap.c:243-268 nr_hashmap_create_internal *)
Definition nr_hashmap_create_internal (log2_num_buckets : Z) (dtor_func : bool) : nr_hashmap_t A :=
  let log2_num_buckets :=
    if 0 =? log2_num_buckets then 8 else if 24 <? log2_num_buckets then 24 else log2_num_buckets in
  mk_hashmap dtor_func log2_num_buckets
    (replicate (Z.to_nat (Z.shiftl 1 log2_num_buckets)) None) 0 ∅.

(* @map util_hashmap.c:14-16 nr_hashmap_create *)
Definition nr_hashmap_create (dtor_func : bool) : nr_hashmap_t A :=
  nr_hashmap_create_internal 0 dtor_func.

(** [while (((size_t)(1 << actual_buckets)) < buckets) actual_buckets += 1]; [None] when the
    shift is undefined. *)
(* @map util_hashmap.c:30-33 nr_hashmap_create_buckets *)
Fixpoint buckets_loop (fuel : nat) (actual_buckets buckets : Z) : option Z :=
  n ← int_shl1 actual_buckets;
  if n <? buckets then
    match fuel with
    | O => None
    | S fuel => buckets_loop fuel (actual_buckets + 1) buckets
    end
  else Some actual_buckets.

(* @map util_hashmap.c:18-37 nr_hashmap_create_buckets *)
Definition nr_hashmap_create_buckets (buckets : Z) (dtor_func : bool) : option (nr_hashmap_t A) :=
  actual_buckets ← (if 0 =? buckets then Some 0 else buckets_loop 31 1 buckets);
  Some (nr_hashmap_create_internal actual_buckets dtor_func).

(** Follows [next] pointers to the first node with the key. *)
(* @map util_hashmap.c:288-299 nr_hashmap_fetch *)
Fixpoint fetch_loop (fuel : nat) store (bucket : option addr) (key : cstr) (key_len : Z)
  : option (option addr) :=
  match bucket with
  | None => Some None
  | Some p =>
      match fuel with
      | O => None
      | S fuel =>
          b ← store !! p;
          if (key_len =? k_length (b_key b))
             && (0 =? nr_memcmp (Some key) (Some (k_value (b_key b))) key_len)
          then Some (Some p)
          else fetch_loop fuel store (b_next b) key key_len
      end
  end.

(** The result is the node found; C returns 1 and stores it, or 0. *)
(* @map util_hashmap.c:281-300 nr_hashmap_fetch *)
Definition nr_hashmap_fetch h (hash_key : Z) (key : cstr) (key_len : Z) : option (option addr) :=
  head ← hm_buckets h !! Z.to_nat hash_key;
  fetch_loop (S (size (hm_store h))) (hm_store h) head key key_len.

(** [p->prev = v] and [p->next = v] *)
Definition set_prev (v : option addr) (b : nr_hashmap_bucket_t A) :=
  mk_bucket v (b_next b) (b_key b) (b_value b).
Definition set_next (v : option addr) (b : nr_hashmap_bucket_t A) :=
  mk_bucket (b_prev b) v (b_key b) (b_value b).
Definition set_value (v : option A) (b : nr_hashmap_bucket_t A) :=
  mk_bucket (b_prev b) (b_next b) (b_key b) v.

(** Writing through a pointer: nothing for NULL, an error if there is no node. *)
Definition write_node store (p : option addr) (f : nr_hashmap_bucket_t A -> nr_hashmap_bucket_t A)
  : option (gmap addr (nr_hashmap_bucket_t A)) :=
  match p with
  | None => Some store
  | Some p => b ← store !! p; Some (<[p := f b]> store)
  end.

(** [nr_malloc] returns an address that is not in use. *)
(* @map util_hashmap.c:220-241 nr_hashmap_add_internal *)
Definition nr_hashmap_add_internal h (hash_key : Z) (key : cstr) (key_len : Z) (value : option A)
  : option (nr_hashmap_t A) :=
  head ← hm_buckets h !! Z.to_nat hash_key;
  let p := fresh (dom (hm_store h)) in
  let b := mk_bucket None head (mk_key key_len (bytes_from key key_len)) value in
  let store := <[p := b]> (hm_store h) in
  store ← write_node store head (set_prev (Some p));
  Some (mk_hashmap (hm_dtor h) (hm_log2_num_buckets h)
          (<[Z.to_nat hash_key := Some p]> (hm_buckets h)) (u64 (hm_elements h + 1)) store).

(** Frees the node; the list is what the destructor was called on. *)
(* @map util_hashmap.c:270-279 nr_hashmap_destroy_bucket *)
Definition nr_hashmap_destroy_bucket store (p : addr) (dtor_func : bool)
  : option (gmap addr (nr_hashmap_bucket_t A) * list (option A)) :=
  b ← store !! p;
  Some (delete p store, if dtor_func then [b_value b] else []).

(* @map util_hashmap.c:94-133 nr_hashmap_delete *)
Definition nr_hashmap_delete (hp : option (nr_hashmap_t A)) (key : option cstr) (key_len : Z)
  : option (nr_status_t * option (nr_hashmap_t A) * list (option A)) :=
  match hp, key with
  | Some h, Some key =>
      if 0 =? key_len then Some (NR_FAILURE, hp, [])
      else
        let hash := nr_hashmap_hash_key (hm_log2_num_buckets h) key key_len in
        found ← nr_hashmap_fetch h hash key key_len;
        match found with
        | None => Some (NR_FAILURE, hp, [])
        | Some p =>
            b ← hm_store h !! p;
            store ← write_node (hm_store h) (b_next b) (set_prev (b_prev b));
            store ← write_node store (b_prev b) (set_next (b_next b));
            head ← hm_buckets h !! Z.to_nat hash;
            let buckets := if bool_decide (head = Some p)
                           then <[Z.to_nat hash := b_next b]> (hm_buckets h)
                           else hm_buckets h in
            '(store, destroyed) ← nr_hashmap_destroy_bucket store p (hm_dtor h);
            Some (NR_SUCCESS,
                  Some (mk_hashmap (hm_dtor h) (hm_log2_num_buckets h) buckets
                          (u64 (hm_elements h - 1)) store), destroyed)
        end
  | _, _ => Some (NR_FAILURE, hp, [])
  end.

(** The value stored through [value_ptr], which is not NULL, when the key is found. *)
(* @map util_hashmap.c:145-164 nr_hashmap_get_into *)
Definition nr_hashmap_get_into (hp : option (nr_hashmap_t A)) (key : option cstr) (key_len : Z)
  : option (option (option A)) :=
  match hp, key with
  | Some h, Some key =>
      if 0 =? key_len then Some None
      else
        let hash := nr_hashmap_hash_key (hm_log2_num_buckets h) key key_len in
        found ← nr_hashmap_fetch h hash key key_len;
        match found with
        | None => Some None
        | Some p => b ← hm_store h !! p; Some (Some (b_value b))
        end
  | _, _ => Some None
  end.

(* @map util_hashmap.c:135-143 nr_hashmap_get *)
Definition nr_hashmap_get (hp : option (nr_hashmap_t A)) (key : option cstr) (key_len : Z)
  : option (option A) :=
  match nr_hashmap_get_into hp key key_len with
  | None => None
  | Some found => Some (default None found)
  end.

(* @map util_hashmap.c:166-175 nr_hashmap_has *)
Definition nr_hashmap_has (hp : option (nr_hashmap_t A)) (key : option cstr) (key_len : Z)
  : option bool :=
  match hp, key with
  | Some h, Some key =>
      if 0 =? key_len then Some false
      else
        let hash := nr_hashmap_hash_key (hm_log2_num_buckets h) key key_len in
        found ← nr_hashmap_fetch h hash key key_len; Some (bool_decide (is_Some found))
  | _, _ => Some false
  end.

(* @map util_hashmap.c:177-194 nr_hashmap_set *)
Definition nr_hashmap_set (hp : option (nr_hashmap_t A)) (key : option cstr) (key_len : Z)
    (value : option A) : option (nr_status_t * option (nr_hashmap_t A)) :=
  match hp, key with
  | Some h, Some key =>
      if 0 =? key_len then Some (NR_FAILURE, hp)
      else
        let hash := nr_hashmap_hash_key (hm_log2_num_buckets h) key key_len in
        found ← nr_hashmap_fetch h hash key key_len;
        match found with
        | Some _ => Some (NR_FAILURE, hp)
        | None => h ← nr_hashmap_add_internal h hash key key_len value; Some (NR_SUCCESS, Some h)
        end
  | _, _ => Some (NR_FAILURE, hp)
  end.

(* @map util_hashmap.c:196-218 nr_hashmap_update *)
Definition nr_hashmap_update (hp : option (nr_hashmap_t A)) (key : option cstr) (key_len : Z)
    (value : option A) : option (option (nr_hashmap_t A) * list (option A)) :=
  match hp, key with
  | Some h, Some key =>
      if 0 =? key_len then Some (hp, [])
      else
        let hash := nr_hashmap_hash_key (hm_log2_num_buckets h) key key_len in
        found ← nr_hashmap_fetch h hash key key_len;
        match found with
        | Some p =>
            b ← hm_store h !! p;
            Some (Some (mk_hashmap (hm_dtor h) (hm_log2_num_buckets h) (hm_buckets h)
                          (hm_elements h) (<[p := set_value value b]> (hm_store h))),
                  if hm_dtor h then [b_value b] else [])
        | None => h ← nr_hashmap_add_internal h hash key key_len value; Some (Some h, [])
        end
  | _, _ => Some (hp, [])
  end.

(* @map util_hashmap.c:86-92 nr_hashmap_count *)
Definition nr_hashmap_count (hp : option (nr_hashmap_t A)) : Z := from_option hm_elements 0 hp.

(** The nodes of one list, in order. *)
(* @map util_hashmap.c:79-82 nr_hashmap_apply *)
Fixpoint chain_nodes (fuel : nat) store (bucket : option addr)
  : option (list (nr_hashmap_bucket_t A)) :=
  match bucket with
  | None => Some []
  | Some p =>
      match fuel with
      | O => None
      | S fuel => b ← store !! p; bs ← chain_nodes fuel store (b_next b); Some (b :: bs)
      end
  end.

(** The nodes of all lists, in the order of the loops. *)
(* @map util_hashmap.c:75-83 nr_hashmap_apply *)
Fixpoint all_nodes store (buckets : list (option addr)) : option (list (nr_hashmap_bucket_t A)) :=
  match buckets with
  | [] => Some []
  | head :: buckets =>
      bs ← chain_nodes (S (size store)) store head;
      rest ← all_nodes store buckets;
      Some (bs ++ rest)
  end.

(** The callback threads the state [user_data] points to. *)
(* @map util_hashmap.c:65-84 nr_hashmap_apply *)
Definition nr_hashmap_apply {S : Type} (hp : option (nr_hashmap_t A))
    (apply_func : option (option A -> list Z -> Z -> S -> S)) (user_data : S) : option S :=
  match hp, apply_func with
  | Some h, Some f =>
      bs ← all_nodes (hm_store h) (take (Z.to_nat (nr_hashmap_count_buckets h)) (hm_buckets h));
      Some (foldl (fun st b => f (b_value b) (k_value (b_key b)) (k_length (b_key b)) st) user_data bs)
  | _, _ => Some user_data
  end.

(** What the destructor is called on. *)
(* @map util_hashmap.c:39-63 nr_hashmap_destroy *)
Definition nr_hashmap_destroy (hashmap_ptr : option (option (nr_hashmap_t A)))
  : option (option (option (nr_hashmap_t A)) * list (option A)) :=
  match hashmap_ptr with
  | None => Some (None, [])
  | Some None => Some (Some None, [])
  | Some (Some h) =>
      bs ← all_nodes (hm_store h) (take (Z.to_nat (nr_hashmap_count_buckets h)) (hm_buckets h));
      Some (Some None, if hm_dtor h then b_value <$> bs else [])
  end.

(** ** Keys that are 64-bit integers *)

(** [(const char* )&index], the bytes of the integer in memory. *)
Fixpoint le_bytes (n : nat) (z : Z) : list Z :=
  match n with O => [] | S n => z mod 256 :: le_bytes n (z / 256) end.

(* @map util_hashmap.h:177-180 nr_hashmap_index_delete *)
Definition nr_hashmap_index_delete (hp : option (nr_hashmap_t A)) (index : Z) :=
  nr_hashmap_delete hp (Some (le_bytes 8 index)) 8.

(* @map util_hashmap.h:182-185 nr_hashmap_index_get *)
Definition nr_hashmap_index_get (hp : option (nr_hashmap_t A)) (index : Z) :=
  nr_hashmap_get hp (Some (le_bytes 8 index)) 8.

(* @map util_hashmap.h:187-191 nr_hashmap_index_set *)
Definition nr_hashmap_index_set (hp : option (nr_hashmap_t A)) (index : Z) (value : option A) :=
  nr_hashmap_set hp (Some (le_bytes 8 index)) 8 value.

(* @map util_hashmap.h:193-197 nr_hashmap_index_update *)
Definition nr_hashmap_index_update (hp : option (nr_hashmap_t A)) (index : Z) (value : option A) :=
  nr_hashmap_update hp (Some (le_bytes 8 index)) 8 value.
End HashMap.

(** ** Keys and hashes *)

Definition valid_key (k : list Z) : Prop := 0 < Z.of_nat (length k) < 2 ^ 31.

(** The index of the list a key belongs to. *)
Definition hash_of (log2 : Z) (k : list Z) : nat :=
  Z.to_nat (nr_hashmap_hash_key log2 k (Z.of_nat (length k))).

Lemma byte_at_bytes_from (s : cstr) (n j : Z) : 0 <= j < n -> byte_at (bytes_from s n) j = byte_at s j.
Proof.
  intros Hj. rewrite byte_at_lookup. unfold bytes_from.
  rewrite list_lookup_fmap, lookup_seq_lt by lia. simpl. f_equal. lia.
Qed.

Lemma hash_bytes_from (log2 : Z) (key : cstr) (n : Z) :
  0 < n < 2 ^ 31 ->
  Z.to_nat (nr_hashmap_hash_key log2 key n) = hash_of log2 (bytes_from key n).
Proof.
  intros Hn. unfold hash_of, nr_hashmap_hash_key. rewrite length_bytes_from, Z2Nat.id by lia.
  rewrite s32_id by lia. rewrite (nr_mkhash_ext key (bytes_from key n)); [done|lia|].
  intros j Hj. by rewrite byte_at_bytes_from.
Qed.

Lemma valid_bytes_from (key : cstr) (n : Z) : 0 < n < 2 ^ 31 -> valid_key (bytes_from key n).
Proof. intros Hn. unfold valid_key. rewrite length_bytes_from. lia. Qed.

Lemma hash_of_range (log2 : Z) (k : list Z) : 0 <= log2 -> (hash_of log2 k < Z.to_nat (2 ^ log2))%nat.
Proof.
  intros H. unfold hash_of, nr_hashmap_hash_key. rewrite Z.shiftl_mul_pow2, Z.mul_1_l by done.
  rewrite Z.sub_1_r, <- Z.ones_equiv, Z.land_ones by done.
  assert (0 < 2 ^ log2) by (apply Z.pow_pos_nonneg; lia).
  apply Z2Nat.inj_lt; [apply Z.mod_pos_bound; lia|lia|]. apply Z.mod_pos_bound. lia.
Qed.

Lemma lex_zero_length (a b : list Z) : length a = length b -> lex a b = 0 <-> a = b.
Proof.
  revert b. induction a as [|x a IH]; intros [|y b] Hlen; try done; simpl in *.
  destruct (Z.eqb_spec x y) as [->|].
  - rewrite IH by lia. split; [by intros ->|by intros [= ->]].
  - split; [lia|by intros [= -> ->]].
Qed.

Lemma bytes_from_self (k : list Z) : bytes_from k (Z.of_nat (length k)) = k.
Proof.
  unfold bytes_from. rewrite Nat2Z.id. apply list_eq. intros i.
  destruct (decide (i < length k)%nat).
  - rewrite list_lookup_fmap, lookup_seq_lt by lia. simpl. rewrite byte_at_lookup, Nat2Z.id.
    destruct (lookup_lt_is_Some_2 k i) as [c Hc]; [lia|by rewrite Hc].
  - rewrite !lookup_ge_None_2; [done|lia|rewrite length_map, length_seq; lia].
Qed.

(** The test of the fetch loop compares the key with the node's key. *)
Lemma key_test (key : cstr) (n : Z) (k : nr_hashmap_key_t) :
  0 < n -> k_length k = Z.of_nat (length (k_value k)) ->
  (n =? k_length k) && (0 =? nr_memcmp (Some key) (Some (k_value k)) n)
  = bool_decide (bytes_from key n = k_value k).
Proof.
  intros Hn Hk. destruct (Z.eqb_spec n (k_length k)) as [E|E]; cbn [andb]; unfold nr_memcmp.
  - destruct (Z.ltb_spec 0 n); [|lia]. fold (bytes_from key n) (bytes_from (k_value k) n).
    assert (Hself : bytes_from (k_value k) n = k_value k) by (rewrite E, Hk; apply bytes_from_self).
    rewrite Hself.
    assert (Hl : length (bytes_from key n) = length (k_value k)) by (rewrite length_bytes_from; lia).
    pose proof (lex_zero_length _ _ Hl) as Hlex.
    case_bool_decide as Hb; [apply Z.eqb_eq|apply Z.eqb_neq]; rewrite <- Hlex in Hb; lia.
  - symmetry. apply bool_decide_eq_false. intros Hb. apply E. rewrite Hk, <- Hb, length_bytes_from. lia.
Qed.

(** ** The invariant *)

Section Invariant.
Context {A : Type}.
Implicit Types (h : nr_hashmap_t A) (store : gmap addr (nr_hashmap_bucket_t A)) (ps : list addr).

Definition node_key (b : nr_hashmap_bucket_t A) : list Z := k_value (b_key b).

(** The nodes at [ps] form a doubly linked list. *)
Definition linked store ps : Prop :=
  forall i p, ps !! i = Some p ->
    exists b, store !! p = Some b
      /\ b_prev b = (match i with O => None | S j => ps !! j end) /\ b_next b = ps !! S i.

(** What the links of the store leave out: the keys and the values. *)
Definition kv store : gmap addr (nr_hashmap_key_t * option A) :=
  (fun b => (b_key b, b_value b)) <$> store.

(** Every node is in the list of its key's hash, and no two nodes have the same key. *)
Record indexed (lg : Z) (chains : list (list addr)) (keys : gmap addr (nr_hashmap_key_t * option A))
  : Prop := {
  ix_home i ps p k v : chains !! i = Some ps -> p ∈ ps -> keys !! p = Some (k, v) ->
    hash_of lg (k_value k) = i;
  ix_reach p k v : keys !! p = Some (k, v) ->
    exists ps, chains !! hash_of lg (k_value k) = Some ps /\ p ∈ ps;
  ix_key p k v : keys !! p = Some (k, v) ->
    k_length k = Z.of_nat (length (k_value k)) /\ valid_key (k_value k);
  ix_unique p q k v k' v' : keys !! p = Some (k, v) -> keys !! q = Some (k', v') ->
    k_value k = k_value k' -> p = q
}.

(** [chains] gives, for each hash, the addresses of the list's nodes. *)
Record hm_ok h (chains : list (list addr)) : Prop := {
  ok_log2 : 1 <= hm_log2_num_buckets h <= 24;
  ok_chains : length chains = Z.to_nat (2 ^ hm_log2_num_buckets h);
  ok_buckets : hm_buckets h = map (fun ps => ps !! 0%nat) chains;
  ok_linked i ps : chains !! i = Some ps -> NoDup ps /\ linked (hm_store h) ps;
  ok_index : indexed (hm_log2_num_buckets h) chains (kv (hm_store h))
}.

(** The entries of [m] are the keys and values of the nodes. *)
Definition holds (keys : gmap addr (nr_hashmap_key_t * option A)) (m : gmap (list Z) (option A))
  : Prop :=
  forall k v, m !! k = Some v <-> exists p l, keys !! p = Some (l, v) /\ k_value l = k.

Definition hm_rep h (m : gmap (list Z) (option A)) : Prop :=
  (exists chains, hm_ok h chains) /\ holds (kv (hm_store h)) m
  /\ hm_elements h = u64 (Z.of_nat (size m)).

Lemma kv_lookup store p b : store !! p = Some b -> kv store !! p = Some (b_key b, b_value b).
Proof. intros H. unfold kv. by rewrite lookup_fmap, H. Qed.

Lemma kv_lookup_inv store p k v :
  kv store !! p = Some (k, v) -> exists b, store !! p = Some b /\ b_key b = k /\ b_value b = v.
Proof.
  unfold kv. rewrite lookup_fmap. destruct (store !! p) as [b|]; [|done].
  intros [= <- <-]. by exists b.
Qed.

Lemma linked_node store ps p : linked store ps -> p ∈ ps -> exists b, store !! p = Some b.
Proof.
  intros Hl [i Hi]%list_elem_of_lookup. destruct (Hl i p Hi) as (b & ? & _). by exists b.
Qed.

Lemma linked_length store ps : NoDup ps -> linked store ps -> (length ps <= size store)%nat.
Proof.
  intros Hnd Hl. rewrite <- size_dom.
  rewrite <- (length_map id ps), map_id, <- (size_list_to_set (C := gset addr)) by done.
  apply subseteq_size. intros p Hp. apply elem_of_list_to_set in Hp.
  destruct (linked_node store ps p Hl Hp) as [b Hb]. apply elem_of_dom. by exists b.
Qed.

Lemma fetch_loop_spec (fuel : nat) store ps (i : nat) (key : cstr) (n : Z) :
  linked store ps -> 0 < n ->
  (forall p b, store !! p = Some b -> k_length (b_key b) = Z.of_nat (length (node_key b))) ->
  (length ps - i < fuel)%nat ->
  exists r, fetch_loop fuel store (ps !! i) key n = Some r /\
    match r with
    | Some p => p ∈ ps /\ exists b, store !! p = Some b /\ node_key b = bytes_from key n
    | None => forall p b, p ∈ drop i ps -> store !! p = Some b -> node_key b <> bytes_from key n
    end.
Proof.
  intros Hl Hn Hk. revert i. induction fuel as [|fuel IH]; intros i Hf; [lia|].
  destruct (ps !! i) as [p|] eqn:Hp; cbn [fetch_loop].
  - destruct (Hl i p Hp) as (b & Hb & _ & Hnext). rewrite Hb. cbn [mbind option_bind].
    rewrite key_test by (done || by apply (Hk p)).
    case_bool_decide as Hkey.
    + exists (Some p). split; [done|]. split; [by apply list_elem_of_lookup_2 in Hp|]. by exists b.
    + rewrite Hnext. destruct (IH (S i)) as (r & -> & Hr); [apply lookup_lt_Some in Hp; lia|].
      exists r. split; [done|]. destruct r as [q|]; [done|]. intros q c Hq Hc.
      rewrite (drop_S ps p) in Hq by done. apply elem_of_cons in Hq as [->|Hq]; [|by apply (Hr q)].
      rewrite Hb in Hc. injection Hc as <-. by intros E.
  - exists None. split; [done|]. intros p b Hin. rewrite drop_ge in Hin by (by apply lookup_ge_None).
    by apply elem_of_nil in Hin.
Qed.

(** Fetching finds the node of the key, if there is one. *)
Lemma nr_hashmap_fetch_spec h chains (key : cstr) (n : Z) :
  hm_ok h chains -> 0 < n < 2 ^ 31 ->
  exists r, nr_hashmap_fetch h (nr_hashmap_hash_key (hm_log2_num_buckets h) key n) key n = Some r /\
    match r with
    | Some p => exists b, hm_store h !! p = Some b /\ node_key b = bytes_from key n
    | None => forall p b, hm_store h !! p = Some b -> node_key b <> bytes_from key n
    end.
Proof.
  intros [Hlog Hlen Hbk Hlk Hix] Hn. unfold nr_hashmap_fetch.
  rewrite hash_bytes_from by done.
  destruct (lookup_lt_is_Some_2 chains (hash_of (hm_log2_num_buckets h) (bytes_from key n))) as [ps Hps].
  { rewrite Hlen. apply hash_of_range. lia. }
  rewrite Hbk, list_lookup_fmap, Hps. cbn [fmap option_fmap option_map mbind option_bind].
  destruct (Hlk _ _ Hps) as [Hnd Hl].
  destruct (fetch_loop_spec (S (size (hm_store h))) (hm_store h) ps 0 key n) as (r & -> & Hr);
    [done|lia|intros p b Hb; by eapply (ix_key _ _ _ Hix), kv_lookup|pose proof (linked_length _ _ Hnd Hl); lia|].
  exists r. split; [done|]. destruct r as [p|].
  - by destruct Hr as [_ ?].
  - intros p b Hb E. pose proof (kv_lookup _ _ _ Hb) as Hkv.
    destruct (ix_reach _ _ _ Hix _ _ _ Hkv) as (ps' & Hps' & Hp).
    unfold node_key in E. rewrite E, Hps in Hps'.
    injection Hps' as <-. by apply (Hr p b).
Qed.

Lemma holds_lookup store m k p b :
  holds (kv store) m -> store !! p = Some b -> node_key b = k -> m !! k = Some (b_value b).
Proof. intros H Hb Hk. apply H. exists p, (b_key b). split; [by apply kv_lookup|done]. Qed.

Lemma holds_none store m k :
  holds (kv store) m -> (forall p b, store !! p = Some b -> node_key b <> k) -> m !! k = None.
Proof.
  intros H Hno. destruct (m !! k) as [v|] eqn:E; [|done]. apply H in E as (p & l & Hp & Hk).
  apply kv_lookup_inv in Hp as (b & Hb & <- & _). by destruct (Hno p b Hb).
Qed.

(** *** Changing the links of nodes *)

(** Functions that change only the links of a node. *)
Definition relinks (f : nr_hashmap_bucket_t A -> nr_hashmap_bucket_t A) : Prop :=
  forall b, b_key (f b) = b_key b /\ b_value (f b) = b_value b.

Lemma write_node_spec store (p : option addr) f :
  relinks f -> (forall a, p = Some a -> is_Some (store !! a)) ->
  exists store', write_node store p f = Some store' /\ kv store' = kv store
    /\ forall a, store' !! a = if decide (p = Some a) then f <$> store !! a else store !! a.
Proof.
  intros Hf Hp. unfold write_node. destruct p as [p|].
  - destruct (Hp p eq_refl) as [b Hb]. rewrite Hb. simpl. eexists. split; [done|]. split.
    + unfold kv. rewrite fmap_insert. destruct (Hf b) as [-> ->]. apply insert_id.
      by rewrite lookup_fmap, Hb.
    + intros a. case_decide as E.
      * injection E as ->. by rewrite lookup_insert_eq, Hb.
      * rewrite lookup_insert_ne; congruence.
  - exists store. split_and!; [done|done|]. intros a. by case_decide.
Qed.

Lemma relinks_set_prev v : relinks (set_prev v).
Proof. by intros b. Qed.

Lemma relinks_set_next v : relinks (set_next v).
Proof. by intros b. Qed.

Lemma linked_ext store store' ps :
  (forall a, a ∈ ps -> store' !! a = store !! a) -> linked store ps -> linked store' ps.
Proof.
  intros E H i p Hi. destruct (H i p Hi) as (b & Hb & ?). exists b.
  split; [|done]. rewrite E; [done|]. by apply list_elem_of_lookup_2 in Hi.
Qed.

(** *** Adding a node *)

Lemma linked_cons store store' p ps b :
  p ∉ ps -> NoDup ps -> linked store ps ->
  store' !! p = Some b -> b_prev b = None -> b_next b = ps !! 0%nat ->
  (forall a, a ∈ ps -> store' !! a = if decide (ps !! 0%nat = Some a)
                                     then set_prev (Some p) <$> store !! a else store !! a) ->
  linked store' (p :: ps).
Proof.
  intros Hp Hnd Hl Hb Hprev Hnext Hst [|i] a Ha.
  - injection Ha as <-. by exists b.
  - simpl in Ha. destruct (Hl i a Ha) as (c & Hc & Hcp & Hcn).
    rewrite Hst by (by apply list_elem_of_lookup_2 in Ha). case_decide as E.
    + assert (i = 0%nat) as -> by (by eapply NoDup_lookup). rewrite Hc. simpl.
      eexists. split; [done|]. by split.
    + exists c. split; [done|]. split; [|done]. rewrite Hcp. by destruct i.
Qed.

(** Putting a node with a new key at the front of its list. *)
Lemma indexed_insert lg chains keys i ps p k v :
  indexed lg chains keys -> chains !! i = Some ps -> keys !! p = None ->
  (forall j qs, chains !! j = Some qs -> p ∉ qs) ->
  (forall q l w, keys !! q = Some (l, w) -> k_value l <> k_value k) ->
  k_length k = Z.of_nat (length (k_value k)) -> valid_key (k_value k) -> hash_of lg (k_value k) = i ->
  indexed lg (<[i := p :: ps]> chains) (<[p := (k, v)]> keys).
Proof.
  intros [Hhome Hreach Hkey Huniq] Hps Hp Hpn Hnew Hkl Hkv Hi.
  assert (Hlt : (i < length chains)%nat) by (by apply lookup_lt_Some in Hps).
  split.
  - intros j qs q l w Hj Hq Hl. destruct (decide (j = i)) as [->|].
    + rewrite list_lookup_insert_eq in Hj by done. injection Hj as <-.
      destruct (decide (q = p)) as [->|].
      * rewrite lookup_insert_eq in Hl. injection Hl as <- <-. done.
      * rewrite lookup_insert_ne in Hl by done.
        apply elem_of_cons in Hq as [->|Hq]; [done|]. by apply (Hhome i ps q l w).
    + rewrite list_lookup_insert_ne in Hj by done.
      rewrite lookup_insert_ne in Hl by (intros <-; by destruct (Hpn j qs Hj)).
      by apply (Hhome j qs q l w).
  - intros q l w Hl. destruct (decide (q = p)) as [->|].
    + rewrite lookup_insert_eq in Hl. injection Hl as <- <-. rewrite Hi. exists (p :: ps).
      split; [by apply list_lookup_insert_eq|by left].
    + rewrite lookup_insert_ne in Hl by done. destruct (Hreach q l w Hl) as (qs & Hqs & Hq).
      destruct (decide (hash_of lg (k_value l) = i)) as [E|].
      * rewrite E in Hqs |- *. exists (p :: ps). split; [by apply list_lookup_insert_eq|right; congruence].
      * exists qs. by rewrite list_lookup_insert_ne.
  - intros q l w Hl. destruct (decide (q = p)) as [->|].
    + rewrite lookup_insert_eq in Hl. by injection Hl as <- <-.
    + rewrite lookup_insert_ne in Hl by done. by apply (Hkey q l w).
  - intros q r l w l' w' Hq Hr E.
    destruct (decide (q = p)) as [->|], (decide (r = p)) as [->|]; [done| | |];
      rewrite ?lookup_insert_eq in Hq; rewrite ?lookup_insert_eq in Hr;
      rewrite ?lookup_insert_ne in Hq by done; rewrite ?lookup_insert_ne in Hr by done.
    + injection Hq as <- <-. by destruct (Hnew _ _ _ Hr).
    + injection Hr as <- <-. by destruct (Hnew _ _ _ Hq).
    + by apply (Huniq q r l w l' w').
Qed.

Lemma holds_insert keys m p k v :
  holds keys m -> keys !! p = None -> (forall q l w, keys !! q = Some (l, w) -> k_value l <> k_value k) ->
  holds (<[p := (k, v)]> keys) (<[k_value k := v]> m).
Proof.
  intros Hm Hp Hnew k' v'. destruct (decide (k' = k_value k)) as [->|Hne].
  - rewrite lookup_insert_eq. split.
    + intros [= <-]. exists p, k. by rewrite lookup_insert_eq.
    + intros (q & l & Hq & Hl). destruct (decide (q = p)) as [->|].
      * rewrite lookup_insert_eq in Hq. congruence.
      * rewrite lookup_insert_ne in Hq by done. by destruct (Hnew _ _ _ Hq).
  - rewrite lookup_insert_ne by done. rewrite (Hm k' v'). split; intros (q & l & Hq & Hl).
    + exists q, l. rewrite lookup_insert_ne; [done|congruence].
    + exists q, l. destruct (decide (q = p)) as [->|]; [|by rewrite lookup_insert_ne in Hq].
      rewrite lookup_insert_eq in Hq. injection Hq as <- <-. done.
Qed.

Lemma size_insert_elements (m : gmap (list Z) (option A)) k v n :
  m !! k = None -> n = u64 (Z.of_nat (size m)) -> u64 (n + 1) = u64 (Z.of_nat (size (<[k:=v]> m))).
Proof.
  intros Hk ->. rewrite map_size_insert_None by done. unfold u64.
  rewrite Z.add_mod_idemp_l by done. f_equal. lia.
Qed.

Lemma nr_hashmap_add_internal_spec h m (key : cstr) (n : Z) (v : option A) :
  hm_rep h m -> 0 < n < 2 ^ 31 -> m !! bytes_from key n = None ->
  exists h', nr_hashmap_add_internal h (nr_hashmap_hash_key (hm_log2_num_buckets h) key n) key n v
             = Some h'
    /\ hm_rep h' (<[bytes_from key n := v]> m) /\ hm_dtor h' = hm_dtor h.
Proof.
  intros ((chains & [Hlog Hlen Hbk Hlk Hix]) & Hm & Hel) Hn Hfree.
  unfold nr_hashmap_add_internal. rewrite hash_bytes_from by done.
  set (k := bytes_from key n) in *. set (lg := hm_log2_num_buckets h) in *. set (i := hash_of lg k).
  destruct (lookup_lt_is_Some_2 chains i) as [ps Hps].
  { rewrite Hlen. apply hash_of_range. lia. }
  rewrite Hbk, list_lookup_fmap, Hps. cbn [fmap option_fmap option_map mbind option_bind].
  set (p := fresh (dom (hm_store h))).
  assert (Hfresh : hm_store h !! p = None) by (apply not_elem_of_dom, is_fresh).
  assert (Hpn : forall j qs, chains !! j = Some qs -> p ∉ qs).
  { intros j qs Hj Hp. destruct (Hlk j qs Hj) as [_ Hlj]. destruct (linked_node _ _ p Hlj Hp). congruence. }
  destruct (Hlk i ps Hps) as [Hnd Hl].
  set (b := mk_bucket None (ps !! 0%nat) (mk_key n k) v).
  destruct (write_node_spec (<[p:=b]> (hm_store h)) (ps !! 0%nat) (set_prev (Some p)))
    as (store' & -> & Hkv & Hst); [apply relinks_set_prev| |].
  { intros a Ha%list_elem_of_lookup_2. destruct (linked_node _ _ a Hl Ha) as [c Hc].
    rewrite lookup_insert_ne by (intros <-; by destruct (Hpn i ps Hps)). by exists c. }
  assert (Hp0 : ps !! 0%nat <> Some p).
  { intros E%list_elem_of_lookup_2. by destruct (Hpn i ps Hps). }
  unfold kv in Hkv. rewrite fmap_insert in Hkv. fold (kv (hm_store h)) (kv store') in Hkv. cbn in Hkv.
  assert (Hkp : kv (hm_store h) !! p = None) by (unfold kv; by rewrite lookup_fmap, Hfresh).
  assert (Hnew : forall q l w, kv (hm_store h) !! q = Some (l, w) -> k_value l <> k).
  { intros q l w Hq E. rewrite (proj2 (Hm k w)) in Hfree; [done|by exists q, l]. }
  assert (Hold : forall a, a <> p -> store' !! a
            = if decide (ps !! 0%nat = Some a) then set_prev (Some p) <$> hm_store h !! a else hm_store h !! a).
  { intros a Ha. by rewrite Hst, lookup_insert_ne. }
  eexists. split; [done|]. split; [|done]. split; [|split]; cbn [hm_store hm_elements].
  - exists (<[i := p :: ps]> chains). split; cbn [hm_log2_num_buckets hm_buckets hm_store]; [done| | | |].
    + by rewrite length_insert.
    + by rewrite list_fmap_insert.
    + intros j qs Hj. destruct (decide (j = i)) as [->|Hne].
      * rewrite list_lookup_insert_eq in Hj by (by apply lookup_lt_Some in Hps). injection Hj as <-.
        assert (Hpps : p ∉ ps) by by apply (Hpn i).
        split; [by constructor|]. apply (linked_cons (hm_store h) store' p ps b); try done.
        -- rewrite Hst, decide_False by done. by rewrite lookup_insert_eq.
        -- intros a Ha. apply Hold. by intros ->.
      * rewrite list_lookup_insert_ne in Hj by done. destruct (Hlk j qs Hj) as [Hndj Hlj].
        split; [done|]. eapply linked_ext; [|exact Hlj]. intros a Ha.
        destruct (linked_node _ _ a Hlj Ha) as [c Hc%kv_lookup].
        rewrite Hold, decide_False; [done| |intros ->; by destruct (Hpn j qs)].
        intros E%list_elem_of_lookup_2. apply Hne.
        rewrite <- (ix_home _ _ _ Hix j qs a _ _ Hj Ha Hc). by apply (ix_home _ _ _ Hix i ps a _ (b_value c)).
    + rewrite Hkv. apply indexed_insert; try done; [|by apply valid_bytes_from].
      simpl. unfold k. rewrite length_bytes_from. lia.
  - rewrite Hkv. by apply (holds_insert _ _ p (mk_key n k)).
  - by apply size_insert_elements.
Qed.

(** *** Removing a node *)

Lemma elem_of_delete_inv ps (j : nat) p q : ps !! j = Some p -> q ∈ ps -> q <> p -> q ∈ delete j ps.
Proof.
  intros Hj [i Hi]%list_elem_of_lookup Hne. apply list_elem_of_lookup.
  destruct (decide (i < j)%nat).
  - exists i. by rewrite list_lookup_delete_lt.
  - destruct (decide (i = j)) as [->|]; [congruence|]. exists (pred i).
    rewrite list_lookup_delete_ge by lia. by replace (S (pred i)) with i by lia.
Qed.

Lemma elem_of_delete_sub ps (j : nat) q : q ∈ delete j ps -> q ∈ ps.
Proof.
  intros [i Hi]%list_elem_of_lookup. apply list_elem_of_lookup. destruct (decide (i < j)%nat).
  - exists i. by rewrite list_lookup_delete_lt in Hi.
  - exists (S i). by rewrite list_lookup_delete_ge in Hi by lia.
Qed.

Lemma NoDup_delete ps (j : nat) p : NoDup ps -> ps !! j = Some p -> NoDup (delete j ps) /\ p ∉ delete j ps.
Proof.
  intros Hnd Hj. rewrite delete_take_drop. rewrite <- (take_drop_middle ps j p Hj) in Hnd.
  apply NoDup_app in Hnd as (H1 & H2 & H3). apply NoDup_cons in H3 as [H4 H5]. split.
  - apply NoDup_app. split_and!; [done| |done]. intros x Hx Hx'. apply (H2 x Hx). by right.
  - rewrite elem_of_app. intros [Hx|Hx]; [|done]. apply (H2 p Hx). by left.
Qed.

Lemma indexed_delete lg chains keys i ps (j : nat) p :
  indexed lg chains keys -> chains !! i = Some ps -> ps !! j = Some p -> NoDup ps ->
  is_Some (keys !! p) ->
  indexed lg (<[i := delete j ps]> chains) (delete p keys).
Proof.
  intros [Hhome Hreach Hkey Huniq] Hps Hj Hnd [[k v] Hp].
  assert (Hlt : (i < length chains)%nat) by (by apply lookup_lt_Some in Hps).
  destruct (NoDup_delete ps j p Hnd Hj) as [_ Hnp].
  split.
  - intros c qs q l w Hc Hq [Hne Hl]%lookup_delete_Some. destruct (decide (c = i)) as [->|].
    + rewrite list_lookup_insert_eq in Hc by done. injection Hc as <-.
      apply (Hhome i ps q l w); [done|by eapply elem_of_delete_sub|done].
    + rewrite list_lookup_insert_ne in Hc by done. by apply (Hhome c qs q l w).
  - intros q l w [Hne Hl]%lookup_delete_Some. destruct (Hreach q l w Hl) as (qs & Hqs & Hq).
    destruct (decide (hash_of lg (k_value l) = i)) as [E|].
    + rewrite E in Hqs |- *. exists (delete j ps). split; [by apply list_lookup_insert_eq|].
      apply (elem_of_delete_inv ps j p); [done|congruence|done].
    + exists qs. by rewrite list_lookup_insert_ne.
  - intros q l w [Hne Hl]%lookup_delete_Some. by apply (Hkey q l w).
  - intros q r l w l' w' [_ Hq]%lookup_delete_Some [_ Hr]%lookup_delete_Some.
    by apply (Huniq q r l w l' w').
Qed.

Lemma holds_delete lg chains keys m p k v :
  indexed lg chains keys -> holds keys m -> keys !! p = Some (k, v) ->
  holds (delete p keys) (delete (k_value k) m).
Proof.
  intros Hix Hm Hp k' v'. rewrite lookup_delete_Some, (Hm k' v'). split.
  - intros [Hne (q & l & Hq & Hl)]. exists q, l. split; [|done]. apply lookup_delete_Some.
    split; [|done]. intros <-. congruence.
  - intros (q & l & [Hne Hq]%lookup_delete_Some & Hl). split; [|by exists q, l].
    intros E. apply Hne. apply (ix_unique _ _ _ Hix p q k v l v'); congruence.
Qed.

(** Patching the neighbours of the node at index [j] makes the list without it. *)
Lemma linked_delete store store' ps (j : nat) p b :
  NoDup ps -> linked store ps -> ps !! j = Some p -> store !! p = Some b ->
  (forall a, a ∈ ps -> a <> p ->
     store' !! a = if decide (b_next b = Some a) then set_prev (b_prev b) <$> store !! a
                   else if decide (b_prev b = Some a) then set_next (b_next b) <$> store !! a
                   else store !! a) ->
  linked store' (delete j ps).
Proof.
  intros Hnd Hl Hj Hb Hst i a Ha.
  destruct (Hl j p Hj) as (b' & Hb' & Hprev & Hnext). rewrite Hb in Hb'. injection Hb' as <-.
  assert (Hinj : forall x y q, ps !! x = Some q -> ps !! y = Some q -> x = y)
    by (intros x y q Hx Hy; by eapply NoDup_lookup).
  assert (Hane : a <> p).
  { intros ->. destruct (NoDup_delete ps j p Hnd Hj) as [_ Hn]. apply Hn.
    by apply list_elem_of_lookup_2 in Ha. }
  assert (Hain : a ∈ ps) by (by apply list_elem_of_lookup_2, elem_of_delete_sub in Ha).
  rewrite (Hst a Hain Hane). destruct (decide (i < j)%nat) as [Hij|Hij].
  - rewrite list_lookup_delete_lt in Ha by done. destruct (Hl i a Ha) as (c & Hc & Hcp & Hcn).
    rewrite decide_False.
    2:{ rewrite Hnext. intros E. specialize (Hinj _ _ _ E Ha). lia. }
    assert (Hpi : match i with O => None | S k => delete j ps !! k end = b_prev c).
    { rewrite Hcp. destruct i as [|i]; [done|]. by rewrite list_lookup_delete_lt by lia. }
    rewrite Hpi, Hc. case_decide as E.
    + rewrite Hprev in E. destruct j as [|j]; [done|]. specialize (Hinj _ _ _ E Ha) as ->.
      simpl. eexists. split; [done|]. split; [done|].
      simpl. rewrite list_lookup_delete_ge by lia. done.
    + exists c. split_and!; [done|done|]. rewrite Hcn. destruct (decide (S i = j)) as [<-|].
      * rewrite Hprev in E. congruence.
      * by rewrite list_lookup_delete_lt by lia.
  - rewrite list_lookup_delete_ge in Ha by lia. destruct (Hl (S i) a Ha) as (c & Hc & Hcp & Hcn).
    rewrite Hc, (list_lookup_delete_ge _ _ (S i)) by lia. case_decide as E.
    + rewrite Hnext in E. specialize (Hinj _ _ _ E Ha). assert (i = j) as -> by lia.
      simpl. eexists. split; [done|]. split; [|done]. simpl. rewrite Hprev.
      destruct j as [|j]; [done|]. by rewrite list_lookup_delete_lt by lia.
    + rewrite decide_False.
      2:{ rewrite Hprev. destruct j as [|j]; [done|]. intros E'. specialize (Hinj _ _ _ E' Ha). lia. }
      exists c. split_and!; [done| |done]. rewrite Hcp. destruct i as [|i].
      * assert (j = 0%nat) as -> by lia. rewrite Hnext in E. congruence.
      * destruct (decide (S i = j)) as [<-|]; [rewrite Hnext in E; congruence|].
        by rewrite list_lookup_delete_ge by lia.
Qed.

(** The two writes and the [free] of a deletion. *)
Lemma unlink_spec store ps (j : nat) p b :
  NoDup ps -> linked store ps -> ps !! j = Some p -> store !! p = Some b ->
  exists store1 store2,
    write_node store (b_next b) (set_prev (b_prev b)) = Some store1
    /\ write_node store1 (b_prev b) (set_next (b_next b)) = Some store2
    /\ store2 !! p = Some b
    /\ kv (delete p store2) = delete p (kv store)
    /\ forall a, a <> p ->
         delete p store2 !! a
         = if decide (b_next b = Some a) then set_prev (b_prev b) <$> store !! a
           else if decide (b_prev b = Some a) then set_next (b_next b) <$> store !! a
           else store !! a.
Proof.
  intros Hnd Hl Hj Hb.
  destruct (Hl j p Hj) as (b' & Hb' & Hprev & Hnext). rewrite Hb in Hb'. injection Hb' as <-.
  assert (Hinj : forall x y q, ps !! x = Some q -> ps !! y = Some q -> x = y)
    by (intros x y q Hx Hy; by eapply NoDup_lookup).
  assert (Hnp : b_next b <> Some p).
  { rewrite Hnext. intros E. specialize (Hinj _ _ _ E Hj). lia. }
  assert (Hpp : b_prev b <> Some p).
  { rewrite Hprev. destruct j as [|j]; [done|]. intros E. specialize (Hinj _ _ _ E Hj). lia. }
  assert (Hpn : forall a, b_prev b = Some a -> b_next b <> Some a).
  { rewrite Hprev, Hnext. intros a Hp Hn. destruct j as [|j]; [done|].
    specialize (Hinj _ _ _ Hp Hn). lia. }
  assert (Hnode : forall i a, ps !! i = Some a -> is_Some (store !! a)).
  { intros i a Hi. destruct (Hl i a Hi) as (c & Hc & _). by exists c. }
  destruct (write_node_spec store (b_next b) (set_prev (b_prev b))) as (s1 & -> & Hkv1 & Hs1).
  { apply relinks_set_prev. }
  { rewrite Hnext. intros a Ha. by eapply Hnode. }
  destruct (write_node_spec s1 (b_prev b) (set_next (b_next b))) as (s2 & H2 & Hkv2 & Hs2).
  { apply relinks_set_next. }
  { intros a Ha. rewrite Hs1, decide_False by by apply Hpn. rewrite Hprev in Ha.
    destruct j as [|j]; [done|]. by eapply Hnode. }
  exists s1, s2. split_and!; [done|done| | |].
  - by rewrite Hs2, decide_False, Hs1, decide_False.
  - unfold kv. rewrite fmap_delete. fold (kv s2). by rewrite Hkv2, Hkv1.
  - intros a Ha. rewrite lookup_delete_ne by done. rewrite Hs2, !Hs1.
    destruct (decide (b_prev b = Some a)) as [E|E]; [|by repeat case_decide].
    rewrite !decide_False by by apply Hpn. done.
Qed.

Lemma hash_inv keys lg (key : cstr) (n : Z) p k v chains :
  0 < n < 2 ^ 31 -> indexed lg chains keys -> keys !! p = Some (k, v) ->
  k_value k = bytes_from key n ->
  exists ps j, chains !! Z.to_nat (nr_hashmap_hash_key lg key n) = Some ps /\ ps !! j = Some p.
Proof.
  intros Hn Hix Hp Hk. rewrite hash_bytes_from by done. rewrite <- Hk.
  destruct (ix_reach _ _ _ Hix p k v Hp) as (ps & Hps & [j Hj]%list_elem_of_lookup). by exists ps, j.
Qed.

Lemma nr_hashmap_delete_spec h m (key : cstr) (n : Z) :
  hm_rep h m -> 0 < n < 2 ^ 31 ->
  exists st h', nr_hashmap_delete (Some h) (Some key) n
      = Some (st, Some h', if hm_dtor h then option_list (m !! bytes_from key n) else [])
    /\ hm_rep h' (delete (bytes_from key n) m) /\ hm_dtor h' = hm_dtor h
    /\ (st = NR_SUCCESS <-> is_Some (m !! bytes_from key n)).
Proof.
  intros Hrep Hn. pose proof Hrep as ((chains & Hok) & Hm & Hel). unfold nr_hashmap_delete.
  destruct (Z.eqb_spec 0 n); [lia|].
  destruct (nr_hashmap_fetch_spec h chains key n Hok Hn) as (r & -> & Hr). cbn [mbind option_bind].
  destruct r as [p|].
  2:{ rewrite (holds_none _ m _ Hm Hr), delete_id by by apply (holds_none _ m _ Hm Hr).
      exists NR_FAILURE, h. split_and!; [by destruct (hm_dtor h)|done|done|].
      split; [done|by intros [? ?]]. }
  destruct Hr as (b & Hb & Hk). rewrite Hb. cbn [mbind option_bind].
  rewrite (holds_lookup _ m _ p b Hm Hb Hk).
  destruct Hok as [Hlog Hlen Hbk Hlk Hix].
  pose proof (kv_lookup _ _ _ Hb) as Hp.
  destruct (hash_inv _ _ key n p _ _ chains Hn Hix Hp Hk) as (ps & j & Hps & Hj).
  destruct (Hlk _ _ Hps) as [Hnd Hl].
  destruct (unlink_spec (hm_store h) ps j p b Hnd Hl Hj Hb) as (s1 & s2 & -> & H2 & Hs2 & Hkv & Hlook).
  cbn [mbind option_bind]. rewrite H2. cbn [mbind option_bind].
  rewrite Hbk, list_lookup_fmap, Hps. cbn [fmap option_fmap option_map mbind option_bind].
  unfold nr_hashmap_destroy_bucket. rewrite Hs2. cbn [mbind option_bind].
  set (i := Z.to_nat (nr_hashmap_hash_key (hm_log2_num_buckets h) key n)) in *.
  eexists NR_SUCCESS, _. split; [done|]. split_and!; [|done|split; [by eexists|done]].
  destruct (NoDup_delete ps j p Hnd Hj) as [Hndd Hnpd].
  split; [|split]; cbn [hm_store hm_elements].
  - exists (<[i := delete j ps]> chains). split; cbn [hm_log2_num_buckets hm_buckets hm_store]; [done| | | |].
    + by rewrite length_insert.
    + rewrite list_fmap_insert. destruct j as [|j].
      * rewrite bool_decide_eq_true_2 by done. f_equal.
        destruct (Hl 0%nat p Hj) as (b' & Hb' & _ & Hnext). rewrite Hb in Hb'. injection Hb' as <-.
        rewrite Hnext, list_lookup_delete_ge by lia. done.
      * rewrite bool_decide_eq_false_2.
        2:{ intros E. by specialize (NoDup_lookup _ _ _ _ Hnd E Hj). }
        symmetry. apply list_insert_id. rewrite list_lookup_fmap, Hps. simpl.
        by rewrite list_lookup_delete_lt by lia.
    + intros c qs Hc. destruct (decide (c = i)) as [->|Hne].
      * rewrite list_lookup_insert_eq in Hc by (by apply lookup_lt_Some in Hps). injection Hc as <-.
        split; [done|]. apply (linked_delete (hm_store h) _ ps j p b); try done.
        intros a _ Ha. by apply Hlook.
      * rewrite list_lookup_insert_ne in Hc by done. destruct (Hlk c qs Hc) as [Hndc Hlc].
        split; [done|]. eapply linked_ext; [|exact Hlc]. intros a Ha.
        destruct (linked_node _ _ a Hlc Ha) as [d Hd%kv_lookup].
        assert (Hout : forall x, ps !! x <> Some a).
        { intros x Hx%list_elem_of_lookup_2. apply Hne.
          rewrite <- (ix_home _ _ _ Hix c qs a _ _ Hc Ha Hd).
          by rewrite (ix_home _ _ _ Hix i ps a _ _ Hps Hx Hd). }
        destruct (Hl j p Hj) as (b' & Hb' & Hprev & Hnext). rewrite Hb in Hb'. injection Hb' as <-.
        rewrite Hlook, !decide_False; [done| | |].
        -- rewrite Hprev. destruct j; [done|apply Hout].
        -- rewrite Hnext. apply Hout.
        -- intros ->. by destruct (Hout j).
    + rewrite Hkv. apply indexed_delete; try done.
  - rewrite Hkv. rewrite <- Hk. by eapply holds_delete.
  - rewrite map_size_delete_Some by (exists (b_value b); by apply (holds_lookup _ m _ p b Hm Hb Hk)). rewrite Hel. unfold u64.
    rewrite Zminus_mod_idemp_l. f_equal.
    assert (size m <> 0%nat).
    { intros E%map_size_empty_inv. rewrite E in Hm.
      pose proof (holds_lookup _ _ _ p b Hm Hb Hk) as E'. by rewrite lookup_empty in E'. }
    lia.
Qed.

(** *** Changing a value *)

Lemma indexed_value lg chains keys p k v w :
  indexed lg chains keys -> keys !! p = Some (k, v) -> indexed lg chains (<[p := (k, w)]> keys).
Proof.
  intros [Hhome Hreach Hkey Huniq] Hp.
  assert (Hold : forall q l x, <[p := (k, w)]> keys !! q = Some (l, x) -> exists y, keys !! q = Some (l, y)).
  { intros q l x [[<- [= <- <-]]|[_ H]]%lookup_insert_Some; [by exists v|by exists x]. }
  split.
  - intros i ps q l x Hi Hq [y Hy]%Hold. by apply (Hhome i ps q l y).
  - intros q l x [y Hy]%Hold. by apply (Hreach q l y).
  - intros q l x [y Hy]%Hold. by apply (Hkey q l y).
  - intros q r l x l' x' [y Hy]%Hold [z Hz]%Hold. by apply (Huniq q r l y l' z).
Qed.

Lemma holds_value lg chains keys m p k v w :
  indexed lg chains keys -> holds keys m -> keys !! p = Some (k, v) ->
  holds (<[p := (k, w)]> keys) (<[k_value k := w]> m).
Proof.
  intros Hix Hm Hp k' v'. rewrite lookup_insert_Some, (Hm k' v'). split.
  - intros [[<- <-]|[Hne (q & l & Hq & Hl)]]; [exists p, k; by rewrite lookup_insert_eq|].
    exists q, l. split; [|done]. apply lookup_insert_Some. right. split; [|done]. intros <-. congruence.
  - intros (q & l & [[<- [= <- <-]]|[Hne Hq]]%lookup_insert_Some & Hl); [by left|right].
    split; [|by exists q, l]. intros E. apply Hne.
    apply (ix_unique _ _ _ Hix p q k v l v'); congruence.
Qed.

Lemma linked_value store ps p b w :
  store !! p = Some b -> linked store ps -> linked (<[p := set_value w b]> store) ps.
Proof.
  intros Hb Hl i a Ha. destruct (Hl i a Ha) as (c & Hc & Hprev & Hnext).
  destruct (decide (a = p)) as [->|].
  - rewrite lookup_insert_eq. rewrite Hb in Hc. injection Hc as <-. by eexists.
  - rewrite lookup_insert_ne by done. by exists c.
Qed.

Lemma nr_hashmap_update_spec h m (key : cstr) (n : Z) (v : option A) :
  hm_rep h m -> 0 < n < 2 ^ 31 ->
  exists h', nr_hashmap_update (Some h) (Some key) n v
      = Some (Some h', if hm_dtor h then option_list (m !! bytes_from key n) else [])
    /\ hm_rep h' (<[bytes_from key n := v]> m) /\ hm_dtor h' = hm_dtor h.
Proof.
  intros Hrep Hn. pose proof Hrep as ((chains & Hok) & Hm & Hel). unfold nr_hashmap_update.
  destruct (Z.eqb_spec 0 n); [lia|].
  destruct (nr_hashmap_fetch_spec h chains key n Hok Hn) as (r & -> & Hr). cbn [mbind option_bind].
  destruct r as [p|].
  2:{ rewrite (holds_none _ m _ Hm Hr).
      destruct (nr_hashmap_add_internal_spec h m key n v Hrep Hn) as (h' & -> & ? & ?);
        [by apply (holds_none _ m _ Hm Hr)|].
      exists h'. split_and!; [by destruct (hm_dtor h)|done|done]. }
  destruct Hr as (b & Hb & Hk). rewrite Hb. cbn [mbind option_bind].
  rewrite (holds_lookup _ m _ p b Hm Hb Hk). eexists. split; [done|]. split; [|done].
  destruct Hok as [Hlog Hlen Hbk Hlk Hix]. pose proof (kv_lookup _ _ _ Hb) as Hp.
  assert (Hkv : kv (<[p := set_value v b]> (hm_store h)) = <[p := (b_key b, v)]> (kv (hm_store h)))
    by (unfold kv; by rewrite fmap_insert).
  split; [|split]; cbn [hm_store hm_elements].
  - exists chains. split; cbn [hm_log2_num_buckets hm_buckets hm_store]; [done..| |].
    + intros i ps Hi. destruct (Hlk i ps Hi). split; [done|]. by apply linked_value.
    + rewrite Hkv. by eapply indexed_value.
  - rewrite Hkv, <- Hk. by eapply holds_value.
  - rewrite Hel. do 2 f_equal. rewrite map_size_insert_Some; [done|].
    exists (b_value b). by apply (holds_lookup _ m _ p b Hm Hb Hk).
Qed.

(** *** Lookups *)

Lemma nr_hashmap_get_into_spec h m (key : cstr) (n : Z) :
  hm_rep h m -> 0 < n < 2 ^ 31 ->
  nr_hashmap_get_into (Some h) (Some key) n = Some (m !! bytes_from key n)
  /\ nr_hashmap_has (Some h) (Some key) n = Some (bool_decide (is_Some (m !! bytes_from key n))).
Proof.
  intros ((chains & Hok) & Hm & Hel) Hn. unfold nr_hashmap_get_into, nr_hashmap_has.
  destruct (Z.eqb_spec 0 n); [lia|].
  destruct (nr_hashmap_fetch_spec h chains key n Hok Hn) as (r & -> & Hr). cbn [mbind option_bind].
  destruct r as [p|].
  - destruct Hr as (b & Hb & Hk). rewrite Hb. cbn [mbind option_bind].
    by rewrite (holds_lookup _ m _ p b Hm Hb Hk).
  - by rewrite (holds_none _ m _ Hm Hr).
Qed.

Lemma nr_hashmap_set_spec h m (key : cstr) (n : Z) (v : option A) :
  hm_rep h m -> 0 < n < 2 ^ 31 ->
  exists h', nr_hashmap_set (Some h) (Some key) n v
      = Some (if bool_decide (is_Some (m !! bytes_from key n)) then NR_FAILURE else NR_SUCCESS, Some h')
    /\ hm_rep h' (if bool_decide (is_Some (m !! bytes_from key n)) then m
                  else <[bytes_from key n := v]> m) /\ hm_dtor h' = hm_dtor h.
Proof.
  intros Hrep Hn. pose proof Hrep as ((chains & Hok) & Hm & Hel). unfold nr_hashmap_set.
  destruct (Z.eqb_spec 0 n); [lia|].
  destruct (nr_hashmap_fetch_spec h chains key n Hok Hn) as (r & -> & Hr). cbn [mbind option_bind].
  destruct r as [p|].
  - destruct Hr as (b & Hb & Hk). rewrite (holds_lookup _ m _ p b Hm Hb Hk).
    rewrite bool_decide_eq_true_2 by by eexists. by exists h.
  - rewrite (holds_none _ m _ Hm Hr), bool_decide_eq_false_2 by by intros [? ?].
    destruct (nr_hashmap_add_internal_spec h m key n v Hrep Hn) as (h' & -> & ? & ?);
      [by apply (holds_none _ m _ Hm Hr)|]. by exists h'.
Qed.

Lemma nr_hashmap_create_internal_spec (log2 : Z) (dtor : bool) :
  0 <= log2 -> hm_rep (nr_hashmap_create_internal (A:=A) log2 dtor) ∅.
Proof.
  intros H. unfold nr_hashmap_create_internal.
  set (lg := if 0 =? log2 then 8 else if 24 <? log2 then 24 else log2).
  assert (Hlg : 1 <= lg <= 24).
  { unfold lg. destruct (Z.eqb_spec 0 log2); [lia|]. destruct (Z.ltb_spec 24 log2); lia. }
  assert (Hkv : kv (∅ : gmap addr (nr_hashmap_bucket_t A)) = ∅) by apply fmap_empty.
  split; [|split]; cbn [hm_store hm_elements].
  - exists (replicate (Z.to_nat (Z.shiftl 1 lg)) []). rewrite Z.shiftl_mul_pow2, Z.mul_1_l by lia.
    split; cbn [hm_log2_num_buckets hm_buckets hm_store]; [done|by rewrite length_replicate| | |].
    + by rewrite fmap_replicate.
    + intros i ps [-> _]%lookup_replicate. split; [constructor|]. intros j p Hj. by rewrite lookup_nil in Hj.
    + rewrite Hkv. split.
      * intros i ps p k v _ _ Hp. by rewrite lookup_empty in Hp.
      * intros p k v Hp. by rewrite lookup_empty in Hp.
      * intros p k v Hp. by rewrite lookup_empty in Hp.
      * intros p q k v k' v' Hp. by rewrite lookup_empty in Hp.
  - rewrite Hkv. intros k v. rewrite lookup_empty. split; [done|]. intros (p & l & Hp & _).
    by rewrite lookup_empty in Hp.
  - by rewrite map_size_empty.
Qed.
End Invariant.

(** ** Refinement *)

Inductive hm_op (A : Type) : Type :=
| HSet (key : cstr) (n : Z) (v : option A)
| HUpdate (key : cstr) (n : Z) (v : option A)
| HDelete (key : cstr) (n : Z)
| HGet (key : cstr) (n : Z)
| HHas (key : cstr) (n : Z)
| HCount.
Arguments HSet {A} _ _ _.
Arguments HUpdate {A} _ _ _.
Arguments HDelete {A} _ _.
Arguments HGet {A} _ _.
Arguments HHas {A} _ _.
Arguments HCount {A}.

(** A call's status, its value, and what it gave to the destructor. *)
Inductive hm_out (A : Type) : Type :=
| OStatus (st : nr_status_t) (destroyed : list (option A))
| OVoid (destroyed : list (option A))
| OValue (v : option A)
| OBool (b : bool)
| ONum (n : Z).
Arguments OStatus {A} _ _.
Arguments OVoid {A} _.
Arguments OValue {A} _.
Arguments OBool {A} _.
Arguments ONum {A} _.

Section Refinement.
Context {A : Type}.

Definition hm_run_op (hp : option (nr_hashmap_t A)) (op : hm_op A)
  : option (hm_out A * option (nr_hashmap_t A)) :=
  match op with
  | HSet key n v => '(st, hp) ← nr_hashmap_set hp (Some key) n v; Some (OStatus st [], hp)
  | HUpdate key n v => '(hp, d) ← nr_hashmap_update hp (Some key) n v; Some (OVoid d, hp)
  | HDelete key n => '(st, hp, d) ← nr_hashmap_delete hp (Some key) n; Some (OStatus st d, hp)
  | HGet key n => match nr_hashmap_get hp (Some key) n with
                  | Some v => Some (OValue v, hp)
                  | None => None
                  end
  | HHas key n => b ← nr_hashmap_has hp (Some key) n; Some (OBool b, hp)
  | HCount => Some (ONum (nr_hashmap_count hp), hp)
  end.

(** The same call on a finite map from byte strings; a key of length zero is refused. *)
Definition map_op (dtor : bool) (m : gmap (list Z) (option A)) (op : hm_op A)
  : hm_out A * gmap (list Z) (option A) :=
  let found key n := m !! bytes_from key n in
  let destroyed key n := if dtor then option_list (found key n) else [] in
  match op with
  | HSet key n v =>
      if (n =? 0) || bool_decide (is_Some (found key n)) then (OStatus NR_FAILURE [], m)
      else (OStatus NR_SUCCESS [], <[bytes_from key n := v]> m)
  | HUpdate key n v =>
      if n =? 0 then (OVoid [], m)
      else (OVoid (destroyed key n), <[bytes_from key n := v]> m)
  | HDelete key n =>
      if (n =? 0) || bool_decide (~ is_Some (found key n)) then (OStatus NR_FAILURE [], m)
      else (OStatus NR_SUCCESS (destroyed key n), delete (bytes_from key n) m)
  | HGet key n => (OValue (if n =? 0 then None else default None (found key n)), m)
  | HHas key n => (OBool (negb (n =? 0) && bool_decide (is_Some (found key n))), m)
  | HCount => (ONum (u64 (Z.of_nat (size m))), m)
  end.

(** Key lengths below 2 GiB: [nr_hashmap_hash_key] converts them to [int]. *)
Definition hm_op_wf (op : hm_op A) : Prop :=
  match op with
  | HSet _ n _ | HUpdate _ n _ | HDelete _ n | HGet _ n | HHas _ n => 0 <= n < 2 ^ 31
  | HCount => True
  end.

Lemma hm_run_op_refines (h : nr_hashmap_t A) (m : gmap (list Z) (option A)) (op : hm_op A) :
  hm_rep h m -> hm_op_wf op ->
  exists h', hm_run_op (Some h) op = Some (fst (map_op (hm_dtor h) m op), Some h')
    /\ hm_rep h' (snd (map_op (hm_dtor h) m op)) /\ hm_dtor h' = hm_dtor h.
Proof.
  intros Hrep Hwf. destruct op as [key n v|key n v|key n|key n|key n|]; simpl in Hwf;
    try (destruct (Z.eqb_spec n 0) as [->|Hn0]; [by exists h|]);
    cbn [hm_run_op map_op].
  - destruct (nr_hashmap_set_spec h m key n v Hrep) as (h' & -> & Hrep' & Hd); [lia|].
    exists h'. destruct (Z.eqb_spec n 0); [lia|]. cbn [orb]. by case_bool_decide.
  - destruct (nr_hashmap_update_spec h m key n v Hrep) as (h' & -> & Hrep' & Hd); [lia|].
    exists h'. by destruct (Z.eqb_spec n 0); [lia|].
  - destruct (nr_hashmap_delete_spec h m key n Hrep) as (st & h' & -> & Hrep' & Hd & Hst); [lia|].
    exists h'. destruct (Z.eqb_spec n 0); [lia|]. cbn [orb mbind option_bind].
    destruct (m !! bytes_from key n) as [v|] eqn:E.
    + rewrite bool_decide_eq_false_2 by (intros H; by apply H). by rewrite (proj2 Hst) by by eexists.
    + rewrite bool_decide_eq_true_2 by by intros [? ?]. rewrite delete_id in Hrep' by done.
      split_and!; [|done|done]. destruct st; [|by destruct (hm_dtor h)].
      by destruct (proj1 Hst eq_refl).
  - destruct (nr_hashmap_get_into_spec h m key n Hrep) as [Hg _]; [lia|]. exists h.
    unfold nr_hashmap_get. rewrite Hg. by destruct (Z.eqb_spec n 0); [lia|].
  - destruct (nr_hashmap_get_into_spec h m key n Hrep) as [_ Hg]; [lia|]. exists h.
    rewrite Hg. by destruct (Z.eqb_spec n 0); [lia|].
  - exists h. pose proof Hrep as (_ & _ & Hel). simpl. by rewrite <- Hel.
Qed.

Fixpoint hm_run_ops (hp : option (nr_hashmap_t A)) (ops : list (hm_op A))
  : option (list (hm_out A) * option (nr_hashmap_t A)) :=
  match ops with
  | [] => Some ([], hp)
  | op :: ops => '(o, hp) ← hm_run_op hp op; '(os, hp) ← hm_run_ops hp ops; Some (o :: os, hp)
  end.

Fixpoint map_ops (dtor : bool) (m : gmap (list Z) (option A)) (ops : list (hm_op A))
  : list (hm_out A) * gmap (list Z) (option A) :=
  match ops with
  | [] => ([], m)
  | op :: ops =>
      let '(o, m) := map_op dtor m op in
      let '(os, m) := map_ops dtor m ops in
      (o :: os, m)
  end.

Lemma hm_run_ops_refines (h : nr_hashmap_t A) (m : gmap (list Z) (option A)) (ops : list (hm_op A)) :
  hm_rep h m -> Forall hm_op_wf ops ->
  exists h', hm_run_ops (Some h) ops = Some (fst (map_ops (hm_dtor h) m ops), Some h')
    /\ hm_rep h' (snd (map_ops (hm_dtor h) m ops)) /\ hm_dtor h' = hm_dtor h.
Proof.
  intros Hrep Hwf. revert h m Hrep. induction Hwf as [|op ops Hop Hops IH]; intros h m Hrep.
  { by exists h. }
  destruct (hm_run_op_refines h m op Hrep Hop) as (h1 & H1 & Hrep1 & Hd1).
  destruct (IH h1 _ Hrep1) as (h2 & H2 & Hrep2 & Hd2). rewrite Hd1 in *.
  exists h2. cbn [hm_run_ops map_ops]. rewrite H1. cbn [mbind option_bind].
  destruct (map_op (hm_dtor h) m op) as [o m1]. simpl in *. rewrite H2. cbn [mbind option_bind].
  by destruct (map_ops (hm_dtor h) m1 ops) as [os m2].
Qed.
End Refinement.

(** *** Visiting every entry *)

Section Visit.
Context {A : Type}.
Implicit Types (h : nr_hashmap_t A) (store : gmap addr (nr_hashmap_bucket_t A)) (ps : list addr).

(** The nodes at the addresses of a list. *)
Definition nodes store ps : list (nr_hashmap_bucket_t A) := omap (fun p => store !! p) ps.

Lemma nodes_cons store ps p b : store !! p = Some b -> nodes store (p :: ps) = b :: nodes store ps.
Proof. intros Hb. unfold nodes. cbn. by rewrite Hb. Qed.

Lemma chain_nodes_spec (fuel : nat) store ps (i : nat) :
  linked store ps -> (length ps - i < fuel)%nat ->
  chain_nodes fuel store (ps !! i) = Some (nodes store (drop i ps)).
Proof.
  intros Hl. revert i. induction fuel as [|fuel IH]; intros i Hf; [lia|].
  destruct (ps !! i) as [p|] eqn:Hp; cbn [chain_nodes].
  - destruct (Hl i p Hp) as (b & Hb & _ & Hnext). rewrite Hb. cbn [mbind option_bind].
    rewrite Hnext, IH by (apply lookup_lt_Some in Hp; lia). cbn [mbind option_bind].
    by rewrite (drop_S ps p i), (nodes_cons _ _ _ b) by done.
  - by rewrite drop_ge by by apply lookup_ge_None.
Qed.

Lemma all_nodes_spec store (chains : list (list addr)) :
  Forall (fun ps => NoDup ps /\ linked store ps) chains ->
  all_nodes store (map (fun ps => ps !! 0%nat) chains) = Some (nodes store (concat chains)).
Proof.
  induction 1 as [|ps chains [Hnd Hl] Hc IH]; [done|]. cbn [map all_nodes].
  rewrite (chain_nodes_spec _ store ps 0 Hl) by (pose proof (linked_length _ _ Hnd Hl); lia).
  cbn [mbind option_bind]. rewrite IH. cbn [mbind option_bind]. rewrite drop_0.
  unfold nodes. simpl. by rewrite omap_app.
Qed.

Lemma elem_of_concat_lookup (chains : list (list addr)) p :
  p ∈ concat chains <-> exists i ps, chains !! i = Some ps /\ p ∈ ps.
Proof.
  rewrite list_elem_of_In, in_concat. split.
  - intros (ps & Hps & Hp). apply list_elem_of_In in Hps, Hp.
    apply list_elem_of_lookup in Hps as [i Hi]. by exists i, ps.
  - intros (i & ps & Hi & Hp). exists ps. rewrite <- !list_elem_of_In.
    split; [by apply list_elem_of_lookup_2 in Hi|done].
Qed.

Lemma NoDup_concat_chains (chains : list (list addr)) :
  (forall i ps, chains !! i = Some ps -> NoDup ps) ->
  (forall i j ps qs p, chains !! i = Some ps -> chains !! j = Some qs -> p ∈ ps -> p ∈ qs -> i = j) ->
  NoDup (concat chains).
Proof.
  induction chains as [|ps chains IH]; intros Hnd Hdis; [constructor|]. simpl.
  apply NoDup_app. split_and!.
  - by apply (Hnd 0%nat).
  - intros p Hp (i & qs & Hi & Hq)%elem_of_concat_lookup.
    by specialize (Hdis 0%nat (S i) ps qs p eq_refl Hi Hp Hq).
  - apply IH.
    + intros i qs Hi. by apply (Hnd (S i)).
    + intros i j qs rs p Hi Hj Hq Hr. by specialize (Hdis (S i) (S j) qs rs p Hi Hj Hq Hr) as [= ->].
Qed.

(** The loops over all lists meet every entry of the map once. *)
Lemma all_nodes_entries h m :
  hm_rep h m ->
  exists bs,
    all_nodes (hm_store h) (take (Z.to_nat (nr_hashmap_count_buckets h)) (hm_buckets h)) = Some bs
    /\ map (fun b => (node_key b, b_value b)) bs ≡ₚ map_to_list m
    /\ Forall (fun b => k_length (b_key b) = Z.of_nat (length (node_key b))) bs.
Proof.
  intros ((chains & [Hlog Hlen Hbk Hlk Hix]) & Hm & _).
  exists (nodes (hm_store h) (concat chains)). split_and!.
  - rewrite Hbk. unfold nr_hashmap_count_buckets. rewrite Z.shiftl_mul_pow2, Z.mul_1_l by lia.
    rewrite take_ge by (rewrite length_map, Hlen; lia). apply all_nodes_spec.
    apply Forall_lookup. intros i ps. apply Hlk.
  - assert (Hin : forall b, b ∈ nodes (hm_store h) (concat chains)
                       <-> exists p, p ∈ concat chains /\ hm_store h !! p = Some b)
      by (intros b; apply list_elem_of_omap).
    apply NoDup_Permutation; [|apply NoDup_map_to_list|].
    + assert (Hnd : NoDup (concat chains)).
      { apply NoDup_concat_chains; [intros i ps Hi; by apply (Hlk i)|].
        intros i j ps qs p Hi Hj Hp Hq. destruct (Hlk i ps Hi) as [_ Hl].
        destruct (linked_node _ _ p Hl Hp) as [b Hb%kv_lookup].
        rewrite <- (ix_home _ _ _ Hix i ps p _ _ Hi Hp Hb).
        by apply (ix_home _ _ _ Hix j qs p _ (b_value b)). }
      clear Hin Hlk Hlen Hbk. induction (concat chains) as [|p ps IH]; [constructor|].
      apply NoDup_cons in Hnd as [Hp Hnd]. unfold nodes. simpl.
      destruct (hm_store h !! p) as [b|] eqn:Hb; [|by apply IH]. cbn [map]. constructor; [|by apply IH].
      intros (c & [= Ek Ev] & (q & Hq & Hc)%list_elem_of_omap)%list_elem_of_fmap. apply Hp.
      apply kv_lookup in Hb, Hc. by rewrite (ix_unique _ _ _ Hix p q _ _ _ _ Hb Hc Ek).
    + intros [k v]. rewrite elem_of_map_to_list, (Hm k v), list_elem_of_fmap. split.
      * intros (b & [= -> ->] & (p & _ & Hb)%Hin). exists p, (b_key b). split; [by apply kv_lookup|done].
      * intros (p & l & Hp & <-). destruct (ix_reach _ _ _ Hix p l v Hp) as (ps & Hps & Hpp).
        apply kv_lookup_inv in Hp as (b & Hb & <- & <-). exists b. split; [done|]. apply Hin.
        exists p. split; [|done]. apply elem_of_concat_lookup. by eexists _, ps.
  - apply Forall_forall. intros b (p & _ & Hb)%list_elem_of_omap.
    apply kv_lookup in Hb. apply (ix_key _ _ _ Hix _ _ _ Hb).
Qed.
End Visit.

(** ** Properties *)

(* @about nr_hashmap_create_internal nr_hashmap_set nr_hashmap_update nr_hashmap_delete nr_hashmap_get nr_hashmap_has nr_hashmap_count nr_hashmap_fetch nr_hashmap_add_internal nr_hashmap_hash_key nr_hashmap_destroy_bucket *)
(** C26 (refinement): the hash map is a finite map from byte strings.  Any sequence of set,
    update, delete, get, has and count calls on a new map runs without following a dangling
    pointer or looping, and its outputs (statuses, values, counts, and the values handed to
    the destructor) are exactly those of the same calls on a finite map, whatever the hash
    collisions and the bucket count; the linked lists stay consistent throughout. *)
Theorem nr_hashmap_refines_map {A : Type} (log2 : Z) (dtor : bool) (ops : list (hm_op A)) :
  0 <= log2 -> Forall hm_op_wf ops ->
  exists h,
    hm_run_ops (Some (nr_hashmap_create_internal log2 dtor)) ops
      = Some (fst (map_ops dtor ∅ ops), Some h)
    /\ hm_rep h (snd (map_ops dtor ∅ ops)).
Proof.
  intros Hlog Hwf.
  destruct (hm_run_ops_refines (nr_hashmap_create_internal log2 dtor) ∅ ops) as (h & Hrun & Hrep & _);
    [by apply nr_hashmap_create_internal_spec|done|]. by exists h.
Qed.

Lemma nr_hashmap_refines_map_witness :
  exists h : nr_hashmap_t nat,
    hm_run_ops (Some (nr_hashmap_create_internal 1 true))
      [HSet (str "alpha") 5 (Some 1%nat); HUpdate (str "alpha") 5 (Some 2%nat); HGet (str "alpha") 5;
       HDelete (str "alpha") 5; HCount]
      = Some ([OStatus NR_SUCCESS []; OVoid [Some 1%nat]; OValue (Some 2%nat);
               OStatus NR_SUCCESS [Some 2%nat]; ONum 0], Some h)
    /\ hm_rep h (snd (map_ops true ∅
      [HSet (str "alpha") 5 (Some 1%nat); HUpdate (str "alpha") 5 (Some 2%nat); HGet (str "alpha") 5;
       HDelete (str "alpha") 5; HCount])).
Proof.
  apply (nr_hashmap_refines_map 1 true
    [HSet (str "alpha") 5 (Some 1%nat); HUpdate (str "alpha") 5 (Some 2%nat); HGet (str "alpha") 5;
     HDelete (str "alpha") 5; HCount]); [lia|].
  repeat constructor; simpl; lia.
Defined.

(** Iterating over a map calls the function once for each entry, with its
    value, its key and the key's length, and for nothing else; and destroying the map calls
    the destructor, if there is one, once for each value. *)
Theorem nr_hashmap_apply_visits_once {A : Type} (h : nr_hashmap_t A) (m : gmap (list Z) (option A)) :
  hm_rep h m ->
  (exists calls,
     nr_hashmap_apply (Some h) (Some (fun v k n calls => calls ++ [(k, v, n)])) [] = Some calls
     /\ calls ≡ₚ map (fun kv => (fst kv, snd kv, Z.of_nat (length (fst kv)))) (map_to_list m))
  /\ (exists destroyed, nr_hashmap_destroy (Some (Some h)) = Some (Some None, destroyed)
      /\ destroyed ≡ₚ (if hm_dtor h then map snd (map_to_list m) else [])).
Proof.
  intros Hrep. destruct (all_nodes_entries h m Hrep) as (bs & Hbs & Hperm & Hlen).
  unfold nr_hashmap_apply, nr_hashmap_destroy. rewrite Hbs. cbn [mbind option_bind]. split.
  - eexists. split; [done|]. rewrite <- Hperm, map_map.
    assert (E : forall acc, foldl (fun (st : list (list Z * option A * Z)) b =>
                   st ++ [(k_value (b_key b), b_value b, k_length (b_key b))]) acc bs
                = acc ++ map (fun b => (node_key b, b_value b, Z.of_nat (length (node_key b)))) bs).
    { clear Hbs Hperm. induction Hlen as [|b bs Hb Hlen IH]; intros acc; simpl; [by rewrite app_nil_r|].
      rewrite IH, <- app_assoc. simpl. by rewrite Hb. }
    by rewrite E.
  - eexists. split; [done|]. destruct (hm_dtor h); [|done]. rewrite <- Hperm, map_map. done.
Qed.

Lemma nr_hashmap_apply_visits_once_witness :
  exists h : nr_hashmap_t nat, hm_rep h {[ str "k" := Some 4%nat ]}
    /\ exists destroyed, nr_hashmap_destroy (Some (Some h)) = Some (Some None, destroyed)
                        /\ destroyed ≡ₚ [Some 4%nat].
Proof.
  destruct (nr_hashmap_update_spec (nr_hashmap_create_internal 1 true) ∅ (str "k") 1 (Some 4%nat))
    as (h & _ & Hrep & Hd); [by apply nr_hashmap_create_internal_spec|lia|].
  exists h. split; [exact Hrep|].
  destruct (nr_hashmap_apply_visits_once h _ Hrep) as (_ & destroyed & Hdes & Hperm).
  exists destroyed. split; [exact Hdes|]. rewrite Hd in Hperm. exact Hperm.
Defined.

Lemma length_le_bytes (n : nat) (z : Z) : length (le_bytes n z) = n.
Proof. revert z. induction n as [|n IH]; intros z; simpl; [done|]. by rewrite IH. Qed.

Lemma le_bytes_inj (n : nat) (x y : Z) :
  0 <= x < 256 ^ Z.of_nat n -> 0 <= y < 256 ^ Z.of_nat n -> le_bytes n x = le_bytes n y -> x = y.
Proof.
  revert x y. induction n as [|n IH]; intros x y Hx Hy; [simpl in *; lia|].
  rewrite Nat2Z.inj_succ, Z.pow_succ_r in Hx, Hy by lia. intros E. cbn [le_bytes] in E.
  injection E as E1 E2. apply IH in E2; [|split; [dlia|apply Z.div_lt_upper_bound; lia]..]. dlia.
Qed.

Lemma bytes_from_le_bytes (z : Z) : bytes_from (le_bytes 8 z) 8 = le_bytes 8 z.
Proof. pose proof (bytes_from_self (le_bytes 8 z)) as E. by rewrite length_le_bytes in E. Qed.

(** The wrappers for 64-bit integer keys make a map from integers: after an
    update at [i], reading [i] gives the new value and reading any other index what it gave
    before; a set succeeds exactly when the index is free; and after a delete the index reads
    as absent and every other as before. *)
Theorem nr_hashmap_index_map {A : Type} (h : nr_hashmap_t A) (m : gmap (list Z) (option A))
    (i j : Z) (v : option A) :
  hm_rep h m -> in_u64 i -> in_u64 j ->
  let read hp k := nr_hashmap_index_get hp k in
  (exists h' d, nr_hashmap_index_update (Some h) i v = Some (Some h', d)
     /\ read (Some h') j = if i =? j then Some v else read (Some h) j)
  /\ (exists h' st, nr_hashmap_index_set (Some h) i v = Some (st, Some h')
     /\ (st = NR_SUCCESS <-> m !! le_bytes 8 i = None)
     /\ (st = NR_SUCCESS -> read (Some h') j = if i =? j then Some v else read (Some h) j)
     /\ (st = NR_FAILURE -> read (Some h') j = read (Some h) j))
  /\ (exists h' st d, nr_hashmap_index_delete (Some h) i = Some (st, Some h', d)
     /\ read (Some h') j = if i =? j then Some None else read (Some h) j).
Proof.
  intros Hrep Hi Hj read.
  assert (Hread : forall g k, hm_rep g k -> read (Some g) j = Some (default None (k !! le_bytes 8 j))).
  { intros g k Hg. unfold read, nr_hashmap_index_get, nr_hashmap_get.
    destruct (nr_hashmap_get_into_spec g k (le_bytes 8 j) 8 Hg) as [-> _]; [lia|].
    by rewrite bytes_from_le_bytes. }
  assert (Hne : i <> j -> le_bytes 8 i <> le_bytes 8 j).
  { intros Hn E. apply Hn. unfold in_u64 in *. by apply (le_bytes_inj 8). }
  rewrite (Hread h m Hrep).
  assert (Hins : default None (<[le_bytes 8 i := v]> m !! le_bytes 8 j)
            = if i =? j then v else default None (m !! le_bytes 8 j)).
  { destruct (Z.eqb_spec i j) as [->|]; [by rewrite lookup_insert_eq|rewrite lookup_insert_ne; auto]. }
  split_and!.
  - destruct (nr_hashmap_update_spec h m (le_bytes 8 i) 8 v Hrep) as (h' & Hrun & Hrep' & _); [lia|].
    rewrite bytes_from_le_bytes in *. eexists h', _. split; [exact Hrun|].
    rewrite (Hread h' _ Hrep'), Hins. by case_if.
  - destruct (nr_hashmap_set_spec h m (le_bytes 8 i) 8 v Hrep) as (h' & Hrun & Hrep' & _); [lia|].
    rewrite bytes_from_le_bytes in *. eexists h', _. split; [exact Hrun|].
    rewrite (Hread h' _ Hrep').
    destruct (m !! le_bytes 8 i) as [w|] eqn:E.
    + rewrite bool_decide_eq_true_2 by by eexists. by split_and!.
    + rewrite bool_decide_eq_false_2 by by intros [? ?]. rewrite Hins. split_and!; [done| |done].
      by case_if.
  - destruct (nr_hashmap_delete_spec h m (le_bytes 8 i) 8 Hrep) as (st & h' & Hrun & Hrep' & _ & _); [lia|].
    rewrite bytes_from_le_bytes in *. eexists h', st, _. split; [exact Hrun|].
    rewrite (Hread h' _ Hrep'). destruct (Z.eqb_spec i j) as [->|]; [by rewrite lookup_delete_eq|].
    rewrite lookup_delete_ne by auto. done.
Qed.

Lemma nr_hashmap_index_map_witness :
  exists (h' : nr_hashmap_t nat) d,
    nr_hashmap_index_update (Some (nr_hashmap_create_internal 0 false)) 256 (Some 7%nat) = Some (Some h', d)
    /\ nr_hashmap_index_get (Some h') 512 = Some None.
Proof.
  exact (proj1 (nr_hashmap_index_map (nr_hashmap_create_internal 0 false) ∅ 256 512 (Some 7%nat)
    (nr_hashmap_create_internal_spec 0 false ltac:(lia)) ltac:(unfold in_u64; lia) ltac:(unfold in_u64; lia))).
Defined.

Lemma buckets_loop_spec (fuel : nat) (a buckets : Z) :
  1 <= a <= 30 -> 31 - a <= Z.of_nat fuel ->
  (a = 1 \/ 2 ^ (a - 1) < buckets) ->
  if buckets <=? 2 ^ 30 then
    exists r, buckets_loop fuel a buckets = Some r /\ a <= r <= 30 /\ buckets <= 2 ^ r
      /\ (r = 1 \/ 2 ^ (r - 1) < buckets)
  else buckets_loop fuel a buckets = None.
Proof.
  revert a. induction fuel as [|fuel IH]; intros a Ha Hf Hlow; [lia|].
  assert (Hs : int_shl1 a = Some (2 ^ a)).
  { unfold int_shl1. destruct (Z.leb_spec 0 a), (Z.ltb_spec a 31); try lia. cbn [andb].
    by rewrite Z.shiftl_mul_pow2, Z.mul_1_l by lia. }
  cbn [buckets_loop]. rewrite Hs. cbn [mbind option_bind].
  destruct (Z.ltb_spec (2 ^ a) buckets) as [Hlt|Hge].
  - destruct (decide (a = 30)) as [->|].
    + destruct (Z.leb_spec buckets (2 ^ 30)); [lia|]. by destruct fuel.
    + specialize (IH (a + 1)). destruct (Z.leb_spec buckets (2 ^ 30)).
      * destruct IH as (r & -> & ? & ? & ?); [lia|lia|right; by replace (a + 1 - 1) with a by lia|].
        exists r. split_and!; [done|lia|lia|done|done].
      * apply IH; [lia|lia|right; by replace (a + 1 - 1) with a by lia].
  - assert (2 ^ a <= 2 ^ 30) by (apply Z.pow_le_mono_r; lia).
    destruct (Z.leb_spec buckets (2 ^ 30)); [|lia]. exists a. split_and!; [done|lia|lia|done|done].
Qed.

(** Asking for [n] buckets, [1 <= n <= 2^30], returns an empty map whose bucket
    array has the least power of two (at least two) that is not below [n], or [2^24] if that
    is less, and whose array has exactly that length; asking for more than [2^30] shifts an
    [int] past its width, which C does not define. *)
Theorem nr_hashmap_create_buckets_size {A : Type} (n : Z) (dtor : bool) :
  0 < n ->
  (n <= 2 ^ 30 ->
     exists (h : nr_hashmap_t A) r, nr_hashmap_create_buckets n dtor = Some h /\ hm_rep h ∅
       /\ 1 <= r /\ n <= 2 ^ r /\ (r = 1 \/ 2 ^ (r - 1) < n)
       /\ nr_hashmap_count_buckets h = Z.min (2 ^ r) (2 ^ 24)
       /\ Z.of_nat (length (hm_buckets h)) = nr_hashmap_count_buckets h)
  /\ (2 ^ 30 < n -> nr_hashmap_create_buckets (A:=A) n dtor = None).
Proof.
  intros Hn. unfold nr_hashmap_create_buckets. destruct (Z.eqb_spec 0 n); [lia|].
  pose proof (buckets_loop_spec 31 1 n ltac:(lia) ltac:(lia) ltac:(by left)) as H. split; intros Hle.
  - rewrite (proj2 (Z.leb_le n (2 ^ 30))) in H by done. destruct H as (r & -> & Hr & Hge & Hlow).
    cbn [mbind option_bind]. eexists _, r. split; [done|].
    split; [apply nr_hashmap_create_internal_spec; lia|]. split_and!; [lia|done|done| |].
    + unfold nr_hashmap_count_buckets, nr_hashmap_create_internal. cbn [hm_log2_num_buckets].
      destruct (Z.eqb_spec 0 r); [lia|].
      destruct (Z.ltb_spec 24 r); rewrite Z.shiftl_mul_pow2, Z.mul_1_l by lia.
      * assert (2 ^ 24 <= 2 ^ r) by (apply Z.pow_le_mono_r; lia). lia.
      * assert (2 ^ r <= 2 ^ 24) by (apply Z.pow_le_mono_r; lia). lia.
    + unfold nr_hashmap_count_buckets, nr_hashmap_create_internal. cbn [hm_log2_num_buckets hm_buckets].
      rewrite length_replicate, Z2Nat.id; [done|]. apply Z.shiftl_nonneg. lia.
  - rewrite (proj2 (Z.leb_gt n (2 ^ 30))) in H by lia. by rewrite H.
Qed.

Lemma nr_hashmap_create_buckets_size_witness :
  nr_hashmap_create_buckets (A:=nat) (2 ^ 31) false = None.
Proof. apply (proj2 (nr_hashmap_create_buckets_size (2 ^ 31) false ltac:(lia))). lia. Defined.
