(* ===== verification/StringPool.v ===== *)
(** * String pools

    [util_string_pool.c]: every string is stored once and known by an index from 1 up.  The
    characters live in a linked list of tables, the newest first; a [char*] into them is the
    pair of a table (counted from the oldest, so that pushing a table moves nothing) and an
    offset.  [None] as the result of an operation stands for an access outside an array or
    table, for an [int] that overflows, or for a loop that does not end. *)

From S2P Require Import Prelude Strings Hash HashTree.

(* @map util_string_pool.h:23-24 NR_STRPOOL_STARTING_SIZE *)
Definition NR_STRPOOL_STARTING_SIZE : Z := 4096.
Definition NR_STRPOOL_INCREASE_SIZE : Z := 4096.

(* @map util_string_pool.h:29-29 NR_STRPOOL_TABLE_SIZE *)
Definition NR_STRPOOL_TABLE_SIZE : Z := 32768.

(* @map util_string_pool.c:17-22 nrstable_t *)
Record nrstable_t : Type := mk_table {
  num_bytes_used : Z;
  num_bytes_allocated : Z;
  t_bytes : list Z;
}.

(* @map util_string_pool.c:24-29 nrstring_t *)
Record nrstring_t : Type := mk_string {
  e_hash : Z;
  e_length : Z;
  e_left : Z;
  e_right : Z;
}.

(** A pointer to the start of a stored string. *)
Record sptr : Type := mk_sptr { sp_table : nat; sp_offset : nat }.

(* @map util_string_pool.c:31-38 nrstrpool_t *)
Record nrstrpool_t : Type := mk_pool {
  num_entries : Z;
  pool_size : Z;
  entries : list nrstring_t;
  strings : list (option sptr);
  tables : list nrstable_t;
}.

(** ** Reading memory *)

(** The characters a stored pointer points to. *)
Definition deref (pool : nrstrpool_t) (p : option sptr) : option (option cstr) :=
  match p with
  | None => Some None
  | Some p =>
      t ← rev (tables pool) !! sp_table p;
      if (sp_offset p <? length (t_bytes t))%nat then Some (Some (drop (sp_offset p) (t_bytes t)))
      else None
  end.

(** [pool->strings[i]] as a string. *)
Definition string_at (pool : nrstrpool_t) (i : Z) : option (option cstr) :=
  p ← strings pool !! Z.to_nat i; deref pool p.

Definition entry_at (pool : nrstrpool_t) (i : Z) : option nrstring_t := entries pool !! Z.to_nat i.

(** [(0 == pool) || (idx <= 0) || (idx > pool->num_entries)] *)
Definition bad_index (pool : nrstrpool_t) (idx : Z) : bool := (idx <=? 0) || (num_entries pool <? idx).

(** ** Accessors *)

(* @map util_string_pool.c:40-45 nr_string_len *)
Definition nr_string_len (pool : option nrstrpool_t) (idx : Z) : option Z :=
  match pool with
  | None => Some (-1)
  | Some p => if bad_index p idx then Some (-1) else e ← entry_at p (idx - 1); Some (e_length e)
  end.

(* @map util_string_pool.c:47-52 nr_string_hash *)
Definition nr_string_hash (pool : option nrstrpool_t) (idx : Z) : option Z :=
  match pool with
  | None => Some 0
  | Some p => if bad_index p idx then Some 0 else e ← entry_at p (idx - 1); Some (e_hash e)
  end.

(* @map util_string_pool.c:54-59 nr_string_get *)
Definition nr_string_get (pool : option nrstrpool_t) (idx : Z) : option (option cstr) :=
  match pool with
  | None => Some None
  | Some p => if bad_index p idx then Some None else string_at p (idx - 1)
  end.

(* @map util_string_pool.c:61-71 nr_string_pool_create *)
Definition nr_string_pool_create : nrstrpool_t := {|
  num_entries := 0;
  pool_size := NR_STRPOOL_STARTING_SIZE;
  entries := replicate (Z.to_nat NR_STRPOOL_STARTING_SIZE) (mk_string 0 0 0 0);
  strings := replicate (Z.to_nat NR_STRPOOL_STARTING_SIZE) None;
  tables := [];
|}.

(** The pointer the caller passed, and the allocations freed: each table, the two arrays and
    the pool itself. *)
(* @map util_string_pool.c:73-95 nr_string_pool_destroy *)
Definition nr_string_pool_destroy (poolptr : option (option nrstrpool_t))
  : option (option nrstrpool_t) * nat :=
  match poolptr with
  | Some (Some pool) => (Some None, (length (tables pool) + 3)%nat)
  | _ => (poolptr, 0%nat)
  end.

(** ** Finding *)

(** [(hash == entry->hash) && (length == entry->length) && (0 == nr_strcmp (...))] *)
Definition entry_matches (pool : nrstrpool_t) (string : cstr) (h len idx : Z) (e : nrstring_t)
  : option bool :=
  if (h =? e_hash e) && (len =? e_length e) then
    s ← string_at pool (idx - 1); Some (0 =? nr_strcmp (Some string) s)
  else Some false.

(* @map util_string_pool.c:107-120 nr_string_find_internal *)
Fixpoint find_loop (fuel : nat) (pool : nrstrpool_t) (string : cstr) (h len idx : Z) : option Z :=
  match fuel with
  | O => None
  | S fuel =>
      if 0 <? idx then
        e ← entry_at pool (idx - 1);
        m ← entry_matches pool string h len idx e;
        if (m : bool) then Some idx
        else find_loop fuel pool string h len (if e_hash e <? h then e_left e else e_right e)
      else Some 0
  end.

(* @map util_string_pool.c:97-122 nr_string_find_internal *)
Definition nr_string_find_internal (pool : option nrstrpool_t) (string : option cstr) (h len : Z)
  : option Z :=
  match pool, string with
  | Some pool, Some string =>
      if len <? 0 then Some 0
      else find_loop (S (S (Z.to_nat (num_entries pool)))) pool string h len 1
  | _, _ => Some 0
  end.

(** The hash of a string, and its length as [nr_mkhash] stores it. *)
Definition hash_and_length (string : option cstr) : Z * Z :=
  let '(h, len) := nr_mkhash string (Some 0) in (h, default 0 len).

(* @map util_string_pool.c:124-129 nr_string_find *)
Definition nr_string_find (pool : option nrstrpool_t) (string : option cstr) : option Z :=
  let '(h, len) := hash_and_length string in nr_string_find_internal pool string h len.

(* @map util_string_pool.c:131-137 nr_string_find_with_hash *)
Definition nr_string_find_with_hash (pool : option nrstrpool_t) (string : option cstr) (h : Z)
  : option Z := nr_string_find_internal pool string h (nr_strlen string).

(* @map util_string_pool.c:139-144 nr_string_find_with_hash_length *)
Definition nr_string_find_with_hash_length (pool : option nrstrpool_t) (string : option cstr)
  (h len : Z) : option Z := nr_string_find_internal pool string h len.

(** ** Adding *)

(** An [int]. *)
Definition int_ok (z : Z) : option Z := if (- 2 ^ 31 <=? z) && (z <? 2 ^ 31) then Some z else None.

(** The reallocated arrays have new entries that nothing has written yet; [fresh] stands for
    what is in them. *)
(* @map util_string_pool.c:163-169 nr_string_add_internal *)
Definition pool_grow (pool : nrstrpool_t) (fresh : nrstring_t) : option nrstrpool_t :=
  if pool_size pool =? num_entries pool then
    size' ← int_ok (pool_size pool + NR_STRPOOL_INCREASE_SIZE);
    Some (mk_pool (num_entries pool) size'
            (entries pool ++ replicate (Z.to_nat NR_STRPOOL_INCREASE_SIZE) fresh)
            (strings pool ++ replicate (Z.to_nat NR_STRPOOL_INCREASE_SIZE) None)
            (tables pool))
  else Some pool.

(** [inl] is the index of the string already there, [inr] the parent of the new node. *)
(* @map util_string_pool.c:173-198 nr_string_add_internal *)
Fixpoint add_loop (fuel : nat) (pool : nrstrpool_t) (string : cstr) (h len idx : Z)
  : option (Z + Z) :=
  match fuel with
  | O => None
  | S fuel =>
      e ← entry_at pool (idx - 1);
      m ← entry_matches pool string h len idx e;
      if (m : bool) then Some (inl idx)
      else
        let next := if e_hash e <? h then e_left e else e_right e in
        if 0 =? next then Some (inr idx) else add_loop fuel pool string h len next
  end.

Definition set_num_entries (pool : nrstrpool_t) (n : Z) : nrstrpool_t :=
  mk_pool n (pool_size pool) (entries pool) (strings pool) (tables pool).

Definition set_entries (pool : nrstrpool_t) (es : list nrstring_t) : nrstrpool_t :=
  mk_pool (num_entries pool) (pool_size pool) es (strings pool) (tables pool).

Definition set_tables (pool : nrstrpool_t) (ts : list nrstable_t) : nrstrpool_t :=
  mk_pool (num_entries pool) (pool_size pool) (entries pool) (strings pool) ts.

Definition set_string (pool : nrstrpool_t) (i : Z) (p : sptr) : option nrstrpool_t :=
  if (Z.to_nat i <? length (strings pool))%nat then
    Some (mk_pool (num_entries pool) (pool_size pool) (entries pool)
            (<[Z.to_nat i := Some p]> (strings pool)) (tables pool))
  else None.

(** A table for a string of [len] characters is at the head of the list. *)
(* @map util_string_pool.c:210-223 nr_string_add_internal *)
Definition ensure_table (pool : nrstrpool_t) (len : Z) : option nrstrpool_t :=
  required ← int_ok (len + 1);
  let full := match tables pool with
              | [] => true
              | t :: _ => num_bytes_allocated t - num_bytes_used t <? required
              end in
  if (full : bool) then
    let sz := if NR_STRPOOL_TABLE_SIZE <? required then required else NR_STRPOOL_TABLE_SIZE in
    Some (set_tables pool (mk_table 0 sz (replicate (Z.to_nat sz) 0) :: tables pool))
  else Some pool.

(* @map util_string_pool.c:225-228 nr_string_add_internal *)
Definition store_string (pool : nrstrpool_t) (new_string : Z) (string : cstr) (len : Z)
  : option nrstrpool_t :=
  match tables pool with
  | [] => None
  | t :: ts =>
      pool ← set_string pool new_string
               (mk_sptr (length ts) (Z.to_nat (num_bytes_used t)));
      b ← nr_memcpy (t_bytes t) (num_bytes_used t) (Some string) (nr_strlen (Some string) + 1);
      used ← int_ok (num_bytes_used t + (len + 1));
      Some (set_tables pool (mk_table used (num_bytes_allocated t) b :: ts))
  end.

(** Linking the new node under its parent. *)
(* @map util_string_pool.c:230-236 nr_string_add_internal *)
Definition link_parent (pool : nrstrpool_t) (idx h new_string : Z) : option nrstrpool_t :=
  if 0 =? idx then Some pool
  else
    e ← entry_at pool (idx - 1);
    let e' := if e_hash e <? h then mk_string (e_hash e) (e_length e) (new_string + 1) (e_right e)
              else mk_string (e_hash e) (e_length e) (e_left e) (new_string + 1) in
    Some (set_entries pool (<[Z.to_nat (idx - 1) := e']> (entries pool))).

(* @map util_string_pool.c:203-238 nr_string_add_internal *)
Definition add_new (pool : nrstrpool_t) (string : cstr) (h len idx : Z)
  : option (Z * nrstrpool_t) :=
  let new_string := num_entries pool in
  n ← int_ok (num_entries pool + 1);
  let pool := set_num_entries pool n in
  _ ← entry_at pool new_string;
  let pool := set_entries pool (<[Z.to_nat new_string := mk_string h len 0 0]> (entries pool)) in
  pool ← ensure_table pool len;
  pool ← store_string pool new_string string len;
  pool ← link_parent pool idx h new_string;
  Some (new_string + 1, pool).

(* @map util_string_pool.c:151-239 nr_string_add_internal *)
Definition nr_string_add_internal (pool : option nrstrpool_t) (string : option cstr) (h len : Z)
  (fresh : nrstring_t) : option (Z * option nrstrpool_t) :=
  match pool, string with
  | Some p, Some s =>
      if len <? 0 then Some (0, pool)
      else
        p ← pool_grow p fresh;
        parent ← (if 0 =? num_entries p then Some (inr 0)
                  else add_loop (S (Z.to_nat (num_entries p))) p s h len 1);
        match parent with
        | inl idx => Some (idx, Some p)
        | inr idx => '(i, p) ← add_new p s h len idx; Some (i, Some p)
        end
  | _, _ => Some (0, pool)
  end.

(** What a reallocated array holds past its old end is immaterial: the operations below take
    it to be zero. *)
Definition no_string : nrstring_t := mk_string 0 0 0 0.

(* @map util_string_pool.c:241-246 nr_string_add *)
Definition nr_string_add (pool : option nrstrpool_t) (string : option cstr)
  : option (Z * option nrstrpool_t) :=
  let '(h, len) := hash_and_length string in nr_string_add_internal pool string h len no_string.

(* @map util_string_pool.c:248-252 nr_string_add_with_hash *)
Definition nr_string_add_with_hash (pool : option nrstrpool_t) (string : option cstr) (h : Z)
  : option (Z * option nrstrpool_t) :=
  nr_string_add_internal pool string h (nr_strlen string) no_string.

(* @map util_string_pool.c:254-259 nr_string_add_with_hash_length *)
Definition nr_string_add_with_hash_length (pool : option nrstrpool_t) (string : option cstr)
  (h len : Z) : option (Z * option nrstrpool_t) :=
  nr_string_add_internal pool string h len no_string.

(** The calls of the callback, in order: the string and its length. *)
(* @map util_string_pool.c:290-302 nr_string_pool_apply *)
Definition nr_string_pool_apply (pool : option nrstrpool_t) : option (list (option cstr * Z)) :=
  match pool with
  | None => Some []
  | Some p =>
      mapM (fun i => s ← string_at p (Z.of_nat i); e ← entry_at p (Z.of_nat i); Some (s, e_length e))
           (seq 0 (Z.to_nat (num_entries p)))
  end.

(** ** Lemmas *)

(** The hash and the length of a string as the pool computes them. *)
Definition hash_of_string (s : cstr) : Z := fst (nr_mkhash (Some s) None).

Lemma strlen_c_str (s : cstr) : strlen (c_str s) = strlen s.
Proof. unfold strlen. by rewrite c_str_idemp. Qed.

Lemma strlen_zero (s : cstr) : byte_at s 0 = 0 <-> strlen s = 0.
Proof. pose proof (strlen_le s). rewrite byte_at_zero by lia. lia. Qed.

Lemma hash_and_length_spec (s : cstr) :
  strlen s < 2 ^ 31 -> hash_and_length (Some s) = (hash_of_string s, strlen s).
Proof.
  intros Hs. pose proof (strlen_le s) as Hl.
  unfold hash_and_length, hash_of_string, nr_mkhash.
  destruct (Z.eqb_spec (byte_at s 0) 0) as [H0|H0].
  - apply strlen_zero in H0. by rewrite H0.
  - cbn [Z.eqb]. unfold nr_strlen. rewrite s32_id by lia. done.
Qed.

(** The hash is a function of the characters. *)
Lemma hash_of_string_content (a b : cstr) :
  strlen a < 2 ^ 31 -> c_str a = c_str b -> hash_of_string a = hash_of_string b.
Proof.
  intros Ha Hab. pose proof (strlen_le a) as Hl.
  assert (Hlen : strlen b = strlen a) by (unfold strlen; by rewrite Hab).
  unfold hash_of_string, nr_mkhash.
  assert (H0 : byte_at a 0 = 0 <-> byte_at b 0 = 0) by (rewrite !strlen_zero; lia).
  destruct (Z.eqb_spec (byte_at a 0) 0) as [Ha0|Ha0], (Z.eqb_spec (byte_at b 0) 0) as [Hb0|Hb0];
    [done|tauto|tauto|].
  assert (Hpos : 0 < strlen a) by (rewrite strlen_zero in Ha0; lia).
  unfold nr_strlen. rewrite Hlen, !s32_id by lia.
  pose proof (nr_mkhash_ext a b (strlen a) Hpos) as He. unfold nr_mkhash in He.
  destruct (Z.eqb_spec (byte_at a 0) 0), (Z.eqb_spec (byte_at b 0) 0), (Z.eqb_spec (strlen a) 0);
    try done; try lia.
  enough (E : forall j, 0 <= j < strlen a -> byte_at a j = byte_at b j)
    by (specialize (He E); by injection He as ->).
  intros j Hj. rewrite (byte_at_c_str a), (byte_at_c_str b) by lia. by rewrite Hab.
Qed.

(** The tree of the entries in use. *)
Definition node_of (e : nrstring_t) : tnode := (e_hash e, e_left e - 1, e_right e - 1).

Definition tree_of (es : list nrstring_t) (n : nat) : list tnode := map node_of (take n es).

(** A pointer to the characters [s] and their terminator, within what is used of a table. *)
Definition points_to (ts : list nrstable_t) (p : sptr) (s : cstr) : Prop :=
  exists t, rev ts !! sp_table p = Some t
    /\ Z.of_nat (sp_offset p + length s) < num_bytes_used t
    /\ take (length s + 1) (drop (sp_offset p) (t_bytes t)) = s ++ [0].

Definition table_ok (t : nrstable_t) : Prop :=
  0 <= num_bytes_used t <= num_bytes_allocated t
  /\ num_bytes_allocated t = Z.of_nat (length (t_bytes t)) /\ num_bytes_allocated t < 2 ^ 31.

(** The pool holds these strings, the first at index 1. *)
Record pool_ok (p : nrstrpool_t) (ss : list cstr) : Prop := {
  ok_number : num_entries p = Z.of_nat (length ss);
  ok_size : pool_size p = Z.of_nat (length (entries p)) /\ length (strings p) = length (entries p);
  ok_capacity : num_entries p <= pool_size p /\ 0 < pool_size p < 2 ^ 31;
  ok_nodup : NoDup ss;
  ok_chars : forall s, s ∈ ss -> c_str s = s /\ strlen s < 2 ^ 31;
  ok_entry : forall i s, ss !! i = Some s ->
    exists e, entries p !! i = Some e /\ e_hash e = hash_of_string s /\ e_length e = strlen s;
  ok_string : forall i s, ss !! i = Some s ->
    exists ptr, strings p !! i = Some (Some ptr) /\ points_to (tables p) ptr s;
  ok_tables : Forall table_ok (tables p);
  ok_tree : tree_ok (tree_of (entries p) (length ss));
  ok_empty : ss = [] -> entries p !! 0%nat = Some no_string /\ strings p !! 0%nat = Some None;
}.

Lemma points_to_deref p ptr s :
  points_to (tables p) ptr s -> c_str s = s ->
  exists s', deref p (Some ptr) = Some (Some s') /\ c_str s' = s.
Proof.
  intros (t & Ht & _ & Hb) Hs. unfold deref. rewrite Ht. cbn [mbind option_bind].
  assert (Hl : (length s + 1 <= length (drop (sp_offset ptr) (t_bytes t)))%nat).
  { apply (f_equal length) in Hb. rewrite length_take, length_app in Hb. simpl in Hb. lia. }
  rewrite length_drop in Hl.
  destruct (Nat.ltb_spec (sp_offset ptr) (length (t_bytes t))); [|lia].
  eexists. split; [done|]. rewrite <- (take_drop (length s + 1) (drop _ _)), Hb, <- app_assoc.
  apply c_str_terminated. rewrite <- Hs. apply c_str_nonzero.
Qed.

Lemma string_at_spec p ss (i : nat) s :
  pool_ok p ss -> ss !! i = Some s ->
  exists s', string_at p (Z.of_nat i) = Some (Some s') /\ c_str s' = s.
Proof.
  intros Hok Hi. destruct (ok_string _ _ Hok i s Hi) as (ptr & Hptr & Hpt).
  unfold string_at. rewrite Nat2Z.id, Hptr. cbn [mbind option_bind].
  apply points_to_deref; [done|]. apply (ok_chars _ _ Hok). by apply list_elem_of_lookup_2 in Hi.
Qed.

(** What an index gives back. *)
Lemma nr_string_get_spec p ss (i : nat) s :
  pool_ok p ss -> ss !! i = Some s ->
  exists s', nr_string_get (Some p) (Z.of_nat (S i)) = Some (Some s') /\ c_str s' = s.
Proof.
  intros Hok Hi. pose proof (lookup_lt_Some _ _ _ Hi). pose proof (ok_number _ _ Hok).
  unfold nr_string_get, bad_index.
  destruct (Z.leb_spec (Z.of_nat (S i)) 0); [lia|].
  destruct (Z.ltb_spec (num_entries p) (Z.of_nat (S i))); [lia|]. cbn [orb].
  replace (Z.of_nat (S i) - 1) with (Z.of_nat i) by lia. by eapply string_at_spec.
Qed.

Lemma entry_matches_spec p ss (string : cstr) (i : nat) s e :
  pool_ok p ss -> ss !! i = Some s -> entries p !! i = Some e -> strlen string < 2 ^ 31 ->
  entry_matches p string (hash_of_string string) (strlen string) (Z.of_nat (S i)) e
  = Some (bool_decide (c_str string = s)).
Proof.
  intros Hok Hs He Hlen. destruct (ok_entry _ _ Hok i s Hs) as (e' & He' & Hh & Hl).
  rewrite He in He'. injection He' as <-.
  destruct (ok_chars _ _ Hok s) as [Hcs _]; [by apply list_elem_of_lookup_2 in Hs|].
  unfold entry_matches. rewrite Hh, Hl.
  destruct (string_at_spec p ss i s Hok Hs) as (s' & Hs' & Hc').
  replace (Z.of_nat (S i) - 1) with (Z.of_nat i) by lia. rewrite Hs'. cbn [mbind option_bind].
  case_if.
  - f_equal. pose proof (nr_streq_spec string s') as Hq. unfold nr_streq in Hq.
    rewrite Hc' in Hq. apply Bool.eq_iff_eq_true. rewrite Hq. by rewrite bool_decide_eq_true.
  - f_equal. symmetry. apply bool_decide_eq_false. intros <-.
    rewrite (hash_of_string_content string (c_str string)) in E by (rewrite ?c_str_idemp; done).
    rewrite strlen_c_str, !Z.eqb_refl in E. done.
Qed.

Lemma tree_of_lookup es n (i : nat) e :
  (i < n)%nat -> es !! i = Some e -> tree_of es n !! i = Some (node_of e).
Proof. intros Hi He. unfold tree_of. by rewrite list_lookup_fmap, lookup_take_lt, He by lia. Qed.

Lemma tree_of_length p ss : pool_ok p ss -> length (tree_of (entries p) (length ss)) = length ss.
Proof.
  intros Hok. pose proof (ok_size _ _ Hok). pose proof (ok_capacity _ _ Hok).
  pose proof (ok_number _ _ Hok). unfold tree_of. rewrite length_map, length_take. lia.
Qed.

Lemma child_node_of e h : child (node_of e) h = (if e_hash e <? h then e_left e else e_right e) - 1.
Proof. unfold child, node_of. by case_if. Qed.

(** The predicate the walk of the common tree is given. *)
Definition is_string (ss : list cstr) (string : cstr) (i : nat) : bool :=
  bool_decide (ss !! i = Some (c_str string)).

Section Walk.
Context (p : nrstrpool_t) (ss : list cstr) (string : cstr).
Context (Hok : pool_ok p ss) (Hlen : strlen string < 2 ^ 31).

Local Abbreviation h := (hash_of_string string).
Local Abbreviation len := (strlen string).
Local Abbreviation t := (tree_of (entries p) (length ss)).

(** One look at a node, in the array and in the tree. *)
Lemma look_at_node (i : nat) :
  (i < length ss)%nat ->
  exists e, entry_at p (Z.of_nat (S i) - 1) = Some e
    /\ entry_matches p string h len (Z.of_nat (S i)) e = Some (is_string ss string i)
    /\ step t h i = (if e_hash e <? h then e_left e else e_right e) - 1
    /\ (step t h i = -1 \/ Z.of_nat i < step t h i < Z.of_nat (length ss)).
Proof.
  intros Hi. destruct (lookup_lt_is_Some_2 ss i Hi) as [s Hs].
  destruct (ok_entry _ _ Hok i s Hs) as (e & He & _). exists e.
  replace (Z.of_nat (S i) - 1) with (Z.of_nat i) by lia. unfold entry_at. rewrite Nat2Z.id.
  split_and!; [done| | |].
  - rewrite (entry_matches_spec p ss string i s e) by done. f_equal. unfold is_string.
    rewrite Hs. apply bool_decide_ext. split; congruence.
  - unfold step. rewrite (tree_of_lookup _ _ i e) by done. apply child_node_of.
  - pose proof (children_later _ (ok_tree _ _ Hok) i h) as Hc. rewrite (tree_of_length p ss Hok) in Hc.
    by apply Hc.
Qed.

Lemma find_loop_search (fuel : nat) (i : nat) r :
  (i < length ss)%nat -> tree_search fuel t (is_string ss string) h i = Some r ->
  find_loop (S fuel) p string h len (Z.of_nat (S i))
  = Some (match r with inl j => Z.of_nat (S j) | inr _ => 0 end).
Proof.
  revert i. induction fuel as [|fuel IH]; intros i Hi Hr; [done|]. cbn [tree_search] in Hr.
  destruct (look_at_node i Hi) as (e & He & Hm & Hs & Hc).
  cbn [find_loop]. rewrite He. cbn [mbind option_bind]. rewrite Hm. cbn [mbind option_bind].
  destruct (Z.ltb_spec 0 (Z.of_nat (S i))); [|lia].
  destruct (is_string ss string i); [by injection Hr as <-|].
  destruct (Z.eqb_spec (step t h i) (-1)) as [E|E].
  - injection Hr as <-. by replace (if e_hash e <? h then _ else _) with 0 by lia.
  - replace (if e_hash e <? h then _ else _) with (Z.of_nat (S (Z.to_nat (step t h i)))) by lia.
    apply (IH (Z.to_nat (step t h i))); [lia|done].
Qed.

Lemma add_loop_search (fuel : nat) (i : nat) r :
  (i < length ss)%nat -> tree_search fuel t (is_string ss string) h i = Some r ->
  add_loop fuel p string h len (Z.of_nat (S i))
  = Some (match r with inl j => inl (Z.of_nat (S j)) | inr j => inr (Z.of_nat (S j)) end).
Proof.
  revert i. induction fuel as [|fuel IH]; intros i Hi Hr; [done|]. cbn [tree_search] in Hr.
  destruct (look_at_node i Hi) as (e & He & Hm & Hs & Hc).
  cbn [add_loop]. rewrite He. cbn [mbind option_bind]. rewrite Hm. cbn [mbind option_bind].
  destruct (is_string ss string i); [by injection Hr as <-|].
  destruct (Z.eqb_spec (step t h i) (-1)) as [E|E].
  - injection Hr as <-. replace (if e_hash e <? h then _ else _) with 0 by lia. done.
  - replace (if e_hash e <? h then _ else _) with (Z.of_nat (S (Z.to_nat (step t h i)))) by lia.
    destruct (Z.eqb_spec 0 (Z.of_nat (S (Z.to_nat (step t h i))))); [lia|].
    apply (IH (Z.to_nat (step t h i))); [lia|done].
Qed.

(** The search finds the string exactly if it is there. *)
Lemma search_complete :
  ss <> [] ->
  exists r, tree_search (length ss) t (is_string ss string) h 0 = Some r
    /\ match r with
       | inl j => ss !! j = Some (c_str string)
       | inr q => (c_str string ∉ ss) /\ (q < length ss)%nat /\ walk t h 0 q /\ step t h q = -1
       end.
Proof.
  intros Hne.
  destruct (tree_search_total t (is_string ss string) h) as (r & Hr & Hspec).
  - apply (ok_tree _ _ Hok).
  - intros E. apply (f_equal length) in E. rewrite (tree_of_length p ss Hok) in E. by destruct ss.
  - rewrite (tree_of_length p ss Hok) in *. exists r. split; [done|]. destruct r as [j|q].
    + destruct Hspec as [_ Hm]. by apply bool_decide_eq_true in Hm.
    + destruct Hspec as (Hw & Hq & Hs & Hno). split_and!; [|done|done|done].
      intros Hin. apply list_elem_of_lookup in Hin as [j Hj].
      destruct (ok_entry _ _ Hok j _ Hj) as (e & He & Hh & _).
      pose proof (Hno j (node_of e)) as Hf. rewrite (tree_of_lookup _ _ j e) in Hf;
        [|by apply lookup_lt_Some in Hj|done].
      specialize (Hf eq_refl). unfold t_hash, node_of in Hf. simpl in Hf. rewrite Hh in Hf.
      rewrite <- (hash_of_string_content string (c_str string)) in Hf by (rewrite ?c_str_idemp; done).
      specialize (Hf eq_refl). unfold is_string in Hf. rewrite bool_decide_eq_false in Hf. done.
Qed.

(** [nr_string_find] *)
Lemma nr_string_find_spec :
  exists idx, nr_string_find (Some p) (Some string) = Some idx
    /\ if idx =? 0 then c_str string ∉ ss
       else 0 < idx /\ ss !! Z.to_nat (idx - 1) = Some (c_str string).
Proof.
  pose proof (strlen_le string) as Hl. pose proof (ok_number _ _ Hok) as Hn.
  unfold nr_string_find. rewrite hash_and_length_spec by done. unfold nr_string_find_internal.
  destruct (Z.ltb_spec len 0); [lia|]. rewrite Hn, Nat2Z.id.
  destruct (decide (ss = [])) as [E|Hne].
  - destruct (ok_empty _ _ Hok E) as [He Hs]. exists 0. split; [|subst ss; apply not_elem_of_nil].
    rewrite E. cbn [length find_loop]. unfold entry_matches, entry_at, string_at.
    change (Z.to_nat (1 - 1)) with 0%nat. rewrite He, Hs. unfold no_string.
    cbn [mbind option_bind e_hash e_length e_left e_right deref].
    cbn. by destruct (h =? 0); destruct (len =? 0); destruct (0 <? h).
  - destruct (search_complete Hne) as (r & Hr & Hspec).
    pose proof (find_loop_search (length ss) 0 r) as Hf. rewrite Hr in Hf.
    specialize (Hf ltac:(destruct ss; [done|simpl; lia]) eq_refl).
    assert (Hmono : forall fuel idx r', find_loop fuel p string h len idx = Some r' ->
      find_loop (S fuel) p string h len idx = Some r').
    { induction fuel as [|fuel IH]; intros idx r' H'; [done|].
      cbn [find_loop] in H'. remember (S fuel) as f eqn:Ef. cbn [find_loop]. subst f.
      case_if; [|done]. destruct (entry_at p (idx - 1)) as [e|]; [|done]. cbn [mbind option_bind] in *.
      destruct (entry_matches _ _ _ _ _ _) as [[]|]; [done| |done]. cbn [mbind option_bind] in *.
      by apply IH. }
    eexists. split; [apply Hmono, Hf|]. destruct r as [j|q].
    + destruct (Z.eqb_spec (Z.of_nat (S j)) 0); [lia|]. split; [lia|].
      by replace (Z.to_nat (Z.of_nat (S j) - 1)) with j by lia.
    + simpl. apply Hspec.
Qed.

End Walk.

(** *** Growing and storing *)

Lemma int_ok_id (z : Z) : 0 <= z < 2 ^ 31 -> int_ok z = Some z.
Proof.
  intros Hz. unfold int_ok.
  destruct (Z.leb_spec (- 2 ^ 31) z); [|lia]. destruct (Z.ltb_spec z (2 ^ 31)); [done|lia].
Qed.

Lemma pool_grow_spec p ss fresh :
  pool_ok p ss -> num_entries p + NR_STRPOOL_INCREASE_SIZE < 2 ^ 31 ->
  exists p', pool_grow p fresh = Some p' /\ pool_ok p' ss
    /\ num_entries p' = num_entries p /\ num_entries p' < pool_size p'
    /\ tree_of (entries p') (length ss) = tree_of (entries p) (length ss).
Proof.
  intros Hok Hb. pose proof (ok_capacity _ _ Hok) as Hc. pose proof (ok_size _ _ Hok) as Hs.
  pose proof (ok_number _ _ Hok) as Hn. unfold pool_grow.
  destruct (Z.eqb_spec (pool_size p) (num_entries p)) as [E|E];
    [|exists p; split_and!; [done|done|done|lia|done]].
  unfold NR_STRPOOL_INCREASE_SIZE in *. rewrite int_ok_id by lia. cbn [mbind option_bind].
  set (n := Z.to_nat 4096). assert (Hn4 : Z.of_nat n = 4096) by (unfold n; lia).
  assert (Ht : tree_of (entries p ++ replicate n fresh) (length ss) = tree_of (entries p) (length ss)).
  { unfold tree_of. by rewrite take_app_le by lia. }
  assert (Hl : forall i : nat, (i < length (entries p))%nat ->
    (entries p ++ replicate n fresh) !! i = entries p !! i
    /\ (strings p ++ replicate n None) !! i = strings p !! i)
    by (intros i Hi; rewrite !lookup_app_l by lia; done).
  eexists. split; [reflexivity|]. cbn [num_entries pool_size entries].
  split_and!; [|done|lia|done].
  split; cbn [num_entries pool_size entries strings tables].
  - done.
  - rewrite !length_app, !length_replicate. lia.
  - lia.
  - apply (ok_nodup _ _ Hok).
  - apply (ok_chars _ _ Hok).
  - intros i s Hi. pose proof (lookup_lt_Some _ _ _ Hi).
    destruct (Hl i) as [-> _]; [lia|]. by apply (ok_entry _ _ Hok).
  - intros i s Hi. pose proof (lookup_lt_Some _ _ _ Hi).
    destruct (Hl i) as [_ ->]; [lia|]. by apply (ok_string _ _ Hok).
  - apply (ok_tables _ _ Hok).
  - rewrite Ht. apply (ok_tree _ _ Hok).
  - intros Hss. destruct (Hl 0%nat) as [-> ->]; [lia|]. by apply (ok_empty _ _ Hok).
Qed.

Lemma bytes_from_terminated (s : cstr) : bytes_from s (strlen s + 1) = c_str s ++ [0].
Proof.
  pose proof (strlen_le s) as Hl.
  unfold bytes_from. replace (Z.to_nat (strlen s + 1)) with (S (Z.to_nat (strlen s))) by lia.
  rewrite seq_S, map_app. f_equal.
  - change (bytes_from s (strlen s) = c_str s). rewrite bytes_from_take by lia. apply take_ge.
    unfold strlen. lia.
  - simpl. f_equal. apply byte_at_zero; lia.
Qed.

Lemma points_to_push t ts ptr s : points_to ts ptr s -> points_to (t :: ts) ptr s.
Proof.
  intros (t0 & Ht & Hr). exists t0. split; [|done]. simpl.
  rewrite lookup_app_l; [done|]. by apply lookup_lt_Some in Ht.
Qed.

Lemma rev_cons_lookup {A : Type} (t t' : A) ts (i : nat) x :
  rev (t :: ts) !! i = Some x -> i = length ts /\ x = t /\ rev (t' :: ts) !! i = Some t'
    \/ rev (t' :: ts) !! i = Some x.
Proof.
  simpl. intros H. destruct (decide (i < length ts)%nat) as [Hi|Hi].
  - right. rewrite lookup_app_l in * by (rewrite length_rev; lia). done.
  - left. pose proof (lookup_lt_Some _ _ _ H) as Hl. rewrite length_app, length_rev in Hl. simpl in Hl.
    assert (i = length ts) as -> by lia. split; [done|].
    rewrite lookup_app_r in * by (rewrite length_rev; lia).
    rewrite length_rev, Nat.sub_diag in *. simpl in *. split; congruence.
Qed.

(** Writing behind what is used leaves the stored strings alone. *)
Lemma points_to_write t t' ts ptr s :
  num_bytes_used t <= num_bytes_used t' ->
  take (Z.to_nat (num_bytes_used t)) (t_bytes t') = take (Z.to_nat (num_bytes_used t)) (t_bytes t) ->
  points_to (t :: ts) ptr s -> points_to (t' :: ts) ptr s.
Proof.
  intros Hu Hb (t0 & Ht & Hlt & Hs).
  destruct (rev_cons_lookup t t' ts _ _ Ht) as [(_ & -> & Ht')|Ht']; [|by exists t0].
  exists t'. split_and!; [done|lia|]. rewrite <- Hs.
  set (u := Z.to_nat (num_bytes_used t)) in *.
  assert (E : forall b : list Z, take (length s + 1) (drop (sp_offset ptr) b)
              = take (length s + 1) (drop (sp_offset ptr) (take u b))).
  { intros b. rewrite !take_drop_commute, take_take. f_equal. f_equal. unfold u. lia. }
  by rewrite (E (t_bytes t')), (E (t_bytes t)), Hb.
Qed.

Lemma ensure_table_spec p len :
  Forall table_ok (tables p) -> 0 <= len -> len + 1 < 2 ^ 31 ->
  exists t ts, ensure_table p len = Some (set_tables p (t :: ts)) /\ Forall table_ok (t :: ts)
    /\ num_bytes_used t + len + 1 <= num_bytes_allocated t
    /\ forall ptr s, points_to (tables p) ptr s -> points_to (t :: ts) ptr s.
Proof.
  intros Hok H0 H1. unfold ensure_table. rewrite int_ok_id by lia. cbn [mbind option_bind].
  set (sz := if NR_STRPOOL_TABLE_SIZE <? len + 1 then len + 1 else NR_STRPOOL_TABLE_SIZE).
  assert (Hsz : len + 1 <= sz < 2 ^ 31) by (unfold sz, NR_STRPOOL_TABLE_SIZE; case_if; boolp; lia).
  assert (Hfresh : table_ok (mk_table 0 sz (replicate (Z.to_nat sz) 0))).
  { unfold table_ok. cbn [num_bytes_used num_bytes_allocated t_bytes]. rewrite length_replicate. lia. }
  assert (Hnew : exists t ts, Some (set_tables p (mk_table 0 sz (replicate (Z.to_nat sz) 0) :: tables p))
                 = Some (set_tables p (t :: ts))
    /\ Forall table_ok (t :: ts) /\ num_bytes_used t + len + 1 <= num_bytes_allocated t
    /\ forall ptr s, points_to (tables p) ptr s -> points_to (t :: ts) ptr s).
  { eexists _, _. split; [done|]. split_and!; [by constructor|simpl; lia|intros; by apply points_to_push]. }
  destruct (tables p) as [|t ts] eqn:Et; [exact Hnew|].
  destruct (Z.ltb_spec (num_bytes_allocated t - num_bytes_used t) (len + 1)); [exact Hnew|].
  exists t, ts. split_and!; [|done|lia|done]. rewrite <- Et. by destruct p.
Qed.

Lemma store_string_spec p t ts new_string string :
  tables p = t :: ts -> Forall table_ok (t :: ts) -> strlen string < 2 ^ 31 - 1 ->
  num_bytes_used t + strlen string + 1 <= num_bytes_allocated t ->
  (Z.to_nat new_string < length (strings p))%nat ->
  let ptr := mk_sptr (length ts) (Z.to_nat (num_bytes_used t)) in
  exists t', store_string p new_string string (strlen string)
             = Some (mk_pool (num_entries p) (pool_size p) (entries p)
                       (<[Z.to_nat new_string := Some ptr]> (strings p)) (t' :: ts))
    /\ Forall table_ok (t' :: ts) /\ points_to (t' :: ts) ptr (c_str string)
    /\ forall ptr s, points_to (t :: ts) ptr s -> points_to (t' :: ts) ptr s.
Proof.
  intros Ht Hok Hs Hroom Hnew ptr. pose proof (strlen_le string) as Hl.
  inversion Hok as [|? ? (Hu & Ha & Hb) Hts]; subst.
  unfold store_string. rewrite Ht. unfold set_string. cbv zeta.
  destruct (Nat.ltb_spec (Z.to_nat new_string) (length (strings p))); [|lia].
  cbn [mbind option_bind]. unfold nr_strlen. rewrite s32_id by lia. unfold nr_memcpy.
  destruct (Z.ltb_spec 0 (strlen string + 1)); [|lia].
  assert (Hbl : length (c_str string ++ [0]) = Z.to_nat (strlen string + 1))
    by (rewrite length_app; unfold strlen; simpl; lia).
  destruct (write_at_spec (t_bytes t) (num_bytes_used t) (bytes_from string (strlen string + 1)))
    as (b & -> & Hlb & ->); [lia|rewrite bytes_from_terminated, Hbl; lia|].
  cbn [mbind option_bind]. rewrite int_ok_id by lia. cbn [mbind option_bind].
  rewrite bytes_from_terminated in *. set (u := Z.to_nat (num_bytes_used t)) in *.
  assert (Hlu : length (take u (t_bytes t)) = u) by (rewrite length_take; lia).
  eexists. split; [reflexivity|]. split_and!.
  - constructor; [|done]. unfold table_ok. cbn [num_bytes_used num_bytes_allocated t_bytes].
    rewrite Hlb. lia.
  - eexists. split_and!.
    + simpl. rewrite lookup_app_r by (rewrite length_rev; simpl; lia).
      rewrite length_rev. simpl. by rewrite Nat.sub_diag.
    + simpl. unfold strlen. fold u. lia.
    + simpl. fold u. rewrite drop_app_ge, Hlu, Nat.sub_diag, drop_0 by (rewrite ?Hlu; lia).
      rewrite take_app_le, take_ge by (rewrite ?Hbl; unfold strlen; lia). done.
  - intros ptr' s. apply points_to_write; simpl; [lia|]. fold u.
    rewrite take_app_le, take_ge by (rewrite ?Hlu; lia). done.
Qed.

(** *** Adding *)

(** The parent with the new node [k] (an index from 1) linked under it. *)
Definition linked (e : nrstring_t) (h k : Z) : nrstring_t :=
  if e_hash e <? h then mk_string (e_hash e) (e_length e) k (e_right e)
  else mk_string (e_hash e) (e_length e) (e_left e) k.

Lemma node_of_linked e h (k : Z) : node_of (linked e h (k + 1)) = hang (node_of e) h k.
Proof.
  unfold linked, hang, node_of. destruct (e_hash e <? h); cbn [e_hash e_left e_right];
    by rewrite Z.add_simpl_r.
Qed.

Lemma linked_same e h k : e_hash (linked e h k) = e_hash e /\ e_length (linked e h k) = e_length e.
Proof. unfold linked. by destruct (e_hash e <? h). Qed.

Lemma tree_of_snoc es n h len :
  (n < length es)%nat ->
  tree_of (<[n := mk_string h len 0 0]> es) (S n) = tree_of es n ++ [(h, -1, -1)].
Proof.
  intros Hn. unfold tree_of.
  rewrite (take_S_r _ _ (mk_string h len 0 0)) by (by rewrite list_lookup_insert_eq).
  rewrite map_app, take_insert_ge by lia. done.
Qed.

Lemma tree_of_link es n (q : nat) e h :
  (q < n <= length es)%nat -> es !! q = Some e ->
  tree_of (<[q := linked e h (Z.of_nat n + 1)]> es) n
  = <[q := hang (node_of e) h (Z.of_nat n)]> (tree_of es n).
Proof.
  intros Hq He. unfold tree_of. rewrite take_insert_lt by lia.
  rewrite <- node_of_linked. apply list_fmap_insert.
Qed.

(** The entries after an addition at [n], under the parent if there is one. *)
Definition add_entry (es : list nrstring_t) (n : nat) (parent : option nat) (h len : Z)
  : list nrstring_t :=
  let es1 := <[n := mk_string h len 0 0]> es in
  match parent with
  | Some q => match es !! q with Some e => <[q := linked e h (Z.of_nat n + 1)]> es1 | None => es1 end
  | None => es1
  end.

Lemma add_entry_length es n parent h len : length (add_entry es n parent h len) = length es.
Proof.
  unfold add_entry. destruct parent as [q|]; [destruct (es !! q)|]; by rewrite ?length_insert.
Qed.

(** Hashes and lengths stay; the new entry has its own. *)
Lemma add_entry_lookup es n parent h len (i : nat) e :
  (match parent with Some q => (q < n)%nat | None => True end) ->
  <[n := mk_string h len 0 0]> es !! i = Some e ->
  exists e', add_entry es n parent h len !! i = Some e' /\ e_hash e' = e_hash e /\ e_length e' = e_length e.
Proof.
  intros Hq Hi. unfold add_entry. destruct parent as [q|]; [|by exists e].
  destruct (es !! q) as [eq|] eqn:Eq; [|by exists e].
  destruct (decide (i = q)) as [->|]; [|rewrite list_lookup_insert_ne by done; by exists e].
  pose proof (lookup_lt_Some _ _ _ Hi) as Hlt.
  rewrite list_lookup_insert_ne, Eq in Hi by lia. injection Hi as ->.
  rewrite list_lookup_insert_eq by done. eexists. split; [done|]. apply linked_same.
Qed.

(** The place where a new node goes. *)
Definition place (p : nrstrpool_t) (ss : list cstr) (string : cstr) (parent : option nat) : Prop :=
  match parent with
  | None => ss = []
  | Some q => (q < length ss)%nat
      /\ walk (tree_of (entries p) (length ss)) (hash_of_string string) 0 q
      /\ step (tree_of (entries p) (length ss)) (hash_of_string string) q = -1
  end.

Lemma add_entry_tree p ss string parent len :
  pool_ok p ss -> (length ss < length (entries p))%nat -> place p ss string parent ->
  tree_ok (tree_of (add_entry (entries p) (length ss) parent (hash_of_string string) len) (S (length ss))).
Proof.
  intros Hok Hlt Hp. unfold add_entry. destruct parent as [q|].
  - destruct Hp as (Hq & Hw & Hst). destruct (lookup_lt_is_Some_2 (entries p) q) as [e He]; [lia|].
    rewrite He. rewrite list_insert_insert_ne by lia.
    rewrite tree_of_snoc by (rewrite length_insert; lia). rewrite tree_of_link by (done || lia).
    rewrite <- (tree_of_length p ss Hok) at 1.
    apply tree_ok_insert; [apply (ok_tree _ _ Hok)|done| |done]. by apply tree_of_lookup.
  - rewrite tree_of_snoc by lia. rewrite Hp. apply tree_ok_singleton.
Qed.

Lemma pool_ok_add p ss string parent ptr ts :
  pool_ok p ss -> num_entries p < pool_size p -> strlen string < 2 ^ 31 - 1 -> c_str string ∉ ss ->
  place p ss string parent -> Forall table_ok ts -> points_to ts ptr (c_str string) ->
  (forall ptr s, points_to (tables p) ptr s -> points_to ts ptr s) ->
  pool_ok (mk_pool (num_entries p + 1) (pool_size p)
             (add_entry (entries p) (length ss) parent (hash_of_string string) (strlen string))
             (<[length ss := Some ptr]> (strings p)) ts) (ss ++ [c_str string]).
Proof.
  intros Hok Hroom Hs Hnew Hp Hts Hptr Hold.
  pose proof (ok_capacity _ _ Hok) as Hc. pose proof (ok_size _ _ Hok) as [Hsz Hsz'].
  pose proof (ok_number _ _ Hok) as Hn.
  split; cbn [num_entries pool_size entries strings tables].
  - rewrite length_app. simpl. lia.
  - rewrite length_insert, add_entry_length. lia.
  - lia.
  - apply NoDup_app. split_and!; [apply (ok_nodup _ _ Hok)| |apply NoDup_singleton].
    intros x Hx Hx'. by apply list_elem_of_singleton in Hx' as ->.
  - intros s Hin. apply elem_of_app in Hin as [Hin|Hin]; [by apply (ok_chars _ _ Hok)|].
    apply list_elem_of_singleton in Hin as ->. rewrite c_str_idemp, strlen_c_str. split; [done|lia].
  - intros i s Hi.
    assert (exists e, <[length ss := mk_string (hash_of_string string) (strlen string) 0 0]> (entries p) !! i
              = Some e /\ e_hash e = hash_of_string s /\ e_length e = strlen s) as (e & He & <- & <-).
    { apply lookup_app_Some in Hi as [Hi|[Hge Hi]].
      - pose proof (lookup_lt_Some _ _ _ Hi). rewrite list_lookup_insert_ne by lia.
        by apply (ok_entry _ _ Hok).
      - apply list_lookup_singleton_Some in Hi as [Hi <-].
        assert (i = length ss) as -> by lia. rewrite list_lookup_insert_eq by lia.
        eexists. split; [done|]. simpl. rewrite strlen_c_str. split; [|done].
        apply hash_of_string_content; [lia|by rewrite c_str_idemp]. }
    apply add_entry_lookup; [|done]. destruct parent; [apply Hp|done].
  - intros i s Hi. apply lookup_app_Some in Hi as [Hi|[Hge Hi]].
    + pose proof (lookup_lt_Some _ _ _ Hi). rewrite list_lookup_insert_ne by lia.
      destruct (ok_string _ _ Hok i s Hi) as (ptr' & Hp' & Hpt). exists ptr'. auto.
    + apply list_lookup_singleton_Some in Hi as [Hi <-].
      assert (i = length ss) as -> by lia. rewrite list_lookup_insert_eq by lia. by exists ptr.
  - done.
  - rewrite length_app. cbn [length]. rewrite Nat.add_1_r. apply add_entry_tree; [done|lia|done].
  - by destruct ss.
Qed.

(** What [add_new] does with a pool that has room, the parent found. *)
Lemma add_new_spec p ss string (parent : option nat) :
  pool_ok p ss -> num_entries p < pool_size p -> strlen string < 2 ^ 31 - 1 -> c_str string ∉ ss ->
  place p ss string parent ->
  exists p', add_new p string (hash_of_string string) (strlen string)
               (match parent with Some q => Z.of_nat (S q) | None => 0 end)
             = Some (Z.of_nat (length ss) + 1, p')
    /\ pool_ok p' (ss ++ [c_str string]) /\ num_entries p' = num_entries p + 1.
Proof.
  intros Hok Hroom Hs Hnew Hp. pose proof (strlen_le string) as Hl.
  pose proof (ok_capacity _ _ Hok) as Hc. pose proof (ok_size _ _ Hok) as [Hsz Hsz'].
  pose proof (ok_number _ _ Hok) as Hn. unfold add_new.
  rewrite int_ok_id by lia. cbn [mbind option_bind].
  assert (exists e0, entry_at (set_num_entries p (num_entries p + 1)) (num_entries p) = Some e0) as [e0 ->]
    by (unfold entry_at; simpl; apply lookup_lt_is_Some_2; lia).
  cbn [mbind option_bind]. set (p1 := set_entries _ _).
  destruct (ensure_table_spec p1 (strlen string) (ok_tables _ _ Hok)) as (t & ts & -> & Htok & Hfit & Hold1);
    [lia|lia|]. cbn [mbind option_bind].
  destruct (store_string_spec (set_tables p1 (t :: ts)) t ts (num_entries p) string)
    as (t' & Hst & Htok' & Hptr & Hold2); [done|done|lia|lia|simpl; lia|].
  rewrite Hst. cbn [mbind option_bind]. clear Hst.
  exists (mk_pool (num_entries p + 1) (pool_size p)
            (add_entry (entries p) (length ss) parent (hash_of_string string) (strlen string))
            (<[length ss := Some (mk_sptr (length ts) (Z.to_nat (num_bytes_used t)))]> (strings p))
            (t' :: ts)).
  split; [|split; [apply pool_ok_add; auto|simpl; lia]].
  unfold link_parent, add_entry, p1. rewrite Hn, Nat2Z.id.
  destruct parent as [q|]; [|by rewrite <- Hn].
  destruct Hp as (Hq & _). destruct (Z.eqb_spec 0 (Z.of_nat (S q))); [lia|].
  replace (Z.of_nat (S q) - 1) with (Z.of_nat q) by lia. unfold entry_at. rewrite Nat2Z.id.
  destruct (lookup_lt_is_Some_2 (entries p) q) as [e He]; [lia|]. rewrite He.
  cbn [entries set_entries set_tables set_num_entries].
  rewrite list_lookup_insert_ne, He by lia. done.
Qed.

(** [nr_string_add] *)
Lemma nr_string_add_spec p ss string :
  pool_ok p ss -> num_entries p + NR_STRPOOL_INCREASE_SIZE < 2 ^ 31 -> strlen string < 2 ^ 31 - 1 ->
  exists idx p' ss', nr_string_add (Some p) (Some string) = Some (idx, Some p')
    /\ pool_ok p' ss' /\ ss' = (if decide (c_str string ∈ ss) then ss else ss ++ [c_str string])
    /\ 0 < idx /\ ss' !! Z.to_nat (idx - 1) = Some (c_str string).
Proof.
  intros Hok Hb Hs. pose proof (strlen_le string) as Hl.
  unfold nr_string_add. rewrite hash_and_length_spec by lia. unfold nr_string_add_internal.
  destruct (Z.ltb_spec (strlen string) 0); [lia|].
  destruct (pool_grow_spec p ss no_string Hok Hb) as (p1 & -> & Hok1 & Hn1 & Hroom & Ht).
  cbn [mbind option_bind]. pose proof (ok_number _ _ Hok1) as Hn.
  assert (Hadd : forall parent, place p1 ss string parent -> c_str string ∉ ss ->
    exists idx p' ss',
      ('(i, p) ← add_new p1 string (hash_of_string string) (strlen string)
                  (match parent with Some q => Z.of_nat (S q) | None => 0 end); Some (i, Some p))
      = Some (idx, Some p')
    /\ pool_ok p' ss' /\ ss' = (if decide (c_str string ∈ ss) then ss else ss ++ [c_str string])
    /\ 0 < idx /\ ss' !! Z.to_nat (idx - 1) = Some (c_str string)).
  { intros parent Hp Hnin.
    destruct (add_new_spec p1 ss string parent Hok1 Hroom Hs Hnin Hp) as (p' & -> & Hok' & _).
    eexists _, p', _. split_and!; [reflexivity|done|by rewrite decide_False|lia|].
    rewrite lookup_app_r by lia. by replace (_ - length ss)%nat with 0%nat by lia. }
  destruct (decide (ss = [])) as [E|Hne].
  - replace (0 =? num_entries p1) with true by (rewrite Hn, E; done). cbn [mbind option_bind].
    apply (Hadd None); [done|rewrite E; apply not_elem_of_nil].
  - destruct (Z.eqb_spec 0 (num_entries p1)) as [E|_]; [destruct ss; [done|simpl in *; lia]|].
    destruct (search_complete p1 ss string Hok1) as (r & Hr & Hspec); [lia|done|].
    pose proof (add_loop_search p1 ss string Hok1) as Ha.
    specialize (Ha ltac:(lia) (length ss) 0%nat r). specialize (Ha ltac:(destruct ss; [done|simpl; lia]) Hr).
    assert (Hmono : forall fuel idx r', add_loop fuel p1 string (hash_of_string string) (strlen string) idx
        = Some r' -> add_loop (S fuel) p1 string (hash_of_string string) (strlen string) idx = Some r').
    { induction fuel as [|fuel IH]; intros idx r' H'; [done|].
      cbn [add_loop] in H'. remember (S fuel) as f eqn:Ef. cbn [add_loop]. subst f.
      destruct (entry_at p1 (idx - 1)) as [e|]; [|done]. cbn [mbind option_bind] in *.
      destruct (entry_matches _ _ _ _ _ _) as [[]|]; [done| |done]. cbn [mbind option_bind] in *.
      case_if; [done|]. by apply IH. }
    apply Hmono in Ha. rewrite Hn, Nat2Z.id. change (Z.of_nat 1) with 1 in Ha. rewrite Ha.
    cbn [mbind option_bind]. destruct r as [j|q].
    + eexists _, p1, ss. split_and!; [reflexivity|done| |lia|].
      * rewrite decide_True; [done|]. by eapply list_elem_of_lookup_2.
      * by replace (Z.to_nat (Z.of_nat (S j) - 1)) with j by lia.
    + destruct Hspec as (Hnin & Hspec). by apply (Hadd (Some q)).
Qed.

Lemma nr_string_pool_create_ok : pool_ok nr_string_pool_create [].
Proof.
  unfold nr_string_pool_create, NR_STRPOOL_STARTING_SIZE.
  split; cbn [num_entries pool_size entries strings tables].
  - done.
  - rewrite !length_replicate. lia.
  - lia.
  - constructor.
  - intros s Hs. by apply elem_of_nil in Hs.
  - intros i s Hi. done.
  - intros i s Hi. done.
  - constructor.
  - split; [simpl; lia|done].
  - done.
Qed.

(** ** Properties *)

(** Adding strings one after the other: the indices, and the pool at the end. *)
Fixpoint add_all (pool : option nrstrpool_t) (ss : list cstr)
  : option (list Z * option nrstrpool_t) :=
  match ss with
  | [] => Some ([], pool)
  | s :: ss =>
      '(i, pool) ← nr_string_add pool (Some s);
      '(ids, pool) ← add_all pool ss;
      Some (i :: ids, pool)
  end.

(** The distinct strings, in order of their first occurrence after [seen]. *)
Fixpoint distinct_from (seen : list cstr) (ss : list cstr) : list cstr :=
  match ss with
  | [] => seen
  | s :: ss =>
      distinct_from (if decide (c_str s ∈ seen) then seen else seen ++ [c_str s]) ss
  end.

Lemma distinct_from_prefix (seen ss : list cstr) : seen `prefix_of` distinct_from seen ss.
Proof.
  revert seen. induction ss as [|s ss IH]; intros seen; [done|]. cbn [distinct_from].
  case_decide; [apply IH|]. etrans; [|apply IH]. by eexists.
Qed.

Lemma add_all_spec (n : nat) p seen (ss : list cstr) :
  pool_ok p seen -> (length seen + length ss <= n)%nat ->
  Z.of_nat n + NR_STRPOOL_INCREASE_SIZE < 2 ^ 31 -> Forall (fun s => strlen s < 2 ^ 31 - 1) ss ->
  exists ids p', add_all (Some p) ss = Some (ids, Some p')
    /\ pool_ok p' (distinct_from seen ss)
    /\ Forall2 (fun i s => 0 < i /\ distinct_from seen ss !! Z.to_nat (i - 1) = Some (c_str s)) ids ss.
Proof.
  revert p seen. induction ss as [|s ss IH]; intros p seen Hok Hn Hb Hs; cbn [add_all distinct_from].
  { exists [], p. split_and!; [done|done|constructor]. }
  simpl in Hn. inversion Hs as [|? ? Hs1 Hss]; subst.
  destruct (nr_string_add_spec p seen s) as (idx & p1 & seen1 & -> & Hok1 & -> & Hidx & Hget);
    [done|rewrite (ok_number _ _ Hok); lia|done|]. cbn [mbind option_bind].
  destruct (IH p1 _ Hok1) as (ids & p' & -> & Hok' & Hall);
    [case_decide; rewrite ?length_app; simpl; lia|done|done|]. cbn [mbind option_bind].
  exists (idx :: ids), p'. split_and!; [done|done|]. constructor; [|done]. split; [done|].
  eapply prefix_lookup_Some; [exact Hget|apply distinct_from_prefix].
Qed.

Lemma elem_of_distinct_from (seen ss : list cstr) x :
  x ∈ distinct_from seen ss <-> x ∈ seen \/ x ∈ map c_str ss.
Proof.
  revert seen. induction ss as [|s ss IH]; intros seen; cbn [distinct_from map].
  { rewrite elem_of_nil. tauto. }
  rewrite IH, elem_of_cons. case_decide; [|rewrite elem_of_app, list_elem_of_singleton; tauto].
  split; [tauto|]. intros [?|[->|?]]; tauto.
Qed.

(** The accessors at an index of the pool. *)
Lemma pool_accessors p ss (idx : Z) s :
  pool_ok p ss -> 0 < idx -> ss !! Z.to_nat (idx - 1) = Some s ->
  (exists s', nr_string_get (Some p) idx = Some (Some s') /\ c_str s' = s)
  /\ nr_string_len (Some p) idx = Some (strlen s)
  /\ nr_string_hash (Some p) idx = Some (hash_of_string s).
Proof.
  intros Hok Hidx Hs. pose proof (lookup_lt_Some _ _ _ Hs). pose proof (ok_number _ _ Hok).
  split.
  - replace idx with (Z.of_nat (S (Z.to_nat (idx - 1)))) by lia. by eapply nr_string_get_spec.
  - destruct (ok_entry _ _ Hok _ _ Hs) as (e & He & Hh & Hl).
    unfold nr_string_len, nr_string_hash, bad_index, entry_at.
    destruct (Z.leb_spec idx 0); [lia|]. destruct (Z.ltb_spec (num_entries p) idx); [lia|].
    cbn [orb]. rewrite He. cbn [mbind option_bind]. by rewrite Hl, Hh.
Qed.

(* @about nr_string_pool_create nr_string_add nr_string_add_internal add_loop add_new nr_string_get nr_string_len nr_string_hash *)
(** C28 (functional): adding any sequence of strings to a new pool (fewer than the [int] range
    holds) never reads or writes outside the pool's arrays and tables.  Each index that was
    returned gives back its own string, length and hash after all the later additions have grown
    the arrays and tables, and two additions return the same index exactly when the strings
    are equal: every string is stored once. *)
Theorem nr_string_pool_interns (ss : list cstr) :
  Z.of_nat (length ss) + NR_STRPOOL_INCREASE_SIZE < 2 ^ 31 ->
  Forall (fun s => strlen s < 2 ^ 31 - 1) ss ->
  exists ids pool, add_all (Some nr_string_pool_create) ss = Some (ids, Some pool)
    /\ length ids = length ss
    /\ (forall k i s, ids !! k = Some i -> ss !! k = Some s ->
          (exists s', nr_string_get (Some pool) i = Some (Some s') /\ c_str s' = c_str s)
          /\ nr_string_len (Some pool) i = Some (strlen s)
          /\ nr_string_hash (Some pool) i = Some (fst (nr_mkhash (Some s) None)))
    /\ (forall k l i j s s', ids !! k = Some i -> ss !! k = Some s ->
          ids !! l = Some j -> ss !! l = Some s' -> i = j <-> c_str s = c_str s').
Proof.
  intros Hn Hs.
  destruct (add_all_spec (length ss) _ [] ss nr_string_pool_create_ok) as (ids & p & Hrun & Hok & Hall);
    [simpl; lia|done|done|].
  exists ids, p. split_and!; [done|by eapply Forall2_length| |].
  - intros k i s Hi Hk. rewrite Forall_lookup in Hs. pose proof (Hs _ _ Hk) as Hl. simpl in Hl.
    destruct (Forall2_lookup_lr _ _ _ _ _ _ Hall Hi Hk) as [Hpos Hget].
    destruct (pool_accessors p _ i _ Hok Hpos Hget) as (Hg & -> & ->).
    rewrite strlen_c_str. split_and!; [done|done|]. f_equal.
    apply hash_of_string_content; [rewrite strlen_c_str; lia|by rewrite c_str_idemp].
  - intros k l i j s s' Hi Hk Hj Hl.
    destruct (Forall2_lookup_lr _ _ _ _ _ _ Hall Hi Hk) as [Hpi Hgi].
    destruct (Forall2_lookup_lr _ _ _ _ _ _ Hall Hj Hl) as [Hpj Hgj].
    split; [intros ->; congruence|]. intros E. rewrite <- E in Hgj.
    pose proof (NoDup_lookup _ _ _ _ (ok_nodup _ _ Hok) Hgi Hgj). lia.
Qed.

Lemma nr_string_pool_interns_witness :
  exists ids pool, add_all (Some nr_string_pool_create) [str "a"; str "b"; str "a"] = Some (ids, Some pool)
    /\ length ids = 3%nat.
Proof.
  destruct (nr_string_pool_interns [str "a"; str "b"; str "a"]) as (ids & pool & H & Hl & _).
  - reflexivity.
  - repeat constructor.
  - exists ids, pool. split; [exact H|exact Hl].
Defined.

(** In a pool to which a sequence of strings was added, [nr_string_find] of
    any string terminates and answers 0 exactly when the string is not among them (in
    particular on an empty pool, whose first entry it does read), and the index holding it
    otherwise; and [nr_string_pool_apply] visits the distinct strings once each, in the order
    of their first addition, each with its length. *)
Theorem nr_string_find_complete (ss : list cstr) :
  Z.of_nat (length ss) + NR_STRPOOL_INCREASE_SIZE < 2 ^ 31 ->
  Forall (fun s => strlen s < 2 ^ 31 - 1) ss ->
  exists ids pool, add_all (Some nr_string_pool_create) ss = Some (ids, Some pool)
    /\ (forall s, strlen s < 2 ^ 31 ->
          exists i, nr_string_find (Some pool) (Some s) = Some i
          /\ (i = 0 <-> c_str s ∉ map c_str ss)
          /\ (i <> 0 -> exists s', nr_string_get (Some pool) i = Some (Some s') /\ c_str s' = c_str s))
    /\ exists visited, nr_string_pool_apply (Some pool) = Some visited
       /\ Forall2 (fun v s => option_map c_str (fst v) = Some s /\ snd v = strlen s)
            visited (distinct_from [] ss).
Proof.
  intros Hn Hs.
  destruct (add_all_spec (length ss) _ [] ss nr_string_pool_create_ok) as (ids & p & Hrun & Hok & Hall);
    [simpl; lia|done|done|].
  exists ids, p. split_and!; [done| |].
  - intros s Hl. destruct (nr_string_find_spec p _ s Hok Hl) as (i & Hi & Hspec). exists i.
    split; [done|].
    assert (Hin : c_str s ∈ distinct_from [] ss <-> c_str s ∈ map c_str ss).
    { rewrite elem_of_distinct_from, elem_of_nil. tauto. }
    rewrite <- Hin. destruct (Z.eqb_spec i 0) as [->|Hne]; [done|].
    destruct Hspec as [Hpos Hget]. split.
    + split; [lia|]. intros []. by apply list_elem_of_lookup_2 in Hget.
    + intros _. by apply (pool_accessors p _ i _ Hok Hpos Hget).
  - unfold nr_string_pool_apply. rewrite (ok_number _ _ Hok), Nat2Z.id.
    set (ds := distinct_from [] ss) in *.
    assert (Hgen : forall n k, (k + n <= length ds)%nat -> exists visited,
      mapM (fun i => s ← string_at p (Z.of_nat i); e ← entry_at p (Z.of_nat i); Some (s, e_length e))
        (seq k n) = Some visited
      /\ Forall2 (fun v s => option_map c_str (fst v) = Some s /\ snd v = strlen s)
           visited (take n (drop k ds))).
    { induction n as [|n IH]; intros k Hk; cbn [seq mapM]; [exists []; by split|].
      destruct (lookup_lt_is_Some_2 ds k) as [s Hds]; [lia|].
      destruct (string_at_spec p _ k s Hok Hds) as (s' & -> & Hs').
      destruct (ok_entry _ _ Hok k s Hds) as (e & He & _ & Hel).
      unfold entry_at. rewrite Nat2Z.id, He. cbn [mbind option_bind].
      destruct (IH (S k)) as (visited & Hv & Hall'); [lia|]. unfold entry_at in Hv. rewrite Hv.
      cbn [mbind option_bind]. eexists. split; [done|]. rewrite (drop_S ds s k Hds). cbn [take].
      constructor; [|done]. simpl. by rewrite Hs', Hel. }
    destruct (Hgen (length ds) 0%nat) as (visited & Hv & Hall'); [lia|].
    exists visited. split; [done|]. by rewrite drop_0, take_ge in Hall' by lia.
Qed.

Lemma nr_string_find_complete_witness :
  exists ids pool, add_all (Some nr_string_pool_create) [str "a"; str "b"] = Some (ids, Some pool)
    /\ (exists i, nr_string_find (Some pool) (Some (str "c")) = Some i /\ i = 0).
Proof.
  destruct (nr_string_find_complete [str "a"; str "b"]) as (ids & pool & H & Hf & _).
  - reflexivity.
  - repeat constructor.
  - exists ids, pool. split; [exact H|]. destruct (Hf (str "c")) as (i & Hi & H0 & _); [reflexivity|].
    exists i. split; [exact Hi|]. apply H0. vm_compute. intros Hin.
    apply elem_of_cons in Hin as [Hin|Hin]; [discriminate Hin|].
    apply elem_of_cons in Hin as [Hin|Hin]; [discriminate Hin|]. by apply elem_of_nil in Hin.
Defined.

(** ** The pool as the metric table sees it *)

(** What a client of the pool relies on: a string that is added keeps its index. *)
Class NamePool (P : Type) : Type := {
  pool_create : P;
  pool_add : option P -> option cstr -> option (Z * option P);
  pool_get : option P -> Z -> option (option cstr);
  pool_find : option P -> option cstr -> option Z;
  pool_holds : P -> list cstr -> Prop;
  pool_create_holds : pool_holds pool_create [];
  pool_add_law : forall p ss s,
    pool_holds p ss -> Z.of_nat (length ss) + NR_STRPOOL_INCREASE_SIZE < 2 ^ 31 -> strlen s < 2 ^ 31 - 1 ->
    exists idx p' ss', pool_add (Some p) (Some s) = Some (idx, Some p') /\ pool_holds p' ss'
      /\ ss `prefix_of` ss' /\ (length ss' <= S (length ss))%nat
      /\ 0 < idx /\ ss' !! Z.to_nat (idx - 1) = Some (c_str s);
  pool_get_law : forall p ss idx s,
    pool_holds p ss -> 0 < idx -> ss !! Z.to_nat (idx - 1) = Some s ->
    exists s', pool_get (Some p) idx = Some (Some s') /\ c_str s' = s;
  pool_get_zero : forall p, pool_get (Some p) 0 = Some None;
  pool_find_law : forall p ss s,
    pool_holds p ss -> strlen s < 2 ^ 31 ->
    exists idx, pool_find (Some p) (Some s) = Some idx
      /\ if idx =? 0 then c_str s ∉ ss else 0 < idx /\ ss !! Z.to_nat (idx - 1) = Some (c_str s);
}.

#[export] Instance nrstrpool_name_pool : NamePool nrstrpool_t.
Proof.
  refine {|
    pool_create := nr_string_pool_create;
    pool_add := nr_string_add;
    pool_get := nr_string_get;
    pool_find := nr_string_find;
    pool_holds := pool_ok;
    pool_create_holds := nr_string_pool_create_ok;
  |}.
  - intros p ss s Hok Hb Hs.
    destruct (nr_string_add_spec p ss s Hok) as (idx & p' & ss' & H & Hok' & -> & Hidx & Hget);
      [by rewrite (ok_number _ _ Hok)|done|].
    exists idx, p'. eexists. split_and!; [done|done| | |done|done];
      case_decide; [done|by eexists|lia|rewrite length_app; simpl; lia].
  - intros p ss idx s Hok Hidx Hs. by apply (pool_accessors p ss idx s Hok Hidx Hs).
  - intros p. cbn. unfold bad_index. done.
  - intros p ss s Hok Hs. by apply nr_string_find_spec.
Defined.
