(* ===== verification/Metrics.v ===== *)
(** * Metric tables

    [util_metrics.c]: a table of metrics found by name through a binary tree of hashes in the
    array of metrics.  The names live in a string pool, which the table uses through the
    interface [NamePool] of [StringPool.v].  A [nrmetric_t*] is the index of the metric in the
    array, [None] for NULL.  [None] as the result of an operation stands for an access outside
    the array, an [int] that overflows or a loop that does not end. *)

From S2P Require Import Prelude Strings Hash HashTree Time StringPool.

(* @map util_metrics.h:26-27 MET_IS_APDEX *)
Definition MET_IS_APDEX : Z := 1.
Definition MET_FORCED : Z := 2.

(* @map util_metrics.c:40-40 NRM_DEFAULT_MAX_SIZE *)
Definition NRM_DEFAULT_MAX_SIZE : Z := 2048.

(** The data attributes; an apdex metric has the last three in place of the first three. *)
(* @map util_metrics_private.h:33-44 nr_metric_data_attribute_t *)
Definition NRM_COUNT : nat := 0.
Definition NRM_TOTAL : nat := 1.
Definition NRM_EXCLUSIVE : nat := 2.
Definition NRM_MIN : nat := 3.
Definition NRM_MAX : nat := 4.
Definition NRM_SUMSQUARES : nat := 5.
Definition NRM_SATISFYING : nat := 0.
Definition NRM_TOLERATING : nat := 1.
Definition NRM_FAILING : nat := 2.
Definition NRM_MUST_BE_GREATEST : nat := 6.

(* @map util_metrics_private.h:46-53 nrmintmetric_t *)
Record nrmetric_t : Type := mk_metric {
  m_hash : Z;
  m_left : Z;
  m_right : Z;
  m_flags : Z;
  m_name_index : Z;
  m_data : list Z;
}.

(* @map util_metrics_private.h:18-24 nrminttable_t *)
Record nrmtable_t (P : Type) : Type := mk_table {
  number : Z;
  allocated : Z;
  max_size : Z;
  metrics : option (list nrmetric_t);
  strpool : option P;
}.
Arguments mk_table {P}.
Arguments number {P}.
Arguments allocated {P}.
Arguments max_size {P}.
Arguments metrics {P}.
Arguments strpool {P}.

(** [metric->mdata[k]] *)
Definition datum (d : list Z) (k : nat) : Z := nth k d 0.

(** [metrics[i]] *)
Definition metric_at (ms : list nrmetric_t) (i : Z) : option nrmetric_t :=
  if i <? 0 then None else ms !! Z.to_nat i.

Definition set_flags (m : nrmetric_t) (f : Z) : nrmetric_t :=
  mk_metric (m_hash m) (m_left m) (m_right m) f (m_name_index m) (m_data m).

Definition set_data (m : nrmetric_t) (d : list Z) : nrmetric_t :=
  mk_metric (m_hash m) (m_left m) (m_right m) (m_flags m) (m_name_index m) d.

(** ** Accessors *)

(** One definition for the nine functions the macro makes. *)
(* @map util_metrics.c:22-38 NRM_CREATE_ACCESSOR_FUNCTION *)
Definition nrm_datum (k : nat) (metric : option nrmetric_t) : Z :=
  match metric with None => 0 | Some m => datum (m_data m) k end.

Definition nrm_satisfying := nrm_datum NRM_SATISFYING.
Definition nrm_tolerating := nrm_datum NRM_TOLERATING.
Definition nrm_failing := nrm_datum NRM_FAILING.
Definition nrm_count := nrm_datum NRM_COUNT.
Definition nrm_total := nrm_datum NRM_TOTAL.
Definition nrm_exclusive := nrm_datum NRM_EXCLUSIVE.
Definition nrm_min := nrm_datum NRM_MIN.
Definition nrm_max := nrm_datum NRM_MAX.
Definition nrm_sumsquares := nrm_datum NRM_SUMSQUARES.

(* @map util_metrics.c:74-79 nrm_is_apdex *)
Definition nrm_is_apdex (metric : option nrmetric_t) : Z :=
  match metric with
  | Some m => if negb (Z.land (m_flags m) MET_IS_APDEX =? 0) then 1 else 0
  | None => 0
  end.

(* @map util_metrics.c:81-86 nrm_is_forced *)
Definition nrm_is_forced (metric : option nrmetric_t) : Z :=
  match metric with
  | Some m => if negb (Z.land MET_FORCED (m_flags m) =? 0) then 1 else 0
  | None => 0
  end.

(* @map util_metrics.c:88-90 nrm_hash *)
Definition nrm_hash (name : option cstr) : Z := fst (nr_mkhash name None).

(** ** What an addition does to one metric *)

(* @map util_metrics.c:241-253 nrm_add_internal *)
Definition add_data (d : list Z) (count total exclusive min max sum_of_squares : Z) : list Z :=
  let d := <[NRM_COUNT := u64 (datum d NRM_COUNT + count)]> d in
  let d := <[NRM_TOTAL := u64 (datum d NRM_TOTAL + total)]> d in
  let d := <[NRM_EXCLUSIVE := u64 (datum d NRM_EXCLUSIVE + exclusive)]> d in
  let d := if min <? datum d NRM_MIN then <[NRM_MIN := min]> d else d in
  let d := if datum d NRM_MAX <? max then <[NRM_MAX := max]> d else d in
  <[NRM_SUMSQUARES := u64 (datum d NRM_SUMSQUARES + sum_of_squares)]> d.

(* @map util_metrics.c:298-308 nrm_add_apdex_internal *)
Definition add_apdex_data (d : list Z) (satisfying tolerating failing min_apdex max_apdex : Z)
  : list Z :=
  let d := <[NRM_SATISFYING := u64 (datum d NRM_SATISFYING + satisfying)]> d in
  let d := <[NRM_TOLERATING := u64 (datum d NRM_TOLERATING + tolerating)]> d in
  let d := <[NRM_FAILING := u64 (datum d NRM_FAILING + failing)]> d in
  let d := if min_apdex <? datum d NRM_MIN then <[NRM_MIN := min_apdex]> d else d in
  if datum d NRM_MAX <? max_apdex then <[NRM_MAX := max_apdex]> d else d.

Section Table.
Context {P : Type} `{NamePool P}.

Abbreviation table_t := (nrmtable_t P).

(** ** Making and destroying tables *)

Definition zero_metric : nrmetric_t := mk_metric 0 0 0 0 0 (replicate NRM_MUST_BE_GREATEST 0).

(* @map util_metrics.c:42-58 nrm_table_create *)
Definition nrm_table_create (max_size : Z) : table_t :=
  let max_size := if max_size <=? 0 then NRM_DEFAULT_MAX_SIZE else max_size in
  mk_table 0 max_size max_size (Some (replicate (Z.to_nat max_size) zero_metric)) (Some pool_create).

(* @map util_metrics.c:60-72 nrm_table_destroy *)
Definition nrm_table_destroy (table_p : option (option table_t)) : option (option table_t) :=
  match table_p with
  | Some (Some table) => Some None
  | _ => table_p
  end.

Definition set_metrics (t : table_t) (ms : list nrmetric_t) : table_t :=
  mk_table (number t) (allocated t) (max_size t) (Some ms) (strpool t).

(** Writing to [*metric]. *)
Definition update_metric (t : table_t) (i : nat) (f : nrmetric_t -> nrmetric_t) : option table_t :=
  ms ← metrics t; m ← ms !! i; Some (set_metrics t (<[i := f m]> ms)).

(** Reading [*metric]. *)
Definition read_metric (t : table_t) (i : option nat) : option (option nrmetric_t) :=
  match i with
  | None => Some None
  | Some i => ms ← metrics t; m ← ms !! i; Some (Some m)
  end.

(** ** Finding *)

(* @map util_metrics.c:102-119 nrm_find_internal *)
Fixpoint nrm_find_loop (fuel : nat) (t : table_t) (ms : list nrmetric_t) (name : option cstr)
  (hash i : Z) : option (option nat) :=
  match fuel with
  | O => None
  | S fuel =>
      if i =? -1 then Some None
      else
        metric ← metric_at ms i;
        found ← (if hash =? m_hash metric then
                   metric_name ← pool_get (strpool t) (m_name_index metric);
                   Some (0 =? nr_strcmp name metric_name)
                 else Some false);
        if (found : bool) then Some (Some (Z.to_nat i))
        else nrm_find_loop fuel t ms name hash (if m_hash metric <? hash then m_left metric else m_right metric)
  end.

(* @map util_metrics.c:92-122 nrm_find_internal *)
Definition nrm_find_internal (table : option table_t) (name : option cstr) (hash : Z)
  : option (option nat) :=
  match table with
  | None => Some None
  | Some t =>
      match metrics t with
      | None => Some None
      | Some ms => if 0 =? number t then Some None
                   else nrm_find_loop (S (Z.to_nat (number t))) t ms name hash 0
      end
  end.

(* @map util_metrics.c:124-128 nrm_find *)
Definition nrm_find (table : option table_t) (name : option cstr) : option (option nat) :=
  nrm_find_internal table name (nrm_hash name).

(** ** Creating *)

(* @map util_metrics.c:167-184 nrm_create *)
Fixpoint nrm_create_loop (fuel : nat) (ms : list nrmetric_t) (hash new_metric_index i : Z)
  : option (list nrmetric_t) :=
  match fuel with
  | O => None
  | S fuel =>
      t ← metric_at ms i;
      if m_hash t <? hash then
        if m_left t =? -1 then
          Some (<[Z.to_nat i := mk_metric (m_hash t) new_metric_index (m_right t) (m_flags t)
                                  (m_name_index t) (m_data t)]> ms)
        else nrm_create_loop fuel ms hash new_metric_index (m_left t)
      else
        if m_right t =? -1 then
          Some (<[Z.to_nat i := mk_metric (m_hash t) (m_left t) new_metric_index (m_flags t)
                                  (m_name_index t) (m_data t)]> ms)
        else nrm_create_loop fuel ms hash new_metric_index (m_right t)
  end.

(** Growing the array: what the new elements hold is immaterial, a new metric being cleared
    before it is used. *)
(* @map util_metrics.c:144-148 nrm_create *)
Definition nrm_grow (t : table_t) : option table_t :=
  if allocated t <=? number t then
    a ← int_ok (allocated t + NRM_DEFAULT_MAX_SIZE);
    ms ← metrics t;
    Some (mk_table (number t) a (max_size t)
            (Some (ms ++ replicate (Z.to_nat (a - allocated t)) zero_metric)) (strpool t))
  else Some t.

(* @map util_metrics.c:135-185 nrm_create *)
Definition nrm_create (table : option table_t) (name : option cstr) (hash : Z)
  : option (option nat * option table_t) :=
  match table, name with
  | Some t, Some _ =>
      t ← nrm_grow t;
      let new_metric_index := number t in
      n ← int_ok (number t + 1);
      ms ← metrics t;
      _ ← metric_at ms new_metric_index;
      '(name_index, pool) ← pool_add (strpool t) name;
      let new_metric :=
        mk_metric hash (-1) (-1) 0 name_index
          (<[NRM_MIN := NR_TIME_MAX]> (replicate NRM_MUST_BE_GREATEST 0)) in
      let ms := <[Z.to_nat new_metric_index := new_metric]> ms in
      ms ← (if 0 =? new_metric_index then Some ms
            else nrm_create_loop (Z.to_nat n) ms hash new_metric_index 0);
      Some (Some (Z.to_nat new_metric_index), Some (mk_table n (allocated t) (max_size t) (Some ms) pool))
  | _, _ => Some (None, table)
  end.

(* @map util_metrics.c:187-192 nrm_get_metric *)
Definition nrm_get_metric (table : option table_t) (i : Z) : option nat :=
  match table with
  | Some t => if (0 <=? i) && (i <? number t) then Some (Z.to_nat i) else None
  | None => None
  end.

(* @map util_metrics.c:194-199 nrm_is_full *)
Definition nrm_is_full (table : option table_t) : Z :=
  match table with
  | Some t => if max_size t <=? number t then 1 else 0
  | None => 0
  end.

(** ** Adding *)

(** The body of [nrm_add_internal], over the function that finds or creates the metric. *)
(* @map util_metrics.c:226-254 nrm_add_internal *)
Definition nrm_add_with
  (find_or_create : Z -> option table_t -> option cstr -> option (option nat * option table_t))
  (force : Z) (table : option table_t) (name : option cstr)
  (count total exclusive min max sum_of_squares : Z) : option (option table_t) :=
  '(metric, table) ← find_or_create force table name;
  match metric, table with
  | Some i, Some t =>
      t ← update_metric t i
            (fun m => set_data m (add_data (m_data m) count total exclusive min max sum_of_squares));
      Some (Some t)
  | _, _ => Some table
  end.

(** A metric that does not fit is dropped, and the drop is counted in a forced metric.  A
    forced addition drops nothing, so two levels of the recursion suffice. *)
(* @map util_metrics.c:201-224 nrm_find_or_create *)
Fixpoint nrm_find_or_create_rec (fuel : nat) (force : Z) (table : option table_t)
  (name : option cstr) : option (option nat * option table_t) :=
  match fuel with
  | O => None
  | S fuel =>
      let hash := nrm_hash name in
      match table, name with
      | Some _, Some _ =>
          metric ← nrm_find_internal table name hash;
          '(metric, table) ←
            match metric with
            | Some i => Some (Some i, table)
            | None =>
                if (1 =? nrm_is_full table) && (0 =? force) then
                  table ← nrm_add_with (nrm_find_or_create_rec fuel) 1 table
                            (Some (str "Supportability/MetricsDropped")) 1 0 0 0 0 (u64 (0 * 0));
                  Some (None, table)
                else nrm_create table name hash
            end;
          match metric, table with
          | Some i, Some t =>
              if negb (force =? 0) then
                t ← update_metric t i (fun m => set_flags m (Z.lor (m_flags m) MET_FORCED));
                Some (Some i, Some t)
              else Some (Some i, Some t)
          | _, _ => Some (None, table)
          end
      | _, _ => Some (None, table)
      end
  end.

(* @map util_metrics.c:201-224 nrm_find_or_create *)
Definition nrm_find_or_create := nrm_find_or_create_rec 2.

(* @map util_metrics.c:226-254 nrm_add_internal *)
Definition nrm_add_internal := nrm_add_with nrm_find_or_create.

(* @map util_metrics.c:256-262 nrm_add_ex *)
Definition nrm_add_ex (table : option table_t) (name : option cstr) (duration exclusive : Z)
  : option (option table_t) :=
  nrm_add_internal 0 table name 1 duration exclusive duration duration (u64 (duration * duration)).

(* @map util_metrics.c:264-270 nrm_force_add_ex *)
Definition nrm_force_add_ex (table : option table_t) (name : option cstr) (duration exclusive : Z)
  : option (option table_t) :=
  nrm_add_internal 1 table name 1 duration exclusive duration duration (u64 (duration * duration)).

(* @map util_metrics.c:272-275 nrm_add *)
Definition nrm_add (table : option table_t) (name : option cstr) (duration : Z)
  : option (option table_t) :=
  nrm_add_internal 0 table name 1 duration duration duration duration (u64 (duration * duration)).

(* @map util_metrics.c:277-280 nrm_force_add *)
Definition nrm_force_add (table : option table_t) (name : option cstr) (duration : Z)
  : option (option table_t) :=
  nrm_add_internal 1 table name 1 duration duration duration duration (u64 (duration * duration)).

(* @map util_metrics.c:282-309 nrm_add_apdex_internal *)
Definition nrm_add_apdex_internal (force : Z) (table : option table_t) (name : option cstr)
  (satisfying tolerating failing min_apdex max_apdex : Z) : option (option table_t) :=
  '(metric, table) ← nrm_find_or_create force table name;
  match metric, table with
  | Some i, Some t =>
      t ← update_metric t i
            (fun m => set_data (set_flags m (Z.lor (m_flags m) MET_IS_APDEX))
                        (add_apdex_data (m_data m) satisfying tolerating failing min_apdex max_apdex));
      Some (Some t)
  | _, _ => Some table
  end.

(* @map util_metrics.c:311-319 nrm_add_apdex *)
Definition nrm_add_apdex (table : option table_t) (name : option cstr)
  (satisfying tolerating failing apdex : Z) : option (option table_t) :=
  nrm_add_apdex_internal 0 table name satisfying tolerating failing apdex apdex.

(* @map util_metrics.c:321-329 nrm_force_add_apdex *)
Definition nrm_force_add_apdex (table : option table_t) (name : option cstr)
  (satisfying tolerating failing apdex : Z) : option (option table_t) :=
  nrm_add_apdex_internal 1 table name satisfying tolerating failing apdex apdex.

(* @map util_metrics.c:331-337 nrm_table_size *)
Definition nrm_table_size (tp : option table_t) : Z :=
  match tp with None => 0 | Some t => number t end.

(* @map util_metrics.c:339-345 nrm_get_name *)
Definition nrm_get_name (table : option table_t) (met : option nat) : option (option cstr) :=
  match table, met with
  | Some t, Some _ => m ← read_metric t met;
                      match m with Some m => pool_get (strpool t) (m_name_index m) | None => Some None end
  | _, _ => Some None
  end.

(** One metric of the check. *)
(* @map util_metrics.c:441-465 nrm_table_validate *)
Definition metric_valid (t : table_t) (used i : Z) (m : nrmetric_t) : option bool :=
  name_string ← pool_get (strpool t) (m_name_index m);
  Some (negb ((m_left m <? -1) || (m_right m <? -1) || (used <=? m_left m) || (used <=? m_right m)
              || (negb (m_left m =? -1) && (m_left m <=? i))
              || (negb (m_right m =? -1) && (m_right m <=? i))
              || match name_string with None => true | Some _ => false end)).

(* @map util_metrics.c:440-466 nrm_table_validate *)
Fixpoint validate_loop (n : nat) (t : table_t) (ms : list nrmetric_t) (used i : Z)
  : option nr_status_t :=
  match n with
  | O => Some NR_SUCCESS
  | S n =>
      m ← metric_at ms i;
      v ← metric_valid t used i m;
      if (v : bool) then validate_loop n t ms used (i + 1) else Some NR_FAILURE
  end.

(* @map util_metrics.c:410-470 nrm_table_validate *)
Definition nrm_table_validate (table : option table_t) : option nr_status_t :=
  match table with
  | None => Some NR_FAILURE
  | Some t =>
      if (number t <? 0) || (allocated t <? 0) || (max_size t <? 0) || (allocated t <? number t)
      then Some NR_FAILURE
      else if number t =? 0 then Some NR_SUCCESS
      else match metrics t, strpool t with
           | Some ms, Some _ => validate_loop (Z.to_nat (number t)) t ms (number t) 0
           | _, _ => Some NR_FAILURE
           end
  end.

(* @map util_metrics.c:472-498 nrm_duplicate_metric *)
Definition nrm_duplicate_metric (table : option table_t) (current_name new_name : option cstr)
  : option (option table_t) :=
  match table, current_name, new_name with
  | Some t, Some _, Some _ =>
      metric ← nrm_find table current_name;
      match metric with
      | None => Some table
      | Some _ =>
          m ← read_metric t metric;
          nrm_add_internal (nrm_is_forced m) table new_name (nrm_count m) (nrm_total m)
            (nrm_exclusive m) (nrm_min m) (nrm_max m) (nrm_sumsquares m)
      end
  | _, _, _ => Some table
  end.

End Table.
Arguments nrmtable_t : clear implicits.

(** ** The table as an ordered map

    The abstract table: the metrics in order of creation, each with its name, flags and data. *)

Abbreviation metric_view := (cstr * (Z * list Z))%type.

Definition names (es : list metric_view) : list cstr := map fst es.

Definition fresh_data : list Z := <[NRM_MIN := NR_TIME_MAX]> (replicate NRM_MUST_BE_GREATEST 0).

Definition MetricsDropped : cstr := str "Supportability/MetricsDropped".

(** Changing the metric of a name. *)
Definition change (es : list metric_view) (name : cstr) (f : Z * list Z -> Z * list Z)
  : list metric_view := map (fun e => if decide (e.1 = name) then (e.1, f e.2) else e) es.

Definition force_flag (force : Z) (v : Z * list Z) : Z * list Z :=
  if force =? 0 then v else (Z.lor v.1 MET_FORCED, v.2).

(** A change to a metric, made if need be. *)
Definition spec_force (es : list metric_view) (name : cstr) (f : Z * list Z -> Z * list Z)
  : list metric_view :=
  let es := if decide (name ∈ names es) then es else es ++ [(name, (0, fresh_data))] in
  change es name (fun v => f (force_flag 1 v)).

Definition spec_change (limit force : Z) (es : list metric_view) (name : cstr)
  (f : Z * list Z -> Z * list Z) : list metric_view :=
  if negb (force =? 0) then spec_force es name f
  else if decide (name ∈ names es) then change es name f
  else if limit <=? Z.of_nat (length es) then
    spec_force es MetricsDropped (fun v => (v.1, add_data v.2 1 0 0 0 0 0))
  else change (es ++ [(name, (0, fresh_data))]) name f.

Definition mnode (m : nrmetric_t) : tnode := (m_hash m, m_left m, m_right m).

Definition mtree (ms : list nrmetric_t) (n : nat) : list tnode := map mnode (take n ms).

Section Proofs.
Context {P : Type} `{NamePool P}.
Implicit Types (t : nrmtable_t P) (es : list metric_view).

(** What a metric of the array says about the metric of the abstract table. *)
Definition represents (ss : list cstr) (m : nrmetric_t) (e : metric_view) : Prop :=
  m_hash m = hash_of_string e.1 /\ (m_flags m, m_data m) = e.2
  /\ 0 < m_name_index m /\ ss !! Z.to_nat (m_name_index m - 1) = Some e.1.

Record arrays_rep t (ms : list nrmetric_t) (p : P) (ss : list cstr) es : Prop := {
  r_metrics : metrics t = Some ms;
  r_pool : strpool t = Some p;
  r_number : number t = Z.of_nat (length es);
  r_allocated : allocated t = Z.of_nat (length ms) /\ number t <= allocated t < 2 ^ 31;
  r_limit : 0 < max_size t;
  r_holds : pool_holds p ss /\ (length ss <= length es)%nat;
  r_names : NoDup (names es);
  r_chars : forall n, n ∈ names es -> c_str n = n /\ strlen n < 2 ^ 31 - 1;
  r_each : forall i e, es !! i = Some e -> exists m, ms !! i = Some m /\ represents ss m e;
  r_data : forall i e, es !! i = Some e -> length e.2.2 = NRM_MUST_BE_GREATEST;
  r_tree : tree_ok (mtree ms (length es));
}.

Definition table_rep t es : Prop := exists ms p ss, arrays_rep t ms p ss es.

Lemma hash_name (name : cstr) : nrm_hash (Some name) = hash_of_string name.
Proof. done. Qed.

Lemma mtree_lookup ms n (i : nat) m : (i < n)%nat -> ms !! i = Some m -> mtree ms n !! i = Some (mnode m).
Proof. intros Hi Hm. unfold mtree. by rewrite list_lookup_fmap, lookup_take_lt, Hm by lia. Qed.

Lemma mtree_length t ms p ss es : arrays_rep t ms p ss es -> length (mtree ms (length es)) = length es.
Proof.
  intros Hr. pose proof (r_number _ _ _ _ _ Hr). pose proof (r_allocated _ _ _ _ _ Hr).
  unfold mtree. rewrite length_map, length_take. lia.
Qed.

Lemma child_mnode m h : child (mnode m) h = if m_hash m <? h then m_left m else m_right m.
Proof. done. Qed.

Definition named (es : list metric_view) (name : cstr) (i : nat) : bool :=
  bool_decide (names es !! i = Some (c_str name)).

(** The test of the search at one metric. *)
Lemma metric_test t ms p ss es (name : cstr) (i : nat) m e :
  arrays_rep t ms p ss es -> es !! i = Some e -> represents ss m e -> strlen name < 2 ^ 31 ->
  (if hash_of_string name =? m_hash m then
     metric_name ← pool_get (strpool t) (m_name_index m);
     Some (0 =? nr_strcmp (Some name) metric_name)
   else Some false) = Some (named es name i).
Proof.
  intros Hr He (Hh & _ & Hpos & Hss) Hlen. rewrite Hh, (r_pool _ _ _ _ _ Hr).
  assert (Hnm : names es !! i = Some e.1) by (unfold names; by rewrite list_lookup_fmap, He).
  destruct (r_chars _ _ _ _ _ Hr e.1) as [Hc _]; [by eapply list_elem_of_lookup_2|].
  unfold named. rewrite Hnm.
  destruct (Z.eqb_spec (hash_of_string name) (hash_of_string e.1)) as [E|E].
  - destruct (r_holds _ _ _ _ _ Hr) as [Hp _].
    destruct (pool_get_law p ss _ _ Hp Hpos Hss) as (s' & -> & Hs'). cbn [mbind option_bind].
    f_equal. pose proof (nr_streq_spec name s') as Hq. unfold nr_streq in Hq. rewrite Hs' in Hq.
    apply Bool.eq_iff_eq_true. rewrite Hq, bool_decide_eq_true. split; congruence.
  - f_equal. symmetry. apply bool_decide_eq_false. intros [= E']. apply E. rewrite E'.
    apply hash_of_string_content; [done|by rewrite c_str_idemp].
Qed.

Lemma look_at_metric t ms p ss es (name : cstr) (i : nat) :
  arrays_rep t ms p ss es -> (i < length es)%nat ->
  exists m e, metric_at ms (Z.of_nat i) = Some m /\ es !! i = Some e /\ represents ss m e
    /\ step (mtree ms (length es)) (hash_of_string name) i
       = (if m_hash m <? hash_of_string name then m_left m else m_right m)
    /\ (step (mtree ms (length es)) (hash_of_string name) i = -1
        \/ Z.of_nat i < step (mtree ms (length es)) (hash_of_string name) i < Z.of_nat (length es)).
Proof.
  intros Hr Hi. destruct (lookup_lt_is_Some_2 es i Hi) as [e He].
  destruct (r_each _ _ _ _ _ Hr i e He) as (m & Hm & Hrep). exists m, e.
  unfold metric_at. destruct (Z.ltb_spec (Z.of_nat i) 0); [lia|]. rewrite Nat2Z.id.
  split_and!; [done|done|done| |].
  - unfold step. by rewrite (mtree_lookup ms _ i m) by done.
  - pose proof (children_later _ (r_tree _ _ _ _ _ Hr) i (hash_of_string name)) as Hc.
    rewrite (mtree_length t ms p ss es Hr) in Hc. by apply Hc.
Qed.

Lemma nrm_find_loop_search (fuel : nat) t ms p ss es (name : cstr) (i : nat) r :
  arrays_rep t ms p ss es -> strlen name < 2 ^ 31 -> (i < length es)%nat ->
  tree_search fuel (mtree ms (length es)) (named es name) (hash_of_string name) i = Some r ->
  nrm_find_loop (S fuel) t ms (Some name) (hash_of_string name) (Z.of_nat i)
  = Some (match r with inl j => Some j | inr _ => None end).
Proof.
  intros Hr Hlen. revert i. induction fuel as [|fuel IH]; intros i Hi Hs; [done|]. cbn [tree_search] in Hs.
  destruct (look_at_metric t ms p ss es name i Hr Hi) as (m & e & Hm & He & Hrep & Hst & Hc).
  remember (S fuel) as f eqn:Ef. cbn [nrm_find_loop]. subst f.
  destruct (Z.eqb_spec (Z.of_nat i) (-1)); [lia|]. rewrite Hm. cbn [mbind option_bind].
  rewrite (metric_test t ms p ss es name i m e Hr He Hrep Hlen). cbn [mbind option_bind].
  destruct (named es name i); [injection Hs as <-; by rewrite Nat2Z.id|].
  rewrite <- Hst. destruct (Z.eqb_spec (step (mtree ms (length es)) (hash_of_string name) i) (-1)) as [E|E].
  - injection Hs as <-. by rewrite E.
  - replace (step _ _ _) with (Z.of_nat (Z.to_nat (step (mtree ms (length es)) (hash_of_string name) i))) by lia.
    apply IH; [lia|done].
Qed.

Lemma metric_search t ms p ss es (name : cstr) :
  arrays_rep t ms p ss es -> strlen name < 2 ^ 31 -> es <> [] ->
  exists r, tree_search (length es) (mtree ms (length es)) (named es name) (hash_of_string name) 0 = Some r
    /\ match r with
       | inl j => names es !! j = Some (c_str name)
       | inr q => (c_str name ∉ names es) /\ (q < length es)%nat
           /\ walk (mtree ms (length es)) (hash_of_string name) 0 q
           /\ step (mtree ms (length es)) (hash_of_string name) q = -1
       end.
Proof.
  intros Hr Hlen Hne. pose proof (mtree_length t ms p ss es Hr) as Hl.
  destruct (tree_search_total (mtree ms (length es)) (named es name) (hash_of_string name)) as (r & Hs & Hspec).
  - apply (r_tree _ _ _ _ _ Hr).
  - intros E. rewrite E in Hl. by destruct es.
  - rewrite Hl in *. exists r. split; [done|]. destruct r as [j|q].
    + by destruct Hspec as [_ Hm%bool_decide_eq_true].
    + destruct Hspec as (Hw & Hq & Hst & Hno). split_and!; [|done|done|done].
      intros [j Hj]%list_elem_of_lookup. pose proof Hj as Hj'.
      unfold names in Hj'. rewrite list_lookup_fmap in Hj'.
      destruct (es !! j) as [e|] eqn:He; [|done]. injection Hj' as Hj'.
      destruct (r_each _ _ _ _ _ Hr j e He) as (m & Hm & Hh & _).
      pose proof (Hno j (mnode m)) as Hf. rewrite (mtree_lookup ms _ j m) in Hf;
        [|by apply lookup_lt_Some in He|done].
      specialize (Hf eq_refl). unfold t_hash, mnode in Hf. simpl in Hf. rewrite Hh, Hj' in Hf.
      rewrite <- (hash_of_string_content name (c_str name)) in Hf by (rewrite ?c_str_idemp; done).
      specialize (Hf eq_refl). unfold named in Hf. by rewrite bool_decide_eq_false in Hf.
Qed.

(** [nrm_find] *)
Lemma nrm_find_spec t es (name : cstr) :
  table_rep t es -> strlen name < 2 ^ 31 ->
  exists r, nrm_find (Some t) (Some name) = Some r
    /\ match r with
       | Some i => names es !! i = Some (c_str name)
       | None => c_str name ∉ names es
       end.
Proof.
  intros (ms & p & ss & Hr) Hlen. unfold nrm_find, nrm_find_internal. rewrite hash_name.
  rewrite (r_metrics _ _ _ _ _ Hr), (r_number _ _ _ _ _ Hr), Nat2Z.id.
  destruct (Z.eqb_spec 0 (Z.of_nat (length es))) as [E|E].
  - exists None. split; [done|]. destruct es; [apply not_elem_of_nil|simpl in E; lia].
  - assert (Hne : es <> []) by (intros ->; simpl in E; lia).
    destruct (metric_search t ms p ss es name Hr Hlen Hne) as (r & Hs & Hspec).
    eexists. split.
    + change 0 with (Z.of_nat 0). eapply nrm_find_loop_search; [done|done| |done].
      destruct es; [done|simpl; lia].
    + destruct r as [j|q]; [done|apply Hspec].
Qed.

(** *** Creating *)

Definition hung (m : nrmetric_t) (h k : Z) : nrmetric_t :=
  if m_hash m <? h then mk_metric (m_hash m) k (m_right m) (m_flags m) (m_name_index m) (m_data m)
  else mk_metric (m_hash m) (m_left m) k (m_flags m) (m_name_index m) (m_data m).

Lemma mnode_hung m h k : mnode (hung m h k) = hang (mnode m) h k.
Proof. unfold hung, mnode, hang. by destruct (m_hash m <? h). Qed.

Lemma represents_hung ss m e h k : represents ss m e -> represents ss (hung m h k) e.
Proof. unfold hung, represents. by destruct (m_hash m <? h). Qed.

Lemma nrm_create_loop_search (fuel fuel' : nat) t ms ms' p ss es (name : cstr) (i q : nat) mq k :
  arrays_rep t ms p ss es -> (forall j, (j < length es)%nat -> ms' !! j = ms !! j) ->
  (i < length es)%nat -> (fuel <= fuel')%nat ->
  tree_search fuel (mtree ms (length es)) (named es name) (hash_of_string name) i = Some (inr q) ->
  ms !! q = Some mq ->
  nrm_create_loop fuel' ms' (hash_of_string name) k (Z.of_nat i)
  = Some (<[q := hung mq (hash_of_string name) k]> ms').
Proof.
  intros Hr Hsame. revert fuel' i. induction fuel as [|fuel IH]; intros fuel' i Hi Hf Hs Hq; [done|].
  cbn [tree_search] in Hs. destruct fuel' as [|fuel']; [lia|].
  destruct (look_at_metric t ms p ss es name i Hr Hi) as (m & e & Hm & He & Hrep & Hst & Hc).
  assert (Hm' : metric_at ms' (Z.of_nat i) = Some m).
  { unfold metric_at in *. destruct (Z.ltb_spec (Z.of_nat i) 0); [done|].
    rewrite Nat2Z.id in *. by rewrite Hsame. }
  cbn [nrm_create_loop]. rewrite Hm'. cbn [mbind option_bind].
  destruct (named es name i); [done|].
  assert (Hgo : step (mtree ms (length es)) (hash_of_string name) i <> -1 ->
    nrm_create_loop fuel' ms' (hash_of_string name) k (step (mtree ms (length es)) (hash_of_string name) i)
    = Some (<[q := hung mq (hash_of_string name) k]> ms')).
  { intros Hne. destruct (Z.eqb_spec (step (mtree ms (length es)) (hash_of_string name) i) (-1)); [done|].
    replace (step (mtree ms (length es)) (hash_of_string name) i)
      with (Z.of_nat (Z.to_nat (step (mtree ms (length es)) (hash_of_string name) i))) by lia.
    apply IH; [lia|lia|done|done]. }
  assert (Hstop : step (mtree ms (length es)) (hash_of_string name) i = -1 -> i = q /\ m = mq).
  { intros E. rewrite E in Hs. simpl in Hs. injection Hs as <-. split; [done|].
    unfold metric_at in Hm. destruct (Z.ltb_spec (Z.of_nat i) 0); [done|]. rewrite Nat2Z.id in Hm. congruence. }
  rewrite Hst in *. unfold hung. rewrite ?Nat2Z.id.
  destruct (m_hash m <? hash_of_string name) eqn:Eh.
  - destruct (Z.eqb_spec (m_left m) (-1)); [destruct Hstop as [-> ->]; [done|by rewrite Eh]|by apply Hgo].
  - destruct (Z.eqb_spec (m_right m) (-1)); [destruct Hstop as [-> ->]; [done|by rewrite Eh]|by apply Hgo].
Qed.

Lemma nrm_grow_spec t ms p ss es :
  arrays_rep t ms p ss es -> number t + NRM_DEFAULT_MAX_SIZE < 2 ^ 31 ->
  exists t' ms', nrm_grow t = Some t' /\ arrays_rep t' ms' p ss es /\ number t' < allocated t'
    /\ max_size t' = max_size t.
Proof.
  intros Hr Hb. pose proof (r_allocated _ _ _ _ _ Hr) as [Ha Ha']. pose proof (r_number _ _ _ _ _ Hr) as Hn.
  unfold nrm_grow, NRM_DEFAULT_MAX_SIZE in *.
  destruct (Z.leb_spec (allocated t) (number t)) as [Hf|Hf]; [|exists t, ms; by split_and!].
  rewrite int_ok_id by lia. rewrite (r_metrics _ _ _ _ _ Hr). cbn [mbind option_bind].
  replace (Z.to_nat _) with (Z.to_nat 2048) by lia. set (k := Z.to_nat 2048).
  assert (Hk : Z.of_nat k = 2048) by (unfold k; lia).
  eexists _, (ms ++ replicate k zero_metric). split; [reflexivity|]. split_and!; [|simpl; lia|done].
  split; cbn [number allocated max_size metrics strpool]; first [done|by apply Hr|idtac].
  - rewrite length_app, length_replicate. lia.
  - intros i e He. destruct (r_each _ _ _ _ _ Hr i e He) as (m & Hm & Hrep). exists m.
    split; [by apply lookup_app_l_Some|done].
  - unfold mtree. rewrite take_app_le by lia. apply Hr.
Qed.

Lemma names_app es e : names (es ++ [e]) = names es ++ [e.1].
Proof. unfold names. by rewrite map_app. Qed.

Lemma prefix_lookup_Some' (ss ss' : list cstr) (i : nat) s :
  ss `prefix_of` ss' -> ss !! i = Some s -> ss' !! i = Some s.
Proof. intros Hp Hi. by eapply prefix_lookup_Some. Qed.

(** The array once the new metric is written and linked. *)
Lemma arrays_rep_add t ms ms' p p' ss ss' es (name : cstr) new :
  arrays_rep t ms p ss es -> number t < allocated t -> c_str name ∉ names es -> strlen name < 2 ^ 31 - 1 ->
  pool_holds p' ss' -> ss `prefix_of` ss' -> (length ss' <= S (length ss))%nat ->
  length ms' = length ms -> ms' !! length es = Some new ->
  represents ss' new (c_str name, (0, fresh_data)) ->
  (forall i m, (i < length es)%nat -> ms !! i = Some m ->
     exists m', ms' !! i = Some m' /\ forall e, represents ss' m e -> represents ss' m' e) ->
  tree_ok (mtree ms' (S (length es))) ->
  arrays_rep (mk_table (number t + 1) (allocated t) (max_size t) (Some ms') (Some p')) ms' p' ss'
    (es ++ [(c_str name, (0, fresh_data))]).
Proof.
  intros Hr Hroom Hnew Hlen Hp' Hpre Hss Hms Hlast Hrep Hold Htree.
  pose proof (r_number _ _ _ _ _ Hr). pose proof (r_allocated _ _ _ _ _ Hr).
  destruct (r_holds _ _ _ _ _ Hr) as [_ Hl].
  split; cbn [number allocated max_size metrics strpool].
  - done.
  - done.
  - rewrite length_app. simpl. lia.
  - lia.
  - apply Hr.
  - rewrite length_app. simpl. split; [done|lia].
  - rewrite names_app. apply NoDup_app. split_and!; [apply Hr| |apply NoDup_singleton].
    intros x Hx Hx'. by apply list_elem_of_singleton in Hx' as ->.
  - rewrite names_app. intros n [Hn|Hn]%elem_of_app; [by apply (r_chars _ _ _ _ _ Hr)|].
    apply list_elem_of_singleton in Hn as ->. simpl. by rewrite c_str_idemp, strlen_c_str.
  - intros i e [He|[Hge He]]%lookup_app_Some.
    + destruct (r_each _ _ _ _ _ Hr i e He) as (m & Hm & Hh & Hv & Hpos & Hidx).
      destruct (Hold i m) as (m' & Hm' & Hrep'); [by apply lookup_lt_Some in He|done|].
      exists m'. split; [done|]. apply Hrep'. split_and!; [done|done|done|]. by eapply prefix_lookup_Some'.
    + apply list_lookup_singleton_Some in He as [Hi <-]. assert (i = length es) as -> by lia. by exists new.
  - intros i e [He|[Hge He]]%lookup_app_Some; [by eapply r_data|].
    by apply list_lookup_singleton_Some in He as [_ <-].
  - rewrite length_app. cbn [length]. by rewrite Nat.add_1_r.
Qed.

Lemma mtree_snoc ms n new :
  (n < length ms)%nat -> m_left new = -1 -> m_right new = -1 ->
  mtree (<[n := new]> ms) (S n) = mtree ms n ++ [(m_hash new, -1, -1)].
Proof.
  intros Hn Hl Hr. unfold mtree. rewrite (take_S_r _ _ new) by (by rewrite list_lookup_insert_eq).
  rewrite map_app, take_insert_ge by lia. simpl. unfold mnode. by rewrite Hl, Hr.
Qed.

Lemma mtree_link ms n (q : nat) mq h k :
  (q < n)%nat -> mtree (<[q := hung mq h k]> ms) n = <[q := hang (mnode mq) h k]> (mtree ms n).
Proof.
  intros Hq. unfold mtree. rewrite take_insert_lt by lia. rewrite <- mnode_hung. apply list_fmap_insert.
Qed.

(** [nrm_create], for a name the table does not have. *)
Lemma nrm_create_spec t es (name : cstr) :
  table_rep t es -> c_str name ∉ names es -> strlen name < 2 ^ 31 - 1 ->
  Z.of_nat (length es) + NR_STRPOOL_INCREASE_SIZE < 2 ^ 31 ->
  exists t', nrm_create (Some t) (Some name) (hash_of_string name) = Some (Some (length es), Some t')
    /\ table_rep t' (es ++ [(c_str name, (0, fresh_data))]) /\ max_size t' = max_size t.
Proof.
  intros (ms0 & p & ss & Hr0) Hnew Hlen Hb. unfold NR_STRPOOL_INCREASE_SIZE in Hb.
  destruct (nrm_grow_spec t ms0 p ss es Hr0) as (t1 & ms & Hg & Hr & Hroom & Hmax);
    [rewrite (r_number _ _ _ _ _ Hr0); unfold NRM_DEFAULT_MAX_SIZE; lia|].
  unfold nrm_create. rewrite Hg. cbn [mbind option_bind]. clear Hg ms0 Hr0.
  pose proof (r_number _ _ _ _ _ Hr) as Hn. pose proof (r_allocated _ _ _ _ _ Hr) as [Ha Ha'].
  destruct (r_holds _ _ _ _ _ Hr) as [Hp Hss]. rewrite int_ok_id by lia.
  rewrite (r_metrics _ _ _ _ _ Hr). cbn [mbind option_bind].
  assert (exists m0, metric_at ms (number t1) = Some m0) as [m0 ->].
  { unfold metric_at. destruct (Z.ltb_spec (number t1) 0); [lia|]. apply lookup_lt_is_Some_2. lia. }
  cbn [mbind option_bind]. rewrite (r_pool _ _ _ _ _ Hr).
  destruct (pool_add_law p ss name Hp) as (idx & p' & ss' & -> & Hp' & Hpre & Hss' & Hpos & Hidx);
    [unfold NR_STRPOOL_INCREASE_SIZE; lia|done|]. cbn [mbind option_bind].
  rewrite Hn, Nat2Z.id. set (new := mk_metric _ _ _ _ _ _).
  assert (Hrep : represents ss' new (c_str name, (0, fresh_data))).
  { split_and!; [|done|done|done]. simpl. apply hash_of_string_content; [lia|by rewrite c_str_idemp]. }
  assert (Hkeep : forall (ms' : list nrmetric_t) i m, ms' !! i = Some m -> exists m',
     ms' !! i = Some m' /\ forall e, represents ss' m e -> represents ss' m' e) by eauto.
  destruct (Z.eqb_spec 0 (Z.of_nat (length es))) as [E|E].
  - cbn [mbind option_bind]. eexists. split; [reflexivity|]. split; [|done].
    exists (<[length es := new]> ms), p', ss'. rewrite <- Hn. destruct es; [|simpl in E; lia].
    eapply (arrays_rep_add _ _ _ _ _ _ _ _ _ new Hr); try done.
    + by rewrite length_insert.
    + rewrite list_lookup_insert_eq; [done|simpl; lia].
    + simpl. lia.
    + rewrite mtree_snoc by (done || simpl; lia). apply tree_ok_singleton.
  - assert (Hne : es <> []) by (intros ->; simpl in E; lia).
    destruct (metric_search t1 ms p ss es name Hr) as (r & Hs & Hspec); [lia|done|].
    destruct r as [j|q]; [by apply list_elem_of_lookup_2 in Hspec|].
    destruct Hspec as (_ & Hq & Hw & Hst). destruct (lookup_lt_is_Some_2 ms q) as [mq Hmq]; [lia|].
    assert (Hloop : nrm_create_loop (Z.to_nat (Z.of_nat (length es) + 1)) (<[length es := new]> ms)
        (hash_of_string name) (Z.of_nat (length es)) 0
      = Some (<[q := hung mq (hash_of_string name) (Z.of_nat (length es))]> (<[length es := new]> ms))).
    { eapply (nrm_create_loop_search (length es) _ _ _ _ _ _ _ _ 0%nat); [exact Hr| |lia|lia|exact Hs|exact Hmq].
      intros j Hj. by rewrite list_lookup_insert_ne by lia. }
    rewrite Hloop. cbn [mbind option_bind]. eexists. split; [reflexivity|]. split; [|done].
    eexists _, p', ss'. rewrite <- Hn.
    eapply (arrays_rep_add _ _ _ _ _ _ _ _ _ new Hr); try done.
    + by rewrite !length_insert.
    + rewrite list_lookup_insert_ne, list_lookup_insert_eq by lia. done.
    + intros i m Hi Hm. destruct (decide (i = q)) as [->|].
      * rewrite list_lookup_insert_eq by (rewrite length_insert; lia). eexists. split; [done|].
        intros e He. apply represents_hung. congruence.
      * rewrite !list_lookup_insert_ne by lia. by exists m.
    + rewrite mtree_link, mtree_snoc by (done || lia). rewrite insert_app_l
        by (rewrite (mtree_length t1 ms p ss es Hr); lia).
      pose proof (tree_ok_insert (mtree ms (length es)) (hash_of_string name) q (mnode mq)) as Ht.
      rewrite (mtree_length t1 ms p ss es Hr) in Ht.
      rewrite Hn. apply Ht; [apply Hr|done|by apply mtree_lookup|done].
Qed.

(** *** Changing a metric *)

Lemma length_change es name f : length (change es name f) = length es.
Proof. apply length_map. Qed.

Lemma names_change es name f : names (change es name f) = names es.
Proof.
  unfold names, change. rewrite map_map. apply map_ext. intros e. by case_decide.
Qed.

Lemma change_lookup es name f (i : nat) e :
  NoDup (names es) -> es !! i = Some e -> e.1 = name -> change es name f = <[i := (e.1, f e.2)]> es.
Proof.
  intros Hnd He Hname. apply list_eq. intros j. unfold change. rewrite list_lookup_fmap.
  destruct (decide (j = i)) as [->|Hne].
  - rewrite He, list_lookup_insert_eq by (by eapply lookup_lt_Some). simpl. by rewrite decide_True.
  - rewrite list_lookup_insert_ne by done. destruct (es !! j) as [e'|] eqn:He'; [|done]. simpl.
    rewrite decide_False; [done|]. intros E. apply Hne. symmetry.
    apply (NoDup_lookup (names es) i j name); [done| |]; unfold names; rewrite list_lookup_fmap.
    + rewrite He. simpl. by rewrite Hname.
    + rewrite He'. simpl. by rewrite E.
Qed.

(** A write to a metric that leaves its place in the tree and its name alone. *)
Definition data_only (g : nrmetric_t -> nrmetric_t) (f : Z * list Z -> Z * list Z) : Prop :=
  (forall m, m_hash (g m) = m_hash m /\ m_left (g m) = m_left m /\ m_right (g m) = m_right m
    /\ m_name_index (g m) = m_name_index m /\ (m_flags (g m), m_data (g m)) = f (m_flags m, m_data m))
  /\ forall v, length v.2 = NRM_MUST_BE_GREATEST -> length (f v).2 = NRM_MUST_BE_GREATEST.

Lemma update_metric_spec t es (name : cstr) (i : nat) g f :
  table_rep t es -> names es !! i = Some name -> data_only g f ->
  exists t', update_metric t i g = Some t' /\ table_rep t' (change es name f) /\ max_size t' = max_size t.
Proof.
  intros (ms & p & ss & Hr) Hi (Hg & Hf). pose proof Hi as Hi'.
  unfold names in Hi'. rewrite list_lookup_fmap in Hi'. destruct (es !! i) as [e|] eqn:He; [|done].
  injection Hi' as <-. destruct (r_each _ _ _ _ _ Hr i e He) as (m & Hm & Hh & Hv & Hpos & Hidx).
  pose proof (lookup_lt_Some _ _ _ Hm) as Hlt. pose proof (lookup_lt_Some _ _ _ He) as Hlt'.
  unfold update_metric. rewrite (r_metrics _ _ _ _ _ Hr). cbn [mbind option_bind]. rewrite Hm.
  cbn [mbind option_bind]. eexists. split; [reflexivity|]. split; [|done].
  exists (<[i := g m]> ms), p, ss. pose proof (Hg m) as (Gh & Gl & Gr & Gn & Gv).
  assert (Hc : change es e.1 f = <[i := (e.1, f e.2)]> es) by (apply change_lookup; [apply Hr|done|done]).
  split; cbn [set_metrics number allocated max_size metrics strpool]; rewrite ?length_change, ?names_change;
    first [done|by apply Hr|idtac].
  - rewrite length_insert. apply Hr.
  - rewrite Hc. intros j e' He'. destruct (decide (j = i)) as [->|].
    + rewrite list_lookup_insert_eq in He' by done. injection He' as <-.
      rewrite list_lookup_insert_eq by done. eexists. split; [done|]. unfold represents. simpl.
      rewrite Gh, Gn, Gv, Hv. done.
    + rewrite list_lookup_insert_ne in He' by done. rewrite list_lookup_insert_ne by done.
      by apply (r_each _ _ _ _ _ Hr).
  - rewrite Hc. intros j e' He'. destruct (decide (j = i)) as [->|].
    + rewrite list_lookup_insert_eq in He' by done. injection He' as <-. simpl. apply Hf.
      by eapply r_data.
    + rewrite list_lookup_insert_ne in He' by done. by eapply r_data.
  - unfold mtree. rewrite take_insert_lt by lia. rewrite list_fmap_insert.
    rewrite list_insert_id; [apply Hr|]. unfold mtree.
    rewrite list_lookup_fmap, lookup_take_lt, Hm by done. simpl. unfold mnode. by rewrite Gh, Gl, Gr.
Qed.

Lemma length_add_data d count total exclusive mn mx sq :
  length (add_data d count total exclusive mn mx sq) = length d.
Proof. unfold add_data. rewrite length_insert. repeat case_if; by rewrite !length_insert. Qed.

Lemma length_add_apdex_data d s tl fl mn mx : length (add_apdex_data d s tl fl mn mx) = length d.
Proof. unfold add_apdex_data. repeat case_if; by rewrite !length_insert. Qed.

(** The writes of the additions. *)
Definition view_add count total exclusive mn mx sq (v : Z * list Z) : Z * list Z :=
  (v.1, add_data v.2 count total exclusive mn mx sq).

Definition view_apdex s tl fl mn mx (v : Z * list Z) : Z * list Z :=
  (Z.lor v.1 MET_IS_APDEX, add_apdex_data v.2 s tl fl mn mx).

Lemma data_only_add count total exclusive mn mx sq :
  data_only (fun m => set_data m (add_data (m_data m) count total exclusive mn mx sq))
    (view_add count total exclusive mn mx sq).
Proof. split; [done|]. intros v Hv. simpl. by rewrite length_add_data. Qed.

Lemma data_only_apdex s tl fl mn mx :
  data_only (fun m => set_data (set_flags m (Z.lor (m_flags m) MET_IS_APDEX))
               (add_apdex_data (m_data m) s tl fl mn mx)) (view_apdex s tl fl mn mx).
Proof. split; [done|]. intros v Hv. simpl. by rewrite length_add_apdex_data. Qed.

Lemma data_only_force :
  data_only (fun m => set_flags m (Z.lor (m_flags m) MET_FORCED)) (force_flag 1).
Proof. by split. Qed.

(** *** Finding or creating *)

Lemma change_change es name f g : change (change es name f) name g = change es name (fun v => g (f v)).
Proof.
  unfold change. rewrite map_map. apply map_ext. intros [n v]. simpl.
  destruct (decide (n = name)) as [->|]; simpl; [by rewrite decide_True|by rewrite decide_False].
Qed.

Lemma change_app es es' name f : change (es ++ es') name f = change es name f ++ change es' name f.
Proof. apply map_app. Qed.

(** With the room for one more metric. *)
Definition room es : Prop := Z.of_nat (length es) + NR_STRPOOL_INCREASE_SIZE < 2 ^ 31.

Lemma names_lookup_snoc es (name : cstr) v : names (es ++ [(name, v)]) !! length es = Some name.
Proof.
  rewrite names_app, lookup_app_r by (unfold names; by rewrite length_map).
  unfold names. by rewrite length_map, Nat.sub_diag.
Qed.

(** A forced addition finds or creates its metric. *)
Lemma find_or_create_forced (fuel : nat) t es (name : cstr) force :
  table_rep t es -> room es -> strlen name < 2 ^ 31 - 1 -> force <> 0 ->
  exists i t' es', nrm_find_or_create_rec (S fuel) force (Some t) (Some name) = Some (Some i, Some t')
    /\ table_rep t' es' /\ names es' !! i = Some (c_str name) /\ max_size t' = max_size t
    /\ forall f, change es' (c_str name) f = spec_force es (c_str name) f.
Proof.
  intros Hr Hroom Hlen Hforce. cbn [nrm_find_or_create_rec].
  assert (Hstep : forall i t1 es1, table_rep t1 es1 -> names es1 !! i = Some (c_str name) ->
    exists t', update_metric t1 i (fun m => set_flags m (Z.lor (m_flags m) MET_FORCED)) = Some t'
      /\ table_rep t' (change es1 (c_str name) (force_flag 1)) /\ max_size t' = max_size t1).
  { intros i t1 es1 Hr1 Hi. by apply (update_metric_spec t1 es1 _ i _ _ Hr1 Hi data_only_force). }
  destruct (nrm_find_spec t es name Hr) as (r & Hfind & Hspec); [lia|].
  unfold nrm_find in Hfind. rewrite Hfind. cbn [mbind option_bind].
  unfold spec_force. destruct r as [i|].
  - cbn [mbind option_bind]. destruct (Z.eqb_spec force 0); [done|]. cbn [negb].
    destruct (Hstep i t es Hr Hspec) as (t' & -> & Hr' & Hmax). cbn [mbind option_bind].
    exists i, t', (change es (c_str name) (force_flag 1)). rewrite names_change. split_and!; try done.
    intros f. rewrite change_change, decide_True; [done|]. by eapply list_elem_of_lookup_2.
  - destruct (Z.eqb_spec 0 force); [done|]. rewrite andb_false_r, hash_name.
    destruct (nrm_create_spec t es name Hr Hspec Hlen Hroom) as (t1 & -> & Hr1 & Hmax1).
    cbn [mbind option_bind]. destruct (Z.eqb_spec force 0); [done|]. cbn [negb].
    destruct (Hstep (length es) t1 _ Hr1) as (t' & -> & Hr' & Hmax); [apply names_lookup_snoc|].
    cbn [mbind option_bind]. eexists (length es), t', _. split; [done|].
    split; [exact Hr'|]. rewrite names_change. split_and!; [apply names_lookup_snoc|congruence|].
    intros f. by rewrite change_change, decide_False.
Qed.

Lemma c_str_dropped : c_str MetricsDropped = MetricsDropped /\ strlen MetricsDropped = 29.
Proof. by vm_compute. Qed.

Lemma nrm_is_full_spec t es :
  table_rep t es -> (1 =? nrm_is_full (Some t)) = (max_size t <=? Z.of_nat (length es)).
Proof. intros (ms & p & ss & Hr). unfold nrm_is_full. rewrite (r_number _ _ _ _ _ Hr). by case_if. Qed.

(** [nrm_find_or_create]: the metric to change, or the drop already counted. *)
Lemma nrm_find_or_create_spec t es (name : cstr) force :
  table_rep t es -> room es -> strlen name < 2 ^ 31 - 1 ->
  exists r t', nrm_find_or_create force (Some t) (Some name) = Some (r, Some t') /\ max_size t' = max_size t
    /\ match r with
       | Some i => exists es', table_rep t' es' /\ names es' !! i = Some (c_str name)
           /\ forall f, change es' (c_str name) f = spec_change (max_size t) force es (c_str name) f
       | None => forall f, table_rep t' (spec_change (max_size t) force es (c_str name) f)
       end.
Proof.
  intros Hr Hroom Hlen. unfold nrm_find_or_create, spec_change.
  destruct (decide (force = 0)) as [->|Hforce].
  2:{ destruct (find_or_create_forced 1 t es name force Hr Hroom Hlen Hforce)
        as (i & t' & es' & -> & Hr' & Hi & Hmax & Hf).
      exists (Some i), t'. split_and!; [done|done|]. exists es'.
      destruct (Z.eqb_spec force 0); [done|]. done. }
  cbn [Z.eqb negb]. remember 1%nat as one eqn:Eone. cbn [nrm_find_or_create_rec].
  destruct (nrm_find_spec t es name Hr) as (r & Hfind & Hspec); [lia|].
  unfold nrm_find in Hfind. rewrite Hfind. cbn [mbind option_bind].
  destruct r as [i|].
  - cbn [mbind option_bind Z.eqb negb]. exists (Some i), t. split_and!; [done|done|]. exists es.
    split_and!; [done|done|]. intros f. rewrite decide_True; [done|]. by eapply list_elem_of_lookup_2.
  - destruct (decide (c_str name ∈ names es)) as [|_]; [done|].
    rewrite (nrm_is_full_spec t es Hr). cbn [Z.eqb]. rewrite andb_true_r.
    destruct (max_size t <=? Z.of_nat (length es)) eqn:Efull.
    + destruct c_str_dropped as [Hd Hdl].
      destruct (find_or_create_forced 0 t es MetricsDropped 1 Hr Hroom ltac:(lia) ltac:(lia))
        as (i & t1 & es1 & Hrun & Hr1 & Hi & Hmax & Hf).
      unfold nrm_add_with. rewrite Eone. fold MetricsDropped. rewrite Hrun. cbn [mbind option_bind].
      rewrite Hd in Hi, Hf.
      destruct (update_metric_spec t1 es1 MetricsDropped i _ _ Hr1 Hi (data_only_add 1 0 0 0 0 (u64 (0 * 0))))
        as (t2 & -> & Hr2 & Hmax2). cbn [mbind option_bind].
      exists None, t2. split_and!; [done|congruence|]. intros _. rewrite Hf in Hr2. exact Hr2.
    + rewrite hash_name.
      destruct (nrm_create_spec t es name Hr Hspec Hlen Hroom) as (t1 & -> & Hr1 & Hmax1).
      cbn [mbind option_bind negb Z.eqb]. exists (Some (length es)), t1. split_and!; [done|done|].
      eexists. split; [exact Hr1|]. split; [apply names_lookup_snoc|done].
Qed.

(** A change of a metric through [nrm_find_or_create]. *)
Lemma nrm_add_internal_spec t es (name : cstr) force count total exclusive mn mx sq :
  table_rep t es -> room es -> strlen name < 2 ^ 31 - 1 ->
  exists t', nrm_add_internal force (Some t) (Some name) count total exclusive mn mx sq = Some (Some t')
    /\ max_size t' = max_size t
    /\ table_rep t' (spec_change (max_size t) force es (c_str name)
                       (view_add count total exclusive mn mx sq)).
Proof.
  intros Hr Hroom Hlen. unfold nrm_add_internal, nrm_add_with.
  destruct (nrm_find_or_create_spec t es name force Hr Hroom Hlen) as (r & t1 & -> & Hmax & Hspec).
  cbn [mbind option_bind]. destruct r as [i|]; [|exists t1; by split_and!].
  destruct Hspec as (es1 & Hr1 & Hi & Hf).
  destruct (update_metric_spec t1 es1 _ i _ _ Hr1 Hi (data_only_add count total exclusive mn mx sq))
    as (t2 & -> & Hr2 & Hmax2). cbn [mbind option_bind].
  exists t2. split_and!; [done|congruence|]. by rewrite <- Hf.
Qed.

Lemma nrm_add_apdex_internal_spec t es (name : cstr) force s tl fl mn mx :
  table_rep t es -> room es -> strlen name < 2 ^ 31 - 1 ->
  exists t', nrm_add_apdex_internal force (Some t) (Some name) s tl fl mn mx = Some (Some t')
    /\ max_size t' = max_size t
    /\ table_rep t' (spec_change (max_size t) force es (c_str name) (view_apdex s tl fl mn mx)).
Proof.
  intros Hr Hroom Hlen. unfold nrm_add_apdex_internal.
  destruct (nrm_find_or_create_spec t es name force Hr Hroom Hlen) as (r & t1 & -> & Hmax & Hspec).
  cbn [mbind option_bind]. destruct r as [i|]; [|exists t1; by split_and!].
  destruct Hspec as (es1 & Hr1 & Hi & Hf).
  destruct (update_metric_spec t1 es1 _ i _ _ Hr1 Hi (data_only_apdex s tl fl mn mx))
    as (t2 & -> & Hr2 & Hmax2). cbn [mbind option_bind].
  exists t2. split_and!; [done|congruence|]. by rewrite <- Hf.
Qed.

(** *** Reading the table *)

(** The flags and data of a name. *)
Definition view_of es (name : cstr) : option (Z * list Z) :=
  '(_, e) ← list_find (fun e => e.1 = name) es; Some e.2.

Lemma view_of_lookup es (i : nat) name v :
  NoDup (names es) -> es !! i = Some (name, v) -> view_of es name = Some v.
Proof.
  intros Hnd Hi. unfold view_of. destruct (list_find _ es) as [[j e]|] eqn:Ef.
  - apply list_find_Some in Ef as (Hj & Hname & _). simpl in *. subst name.
    assert (j = i) as ->.
    { apply (NoDup_lookup (names es) j i e.1); [done| |]; unfold names; rewrite list_lookup_fmap.
      - by rewrite Hj.
      - by rewrite Hi. }
    rewrite Hi in Hj. by injection Hj as <-.
  - apply list_find_None in Ef. rewrite Forall_forall in Ef. exfalso.
    apply (Ef (name, v)); [apply list_elem_of_lookup; by exists i|done].
Qed.

Lemma view_of_none es name : name ∉ names es -> view_of es name = None.
Proof.
  intros Hn. unfold view_of. destruct (list_find _ es) as [[j e]|] eqn:Ef; [|done].
  apply list_find_Some in Ef as (Hj & Hname & _). exfalso. apply Hn. rewrite <- Hname.
  apply list_elem_of_lookup. exists j. unfold names. by rewrite list_lookup_fmap, Hj.
Qed.

(** Looking a name up gives its flags and data. *)
Lemma nrm_find_view t es (name : cstr) :
  table_rep t es -> strlen name < 2 ^ 31 ->
  exists r m, nrm_find (Some t) (Some name) = Some r /\ read_metric t r = Some m
    /\ option_map (fun m => (m_flags m, m_data m)) m = view_of es (c_str name)
    /\ (r = None <-> c_str name ∉ names es)
    /\ (r <> None -> exists s, nrm_get_name (Some t) r = Some (Some s) /\ c_str s = c_str name).
Proof.
  intros Hr Hlen. destruct (nrm_find_spec t es name Hr Hlen) as (r & Hf & Hspec).
  destruct Hr as (ms & p & ss & Hr). exists r. destruct r as [i|].
  - pose proof Hspec as Hi. unfold names in Hi. rewrite list_lookup_fmap in Hi.
    destruct (es !! i) as [[n v]|] eqn:He; [|done]. injection Hi as Hn.
    destruct (r_each _ _ _ _ _ Hr i _ He) as (m & Hm & _ & Hv & Hpos & Hidx).
    exists (Some m). unfold nrm_get_name, read_metric. rewrite (r_metrics _ _ _ _ _ Hr).
    cbn [mbind option_bind]. rewrite Hm. cbn [mbind option_bind].
    split_and!; [done|done| | |].
    + cbn. rewrite <- Hn. symmetry. rewrite Hv. eapply view_of_lookup; [apply Hr|exact He].
    + split; [done|]. intros []. by eapply list_elem_of_lookup_2.
    + intros _. rewrite (r_pool _ _ _ _ _ Hr). rewrite <- Hn.
      destruct (r_holds _ _ _ _ _ Hr) as [Hp _]. exact (pool_get_law p ss _ _ Hp Hpos Hidx).
  - exists None. split_and!; [done|done|by rewrite view_of_none|done|done].
Qed.

(** Every table that represents something passes the consistency check. *)
Lemma nrm_table_validate_spec t es : table_rep t es -> nrm_table_validate (Some t) = Some NR_SUCCESS.
Proof.
  intros (ms & p & ss & Hr). pose proof (r_number _ _ _ _ _ Hr) as Hn.
  pose proof (r_allocated _ _ _ _ _ Hr). pose proof (r_limit _ _ _ _ _ Hr).
  unfold nrm_table_validate. rewrite (r_metrics _ _ _ _ _ Hr), (r_pool _ _ _ _ _ Hr).
  destruct (Z.ltb_spec (number t) 0), (Z.ltb_spec (allocated t) 0), (Z.ltb_spec (max_size t) 0),
    (Z.ltb_spec (allocated t) (number t)); try lia. cbn [orb]. case_if; [done|].
  assert (Hloop : forall n (i : nat), (i + n <= length es)%nat ->
    validate_loop n t ms (number t) (Z.of_nat i) = Some NR_SUCCESS).
  { induction n as [|n IH]; intros i Hi; [done|]. cbn [validate_loop].
    destruct (lookup_lt_is_Some_2 es i) as [e He]; [lia|].
    destruct (r_each _ _ _ _ _ Hr i e He) as (m & Hm & _ & _ & Hpos & Hidx).
    assert (metric_at ms (Z.of_nat i) = Some m) as ->.
    { unfold metric_at. destruct (Z.ltb_spec (Z.of_nat i) 0); [lia|]. by rewrite Nat2Z.id. }
    cbn [mbind option_bind]. unfold metric_valid. rewrite (r_pool _ _ _ _ _ Hr).
    destruct (r_holds _ _ _ _ _ Hr) as [Hp _].
    destruct (pool_get_law p ss _ _ Hp Hpos Hidx) as (s' & -> & _). cbn [mbind option_bind].
    assert (Hlinks : forall h, child (mnode m) h = -1 \/ Z.of_nat i < child (mnode m) h < number t).
    { intros h. pose proof (children_later _ (r_tree _ _ _ _ _ Hr) i h) as Hc.
      rewrite (mtree_length t ms p ss es Hr) in Hc. specialize (Hc ltac:(lia)).
      unfold step in Hc. rewrite (mtree_lookup ms _ i m) in Hc by (done || lia). lia. }
    pose proof (Hlinks (m_hash m + 1)) as Hl. pose proof (Hlinks (m_hash m)) as Hr'.
    unfold child, mnode in Hl, Hr'. destruct (Z.ltb_spec (m_hash m) (m_hash m + 1)); [|lia].
    rewrite Z.ltb_irrefl in Hr'.
    replace (negb _) with true.
    - replace (Z.of_nat i + 1) with (Z.of_nat (S i)) by lia. apply IH. lia.
    - symmetry. rewrite negb_true_iff, orb_false_r.
      destruct (Z.ltb_spec (m_left m) (-1)), (Z.ltb_spec (m_right m) (-1)),
        (Z.leb_spec (number t) (m_left m)), (Z.leb_spec (number t) (m_right m)),
        (Z.eqb_spec (m_left m) (-1)), (Z.eqb_spec (m_right m) (-1)),
        (Z.leb_spec (m_left m) (Z.of_nat i)), (Z.leb_spec (m_right m) (Z.of_nat i)); done || lia. }
  change 0 with (Z.of_nat 0). apply Hloop. lia.
Qed.

Lemma nrm_table_create_rep (limit : Z) :
  limit < 2 ^ 31 ->
  table_rep (nrm_table_create limit) []
  /\ max_size (nrm_table_create limit) = (if limit <=? 0 then NRM_DEFAULT_MAX_SIZE else limit).
Proof.
  intros Hlim. split; [|done]. unfold nrm_table_create.
  set (n := if limit <=? 0 then NRM_DEFAULT_MAX_SIZE else limit).
  assert (Hn : 0 < n < 2 ^ 31) by (unfold n, NRM_DEFAULT_MAX_SIZE; case_if; boolp; lia).
  eexists (replicate (Z.to_nat n) zero_metric), pool_create, [].
  split; cbn [number allocated max_size metrics strpool]; try done.
  - rewrite length_replicate. lia.
  - lia.
  - split; [apply pool_create_holds|done].
  - constructor.
  - intros x Hx. by apply elem_of_nil in Hx.
  - split; [simpl; lia|done].
Qed.

End Proofs.


(** ** Operations in sequence *)

Inductive metric_op : Type :=
  | OpAdd (force : Z) (name : cstr) (count total exclusive mn mx sq : Z)
  | OpApdex (force : Z) (name : cstr) (satisfying tolerating failing mn mx : Z)
  | OpDuplicate (current_name new_name : cstr).

Definition run_op {P : Type} `{NamePool P} (table : option (nrmtable_t P)) (op : metric_op)
  : option (option (nrmtable_t P)) :=
  match op with
  | OpAdd force name c t e mn mx sq => nrm_add_internal force table (Some name) c t e mn mx sq
  | OpApdex force name s t f mn mx => nrm_add_apdex_internal force table (Some name) s t f mn mx
  | OpDuplicate cur new => nrm_duplicate_metric table (Some cur) (Some new)
  end.

Fixpoint run_ops {P : Type} `{NamePool P} (table : option (nrmtable_t P)) (ops : list metric_op)
  : option (option (nrmtable_t P)) :=
  match ops with
  | [] => Some table
  | op :: ops => table ← run_op table op; run_ops table ops
  end.

(** The operations on the ordered map. *)
Definition spec_op (limit : Z) (es : list metric_view) (op : metric_op) : list metric_view :=
  match op with
  | OpAdd force name c t e mn mx sq => spec_change limit force es (c_str name) (view_add c t e mn mx sq)
  | OpApdex force name s t f mn mx => spec_change limit force es (c_str name) (view_apdex s t f mn mx)
  | OpDuplicate cur new =>
      match view_of es (c_str cur) with
      | None => es
      | Some (flags, d) =>
          spec_change limit (if Z.land MET_FORCED flags =? 0 then 0 else 1) es (c_str new)
            (view_add (datum d NRM_COUNT) (datum d NRM_TOTAL) (datum d NRM_EXCLUSIVE) (datum d NRM_MIN)
               (datum d NRM_MAX) (datum d NRM_SUMSQUARES))
      end
  end.

Definition op_names_ok (op : metric_op) : Prop :=
  match op with
  | OpAdd _ name _ _ _ _ _ _ | OpApdex _ name _ _ _ _ _ => strlen name < 2 ^ 31 - 1
  | OpDuplicate cur new => strlen cur < 2 ^ 31 - 1 /\ strlen new < 2 ^ 31 - 1
  end.

Lemma length_spec_change limit force es name f :
  (length (spec_change limit force es name f) <= S (length es))%nat.
Proof.
  unfold spec_change, spec_force. repeat (case_if || case_decide);
    rewrite ?length_change, ?length_app; simpl; lia.
Qed.

Lemma length_spec_op limit es op : (length (spec_op limit es op) <= S (length es))%nat.
Proof.
  destruct op; simpl; try apply length_spec_change.
  destruct (view_of es _) as [[fl d]|]; [apply length_spec_change|lia].
Qed.

Section Sequence.
Context {P : Type} `{NamePool P}.

Lemma run_op_spec (t : nrmtable_t P) es op :
  table_rep t es -> room es -> op_names_ok op ->
  exists t', run_op (Some t) op = Some (Some t') /\ max_size t' = max_size t
    /\ table_rep t' (spec_op (max_size t) es op).
Proof.
  intros Hr Hroom Hok. destruct op as [force name c tt e mn mx sq|force name s tl f mn mx|cur new];
    cbn [run_op spec_op].
  - by apply nrm_add_internal_spec.
  - by apply nrm_add_apdex_internal_spec.
  - destruct Hok as [Hcur Hnew]. unfold nrm_duplicate_metric.
    destruct (nrm_find_view t es cur Hr) as (r & m & -> & Hm & Hv & Hnone & _); [lia|].
    cbn [mbind option_bind]. destruct r as [i|].
    + rewrite Hm. cbn [mbind option_bind]. destruct m as [m|].
      * simpl in Hv. rewrite <- Hv.
        destruct (nrm_add_internal_spec t es new (nrm_is_forced (Some m)) (nrm_count (Some m))
          (nrm_total (Some m)) (nrm_exclusive (Some m)) (nrm_min (Some m)) (nrm_max (Some m))
          (nrm_sumsquares (Some m)) Hr Hroom Hnew) as (t' & -> & Hmax & Hr').
        exists t'. split_and!; [done|done|].
        replace (if Z.land MET_FORCED (m_flags m) =? 0 then 0 else 1) with (nrm_is_forced (Some m));
          [exact Hr'|]. simpl. by destruct (Z.land MET_FORCED (m_flags m) =? 0).
      * simpl in Hm. destruct (metrics t); [|done]. simpl in Hm. by destruct (_ !! i).
    + rewrite view_of_none by (by apply Hnone). by exists t.
Qed.

Lemma run_ops_spec (n : nat) (t : nrmtable_t P) es ops :
  table_rep t es -> (length es + length ops <= n)%nat -> Z.of_nat n + NR_STRPOOL_INCREASE_SIZE < 2 ^ 31 ->
  Forall op_names_ok ops ->
  exists t', run_ops (Some t) ops = Some (Some t') /\ max_size t' = max_size t
    /\ table_rep t' (fold_left (spec_op (max_size t)) ops es).
Proof.
  revert t es. induction ops as [|op ops IH]; intros t es Hr Hn Hb Hok; [by exists t|].
  simpl in Hn. inversion Hok as [|? ? Ho Hos]; subst. cbn [run_ops fold_left].
  destruct (run_op_spec t es op Hr) as (t1 & -> & Hmax & Hr1); [unfold room; lia|done|].
  cbn [mbind option_bind]. rewrite <- Hmax in *.
  apply IH; [done| |done|done]. pose proof (length_spec_op (max_size t1) es op). lia.
Qed.

End Sequence.

(** ** Properties *)

(* @about nrm_table_create nrm_add_internal nrm_add_apdex_internal nrm_duplicate_metric nrm_find nrm_find_internal nrm_create nrm_find_or_create nrm_get_name nrm_table_size nrm_table_validate *)
(** C25 (refinement): the metric table implements a map from names to flags and data, kept in
    order of creation.  For any sequence of forced and unforced additions, apdex additions and
    duplications on a new table, every operation terminates without leaving the metric array,
    and afterwards [nrm_find] answers NULL for exactly the names the map lacks and otherwise
    the metric with the map's flags and data, which [nrm_get_name] gives its name; the size is
    that of the map, and [nrm_table_validate] accepts the table (all children later in the
    array, all names in the pool). *)
Theorem nrm_table_refines_map {P : Type} `{NamePool P} (limit : Z) (ops : list metric_op) :
  limit < 2 ^ 31 -> Forall op_names_ok ops -> Z.of_nat (length ops) + NR_STRPOOL_INCREASE_SIZE < 2 ^ 31 ->
  let n := if limit <=? 0 then NRM_DEFAULT_MAX_SIZE else limit in
  let map := fold_left (spec_op n) ops [] in
  exists t : nrmtable_t P, run_ops (Some (nrm_table_create limit)) ops = Some (Some t)
    /\ nrm_table_size (Some t) = Z.of_nat (length map)
    /\ nrm_table_validate (Some t) = Some NR_SUCCESS
    /\ forall name, strlen name < 2 ^ 31 ->
         exists r m, nrm_find (Some t) (Some name) = Some r /\ read_metric t r = Some m
         /\ option_map (fun m => (m_flags m, m_data m)) m = view_of map (c_str name)
         /\ (r = None <-> c_str name ∉ names map)
         /\ (r <> None -> exists s, nrm_get_name (Some t) r = Some (Some s) /\ c_str s = c_str name).
Proof.
  intros Hlim Hok Hb n map. destruct (nrm_table_create_rep (P:=P) limit Hlim) as [Hr0 Hmax0].
  destruct (run_ops_spec (length ops) _ [] ops Hr0) as (t & Hrun & Hmax & Hr); [simpl; lia|done|done|].
  rewrite Hmax0 in Hr. exists t. split_and!; [done| |by eapply nrm_table_validate_spec|].
  - destruct Hr as (ms & p & ss & Hr). simpl. apply (r_number _ _ _ _ _ Hr).
  - intros name Hname. by apply nrm_find_view.
Qed.

Lemma nrm_table_refines_map_witness :
  exists t : nrmtable_t nrstrpool_t,
    run_ops (Some (nrm_table_create 5))
      [OpAdd 0 (str "a") 1 2 2 2 2 4; OpApdex 1 (str "b") 1 0 0 7 7; OpDuplicate (str "a") (str "c")]
    = Some (Some t) /\ nrm_table_size (Some t) = 3.
Proof.
  destruct (nrm_table_refines_map (P:=nrstrpool_t) 5
    [OpAdd 0 (str "a") 1 2 2 2 2 4; OpApdex 1 (str "b") 1 0 0 7 7; OpDuplicate (str "a") (str "c")])
    as (t & Hrun & Hsize & _).
  - lia.
  - repeat constructor.
  - reflexivity.
  - exists t. split; [exact Hrun|]. rewrite Hsize. vm_compute. reflexivity.
Defined.

(** *** What a limited table adds up to *)

Definition total_of (l : list Z) : Z := foldr Z.add 0 l.

(** The data of a metric that was added these durations. *)
Definition aggregate (ds : list Z) : list Z :=
  [u64 (Z.of_nat (length ds)); u64 (total_of ds); u64 (total_of ds);
   foldr Z.min NR_TIME_MAX ds; foldr Z.max 0 ds; u64 (total_of (map (fun d => u64 (d * d)) ds))].

Lemma total_of_snoc l x : total_of (l ++ [x]) = total_of l + x.
Proof. unfold total_of. induction l as [|y l IH]; simpl in *; lia. Qed.

Lemma foldr_min_snoc l b x : foldr Z.min b (l ++ [x]) = Z.min (foldr Z.min b l) x.
Proof. induction l as [|y l IH]; simpl in *; lia. Qed.

Lemma foldr_max_snoc l b x : foldr Z.max b (l ++ [x]) = Z.max (foldr Z.max b l) x.
Proof. induction l as [|y l IH]; simpl in *; lia. Qed.

Lemma u64_add (a b : Z) : u64 (u64 a + b) = u64 (a + b).
Proof. unfold u64. by rewrite Zplus_mod_idemp_l. Qed.

(** The addition, attribute by attribute. *)
Lemma add_data_each c t e mn mx sq c' t' e' mn' mx' sq' :
  add_data [c; t; e; mn; mx; sq] c' t' e' mn' mx' sq'
  = [u64 (c + c'); u64 (t + t'); u64 (e + e'); Z.min mn mn'; Z.max mx mx'; u64 (sq + sq')].
Proof.
  unfold add_data, datum, NRM_COUNT, NRM_TOTAL, NRM_EXCLUSIVE, NRM_MIN, NRM_MAX, NRM_SUMSQUARES.
  cbn -[u64]. destruct (Z.ltb_spec mn' mn); cbn -[u64]; destruct (Z.ltb_spec mx mx'); cbn -[u64];
    repeat (f_equal; try lia).
Qed.

Lemma add_data_aggregate ds d :
  add_data (aggregate ds) 1 d d d d (u64 (d * d)) = aggregate (ds ++ [d]).
Proof.
  unfold aggregate. rewrite add_data_each.
  rewrite map_app. cbn [map]. rewrite !total_of_snoc, foldr_min_snoc, foldr_max_snoc, length_app, !u64_add.
  cbn [length]. by rewrite Nat2Z.inj_add.
Qed.

Lemma fresh_aggregate : fresh_data = aggregate [].
Proof. done. Qed.

Abbreviation addition := (cstr * Z)%type.

(** The durations added under a name, and the additions of names the map lacks. *)
Definition durations_of (name : cstr) (adds : list addition) : list Z :=
  map snd (filter (fun a => c_str a.1 = name) adds).

Definition dropped (es : list metric_view) (adds : list addition) : list addition :=
  filter (fun a => c_str a.1 ∉ names es) adds.

Definition spec_nrm_add (limit : Z) (es : list metric_view) (a : addition) : list metric_view :=
  spec_op limit es (OpAdd 0 a.1 1 a.2 a.2 a.2 a.2 (u64 (a.2 * a.2))).

Record adds_up (limit : Z) (es : list metric_view) (adds : list addition) : Prop := {
  au_kept : forall e, e ∈ es -> e.1 <> MetricsDropped -> e.2 = (0, aggregate (durations_of e.1 adds));
  au_dropped : forall e, e ∈ es -> e.1 = MetricsDropped ->
    e.2 = (MET_FORCED, aggregate (replicate (length (dropped es adds)) 0));
  au_iff : MetricsDropped ∈ names es <-> dropped es adds <> [];
  au_full : dropped es adds <> [] -> limit <= Z.of_nat (length es);
  au_size : Z.of_nat (length es) <= limit + (if decide (MetricsDropped ∈ names es) then 1 else 0);
}.

Lemma elem_of_change es name f e :
  e ∈ change es name f -> exists e0, e0 ∈ es /\ e.1 = e0.1
    /\ e.2 = if decide (e0.1 = name) then f e0.2 else e0.2.
Proof.
  unfold change. intros (e0 & -> & He0)%list_elem_of_fmap. exists e0. by case_decide.
Qed.

Lemma durations_snoc name adds (a : addition) :
  durations_of name (adds ++ [a])
  = durations_of name adds ++ (if decide (c_str a.1 = name) then [a.2] else []).
Proof.
  unfold durations_of. rewrite filter_app, map_app. f_equal. rewrite filter_cons, filter_nil.
  by case_decide.
Qed.

Lemma dropped_snoc es adds (a : addition) :
  dropped es (adds ++ [a]) = dropped es adds ++ (if decide (c_str a.1 ∈ names es) then [] else [a]).
Proof.
  unfold dropped. rewrite filter_app. f_equal. rewrite filter_cons, filter_nil.
  repeat case_decide; tauto.
Qed.

Lemma elem_of_names es e : e ∈ es -> e.1 ∈ names es.
Proof. intros He. unfold names. by apply list_elem_of_fmap_2. Qed.

Lemma dropped_nil es adds (a : addition) : dropped es adds = [] -> a ∈ adds -> c_str a.1 ∈ names es.
Proof.
  intros Hd Ha. destruct (decide (c_str a.1 ∈ names es)); [done|].
  enough (a ∈ dropped es adds) as Hin by (rewrite Hd in Hin; by apply elem_of_nil in Hin).
  by apply list_elem_of_filter.
Qed.

Lemma dropped_change es adds name f : dropped (change es name f) adds = dropped es adds.
Proof. unfold dropped. by rewrite names_change. Qed.

(** A name that is not among those of the additions makes no difference to what is dropped. *)
Lemma dropped_app es e adds :
  Forall (fun a : addition => c_str a.1 <> e.1) adds -> dropped (es ++ [e]) adds = dropped es adds.
Proof.
  intros Hall. unfold dropped. induction Hall as [|a adds Ha Hall IH]; [done|].
  rewrite !filter_cons, IH, names_app.
  destruct (decide (c_str a.1 ∉ names es)) as [Hn|Hn]; [rewrite decide_True; [done|]|rewrite decide_False; [done|]];
    rewrite elem_of_app, list_elem_of_singleton; tauto.
Qed.

Lemma adds_up_nil limit : 0 < limit -> adds_up limit [] [].
Proof.
  intros Hl. split; try done.
  - intros e He. by apply elem_of_nil in He.
  - intros e He. by apply elem_of_nil in He.
  - split; [intros He; by apply elem_of_nil in He|done].
  - case_decide; simpl; lia.
Qed.

Section AddsUp.
Context (limit : Z) (es : list metric_view) (adds : list addition) (a : addition).
Context (Hlimit : 0 < limit) (Hup : adds_up limit es adds).
Context (Hnames : Forall (fun a => c_str a.1 <> MetricsDropped) (adds ++ [a])).

Local Abbreviation name := (c_str a.1).

Lemma name_not_dropped : name <> MetricsDropped.
Proof. apply Forall_app in Hnames as [_ Ha]. by inversion Ha. Qed.

Local Abbreviation add_one := (view_add 1 a.2 a.2 a.2 a.2 (u64 (a.2 * a.2))).

(** The metric is there. *)
Lemma adds_up_found : name ∈ names es -> adds_up limit (change es name add_one) (adds ++ [a]).
Proof.
  intros Hin. pose proof name_not_dropped as Hnd.
  assert (Hdrop : dropped (change es name add_one) (adds ++ [a]) = dropped es adds).
  { rewrite dropped_change, dropped_snoc, decide_True by done. apply app_nil_r. }
  split; rewrite ?Hdrop, ?names_change, ?length_change; try apply Hup.
  - intros e (e0 & He0 & Hn & ->)%elem_of_change Hne. rewrite durations_snoc. rewrite Hn in *.
    rewrite (au_kept _ _ _ Hup e0 He0 Hne).
    destruct (decide (e0.1 = name)) as [E|E].
    + rewrite decide_True by done. unfold view_add. simpl. by rewrite add_data_aggregate.
    + rewrite decide_False by done. by rewrite app_nil_r.
  - intros e (e0 & He0 & Hn & ->)%elem_of_change He. rewrite Hn in He.
    rewrite decide_False by congruence. by apply (au_dropped _ _ _ Hup).
Qed.

(** The metric does not fit. *)
Lemma adds_up_dropped :
  name ∉ names es -> limit <= Z.of_nat (length es) ->
  adds_up limit (spec_force es MetricsDropped (fun v => (v.1, add_data v.2 1 0 0 0 0 0))) (adds ++ [a]).
Proof.
  intros Hnin Hfull. pose proof name_not_dropped as Hnd. unfold spec_force.
  set (es0 := if decide _ then _ else _).
  assert (Hin : forall x, x ∈ names es0 <-> x ∈ names es \/ x = MetricsDropped).
  { intros x. unfold es0. case_decide; [split; [tauto|intros [?| ->]; done]|].
    rewrite names_app, elem_of_app, list_elem_of_singleton. done. }
  assert (Hd0 : dropped es0 adds = dropped es adds).
  { unfold es0. case_decide; [done|]. apply dropped_app. by apply Forall_app in Hnames as [? _]. }
  set (f := fun v => _).
  assert (Hdrop : dropped (change es0 MetricsDropped f) (adds ++ [a]) = dropped es adds ++ [a]).
  { rewrite dropped_change, dropped_snoc, Hd0, decide_False; [done|]. rewrite Hin. tauto. }
  assert (Hmd : forall e0, e0 ∈ es0 -> e0.1 = MetricsDropped ->
    f e0.2 = (MET_FORCED, aggregate (replicate (length (dropped es adds) + 1) 0))).
  { intros e0 He0 E. rewrite replicate_add. cbn [replicate]. rewrite <- add_data_aggregate.
    unfold es0 in He0. case_decide as Hc.
    - unfold f. by rewrite (au_dropped _ _ _ Hup e0 He0 E).
    - apply elem_of_app in He0 as [He0|He0]; [rewrite <- E in Hc; by apply elem_of_names in He0|].
      apply list_elem_of_singleton in He0 as ->.
      assert (dropped es adds = []) as ->; [|done].
      destruct (dropped es adds) as [|b l] eqn:Eb; [done|]. exfalso. apply Hc.
      apply (au_iff _ _ _ Hup). by rewrite Eb. }
  split; rewrite ?Hdrop, ?names_change, ?length_change.
  - intros e (e0 & He0 & Hn & ->)%elem_of_change Hne. rewrite Hn in *. rewrite decide_False by done.
    rewrite durations_snoc. unfold es0 in He0.
    assert (e0 ∈ es) as He0'.
    { case_decide; [done|]. apply elem_of_app in He0 as [?|He0]; [done|].
      by apply list_elem_of_singleton in He0 as ->. }
    rewrite decide_False, app_nil_r; [by apply (au_kept _ _ _ Hup)|].
    intros E. apply Hnin. rewrite E. by apply elem_of_names.
  - intros e (e0 & He0 & Hn & ->)%elem_of_change He. rewrite Hn in He. rewrite decide_True by done.
    rewrite length_app. by apply Hmd.
  - rewrite Hin. split; [by destruct (dropped es adds)|auto].
  - intros _. unfold es0. case_decide; rewrite ?length_app; simpl; lia.
  - pose proof (au_size _ _ _ Hup) as Hs. rewrite decide_True by (rewrite Hin; auto).
    unfold es0. case_decide; rewrite ?length_app; simpl; lia.
Qed.

(** The metric is new and fits. *)
Lemma adds_up_created :
  name ∉ names es -> Z.of_nat (length es) < limit ->
  adds_up limit (change (es ++ [(name, (0, fresh_data))]) name add_one) (adds ++ [a]).
Proof.
  intros Hnin Hroom. pose proof name_not_dropped as Hnd. set (es0 := es ++ _).
  assert (Hnone : dropped es adds = []).
  { destruct (dropped es adds) as [|b l] eqn:Eb; [done|]. pose proof (au_full _ _ _ Hup) as Hf.
    rewrite Eb in Hf. specialize (Hf ltac:(done)). lia. }
  assert (Hin : forall x, x ∈ names es0 <-> x ∈ names es \/ x = name).
  { intros x. unfold es0. by rewrite names_app, elem_of_app, list_elem_of_singleton. }
  assert (Hd0 : dropped es0 adds = []).
  { unfold dropped. destruct (filter _ adds) as [|b l] eqn:Eb; [done|]. exfalso.
    assert (b ∈ filter (fun a => c_str a.1 ∉ names es0) adds) as Hb by (rewrite Eb; left).
    apply list_elem_of_filter in Hb as [Hb Hb']. apply Hb. rewrite Hin. left. by eapply dropped_nil. }
  assert (Hdrop : dropped (change es0 name add_one) (adds ++ [a]) = []).
  { rewrite dropped_change, dropped_snoc, Hd0, decide_True; [done|]. rewrite Hin. auto. }
  assert (Hno : MetricsDropped ∉ names es) by (rewrite (au_iff _ _ _ Hup), Hnone; auto).
  split; rewrite ?Hdrop, ?names_change, ?length_change.
  - intros e (e0 & He0 & Hn & ->)%elem_of_change Hne. rewrite Hn in *. rewrite durations_snoc.
    unfold es0 in He0. apply elem_of_app in He0 as [He0|He0].
    + assert (e0.1 <> name) by (intros E; apply Hnin; rewrite <- E; by apply elem_of_names).
      rewrite !decide_False, app_nil_r by congruence. by apply (au_kept _ _ _ Hup).
    + apply list_elem_of_singleton in He0 as ->. cbn [fst snd]. rewrite !decide_True by done.
      assert (durations_of name adds = []) as ->; [|by rewrite <- add_data_aggregate].
      unfold durations_of. destruct (filter _ adds) as [|b l] eqn:Eb; [done|]. exfalso.
      assert (b ∈ filter (fun a' => c_str a'.1 = name) adds) as Hb by (rewrite Eb; left).
      apply list_elem_of_filter in Hb as [Hb Hb']. apply Hnin. rewrite <- Hb. by eapply dropped_nil.
  - intros e He E. apply elem_of_names in He. rewrite names_change, Hin, E in He. by destruct He.
  - rewrite Hin. split; [intros [?|?]; done|done].
  - done.
  - rewrite decide_False by (rewrite Hin; intros [?|?]; done). unfold es0. rewrite length_app. simpl. lia.
Qed.

Lemma adds_up_snoc : adds_up limit (spec_nrm_add limit es a) (adds ++ [a]).
Proof.
  unfold spec_nrm_add. cbn [spec_op]. unfold spec_change. cbn [Z.eqb negb].
  case_decide; [by apply adds_up_found|]. case_if; boolp; [by apply adds_up_dropped|by apply adds_up_created].
Qed.

End AddsUp.

Lemma adds_up_run (limit : Z) (adds before : list addition) es :
  0 < limit -> adds_up limit es before ->
  Forall (fun a => c_str a.1 <> MetricsDropped) (before ++ adds) ->
  adds_up limit (fold_left (spec_nrm_add limit) adds es) (before ++ adds).
Proof.
  intros Hl. revert before es. induction adds as [|a adds IH]; intros before es Hup Hn; [rewrite app_nil_r; exact Hup|].
  cbn [fold_left]. rewrite cons_middle, app_assoc in *. apply IH; [|done]. apply adds_up_snoc; [done|].
  by apply Forall_app in Hn as [? _].
Qed.

(** Unforced additions of durations, one after the other. *)
Fixpoint nrm_add_all {P : Type} `{NamePool P} (table : option (nrmtable_t P)) (adds : list addition)
  : option (option (nrmtable_t P)) :=
  match adds with
  | [] => Some table
  | a :: adds => table ← nrm_add table (Some a.1) a.2; nrm_add_all table adds
  end.

Lemma nrm_add_all_ops {P : Type} `{NamePool P} (table : option (nrmtable_t P)) (adds : list addition) :
  nrm_add_all table adds
  = run_ops table (map (fun a => OpAdd 0 a.1 1 a.2 a.2 a.2 a.2 (u64 (a.2 * a.2))) adds).
Proof.
  revert table. induction adds as [|a adds IH]; intros table; [done|]. cbn [nrm_add_all run_ops map run_op].
  unfold nrm_add. destruct (nrm_add_internal _ _ _ _ _ _ _ _ _) as [t|]; [apply IH|done].
Qed.

Lemma view_of_some es name v : view_of es name = Some v -> exists e, e ∈ es /\ e.1 = name /\ e.2 = v.
Proof.
  unfold view_of. destruct (list_find _ es) as [[j e]|] eqn:Ef; [|done]. intros [= <-].
  apply list_find_Some in Ef as (Hj & Hname & _). exists e. split_and!; [by eapply list_elem_of_lookup_2|done|done].
Qed.

(** The additions whose metric a search does not find. *)
Definition not_found {P : Type} `{NamePool P} (t : nrmtable_t P) (adds : list addition) : list addition :=
  filter (fun a => nrm_find (Some t) (Some a.1) = Some None) adds.

(** A table of limit [limit] that receives any sequence of unforced additions
    holds at most [limit + 1] metrics.  A name is either kept or dropped for good: each metric
    found holds the number, the sum (modulo 2^64), the minimum, the maximum and the sum of
    squares of exactly the durations added under its name, and when any addition was dropped
    the forced metric "Supportability/MetricsDropped" exists and counts exactly the additions
    to names the table does not hold. *)
Theorem nrm_table_adds_up {P : Type} `{NamePool P} (limit : Z) (adds : list addition) :
  0 < limit < 2 ^ 31 -> Z.of_nat (length adds) + NR_STRPOOL_INCREASE_SIZE < 2 ^ 31 ->
  Forall (fun a => strlen a.1 < 2 ^ 31 - 1 /\ c_str a.1 <> MetricsDropped) adds ->
  exists t : nrmtable_t P, nrm_add_all (Some (nrm_table_create limit)) adds = Some (Some t)
    /\ nrm_table_size (Some t) <= limit + 1
    /\ (forall name i, strlen name < 2 ^ 31 -> c_str name <> MetricsDropped ->
          nrm_find (Some t) (Some name) = Some (Some i) ->
          exists m, read_metric t (Some i) = Some (Some m)
          /\ m_flags m = 0 /\ m_data m = aggregate (durations_of (c_str name) adds))
    /\ (exists r m, nrm_find (Some t) (Some MetricsDropped) = Some r /\ read_metric t r = Some m
          /\ (r = None <-> not_found t adds = [])
          /\ forall m', m = Some m' -> m_flags m' = MET_FORCED
             /\ nrm_count m = u64 (Z.of_nat (length (not_found t adds))) /\ nrm_total m = 0).
Proof.
  intros Hlim Hb Hok.
  destruct (nrm_table_create_rep (P:=P) limit) as [Hr0 Hmax0]; [lia|].
  destruct (Z.leb_spec limit 0); [lia|].
  set (ops := map (fun a : addition => OpAdd 0 a.1 1 a.2 a.2 a.2 a.2 (u64 (a.2 * a.2))) adds).
  destruct (run_ops_spec (length ops) _ [] ops Hr0) as (t & Hrun & Hmax & Hr).
  { simpl. lia. } { unfold ops. by rewrite length_map. }
  { unfold ops. apply Forall_map. eapply Forall_impl; [exact Hok|]. by intros a [? _]. }
  rewrite Hmax0 in Hr. set (es := fold_left (spec_op limit) ops []) in Hr.
  assert (Hup : adds_up limit es adds).
  { pose proof (adds_up_run limit adds [] [] ltac:(lia) (adds_up_nil limit ltac:(lia))) as Hu.
    assert (es = fold_left (spec_nrm_add limit) adds []) as ->.
    { unfold es, ops. generalize (@nil metric_view). clear. induction adds as [|a adds IH]; intros es; [done|].
      cbn [map fold_left]. apply IH. }
    apply Hu. eapply Forall_impl; [exact Hok|]. by intros a [_ ?]. }
  clearbody es.
  assert (Hnf : not_found t adds = dropped es adds).
  { unfold not_found, dropped. clear - Hr Hok. induction Hok as [|a adds [Hl _] Hok IH]; [done|].
    rewrite !filter_cons, IH. destruct (nrm_find_view t es a.1 Hr) as (r & m & -> & _ & _ & Hn & _); [lia|].
    assert (Hiff : Some r = Some None <-> c_str a.1 ∉ names es) by (rewrite <- Hn; split; congruence).
    repeat case_decide; try done; exfalso; tauto. }
  exists t. split_and!; [by rewrite nrm_add_all_ops| | |].
  - destruct Hr as (ms & p & ss & Hr). simpl. rewrite (r_number _ _ _ _ _ Hr).
    pose proof (au_size _ _ _ Hup) as Hs. case_decide; lia.
  - intros name i Hl Hne Hf. destruct (nrm_find_view t es name Hr Hl) as (r & m & Hf' & Hm & Hv & _).
    rewrite Hf in Hf'. injection Hf' as <-. destruct m as [m|].
    2:{ simpl in Hm. destruct (metrics t); [|done]. simpl in Hm. by destruct (_ !! i). }
    exists m. split; [done|]. symmetry in Hv. apply view_of_some in Hv as (e & He & Ee & Ev).
    rewrite <- Ee in *. rewrite (au_kept _ _ _ Hup e He Hne) in Ev. by injection Ev.
  - destruct c_str_dropped as [Hd Hdl]. rewrite Hnf.
    destruct (nrm_find_view t es MetricsDropped Hr) as (r & m & Hf & Hm & Hv & Hn & _); [lia|].
    rewrite Hd in *. exists r, m. split_and!; [done|done| |].
    + rewrite Hn, (au_iff _ _ _ Hup). destruct (dropped es adds); split; [done|tauto|intros []; done|done].
    + intros m' ->. simpl in Hv. symmetry in Hv. apply view_of_some in Hv as (e & He & Ee & Ev).
      rewrite (au_dropped _ _ _ Hup e He Ee) in Ev. injection Ev as <- Ed. split; [done|].
      unfold nrm_count, nrm_total, nrm_datum, datum. rewrite <- Ed. cbn [nth aggregate NRM_COUNT NRM_TOTAL].
      rewrite length_replicate. split; [done|].
      assert (forall n, total_of (replicate n 0) = 0) as ->; [|done].
      induction n as [|n IH]; [done|]. exact IH.
Qed.

Lemma nrm_table_adds_up_witness :
  exists t : nrmtable_t nrstrpool_t,
    nrm_add_all (Some (nrm_table_create 1)) [(str "a", 5); (str "b", 1); (str "a", 2); (str "c", 9)] = Some (Some t)
    /\ nrm_table_size (Some t) <= 2.
Proof.
  destruct (nrm_table_adds_up (P:=nrstrpool_t) 1 [(str "a", 5); (str "b", 1); (str "a", 2); (str "c", 9)])
    as (t & Hrun & Hsize & _).
  - lia.
  - reflexivity.
  - repeat (constructor; [split; [reflexivity|discriminate]|]). constructor.
  - exists t. split; [exact Hrun|exact Hsize].
Defined.
