(* ===== verification/SegmentChildren.v ===== *)
(** * The children of a segment

    [nr_segment_children.h], [nr_segment_children_private.h] and [nr_segment_children.c]: up to
    eight child pointers are packed in the structure itself, more go to a vector.  The two share
    memory: the header of the packed form overlays the capacity of the vector, and the tag
    [is_packed] is one bit of it.  The model follows the layout of GCC and Clang on x86-64 and
    other little-endian machines, where the first bit-field is the least significant bit: a
    vector looks packed when its capacity is odd.  Reading one form as the other is an error
    ([None]), as are accesses outside the packed array or the vector's array. *)

From S2P Require Import Prelude Vector.

(* @map nr_segment_children.h:11-11 NR_SEGMENT_CHILDREN_PACKED_LIMIT *)
Definition NR_SEGMENT_CHILDREN_PACKED_LIMIT : Z := 8.

(** The memory of the union: the packed form with its count, or the vector. *)
(* @map nr_segment_children.h:26-64 nr_segment_children_t *)
Inductive nr_segment_children_t (A : Type) : Type :=
  | Packed (count : Z) (elements : list (option A))
  | InVector (vector : nr_vector_t A).
Arguments Packed {A}.
Arguments InVector {A}.

Section Children.
Context {A : Type} `{EqDecision A}.
Context (realloc_ok : Z -> bool).

Abbreviation children_t := (nr_segment_children_t A).

Implicit Types (c : children_t).

(** ** The header *)

(* @map nr_segment_children.h:26-35 is_packed *)
Definition is_packed (c : children_t) : bool :=
  match c with Packed _ _ => true | InVector v => Z.odd (v_capacity v) end.

Definition header_count (c : children_t) : Z :=
  match c with Packed n _ => n | InVector v => v_capacity v / 2 end.

(** The packed form, for an access to [packed]. *)
Definition as_packed (c : children_t) : option (Z * list (option A)) :=
  match c with Packed n els => Some (n, els) | InVector _ => None end.

Definition as_vector (c : children_t) : option (nr_vector_t A) :=
  match c with Packed _ _ => None | InVector v => Some v end.

(** What is in the elements once the header is rewritten over whatever was there. *)
Definition packed_elements (c : children_t) : list (option A) :=
  match c with
  | Packed _ els => els
  | InVector _ => replicate (Z.to_nat NR_SEGMENT_CHILDREN_PACKED_LIMIT) None
  end.

(* @map nr_segment_children.h:73-80 nr_segment_children_init *)
Definition nr_segment_children_init (children : option children_t) : option children_t :=
  match children with
  | None => None
  | Some c => Some (Packed 0 (packed_elements c))
  end.

(* @map nr_segment_children.h:87-96 nr_segment_children_deinit *)
Definition nr_segment_children_deinit (children : option children_t) : option (option children_t) :=
  match children with
  | None => Some None
  | Some c =>
      c ← (if negb (is_packed c) then v ← as_vector c; Some (InVector (fst (nr_vector_deinit_impl v)))
           else Some c);
      Some (nr_segment_children_init (Some c))
  end.

(* @map nr_segment_children.h:105-113 nr_segment_children_size *)
Definition nr_segment_children_size (children : option children_t) : option Z :=
  match children with
  | None => Some 0
  | Some c => if is_packed c then Some (header_count c)
              else v ← as_vector c; Some (nr_vector_size (Some v))
  end.

(** An element of an array, when the index is in it. *)
Definition slot (els : list (option A)) (i : Z) : option (option A) :=
  if i <? 0 then None else els !! Z.to_nat i.

(* @map nr_segment_children.h:123-135 nr_segment_children_get *)
Definition nr_segment_children_get (children : option children_t) (i : Z) : option (option A) :=
  size ← nr_segment_children_size children;
  if size <=? i then Some None
  else match children with
       | None => Some None
       | Some c => if is_packed c then '(_, els) ← as_packed c; slot els i
                   else v ← as_vector c; slot (v_elements v) i
       end.

(** The success of the insertion is not looked at by the callers. *)
(* @map nr_segment_children_private.h:18-25 nr_segment_children_add_vector *)
Definition nr_segment_children_add_vector (c : children_t) (child : option A)
  : option (bool * children_t) :=
  v ← as_vector c;
  '(ok, v') ← nr_vector_push_back realloc_ok (Some v) child;
  v' ← v';
  Some (ok, InVector v').

(** Writing [src] into an array at an offset. *)
Definition put (els : list (option A)) (off : nat) (src : list (option A)) : option (list (option A)) :=
  if (off + length src <=? length els)%nat
  then Some (take off els ++ src ++ drop (off + length src) els) else None.

(* @map nr_segment_children_private.h:33-59 nr_segment_children_migrate_to_vector *)
Definition nr_segment_children_migrate_to_vector (c : children_t) : option children_t :=
  if is_packed c then
    '(count, els) ← as_packed c;
    if 0 <? count then
      let packed := take (Z.to_nat count) els in
      let v := nr_vector_init_impl (count * 2) false in
      els' ← put (v_elements v) 0 packed;
      Some (InVector (mk_vector (v_capacity v) count els' false))
    else Some (InVector (nr_vector_init_impl NR_SEGMENT_CHILDREN_PACKED_LIMIT false))
  else Some c.

(* @map nr_segment_children.h:145-167 nr_segment_children_add *)
Definition nr_segment_children_add (children : option children_t) (child : option A)
  : option (bool * option children_t) :=
  match children, child with
  | Some c, Some _ =>
      if is_packed c then
        '(count, els) ← as_packed c;
        let new_count := count + 1 in
        if NR_SEGMENT_CHILDREN_PACKED_LIMIT <? new_count then
          c ← nr_segment_children_migrate_to_vector c;
          '(_, c) ← nr_segment_children_add_vector c child;
          Some (true, Some c)
        else els ← put els (Z.to_nat count) [child]; Some (true, Some (Packed new_count els))
      else '(_, c) ← nr_segment_children_add_vector c child; Some (true, Some c)
  | _, _ => Some (false, children)
  end.

(* @map nr_segment_children.h:195-203 nr_segment_children_remove *)
Fixpoint remove_loop (fuel : nat) (count : Z) (els : list (option A)) (child : option A) (i e : Z)
  : option (bool * children_t) :=
  match fuel with
  | O => Some (false, Packed count els)
  | S fuel =>
      if i <? e then
        x ← slot els i;
        if bool_decide (child = x) then
          Some (true, Packed (count - 1)
                        (memmove els (Z.to_nat i) (Z.to_nat (i + 1)) (Z.to_nat (count - i - 1))))
        else remove_loop fuel count els child (i + 1) e
      else Some (false, Packed count els)
  end.

(* @map nr_segment_children.h:177-215 nr_segment_children_remove *)
Definition nr_segment_children_remove (children : option children_t) (child : option A)
  : option (bool * option children_t) :=
  match children, child with
  | Some c, Some _ =>
      size ← nr_segment_children_size children;
      if 0 =? size then Some (false, children)
      else if is_packed c then
        '(count, els) ← as_packed c;
        let e := count - 1 in
        last ← slot els e;
        if bool_decide (child = last) then Some (true, Some (Packed (count - 1) els))
        else '(ok, c) ← remove_loop (Z.to_nat e) count els child 0 e; Some (ok, Some c)
      else
        v ← as_vector c;
        index ← nr_vector_find_first (Some v) child None;
        match index with
        | Some index =>
            let '(ok, v, _) := nr_vector_remove realloc_ok (Some v) index true in
            v ← v; Some (ok, Some (InVector v))
        | None => Some (false, Some c)
        end
  | _, _ => Some (false, children)
  end.

(* @map nr_segment_children.c:24-34 nr_segment_children_get_prev *)
Fixpoint get_prev_loop (fuel : nat) c (child : option A) (i used : Z) : option (option A) :=
  match fuel with
  | O => Some None
  | S fuel =>
      if i <? used then
        prev ← nr_segment_children_get (Some c) (i - 1);
        cur ← nr_segment_children_get (Some c) i;
        if bool_decide (cur = child) then Some prev else get_prev_loop fuel c child (i + 1) used
      else Some None
  end.

(* @map nr_segment_children.c:6-35 nr_segment_children_get_prev *)
Definition nr_segment_children_get_prev (children : option children_t) (child : option A)
  : option (option A) :=
  match children, child with
  | Some c, Some _ =>
      used ← nr_segment_children_size children;
      if used <=? 1 then Some None else get_prev_loop (Z.to_nat used) c child 1 used
  | _, _ => Some None
  end.

(* @map nr_segment_children.c:55-65 nr_segment_children_get_next *)
Fixpoint get_next_loop (fuel : nat) c (child : option A) (i used : Z) : option (option A) :=
  match fuel with
  | O => Some None
  | S fuel =>
      if i <? used - 1 then
        cur ← nr_segment_children_get (Some c) i;
        next ← nr_segment_children_get (Some c) (i + 1);
        if bool_decide (cur = child) then Some next else get_next_loop fuel c child (i + 1) used
      else Some None
  end.

(* @map nr_segment_children.c:37-66 nr_segment_children_get_next *)
Definition nr_segment_children_get_next (children : option children_t) (child : option A)
  : option (option A) :=
  match children, child with
  | Some c, Some _ =>
      used ← nr_segment_children_size children;
      if used <=? 1 then Some None else get_next_loop (Z.to_nat used) c child 0 used
  | _, _ => Some None
  end.

(** The arrays of a reparenting: the children move behind those of the new parent.  The
    success of [nr_vector_ensure] is not looked at. *)
(* @map nr_segment_children.c:92-115 nr_segment_children_reparent *)
Definition reparent_arrays (children parent : children_t) (size : Z)
  : option (children_t * children_t) :=
  parent_size ← nr_segment_children_size (Some parent);
  let req_parent_size := size + parent_size in
  parent ← (if NR_SEGMENT_CHILDREN_PACKED_LIMIT <? req_parent_size
            then nr_segment_children_migrate_to_vector parent else Some parent);
  source ← (if is_packed children then '(_, els) ← as_packed children; Some els
            else v ← as_vector children; Some (v_elements v));
  let moved := take (Z.to_nat size) source in
  parent ← (if is_packed parent then
              '(_, els) ← as_packed parent;
              els ← put els (Z.to_nat parent_size) moved;
              Some (Packed req_parent_size els)
            else
              v ← as_vector parent;
              '(_, v) ← nr_vector_ensure realloc_ok (Some v) req_parent_size;
              v ← v;
              els ← put (v_elements v) (Z.to_nat parent_size) moved;
              Some (InVector (mk_vector (v_capacity v) req_parent_size els (v_dtor v))));
  children ← nr_segment_children_deinit (Some children);
  children ← children;
  Some (children, parent).

(** ** The children as a list *)

(** A vector whose capacity is a power of two times eight never has an odd capacity. *)
Definition power_capacity (c : Z) : Prop := exists k, 0 <= k /\ c = 8 * 2 ^ k.

Lemma power_capacity_even (c : Z) : power_capacity c -> Z.odd c = false.
Proof. intros (k & Hk & ->). by rewrite Z.odd_mul. Qed.

(** The structure holds [l], and its tag can be read. *)
Definition holds c (l : list (option A)) : Prop :=
  match c with
  | Packed n els =>
      n = Z.of_nat (length l) /\ n <= NR_SEGMENT_CHILDREN_PACKED_LIMIT
      /\ Z.of_nat (length els) = NR_SEGMENT_CHILDREN_PACKED_LIMIT /\ take (length l) els = l
  | InVector v => vrep v l /\ Z.odd (v_capacity v) = false
  end.

(** The same, with a capacity that stays even as children come and go. *)
Definition crep c (l : list (option A)) : Prop :=
  holds c l /\ match c with Packed _ _ => True | InVector v => power_capacity (v_capacity v) end.

Context (Hlimited : realloc_limited realloc_ok).
(** No allocation of less than a terabyte fails. *)
Context (Hmemory : forall n, 0 <= n < 2 ^ 40 -> realloc_ok n = true).

Lemma not_refused n : 0 <= n < 2 ^ 30 -> ~ refused realloc_ok n.
Proof. intros Hn (bytes & Hb & Hr). rewrite Hmemory in Hr by lia. done. Qed.

Lemma holds_size c l : holds c l -> nr_segment_children_size (Some c) = Some (Z.of_nat (length l)).
Proof.
  unfold nr_segment_children_size. destruct c as [n els|v]; simpl.
  - intros (-> & _). done.
  - intros ((Hu & _) & ->). simpl. by rewrite Hu.
Qed.

Lemma slot_lookup els (i : nat) : slot els (Z.of_nat i) = els !! i.
Proof. unfold slot. destruct (Z.ltb_spec (Z.of_nat i) 0); [lia|]. by rewrite Nat2Z.id. Qed.

Lemma holds_get c l (i : nat) :
  holds c l -> nr_segment_children_get (Some c) (Z.of_nat i)
               = Some (match l !! i with Some x => x | None => None end).
Proof.
  intros Hc. unfold nr_segment_children_get. rewrite (holds_size c l Hc). cbn [mbind option_bind].
  destruct (Z.leb_spec (Z.of_nat (length l)) (Z.of_nat i)).
  - by rewrite lookup_ge_None_2 by lia.
  - destruct (lookup_lt_is_Some_2 l i) as [x Hx]; [lia|]. rewrite Hx.
    destruct c as [n els|v]; cbn [is_packed as_packed as_vector mbind option_bind]; simpl in Hc.
    + destruct Hc as (_ & _ & _ & Ht). rewrite slot_lookup.
      rewrite <- Ht, lookup_take_lt in Hx by lia. done.
    + destruct Hc as ((Hu & Hcap & _ & junk & He) & Hodd). rewrite Hodd. cbn [mbind option_bind].
      rewrite slot_lookup, He. by apply lookup_app_l_Some.
Qed.

Lemma put_spec (els : list (option A)) (off : nat) src :
  (off + length src <= length els)%nat ->
  exists els', put els off src = Some els' /\ length els' = length els
    /\ els' = take off els ++ src ++ drop (off + length src) els.
Proof.
  intros Hl. unfold put. destruct (Nat.leb_spec (off + length src) (length els)); [|lia].
  eexists. split; [done|]. split; [|done]. rewrite !length_app, length_take, length_drop. lia.
Qed.

(** *** How capacities change *)

Lemma ensure_loop_doubles (fuel : nat) (c req n : Z) :
  0 < c -> req <= 2 ^ 62 -> ensure_loop fuel c req = Some n -> exists j, 0 <= j /\ n = c * 2 ^ j.
Proof.
  revert c. induction fuel as [|fuel IH]; intros c Hc Hr; simpl; destruct (Z.ltb_spec c req); try done.
  - intros [= <-]. exists 0. lia.
  - rewrite u64_id by (unfold in_u64; lia). intros Hl. destruct (IH (c * 2)) as (j & Hj & ->); [lia|done|done|].
    exists (j + 1). split; [lia|]. rewrite Z.pow_add_r by lia. lia.
  - intros [= <-]. exists 0. lia.
Qed.

Lemma ensure_impl_capacity (v v' : nr_vector_t A) req ok :
  0 < v_capacity v -> req <= 2 ^ 62 -> nr_vector_ensure_impl realloc_ok v req = Some (ok, v') ->
  exists j, 0 <= j /\ v_capacity v' = v_capacity v * 2 ^ j.
Proof.
  intros Hc Hr. unfold nr_vector_ensure_impl. case_if; [intros [= _ <-]; exists 0; lia|].
  destruct (Z.eqb_spec (v_capacity v) 0); [lia|].
  destruct (ensure_loop _ _ _) as [n'|] eqn:El; [|done]. cbn [mbind option_bind].
  apply ensure_loop_doubles in El as (j & Hj & ->); [|done|done].
  destruct (nr_reallocarray _ _ _ _); intros [= _ <-]; simpl; [by exists j|exists 0; lia].
Qed.

Lemma power_capacity_double (c j : Z) : power_capacity c -> 0 <= j -> power_capacity (c * 2 ^ j).
Proof. intros (k & Hk & ->) Hj. exists (k + j). rewrite Z.pow_add_r by lia. lia. Qed.

Lemma push_back_capacity (v v' : nr_vector_t A) e ok :
  power_capacity (v_capacity v) -> 0 <= v_used v < 2 ^ 60 ->
  nr_vector_insert_impl realloc_ok v (v_used v) e = Some (ok, v') -> power_capacity (v_capacity v').
Proof.
  intros Hp Hu. unfold nr_vector_insert_impl. rewrite u64_id by (unfold in_u64; lia).
  destruct (nr_vector_ensure_impl _ _ _) as [[ok1 v1]|] eqn:Ee; [|done]. cbn [mbind option_bind].
  apply ensure_impl_capacity in Ee as (j & Hj & Hc); [| |lia].
  2:{ destruct Hp as (k & Hk & ->). assert (0 < 2 ^ k) by (apply Z.pow_pos_nonneg; lia). lia. }
  pose proof (power_capacity_double _ _ Hp Hj) as Hp'. rewrite <- Hc in Hp'.
  destruct ok1; cbn [negb]; [|by intros [= _ <-]]. case_if; by intros [= _ <-].
Qed.

Lemma remove_capacity (v : nr_vector_t A) pos :
  power_capacity (v_capacity v) -> power_capacity (v_capacity (nr_vector_remove_impl realloc_ok v pos).1.2).
Proof.
  intros Hp. unfold nr_vector_remove_impl. case_if; [done|]. simpl.
  unfold nr_vector_shrink_if_necessary. case_if; [done|]. cbn [v_used v_capacity v_elements v_dtor] in *.
  boolp. destruct (nr_reallocarray _ _ _ _); [|done]. simpl.
  destruct Hp as (k & Hk & Hc). rewrite Hc in *.
  destruct (decide (k = 0)) as [->|]; [change (8 * 2 ^ 0 / 2) with 4 in *; lia|].
  exists (k - 1). split; [lia|]. replace k with (k - 1 + 1) at 1 by lia. rewrite Z.pow_add_r by lia.
  rewrite Z.mul_assoc. by rewrite Z.div_mul by lia.
Qed.

(** *** Adding *)

Lemma power_capacity_8 : power_capacity 8.
Proof. exists 0. lia. Qed.

Lemma power_capacity_16 : power_capacity 16.
Proof. exists 1. lia. Qed.

Lemma migrate_spec n els l :
  holds (Packed n els) l ->
  exists v, nr_segment_children_migrate_to_vector (Packed n els) = Some (InVector v)
    /\ vrep v l /\ v_capacity v = (if n =? 0 then 8 else n * 2).
Proof.
  intros (-> & Hn & Hl & Ht). unfold NR_SEGMENT_CHILDREN_PACKED_LIMIT in *.
  unfold nr_segment_children_migrate_to_vector. cbn [is_packed as_packed mbind option_bind].
  destruct (Z.ltb_spec 0 (Z.of_nat (length l))) as [Hpos|H0].
  - unfold nr_vector_init_impl. destruct (Z.eqb_spec (Z.of_nat (length l) * 2) 0); [lia|].
    cbn [v_elements v_capacity]. rewrite Nat2Z.id, Ht.
    destruct (put_spec (replicate (Z.to_nat (Z.of_nat (length l) * 2)) None) 0 l) as (els' & -> & Hl' & ->);
      [rewrite length_replicate; lia|]. cbn [mbind option_bind].
    eexists. split; [done|]. cbn [v_capacity]. destruct (Z.eqb_spec (Z.of_nat (length l)) 0); [lia|].
    split; [|done]. rewrite length_replicate in Hl'.
    split_and!; cbn [v_used v_capacity v_elements]; [done|rewrite Hl'; lia|lia|by eexists].
  - destruct l; [|simpl in H0; lia]. eexists. split; [done|]. split; [|done].
    apply vrep_init. unfold NR_SEGMENT_CHILDREN_PACKED_LIMIT. lia.
Qed.

Lemma add_vector_spec (v : nr_vector_t A) l e :
  vrep v l -> power_capacity (v_capacity v) -> Z.of_nat (length l) < 2 ^ 29 ->
  exists v', nr_segment_children_add_vector (InVector v) e = Some (true, InVector v')
    /\ vrep v' (l ++ [e]) /\ power_capacity (v_capacity v').
Proof.
  intros Hv Hp Hl. pose proof Hv as (Hu & _).
  unfold nr_segment_children_add_vector, nr_vector_push_back. cbn [as_vector mbind option_bind].
  destruct (nr_vector_insert_impl_spec realloc_ok v l (v_used v) e Hlimited Hv) as (ok & v' & E & Hok); [lia|].
  rewrite E. cbn [mbind option_bind].
  destruct ok; [|destruct Hok as [_ Hr]; by apply not_refused in Hr; [|lia]].
  exists v'. split; [done|]. split.
  - by rewrite list_insert_at_ge in Hok by lia.
  - eapply push_back_capacity; [done| |exact E]. lia.
Qed.

Lemma nr_segment_children_add_spec c l (a : A) :
  crep c l -> Z.of_nat (length l) < 2 ^ 29 ->
  exists c', nr_segment_children_add (Some c) (Some a) = Some (true, Some c')
    /\ crep c' (l ++ [Some a]).
Proof.
  intros [Hc Hp] Hl. unfold nr_segment_children_add. destruct c as [n els|v].
  - cbn [is_packed as_packed mbind option_bind]. pose proof Hc as (Hn & Hlim & Hlen & Ht).
    unfold NR_SEGMENT_CHILDREN_PACKED_LIMIT in *. destruct (Z.ltb_spec 8 (n + 1)) as [Hover|Hfit].
    + destruct (migrate_spec n els l Hc) as (v & -> & Hv & Hcap). cbn [mbind option_bind].
      destruct (Z.eqb_spec n 0); [lia|].
      destruct (add_vector_spec v l (Some a) Hv) as (v' & -> & Hv' & Hp'); [|done|].
      { rewrite Hcap. replace (n * 2) with 16 by lia. apply power_capacity_16. }
      cbn [mbind option_bind]. eexists. split; [done|]. split; [|exact Hp'].
      split; [exact Hv'|by apply power_capacity_even].
    + rewrite Hn, Nat2Z.id. destruct (put_spec els (length l) [Some a]) as (els' & -> & Hl' & ->);
        [simpl; lia|]. cbn [mbind option_bind]. eexists. split; [done|]. split; [|done].
      unfold holds, NR_SEGMENT_CHILDREN_PACKED_LIMIT.
      split_and!; [rewrite length_app; simpl; lia|lia|rewrite Hl'; lia|].
      rewrite app_assoc, take_app_length'; [by rewrite Ht|].
      rewrite !length_app, length_take. simpl. lia.
  - destruct Hc as [Hv Hodd]. cbn [is_packed]. rewrite Hodd.
    destruct (add_vector_spec v l (Some a) Hv Hp Hl) as (v' & -> & Hv' & Hp'). cbn [mbind option_bind].
    eexists. split; [done|]. split; [|exact Hp']. split; [exact Hv'|by apply power_capacity_even].
Qed.

(** *** Removing *)

(** [l'] is [l] without one occurrence of [x], if there is one. *)
Definition removed (l : list (option A)) (x : option A) (ok : bool) (l' : list (option A)) : Prop :=
  if ok then exists l1 l2, l = l1 ++ x :: l2 /\ l' = l1 ++ l2 else (x ∉ l) /\ l' = l.

Lemma delete_at_split (l : list (option A)) (i : nat) x :
  l !! i = Some x -> l = take i l ++ x :: drop (i + 1) l.
Proof. intros H. rewrite Nat.add_1_r. symmetry. by apply take_drop_middle. Qed.

Lemma remove_loop_spec (fuel : nat) n els l (x : option A) (i : nat) :
  holds (Packed n els) l -> (i < length l)%nat -> (length l - 1 - i <= fuel)%nat ->
  last l <> Some x -> (forall j, (j < i)%nat -> l !! j <> Some x) ->
  exists ok c', remove_loop fuel n els x (Z.of_nat i) (n - 1) = Some (ok, c')
    /\ exists l', crep c' l' /\ removed l x ok l'.
Proof.
  intros Hc. pose proof Hc as (Hn & Hlim & Hlen & Ht). revert i.
  assert (Hnone : forall i, (length l - 1 <= i)%nat -> last l <> Some x ->
    (forall j, (j < i)%nat -> l !! j <> Some x) -> x ∉ l).
  { intros i Hi Hlast Hbefore [j Hj]%list_elem_of_lookup. pose proof (lookup_lt_Some _ _ _ Hj) as Hlt.
    destruct (decide (j = length l - 1)%nat) as [->|]; [|by apply (Hbefore j); [lia|]].
    apply Hlast. rewrite last_lookup. by replace (pred (length l)) with (length l - 1)%nat by lia. }
  induction fuel as [|fuel IH]; intros i Hi Hf Hlast Hbefore; cbn [remove_loop].
  - exists false, (Packed n els). split; [done|]. exists l. split; [by split|].
    split; [|done]. apply (Hnone i); [lia|done|done].
  - destruct (Z.ltb_spec (Z.of_nat i) (n - 1)) as [Hlt|Hge].
    + destruct (lookup_lt_is_Some_2 l i Hi) as [y Hy]. rewrite slot_lookup.
      assert (els !! i = Some y) as -> by (rewrite <- Ht, lookup_take_lt in Hy by lia; done).
      cbn [mbind option_bind]. case_bool_decide as Hxy.
      * subst y. eexists true, _. split; [done|]. exists (take i l ++ drop (i + 1) l). split.
        -- split; [|done]. set (junk := drop (length l) els).
           assert (He : els = l ++ junk) by (unfold junk; rewrite <- Ht at 1; symmetry; apply take_drop).
           assert (Hlen' : length (take i l ++ drop (i + 1) l) = (length l - 1)%nat)
             by (rewrite length_app, length_take, length_drop; lia).
           split_and!; [rewrite Hlen'; lia|lia| |].
           ++ rewrite length_memmove; [done|lia|lia].
           ++ rewrite Hlen', Hn, He, !Nat2Z.id.
              replace (Z.to_nat (Z.of_nat i + 1)) with (i + 1)%nat by lia.
              replace (Z.to_nat (Z.of_nat (length l) - Z.of_nat i - 1)) with (length l - i - 1)%nat by lia.
              by apply memmove_down_delete.
        -- exists (take i l), (drop (i + 1) l). split; [by apply delete_at_split|done].
      * replace (Z.of_nat i + 1) with (Z.of_nat (S i)) by lia. apply IH; [lia|lia|done|].
        intros j Hj. destruct (decide (j = i)) as [->|]; [congruence|apply Hbefore; lia].
    + exists false, (Packed n els). split; [done|]. exists l. split; [by split|].
      split; [|done]. apply (Hnone i); [lia|done|done].
Qed.

Lemma nr_segment_children_remove_spec c l (a : A) :
  crep c l ->
  exists ok c' l', nr_segment_children_remove (Some c) (Some a) = Some (ok, Some c')
    /\ crep c' l' /\ removed l (Some a) ok l'.
Proof.
  intros Hcrep. pose proof Hcrep as [Hc Hp]. unfold nr_segment_children_remove.
  rewrite (holds_size c l Hc). cbn [mbind option_bind].
  destruct (Z.eqb_spec 0 (Z.of_nat (length l))) as [H0|H0].
  { exists false, c, l. split_and!; [done|done|]. destruct l; [|done]. split; [apply not_elem_of_nil|done]. }
  destruct c as [n els|v]; cbn [is_packed as_packed as_vector].
  - cbn [mbind option_bind]. pose proof Hc as (Hn & Hlim & Hlen & Ht).
    destruct (lookup_lt_is_Some_2 l (length l - 1)) as [z Hz]; [lia|].
    replace (n - 1) with (Z.of_nat (length l - 1)) by lia. rewrite slot_lookup.
    assert (els !! (length l - 1)%nat = Some z) as ->
      by (rewrite <- (lookup_take_lt els (length l)), Ht by lia; done).
    cbn [mbind option_bind]. case_bool_decide as Haz.
    + subst z. eexists true, _, (take (length l - 1) l). split; [done|]. split.
      * split; [|done]. split_and!; [rewrite length_take; lia|lia|done|].
        assert (Hl1 : take (length l - 1) l = take (length l - 1) (take (length l) els)) by (by rewrite Ht).
        rewrite length_take, Hl1, take_take. f_equal; lia.
      * exists (take (length l - 1) l), []. rewrite app_nil_r. split; [|done].
        rewrite (delete_at_split l (length l - 1) _ Hz) at 1. by rewrite drop_ge by lia.
    + destruct (remove_loop_spec (length l - 1) n els l (Some a) 0 Hc) as (ok & c' & Hrun & l' & Hc' & Hrem);
        [lia|lia| |lia|].
      { rewrite last_lookup. replace (pred (length l)) with (length l - 1)%nat by lia. congruence. }
      replace (n - 1) with (Z.of_nat (length l - 1)) in Hrun by lia.
      rewrite Nat2Z.id. change 0 with (Z.of_nat 0). rewrite Hrun. cbn [mbind option_bind].
      by exists ok, c', l'.
  - destruct Hc as [Hv Hodd]. rewrite Hodd. cbn [mbind option_bind]. pose proof Hv as (Hu & _).
    unfold nr_vector_find_first. destruct (Z.eqb_spec (v_used v) 0); [lia|].
    destruct (nr_vector_find_spec v l 0 true (Some a) None Hv) as (r & -> & Hr); [lia|].
    destruct (Z.leb_spec (v_used v) 0); [lia|]. cbn [mbind option_bind]. destruct r as [i|].
    + destruct Hr as (Hi & Hfound & _). unfold found_by in Hfound. apply bool_decide_eq_true in Hfound.
      destruct (nr_vector_remove_impl_spec realloc_ok v l i Hlimited Hv) as (v' & Hrun & Hv'); [lia|].
      unfold nr_vector_remove. cbn [negb]. rewrite Hrun. cbn [mbind option_bind].
      pose proof (remove_capacity v i Hp) as Hp'. rewrite Hrun in Hp'. simpl in Hp'.
      exists true, (InVector v'), (list_delete_at l i). split; [done|]. split.
      * split; [|exact Hp']. split; [exact Hv'|by apply power_capacity_even].
      * exists (take (Z.to_nat i) l), (drop (Z.to_nat i + 1) l). split; [|done]. rewrite <- Hfound.
        apply delete_at_split. apply list_lookup_lookup_total_lt. lia.
    + exists false, (InVector v), l. split_and!; [done|done|].
      split; [|done]. intros [j Hj]%list_elem_of_lookup. pose proof (lookup_lt_Some _ _ _ Hj) as Hlt.
      specialize (Hr (Z.of_nat j)). cbn [first_match] in Hr. unfold found_by in Hr. rewrite Nat2Z.id in Hr.
      specialize (Hr ltac:(lia)). apply bool_decide_eq_false in Hr. apply Hr.
      by apply list_lookup_total_correct.
Qed.

(** *** Reparenting *)

Lemma holds_source c l :
  holds c l ->
  exists els, (if is_packed c then '(_, els) ← as_packed c; Some els
               else v ← as_vector c; Some (v_elements v)) = Some els /\ take (length l) els = l.
Proof.
  destruct c as [n els|v]; cbn [is_packed as_packed as_vector].
  - intros (_ & _ & _ & Ht). by exists els.
  - intros [(_ & _ & _ & junk & He) ->]. exists (v_elements v). split; [done|].
    rewrite He. apply take_app_length.
Qed.

Lemma deinit_holds c l :
  holds c l -> exists c', nr_segment_children_deinit (Some c) = Some (Some c') /\ crep c' [].
Proof.
  unfold nr_segment_children_deinit. destruct c as [n els|v]; cbn [is_packed as_vector negb].
  - intros (_ & _ & Hl & _). eexists. split; [done|]. by split_and!.
  - intros [_ ->]. cbn [negb mbind option_bind]. eexists. split; [done|]. by split_and!.
Qed.

Lemma even_double (cap j : Z) : Z.odd cap = false -> Z.odd (cap * 2 ^ j) = false.
Proof. intros H. by rewrite Z.odd_mul, H. Qed.

(** Appending to the vector of the new parent. *)
Lemma append_vector_spec (v : nr_vector_t A) lp lc req :
  vrep v lp -> 0 < v_capacity v -> Z.odd (v_capacity v) = false ->
  req = Z.of_nat (length lc + length lp) -> 0 < req < 2 ^ 29 ->
  exists v' els, nr_vector_ensure realloc_ok (Some v) req = Some (true, Some v')
    /\ put (v_elements v') (length lp) lc = Some els
    /\ holds (InVector (mk_vector (v_capacity v') req els (v_dtor v'))) (lp ++ lc).
Proof.
  intros Hv Hcap Hodd Hreq Hb. unfold nr_vector_ensure. destruct (Z.eqb_spec req 0); [lia|].
  destruct (nr_vector_ensure_impl_spec realloc_ok v lp req Hlimited Hv) as (ok & v' & E & Hv' & Hu' & Hok & Hno);
    [lia|]. pose proof E as E'. rewrite E. cbn [mbind option_bind].
  assert (Hr62 : req <= 2 ^ 62) by lia.
  destruct (ensure_impl_capacity v v' req ok Hcap Hr62 E') as (j & _ & Hj).
  destruct ok; [|destruct (Hno eq_refl) as [_ Hr]; exfalso; apply (not_refused req); [lia|done]].
  specialize (Hok eq_refl). destruct Hv' as (Hu & Hc & Hb' & junk & He).
  destruct (put_spec (v_elements v') (length lp) lc) as (els & Hels & Hlen & Hdef); [lia|].
  exists v', els. split; [done|]. split; [done|].
  split; [|by cbn [v_capacity]; rewrite Hj; apply even_double].
  split_and!; cbn [v_used v_capacity v_elements].
  - rewrite length_app. lia.
  - lia.
  - lia.
  - exists (drop (length lp + length lc) (v_elements v')). rewrite Hdef, He, take_app_length, app_assoc. done.
Qed.

Lemma reparent_arrays_spec c p lc lp :
  holds c lc -> crep p lp -> lc <> [] -> Z.of_nat (length lc + length lp) < 2 ^ 29 ->
  exists c' p', reparent_arrays c p (Z.of_nat (length lc)) = Some (c', p')
    /\ crep c' [] /\ holds p' (lp ++ lc).
Proof.
  intros Hc [Hp Hpow] Hne Hb. assert (Hpos : (0 < length lc)%nat) by (destruct lc; [done|simpl; lia]).
  unfold reparent_arrays. rewrite (holds_size p lp Hp). cbn [mbind option_bind].
  destruct (holds_source c lc Hc) as (src & Hsrc & Htake).
  destruct (deinit_holds c lc Hc) as (c' & Hdeinit & Hc'). rewrite Hdeinit.
  set (req := Z.of_nat (length lc) + Z.of_nat (length lp)).
  assert (Hvec : forall v, vrep v lp -> 0 < v_capacity v -> Z.odd (v_capacity v) = false ->
    exists p', (v' ← as_vector (InVector v);
                '(_, v') ← nr_vector_ensure realloc_ok (Some v') req;
                v' ← v';
                els ← put (v_elements v') (length lp) lc;
                Some (InVector (mk_vector (v_capacity v') req els (v_dtor v')))) = Some p'
      /\ holds p' (lp ++ lc)).
  { intros v Hv Hcap Hodd.
    destruct (append_vector_spec v lp lc req Hv Hcap Hodd) as (v' & els & E & Hput & Hh);
      [unfold req; lia|unfold req; lia|].
    cbn [as_vector mbind option_bind]. rewrite E. cbn [mbind option_bind]. rewrite Hput. cbn [mbind option_bind].
    eexists. split; [done|]. exact Hh. }
  destruct (Z.ltb_spec NR_SEGMENT_CHILDREN_PACKED_LIMIT req) as [Hover|Hfit].
  - assert (exists v, nr_segment_children_migrate_to_vector p = Some (InVector v)
      /\ vrep v lp /\ 0 < v_capacity v /\ Z.odd (v_capacity v) = false) as (v & -> & Hv & Hcap & Hodd).
    { destruct p as [n els|v].
      - destruct (migrate_spec n els lp Hp) as (v & Hm & Hv & Hcap). exists v. split; [done|]. split; [done|].
        pose proof Hp as (Hn & _). rewrite Hcap. destruct (Z.eqb_spec n 0); [done|].
        split; [lia|]. by rewrite Z.odd_mul, andb_false_r.
      - destruct Hp as [Hv Hodd]. exists v. unfold nr_segment_children_migrate_to_vector. cbn [is_packed].
        rewrite Hodd. split_and!; [done|done| |done]. destruct Hpow as (k & Hk & ->).
        assert (0 < 2 ^ k) by (apply Z.pow_pos_nonneg; lia). lia. }
    cbn [mbind option_bind]. rewrite Hsrc. cbn [mbind option_bind is_packed]. rewrite Hodd.
    rewrite !Nat2Z.id, Htake. destruct (Hvec v Hv Hcap Hodd) as (p' & -> & Hp').
    cbn [mbind option_bind]. by exists c', p'.
  - cbn [mbind option_bind]. rewrite Hsrc. cbn [mbind option_bind]. rewrite !Nat2Z.id, Htake.
    destruct p as [n els|v].
    + cbn [is_packed as_packed mbind option_bind]. pose proof Hp as (Hn & Hlim & Hlen & Ht).
      unfold NR_SEGMENT_CHILDREN_PACKED_LIMIT, req in *.
      destruct (put_spec els (length lp) lc) as (els' & -> & Hlen' & ->); [lia|]. cbn [mbind option_bind].
      exists c'. eexists. split; [done|]. split; [done|].
      unfold holds, NR_SEGMENT_CHILDREN_PACKED_LIMIT. rewrite length_app.
      split_and!; [lia|lia|rewrite Hlen'; lia|]. rewrite Ht, app_assoc.
      rewrite take_app_le, take_ge by (rewrite length_app; lia). done.
    + destruct Hp as [Hv Hodd]. cbn [is_packed]. rewrite Hodd.
      destruct (Hvec v Hv) as (p' & -> & Hp'); [|done|].
      { destruct Hpow as (k & Hk & ->). assert (0 < 2 ^ k) by (apply Z.pow_pos_nonneg; lia). lia. }
      cbn [mbind option_bind]. by exists c', p'.
Qed.

End Children.

(** ** Sequences of operations *)

Inductive child_op (A : Type) : Type := AddChild (a : A) | RemoveChild (a : A).
Arguments AddChild {A}.
Arguments RemoveChild {A}.

Definition run_child_op {A : Type} `{EqDecision A} (realloc_ok : Z -> bool)
  (c : option (nr_segment_children_t A)) (op : child_op A)
  : option (bool * option (nr_segment_children_t A)) :=
  match op with
  | AddChild a => nr_segment_children_add realloc_ok c (Some a)
  | RemoveChild a => nr_segment_children_remove realloc_ok c (Some a)
  end.

Fixpoint run_child_ops {A : Type} `{EqDecision A} (realloc_ok : Z -> bool)
  (c : option (nr_segment_children_t A)) (ops : list (child_op A))
  : option (list bool * option (nr_segment_children_t A)) :=
  match ops with
  | [] => Some ([], c)
  | op :: ops =>
      '(ok, c) ← run_child_op realloc_ok c op;
      '(oks, c) ← run_child_ops realloc_ok c ops;
      Some (ok :: oks, c)
  end.

(** What the operations do to a list. *)
Definition child_step {A : Type} (l : list A) (op : child_op A) (ok : bool) (l' : list A) : Prop :=
  match op with
  | AddChild a => ok = true /\ l' = l ++ [a]
  | RemoveChild a => if ok then exists l1 l2, l = l1 ++ a :: l2 /\ l' = l1 ++ l2 else (a ∉ l) /\ l' = l
  end.

Inductive child_steps {A : Type} : list A -> list (child_op A) -> list bool -> list A -> Prop :=
  | steps_nil l : child_steps l [] [] l
  | steps_cons l op ops ok oks l1 l2 :
      child_step l op ok l1 -> child_steps l1 ops oks l2 -> child_steps l (op :: ops) (ok :: oks) l2.

(** [realloc] as the properties below use it. *)
Definition roomy (realloc_ok : Z -> bool) : Prop :=
  realloc_limited realloc_ok /\ forall n, 0 <= n < 2 ^ 40 -> realloc_ok n = true.

Lemma removed_fmap {A : Type} (l : list A) (a : A) ok l' :
  removed (map Some l) (Some a) ok l' -> exists l1, l' = map Some l1 /\ child_step l (RemoveChild a) ok l1.
Proof.
  unfold removed, child_step. destruct ok.
  - intros (l1 & l2 & Hl & ->). apply fmap_app_inv in Hl as (k1 & k2 & -> & E & ->).
    symmetry in E. apply fmap_cons_inv in E as (b & k3 & [= <-] & -> & ->).
    exists (k1 ++ k3). split; [by rewrite fmap_app|]. by exists k1, k3.
  - intros [Hn ->]. exists l. split_and!; [done| |done]. intros Hin. apply Hn. by apply list_elem_of_fmap_2.
Qed.

Lemma run_child_ops_spec {A : Type} `{EqDecision A} (realloc_ok : Z -> bool) (n : nat)
  (ops : list (child_op A)) c (l : list A) :
  roomy realloc_ok -> crep c (map Some l) -> (length l + length ops <= n)%nat -> Z.of_nat n < 2 ^ 29 ->
  exists oks c' l', run_child_ops realloc_ok (Some c) ops = Some (oks, Some c')
    /\ child_steps l ops oks l' /\ crep c' (map Some l').
Proof.
  intros [Hlim Hmem]. revert c l. induction ops as [|op ops IH]; intros c l Hc Hn Hb.
  { exists [], c, l. split; [done|]. split; [constructor|done]. }
  cbn [run_child_ops]. simpl in Hn.
  assert (exists ok c1 l1, run_child_op realloc_ok (Some c) op = Some (ok, Some c1)
    /\ child_step l op ok l1 /\ crep c1 (map Some l1) /\ (length l1 <= S (length l))%nat)
    as (ok & c1 & l1 & -> & Hstep & Hc1 & Hl1).
  { destruct op as [a|a]; cbn [run_child_op].
    - destruct (nr_segment_children_add_spec realloc_ok Hlim Hmem c (map Some l) a Hc) as (c1 & -> & Hc1);
        [rewrite length_map; lia|].
      exists true, c1, (l ++ [a]). split; [done|]. split; [done|].
      split; [by rewrite map_app|rewrite length_app; simpl; lia].
    - destruct (nr_segment_children_remove_spec realloc_ok Hlim c (map Some l) a Hc) as (ok & c1 & l1 & -> & Hc1 & Hrem).
      apply removed_fmap in Hrem as (k1 & -> & Hstep). exists ok, c1, k1. do 3 (split; [done|]).
      destruct ok; simpl in Hstep; [|by destruct Hstep as [_ ->]; lia].
      destruct Hstep as (m1 & m2 & -> & ->). rewrite !length_app. simpl. lia. }
  cbn [mbind option_bind].
  destruct (IH c1 l1 Hc1) as (oks & c' & l' & -> & Hsteps & Hc'); [lia|done|]. cbn [mbind option_bind].
  exists (ok :: oks), c', l'. split; [done|]. split; [by econstructor|done].
Qed.

(** A structure fresh from the allocator: all zero, which reads as a vector without memory. *)
Definition zeroed_children (A : Type) : nr_segment_children_t A := InVector (mk_vector 0 0 [] false).

Lemma init_crep {A : Type} : exists c, nr_segment_children_init (Some (zeroed_children A)) = Some c /\ crep c [].
Proof. eexists. split; [done|]. by split_and!. Qed.

(** ** Properties *)

(* @about nr_segment_children_init nr_segment_children_add nr_segment_children_remove nr_segment_children_size nr_segment_children_get nr_segment_children_migrate_to_vector *)
(** C27 (refinement): as long as children are only added and removed, and memory lasts, the
    children of a segment are a list, packed or in a vector: every addition succeeds and
    appends, a removal takes one occurrence of the child out and reports whether there was one,
    and at the end the size and every element read are those of the list.  No access leaves
    the packed array or the vector, and the bit of the vector's capacity that serves as the tag
    [is_packed] stays clear through all growing and shrinking. *)
Theorem nr_segment_children_refines_list {A : Type} `{EqDecision A} (realloc_ok : Z -> bool)
  (ops : list (child_op A)) :
  roomy realloc_ok -> Z.of_nat (length ops) < 2 ^ 29 ->
  exists oks c l,
    run_child_ops realloc_ok (nr_segment_children_init (Some (zeroed_children A))) ops = Some (oks, Some c)
    /\ child_steps [] ops oks l
    /\ nr_segment_children_size (Some c) = Some (Z.of_nat (length l))
    /\ forall i : nat, nr_segment_children_get (Some c) (Z.of_nat i) = Some (l !! i).
Proof.
  intros Hroomy Hb. destruct (@init_crep A) as (c0 & -> & Hc0).
  destruct (run_child_ops_spec realloc_ok (length ops) ops c0 [] Hroomy Hc0) as (oks & c & l & Hrun & Hsteps & [Hc _]);
    [simpl; lia|done|].
  exists oks, c, l. split_and!; [done|done| |].
  - rewrite (holds_size c _ Hc). by rewrite length_map.
  - intros i. rewrite (holds_get c _ i Hc). f_equal. rewrite list_lookup_fmap. by destruct (l !! i).
Qed.

Lemma permissive_roomy : roomy permissive_realloc.
Proof.
  split; [apply permissive_realloc_limited|]. intros n Hn. unfold permissive_realloc. apply Z.ltb_lt. lia.
Qed.

Lemma nr_segment_children_refines_list_witness :
  exists oks c l,
    run_child_ops permissive_realloc (nr_segment_children_init (Some (zeroed_children Z)))
      [AddChild 1; AddChild 2; RemoveChild 1; RemoveChild 3] = Some (oks, Some c)
    /\ child_steps [] [AddChild 1; AddChild 2; RemoveChild 1; RemoveChild 3] oks l.
Proof.
  destruct (nr_segment_children_refines_list permissive_realloc
    [AddChild 1; AddChild 2; RemoveChild 1; RemoveChild 3]) as (oks & c & l & H & Hs & _).
  - exact permissive_roomy.
  - reflexivity.
  - exists oks, c, l. split; [exact H|exact Hs].
Defined.

(** The children of a segment to which these were added. *)
Definition with_children {A : Type} `{EqDecision A} (l : list A) : option (nr_segment_children_t A) :=
  '(_, c) ← run_child_ops permissive_realloc (nr_segment_children_init (Some (zeroed_children A)))
              (map AddChild l);
  c.

(** After a reparenting the tag may be lost.  Four children join a parent with
    five: the parent's packed array is replaced by a vector of capacity ten, which holds the
    nine children in order.  Removing five of them (each removal succeeds) lets the vector
    shrink to five slots, the capacity is odd and its lowest bit reads as [is_packed]: the
    structure claims two children instead of four, and reading the first one takes the
    vector's own fields for child pointers. *)
Theorem nr_segment_children_reparent_loses_tag :
  exists c p, with_children [6; 7; 8; 9] = Some c /\ with_children [1; 2; 3; 4; 5] = Some p
    /\ exists c' p', reparent_arrays permissive_realloc c p 4 = Some (c', p')
    /\ nr_segment_children_size (Some p') = Some 9
    /\ exists p'', run_child_ops permissive_realloc (Some p')
                     [RemoveChild 9; RemoveChild 8; RemoveChild 7; RemoveChild 6; RemoveChild 5]
                   = Some ([true; true; true; true; true], Some p'')
    /\ is_packed p'' = true
    /\ nr_segment_children_size (Some p'') = Some 2
    /\ nr_segment_children_get (Some p'') 0 = None.
Proof.
  eexists _, _. split; [vm_compute; reflexivity|]. split; [vm_compute; reflexivity|].
  eexists _, _. split; [vm_compute; reflexivity|]. split; [vm_compute; reflexivity|].
  eexists. split; [vm_compute; reflexivity|]. by vm_compute.
Qed.
