(* ===== verification/Slab.v ===== *)
(** * The slab allocator

    [util_slab.c]: segments are cut from pages that are only ever given back all at once.  A page
    is a block from [calloc] with a header of 24 bytes; the slab keeps its pages in a list with
    the current one at the head.  Addresses are integers.  [calloc] is a parameter: it sees the
    blocks that are live and answers with an address, or the process exits ([nr_zalloc] calls
    [exit] when it gets no memory), which is [None] here. *)

From S2P Require Import Prelude.

(** A block of memory: its address and its size in bytes. *)
Abbreviation block := (Z * Z)%type.

(** [sizeof(nr_slab_page_t)]: a pointer and two [size_t]. *)
Definition sizeof_page : Z := 24.

(* @map util_slab_private.h:10-20 nr_slab_page_t *)
Record nr_slab_page_t : Type := mk_page { p_addr : Z; p_capacity : Z; p_used : Z }.

(** The pages, linked through [prev], are a list. *)
(* @map util_slab_private.h:30-34 _nr_slab_t *)
Record nr_slab_t : Type := mk_slab {
  sl_head : list nr_slab_page_t;
  sl_object_size : Z;
  sl_page_size : Z;
}.

Section Slab.
(** The address of a fresh block, from the live blocks and the size. *)
Context (calloc : list block -> Z -> option Z).

(* @map util_slab.c:8-38 nr_slab_page_create *)
Definition nr_slab_page_create (live : list block) (page_size : Z)
  : option (nr_slab_page_t * list block) :=
  page ← calloc live page_size;
  Some (mk_page page (u64 (page_size - sizeof_page)) 0, (page, page_size) :: live).

(** The object size, rounded up to sixteen bytes. *)
(* @map util_slab.c:57-58 nr_slab_create *)
Definition aligned_size (object_size : Z) : Z :=
  if negb (object_size mod 16 =? 0) then u64 (16 * (object_size / 16 + 1)) else object_size.

(* @map util_slab.c:65-88 nr_slab_create *)
Definition initial_page_size (sysconf_pagesize object_size page_size : Z) : Z :=
  let sys_page_size := if sysconf_pagesize <=? 0 then 4096 else sysconf_pagesize in
  if page_size =? 0 then u64 (sys_page_size * (u64 (object_size * 4) / sys_page_size + 1))
  else u64 (sys_page_size * ((if page_size mod sys_page_size =? 0 then 0 else 1) + page_size / sys_page_size)).

(* @map util_slab.c:40-108 nr_slab_create *)
Definition nr_slab_create (sysconf_pagesize : Z) (live : list block) (object_size page_size : Z)
  : option (option nr_slab_t * list block) :=
  if object_size =? 0 then Some (None, live)
  else
    let object_size := aligned_size object_size in
    let page_size := initial_page_size sysconf_pagesize object_size page_size in
    if page_size <? u64 (object_size + sizeof_page) then Some (None, live)
    else
      '(page, live) ← nr_slab_page_create live page_size;
      Some (Some (mk_slab [page] object_size page_size), live).

(** The blocks of a list without those that start at [a]. *)
Definition release (live : list block) (a : Z) : list block :=
  filter (fun b => b.1 <> a) live.

(* @map util_slab.c:110-130 nr_slab_destroy *)
Definition nr_slab_destroy (live : list block) (slab_ptr : option (option nr_slab_t))
  : list block * option (option nr_slab_t) :=
  match slab_ptr with
  | None => (live, None)
  | Some None => (live, Some None)
  | Some (Some slab) => (foldl (fun live p => release live (p_addr p)) live (sl_head slab), Some None)
  end.

(** The largest page size that is still doubled. *)
Definition page_size_limit : Z := 4 * 1024 * 1024.

(* @map util_slab.c:132-163 nr_slab_next *)
Definition nr_slab_next (live : list block) (slab : option nr_slab_t)
  : option (option Z * option nr_slab_t * list block) :=
  match slab with
  | None => Some (None, None, live)
  | Some s =>
      match sl_head s with
      | [] => Some (None, slab, live)
      | page :: prevs =>
          if u64 (p_capacity page - p_used page) <? sl_object_size s then
            let page_size := if sl_page_size s <=? page_size_limit then u64 (sl_page_size s * 2)
                             else sl_page_size s in
            '(new_page, live) ← nr_slab_page_create live page_size;
            Some (Some (p_addr new_page + sizeof_page + p_used new_page),
                  Some (mk_slab (mk_page (p_addr new_page) (p_capacity new_page)
                                   (u64 (p_used new_page + sl_object_size s)) :: page :: prevs)
                          (sl_object_size s) page_size),
                  live)
          else
            Some (Some (p_addr page + sizeof_page + p_used page),
                  Some (mk_slab (mk_page (p_addr page) (p_capacity page)
                                   (u64 (p_used page + sl_object_size s)) :: prevs)
                          (sl_object_size s) (sl_page_size s)),
                  live)
      end
  end.

(** ** Slabs that are well formed *)

(** Two ranges of memory that do not meet. *)
Definition apart (a n b m : Z) : Prop := a + n <= b \/ b + m <= a.

(** What [calloc] promises. *)
Definition calloc_fresh : Prop := forall live n a, calloc live n = Some a ->
  0 < a /\ a + n <= 2 ^ 64 /\ a mod 16 = 0 /\ forall b, b ∈ live -> apart a n b.1 b.2.

Definition page_ok (object_size : Z) (live : list block) (p : nr_slab_page_t) : Prop :=
  0 <= p_used p <= p_capacity p /\ p_capacity p < 2 ^ 62 /\ p_addr p mod 16 = 0 /\ p_used p mod 16 = 0
  /\ 0 < p_addr p /\ p_addr p + sizeof_page + p_capacity p <= 2 ^ 64
  /\ (p_addr p, sizeof_page + p_capacity p) ∈ live.

(** Live blocks do not overlap. *)
Definition disjoint_blocks (live : list block) : Prop :=
  forall i j b c, live !! i = Some b -> live !! j = Some c -> i <> j -> apart b.1 b.2 c.1 c.2.

Record slab_ok (s : nr_slab_t) (live : list block) : Prop := {
  so_size : 0 < sl_object_size s < 2 ^ 60 /\ sl_object_size s mod 16 = 0;
  so_page_size : sizeof_page + sl_object_size s <= sl_page_size s < 2 ^ 61;
  so_pages : Forall (page_ok (sl_object_size s) live) (sl_head s);
  so_head : sl_head s <> [];
  so_distinct : NoDup (map p_addr (sl_head s));
}.

(** The address belongs to an object that the slab has handed out. *)
Definition handed_out (s : nr_slab_t) (a : Z) : Prop :=
  exists p, p ∈ sl_head s /\ p_addr p + sizeof_page <= a /\ a + sl_object_size s <= p_addr p + sizeof_page + p_used p.

Lemma apart_sym a n b m : apart a n b m -> apart b m a n.
Proof. unfold apart. tauto. Qed.

Lemma disjoint_blocks_cons (live : list block) b :
  disjoint_blocks live -> (forall c, c ∈ live -> apart b.1 b.2 c.1 c.2) -> disjoint_blocks (b :: live).
Proof.
  intros Hd Hb [|i] [|j] c d; simpl; intros Hi Hj Hij.
  - done.
  - simplify_eq. apply Hb. by eapply list_elem_of_lookup_2.
  - simplify_eq. apply apart_sym, Hb. by eapply list_elem_of_lookup_2.
  - apply (Hd i j); [done|done|lia].
Qed.

Lemma disjoint_blocks_elem (live : list block) b c :
  disjoint_blocks live -> b ∈ live -> c ∈ live -> b <> c -> apart b.1 b.2 c.1 c.2.
Proof.
  intros Hd [i Hi]%list_elem_of_lookup [j Hj]%list_elem_of_lookup Hne.
  apply (Hd i j); [done|done|congruence].
Qed.

Context (Hcalloc : calloc_fresh).

Lemma page_create_spec live n p live' :
  nr_slab_page_create live n = Some (p, live') -> sizeof_page <= n < 2 ^ 62 -> disjoint_blocks live ->
  p = mk_page (p_addr p) (n - sizeof_page) 0 /\ live' = (p_addr p, n) :: live /\ disjoint_blocks live'
  /\ 0 < p_addr p /\ p_addr p + n <= 2 ^ 64 /\ p_addr p mod 16 = 0
  /\ (forall b, b ∈ live -> apart (p_addr p) n b.1 b.2).
Proof.
  unfold nr_slab_page_create, sizeof_page. destruct (calloc live n) as [a|] eqn:E; [|done].
  cbn [mbind option_bind]. intros [= <- <-] Hn Hd. cbn [p_addr].
  destruct (Hcalloc _ _ _ E) as (Ha & Hend & Hal & Hap). rewrite u64_id by (unfold in_u64; lia).
  split_and!; try done. by apply disjoint_blocks_cons.
Qed.

Lemma page_ok_more sz live b p : page_ok sz live p -> page_ok sz (b :: live) p.
Proof. unfold page_ok. intros (H1 & H2 & H3 & H4 & H5 & H6 & H7). split_and!; try lia. by right. Qed.

Lemma mod16_add a b : a mod 16 = 0 -> b mod 16 = 0 -> (a + b) mod 16 = 0.
Proof. intros Ha Hb. rewrite Z.add_mod, Ha, Hb by lia. done. Qed.

Lemma mod16_data a u : a mod 16 = 0 -> u mod 16 = 0 -> (a + 24 + u) mod 16 = 8.
Proof. intros Ha Hu. Z.to_euclidean_division_equations. lia. Qed.

(** Using [n] more bytes of a page. *)
Definition used_more (n : Z) (p : nr_slab_page_t) : nr_slab_page_t :=
  mk_page (p_addr p) (p_capacity p) (p_used p + n).

Lemma used_more_ok sz live p :
  0 <= sz -> sz mod 16 = 0 -> p_used p + sz <= p_capacity p -> page_ok sz live p ->
  page_ok sz live (used_more sz p).
Proof.
  intros Hp Hsz Hfit (H1 & H2 & H3 & H4 & H5 & H6 & H7). unfold page_ok, used_more.
  cbn [p_addr p_capacity p_used]. split_and!; try lia; [by apply mod16_add|done].
Qed.

(** One more object at the head of the slab. *)
Definition bump (s : nr_slab_t) (page : nr_slab_page_t) prevs (page_size : Z) : nr_slab_t :=
  mk_slab (used_more (sl_object_size s) page :: prevs) (sl_object_size s) page_size.

Lemma bump_handed_out s live page prevs page_size :
  disjoint_blocks live -> Forall (page_ok (sl_object_size s) live) (page :: prevs) ->
  NoDup (map p_addr (page :: prevs)) -> 0 < sl_object_size s ->
  p_used page + sl_object_size s <= p_capacity page ->
  (forall a, handed_out s a -> exists p, p ∈ page :: prevs /\ p_addr p + sizeof_page <= a
    /\ a + sl_object_size s <= p_addr p + sizeof_page + p_used p) ->
  let a := p_addr page + sizeof_page + p_used page in
  handed_out (bump s page prevs page_size) a
  /\ forall b, handed_out s b -> handed_out (bump s page prevs page_size) b
       /\ apart a (sl_object_size s) b (sl_object_size s).
Proof.
  intros Hd Hpages Hnd Hsz Hfit Hout a. apply NoDup_cons in Hnd as [Hnotin _].
  apply Forall_cons in Hpages as [Hpage Hprevs].
  split.
  - exists (used_more (sl_object_size s) page). split; [by left|].
    destruct Hpage as (Hu & _). unfold a, used_more, bump, sizeof_page. simpl. lia.
  - intros b Hb. destruct (Hout b Hb) as (p & Hp & Hlo & Hhi). apply elem_of_cons in Hp as [->|Hp].
    + split; [|unfold apart, a; lia]. exists (used_more (sl_object_size s) page). split; [by left|].
      unfold used_more, bump, sizeof_page in *. simpl. lia.
    + split; [by exists p; split; [right|]|].
      destruct Hpage as (Hu & _ & _ & _ & _ & _ & Hin).
      rewrite Forall_forall in Hprevs. destruct (Hprevs p Hp) as (Hu' & _ & _ & _ & _ & _ & Hin').
      assert (Hne : p_addr page <> p_addr p).
      { intros E. apply Hnotin. rewrite E. by apply (list_elem_of_fmap_2 p_addr). }
      pose proof (disjoint_blocks_elem _ _ _ Hd Hin Hin') as Hap. cbn [fst snd] in Hap.
      specialize (Hap ltac:(congruence)). unfold apart, a, sizeof_page in *. lia.
Qed.

Lemma nr_slab_next_spec s live r :
  slab_ok s live -> disjoint_blocks live -> nr_slab_next live (Some s) = Some r ->
  exists a s' live' added, r = (Some a, Some s', live') /\ slab_ok s' live' /\ disjoint_blocks live'
    /\ live' = added ++ live /\ sl_object_size s' = sl_object_size s /\ a mod 16 = 8 /\ 0 < a
    /\ handed_out s' a
    /\ (forall p, p ∈ sl_head s' -> (exists q, q ∈ sl_head s /\ p_addr q = p_addr p)
          \/ forall b, b ∈ live -> 0 < b.2 -> b.1 <> p_addr p)
    /\ forall b, handed_out s b -> handed_out s' b /\ apart a (sl_object_size s) b (sl_object_size s).
Proof.
  intros [[Hsz Hal] Hps Hpages Hhead Hnd] Hd. unfold nr_slab_next.
  destruct (sl_head s) as [|page prevs] eqn:Es; [done|].
  pose proof (Forall_inv Hpages) as Hpage. pose proof Hpage as (Hu & Hc & Hpa & Hua & Hpos & Hend & Hin).
  unfold sizeof_page in *. rewrite u64_id by (unfold in_u64; lia).
  destruct (Z.ltb_spec (p_capacity page - p_used page) (sl_object_size s)) as [Hfull|Hfits].
  - set (n := if _ <=? _ then _ else _).
    assert (Hn : 24 + sl_object_size s <= n < 2 ^ 61).
    { unfold n, page_size_limit. destruct (Z.leb_spec (sl_page_size s) (4 * 1024 * 1024)); [|lia].
      rewrite u64_id by (unfold in_u64; lia). lia. }
    clearbody n. destruct (nr_slab_page_create live n) as [[p live']|] eqn:Ep; [|done].
    cbn [mbind option_bind]. intros [= <-].
    destruct (page_create_spec _ _ _ _ Ep) as (Hp & -> & Hd' & Hp0 & Hpend & Hp16 & Hap);
      [unfold sizeof_page; lia|done|].
    rewrite Hp. cbn [p_addr p_capacity p_used]. clear Hp Ep. rewrite Z.add_0_l, u64_id by (unfold in_u64; lia).
    set (p' := mk_page (p_addr p) (n - 24) 0).
    assert (Hpages' : Forall (page_ok (sl_object_size s) ((p_addr p, n) :: live)) (p' :: page :: prevs)).
    { constructor.
      - unfold page_ok, p', sizeof_page. cbn [p_addr p_capacity p_used].
        replace (24 + (n - 24)) with n by lia. split_and!; try lia; [done|by left].
      - eapply Forall_impl; [exact Hpages|]. intros q. by apply page_ok_more. }
    assert (Hnd' : NoDup (map p_addr (p' :: page :: prevs))).
    { change (map p_addr (p' :: page :: prevs)) with (p_addr p' :: (p_addr <$> page :: prevs)).
      apply NoDup_cons. split; [|done]. intros (q & Hq & Hqin)%list_elem_of_fmap.
      rewrite Forall_forall in Hpages. destruct (Hpages q Hqin) as (Hqu & _ & _ & _ & _ & _ & Hqb).
      specialize (Hap _ Hqb). cbn [fst snd] in Hap. unfold p' in Hq. cbn [p_addr] in Hq.
      unfold apart, sizeof_page in *. lia. }
    destruct (bump_handed_out s ((p_addr p, n) :: live) p' (page :: prevs) n Hd' Hpages' Hnd') as [Ha Hb];
      [lia|unfold p'; cbn; lia| |].
    { intros a (q & Hq & Hlo & Hhi). rewrite Es in Hq. exists q. split; [by right|done]. }
    exists (p_addr p + 24 + 0), (bump s p' (page :: prevs) n), ((p_addr p, n) :: live), [(p_addr p, n)].
    split_and!; try done; [| |lia|].
    3:{ intros q [->|Hq]%elem_of_cons; [|left; by exists q]. right. intros b Hbin Hpos'.
        specialize (Hap b Hbin). cbn. unfold apart in Hap. lia. }
    + constructor; cbn [bump sl_object_size sl_page_size sl_head]; [done|unfold sizeof_page; lia| |done|done].
      apply Forall_cons in Hpages' as [Hp' ?]. constructor; [|done].
      apply used_more_ok; [lia|done|unfold p'; cbn; lia|done].
    + by apply mod16_data.
  - intros [= <-]. rewrite u64_id by (unfold in_u64; lia).
    destruct (bump_handed_out s live page prevs (sl_page_size s) Hd Hpages Hnd) as [Ha Hb]; [lia|lia| |].
    { intros a (q & Hq & Hlo & Hhi). rewrite Es in Hq. by exists q. }
    exists (p_addr page + 24 + p_used page), (bump s page prevs (sl_page_size s)), live, [].
    split_and!; try done; [| |lia|].
    3:{ intros q [->|Hq]%elem_of_cons; left; [exists page|exists q]; (split; [|done]);
        [by left|by right]. }
    + constructor; cbn [bump sl_object_size sl_page_size sl_head]; [done|done| |done|done].
      apply Forall_cons in Hpages as [? ?]. constructor; [|done]. apply used_more_ok; [lia|done|lia|done].
    + by apply mod16_data.
Qed.

Lemma aligned_size_spec n :
  0 < n < 2 ^ 58 -> n <= aligned_size n < n + 16 /\ aligned_size n mod 16 = 0.
Proof.
  intros Hn. unfold aligned_size. destruct (Z.eqb_spec (n mod 16) 0); cbn [negb]; [lia|].
  assert (n < 16 * (n / 16 + 1) < n + 16) by (Z.to_euclidean_division_equations; lia).
  rewrite u64_id by (unfold in_u64; lia). split; [lia|]. by rewrite Z.mul_comm, Z.mod_mul by lia.
Qed.

Lemma initial_page_size_bound sys n page_size :
  sys < 2 ^ 30 -> 0 <= n < 2 ^ 58 + 16 -> 0 <= page_size < 2 ^ 60 ->
  initial_page_size sys n page_size < 2 ^ 61.
Proof.
  intros Hsys Hn Hps. unfold initial_page_size.
  set (sp := if sys <=? 0 then 4096 else sys).
  assert (Hsp : 0 < sp < 2 ^ 30) by (unfold sp; destruct (Z.leb_spec sys 0); lia). clearbody sp.
  assert (Hround : forall a, 0 <= a < 2 ^ 60 + 64 -> 0 <= sp * (a / sp + 1) < 2 ^ 61).
  { intros a Ha. pose proof (Z.mul_div_le a sp). pose proof (Z.div_pos a sp). nia. }
  destruct (Z.eqb_spec page_size 0).
  - rewrite (u64_id (n * 4)) by (unfold in_u64; lia). rewrite u64_id; [apply Hround; lia|].
    pose proof (Hround (n * 4)). unfold in_u64. lia.
  - assert (0 <= sp * ((if page_size mod sp =? 0 then 0 else 1) + page_size / sp) < 2 ^ 61).
    { specialize (Hround page_size). pose proof (Z.div_pos page_size sp). case_if; nia. }
    rewrite u64_id by (unfold in_u64; lia). lia.
Qed.

Lemma nr_slab_create_spec sys live n page_size s live' :
  sys < 2 ^ 30 -> 0 < n < 2 ^ 58 -> 0 <= page_size < 2 ^ 60 -> disjoint_blocks live ->
  nr_slab_create sys live n page_size = Some (Some s, live') ->
  slab_ok s live' /\ disjoint_blocks live' /\ sl_object_size s = aligned_size n
  /\ (forall a, ~ handed_out s a) /\ exists b, live' = b :: live.
Proof.
  intros Hsys Hn Hps Hd. unfold nr_slab_create. destruct (Z.eqb_spec n 0); [done|].
  destruct (aligned_size_spec n Hn) as [Hal Hal16].
  pose proof (initial_page_size_bound sys (aligned_size n) page_size Hsys) as Hip.
  set (ps := initial_page_size _ _ _) in *. clearbody ps. set (sz := aligned_size n) in *. clearbody sz.
  unfold sizeof_page. rewrite u64_id by (unfold in_u64; lia). destruct (Z.ltb_spec ps (sz + 24)); [done|].
  destruct (nr_slab_page_create live ps) as [[p live1]|] eqn:Ep; [|done]. cbn [mbind option_bind].
  intros [= <- <-].
  destruct (page_create_spec _ _ _ _ Ep) as (Hp & -> & Hd' & Hp0 & Hpend & Hp16 & Hap);
    [unfold sizeof_page; lia|done|].
  unfold sizeof_page in Hp. rewrite Hp.
  split_and!; [|done|done| |by eexists].
  - constructor; cbn [sl_object_size sl_page_size sl_head]; [lia|unfold sizeof_page; lia| |done|].
    + constructor; [|constructor]. unfold page_ok, sizeof_page. cbn [p_addr p_capacity p_used].
      replace (24 + (ps - 24)) with ps by lia. split_and!; try lia; [done|by left].
    + by apply NoDup_cons; split; [apply not_elem_of_nil|constructor].
  - intros a (q & Hq & Hlo & Hhi). cbn [sl_head] in Hq. apply list_elem_of_singleton in Hq as ->.
    cbn in Hlo, Hhi. lia.
Qed.

(** A slab is not created only for objects of no size, or for a page they do not fit in. *)
Lemma nr_slab_create_none sys live n page_size r :
  nr_slab_create sys live n page_size = Some (None, r) ->
  r = live /\ (n = 0 \/ initial_page_size sys (aligned_size n) page_size < u64 (aligned_size n + sizeof_page)).
Proof.
  unfold nr_slab_create. destruct (Z.eqb_spec n 0); [by intros [= <-]; auto|].
  destruct (Z.ltb_spec (initial_page_size sys (aligned_size n) page_size) (u64 (aligned_size n + sizeof_page)));
    [by intros [= <-]; auto|].
  by destruct (nr_slab_page_create _ _) as [[? ?]|].
Qed.

(** The current page has no room for another object. *)
Definition page_full (s : nr_slab_t) : Prop :=
  exists page prevs, sl_head s = page :: prevs /\ p_capacity page - p_used page < sl_object_size s.

(** The size that the page after the current one is to have: twice as much, up to a limit. *)
Definition next_page_size (s : nr_slab_t) : Z :=
  if decide (sl_page_size s <= 4194304) then 2 * sl_page_size s else sl_page_size s.

(** The process exits only when the page is full and [calloc] has no memory for the next. *)
Lemma nr_slab_next_exit live s :
  slab_ok s live -> nr_slab_next live (Some s) = None -> page_full s /\ calloc live (next_page_size s) = None.
Proof.
  intros [[Hsz _] Hps Hpages Hhead _]. unfold nr_slab_next, page_full, next_page_size, page_size_limit. unfold sizeof_page in Hps.
  destruct (sl_head s) as [|page prevs]; [done|].
  apply Forall_inv in Hpages as (Hu & Hc & _). rewrite u64_id by (unfold in_u64; lia).
  destruct (Z.ltb_spec (p_capacity page - p_used page) (sl_object_size s)) as [Hfull|Hfits]; [|done].
  unfold nr_slab_page_create. intros E. split; [by exists page, prevs|].
  replace (if decide _ then _ else _) with
    (if sl_page_size s <=? 4 * 1024 * 1024 then u64 (sl_page_size s * 2) else sl_page_size s); [by destruct (calloc live _)|].
  destruct (Z.leb_spec (sl_page_size s) (4 * 1024 * 1024)); case_decide; try lia. rewrite u64_id by (unfold in_u64; lia). lia.
Qed.

(** ** Many objects *)

Fixpoint take_objects (n : nat) (live : list block) (slab : option nr_slab_t)
  : option (list (option Z) * option nr_slab_t * list block) :=
  match n with
  | O => Some ([], slab, live)
  | S n =>
      '(a, slab, live) ← nr_slab_next live slab;
      '(l, slab, live) ← take_objects n live slab;
      Some (a :: l, slab, live)
  end.

(** The objects at these addresses do not overlap. *)
Definition objects_apart (size : Z) (l : list (option Z)) : Prop :=
  forall i j a b, l !! i = Some (Some a) -> l !! j = Some (Some b) -> i <> j -> apart a size b size.

(** One of [n] requests found the page full and no memory for another, after those before it gave
    their objects. *)
Definition exhausted (n : nat) (live : list block) (s : nr_slab_t) : Prop :=
  exists i l s' live', (i < n)%nat /\ take_objects i live (Some s) = Some (l, Some s', live')
    /\ page_full s' /\ calloc live' (next_page_size s') = None.

Lemma exhausted_later n live s a s1 live1 :
  nr_slab_next live (Some s) = Some (Some a, Some s1, live1) -> exhausted n live1 s1 -> exhausted (S n) live s.
Proof.
  intros E (i & l & s' & live' & Hi & Et & Hfull & Hnone). exists (S i), (Some a :: l), s', live'.
  split; [lia|]. split; [|done]. cbn [take_objects]. rewrite E. cbn [mbind option_bind]. by rewrite Et.
Qed.

Lemma take_objects_spec n live s :
  slab_ok s live -> disjoint_blocks live ->
  match take_objects n live (Some s) with
  | Some (l, s', live') => exists t, s' = Some t /\ slab_ok t live' /\ length l = n
      /\ sl_object_size t = sl_object_size s
      /\ objects_apart (sl_object_size s) l
      /\ (forall oa, oa ∈ l -> exists a, oa = Some a /\ 0 < a /\ a mod 16 = 8 /\ handed_out t a
            /\ forall b, handed_out s b -> apart a (sl_object_size s) b (sl_object_size s))
      /\ forall b, handed_out s b -> handed_out t b
  | None => exhausted n live s
  end.
Proof.
  revert live s. induction n as [|n IH]; intros live s Hs Hd; cbn [take_objects].
  { exists s. split_and!; try done. intros oa Hoa. by apply elem_of_nil in Hoa. }
  destruct (nr_slab_next live (Some s)) as [r|] eqn:E.
  2:{ destruct (nr_slab_next_exit _ _ Hs E). cbn. exists 0%nat, [], s, live. split_and!; [lia|done..]. }
  destruct (nr_slab_next_spec _ _ _ Hs Hd E) as
    (a & s1 & live1 & added & -> & Hs1 & Hd1 & _ & Hsz & Hal & Hpos & Hout & _ & Hold).
  simpl. specialize (IH live1 s1 Hs1 Hd1).
  destruct (take_objects n live1 (Some s1)) as [[[l s2] live2]|]; [|by eapply exhausted_later].
  cbn [mbind option_bind]. destruct IH as (t & -> & Ht & Hl & Hszt & Hap & Hall & Hkeep).
  rewrite Hsz in *. exists t. split_and!; try done; [by simpl; f_equal| | |].
  - assert (Hfirst : forall j b, l !! j = Some (Some b) -> apart b (sl_object_size s) a (sl_object_size s)).
    { intros j b Hj. destruct (Hall (Some b)) as (b' & [= <-] & _ & _ & _ & Hb).
      { by eapply list_elem_of_lookup_2. } by apply Hb. }
    intros [|i] [|j] x y; simpl; intros Hi Hj Hij; simplify_eq.
    + apply apart_sym. by eapply Hfirst.
    + by eapply Hfirst.
    + apply (Hap i j); [done|done|lia].
  - intros oa [->|Hin]%elem_of_cons.
    + exists a. split_and!; try done; [by apply Hkeep|]. intros b Hb. by apply Hold.
    + destruct (Hall oa Hin) as (b & -> & ? & ? & ? & Hb). exists b. split_and!; try done.
      intros c Hc. by apply Hb, Hold.
  - intros b Hb. by apply Hkeep, Hold.
Qed.

End Slab.

(** ** The allocator as its clients see it *)

(** What the segments rely on.  [S] is the state of one allocator and [M] the memory they all
    share; several allocators are in use at once, one per transaction, named by a [positive].
    The object that an allocator gives is none of those given so far by any of them. *)
Class ObjectAllocator (S M : Type) : Type := {
  oa_next : M -> option S -> option (option Z * option S * M);
  oa_ok : M -> gmap positive S -> gset Z -> Prop;
  oa_null : forall m, oa_next m None = Some (None, None, m);
  oa_next_law : forall m slabs given t s r,
    oa_ok m slabs given -> slabs !! t = Some s -> oa_next m (Some s) = Some r ->
    exists a s' m', r = (Some a, Some s', m') /\ (a ∉ given) /\ oa_ok m' (<[t := s']> slabs) ({[a]} ∪ given);
}.

Section Allocator.
Context (calloc : list block -> Z -> option Z) (Hcalloc : calloc_fresh calloc).

(** The slabs use different pages, and every object is in one of them. *)
Record slabs_ok (live : list block) (slabs : gmap positive nr_slab_t) (given : gset Z) : Prop := {
  ss_blocks : disjoint_blocks live;
  ss_each : forall t s, slabs !! t = Some s -> slab_ok s live;
  ss_apart : forall t1 t2 s1 s2 p1 p2, slabs !! t1 = Some s1 -> slabs !! t2 = Some s2 -> t1 <> t2 ->
    p1 ∈ sl_head s1 -> p2 ∈ sl_head s2 -> p_addr p1 <> p_addr p2;
  ss_given : forall a, a ∈ given -> exists t s, slabs !! t = Some s /\ handed_out s a;
}.

Lemma slab_page_ok s live p : slab_ok s live -> p ∈ sl_head s -> page_ok (sl_object_size s) live p.
Proof. intros Hs. pose proof (so_pages _ _ Hs) as H. rewrite Forall_forall in H. apply H. Qed.

(** Objects of pages at different addresses are different. *)
Lemma objects_differ s1 s2 live p1 p2 a b :
  disjoint_blocks live -> page_ok (sl_object_size s1) live p1 -> page_ok (sl_object_size s2) live p2 ->
  0 < sl_object_size s1 -> 0 < sl_object_size s2 -> p_addr p1 <> p_addr p2 ->
  p_addr p1 + sizeof_page <= a -> a + sl_object_size s1 <= p_addr p1 + sizeof_page + p_used p1 ->
  p_addr p2 + sizeof_page <= b -> b + sl_object_size s2 <= p_addr p2 + sizeof_page + p_used p2 -> a <> b.
Proof.
  intros Hd (Hu1 & _ & _ & _ & _ & _ & Hin1) (Hu2 & _ & _ & _ & _ & _ & Hin2) Hz1 Hz2 Hne. intros.
  pose proof (disjoint_blocks_elem _ _ _ Hd Hin1 Hin2) as Hap. cbn [fst snd] in Hap.
  specialize (Hap ltac:(congruence)). unfold apart, sizeof_page in *. lia.
Qed.

Lemma slab_ok_more s live added : slab_ok s live -> slab_ok s (added ++ live).
Proof.
  intros [Hsz Hps Hpages Hhead Hnd]. constructor; [done|done| |done|done].
  eapply Forall_impl; [exact Hpages|]. intros p (? & ? & ? & ? & ? & ? & ?).
  unfold page_ok. split_and!; try lia. by apply elem_of_app; right.
Qed.

Lemma slabs_ok_next live slabs given t s r :
  slabs_ok live slabs given -> slabs !! t = Some s -> nr_slab_next calloc live (Some s) = Some r ->
  exists a s' live', r = (Some a, Some s', live') /\ (a ∉ given)
    /\ slabs_ok live' (<[t := s']> slabs) ({[a]} ∪ given).
Proof.
  intros [Hd Heach Hap Hgiven] Hs Hnext.
  destruct (nr_slab_next_spec calloc Hcalloc _ _ _ (Heach _ _ Hs) Hd Hnext) as
    (a & s' & live' & added & -> & Hs' & Hd' & -> & Hsz & _ & _ & Hout & Hpages & Hold).
  exists a, s', (added ++ live). split; [done|].
  assert (Hother : forall t2 s2 p1 p2, slabs !! t2 = Some s2 -> t <> t2 -> p1 ∈ sl_head s' ->
    p2 ∈ sl_head s2 -> p_addr p1 <> p_addr p2).
  { intros t2 s2 p1 p2 H2 Ht Hp1 Hp2. destruct (Hpages p1 Hp1) as [(q & Hq & <-)|Hfresh].
    - by apply (Hap t t2 s s2).
    - destruct (slab_page_ok _ _ _ (Heach _ _ H2) Hp2) as (Hu & _ & _ & _ & _ & _ & Hin).
      intros E. apply (Hfresh _ Hin); [|by rewrite E]. cbn. unfold sizeof_page. lia. }
  split.
  - intros Hin. destruct (Hgiven a Hin) as (t2 & s2 & H2 & Hout2). destruct (decide (t = t2)) as [<-|Hne].
    + simplify_eq. destruct (Hold a Hout2) as [_ Hself].
      pose proof (so_size _ _ (Heach _ _ Hs)). unfold apart in Hself. lia.
    + destruct Hout as (p1 & Hp1 & ? & ?), Hout2 as (p2 & Hp2 & ? & ?).
      assert (Hs2 : slab_ok s2 (added ++ live)) by (by apply slab_ok_more, (Heach t2)).
      pose proof (so_size _ _ Hs2). pose proof (so_size _ _ Hs').
      eapply (objects_differ s' s2 (added ++ live) p1 p2 a a); try done; try lia;
        [by apply slab_page_ok|by apply slab_page_ok|by eapply Hother].
  - constructor; [done| | |].
    + intros t2 s2 [[<- <-]|[? H2]]%lookup_insert_Some; [done|]. by apply slab_ok_more, (Heach t2).
    + intros t1 t2 s1 s2 p1 p2 [[<- <-]|[? H1]]%lookup_insert_Some [[<- <-]|[? H2]]%lookup_insert_Some Hne Hp1 Hp2.
      * done.
      * by eapply Hother.
      * intros E. by eapply (Hother t1 s1 p2 p1).
      * by apply (Hap t1 t2 s1 s2).
    + intros b [->%elem_of_singleton|Hb]%elem_of_union; [exists t, s'; by rewrite lookup_insert_eq|].
      destruct (Hgiven b Hb) as (t2 & s2 & H2 & Hout2). destruct (decide (t = t2)) as [<-|Hne].
      * simplify_eq. exists t, s'. rewrite lookup_insert_eq. split; [done|]. by apply Hold.
      * exists t2, s2. by rewrite lookup_insert_ne.
Qed.

#[export] Instance slab_allocator : ObjectAllocator nr_slab_t (list block).
Proof.
  refine {| oa_next := nr_slab_next calloc; oa_ok := slabs_ok |}; [done|].
  intros. by eapply slabs_ok_next.
Defined.

End Allocator.

(** ** Properties *)

(* @about nr_slab_create nr_slab_next nr_slab_page_create aligned_size initial_page_size *)
(** C33 (safety): the objects a slab hands out never share memory.  A slab is created for
    objects of [n] bytes and [k] of them are taken: every one of the [k] requests gives an object,
    any two of them are at least [n] bytes apart, and every object lies in the used part of a page
    that is a live block; unless the process exits, and then at a request that found the current
    page full and for which [calloc] had no page of the next size, which is twice the last one until
    4 MB are passed.  So while there is memory, every request is served.
    Although [n] is rounded up to a multiple of sixteen so that objects are aligned, no object
    ever is: behind the header of 24 bytes its address is eight more than a multiple of sixteen. *)
Theorem nr_slab_objects_disjoint (calloc : list block -> Z -> option Z) (sys n page_size : Z)
  (live live1 : list block) (s : nr_slab_t) (k : nat) :
  calloc_fresh calloc -> disjoint_blocks live ->
  sys < 2 ^ 30 -> 0 < n < 2 ^ 58 -> 0 <= page_size < 2 ^ 60 ->
  nr_slab_create calloc sys live n page_size = Some (Some s, live1) ->
  match take_objects calloc k live1 (Some s) with
  | Some (l, Some s', live2) =>
      length l = k /\ objects_apart n l
      /\ forall oa, oa ∈ l -> exists a p, oa = Some a /\ a mod 16 = 8
           /\ p ∈ sl_head s' /\ (p_addr p, sizeof_page + p_capacity p) ∈ live2
           /\ p_addr p + sizeof_page <= a /\ a + n <= p_addr p + sizeof_page + p_used p
           /\ p_used p <= p_capacity p
  | Some (_, None, _) => False
  | None => exhausted calloc k live1 s
  end
  /\ ((forall live n, calloc live n <> None) -> take_objects calloc k live1 (Some s) <> None).
Proof.
  intros Hc Hd Hsys Hn Hps Hcreate.
  destruct (nr_slab_create_spec calloc Hc _ _ _ _ _ _ Hsys Hn Hps Hd Hcreate) as (Hs & Hd1 & Hsz & _ & _).
  destruct (aligned_size_spec n Hn) as [Hal _].
  pose proof (take_objects_spec calloc Hc k live1 s Hs Hd1) as Ht.
  destruct (take_objects calloc k live1 (Some s)) as [[[l s'] live2]|].
  2:{ split; [done|]. destruct Ht as (i & l & s' & live' & _ & _ & _ & Hnone). intros Hmem. by destruct (Hmem _ _ Hnone). }
  split; [|done]. destruct Ht as (t & -> & Hok & Hl & Hszt & Hap & Hall & _). split_and!; [done| |].
  - intros i j a b Hi Hj Hij. specialize (Hap i j a b Hi Hj Hij). unfold apart in *. lia.
  - intros oa Hoa. destruct (Hall oa Hoa) as (a & -> & _ & Ha & (p & Hp & Hlo & Hhi) & _).
    pose proof (so_pages _ _ Hok) as Hpages. rewrite Forall_forall in Hpages.
    destruct (Hpages p Hp) as (Hu & _ & _ & _ & _ & _ & Hin).
    exists a, p. split_and!; try done; lia.
Qed.

(** An allocator that goes up through the address space. *)
Definition bump_calloc (live : list block) (n : Z) : option Z :=
  let top := foldr (fun b m => Z.max (b.1 + b.2) m) 0 live in
  let a := 16 * (top / 16 + 1) in
  if a + n <=? 2 ^ 64 then Some a else None.

Lemma bump_calloc_fresh : calloc_fresh bump_calloc.
Proof.
  intros live n a. unfold bump_calloc. set (top := foldr _ _ _).
  assert (Htop : 0 <= top /\ forall b, b ∈ live -> b.1 + b.2 <= top).
  { unfold top. clear. induction live as [|c live IH]; simpl; [split; [lia|]; by intros b Hb%elem_of_nil|].
    split; [lia|]. intros b [->|Hb]%elem_of_cons; [lia|]. apply IH in Hb. lia. }
  destruct Htop as [H0 Htop]. clearbody top. destruct (Z.leb_spec (16 * (top / 16 + 1) + n) (2 ^ 64)); [|done].
  intros [= <-]. assert (top < 16 * (top / 16 + 1)) by (Z.to_euclidean_division_equations; lia).
  split_and!; [lia|lia|by rewrite Z.mul_comm, Z.mod_mul by lia|].
  intros b Hb. specialize (Htop b Hb). right. lia.
Qed.

Lemma nr_slab_objects_disjoint_witness :
  exists s live1 l s' live2,
    nr_slab_create bump_calloc 4096 [] 100 0 = Some (Some s, live1)
    /\ take_objects bump_calloc 40 live1 (Some s) = Some (l, Some s', live2)
    /\ length l = 40%nat /\ objects_apart 100 l.
Proof.
  assert (exists s live1, nr_slab_create bump_calloc 4096 [] 100 0 = Some (Some s, live1)
    /\ exists l s' live2, take_objects bump_calloc 40 live1 (Some s) = Some (l, Some s', live2))
    as (s & live1 & E & l & s' & live2 & T).
  { do 2 eexists. split; [vm_compute; reflexivity|]. do 3 eexists. vm_compute. reflexivity. }
  exists s, live1, l, s', live2. split; [exact E|]. split; [exact T|].
  assert (H := nr_slab_objects_disjoint bump_calloc 4096 100 0 [] live1 s 40 bump_calloc_fresh).
  rewrite T in H. destruct H as [(Hl & Hap & _) _].
  - intros i j b c Hi. by rewrite lookup_nil in Hi.
  - lia.
  - lia.
  - lia.
  - exact E.
  - split; [exact Hl|exact Hap].
Defined.
