(* ===== verification/Txn.v ===== *)
(** * Transactions: data and the operations that touch no segment

    [nr_txn.h], [nr_segment.h] and [nr_errors.c]: the structures of a transaction and of its
    segments, the memory they live in, and the operations of [nr_txn.c] that work on the
    transaction alone: naming, errors, background status, ignoring, custom metrics.

    A [nrtxn_t*] is a [positive], a [nr_segment_t*] the address the slab gave (a [Z]); [None] is
    NULL.  An operation takes the memory and gives its result with the new memory; it is [None]
    when the C code would follow a pointer that leads nowhere, overflow an [int] or not end.  The
    strings of a transaction are in a pool with the interface [NamePool]. *)

From S2P Require Import Prelude Strings Hash HashTree Time StringPool Datastore Slowsqls.
From S2P Require Import Metrics Vector HashMap ExclusiveTime SegmentChildren Slab.
From Stdlib Require Import SpecFloat.

(** ** Options and status *)

(* @map nr_txn.h:36-40 nr_tt_recordsql_t *)
Inductive nr_tt_recordsql_t : Type := NR_SQL_NONE | NR_SQL_RAW | NR_SQL_OBFUSCATED.

(** A C [int] or [bool] used as a flag is a [Z], 0 for false. *)
(* @map nr_txn.h:50-91 nrtxnopt_t *)
Record nrtxnopt_t : Type := mk_options {
  custom_events_enabled : Z;
  synthetics_enabled : Z;
  instance_reporting_enabled : Z;
  database_name_reporting_enabled : Z;
  err_enabled : Z;
  request_params_enabled : Z;
  autorum_enabled : Z;
  analytics_events_enabled : Z;
  error_events_enabled : Z;
  tt_enabled : Z;
  ep_enabled : Z;
  tt_recordsql : nr_tt_recordsql_t;
  tt_slowsql : Z;
  apdex_t : Z;
  tt_threshold : Z;
  tt_is_apdex_f : Z;
  ep_threshold : Z;
  ss_threshold : Z;
  cross_process_enabled : Z;
  allow_raw_exception_messages : Z;
  custom_parameters_enabled : Z;
  distributed_tracing_enabled : Z;
  span_events_enabled : Z;
  max_span_events : Z;
  discount_main_context_blocking : bool;
}.

(* @map nr_txn.h:107-114 nr_path_type_t *)
Inductive nr_path_type_t : Type :=
  | NR_PATH_TYPE_UNKNOWN
  | NR_PATH_TYPE_URI
  | NR_PATH_TYPE_STATUS_CODE
  | NR_PATH_TYPE_ACTION
  | NR_PATH_TYPE_FUNCTION
  | NR_PATH_TYPE_CUSTOM.

(** The numbers of the constants. *)
Definition path_type_int (p : nr_path_type_t) : Z :=
  match p with
  | NR_PATH_TYPE_UNKNOWN => 0
  | NR_PATH_TYPE_URI => 1
  | NR_PATH_TYPE_STATUS_CODE => 2
  | NR_PATH_TYPE_ACTION => 3
  | NR_PATH_TYPE_FUNCTION => 4
  | NR_PATH_TYPE_CUSTOM => 5
  end.

(* @map nr_txn.h:354-357 nr_txn_assignment_t *)
Inductive nr_txn_assignment_t : Type := NR_NOT_OK_TO_OVERWRITE | NR_OK_TO_OVERWRITE.

#[export] Instance nr_path_type_t_eq_dec : EqDecision nr_path_type_t.
Proof. solve_decision. Defined.
#[export] Instance nr_txn_assignment_t_eq_dec : EqDecision nr_txn_assignment_t.
Proof. solve_decision. Defined.

(** Without the fields of the headers of web requests, which the SDK never sets. *)
(* @map nr_txn.h:124-142 nrtxnstatus_t *)
Record nrtxnstatus_t : Type := mk_status {
  path_is_frozen : Z;
  path_type : nr_path_type_t;
  ignore : Z;
  ignore_apdex : Z;
  background : Z;
  recording : Z;
  complete : bool;
}.

(** ** Errors *)

(* @map nr_errors_private.h:18-24 _nr_error_t *)
Record nr_error_t : Type := mk_error {
  e_when : Z;
  e_priority : Z;
  e_message : cstr;
  e_klass : cstr;
  e_stacktrace_json : cstr;
}.

(* @map nr_errors.c:11-36 nr_error_create *)
Definition nr_error_create (priority : Z) (message klass stacktrace_json : option cstr) (when : Z)
  : option nr_error_t :=
  match message, klass, stacktrace_json with
  | Some message, Some klass, Some stacktrace_json =>
      Some (mk_error when priority (c_str message) (c_str klass) (c_str stacktrace_json))
  | _, _, _ => None
  end.

(* @map nr_errors.c:38-43 nr_error_get_message *)
Definition nr_error_get_message (error : option nr_error_t) : option cstr := e_message <$> error.

(* @map nr_errors.c:45-50 nr_error_get_klass *)
Definition nr_error_get_klass (error : option nr_error_t) : option cstr := e_klass <$> error.

(* @map nr_errors.c:52-57 nr_error_get_time *)
Definition nr_error_get_time (error : option nr_error_t) : Z := from_option e_when 0 error.

(* @map nr_errors.c:59-64 nr_error_priority *)
Definition nr_error_priority (error : option nr_error_t) : Z := from_option e_priority 0 error.

(* @map nr_errors.c:66-80 nr_error_destroy *)
Definition nr_error_destroy (error_ptr : option (option nr_error_t)) : option (option nr_error_t) :=
  match error_ptr with
  | None => None
  | Some None => Some None
  | Some (Some _) => Some None
  end.

(** ** Segments *)

Abbreviation seg_ptr := Z.
Abbreviation txn_ptr := positive.
Abbreviation stack_ptr := positive.

(* @map nr_segment.h:28-32 nr_segment_type_t *)
Inductive nr_segment_type_t : Type := NR_SEGMENT_CUSTOM | NR_SEGMENT_DATASTORE | NR_SEGMENT_EXTERNAL.

#[export] Instance nr_segment_type_t_eq_dec : EqDecision nr_segment_type_t.
Proof. solve_decision. Defined.

(* @map nr_segment.h:58-61 nr_segment_color_t *)
Inductive nr_segment_color_t : Type := NR_SEGMENT_WHITE | NR_SEGMENT_GREY.

#[export] Instance nr_segment_color_t_eq_dec : EqDecision nr_segment_color_t.
Proof. solve_decision. Defined.

(* @map nr_segment.h:80-82 NR_SEGMENT_PRIORITY_ROOT *)
Definition NR_SEGMENT_PRIORITY_ROOT : Z := Z.shiftl 1 16.
Definition NR_SEGMENT_PRIORITY_DT : Z := Z.shiftl 1 15.
Definition NR_SEGMENT_PRIORITY_LOG : Z := Z.shiftl 1 14.

(* @map nr_segment.h:84-92 nr_segment_datastore_t *)
Record nr_segment_datastore_t : Type := mk_datastore {
  ds_component : option cstr;
  ds_sql : option cstr;
  ds_sql_obfuscated : option cstr;
  ds_input_query_json : option cstr;
  ds_backtrace_json : option cstr;
  ds_explain_plan_json : option cstr;
  ds_instance : nr_datastore_instance_t;
}.

(* @map nr_segment.h:94-99 nr_segment_external_t *)
Record nr_segment_external_t : Type := mk_external {
  ex_transaction_guid : option cstr;
  ex_uri : option cstr;
  ex_library : option cstr;
  ex_procedure : option cstr;
}.

(** The union of the typed attributes: as it comes from the allocator, or the member that was
    written last. *)
(* @map nr_segment.h:160-163 _nr_segment_typed_attributes_t *)
Inductive typed_attributes_t : Type :=
  | Zeroed
  | Datastore (d : nr_segment_datastore_t)
  | External (e : nr_segment_external_t).

(* @map nr_segment.h:101-104 nr_segment_metric_t *)
Record nr_segment_metric_t : Type := mk_segment_metric { sm_name : cstr; sm_scoped : bool }.

(** Without [user_attributes], an object that no operation of the model touches. *)
(* @map nr_segment.h:106-164 nr_segment_t *)
Record nr_segment_t : Type := mk_segment {
  s_type : nr_segment_type_t;
  s_txn : option txn_ptr;
  s_parent : option seg_ptr;
  s_children : nr_segment_children_t seg_ptr;
  s_color : nr_segment_color_t;
  s_start_time : Z;
  s_stop_time : Z;
  s_count : Z;
  s_name : Z;
  s_async_context : Z;
  s_id : option cstr;
  s_metrics : option (nr_vector_t nr_segment_metric_t);
  s_exclusive_time : option nr_exclusive_time_t;
  s_priority : Z;
  s_typed_attributes : typed_attributes_t;
}.

(** Memory from [calloc]. *)
Definition zeroed_segment : nr_segment_t :=
  mk_segment NR_SEGMENT_CUSTOM None None (zeroed_children seg_ptr) NR_SEGMENT_WHITE 0 0 0 0 0 None None None 0 Zeroed.

(** ** Transactions *)

(** The fields the modelled operations use; [S] is the slab, [P] the string pool.  Not modelled:
    the attributes, the intrinsics, distributed tracing, synthetics and the products of
    [nr_txn_end]. *)
(* @map nr_txn.h:188-265 nrtxn_t *)
Record nrtxn_t (S P : Type) : Type := mk_txn {
  t_high_security : Z;
  t_options : nrtxnopt_t;
  t_status : nrtxnstatus_t;
  t_default_parent_stack : nr_vector_t seg_ptr;
  t_parent_stacks : option (nr_hashmap_t stack_ptr);
  t_segment_count : Z;
  t_segment_slab : option S;
  t_segment_root : option seg_ptr;
  t_abs_start_time : Z;
  t_error : option nr_error_t;
  t_trace_strings : option P;
  t_scoped_metrics : option (nrmtable_t P);
  t_unscoped_metrics : option (nrmtable_t P);
  t_path : option cstr;
  t_name : option cstr;
  t_slowsqls : option nr_slowsqls_t;
  t_datastore_products : option P;
  t_no_sql_parsing : Z;
}.
Arguments mk_txn {S P}.
Arguments t_high_security {S P}.
Arguments t_options {S P}.
Arguments t_status {S P}.
Arguments t_default_parent_stack {S P}.
Arguments t_parent_stacks {S P}.
Arguments t_segment_count {S P}.
Arguments t_segment_slab {S P}.
Arguments t_segment_root {S P}.
Arguments t_abs_start_time {S P}.
Arguments t_error {S P}.
Arguments t_trace_strings {S P}.
Arguments t_scoped_metrics {S P}.
Arguments t_unscoped_metrics {S P}.
Arguments t_path {S P}.
Arguments t_name {S P}.
Arguments t_slowsqls {S P}.
Arguments t_datastore_products {S P}.
Arguments t_no_sql_parsing {S P}.

Section Fields.
Context {S P : Type}.
Implicit Types (t : nrtxn_t S P).

(** Assigning to one field. *)
Definition with_status (v : nrtxnstatus_t) t : nrtxn_t S P :=
  mk_txn (t_high_security t) (t_options t) v (t_default_parent_stack t) (t_parent_stacks t)
    (t_segment_count t) (t_segment_slab t) (t_segment_root t) (t_abs_start_time t) (t_error t)
    (t_trace_strings t) (t_scoped_metrics t) (t_unscoped_metrics t) (t_path t) (t_name t)
    (t_slowsqls t) (t_datastore_products t) (t_no_sql_parsing t).
Definition with_default_parent_stack (v : nr_vector_t seg_ptr) t : nrtxn_t S P :=
  mk_txn (t_high_security t) (t_options t) (t_status t) v (t_parent_stacks t)
    (t_segment_count t) (t_segment_slab t) (t_segment_root t) (t_abs_start_time t) (t_error t)
    (t_trace_strings t) (t_scoped_metrics t) (t_unscoped_metrics t) (t_path t) (t_name t)
    (t_slowsqls t) (t_datastore_products t) (t_no_sql_parsing t).
Definition with_parent_stacks (v : option (nr_hashmap_t stack_ptr)) t : nrtxn_t S P :=
  mk_txn (t_high_security t) (t_options t) (t_status t) (t_default_parent_stack t) v
    (t_segment_count t) (t_segment_slab t) (t_segment_root t) (t_abs_start_time t) (t_error t)
    (t_trace_strings t) (t_scoped_metrics t) (t_unscoped_metrics t) (t_path t) (t_name t)
    (t_slowsqls t) (t_datastore_products t) (t_no_sql_parsing t).
Definition with_segment_count (v : Z) t : nrtxn_t S P :=
  mk_txn (t_high_security t) (t_options t) (t_status t) (t_default_parent_stack t) (t_parent_stacks t)
    v (t_segment_slab t) (t_segment_root t) (t_abs_start_time t) (t_error t)
    (t_trace_strings t) (t_scoped_metrics t) (t_unscoped_metrics t) (t_path t) (t_name t)
    (t_slowsqls t) (t_datastore_products t) (t_no_sql_parsing t).
Definition with_segment_slab (v : option S) t : nrtxn_t S P :=
  mk_txn (t_high_security t) (t_options t) (t_status t) (t_default_parent_stack t) (t_parent_stacks t)
    (t_segment_count t) v (t_segment_root t) (t_abs_start_time t) (t_error t)
    (t_trace_strings t) (t_scoped_metrics t) (t_unscoped_metrics t) (t_path t) (t_name t)
    (t_slowsqls t) (t_datastore_products t) (t_no_sql_parsing t).
Definition with_abs_start_time (v : Z) t : nrtxn_t S P :=
  mk_txn (t_high_security t) (t_options t) (t_status t) (t_default_parent_stack t) (t_parent_stacks t)
    (t_segment_count t) (t_segment_slab t) (t_segment_root t) v (t_error t)
    (t_trace_strings t) (t_scoped_metrics t) (t_unscoped_metrics t) (t_path t) (t_name t)
    (t_slowsqls t) (t_datastore_products t) (t_no_sql_parsing t).
Definition with_error (v : option nr_error_t) t : nrtxn_t S P :=
  mk_txn (t_high_security t) (t_options t) (t_status t) (t_default_parent_stack t) (t_parent_stacks t)
    (t_segment_count t) (t_segment_slab t) (t_segment_root t) (t_abs_start_time t) v
    (t_trace_strings t) (t_scoped_metrics t) (t_unscoped_metrics t) (t_path t) (t_name t)
    (t_slowsqls t) (t_datastore_products t) (t_no_sql_parsing t).
Definition with_trace_strings (v : option P) t : nrtxn_t S P :=
  mk_txn (t_high_security t) (t_options t) (t_status t) (t_default_parent_stack t) (t_parent_stacks t)
    (t_segment_count t) (t_segment_slab t) (t_segment_root t) (t_abs_start_time t) (t_error t)
    v (t_scoped_metrics t) (t_unscoped_metrics t) (t_path t) (t_name t)
    (t_slowsqls t) (t_datastore_products t) (t_no_sql_parsing t).
Definition with_scoped_metrics (v : option (nrmtable_t P)) t : nrtxn_t S P :=
  mk_txn (t_high_security t) (t_options t) (t_status t) (t_default_parent_stack t) (t_parent_stacks t)
    (t_segment_count t) (t_segment_slab t) (t_segment_root t) (t_abs_start_time t) (t_error t)
    (t_trace_strings t) v (t_unscoped_metrics t) (t_path t) (t_name t)
    (t_slowsqls t) (t_datastore_products t) (t_no_sql_parsing t).
Definition with_unscoped_metrics (v : option (nrmtable_t P)) t : nrtxn_t S P :=
  mk_txn (t_high_security t) (t_options t) (t_status t) (t_default_parent_stack t) (t_parent_stacks t)
    (t_segment_count t) (t_segment_slab t) (t_segment_root t) (t_abs_start_time t) (t_error t)
    (t_trace_strings t) (t_scoped_metrics t) v (t_path t) (t_name t)
    (t_slowsqls t) (t_datastore_products t) (t_no_sql_parsing t).
Definition with_path (v : option cstr) t : nrtxn_t S P :=
  mk_txn (t_high_security t) (t_options t) (t_status t) (t_default_parent_stack t) (t_parent_stacks t)
    (t_segment_count t) (t_segment_slab t) (t_segment_root t) (t_abs_start_time t) (t_error t)
    (t_trace_strings t) (t_scoped_metrics t) (t_unscoped_metrics t) v (t_name t)
    (t_slowsqls t) (t_datastore_products t) (t_no_sql_parsing t).
Definition with_segment_root (v : option seg_ptr) t : nrtxn_t S P :=
  mk_txn (t_high_security t) (t_options t) (t_status t) (t_default_parent_stack t) (t_parent_stacks t)
    (t_segment_count t) (t_segment_slab t) v (t_abs_start_time t) (t_error t)
    (t_trace_strings t) (t_scoped_metrics t) (t_unscoped_metrics t) (t_path t) (t_name t)
    (t_slowsqls t) (t_datastore_products t) (t_no_sql_parsing t).
Definition with_slowsqls (v : option nr_slowsqls_t) t : nrtxn_t S P :=
  mk_txn (t_high_security t) (t_options t) (t_status t) (t_default_parent_stack t) (t_parent_stacks t)
    (t_segment_count t) (t_segment_slab t) (t_segment_root t) (t_abs_start_time t) (t_error t)
    (t_trace_strings t) (t_scoped_metrics t) (t_unscoped_metrics t) (t_path t) (t_name t)
    v (t_datastore_products t) (t_no_sql_parsing t).
Definition with_datastore_products (v : option P) t : nrtxn_t S P :=
  mk_txn (t_high_security t) (t_options t) (t_status t) (t_default_parent_stack t) (t_parent_stacks t)
    (t_segment_count t) (t_segment_slab t) (t_segment_root t) (t_abs_start_time t) (t_error t)
    (t_trace_strings t) (t_scoped_metrics t) (t_unscoped_metrics t) (t_path t) (t_name t)
    (t_slowsqls t) v (t_no_sql_parsing t).
End Fields.

(* @map nr_txn.c:143-163 nr_txn_test_options *)
Definition nr_txn_test_options : nrtxnopt_t :=
  {| custom_events_enabled := 0;
     synthetics_enabled := 0;
     instance_reporting_enabled := 1;
     database_name_reporting_enabled := 1;
     err_enabled := 1;
     request_params_enabled := 0;
     autorum_enabled := 1;
     analytics_events_enabled := 1;
     error_events_enabled := 1;
     tt_enabled := 1;
     ep_enabled := 1;
     tt_recordsql := NR_SQL_OBFUSCATED;
     tt_slowsql := 1;
     apdex_t := 500000;
     tt_threshold := 2 * NR_TIME_DIVISOR;
     tt_is_apdex_f := 1;
     ep_threshold := 500 * NR_TIME_DIVISOR_MS;
     ss_threshold := 500 * NR_TIME_DIVISOR_MS;
     cross_process_enabled := 1;
     allow_raw_exception_messages := 0;
     custom_parameters_enabled := 0;
     distributed_tracing_enabled := 0;
     span_events_enabled := 0;
     max_span_events := 0;
     discount_main_context_blocking := false |}.

(** A [double] is a binary64 value of the standard library. *)
Abbreviation double := spec_float.

(** ** Times *)

Section Operations.
Context {S P : Type} `{NamePool P}.
Abbreviation txn_t := (nrtxn_t S P).

Implicit Types (txn : option txn_t).

(* @map nr_txn.c:2129-2135 nr_txn_start_time *)
Definition nr_txn_start_time txn : Z := from_option t_abs_start_time 0 txn.

(* @map nr_txn.c:2137-2143 nr_txn_time_rel_to_abs *)
Definition nr_txn_time_rel_to_abs txn (relative_time : Z) : Z :=
  match txn with None => relative_time | Some t => u64 (t_abs_start_time t + relative_time) end.

(* @map nr_txn.c:2145-2151 nr_txn_time_abs_to_rel *)
Definition nr_txn_time_abs_to_rel txn (absolute_time : Z) : Z :=
  match txn with None => absolute_time | Some t => nr_time_duration (t_abs_start_time t) absolute_time end.

(** [now] is what [nr_get_time] answers. *)
(* @map nr_txn.c:2153-2158 nr_txn_now_rel *)
Definition nr_txn_now_rel txn (now : Z) : Z :=
  match txn with None => 0 | Some t => nr_time_duration (t_abs_start_time t) now end.

(* @map nr_txn.c:1179-1184 nr_txn_unfinished_duration *)
Definition nr_txn_unfinished_duration txn (now : Z) : Z :=
  match txn with None => 0 | Some _ => nr_time_duration (nr_txn_start_time txn) now end.

(* @map nr_txn.h:267-273 nr_txn_recording *)
Definition nr_txn_recording txn : Z :=
  match txn with Some t => if negb (recording (t_status t) =? 0) then 1 else 0 | None => 0 end.

(** ** Naming *)

(** Writing fields of the status. *)
Definition set_path_type (v : nr_path_type_t) (s : nrtxnstatus_t) : nrtxnstatus_t :=
  mk_status (path_is_frozen s) v (ignore s) (ignore_apdex s) (background s) (recording s) (complete s).
Definition set_background (v : Z) (s : nrtxnstatus_t) : nrtxnstatus_t :=
  mk_status (path_is_frozen s) (path_type s) (ignore s) (ignore_apdex s) v (recording s) (complete s).
Definition set_ignore (s : nrtxnstatus_t) : nrtxnstatus_t :=
  mk_status (path_is_frozen s) (path_type s) 1 (ignore_apdex s) (background s) 0 (complete s).

(** [whence] is only written to the log. *)
(* @map nr_txn.c:1323-1362 nr_txn_set_path *)
Definition nr_txn_set_path txn (path : option cstr) (ptype : nr_path_type_t)
  (ok_to_override : nr_txn_assignment_t) : nr_status_t * option txn_t :=
  match txn, path with
  | Some t, Some p =>
      if byte_at p 0 =? 0 then (NR_FAILURE, txn)
      else if negb (path_is_frozen (t_status t) =? 0) then (NR_FAILURE, txn)
      else if path_type_int ptype <? path_type_int (path_type (t_status t)) then (NR_FAILURE, txn)
      else if bool_decide (NR_NOT_OK_TO_OVERWRITE = ok_to_override)
              && bool_decide (ptype = path_type (t_status t)) then (NR_FAILURE, txn)
      else (NR_SUCCESS, Some (with_path (Some (nr_strdup path)) (with_status (set_path_type ptype (t_status t)) t)))
  | _, _ => (NR_FAILURE, txn)
  end.

(* @map nr_txn.c:2500-2513 nr_txn_is_current_path_named *)
Definition nr_txn_is_current_path_named txn (path : option cstr) : bool :=
  match txn, path with
  | Some t, Some _ => 0 =? nr_strcmp (t_path t) path
  | _, _ => false
  end.

(** ** Errors *)

(* @map nr_txn.c:1391-1406 nr_txn_record_error_worthy *)
Definition nr_txn_record_error_worthy txn (priority : Z) : nr_status_t :=
  match txn with
  | None => NR_FAILURE
  | Some t =>
      if (err_enabled (t_options t) =? 0) || (recording (t_status t) =? 0) then NR_FAILURE
      else match t_error t with
           | None => NR_SUCCESS
           | Some _ => if priority <? nr_error_priority (t_error t) then NR_FAILURE else NR_SUCCESS
           end
  end.

(* @map nr_txn.h:406-410 NR_TXN_HIGH_SECURITY_ERROR_MESSAGE *)
Definition NR_TXN_HIGH_SECURITY_ERROR_MESSAGE : cstr := str "Message removed by New Relic high_security setting".
Definition NR_TXN_ALLOW_RAW_EXCEPTION_MESSAGE : cstr := str "Message removed by New Relic security settings".

(* @map nr_txn.c:1408-1441 nr_txn_record_error *)
Definition nr_txn_record_error txn (priority : Z) (errmsg errclass stacktrace_json : option cstr) (now : Z)
  : option txn_t :=
  match txn, errmsg, errclass, stacktrace_json with
  | Some t, Some msg, Some cls, Some _ =>
      if (err_enabled (t_options t) =? 0) || (recording (t_status t) =? 0)
         || (byte_at msg 0 =? 0) || (byte_at cls 0 =? 0) then txn
      else if match t_error t with
              | Some _ => priority <? nr_error_priority (t_error t)
              | None => false
              end then txn
      else
        let errmsg := if negb (t_high_security t =? 0) then Some NR_TXN_HIGH_SECURITY_ERROR_MESSAGE else errmsg in
        let errmsg := if allow_raw_exception_messages (t_options t) =? 0
                      then Some NR_TXN_ALLOW_RAW_EXCEPTION_MESSAGE else errmsg in
        Some (with_error (nr_error_create priority errmsg errclass stacktrace_json now) t)
  | _, _, _, _ => txn
  end.

(** ** Metrics *)

(** Adding to a table of the transaction. *)
Definition add_unscoped (f : option (nrmtable_t P) -> option (option (nrmtable_t P))) (t : txn_t) : option txn_t :=
  table ← f (t_unscoped_metrics t); Some (with_unscoped_metrics table t).

(* @map nr_txn.c:1450-1459 nr_txn_force_single_count *)
Definition nr_txn_force_single_count txn (metric_name : option cstr) : option (option txn_t) :=
  match txn, metric_name with
  | Some t, Some _ => t ← add_unscoped (fun table => nrm_force_add table metric_name 0) t; Some (Some t)
  | _, _ => Some txn
  end.

(* @map util_time.h:40-40 NR_TIME_DIVISOR_MS_D *)
Definition NR_TIME_DIVISOR_MS_D : double := S754_finite false 8796093022208000 (-43).

Definition isnan (x : double) : bool := match x with S754_nan => true | _ => false end.
Definition isinf (x : double) : bool := match x with S754_infinity _ => true | _ => false end.

(** The multiplication of doubles, and the conversion to [uint64_t]: towards zero, undefined
    when the result does not fit. *)
Definition double_mul (x y : double) : double := SFmul 53 1024 x y.

Definition double_to_u64 (x : double) : option Z :=
  match x with
  | S754_zero _ => Some 0
  | S754_finite s m e =>
      let v := if 0 <=? e then Z.pos m * 2 ^ e else Z.pos m / 2 ^ (- e) in
      if s then (if v =? 0 then Some 0 else None) else if v <? 2 ^ 64 then Some v else None
  | _ => None
  end.

(* @map nr_txn.c:2468-2498 nr_txn_add_custom_metric *)
Definition nr_txn_add_custom_metric txn (name : option cstr) (value_ms : double)
  : option (nr_status_t * option txn_t) :=
  match txn, name with
  | Some t, Some _ =>
      if recording (t_status t) =? 0 then Some (NR_FAILURE, txn)
      else if isnan value_ms || isinf value_ms then Some (NR_FAILURE, txn)
      else
        duration ← double_to_u64 (double_mul NR_TIME_DIVISOR_MS_D value_ms);
        t ← add_unscoped (fun table => nrm_add table name duration) t;
        Some (NR_SUCCESS, Some t)
  | _, _ => Some (NR_FAILURE, txn)
  end.

(** ** Status *)

(* @map nr_txn.c:1473-1494 nr_txn_change_background_status *)
Definition nr_txn_change_background_status txn (is_background : Z) : option (option txn_t) :=
  match txn with
  | None => Some None
  | Some t =>
      if negb (path_is_frozen (t_status t) =? 0) then
        t ← add_unscoped (fun table => nrm_force_add table
              (Some (str "Supportability/background_status_change_prevented")) 0) t;
        Some (Some t)
      else Some (Some (with_status (set_background is_background (t_status t)) t))
  end.

(* @map nr_txn.c:1496-1498 nr_txn_set_as_background_job *)
Definition nr_txn_set_as_background_job txn := nr_txn_change_background_status txn 1.

(* @map nr_txn.c:1500-1502 nr_txn_set_as_web_transaction *)
Definition nr_txn_set_as_web_transaction txn := nr_txn_change_background_status txn 0.

(* @map nr_txn.c:2453-2466 nr_txn_ignore *)
Definition nr_txn_ignore txn : bool * option txn_t :=
  match txn with
  | None => (false, txn)
  | Some t => (true, Some (with_status (set_ignore (t_status t)) t))
  end.

(* @map nr_txn.c:1748-1766 nr_txn_sql_recording_level *)
Definition nr_txn_sql_recording_level txn : nr_tt_recordsql_t :=
  match txn with
  | None => NR_SQL_NONE
  | Some t =>
      match tt_recordsql (t_options t) with
      | NR_SQL_RAW => if negb (t_high_security t =? 0) then NR_SQL_OBFUSCATED else NR_SQL_RAW
      | NR_SQL_OBFUSCATED => NR_SQL_OBFUSCATED
      | NR_SQL_NONE => NR_SQL_NONE
      end
  end.

(* @map nr_txn.c:1199-1214 nr_txn_should_create_apdex_metrics *)
Definition nr_txn_should_create_apdex_metrics txn : Z :=
  match txn with
  | None => 0
  | Some t =>
      if negb (ignore_apdex (t_status t) =? 0) then 0
      else if negb (background (t_status t) =? 0) then 0 else 1
  end.

(* @map nr_txn.c:1895-1901 nr_txn_apdex_zone *)
Definition nr_txn_apdex_zone txn (duration : Z) : nr_apdex_zone_t :=
  match txn with
  | Some t => match t_error t with
              | Some _ => NR_APDEX_FAILING
              | None => nr_apdex_zone (apdex_t (t_options t)) duration
              end
  | None => NR_APDEX_FAILING
  end.

End Operations.

(** ** Naming: the highest priority wins, and then the last *)

Record path_request : Type := mk_request {
  rq_path : cstr;
  rq_type : nr_path_type_t;
  rq_ok : nr_txn_assignment_t;
}.

Definition request_path {S P : Type} (txn : option (nrtxn_t S P)) (r : path_request) : option (nrtxn_t S P) :=
  snd (nr_txn_set_path txn (Some (rq_path r)) (rq_type r) (rq_ok r)).

(** A request with a path. *)
Definition request_valid (r : path_request) : Prop := byte_at (rq_path r) 0 <> 0.

(** A request that does not displace a path of type [ty]. *)
Definition request_yields (ty : nr_path_type_t) (r : path_request) : Prop :=
  request_valid r ->
  path_type_int (rq_type r) < path_type_int ty \/ (rq_type r = ty /\ rq_ok r = NR_NOT_OK_TO_OVERWRITE).

(** A request that a path of type [ty] displaces. *)
Definition request_below (ty : nr_path_type_t) (r : path_request) : Prop :=
  request_valid r -> path_type_int (rq_type r) <= path_type_int ty.

Lemma path_type_int_inj a b : path_type_int a = path_type_int b -> a = b.
Proof. by destruct a, b. Qed.

Section Naming.
Context {S P : Type}.
Implicit Types (t : nrtxn_t S P).

Lemma nr_txn_set_path_unfrozen t r :
  path_is_frozen (t_status t) = 0 ->
  (request_path (Some t) r = Some t /\ request_yields (path_type (t_status t)) r)
  \/ (request_path (Some t) r
        = Some (with_path (Some (c_str (rq_path r))) (with_status (set_path_type (rq_type r) (t_status t)) t))
      /\ request_valid r /\ path_type_int (path_type (t_status t)) <= path_type_int (rq_type r)).
Proof.
  intros Hf. unfold request_path, nr_txn_set_path, request_yields, request_valid. rewrite Hf. cbn [negb Z.eqb].
  destruct (Z.eqb_spec (byte_at (rq_path r) 0) 0) as [Hp|Hp]; [by left|].
  destruct (Z.ltb_spec (path_type_int (rq_type r)) (path_type_int (path_type (t_status t)))); [left; auto|].
  destruct (bool_decide _ && bool_decide _) eqn:Hb; [|by right].
  apply andb_true_iff in Hb as [Hok%bool_decide_eq_true Hty%bool_decide_eq_true].
  left. split; [done|]. intros _. by right.
Qed.

(** The path in force after some requests. *)
Definition named_by t0 (rs : list path_request) t : Prop :=
  (t = t0 /\ Forall (request_yields (path_type (t_status t0))) rs)
  \/ exists l1 r l2, rs = l1 ++ r :: l2 /\ request_valid r
       /\ t_path t = Some (c_str (rq_path r)) /\ path_type (t_status t) = rq_type r
       /\ path_type_int (path_type (t_status t0)) <= path_type_int (rq_type r)
       /\ Forall (request_below (rq_type r)) l1 /\ Forall (request_yields (rq_type r)) l2.

Lemma request_yields_below ty ty' r :
  request_yields ty r -> path_type_int ty <= path_type_int ty' -> request_below ty' r.
Proof. intros Hy Hle Hv. destruct (Hy Hv) as [?|[-> _]]; lia. Qed.

Lemma request_below_le ty ty' r :
  request_below ty r -> path_type_int ty <= path_type_int ty' -> request_below ty' r.
Proof. intros Hy Hle Hv. specialize (Hy Hv). lia. Qed.

Lemma named_by_snoc t0 rs t r :
  path_is_frozen (t_status t) = 0 -> named_by t0 rs t ->
  exists t', request_path (Some t) r = Some t' /\ named_by t0 (rs ++ [r]) t'
    /\ path_is_frozen (t_status t') = 0.
Proof.
  intros Hf Hn. destruct (nr_txn_set_path_unfrozen t r Hf) as [[-> Hy]|(-> & Hv & Hle)].
  - exists t. split; [done|]. split; [|done].
    destruct Hn as [[-> Hall]|(l1 & q & l2 & -> & Hq & Hp & Hty & Hle & H1 & H2)].
    + left. split; [done|]. by apply Forall_app_2; [|constructor].
    + right. exists l1, q, (l2 ++ [r]). rewrite <- app_assoc. split_and!; try done.
      apply Forall_app_2; [done|]. constructor; [|done]. by rewrite <- Hty.
  - eexists. split; [done|]. split; [|done].
    right. exists rs, r, []. split_and!; try done.
    + destruct Hn as [[-> _]|(l1 & q & l2 & -> & Hq & Hp & Hty & Hle' & H1 & H2)]; [done|]. rewrite Hty in Hle. lia.
    + destruct Hn as [[-> Hall]|(l1 & q & l2 & -> & Hq & Hp & Hty & Hle' & H1 & H2)].
      * eapply Forall_impl; [exact Hall|]. intros q Hq. by eapply request_yields_below.
      * rewrite Hty in Hle. apply Forall_app_2; [|constructor].
        -- eapply Forall_impl; [exact H1|]. intros q' Hq'. by eapply request_below_le.
        -- by intros _.
        -- eapply Forall_impl; [exact H2|]. intros q' Hq'. by eapply request_yields_below.
Qed.

Lemma named_by_run t rs :
  path_is_frozen (t_status t) = 0 ->
  exists t', foldl request_path (Some t) rs = Some t' /\ named_by t rs t' /\ path_is_frozen (t_status t') = 0.
Proof.
  intros Hf. induction rs as [|r rs (t' & Hrun & Hn & Hf')] using rev_ind.
  { exists t. split; [done|]. split; [|done]. left. by split. }
  rewrite foldl_snoc, Hrun. by apply named_by_snoc.
Qed.

End Naming.

(** ** Errors: the highest priority wins, and then the last *)

Record error_report : Type := mk_report {
  er_priority : Z;
  er_message : cstr;
  er_class : cstr;
  er_stack : cstr;
  er_when : Z;
}.

Definition report_error {S P : Type} (txn : option (nrtxn_t S P)) (r : error_report) : option (nrtxn_t S P) :=
  nr_txn_record_error txn (er_priority r) (Some (er_message r)) (Some (er_class r)) (Some (er_stack r)) (er_when r).

Definition report_valid (r : error_report) : Prop := byte_at (er_message r) 0 <> 0 /\ byte_at (er_class r) 0 <> 0.

(** The message that is kept. *)
Definition kept_message {S P : Type} (t : nrtxn_t S P) (msg : cstr) : cstr :=
  if allow_raw_exception_messages (t_options t) =? 0 then NR_TXN_ALLOW_RAW_EXCEPTION_MESSAGE
  else if t_high_security t =? 0 then c_str msg else NR_TXN_HIGH_SECURITY_ERROR_MESSAGE.

Definition error_of {S P : Type} (t : nrtxn_t S P) (r : error_report) : nr_error_t :=
  mk_error (er_when r) (er_priority r) (kept_message t (er_message r)) (c_str (er_class r)) (c_str (er_stack r)).

Section Errors.
Context {S P : Type}.
Implicit Types (t : nrtxn_t S P).

Definition takes_errors t : Prop := err_enabled (t_options t) <> 0 /\ recording (t_status t) <> 0.

(** Only the error of the transaction changes. *)
Definition only_error t t' : Prop := t' = with_error (t_error t') t.

Lemma only_error_refl t : only_error t t.
Proof. by destruct t. Qed.

Lemma report_error_spec t r :
  takes_errors t ->
  (report_error (Some t) r = Some t /\ (report_valid r -> exists e, t_error t = Some e /\ er_priority r < e_priority e))
  \/ (report_error (Some t) r = Some (with_error (Some (error_of t r)) t) /\ report_valid r
      /\ forall e, t_error t = Some e -> e_priority e <= er_priority r).
Proof.
  intros [He Hr]. unfold report_error, nr_txn_record_error, report_valid.
  destruct (Z.eqb_spec (err_enabled (t_options t)) 0); [done|].
  destruct (Z.eqb_spec (recording (t_status t)) 0); [done|]. cbn [orb].
  destruct (Z.eqb_spec (byte_at (er_message r) 0) 0); [left; split; [done|]; by intros []|].
  destruct (Z.eqb_spec (byte_at (er_class r) 0) 0); [left; split; [done|]; by intros []|]. cbn [orb].
  assert (Hnew : nr_error_create (er_priority r)
     (if allow_raw_exception_messages (t_options t) =? 0 then Some NR_TXN_ALLOW_RAW_EXCEPTION_MESSAGE
      else if negb (t_high_security t =? 0) then Some NR_TXN_HIGH_SECURITY_ERROR_MESSAGE else Some (er_message r))
     (Some (er_class r)) (Some (er_stack r)) (er_when r) = Some (error_of t r)).
  { unfold error_of, kept_message. destruct (_ =? 0); [done|]. by destruct (_ =? 0). }
  destruct (t_error t) as [e|] eqn:Ee.
  - simpl. destruct (Z.ltb_spec (er_priority r) (e_priority e)).
    + left. split; [done|]. intros _. by exists e.
    + right. rewrite Hnew. split_and!; try done. by intros ? [= <-].
  - right. by rewrite Hnew.
Qed.

(** The error kept after some reports on a transaction without one. *)
Definition error_kept t (rs : list error_report) (e : option nr_error_t) : Prop :=
  (e = None /\ Forall (fun r => ~ report_valid r) rs)
  \/ exists l1 r l2, rs = l1 ++ r :: l2 /\ report_valid r /\ e = Some (error_of t r)
       /\ Forall (fun q => report_valid q -> er_priority q <= er_priority r) l1
       /\ Forall (fun q => report_valid q -> er_priority q < er_priority r) l2.

Lemma error_kept_snoc t rs e r t' :
  takes_errors t -> only_error t t' -> t_error t' = e -> error_kept t rs e ->
  exists t'', report_error (Some t') r = Some t'' /\ only_error t t'' /\ error_kept t (rs ++ [r]) (t_error t'').
Proof.
  intros Ht Ho He Hk. assert (Ht' : takes_errors t') by (rewrite Ho; exact Ht).
  assert (Hof : error_of t' r = error_of t r) by (by rewrite Ho).
  destruct (report_error_spec t' r Ht') as [[-> Hno]|(-> & Hv & Hle)].
  - exists t'. split; [done|]. split; [done|]. rewrite He.
    destruct Hk as [[-> Hall]|(l1 & q & l2 & -> & Hq & -> & H1 & H2)].
    + left. split; [done|]. apply Forall_app_2; [done|]. constructor; [|done].
      intros Hv. destruct (Hno Hv) as (e & Hee & _). congruence.
    + right. exists l1, q, (l2 ++ [r]). rewrite <- app_assoc. split_and!; try done.
      apply Forall_app_2; [done|]. constructor; [|done]. intros Hv. destruct (Hno Hv) as (e & Hee & Hlt).
      rewrite He in Hee. simplify_eq. exact Hlt.
  - eexists. split; [done|]. split; [by rewrite Ho|]. rewrite Hof.
    right. exists rs, r, []. split_and!; try done.
    destruct Hk as [[-> Hall]|(l1 & q & l2 & -> & Hq & -> & H1 & H2)].
    + eapply Forall_impl; [exact Hall|]. intros q Hq Hv'. contradiction.
    + specialize (Hle _ He). simpl in Hle. apply Forall_app_2; [|constructor].
      * eapply Forall_impl; [exact H1|]. intros q' Hq' Hv'. specialize (Hq' Hv'). lia.
      * intros _. exact Hle.
      * eapply Forall_impl; [exact H2|]. intros q' Hq' Hv'. specialize (Hq' Hv'). lia.
Qed.

Lemma error_kept_run t rs :
  takes_errors t -> t_error t = None ->
  exists t', foldl report_error (Some t) rs = Some t' /\ only_error t t' /\ error_kept t rs (t_error t').
Proof.
  intros Ht Hnone. induction rs as [|r rs (t' & Hrun & Ho & Hk)] using rev_ind.
  { exists t. split; [done|]. split; [apply only_error_refl|]. left. by split. }
  rewrite foldl_snoc, Hrun. by apply (error_kept_snoc t rs (t_error t')).
Qed.

End Errors.

(** ** Properties *)

(** A transaction that records, for the witnesses. *)
Definition sample_txn : nrtxn_t unit nrstrpool_t :=
  mk_txn 0 nr_txn_test_options (mk_status 0 NR_PATH_TYPE_UNKNOWN 0 0 0 1 false)
    (nr_vector_init_impl 32 false) None 0 None None 0 None None None (Some (nrm_table_create 0)) None None None None 0.

(* @about nr_txn_set_path nr_path_type_t *)
(** C34 (functional): the path of a transaction is named by priority.  While the path is not
    frozen, a sequence of requests leaves either the transaction as it was, every valid request
    (with a path that is not empty) having yielded to the type the path had, or the path and type
    of one of the requests, such that the type before and every valid request before it are of no
    higher priority, and every valid request after it is of lower priority, or of the same
    priority and not allowed to override.  Once the path is frozen every request fails and
    changes nothing. *)
Theorem nr_txn_set_path_priority {S P : Type} (t : nrtxn_t S P) (rs : list path_request) :
  (path_is_frozen (t_status t) = 0 ->
     exists t', foldl request_path (Some t) rs = Some t' /\ named_by t rs t')
  /\ (path_is_frozen (t_status t) <> 0 ->
     foldl request_path (Some t) rs = Some t
     /\ forall r, nr_txn_set_path (Some t) (Some (rq_path r)) (rq_type r) (rq_ok r) = (NR_FAILURE, Some t)).
Proof.
  split.
  - intros Hf. destruct (named_by_run t rs Hf) as (t' & Hrun & Hn & _). by exists t'.
  - intros Hf. assert (Hall : forall r, nr_txn_set_path (Some t) (Some (rq_path r)) (rq_type r) (rq_ok r)
      = (NR_FAILURE, Some t)).
    { intros r. unfold nr_txn_set_path. destruct (_ =? 0); [done|].
      by destruct (Z.eqb_spec (path_is_frozen (t_status t)) 0). }
    split; [|done]. induction rs as [|r rs IH]; [done|]. cbn [foldl]. unfold request_path at 2. by rewrite Hall.
Qed.

Lemma nr_txn_set_path_priority_witness :
  let rs := [mk_request (str "a") NR_PATH_TYPE_ACTION NR_OK_TO_OVERWRITE;
             mk_request (str "b") NR_PATH_TYPE_CUSTOM NR_OK_TO_OVERWRITE;
             mk_request (str "c") NR_PATH_TYPE_URI NR_OK_TO_OVERWRITE] in
  exists t', foldl request_path (Some sample_txn) rs = Some t' /\ named_by sample_txn rs t'.
Proof.
  intros rs. apply (proj1 (nr_txn_set_path_priority sample_txn rs)). reflexivity.
Defined.

(** A transaction keeps its most important error.  On a transaction that
    records, with errors enabled and none so far, a sequence of reports changes nothing but the
    error, which is in the end that of a valid report (message and class not empty) with no
    report of higher priority before it and none of the same or a higher priority after it, or
    none when there was no valid report.  The message is replaced when raw messages are not
    allowed, or under high security.  A report is kept exactly if [nr_txn_record_error_worthy]
    says so; both refuse when errors are disabled or the transaction does not record. *)
Theorem nr_txn_record_error_keeps_highest {S P : Type} (t : nrtxn_t S P) (rs : list error_report) :
  (takes_errors t -> t_error t = None ->
     exists t', foldl report_error (Some t) rs = Some t' /\ only_error t t' /\ error_kept t rs (t_error t'))
  /\ (forall r, report_valid r ->
       report_error (Some t) r
       = Some (match nr_txn_record_error_worthy (Some t) (er_priority r) with
               | NR_SUCCESS => with_error (Some (error_of t r)) t
               | NR_FAILURE => t
               end))
  /\ (~ takes_errors t -> foldl report_error (Some t) rs = Some t
       /\ forall p, nr_txn_record_error_worthy (Some t) p = NR_FAILURE).
Proof.
  assert (Hworthy : forall p, takes_errors t -> nr_txn_record_error_worthy (Some t) p
    = match t_error t with Some e => if p <? e_priority e then NR_FAILURE else NR_SUCCESS | None => NR_SUCCESS end).
  { intros p [He Hr]. unfold nr_txn_record_error_worthy.
    destruct (Z.eqb_spec (err_enabled (t_options t)) 0); [done|].
    destruct (Z.eqb_spec (recording (t_status t)) 0); [done|]. by destruct (t_error t). }
  assert (Hrefuse : ~ takes_errors t ->
    (err_enabled (t_options t) =? 0) || (recording (t_status t) =? 0) = true).
  { intros Hn. unfold takes_errors in Hn. destruct (Z.eqb_spec (err_enabled (t_options t)) 0); [done|].
    destruct (Z.eqb_spec (recording (t_status t)) 0); [done|]. tauto. }
  assert (Hnone : ~ takes_errors t -> forall r, report_error (Some t) r = Some t).
  { intros Hn r. unfold report_error, nr_txn_record_error. by rewrite (Hrefuse Hn). }
  split_and!.
  - by apply error_kept_run.
  - intros r Hv. destruct (decide ((err_enabled (t_options t) =? 0) || (recording (t_status t) =? 0) = true)) as [Hd|Hd].
    + unfold nr_txn_record_error_worthy, report_error, nr_txn_record_error. by rewrite Hd.
    + assert (Ht : takes_errors t).
      { unfold takes_errors. apply not_true_is_false, orb_false_iff in Hd as [H1 H2]. boolp. lia. }
      rewrite (Hworthy _ Ht). destruct (report_error_spec t r Ht) as [[-> Hno]|(-> & _ & Hle)].
      * destruct (Hno Hv) as (e & -> & Hlt). by apply Z.ltb_lt in Hlt as ->.
      * destruct (t_error t) as [e|]; [|done]. specialize (Hle e eq_refl).
        by destruct (Z.ltb_spec (er_priority r) (e_priority e)); [lia|].
  - intros Hn. split.
    + induction rs as [|r rs IH]; [done|]. cbn [foldl]. by rewrite (Hnone Hn).
    + intros p. unfold nr_txn_record_error_worthy. by rewrite (Hrefuse Hn).
Qed.

Lemma nr_txn_record_error_keeps_highest_witness :
  let rs := [mk_report 5 (str "m") (str "c") (str "[]") 1; mk_report 5 (str "n") (str "c") (str "[]") 2;
             mk_report 3 (str "o") (str "c") (str "[]") 3] in
  exists t', foldl report_error (Some sample_txn) rs = Some t' /\ error_kept sample_txn rs (t_error t').
Proof.
  intros rs. destruct (nr_txn_record_error_keeps_highest sample_txn rs) as (H & _ & _).
  destruct H as (t' & Hrun & _ & Hk).
  - split; discriminate.
  - reflexivity.
  - exists t'. split; [exact Hrun|exact Hk].
Defined.

(** One millisecond less than none. *)
Definition minus_one : double := S754_finite true 4503599627370496 (-52).


