(* ===== verification/Config.v ===== *)
(** * Configuration

    [libnewrelic.h] (the enumerations, the configuration of an application, the parameters of
    segments) and [src/config.c]: the configuration of an application, the options of its
    transactions.

    An enumeration is the number of the constant, since a C caller may pass any; a [char] array
    of a struct is the list of its bytes. *)

From S2P Require Import Prelude Vector Strings Time StringPool Metrics Txn.

(** ** Names of products and transports *)

(* @map libnewrelic.h:37-44 NEWRELIC_DATASTORE_FIREBIRD *)
Definition NEWRELIC_DATASTORE_SQL_PRODUCTS : list cstr :=
  [str "Firebird"; str "Informix"; str "MSSQL"; str "MySQL"; str "Oracle"; str "Postgres"; str "SQLite"; str "Sybase"].

(* @map libnewrelic.h:60-64 NEWRELIC_DATASTORE_MEMCACHE *)
Definition NEWRELIC_DATASTORE_NOSQL_PRODUCTS : list cstr :=
  [str "Memcached"; str "MongoDB"; str "ODBC"; str "Redis"; str "Other"].

(* @map libnewrelic.h:64-64 NEWRELIC_DATASTORE_OTHER *)
Definition NEWRELIC_DATASTORE_OTHER : cstr := str "Other".

(* @map libnewrelic.h:76-84 NEWRELIC_TRANSPORT_TYPE_UNKNOWN *)
Definition NEWRELIC_TRANSPORT_TYPES : list cstr :=
  [str "Unknown"; str "HTTP"; str "HTTPS"; str "Kafka"; str "JMS"; str "IronMQ"; str "AMQP"; str "Queue"; str "Other"].

(** ** Enumerations *)

(* @map libnewrelic.h:108-115 newrelic_time_us_t *)
Definition newrelic_time_us_t : Type := Z.

(* @map libnewrelic.h:117-139 newrelic_loglevel_t *)
Definition newrelic_loglevel_t : Type := Z.
Definition NEWRELIC_LOG_ERROR : newrelic_loglevel_t := 0.
Definition NEWRELIC_LOG_WARNING : newrelic_loglevel_t := 1.
Definition NEWRELIC_LOG_INFO : newrelic_loglevel_t := 2.
Definition NEWRELIC_LOG_DEBUG : newrelic_loglevel_t := 3.

(* @map libnewrelic.h:141-172 newrelic_tt_recordsql_t *)
Definition newrelic_tt_recordsql_t : Type := Z.
Definition NEWRELIC_SQL_OFF : newrelic_tt_recordsql_t := 0.
Definition NEWRELIC_SQL_RAW : newrelic_tt_recordsql_t := 1.
Definition NEWRELIC_SQL_OBFUSCATED : newrelic_tt_recordsql_t := 2.

(* @map libnewrelic.h:174-192 newrelic_transaction_tracer_threshold_t *)
Definition newrelic_transaction_tracer_threshold_t : Type := Z.
Definition NEWRELIC_THRESHOLD_IS_APDEX_FAILING : newrelic_transaction_tracer_threshold_t := 0.
Definition NEWRELIC_THRESHOLD_IS_OVER_DURATION : newrelic_transaction_tracer_threshold_t := 1.

(** ** The configuration of an application *)

(* @map libnewrelic.h:228-276 datastore_reporting *)
Record datastore_reporting_t : Type := mk_reporting {
  reporting_enabled : bool;
  reporting_record_sql : newrelic_tt_recordsql_t;
  reporting_threshold_us : newrelic_time_us_t;
}.

(* @map libnewrelic.h:194-278 newrelic_transaction_tracer_config_t *)
Record newrelic_transaction_tracer_config_t : Type := mk_tracer {
  tracer_enabled : bool;
  tracer_threshold : newrelic_transaction_tracer_threshold_t;
  tracer_duration_us : newrelic_time_us_t;
  tracer_stack_trace_threshold_us : newrelic_time_us_t;
  tracer_datastore_reporting : datastore_reporting_t;
}.

(* @map libnewrelic.h:280-309 newrelic_datastore_segment_config_t *)
Record newrelic_datastore_segment_config_t : Type := mk_datastore_tracer {
  instance_reporting : bool;
  database_name_reporting : bool;
}.

(* @map libnewrelic.h:311-324 newrelic_distributed_tracing_config_t *)
Record newrelic_distributed_tracing_config_t : Type := mk_distributed_tracing {
  distributed_enabled : bool;
}.

(* @map libnewrelic.h:326-339 newrelic_span_event_config_t *)
Record newrelic_span_event_config_t : Type := mk_span_events {
  spans_enabled : bool;
}.

(* @map libnewrelic.h:341-419 newrelic_app_config_t *)
Record newrelic_app_config_t : Type := mk_config {
  app_name : list Z;
  license_key : list Z;
  redirect_collector : list Z;
  log_filename : list Z;
  log_level : newrelic_loglevel_t;
  transaction_tracer : newrelic_transaction_tracer_config_t;
  datastore_tracer : newrelic_datastore_segment_config_t;
  distributed_tracing : newrelic_distributed_tracing_config_t;
  span_events : newrelic_span_event_config_t;
}.

(** The sizes of the arrays of the struct. *)
Definition arrays_sized (c : newrelic_app_config_t) : Prop :=
  length (app_name c) = 255%nat /\ length (license_key c) = 255%nat
  /\ length (redirect_collector c) = 100%nat /\ length (log_filename c) = 512%nat.

(** ** The parameters of segments *)

(* @map libnewrelic.h:421-508 newrelic_datastore_segment_params_t *)
Record newrelic_datastore_segment_params_t : Type := mk_datastore_params {
  dp_product : option cstr;
  dp_collection : option cstr;
  dp_operation : option cstr;
  dp_host : option cstr;
  dp_port_path_or_id : option cstr;
  dp_database_name : option cstr;
  dp_query : option cstr;
}.

(* @map libnewrelic.h:510-543 newrelic_external_segment_params_t *)
Record newrelic_external_segment_params_t : Type := mk_external_params {
  ep_uri : option cstr;
  ep_procedure : option cstr;
  ep_library : option cstr;
}.

(** ** Creating a configuration *)

(* @map nr_app.h:25-25 NR_LICENSE_SIZE *)
Definition NR_LICENSE_SIZE : Z := 40.

(* @map config.c:8-19 newrelic_validate_recordsql *)
Definition newrelic_validate_recordsql (setting : newrelic_tt_recordsql_t) : nr_tt_recordsql_t :=
  if NEWRELIC_SQL_OFF =? setting then NR_SQL_NONE
  else if NEWRELIC_SQL_RAW =? setting then NR_SQL_RAW
  else if NEWRELIC_SQL_OBFUSCATED =? setting then NR_SQL_OBFUSCATED
  else NR_SQL_OBFUSCATED.

(** [nr_zalloc]: all bytes zero. *)
Definition zeroed_config : newrelic_app_config_t :=
  mk_config (replicate 255 0) (replicate 255 0) (replicate 100 0) (replicate 512 0) 0
    (mk_tracer false 0 0 0 (mk_reporting false 0 0)) (mk_datastore_tracer false false)
    (mk_distributed_tracing false) (mk_span_events false).

(** [None] when a copy writes past its array. *)
(* @map config.c:21-60 newrelic_create_app_config *)
Definition newrelic_create_app_config (name key : option cstr) : option (option newrelic_app_config_t) :=
  match name with
  | None => Some None
  | Some _ =>
      if negb (NR_LICENSE_SIZE =? nr_strlen key) then Some None
      else
        let config := zeroed_config in
        '(name_copy, _) ← nr_strxcpy (Some (app_name config)) name (nr_strlen name);
        name_copy ← name_copy;
        '(key_copy, _) ← nr_strxcpy (Some (license_key config)) key (nr_strlen key);
        key_copy ← key_copy;
        Some (Some
          {| app_name := name_copy;
             license_key := key_copy;
             redirect_collector := redirect_collector config;
             log_filename := log_filename config;
             log_level := log_level config;
             transaction_tracer :=
               {| tracer_enabled := true;
                  tracer_threshold := NEWRELIC_THRESHOLD_IS_APDEX_FAILING;
                  tracer_duration_us := 0;
                  tracer_stack_trace_threshold_us := 500000;
                  tracer_datastore_reporting :=
                    {| reporting_enabled := true;
                       reporting_record_sql := NEWRELIC_SQL_OBFUSCATED;
                       reporting_threshold_us := 500000 |} |};
             datastore_tracer := {| instance_reporting := true; database_name_reporting := true |};
             distributed_tracing := {| distributed_enabled := false |};
             span_events := {| spans_enabled := true |} |})
  end.

(** The result, and what [*config] is afterwards. *)
(* @map config.c:62-70 newrelic_destroy_app_config *)
Definition newrelic_destroy_app_config {A : Type} (config : option (option A)) : bool * option (option A) :=
  match config with
  | None => (false, None)
  | Some None => (false, Some None)
  | Some (Some _) => (true, Some None)
  end.

(** ** The options of transactions *)

(* @map config.c:72-100 newrelic_get_default_options *)
Definition newrelic_get_default_options : nrtxnopt_t :=
  {| analytics_events_enabled := 1;
     custom_events_enabled := 1;
     synthetics_enabled := 0;
     instance_reporting_enabled := 1;
     database_name_reporting_enabled := 1;
     err_enabled := 1;
     request_params_enabled := 0;
     autorum_enabled := 0;
     error_events_enabled := 1;
     tt_enabled := 1;
     ep_enabled := 0;
     tt_recordsql := NR_SQL_OBFUSCATED;
     tt_slowsql := 1;
     apdex_t := 0;
     tt_threshold := 0;
     ep_threshold := u64 (500 * NR_TIME_DIVISOR_MS);
     ss_threshold := u64 (500 * NR_TIME_DIVISOR_MS);
     cross_process_enabled := 0;
     tt_is_apdex_f := 1;
     allow_raw_exception_messages := 1;
     custom_parameters_enabled := 1;
     distributed_tracing_enabled := 0;
     span_events_enabled := 1;
     max_span_events := 0;
     discount_main_context_blocking := false |}.

(* @map config.c:102-140 newrelic_get_transaction_options *)
Definition newrelic_get_transaction_options (config : option newrelic_app_config_t) : nrtxnopt_t :=
  let opt := newrelic_get_default_options in
  match config with
  | None => opt
  | Some c =>
      let tracer := transaction_tracer c in
      let reporting := tracer_datastore_reporting tracer in
      let apdex := NEWRELIC_THRESHOLD_IS_APDEX_FAILING =? tracer_threshold tracer in
      {| instance_reporting_enabled := Z.b2z (instance_reporting (datastore_tracer c));
         database_name_reporting_enabled := Z.b2z (database_name_reporting (datastore_tracer c));
         tt_enabled := Z.b2z (tracer_enabled tracer);
         tt_recordsql := newrelic_validate_recordsql (reporting_record_sql reporting);
         tt_slowsql := Z.b2z (reporting_enabled reporting);
         ep_threshold := u64 (reporting_threshold_us reporting * NR_TIME_DIVISOR_US);
         ss_threshold := u64 (tracer_stack_trace_threshold_us tracer * NR_TIME_DIVISOR_US);
         distributed_tracing_enabled := Z.b2z (distributed_enabled (distributed_tracing c));
         span_events_enabled := Z.b2z (spans_enabled (span_events c));
         tt_is_apdex_f := if apdex then 1 else 0;
         tt_threshold := if apdex then tt_threshold opt else tracer_duration_us tracer;
         custom_events_enabled := custom_events_enabled opt;
         synthetics_enabled := synthetics_enabled opt;
         err_enabled := err_enabled opt;
         request_params_enabled := request_params_enabled opt;
         autorum_enabled := autorum_enabled opt;
         analytics_events_enabled := analytics_events_enabled opt;
         error_events_enabled := error_events_enabled opt;
         ep_enabled := ep_enabled opt;
         apdex_t := apdex_t opt;
         cross_process_enabled := cross_process_enabled opt;
         allow_raw_exception_messages := allow_raw_exception_messages opt;
         custom_parameters_enabled := custom_parameters_enabled opt;
         max_span_events := max_span_events opt;
         discount_main_context_blocking := discount_main_context_blocking opt |}
  end.

(** ** Properties *)

(** A string in an array of [n] zero bytes. *)
Definition padded (n : nat) (s : cstr) : list Z := s ++ replicate (n - length s) 0.

Lemma padded_string (n : nat) (s : cstr) : (length (c_str s) < n)%nat -> c_str (padded n (c_str s)) = c_str s.
Proof.
  intros Hn. unfold padded. destruct (n - length (c_str s))%nat as [|k] eqn:E; [lia|].
  apply c_str_terminated, c_str_nonzero.
Qed.

Lemma nr_strxcpy_whole (n : nat) (s : cstr) :
  strlen s < 2 ^ 31 -> strlen s < Z.of_nat n ->
  nr_strxcpy (Some (replicate n 0)) (Some s) (nr_strlen (Some s)) = Some (Some (padded n (c_str s)), Some (strlen s)).
Proof.
  intros Hlen Hn. pose proof (strlen_le s) as Hs. unfold nr_strxcpy. cbn [nr_strlen]. rewrite s32_id by lia.
  assert (Hpad : padded n (c_str s) = take (Z.to_nat (strlen s)) (c_str s) ++ 0 :: drop (Z.to_nat (strlen s) + 1) (replicate n 0)).
  { unfold padded, strlen in *. rewrite Nat2Z.id, take_ge, drop_replicate by lia. f_equal.
    replace (n - length (c_str s))%nat with (Datatypes.S (n - (length (c_str s) + 1))) by lia. done. }
  destruct (copy_and_terminate (replicate n 0) s (strlen s)) as (d & Hd & E);
    [lia|rewrite length_replicate; lia|]. rewrite Hpad, <- E.
  destruct (Z.ltb_spec 0 (strlen s)) as [Hpos|Hzero].
  - destruct (nr_memcpy _ _ _ _) as [d1|]; [|done]. cbn [mbind option_bind] in *. by rewrite Hd.
  - replace (strlen s) with 0 in * by lia. cbn [nr_memcpy Z.ltb Z.compare mbind option_bind] in Hd. by rewrite Hd.
Qed.

Lemma nr_strxcpy_overflow (n : nat) (s : cstr) :
  0 < strlen s < 2 ^ 31 -> Z.of_nat n <= strlen s ->
  nr_strxcpy (Some (replicate n 0)) (Some s) (nr_strlen (Some s)) = None.
Proof.
  intros Hlen Hn. unfold nr_strxcpy. cbn [nr_strlen]. rewrite s32_id by lia.
  destruct (Z.ltb_spec 0 (strlen s)); [|lia]. unfold nr_memcpy.
  destruct (Z.ltb_spec 0 (strlen s)); [|lia]. destruct (decide (Z.of_nat n = strlen s)) as [E|E].
  - destruct (write_at_spec (replicate n 0) 0 (bytes_from s (strlen s))) as (d & -> & Hd & _);
      [lia|rewrite length_bytes_from, length_replicate; lia|].
    cbn [mbind option_bind]. unfold write_at. rewrite Hd, length_replicate.
    destruct (Z.ltb_spec (strlen s) 0); [lia|]. destruct (Z.ltb_spec (Z.of_nat n) (strlen s + Z.of_nat (length [0])));
      [done|simpl in *; lia].
  - assert (write_at (replicate n 0) 0 (bytes_from s (strlen s)) = None) as ->; [|done].
    unfold write_at. rewrite length_bytes_from, length_replicate, Z2Nat.id by lia.
    destruct (Z.ltb_spec (Z.of_nat n) (0 + strlen s)); [done|lia].
Qed.

(** The configuration a name and a key give. *)
Definition default_config (name key : cstr) : newrelic_app_config_t :=
  mk_config (padded 255 (c_str name)) (padded 255 (c_str key)) (replicate 100 0) (replicate 512 0) NEWRELIC_LOG_ERROR
    (mk_tracer true NEWRELIC_THRESHOLD_IS_APDEX_FAILING 0 500000 (mk_reporting true NEWRELIC_SQL_OBFUSCATED 500000))
    (mk_datastore_tracer true true) (mk_distributed_tracing false) (mk_span_events true).

(** [nr_strlen] counts with an [int]. *)
Definition short (s : option cstr) : Prop := from_option (fun s => strlen s < 2 ^ 31) True s.

Lemma create_app_config_some (name key : cstr) :
  short (Some name) -> strlen name < 255 -> strlen key = NR_LICENSE_SIZE ->
  newrelic_create_app_config (Some name) (Some key) = Some (Some (default_config name key)).
Proof.
  unfold NR_LICENSE_SIZE. intros Hn Hname Hkey. unfold newrelic_create_app_config.
  assert (nr_strlen (Some key) = 40) as Hk by (cbn [nr_strlen]; rewrite s32_id; lia).
  rewrite Hk. cbn [NR_LICENSE_SIZE Z.eqb Pos.eqb negb app_name license_key zeroed_config].
  rewrite (nr_strxcpy_whole 255 name Hn) by lia. cbn [mbind option_bind].
  rewrite <- Hk. rewrite (nr_strxcpy_whole 255 key) by lia. done.
Qed.

Lemma create_app_config_cases (name : cstr) (key : option cstr) :
  short (Some name) -> short key ->
  newrelic_create_app_config (Some name) key =
    match key with
    | Some k => if decide (strlen k = NR_LICENSE_SIZE)
                then if decide (strlen name < 255) then Some (Some (default_config name k)) else None
                else Some None
    | None => Some None
    end.
Proof.
  intros Hn Hk. destruct key as [k|]; [|done]. pose proof (strlen_le k) as Hk0. cbn in Hk.
  assert (Es : nr_strlen (Some k) = strlen k) by (cbn [nr_strlen]; apply s32_id; lia).
  case_decide as Hlic; [case_decide as Hname|].
  - by apply create_app_config_some.
  - unfold newrelic_create_app_config. rewrite Es, Hlic. cbn [NR_LICENSE_SIZE Z.eqb Pos.eqb negb app_name zeroed_config].
    cbn in Hn. by rewrite (nr_strxcpy_overflow 255 name) by lia.
  - unfold newrelic_create_app_config. rewrite Es. destruct (Z.eqb_spec NR_LICENSE_SIZE (strlen k)); [congruence|done].
Qed.

(* @about newrelic_create_app_config newrelic_app_config_t *)
(** C23 (error): [newrelic_create_app_config] gives NULL without a name or when the key has not
    the forty characters of a license; it writes past [app_name] when the name has 255
    characters or more, which nothing checks; otherwise it gives a configuration whose arrays
    hold the name and the key and whose other settings are those of [default_config].  They are the
    documented defaults but for the log level, which is NEWRELIC_LOG_ERROR, the zero of its type, and
    not NEWRELIC_LOG_INFO as documented. *)
Theorem newrelic_create_app_config_outcomes (name key : option cstr) :
  short name -> short key ->
  newrelic_create_app_config name key =
    match name, key with
    | Some n, Some k =>
        if decide (strlen k = NR_LICENSE_SIZE)
        then if decide (strlen n < 255) then Some (Some (default_config n k)) else None
        else Some None
    | _, _ => Some None
    end
  /\ forall n k, strlen n < 255 -> strlen k = NR_LICENSE_SIZE ->
       arrays_sized (default_config n k)
       /\ c_str (app_name (default_config n k)) = c_str n /\ c_str (license_key (default_config n k)) = c_str k.
Proof.
  intros Hn Hk. split.
  - destruct name as [n|]; [|done]. rewrite (create_app_config_cases n key Hn Hk). by destruct key.
  - unfold strlen, NR_LICENSE_SIZE. intros n k Hn' Hk'. split; [|split; apply padded_string; lia].
    split; [|split]; [| |by vm_compute]; cbn [app_name license_key default_config]; unfold padded;
      rewrite length_app, length_replicate; lia.
Qed.

Lemma newrelic_create_app_config_outcomes_witness :
  newrelic_create_app_config (Some (str "shop")) (Some (replicate 40 97))
    = Some (Some (default_config (str "shop") (replicate 40 97)))
  /\ newrelic_create_app_config (Some (replicate 255 98)) (Some (replicate 40 97)) = None
  /\ newrelic_create_app_config (Some (str "shop")) (Some (str "too short")) = Some None.
Proof.
  split; [|split].
  - apply (newrelic_create_app_config_outcomes (Some (str "shop")) (Some (replicate 40 97))); vm_compute; reflexivity.
  - apply (newrelic_create_app_config_outcomes (Some (replicate 255 98)) (Some (replicate 40 97)));
      vm_compute; reflexivity.
  - apply (newrelic_create_app_config_outcomes (Some (str "shop")) (Some (str "too short"))); vm_compute; reflexivity.
Defined.

(** How SQL is recorded for a number in [record_sql]: the documentation of the setting gives a
    meaning to three numbers, and the default to the others. *)
Definition documented_record_sql (setting : Z) : nr_tt_recordsql_t :=
  if decide (setting = 0) then NR_SQL_NONE
  else if decide (setting = 1) then NR_SQL_RAW
  else NR_SQL_OBFUSCATED.

(** The settings that count: an unknown SQL setting is the default, and the duration only counts
    when the threshold is not the apdex one. *)
Definition settings (c : newrelic_app_config_t) :=
  let tracer := transaction_tracer c in
  let reporting := tracer_datastore_reporting tracer in
  (datastore_tracer c, distributed_tracing c, span_events c,
   (tracer_enabled tracer, reporting_enabled reporting, documented_record_sql (reporting_record_sql reporting)),
   (reporting_threshold_us reporting, tracer_stack_trace_threshold_us tracer),
   if NEWRELIC_THRESHOLD_IS_APDEX_FAILING =? tracer_threshold tracer then None else Some (tracer_duration_us tracer)).

(** The times are of type [uint64_t]. *)
Definition times_in_range (c : newrelic_app_config_t) : Prop :=
  let tracer := transaction_tracer c in
  in_u64 (tracer_duration_us tracer) /\ in_u64 (tracer_stack_trace_threshold_us tracer)
  /\ in_u64 (reporting_threshold_us (tracer_datastore_reporting tracer)).

(** Options decoded back into settings. *)
Definition settings_of (o : nrtxnopt_t) :=
  (mk_datastore_tracer (instance_reporting_enabled o =? 1) (database_name_reporting_enabled o =? 1),
   mk_distributed_tracing (distributed_tracing_enabled o =? 1), mk_span_events (span_events_enabled o =? 1),
   (tt_enabled o =? 1, tt_slowsql o =? 1, tt_recordsql o), (ep_threshold o, ss_threshold o),
   if tt_is_apdex_f o =? 1 then None else Some (tt_threshold o)).

Lemma validate_recordsql_documented (setting : Z) : newrelic_validate_recordsql setting = documented_record_sql setting.
Proof.
  unfold newrelic_validate_recordsql, documented_record_sql, NEWRELIC_SQL_OFF, NEWRELIC_SQL_RAW, NEWRELIC_SQL_OBFUSCATED.
  destruct (Z.eqb_spec 0 setting), (Z.eqb_spec 1 setting), (Z.eqb_spec 2 setting); repeat case_decide; congruence || lia.
Qed.

Lemma b2z_eqb (b : bool) : (Z.b2z b =? 1) = b.
Proof. by destruct b. Qed.

(* @about newrelic_get_transaction_options newrelic_get_default_options newrelic_validate_recordsql
   newrelic_create_app_config *)
(** C22 (roundtrip): [newrelic_get_transaction_options] loses no setting of the configuration: the
    settings that count can be read back from the options it gives, so two configurations give
    the same options exactly when their settings agree; and a configuration fresh from
    [newrelic_create_app_config] gives the options that no configuration gives.  The setting of SQL
    is read as it is documented: no SQL for [NEWRELIC_SQL_OFF], SQL as it is for [NEWRELIC_SQL_RAW],
    and obfuscated SQL for [NEWRELIC_SQL_OBFUSCATED] and any other number. *)
Theorem newrelic_get_transaction_options_keeps_settings (c : newrelic_app_config_t) :
  times_in_range c ->
  settings_of (newrelic_get_transaction_options (Some c)) = settings c
  /\ (forall c', times_in_range c' ->
        newrelic_get_transaction_options (Some c') = newrelic_get_transaction_options (Some c) <-> settings c' = settings c)
  /\ forall name key d, short (Some name) -> newrelic_create_app_config (Some name) (Some key) = Some (Some d) ->
       short (Some key) ->
       newrelic_get_transaction_options (Some d) = newrelic_get_transaction_options None.
Proof.
  assert (Hback : forall c, times_in_range c -> settings_of (newrelic_get_transaction_options (Some c)) = settings c).
  { intros e (Hd & Hs & Hr). unfold settings_of, settings, newrelic_get_transaction_options. cbn.
    unfold NR_TIME_DIVISOR_US. rewrite validate_recordsql_documented, !b2z_eqb, !Z.mul_1_r, !u64_id by done.
    destruct (datastore_tracer e), (distributed_tracing e), (span_events e). cbn. unfold NEWRELIC_THRESHOLD_IS_APDEX_FAILING.
    by destruct (tracer_threshold (transaction_tracer e)). }
  intros Hc. split; [by apply Hback|]. split.
  - intros c' Hc'. split; [intros E; by rewrite <- (Hback c), <- (Hback c'), E|].
    unfold settings, newrelic_get_transaction_options. cbv zeta. rewrite !validate_recordsql_documented. intros [= -> -> -> -> -> -> -> -> E].
    destruct (tracer_threshold (transaction_tracer c')), (tracer_threshold (transaction_tracer c));
      try discriminate E; try (injection E as ->); done.
  - intros n k d Hn E Hk. rewrite (create_app_config_cases n (Some k) Hn Hk) in E.
    repeat case_decide; try discriminate E. by injection E as <-.
Qed.

Lemma newrelic_get_transaction_options_keeps_settings_witness :
  settings_of (newrelic_get_transaction_options (Some (default_config (str "shop") (replicate 40 97))))
    = settings (default_config (str "shop") (replicate 40 97))
  /\ newrelic_get_transaction_options (Some (default_config (str "shop") (replicate 40 97)))
    = newrelic_get_transaction_options None.
Proof.
  assert (Ht : times_in_range (default_config (str "shop") (replicate 40 97))) by (vm_compute; intuition congruence).
  split.
  - apply (newrelic_get_transaction_options_keeps_settings (default_config (str "shop") (replicate 40 97)) Ht).
  - apply (newrelic_get_transaction_options_keeps_settings (default_config (str "shop") (replicate 40 97)) Ht)
      with (name := str "shop") (key := replicate 40 97); vm_compute; reflexivity.
Defined.

(** A transaction with the options of a configuration records SQL as it is exactly
    when the setting is NEWRELIC_SQL_RAW and high security is off; any number that is none of
    the three settings obfuscates. *)
Theorem newrelic_raw_sql_only_on_request {S P : Type} (t : nrtxn_t S P) (c : option newrelic_app_config_t) :
  tt_recordsql (t_options t) = tt_recordsql (newrelic_get_transaction_options c) ->
  (nr_txn_sql_recording_level (Some t) = NR_SQL_RAW <->
     t_high_security t = 0
     /\ exists c', c = Some c'
          /\ reporting_record_sql (tracer_datastore_reporting (transaction_tracer c')) = NEWRELIC_SQL_RAW)
  /\ (nr_txn_sql_recording_level (Some t) = NR_SQL_NONE <->
     exists c', c = Some c'
       /\ reporting_record_sql (tracer_datastore_reporting (transaction_tracer c')) = NEWRELIC_SQL_OFF).
Proof.
  intros E. unfold nr_txn_sql_recording_level. rewrite E. destruct c as [c|]; cbn [newrelic_get_transaction_options tt_recordsql].
  2:{ cbn. split; (split; [done|]); [by intros (_ & c' & ? & _)|by intros (c' & ? & _)]. }
  unfold newrelic_validate_recordsql, NEWRELIC_SQL_OFF, NEWRELIC_SQL_RAW, NEWRELIC_SQL_OBFUSCATED.
  set (r := reporting_record_sql _).
  destruct (Z.eqb_spec 0 r) as [E0|E0]; [|destruct (Z.eqb_spec 1 r) as [E1|E1]].
  - split; [split; [done|]|split; [by exists c|done]]. intros (_ & c' & [= <-] & Er). fold r in Er. lia.
  - destruct (Z.eqb_spec (t_high_security t) 0) as [Eh|Eh]; cbn [negb].
    + split; [split; [intros _; split; [done|by exists c]|done]|]. split; [done|].
      intros (c' & [= <-] & Er). fold r in Er. lia.
    + split; [split; [done|by intros [? _]]|]. split; [done|]. intros (c' & [= <-] & Er). fold r in Er. lia.
  - assert (Eo : (if 2 =? r then NR_SQL_OBFUSCATED else NR_SQL_OBFUSCATED) = NR_SQL_OBFUSCATED) by (clear; case_match; done).
    rewrite Eo. split; (split; [done|]); [intros (_ & c' & [= <-] & Er)|intros (c' & [= <-] & Er)]; fold r in Er; lia.
Qed.

Lemma newrelic_raw_sql_only_on_request_witness :
  nr_txn_sql_recording_level (Some (mk_txn (S:=unit) (P:=unit) 0
    (newrelic_get_transaction_options (Some (default_config (str "shop") (replicate 40 97))))
    (mk_status 0 NR_PATH_TYPE_UNKNOWN 0 0 0 1 false) (nr_vector_init_impl 32 false) None 0 None None 0 None None
    None None None None None None 0)) <> NR_SQL_RAW.
Proof.
  set (t := mk_txn _ _ _ _ _ _ _ _ _ _ _ _ _ _ _ _ _ _). intros H.
  apply (newrelic_raw_sql_only_on_request t (Some (default_config (str "shop") (replicate 40 97))) eq_refl) in H.
  destruct H as (_ & c & E & H). injection E as <-. vm_compute in H. discriminate.
Defined.
