(* ===== verification/Segment.v ===== *)
(** * Segments

    [nr_segment.c], [nr_segment_private.c] and the functions of [nr_txn.c] that keep track of the
    current segment.  The memory of a process holds its transactions, their segments and the
    stacks of current segments of the asynchronous contexts.  Segments come from the slab of
    their transaction through the interface [ObjectAllocator]: their addresses are never reused.

    The segments of a transaction form a tree: every segment lists its children and points to its
    parent.  The stack of a context has the current segment on top, which becomes the parent of
    the next segment started there. *)

From S2P Require Import Prelude Strings Hash HashTree Time StringPool.
From S2P Require Import Metrics Vector HashMap ExclusiveTime SegmentChildren Slab Datastore Slowsqls Txn.

(** ** Memory *)

(** The clock has been read [w_tick] times. *)
Record world (S P M : Type) : Type := mk_world {
  w_segments : gmap seg_ptr nr_segment_t;
  w_txns : gmap txn_ptr (nrtxn_t S P);
  w_stacks : gmap stack_ptr (nr_vector_t seg_ptr);
  w_mem : M;
  w_tick : nat;
}.
Arguments mk_world {S P M}.
Arguments w_segments {S P M}.
Arguments w_txns {S P M}.
Arguments w_stacks {S P M}.
Arguments w_mem {S P M}.
Arguments w_tick {S P M}.

(** Assigning to one field of a segment. *)
Definition seg_type (v : nr_segment_type_t) (s : nr_segment_t) : nr_segment_t :=
  mk_segment v (s_txn s) (s_parent s) (s_children s) (s_color s) (s_start_time s) (s_stop_time s)
    (s_count s) (s_name s) (s_async_context s) (s_id s) (s_metrics s) (s_exclusive_time s)
    (s_priority s) (s_typed_attributes s).
Definition seg_parent (v : option seg_ptr) (s : nr_segment_t) : nr_segment_t :=
  mk_segment (s_type s) (s_txn s) v (s_children s) (s_color s) (s_start_time s) (s_stop_time s)
    (s_count s) (s_name s) (s_async_context s) (s_id s) (s_metrics s) (s_exclusive_time s)
    (s_priority s) (s_typed_attributes s).
Definition seg_children (v : nr_segment_children_t seg_ptr) (s : nr_segment_t) : nr_segment_t :=
  mk_segment (s_type s) (s_txn s) (s_parent s) v (s_color s) (s_start_time s) (s_stop_time s)
    (s_count s) (s_name s) (s_async_context s) (s_id s) (s_metrics s) (s_exclusive_time s)
    (s_priority s) (s_typed_attributes s).
Definition seg_color (v : nr_segment_color_t) (s : nr_segment_t) : nr_segment_t :=
  mk_segment (s_type s) (s_txn s) (s_parent s) (s_children s) v (s_start_time s) (s_stop_time s)
    (s_count s) (s_name s) (s_async_context s) (s_id s) (s_metrics s) (s_exclusive_time s)
    (s_priority s) (s_typed_attributes s).
Definition seg_start_time (v : Z) (s : nr_segment_t) : nr_segment_t :=
  mk_segment (s_type s) (s_txn s) (s_parent s) (s_children s) (s_color s) v (s_stop_time s)
    (s_count s) (s_name s) (s_async_context s) (s_id s) (s_metrics s) (s_exclusive_time s)
    (s_priority s) (s_typed_attributes s).
Definition seg_stop_time (v : Z) (s : nr_segment_t) : nr_segment_t :=
  mk_segment (s_type s) (s_txn s) (s_parent s) (s_children s) (s_color s) (s_start_time s) v
    (s_count s) (s_name s) (s_async_context s) (s_id s) (s_metrics s) (s_exclusive_time s)
    (s_priority s) (s_typed_attributes s).
Definition seg_name (v : Z) (s : nr_segment_t) : nr_segment_t :=
  mk_segment (s_type s) (s_txn s) (s_parent s) (s_children s) (s_color s) (s_start_time s)
    (s_stop_time s) (s_count s) v (s_async_context s) (s_id s) (s_metrics s) (s_exclusive_time s)
    (s_priority s) (s_typed_attributes s).
Definition seg_metrics (v : option (nr_vector_t nr_segment_metric_t)) (s : nr_segment_t) : nr_segment_t :=
  mk_segment (s_type s) (s_txn s) (s_parent s) (s_children s) (s_color s) (s_start_time s)
    (s_stop_time s) (s_count s) (s_name s) (s_async_context s) (s_id s) v (s_exclusive_time s)
    (s_priority s) (s_typed_attributes s).
Definition seg_exclusive_time (v : option nr_exclusive_time_t) (s : nr_segment_t) : nr_segment_t :=
  mk_segment (s_type s) (s_txn s) (s_parent s) (s_children s) (s_color s) (s_start_time s)
    (s_stop_time s) (s_count s) (s_name s) (s_async_context s) (s_id s) (s_metrics s) v
    (s_priority s) (s_typed_attributes s).
Definition seg_priority (v : Z) (s : nr_segment_t) : nr_segment_t :=
  mk_segment (s_type s) (s_txn s) (s_parent s) (s_children s) (s_color s) (s_start_time s)
    (s_stop_time s) (s_count s) (s_name s) (s_async_context s) (s_id s) (s_metrics s)
    (s_exclusive_time s) v (s_typed_attributes s).
Definition seg_typed_attributes (v : typed_attributes_t) (s : nr_segment_t) : nr_segment_t :=
  mk_segment (s_type s) (s_txn s) (s_parent s) (s_children s) (s_color s) (s_start_time s)
    (s_stop_time s) (s_count s) (s_name s) (s_async_context s) (s_id s) (s_metrics s)
    (s_exclusive_time s) (s_priority s) v.

Section Segment.
Context {S P M : Type} `{NamePool P} `{ObjectAllocator S M}.
(** Whether [realloc] can give a block of a size; what [gettimeofday] answers each time. *)
Context (realloc_ok : Z -> bool) (clock : nat -> Z * Z).

Abbreviation txn_t := (nrtxn_t S P).
Abbreviation world := (world S P M).

Implicit Types (w : world).

Definition set_segments (m : gmap seg_ptr nr_segment_t) w : world :=
  mk_world m (w_txns w) (w_stacks w) (w_mem w) (w_tick w).
Definition set_txns (m : gmap txn_ptr txn_t) w : world :=
  mk_world (w_segments w) m (w_stacks w) (w_mem w) (w_tick w).
Definition set_stacks (m : gmap stack_ptr (nr_vector_t seg_ptr)) w : world :=
  mk_world (w_segments w) (w_txns w) m (w_mem w) (w_tick w).
Definition set_mem (m : M) w : world :=
  mk_world (w_segments w) (w_txns w) (w_stacks w) m (w_tick w).

(** [*p = s], and an update in place, which fails when there is nothing at [p]. *)
Definition put_segment (p : seg_ptr) (s : nr_segment_t) w : world := set_segments (<[p := s]> (w_segments w)) w.
Definition put_txn (p : txn_ptr) (t : txn_t) w : world := set_txns (<[p := t]> (w_txns w)) w.

Definition upd_segment (p : seg_ptr) (f : nr_segment_t -> nr_segment_t) w : option world :=
  s ← w_segments w !! p; Some (put_segment p (f s) w).
Definition upd_txn (p : txn_ptr) (f : txn_t -> txn_t) w : option world :=
  t ← w_txns w !! p; Some (put_txn p (f t) w).

(** The transaction at a pointer that may be NULL. *)
Definition deref_txn (p : option txn_ptr) w : option (option txn_t) :=
  match p with None => Some None | Some p => t ← w_txns w !! p; Some (Some t) end.

(** [nr_get_time()] *)
Definition read_clock w : Z * world :=
  let '(sec, usec) := clock (w_tick w) in
  (nr_get_time sec usec, mk_world (w_segments w) (w_txns w) (w_stacks w) (w_mem w) (Datatypes.S (w_tick w))).

(** [nr_segment_children_add(&p->children, child)], whose result the callers ignore, and
    [nr_segment_children_remove]. *)
Definition add_child (p : seg_ptr) (child : seg_ptr) w : option world :=
  s ← w_segments w !! p;
  '(_, c) ← nr_segment_children_add realloc_ok (Some (s_children s)) (Some child);
  c ← c;
  Some (put_segment p (seg_children c s) w).

Definition remove_child (p : seg_ptr) (child : seg_ptr) w : option world :=
  s ← w_segments w !! p;
  '(_, c) ← nr_segment_children_remove realloc_ok (Some (s_children s)) (Some child);
  c ← c;
  Some (put_segment p (seg_children c s) w).

(** ** The current segment of a transaction *)

(* @map nr_txn.c:2733-2750 nr_txn_get_current_segment *)
Definition nr_txn_get_current_segment (txn : option txn_ptr) (async_context : option cstr) w
  : option (option seg_ptr) :=
  t ← deref_txn txn w;
  match t with
  | None => Some None
  | Some t =>
      match async_context with
      | Some _ =>
          async_context_idx ← pool_find (t_trace_strings t) async_context;
          if 0 =? async_context_idx then Some None
          else
            stack ← nr_hashmap_index_get (t_parent_stacks t) (u64 async_context_idx);
            match stack with
            | None => Some (nr_stack_get_top None)
            | Some stack => v ← w_stacks w !! stack; Some (nr_stack_get_top (Some v))
            end
      | None => Some (nr_stack_get_top (Some (t_default_parent_stack t)))
      end
  end.

(** Pushing on the stack at an address, or on the stack of the transaction. *)
Definition push_stack (stack : stack_ptr) (segment : seg_ptr) w : option world :=
  v ← w_stacks w !! stack;
  v ← nr_stack_push realloc_ok (Some v) (Some segment);
  v ← v;
  Some (set_stacks (<[stack := v]> (w_stacks w)) w).

Definition push_default (txn : txn_ptr) (segment : seg_ptr) w : option world :=
  t ← w_txns w !! txn;
  v ← nr_stack_push realloc_ok (Some (t_default_parent_stack t)) (Some segment);
  v ← v;
  Some (put_txn txn (with_default_parent_stack v t) w).

(** A new stack for an asynchronous context: [nr_malloc] and [nr_stack_init]. *)
Definition new_stack w : stack_ptr * world :=
  let stack := fresh (dom (w_stacks w)) in
  (stack, set_stacks (<[stack := nr_vector_init_impl NR_STACK_DEFAULT_CAPACITY false]> (w_stacks w)) w).

(* @map nr_txn.c:2752-2782 nr_txn_set_current_segment *)
Definition nr_txn_set_current_segment (txn : option txn_ptr) (segment : option seg_ptr) w : option world :=
  match txn, segment with
  | Some tp, Some p =>
      s ← w_segments w !! p;
      if negb (s_async_context s =? 0) then
        t ← w_txns w !! tp;
        let key := u64 (s_async_context s) in
        stack ← nr_hashmap_index_get (t_parent_stacks t) key;
        match stack with
        | Some stack => push_stack stack p w
        | None =>
            let '(stack, w1) := new_stack w in
            '(status, stacks) ← nr_hashmap_index_set (t_parent_stacks t) key (Some stack);
            match status with
            | NR_SUCCESS => push_stack stack p (put_txn tp (with_parent_stacks stacks t) w1)
            | NR_FAILURE => Some (put_txn tp (with_parent_stacks stacks t) w)
            end
        end
      else push_default tp p w
  | _, _ => Some w
  end.

(* @map nr_txn.c:2784-2797 nr_txn_retire_current_segment *)
Definition nr_txn_retire_current_segment (txn : option txn_ptr) (segment : option seg_ptr) w : option world :=
  match txn, segment with
  | Some tp, Some p =>
      s ← w_segments w !! p;
      t ← w_txns w !! tp;
      if negb (s_async_context s =? 0) then
        stack ← nr_hashmap_index_get (t_parent_stacks t) (u64 (s_async_context s));
        match stack with
        | None => '(_, _) ← nr_stack_remove_topmost realloc_ok (@None (nr_vector_t seg_ptr)) (Some p); Some w
        | Some stack =>
            v ← w_stacks w !! stack;
            '(_, v) ← nr_stack_remove_topmost realloc_ok (Some v) (Some p);
            v ← v;
            Some (set_stacks (<[stack := v]> (w_stacks w)) w)
        end
      else
        '(_, v) ← nr_stack_remove_topmost realloc_ok (Some (t_default_parent_stack t)) (Some p);
        v ← v;
        Some (put_txn tp (with_default_parent_stack v t) w)
  | _, _ => Some w
  end.

(** ** Starting a segment *)

(** [segment->parent = parent] and the new segment among the children of [parent]. *)
Definition hang_segment (p : seg_ptr) (parent : option seg_ptr) w : option world :=
  w ← upd_segment p (seg_parent parent) w;
  match parent with
  | Some parent => add_child parent p w
  | None => Some w
  end.

(* @map nr_segment.c:61-88 nr_segment_init *)
Definition nr_segment_init_parent (p : seg_ptr) (txn : option txn_ptr) (parent : option seg_ptr)
  (async_context : option cstr) w : option world :=
  match parent with
  | Some _ => hang_segment p parent w
  | None =>
      current_segment ← nr_txn_get_current_segment txn async_context w;
      current_segment ← (match current_segment, async_context with
                         | None, Some _ => nr_txn_get_current_segment txn None w
                         | _, _ => Some current_segment
                         end);
      w ← hang_segment p current_segment w;
      nr_txn_set_current_segment txn (Some p) w
  end.

(** Without an asynchronous context [txn] is only read through functions that take NULL. *)
(* @map nr_segment.c:37-91 nr_segment_init *)
Definition nr_segment_init (segment : option seg_ptr) (txn : option txn_ptr) (parent : option seg_ptr)
  (async_context : option cstr) w : option (bool * world) :=
  match segment with
  | None => Some (false, w)
  | Some p =>
      t ← deref_txn txn w;
      let '(now, w) := read_clock w in
      '(context, w) ←
        match async_context with
        | None => Some (0, w)
        | Some _ =>
            tp ← txn; t ← t;
            '(idx, pool) ← pool_add (t_trace_strings t) async_context;
            Some (idx, put_txn tp (with_trace_strings pool t) w)
        end;
      s ← w_segments w !! p;
      children ← nr_segment_children_init (Some (s_children s));
      let w := put_segment p
        (mk_segment NR_SEGMENT_CUSTOM txn (s_parent s) children NR_SEGMENT_WHITE
           (nr_time_duration (nr_txn_start_time t) now) (s_stop_time s) (s_count s) (s_name s) context
           (s_id s) (s_metrics s) (s_exclusive_time s) (s_priority s) (s_typed_attributes s)) w in
      w ← nr_segment_init_parent p txn parent async_context w;
      Some (true, w)
  end.

(** The memory of a segment comes zeroed from the slab. *)
(* @map nr_segment.c:14-35 nr_segment_start *)
Definition nr_segment_start (txn : option txn_ptr) (parent : option seg_ptr) (async_context : option cstr) w
  : option (option seg_ptr * world) :=
  match txn with
  | None => Some (None, w)
  | Some tp =>
      t ← w_txns w !! tp;
      if recording (t_status t) =? 0 then Some (None, w)
      else
        '(new_segment, slab, mem) ← oa_next (w_mem w) (t_segment_slab t);
        let w := set_mem mem (put_txn tp (with_segment_slab slab t) w) in
        match new_segment with
        | None => Some (None, w)
        | Some p =>
            '(_, w) ← nr_segment_init (Some p) txn parent async_context (put_segment p zeroed_segment w);
            Some (Some p, w)
        end
  end.

(** ** Typed attributes *)

(** Freeing leaves NULL in a field. *)
(* @map nr_segment_private.c:10-24 nr_segment_datastore_destroy_fields *)
Definition nr_segment_datastore_destroy_fields (datastore : option nr_segment_datastore_t)
  : option nr_segment_datastore_t :=
  match datastore with
  | None => None
  | Some _ => Some (mk_datastore None None None None None None (mk_instance None None None))
  end.

(* @map nr_segment_private.c:26-35 nr_segment_external_destroy_fields *)
Definition nr_segment_external_destroy_fields (external : option nr_segment_external_t)
  : option nr_segment_external_t :=
  match external with
  | None => None
  | Some _ => Some (mk_external None None None None)
  end.

(** Through the wrong member of the union the first four pointers of a datastore are those of an
    external segment, and a datastore has five more. *)
(* @map nr_segment_private.c:37-49 nr_segment_destroy_typed_attributes *)
Definition nr_segment_destroy_typed_attributes (type : nr_segment_type_t)
  (attributes : option typed_attributes_t) : option typed_attributes_t :=
  match attributes with
  | None => None
  | Some a =>
      Some (match type, a with
            | NR_SEGMENT_DATASTORE, Datastore d => from_option Datastore Zeroed (nr_segment_datastore_destroy_fields (Some d))
            | NR_SEGMENT_DATASTORE, _ => Zeroed
            | NR_SEGMENT_EXTERNAL, External e => from_option External Zeroed (nr_segment_external_destroy_fields (Some e))
            | NR_SEGMENT_EXTERNAL, Datastore d =>
                Datastore (mk_datastore None None None None (ds_backtrace_json d) (ds_explain_plan_json d) (ds_instance d))
            | NR_SEGMENT_EXTERNAL, Zeroed => Zeroed
            | NR_SEGMENT_CUSTOM, _ => a
            end)
  end.

(** What every setter of the type does first. *)
Definition drop_typed_attributes (type : nr_segment_type_t) (s : nr_segment_t) : nr_segment_t :=
  seg_type type (seg_typed_attributes
    (default Zeroed (nr_segment_destroy_typed_attributes (s_type s) (Some (s_typed_attributes s)))) s).

(* @map nr_segment.c:93-107 nr_segment_set_custom *)
Definition nr_segment_set_custom (segment : option seg_ptr) w : option (bool * world) :=
  match segment with
  | None => Some (false, w)
  | Some p =>
      s ← w_segments w !! p;
      if bool_decide (s_type s = NR_SEGMENT_CUSTOM) then Some (true, w)
      else Some (true, put_segment p (drop_typed_attributes NR_SEGMENT_CUSTOM s) w)
  end.

(** [x ? nr_strdup(x) : NULL] *)
Definition strdup_or_null (s : option cstr) : option cstr := (fun s => nr_strdup (Some s)) <$> s.

(* @map nr_segment.c:109-138 nr_segment_set_datastore *)
Definition nr_segment_set_datastore (segment : option seg_ptr) (datastore : option nr_segment_datastore_t) w
  : option (bool * world) :=
  match segment, datastore with
  | Some p, Some d =>
      s ← w_segments w !! p;
      let i := ds_instance d in
      let copy := mk_datastore (strdup_or_null (ds_component d)) (strdup_or_null (ds_sql d))
                    (strdup_or_null (ds_sql_obfuscated d)) (strdup_or_null (ds_input_query_json d))
                    (strdup_or_null (ds_backtrace_json d)) (strdup_or_null (ds_explain_plan_json d))
                    (mk_instance (strdup_or_null (di_host i)) (strdup_or_null (di_port_path_or_id i))
                       (strdup_or_null (di_database_name i))) in
      Some (true, put_segment p
                    (seg_typed_attributes (Datastore copy) (drop_typed_attributes NR_SEGMENT_DATASTORE s)) w)
  | _, _ => Some (false, w)
  end.

(* @map nr_segment.c:140-161 nr_segment_set_external *)
Definition nr_segment_set_external (segment : option seg_ptr) (external : option nr_segment_external_t) w
  : option (bool * world) :=
  match segment, external with
  | Some p, Some e =>
      s ← w_segments w !! p;
      let copy := mk_external (strdup_or_null (ex_transaction_guid e)) (strdup_or_null (ex_uri e))
                    (strdup_or_null (ex_library e)) (strdup_or_null (ex_procedure e)) in
      Some (true, put_segment p
                    (seg_typed_attributes (External copy) (drop_typed_attributes NR_SEGMENT_EXTERNAL s)) w)
  | _, _ => Some (false, w)
  end.

(** ** Names, metrics, times *)

(* @map nr_segment.c:179-202 nr_segment_add_metric *)
Definition nr_segment_add_metric (segment : option seg_ptr) (name : option cstr) (scoped : bool) w
  : option (bool * world) :=
  match segment, name with
  | Some p, Some _ =>
      s ← w_segments w !! p;
      let metrics := match s_metrics s with None => nr_vector_create 4 true | Some v => v end in
      let sm := mk_segment_metric (nr_strdup name) scoped in
      '(ok, metrics) ← nr_vector_push_back realloc_ok (Some metrics) (Some sm);
      Some (ok, put_segment p (seg_metrics metrics s) w)
  | _, _ => Some (false, w)
  end.

(* @map nr_segment.c:204-212 nr_segment_set_name *)
Definition nr_segment_set_name (segment : option seg_ptr) (name : option cstr) w : option (bool * world) :=
  match segment, name with
  | Some p, Some _ =>
      s ← w_segments w !! p;
      tp ← s_txn s;
      t ← w_txns w !! tp;
      '(idx, pool) ← pool_add (t_trace_strings t) name;
      Some (true, put_segment p (seg_name idx s) (put_txn tp (with_trace_strings pool t) w))
  | _, _ => Some (false, w)
  end.

(* @map nr_segment.c:256-267 nr_segment_set_timing *)
Definition nr_segment_set_timing (segment : option seg_ptr) (start duration : Z) w : option (bool * world) :=
  match segment with
  | None => Some (false, w)
  | Some p =>
      w ← upd_segment p (fun s => seg_stop_time (u64 (start + duration)) (seg_start_time start s)) w;
      Some (true, w)
  end.

(* @map nr_txn.c:1313-1321 nr_txn_set_timing *)
Definition nr_txn_set_timing (txn : option txn_ptr) (start duration : Z) w : option (bool * world) :=
  t ← deref_txn txn w;
  match txn, t with
  | Some tp, Some t =>
      match t_segment_root t with
      | None => Some (false, w)
      | Some root =>
          w ← upd_segment root (seg_stop_time duration) (put_txn tp (with_abs_start_time start t) w);
          Some (true, w)
      end
  | _, _ => Some (false, w)
  end.

(** A segment that was timed keeps its times. *)
(* @map nr_segment.c:269-286 nr_segment_end *)
Definition nr_segment_end (segment : option seg_ptr) w : option (bool * world) :=
  match segment with
  | None => Some (false, w)
  | Some p =>
      s ← w_segments w !! p;
      match s_txn s with
      | None => Some (false, w)
      | Some tp =>
          t ← w_txns w !! tp;
          let w := if s_stop_time s =? 0 then
                     let '(now, w) := read_clock w in
                     put_segment p (seg_stop_time (nr_time_duration (nr_txn_start_time (Some t)) now) s) w
                   else w in
          let w := put_txn tp (with_segment_count (u64 (t_segment_count t + 1)) t) w in
          w ← nr_txn_retire_current_segment (s_txn s) segment w;
          Some (true, w)
      end
  end.

(* @map nr_segment.c:687-693 nr_segment_set_priority_flag *)
Definition nr_segment_set_priority_flag (segment : option seg_ptr) (flag : Z) w : option world :=
  match segment with
  | None => Some w
  | Some p => upd_segment p (fun s => seg_priority (Z.lor (s_priority s) flag) s) w
  end.

(** ** The tree *)

(** [Some true] when [segment] is [ancestor] or above it; out of fuel means a cycle. *)
(* @map nr_segment.c:234-246 nr_segment_set_parent *)
Fixpoint ancestor_loop (fuel : nat) (segments : gmap seg_ptr nr_segment_t) (segment : seg_ptr)
  (ancestor : option seg_ptr) : option bool :=
  match ancestor with
  | None => Some false
  | Some a =>
      if a =? segment then Some true
      else match fuel with
           | O => None
           | Datatypes.S fuel => s ← segments !! a; ancestor_loop fuel segments segment (s_parent s)
           end
  end.

(** The children of NULL are written to when a segment with a parent is to have none. *)
(* @map nr_segment.c:214-254 nr_segment_set_parent *)
Definition nr_segment_set_parent (segment parent : option seg_ptr) w : option (bool * world) :=
  match segment with
  | None => Some (false, w)
  | Some p =>
      s ← w_segments w !! p;
      same_txn ← (match parent with
                  | None => Some true
                  | Some q => s' ← w_segments w !! q; Some (bool_decide (s_txn s = s_txn s'))
                  end);
      if negb same_txn then Some (false, w)
      else if bool_decide (s_parent s = parent) then Some (true, w)
      else
        cycle ← ancestor_loop (size (w_segments w)) (w_segments w) p parent;
        if (cycle : bool) then Some (false, w)
        else
          w ← (match s_parent s with Some old => remove_child old p w | None => Some w end);
          q ← parent;
          w ← add_child q p w;
          w ← upd_segment p (seg_parent parent) w;
          Some (true, w)
  end.

(* @map nr_segment.c:163-171 nr_segment_add_child *)
Definition nr_segment_add_child (parent child : option seg_ptr) w : option (bool * world) :=
  match parent, child with
  | Some _, Some _ => '(_, w) ← nr_segment_set_parent child parent w; Some (true, w)
  | _, _ => Some (false, w)
  end.

(** ** Ending the segments that are still current *)

(* @map nr_txn.c:2700-2710 nr_txn_end_segments_in_stack *)
Fixpoint end_segments_loop (fuel : nat) (pop : world -> option (option seg_ptr * bool * world)) w : option world :=
  match fuel with
  | O => None
  | Datatypes.S fuel =>
      '(segment, empty, w) ← pop w;
      if (empty : bool) then Some w
      else '(_, w) ← nr_segment_end segment w; end_segments_loop fuel pop w
  end.

(** [nr_stack_is_empty] and [nr_stack_pop] on the default stack and on another one. *)
Definition pop_default (tp : txn_ptr) w : option (option seg_ptr * bool * world) :=
  t ← w_txns w !! tp;
  if nr_stack_is_empty (Some (t_default_parent_stack t)) then Some (None, true, w)
  else
    let '(segment, v) := nr_stack_pop realloc_ok (Some (t_default_parent_stack t)) in
    v ← v; Some (segment, false, put_txn tp (with_default_parent_stack v t) w).

Definition pop_stack (stack : stack_ptr) w : option (option seg_ptr * bool * world) :=
  v ← w_stacks w !! stack;
  if nr_stack_is_empty (Some v) then Some (None, true, w)
  else
    let '(segment, v) := nr_stack_pop realloc_ok (Some v) in
    v ← v; Some (segment, false, set_stacks (<[stack := v]> (w_stacks w)) w).

(** Every round pops one segment, so the number on the stack bounds the rounds. *)
(* @map nr_txn.c:2700-2710 nr_txn_end_segments_in_stack *)
Definition nr_txn_end_segments_in_stack (stack : option stack_ptr) w : option world :=
  match stack with
  | None => Some w
  | Some stack =>
      v ← w_stacks w !! stack;
      end_segments_loop (Datatypes.S (Z.to_nat (v_used v))) (pop_stack stack) w
  end.

(** The stacks of the map, as [nr_hashmap_apply] gives them while they are used up. *)
(* @map nr_txn.c:2723-2731 nr_txn_finalize_parent_stacks *)
Definition nr_txn_finalize_parent_stacks (txn : option txn_ptr) w : option world :=
  match txn with
  | None => Some w
  | Some tp =>
      t ← w_txns w !! tp;
      st ← nr_hashmap_apply (t_parent_stacks t)
            (Some (fun value _ _ st => w ← st; nr_txn_end_segments_in_stack value w)) (Some w);
      w ← st;
      t ← w_txns w !! tp;
      end_segments_loop (Datatypes.S (Z.to_nat (v_used (t_default_parent_stack t)))) (pop_default tp) w
  end.

End Segment.

(** ** Parents *)

(** The parent of a segment in memory. *)
Definition parent_in (segments : gmap seg_ptr nr_segment_t) (p : seg_ptr) : option seg_ptr :=
  s ← segments !! p; s_parent s.

(** [l] is [p] and everything above it, up to a segment without parent. *)
Inductive chain (f : seg_ptr -> option seg_ptr) : seg_ptr -> list seg_ptr -> Prop :=
  | chain_root p : f p = None -> chain f p [p]
  | chain_step p q l : f p = Some q -> chain f q l -> chain f p (p :: l).

Section Chains.
Implicit Types (f : seg_ptr -> option seg_ptr).

Lemma chain_det f p l l' : chain f p l -> chain f p l' -> l = l'.
Proof.
  intros H. revert l'. induction H as [p Hp|p q l Hp _ IH]; intros l' H'; inversion H'; simplify_eq; [done|].
  f_equal. by apply IH.
Qed.

Lemma chain_suffix f p l x : chain f p l -> x ∈ l -> exists l1 l2, l = l1 ++ l2 /\ chain f x l2.
Proof.
  intros H. induction H as [p Hp|p q l Hp Hc IH]; intros Hx.
  - apply list_elem_of_singleton in Hx as ->. exists [], [p]. split; [done|]. by constructor.
  - apply elem_of_cons in Hx as [->|Hx].
    + exists [], (p :: l). split; [done|]. by econstructor.
    + destruct (IH Hx) as (l1 & l2 & -> & Hl2). by exists (p :: l1), l2.
Qed.

Lemma chain_nodup f p l : chain f p l -> NoDup l.
Proof.
  intros H. induction H as [p Hp|p q l Hp Hc IH]; [apply NoDup_singleton|].
  apply NoDup_cons. split; [|done]. intros Hin.
  destruct (chain_suffix f q l p Hc Hin) as (l1 & l2 & -> & Hl2).
  assert (E : p :: l1 ++ l2 = l2) by (eapply chain_det; [by econstructor|done]).
  apply (f_equal length) in E. simpl in E. rewrite length_app in E. lia.
Qed.

Lemma chain_head f p l : chain f p l -> p ∈ l.
Proof. intros []; left. Qed.

(** Giving [p] the parent [q], when [p] is not above [q]. *)
Lemma chain_insert f f' p q lq x lx :
  (forall y, y <> p -> f' y = f y) -> f' p = Some q ->
  chain f q lq -> p ∉ lq -> chain f x lx -> exists l, chain f' x l.
Proof.
  intros Hsame Hp Hq Hnot Hx.
  assert (Hq' : chain f' q lq).
  { clear Hx Hp. induction Hq as [q Hfq|q r l Hfq Hc IH]; apply not_elem_of_cons in Hnot as [Hne Hnot].
    - constructor. by rewrite Hsame by congruence.
    - econstructor; [by rewrite Hsame by congruence|]. by apply IH. }
  induction Hx as [x Hfx|x y l Hfx Hc [l' IH]]; destruct (decide (x = p)) as [->|Hne].
  - exists (p :: lq). by econstructor.
  - exists [x]. constructor. by rewrite Hsame.
  - exists (p :: lq). by econstructor.
  - exists (x :: l'). econstructor; [by rewrite Hsame|done].
Qed.

Lemma chain_ext f f' p l : (forall y, y ∈ l -> f' y = f y) -> chain f p l -> chain f' p l.
Proof.
  intros Hsame H. induction H as [p Hp|p q l Hp Hc IH].
  - constructor. rewrite Hsame; [done|left].
  - econstructor; [rewrite Hsame; [done|left]|]. apply IH. intros y Hy. apply Hsame. by right.
Qed.

End Chains.

Lemma list_length_dom {A : Type} (m : gmap seg_ptr A) (l : list seg_ptr) :
  NoDup l -> (forall x, x ∈ l -> is_Some (m !! x)) -> (length l <= size m)%nat.
Proof.
  intros Hnd Hin. rewrite <- size_dom, <- (size_list_to_set (C:=gset Z) l) by done.
  apply subseteq_size. intros x Hx. apply elem_of_list_to_set in Hx. apply elem_of_dom. by apply Hin.
Qed.

Lemma ancestor_loop_spec (fuel : nat) segments p q l :
  chain (parent_in segments) q l -> (forall x, x ∈ l -> is_Some (segments !! x)) -> (length l <= fuel)%nat ->
  ancestor_loop fuel segments p (Some q) = Some (bool_decide (p ∈ l)).
Proof.
  intros Hc. revert fuel. induction Hc as [q Hq|q r l Hq Hc IH]; intros fuel Hin Hf; simpl in Hf.
  - destruct fuel as [|fuel]; [lia|]. cbn [ancestor_loop].
    destruct (Z.eqb_spec q p) as [->|Hne]; [by rewrite bool_decide_true by left|].
    destruct (Hin q) as [s Hs]; [left|]. unfold parent_in in Hq. rewrite Hs in *. cbn [mbind option_bind] in *.
    rewrite Hq. rewrite bool_decide_false; [by destruct fuel|]. intros ?%list_elem_of_singleton. congruence.
  - destruct fuel as [|fuel]; [lia|]. cbn [ancestor_loop].
    destruct (Z.eqb_spec q p) as [->|Hne]; [by rewrite bool_decide_true by left|].
    destruct (Hin q) as [s Hs]; [left|]. unfold parent_in in Hq. rewrite Hs in *. cbn [mbind option_bind] in *.
    rewrite Hq, IH; [|intros x Hx; apply Hin; by right|lia].
    f_equal. apply bool_decide_ext. rewrite elem_of_cons. split; [by right|]. intros [->|?]; done.
Qed.

(** ** The forest of segments *)

(** [kids p] lists the children of [p] in order. *)
Record forest (segments : gmap seg_ptr nr_segment_t) (kids : seg_ptr -> list seg_ptr) : Prop := {
  fo_children : forall p s, segments !! p = Some s -> crep (s_children s) (map Some (kids p));
  fo_link : forall p c, c ∈ kids p <-> exists s, segments !! c = Some s /\ s_parent s = Some p;
  fo_parent : forall c s p, segments !! c = Some s -> s_parent s = Some p ->
    exists s', segments !! p = Some s' /\ s_txn s' = s_txn s;
  fo_nodup : forall p, NoDup (kids p);
  fo_chain : forall p, is_Some (segments !! p) -> exists l, chain (parent_in segments) p l;
}.

Section Forest.
Implicit Types (segments : gmap seg_ptr nr_segment_t) (kids : seg_ptr -> list seg_ptr).

Lemma chain_segments segments kids p l :
  forest segments kids -> is_Some (segments !! p) -> chain (parent_in segments) p l ->
  forall x, x ∈ l -> is_Some (segments !! x).
Proof.
  intros Hf Hp Hc. induction Hc as [p Hr|p q l Hr Hc IH]; intros x Hx.
  - by apply list_elem_of_singleton in Hx as ->.
  - apply elem_of_cons in Hx as [->|Hx]; [done|]. apply IH; [|done].
    unfold parent_in in Hr. destruct Hp as [s Hs]. rewrite Hs in Hr. cbn in Hr.
    destruct (fo_parent _ _ Hf _ _ _ Hs Hr) as (s' & -> & _). done.
Qed.

Lemma kids_size segments kids p : forest segments kids -> (length (kids p) <= size segments)%nat.
Proof.
  intros Hf. apply list_length_dom; [apply (fo_nodup _ _ Hf)|]. intros x Hx.
  apply (fo_link _ _ Hf) in Hx as (s & -> & _). done.
Qed.

(** The loop of [nr_segment_set_parent] ends and finds a cycle exactly when there would be one. *)
Lemma ancestor_loop_forest segments kids p q :
  forest segments kids -> is_Some (segments !! q) ->
  exists l, chain (parent_in segments) q l
    /\ ancestor_loop (size segments) segments p (Some q) = Some (bool_decide (p ∈ l)).
Proof.
  intros Hf Hq. destruct (fo_chain _ _ Hf q Hq) as [l Hl]. exists l. split; [done|].
  pose proof (chain_segments _ _ _ _ Hf Hq Hl) as Hin.
  apply ancestor_loop_spec; [done|done|]. apply list_length_dom; [by eapply chain_nodup|done].
Qed.

(** A segment changes, but not its place in the tree. *)
Definition same_place (s s' : nr_segment_t) : Prop :=
  s_parent s' = s_parent s /\ s_children s' = s_children s /\ s_txn s' = s_txn s.

Lemma forest_update segments kids p s s' :
  forest segments kids -> segments !! p = Some s -> same_place s s' -> forest (<[p := s']> segments) kids.
Proof.
  intros [Hch Hlink Hpar Hnd Hchain] Hs (Hp & Hc & Ht).
  assert (Hlook : forall x sx, <[p := s']> segments !! x = Some sx ->
    exists sx', segments !! x = Some sx' /\ same_place sx' sx).
  { intros x sx [[<- <-]|[Hne Hx]]%lookup_insert_Some; [by exists s|by exists sx]. }
  assert (Hlook' : forall x sx, segments !! x = Some sx ->
    exists sx', <[p := s']> segments !! x = Some sx' /\ same_place sx sx').
  { intros x sx Hx. destruct (decide (p = x)) as [<-|Hne].
    - rewrite lookup_insert_eq. simplify_eq. by exists s'.
    - rewrite lookup_insert_ne by done. by exists sx. }
  constructor.
  - intros x sx Hx. destruct (Hlook x sx Hx) as (sx' & Hx' & _ & -> & _). by apply Hch.
  - intros x c. rewrite Hlink. split; intros (sc & Hsc & Hpc).
    + destruct (Hlook' c sc Hsc) as (sc' & -> & E & _). exists sc'. by rewrite E.
    + destruct (Hlook c sc Hsc) as (sc' & -> & E & _). exists sc'. by rewrite <- E.
  - intros c sc x Hsc Hpc. destruct (Hlook c sc Hsc) as (sc' & Hsc' & E & _ & Et). rewrite E in Hpc.
    destruct (Hpar c sc' x Hsc' Hpc) as (sx & Hsx & Etx). destruct (Hlook' x sx Hsx) as (sx' & -> & _ & _ & Et').
    exists sx'. split; [done|]. congruence.
  - done.
  - intros x Hx. assert (Hx' : is_Some (segments !! x)).
    { destruct Hx as [sx Hx]. by destruct (Hlook x sx Hx) as (sx' & -> & _). }
    destruct (Hchain x Hx') as [l Hl]. exists l. eapply chain_ext; [|exact Hl]. intros y _.
    unfold parent_in. destruct (decide (p = y)) as [<-|Hne].
    + rewrite lookup_insert_eq, Hs. exact Hp.
    + by rewrite lookup_insert_ne.
Qed.

(** The children of one segment replaced. *)
Definition with_kids kids (q : seg_ptr) (l : list seg_ptr) : seg_ptr -> list seg_ptr :=
  fun x => if decide (x = q) then l else kids x.

Lemma with_kids_eq kids q l : with_kids kids q l q = l.
Proof. unfold with_kids. by rewrite decide_True. Qed.

Lemma with_kids_ne kids q l x : x <> q -> with_kids kids q l x = kids x.
Proof. intros. unfold with_kids. by rewrite decide_False. Qed.

Lemma no_kids segments kids p : forest segments kids -> segments !! p = None -> kids p = [].
Proof.
  intros Hf Hp. destruct (kids p) as [|c l] eqn:E; [done|].
  assert (Hc : c ∈ kids p) by (rewrite E; left).
  apply (fo_link _ _ Hf) in Hc as (s & Hs & Hpar).
  destruct (fo_parent _ _ Hf _ _ _ Hs Hpar) as (s' & Hs' & _). congruence.
Qed.

(** A new segment without children. *)
Lemma forest_new segments kids p s :
  forest segments kids -> segments !! p = None -> s_parent s = None -> crep (s_children s) [] ->
  forest (<[p := s]> segments) kids.
Proof.
  intros Hf Hp Hroot Hc. pose proof (no_kids _ _ _ Hf Hp) as Hnone.
  pose proof Hf as [Hch Hlink Hpar Hnd Hchain]. constructor.
  - intros x sx [[<- <-]|[Hne Hx]]%lookup_insert_Some; [by rewrite Hnone|by apply Hch].
  - intros x c. rewrite Hlink. split; intros (sc & Hsc & Hpc).
    + exists sc. rewrite lookup_insert_ne; [done|]. intros ->. congruence.
    + apply lookup_insert_Some in Hsc as [[<- <-]|[_ Hsc]]; [congruence|by exists sc].
  - intros c sc x [[<- <-]|[_ Hsc]]%lookup_insert_Some Hpc; [congruence|].
    destruct (Hpar c sc x Hsc Hpc) as (sx & Hsx & E). exists sx.
    rewrite lookup_insert_ne; [done|]. intros ->. congruence.
  - done.
  - intros x Hx. destruct (decide (x = p)) as [->|Hne].
    + exists [p]. constructor. unfold parent_in. by rewrite lookup_insert_eq.
    + rewrite lookup_insert_ne in Hx by congruence. destruct (Hchain x Hx) as [l Hl]. exists l.
      eapply chain_ext; [|exact Hl]. intros y Hy.
      destruct (chain_segments _ _ _ _ Hf Hx Hl y Hy) as [sy Hsy].
      unfold parent_in. rewrite lookup_insert_ne; [done|]. intros ->. congruence.
Qed.

(** What happens to a segment when [p] gets the parent [q]. *)
Definition moves (p q x : seg_ptr) (kids' : seg_ptr -> list seg_ptr) (s s' : nr_segment_t) : Prop :=
  s' = seg_parent (if decide (x = p) then Some q else s_parent s) (seg_children (s_children s') s)
  /\ crep (s_children s') (map Some (kids' x)).

Lemma moves_fields p q x kids' s s' :
  moves p q x kids' s s' -> s_txn s' = s_txn s /\ s_parent s' = (if decide (x = p) then Some q else s_parent s).
Proof. intros [-> _]. done. Qed.

Lemma forest_move segments segments' kids kids' p q sp sq lq :
  forest segments kids ->
  (forall x, option_Forall2 (moves p q x kids') (segments !! x) (segments' !! x)) ->
  segments !! p = Some sp -> segments !! q = Some sq -> s_txn sq = s_txn sp ->
  (forall x c, c ∈ kids' x <-> if decide (c = p) then x = q else c ∈ kids x) ->
  (forall x, NoDup (kids' x)) ->
  chain (parent_in segments) q lq -> p ∉ lq ->
  forest segments' kids'.
Proof.
  intros [Hch Hlink Hpar Hnd Hchain] Hmove Hp Hq Htxn Hkids Hnd' Hlq Hnot.
  assert (Hback : forall x sx', segments' !! x = Some sx' -> exists sx, segments !! x = Some sx /\ moves p q x kids' sx sx').
  { intros x sx' Hx. specialize (Hmove x). rewrite Hx in Hmove. inversion Hmove; subst. eauto. }
  assert (Hforw : forall x sx, segments !! x = Some sx -> exists sx', segments' !! x = Some sx' /\ moves p q x kids' sx sx').
  { intros x sx Hx. specialize (Hmove x). rewrite Hx in Hmove. inversion Hmove; subst. eauto. }
  constructor; [| | |done|].
  - intros x sx' Hx. destruct (Hback x sx' Hx) as (sx & _ & _ & Hc). exact Hc.
  - intros x c. rewrite Hkids. split.
    + destruct (decide (c = p)) as [->|Hne].
      * intros ->. destruct (Hforw p sp Hp) as (sp' & Hsp' & Hm). exists sp'. split; [done|].
        destruct (moves_fields _ _ _ _ _ _ Hm) as [_ ->]. by rewrite decide_True.
      * rewrite Hlink. intros (sc & Hsc & Hpc). destruct (Hforw c sc Hsc) as (sc' & Hsc' & Hm). exists sc'.
        split; [done|]. destruct (moves_fields _ _ _ _ _ _ Hm) as [_ ->]. by rewrite decide_False.
    + intros (sc' & Hsc' & Hpc). destruct (Hback c sc' Hsc') as (sc & Hsc & Hm).
      destruct (moves_fields _ _ _ _ _ _ Hm) as [_ E]. rewrite E in Hpc.
      destruct (decide (c = p)) as [->|Hne]; [congruence|]. apply Hlink. eauto.
  - intros c sc' x Hsc' Hpc. destruct (Hback c sc' Hsc') as (sc & Hsc & Hm).
    destruct (moves_fields _ _ _ _ _ _ Hm) as [Et E]. rewrite E in Hpc.
    assert (exists sx, segments !! x = Some sx /\ s_txn sx = s_txn sc) as (sx & Hsx & Ex).
    { destruct (decide (c = p)) as [->|Hne]; [|by eapply Hpar]. simplify_eq. by exists sq. }
    destruct (Hforw x sx Hsx) as (sx' & Hsx' & Hm'). exists sx'. split; [done|].
    destruct (moves_fields _ _ _ _ _ _ Hm') as [-> _]. congruence.
  - intros x [sx' Hx]. destruct (Hback x sx' Hx) as (sx & Hsx & _).
    destruct (Hchain x) as [l Hl]; [by eexists|].
    eapply (chain_insert (parent_in segments) (parent_in segments') p q); [| |exact Hlq|exact Hnot|exact Hl].
    + intros y Hy. unfold parent_in. specialize (Hmove y). destruct Hmove as [sy sy' Hm|]; [|done].
      cbn. destruct (moves_fields _ _ _ _ _ _ Hm) as [_ ->]. by rewrite decide_False.
    + unfold parent_in. destruct (Hforw p sp Hp) as (sp' & -> & Hm). cbn.
      destruct (moves_fields _ _ _ _ _ _ Hm) as [_ ->]. by rewrite decide_True.
Qed.

End Forest.

(** ** The operations on the tree *)

Section Tree.
Context {S P M : Type} `{NamePool P} `{ObjectAllocator S M}.
Context (realloc_ok : Z -> bool) (clock : nat -> Z * Z) (Hroomy : roomy realloc_ok).

Abbreviation world := (world S P M).

Implicit Types (w : world) (kids : seg_ptr -> list seg_ptr).

Lemma add_child_spec w q (c : seg_ptr) s l :
  w_segments w !! q = Some s -> crep (s_children s) (map Some l) -> Z.of_nat (length l) < 2 ^ 29 ->
  exists ch, add_child realloc_ok q c w = Some (put_segment q (seg_children ch s) w)
    /\ crep ch (map Some (l ++ [c])).
Proof.
  intros Hs Hc Hl. destruct Hroomy as [Hlim Hmem]. unfold add_child. rewrite Hs. cbn [mbind option_bind].
  destruct (nr_segment_children_add_spec realloc_ok Hlim Hmem _ _ c Hc) as (ch & -> & Hch);
    [by rewrite length_map|]. cbn [mbind option_bind]. exists ch. split; [done|]. by rewrite map_app.
Qed.

Lemma removed_split (l l' : list (option seg_ptr)) (c : seg_ptr) k1 k2 ok :
  removed l (Some c) ok l' -> l = map Some (k1 ++ c :: k2) -> NoDup (k1 ++ c :: k2) ->
  ok = true /\ l' = map Some (k1 ++ k2).
Proof.
  unfold removed. destruct ok; intros Hrem -> Hnd.
  - split; [done|]. destruct Hrem as (l1 & l2 & Hl & ->). apply fmap_app_inv in Hl as (m1 & m2 & -> & E & Hm).
    symmetry in E. apply fmap_cons_inv in E as (b & m3 & [= <-] & -> & ->).
    assert (m1 = k1 /\ m3 = k2) as [-> ->]; [|by rewrite !map_app].
    clear -Hm Hnd. revert m1 Hm. induction k1 as [|k k1 IH]; intros [|m m1] Hm; simpl in *; simplify_eq.
    + done.
    + exfalso. apply NoDup_cons in Hnd as [Hn _]. apply Hn, elem_of_app. right. left.
    + exfalso. apply NoDup_cons in Hnd as [Hn _]. apply Hn, elem_of_app. right. left.
    + apply NoDup_cons in Hnd as [_ Hnd]. by destruct (IH Hnd m1) as [-> ->].
  - exfalso. destruct Hrem as [Hn _]. apply Hn. rewrite map_app. apply elem_of_app. right. by left.
Qed.

Lemma remove_child_spec w q (c : seg_ptr) s k1 k2 :
  w_segments w !! q = Some s -> crep (s_children s) (map Some (k1 ++ c :: k2)) -> NoDup (k1 ++ c :: k2) ->
  exists ch, remove_child realloc_ok q c w = Some (put_segment q (seg_children ch s) w)
    /\ crep ch (map Some (k1 ++ k2)).
Proof.
  intros Hs Hc Hnd. destruct Hroomy as [Hlim Hmem]. unfold remove_child. rewrite Hs. cbn [mbind option_bind].
  destruct (nr_segment_children_remove_spec realloc_ok Hlim _ _ c Hc) as (ok & ch & l' & -> & Hch & Hrem).
  cbn [mbind option_bind]. exists ch. split; [done|].
  by destruct (removed_split _ _ _ _ _ _ Hrem eq_refl Hnd) as [_ <-].
Qed.

(** [p] leaves its parent, if it has one, and joins [q] as the last child. *)
Definition moved_kids kids (p q : seg_ptr) : seg_ptr -> list seg_ptr :=
  fun x => filter (fun c => c <> p) (kids x) ++ (if decide (x = q) then [p] else []).

Lemma moved_kids_elem kids p q x c :
  c ∈ moved_kids kids p q x <-> if decide (c = p) then x = q else c ∈ kids x.
Proof.
  unfold moved_kids. rewrite elem_of_app, list_elem_of_filter.
  destruct (decide (c = p)) as [->|Hne]; destruct (decide (x = q)) as [->|Hx];
    rewrite ?list_elem_of_singleton, ?elem_of_nil; tauto.
Qed.

Lemma moved_kids_nodup kids p q x : NoDup (kids x) -> NoDup (moved_kids kids p q x).
Proof.
  intros Hnd. unfold moved_kids. apply NoDup_app. split; [by apply NoDup_filter|]. split.
  - intros c [Hc _]%list_elem_of_filter. destruct (decide (x = q)); [|apply not_elem_of_nil].
    by intros ->%list_elem_of_singleton.
  - destruct (decide (x = q)); [apply NoDup_singleton|apply NoDup_nil_2].
Qed.

Lemma moved_kids_other kids p q x : x <> q -> p ∉ kids x -> moved_kids kids p q x = kids x.
Proof.
  intros Hx Hp. unfold moved_kids. rewrite decide_False, app_nil_r by done.
  apply filter_all. intros c Hc ->. done.
Qed.

Lemma filter_removed (p : seg_ptr) k1 k2 : NoDup (k1 ++ p :: k2) -> filter (fun c => c <> p) (k1 ++ p :: k2) = k1 ++ k2.
Proof.
  intros Hnd. apply NoDup_app in Hnd as (_ & H1 & [H2 _]%NoDup_cons).
  rewrite filter_app, filter_cons_False by auto. f_equal; apply filter_all; intros c Hc ->.
  - apply (H1 p Hc). left.
  - done.
Qed.

(** The fields of the memory that moving a segment does not touch. *)
Definition only_segments w w' : Prop := w' = set_segments (w_segments w') w.

Lemma nr_segment_set_parent_move w kids p q sp sq lq :
  forest (w_segments w) kids -> Z.of_nat (size (w_segments w)) < 2 ^ 29 ->
  w_segments w !! p = Some sp -> w_segments w !! q = Some sq -> s_txn sp = s_txn sq ->
  s_parent sp <> Some q -> chain (parent_in (w_segments w)) q lq -> p ∉ lq ->
  exists w', nr_segment_set_parent realloc_ok (Some p) (Some q) w = Some (true, w')
    /\ only_segments w w'
    /\ (forall x, option_Forall2 (moves p q x (moved_kids kids p q)) (w_segments w !! x) (w_segments w' !! x)).
Proof.
  intros Hf Hsize Hp Hq Ht Hpar Hlq Hnot. unfold nr_segment_set_parent. rewrite Hp, Hq. cbn [mbind option_bind].
  rewrite bool_decide_true by done. cbn [negb]. rewrite bool_decide_false by done.
  destruct (ancestor_loop_forest _ kids p q Hf) as (l & Hl & ->); [by eexists|].
  rewrite (chain_det _ _ _ _ Hl Hlq), bool_decide_false by done. cbn [mbind option_bind].
  assert (Hpq : p <> q) by (intros ->; by apply Hnot, (chain_head _ _ _ Hlq)).
  pose proof (fo_children _ _ Hf q sq Hq) as Hcq. pose proof (kids_size _ _ q Hf) as Hkq.
  destruct (s_parent sp) as [o|] eqn:Eo.
  - assert (Hoq : o <> q) by congruence.
    destruct (fo_parent _ _ Hf p sp o Hp Eo) as (so & Ho & _).
    assert (Hop : o <> p).
    { intros ->. destruct (fo_chain _ _ Hf p) as [lp Hlp]; [by eexists|]. pose proof (chain_nodup _ _ _ Hlp) as Hnd.
      inversion Hlp as [? Hr|? r l' Hr Hl']; subst; unfold parent_in in Hr; rewrite Hp in Hr; cbn in Hr; [congruence|].
      rewrite Eo in Hr. simplify_eq. apply NoDup_cons in Hnd as [Hn _]. by apply Hn, (chain_head _ _ _ Hl'). }
    assert (Hin : p ∈ kids o) by (apply (fo_link _ _ Hf); eauto).
    apply list_elem_of_split in Hin as (k1 & k2 & Ek). pose proof (fo_nodup _ _ Hf o) as Hnd. rewrite Ek in Hnd.
    destruct (remove_child_spec w o p so k1 k2) as (co & -> & Hco);
      [done|rewrite <- Ek; by apply (fo_children _ _ Hf)|done|]. cbn [mbind option_bind].
    destruct (add_child_spec (put_segment o (seg_children co so) w) q p sq (kids q)) as (cq & -> & Hcq');
      [cbn [w_segments put_segment set_segments]; by rewrite lookup_insert_ne|done|lia|]. cbn [mbind option_bind].
    unfold upd_segment. cbn [w_segments put_segment set_segments]. rewrite !lookup_insert_ne, Hp by congruence.
    cbn [mbind option_bind]. eexists. split; [done|]. split; [done|].
    intros x. cbn [w_segments put_segment set_segments].
    destruct (decide (x = p)) as [->|Hxp].
    { rewrite lookup_insert_eq, Hp. constructor. split; [rewrite decide_True by done; by destruct sp|].
      rewrite moved_kids_other; [exact (fo_children _ _ Hf p sp Hp)|done|].
      intros Hin. apply (fo_link _ _ Hf) in Hin as (s & Hs & E). congruence. }
    rewrite lookup_insert_ne by congruence. destruct (decide (x = q)) as [->|Hxq].
    { rewrite lookup_insert_eq, Hq. constructor. split; [rewrite decide_False by done; by destruct sq|].
      cbn [s_children seg_children]. unfold moved_kids. rewrite decide_True by done.
      rewrite filter_all; [done|]. intros c Hc ->. apply (fo_link _ _ Hf) in Hc as (s & Hs & E). congruence. }
    rewrite lookup_insert_ne by congruence. destruct (decide (x = o)) as [->|Hxo].
    { rewrite lookup_insert_eq, Ho. constructor. split; [rewrite decide_False by done; by destruct so|].
      cbn [s_children seg_children]. unfold moved_kids. rewrite decide_False, app_nil_r by done.
      by rewrite Ek, filter_removed. }
    rewrite lookup_insert_ne by congruence. destruct (w_segments w !! x) as [sx|] eqn:Ex; constructor.
    split; [rewrite decide_False by done; by destruct sx|].
    rewrite moved_kids_other; [by apply (fo_children _ _ Hf)|done|].
    intros Hin. apply (fo_link _ _ Hf) in Hin as (s & Hs & E). congruence.
  - cbn [mbind option_bind]. destruct (add_child_spec w q p sq (kids q)) as (cq & -> & Hcq'); [done|done|lia|]. cbn [mbind option_bind].
    unfold upd_segment. cbn [w_segments put_segment set_segments]. rewrite lookup_insert_ne, Hp by congruence.
    cbn [mbind option_bind]. eexists. split; [done|]. split; [done|].
    intros x. cbn [w_segments put_segment set_segments].
    assert (Hpk : p ∉ kids x) by (intros Hin; apply (fo_link _ _ Hf) in Hin as (s & Hs & E); congruence).
    destruct (decide (x = p)) as [->|Hxp].
    { rewrite lookup_insert_eq, Hp. constructor. split; [rewrite decide_True by done; by destruct sp|].
      rewrite moved_kids_other by done. exact (fo_children _ _ Hf p sp Hp). }
    rewrite lookup_insert_ne by congruence. destruct (decide (x = q)) as [->|Hxq].
    { rewrite lookup_insert_eq, Hq. constructor. split; [rewrite decide_False by done; by destruct sq|].
      cbn [s_children seg_children]. unfold moved_kids. rewrite decide_True by done.
      rewrite filter_all; [done|]. by intros c Hc ->. }
    rewrite lookup_insert_ne by congruence. destruct (w_segments w !! x) as [sx|] eqn:Ex; constructor.
    split; [rewrite decide_False by done; by destruct sx|].
    rewrite moved_kids_other by done. by apply (fo_children _ _ Hf).
Qed.

Lemma hang_segment_spec w kids p q s sq :
  forest (w_segments w) kids -> Z.of_nat (size (w_segments w)) < 2 ^ 29 ->
  w_segments w !! p = Some s -> s_parent s = None -> w_segments w !! q = Some sq -> p <> q ->
  exists ch, let w' := put_segment q (seg_children ch sq) (put_segment p (seg_parent (Some q) s) w) in
    hang_segment realloc_ok p (Some q) w = Some w'
    /\ (forall x, option_Forall2 (moves p q x (moved_kids kids p q)) (w_segments w !! x) (w_segments w' !! x)).
Proof.
  intros Hf Hsize Hp Hroot Hq Hpq. unfold hang_segment, upd_segment. rewrite Hp. cbn [mbind option_bind].
  pose proof (fo_children _ _ Hf q sq Hq) as Hcq. pose proof (kids_size _ _ q Hf) as Hkq.
  destruct (add_child_spec (put_segment p (seg_parent (Some q) s) w) q p sq (kids q)) as (cq & -> & Hcq');
    [cbn [w_segments put_segment set_segments]; by rewrite lookup_insert_ne|done|lia|].
  exists cq. split; [done|]. intros x. cbn [w_segments put_segment set_segments].
  assert (Hpk : p ∉ kids x) by (intros Hin; apply (fo_link _ _ Hf) in Hin as (s' & Hs & E); congruence).
  destruct (decide (x = q)) as [->|Hxq].
  { rewrite lookup_insert_eq, Hq. constructor. split; [rewrite decide_False by done; by destruct sq|].
    cbn [s_children seg_children]. unfold moved_kids. rewrite decide_True by done.
    rewrite filter_all; [done|]. by intros c Hc ->. }
  rewrite lookup_insert_ne by congruence. destruct (decide (x = p)) as [->|Hxp].
  { rewrite lookup_insert_eq, Hp. constructor. split; [rewrite decide_True by done; by destruct s|].
    rewrite moved_kids_other by done. exact (fo_children _ _ Hf p s Hp). }
  rewrite lookup_insert_ne by congruence. destruct (w_segments w !! x) as [sx|] eqn:Ex; constructor.
  split; [rewrite decide_False by done; by destruct sx|].
  rewrite moved_kids_other by done. by apply (fo_children _ _ Hf).
Qed.

Lemma chain_no_kids segments kids p q l :
  forest segments kids -> kids p = [] -> q <> p -> chain (parent_in segments) q l -> p ∉ l.
Proof.
  intros Hf Hk Hne Hc. induction Hc as [q Hq|q r l Hq Hc IH].
  - intros ?%list_elem_of_singleton. congruence.
  - apply not_elem_of_cons. split; [congruence|]. apply IH. intros ->.
    unfold parent_in in Hq. destruct (segments !! q) as [s|] eqn:Es; [|done]. cbn in Hq.
    assert (Hin : q ∈ kids p) by (apply (fo_link _ _ Hf); eauto). rewrite Hk in Hin. by apply elem_of_nil in Hin.
Qed.

(** ** Worlds in order

    On the main context: no segment belongs to an asynchronous one. *)

Definition owned (segments : gmap seg_ptr nr_segment_t) (tp : txn_ptr) (p : seg_ptr) : Prop :=
  exists s, segments !! p = Some s /\ s_txn s = Some tp.

(** The stack of current segments of a transaction, topmost last. *)
Definition current_stack (t : nrtxn_t S P) (l : list seg_ptr) : Prop :=
  vrep (t_default_parent_stack t) (map Some l) /\ NoDup l.

Record txn_ok (segments : gmap seg_ptr nr_segment_t) (tp : txn_ptr) (t : nrtxn_t S P) : Prop := {
  to_stack : exists l, current_stack t l /\ forall p, p ∈ l -> owned segments tp p;
  to_pool : exists pool ss, t_trace_strings t = Some pool /\ pool_holds pool ss;
}.

Record segment_ok (txns : gmap txn_ptr (nrtxn_t S P)) (s : nr_segment_t) : Prop := {
  sg_main : s_async_context s = 0;
  sg_txn : exists tp, s_txn s = Some tp /\ is_Some (txns !! tp);
  sg_metrics : forall v, s_metrics s = Some v -> exists l, vrep v l;
}.

(** The slabs of the transactions, and the objects they gave. *)
Definition slabs_hold w : Prop :=
  exists slabs given, oa_ok (w_mem w) slabs given
    /\ (forall tp t s, w_txns w !! tp = Some t -> t_segment_slab t = Some s -> slabs !! tp = Some s)
    /\ forall p, is_Some (w_segments w !! p) -> p ∈ given.

Record world_ok w kids : Prop := {
  wo_forest : forest (w_segments w) kids;
  wo_segments : forall p s, w_segments w !! p = Some s -> segment_ok (w_txns w) s;
  wo_txns : forall tp t, w_txns w !! tp = Some t -> txn_ok (w_segments w) tp t;
  wo_slabs : slabs_hold w;
}.

(** A segment changes, but not what the world relies on. *)
Definition keeps (s s' : nr_segment_t) : Prop :=
  s_txn s' = s_txn s /\ s_async_context s' = s_async_context s
  /\ (s_metrics s' = s_metrics s \/ forall v, s_metrics s' = Some v -> exists l, vrep v l).

Lemma moves_keeps p q x kids' s s' : moves p q x kids' s s' -> keeps s s'.
Proof. intros [-> _]. by split_and!; [| |left]. Qed.

Lemma moves_keeps_at p q x kids' (o o' : option nr_segment_t) :
  option_Forall2 (moves p q x kids') o o' -> option_Forall2 keeps o o'.
Proof. intros [s s' Hm|]; constructor. by eapply moves_keeps. Qed.

Lemma owned_keeps segments segments' tp p :
  (forall x, option_Forall2 keeps (segments !! x) (segments' !! x)) ->
  owned segments tp p -> owned segments' tp p.
Proof.
  intros Hk (s & Hs & Ht). specialize (Hk p). rewrite Hs in Hk. inversion Hk as [? s' [Ht' _]|]; subst.
  exists s'. split; [done|congruence].
Qed.

Lemma txn_ok_owned segments segments' tp t :
  (forall p, owned segments tp p -> owned segments' tp p) -> txn_ok segments tp t -> txn_ok segments' tp t.
Proof.
  intros Ho [(l & Hl & Hown) Hpool]. constructor; [|done]. exists l. split; [done|]. intros p Hp. by apply Ho, Hown.
Qed.

Lemma world_ok_segments w w' kids kids' :
  world_ok w kids -> only_segments w w' -> forest (w_segments w') kids' ->
  (forall x, option_Forall2 keeps (w_segments w !! x) (w_segments w' !! x)) -> world_ok w' kids'.
Proof.
  intros [Hf Hseg Htxn (slabs & given & Hok & Hslab & Hgiven)] Hw Hf' Hk.
  assert (Et : w_txns w' = w_txns w) by (by rewrite Hw). assert (Em : w_mem w' = w_mem w) by (by rewrite Hw).
  constructor; [done| | |].
  - intros p s' Hs'. rewrite Et. pose proof (Hk p) as Hkp. rewrite Hs' in Hkp.
    inversion Hkp as [s ? (H1 & H2 & H3) Hs|]; subst. destruct (Hseg p s (eq_sym Hs)) as [Ha Hb Hc].
    constructor; [congruence|by rewrite H1|]. destruct H3 as [E|?]; [by rewrite E|done].
  - intros tp t. rewrite Et. intros Ht. eapply txn_ok_owned; [|by apply Htxn]. intros p. by apply owned_keeps.
  - exists slabs, given. rewrite Em, Et. split_and!; [done|done|]. intros p [s' Hs'].
    apply Hgiven. specialize (Hk p). rewrite Hs' in Hk. by inversion Hk.
Qed.

Lemma world_ok_txn w kids tp t t' :
  world_ok w kids -> w_txns w !! tp = Some t -> txn_ok (w_segments w) tp t' ->
  t_segment_slab t' = t_segment_slab t -> world_ok (put_txn tp t' w) kids.
Proof.
  intros [Hf Hseg Htxn (slabs & given & Hok & Hslab & Hgiven)] Ht Ht' Hsl.
  constructor; cbn [w_segments w_txns w_mem put_txn set_txns]; [done| | |].
  - intros p s Hs. destruct (Hseg p s Hs) as [Ha (tq & Hq & Hin) Hc]. constructor; [done| |done].
    exists tq. split; [done|]. apply lookup_insert_is_Some'. by right.
  - intros tq tt [[<- <-]|[_ Hq]]%lookup_insert_Some; [done|by apply Htxn].
  - exists slabs, given. split_and!; [done| |done]. cbn [w_txns put_txn set_txns].
    intros tq tt s [[<- <-]|[_ Hq]]%lookup_insert_Some Hs; [|by eapply Hslab]. rewrite Hsl in Hs. by eapply Hslab.
Qed.

Lemma world_ok_clock w kids n :
  world_ok w kids -> world_ok (mk_world (w_segments w) (w_txns w) (w_stacks w) (w_mem w) n) kids.
Proof. by intros [? ? ? ?]. Qed.

Lemma keeps_refl s : keeps s s.
Proof. by split_and!; [| |left]. Qed.

Lemma world_ok_put w kids p s s' :
  world_ok w kids -> w_segments w !! p = Some s -> same_place s s' -> keeps s s' ->
  world_ok (put_segment p s' w) kids.
Proof.
  intros Hw Hs Hsame Hk. eapply (world_ok_segments w); [done|done| |].
  - by eapply forest_update; [apply (wo_forest _ _ Hw)| |].
  - intros x. cbn [w_segments put_segment set_segments]. destruct (decide (x = p)) as [->|Hne].
    + rewrite lookup_insert_eq, Hs. by constructor.
    + rewrite lookup_insert_ne by congruence. destruct (w_segments w !! x); constructor. apply keeps_refl.
Qed.

Lemma nr_segment_set_name_spec w kids p s tp t name pool ss :
  world_ok w kids -> w_segments w !! p = Some s -> s_txn s = Some tp -> w_txns w !! tp = Some t ->
  t_trace_strings t = Some pool -> pool_holds pool ss -> Z.of_nat (length ss) + NR_STRPOOL_INCREASE_SIZE < 2 ^ 31 ->
  strlen name < 2 ^ 31 - 1 ->
  exists idx pool' ss', let w' := put_segment p (seg_name idx s) (put_txn tp (with_trace_strings (Some pool') t) w) in
    nr_segment_set_name (Some p) (Some name) w = Some (true, w') /\ world_ok w' kids
    /\ pool_holds pool' ss' /\ ss `prefix_of` ss' /\ (length ss' <= Datatypes.S (length ss))%nat
    /\ 0 < idx /\ ss' !! Z.to_nat (idx - 1) = Some (c_str name).
Proof.
  intros Hw Hs Htp Ht Hpool Hholds Hroom Hlen. unfold nr_segment_set_name.
  rewrite Hs. cbn [mbind option_bind]. rewrite Htp. cbn [mbind option_bind]. rewrite Ht. cbn [mbind option_bind]. rewrite Hpool.
  destruct (pool_add_law pool ss name Hholds Hroom Hlen) as (idx & pool' & ss' & -> & Hholds' & Hpre & Hmore & Hidx & Hget).
  cbn [mbind option_bind]. exists idx, pool', ss'. split; [done|]. split; [|done].
  apply (world_ok_put _ _ _ s); [|done|by split_and!|by split_and!; [| |left]].
  eapply world_ok_txn; [done|done| |done]. destruct (wo_txns _ _ Hw tp t Ht) as [Hstack _].
  constructor; [done|]. by exists pool', ss'.
Qed.

Lemma nr_segment_set_timing_spec w kids p s start duration :
  world_ok w kids -> w_segments w !! p = Some s ->
  let s' := seg_stop_time (u64 (start + duration)) (seg_start_time start s) in
  nr_segment_set_timing (Some p) start duration w = Some (true, put_segment p s' w)
  /\ world_ok (put_segment p s' w) kids.
Proof.
  intros Hw Hs s'. unfold nr_segment_set_timing, upd_segment. rewrite Hs. cbn [mbind option_bind].
  split; [done|]. by eapply world_ok_put; [| |split_and!|split_and!; [| |left]].
Qed.

Lemma nr_segment_add_metric_spec w kids p s name scoped :
  world_ok w kids -> w_segments w !! p = Some s ->
  exists ok w', nr_segment_add_metric realloc_ok (Some p) (Some name) scoped w = Some (ok, w') /\ world_ok w' kids
    /\ exists v v' l, s_metrics s = v /\ (match v with Some v => vrep v l | None => l = [] end)
       /\ w' = put_segment p (seg_metrics (Some v') s) w
       /\ vrep v' (if ok then l ++ [Some (mk_segment_metric (c_str name) scoped)] else l).
Proof.
  intros Hw Hs. destruct Hroomy as [Hlim _]. unfold nr_segment_add_metric. rewrite Hs. cbn [mbind option_bind].
  set (v := match s_metrics s with None => _ | Some v => v end).
  assert (exists l, vrep v l /\ match s_metrics s with Some v => vrep v l | None => l = [] end) as (l & Hv & Hl).
  { unfold v. pose proof (sg_metrics _ _ (wo_segments _ _ Hw p s Hs)) as Hm. destruct (s_metrics s) as [v0|].
    - destruct (Hm v0 eq_refl) as [l Hl]. by exists l.
    - exists []. split; [|done]. apply vrep_init. lia. }
  unfold nr_vector_push_back. pose proof Hv as (Hu & _).
  destruct (nr_vector_insert_impl_spec realloc_ok v l (v_used v) (Some (mk_segment_metric (nr_strdup (Some name)) scoped)) Hlim Hv)
    as (ok & v' & E & Hok); [lia|]. rewrite E. cbn [mbind option_bind].
  assert (Hv' : vrep v' (if ok then l ++ [Some (mk_segment_metric (c_str name) scoped)] else l)).
  { destruct ok; [by rewrite list_insert_at_ge in Hok by lia|]. by destruct Hok as [-> _]. }
  exists ok. eexists. split; [done|]. split.
  - eapply world_ok_put; [done|done|by split_and!|]. split_and!; [done|done|]. right. intros ? [= <-].
    by eexists.
  - by exists (s_metrics s), v', l.
Qed.

(** Retiring removes the segment from the stack, wherever it is. *)
Lemma nr_txn_retire_main_spec w kids p s tp t l :
  world_ok w kids -> w_segments w !! p = Some s -> s_async_context s = 0 -> w_txns w !! tp = Some t ->
  current_stack t l -> (forall x, x ∈ l -> owned (w_segments w) tp x) ->
  exists v, nr_txn_retire_current_segment realloc_ok (Some tp) (Some p) w
      = Some (put_txn tp (with_default_parent_stack v t) w)
    /\ current_stack (with_default_parent_stack v t) (filter (fun x => x <> p) l)
    /\ world_ok (put_txn tp (with_default_parent_stack v t) w) kids.
Proof.
  intros Hw Hs Ha Ht [Hv Hnd] Hown. destruct Hroomy as [Hlim _]. unfold nr_txn_retire_current_segment.
  rewrite Hs, Ht. cbn [mbind option_bind]. rewrite Ha. cbn [Z.eqb negb].
  assert (Hsrep : srep (Some (t_default_parent_stack t)) (map Some l)) by (by eexists).
  assert (exists ok v, nr_stack_remove_topmost realloc_ok (Some (t_default_parent_stack t)) (Some p) = Some (ok, Some v)
    /\ vrep v (map Some (filter (fun x => x <> p) l))) as (ok & v & -> & Hv').
  { destruct (decide (p ∈ l)) as [Hin|Hout].
    - apply list_elem_of_split in Hin as (l1 & l2 & ->). rewrite filter_removed by done.
      rewrite map_app in Hsrep. simpl in Hsrep.
      destruct (nr_stack_remove_topmost_found realloc_ok _ (map Some l1) (map Some l2) (Some p) Hlim Hsrep)
        as (s' & -> & v & -> & Hv').
      + intros Hin. apply list_elem_of_fmap in Hin as (y & [= <-] & Hin).
        apply NoDup_app in Hnd as (_ & _ & [Hn _]%NoDup_cons). done.
      + exists true, v. split; [done|]. by rewrite map_app.
    - rewrite (nr_stack_remove_topmost_absent realloc_ok _ _ (Some p) Hsrep).
      + exists false, (t_default_parent_stack t). split; [done|]. rewrite filter_all; [done|]. by intros x Hx ->.
      + intros Hin. by apply list_elem_of_fmap in Hin as (y & [= <-] & Hin). }
  cbn [mbind option_bind]. exists v. split; [done|].
  assert (Hst : current_stack (with_default_parent_stack v t) (filter (fun x => x <> p) l))
    by (split; [done|by apply NoDup_filter]).
  split; [done|]. eapply world_ok_txn; [done|done| |done]. constructor.
  - exists (filter (fun x => x <> p) l). split; [done|]. intros x [_ Hx]%list_elem_of_filter. by apply Hown.
  - exact (to_pool _ _ _ (wo_txns _ _ Hw tp t Ht)).
Qed.

(** All outcomes of a change of parent. *)
Definition reparented w kids (p q : seg_ptr) (sp sq : nr_segment_t) (ok : bool) w' kids' : Prop :=
  exists lq, chain (parent_in (w_segments w)) q lq
  /\ if decide (s_txn sp = s_txn sq) then
       if decide (s_parent sp = Some q) then ok = true /\ w' = w /\ kids' = kids
       else if decide (p ∈ lq) then ok = false /\ w' = w /\ kids' = kids
       else ok = true /\ only_segments w w' /\ kids' = moved_kids kids p q
            /\ forall x, option_Forall2 (moves p q x kids') (w_segments w !! x) (w_segments w' !! x)
     else ok = false /\ w' = w /\ kids' = kids.

Lemma nr_segment_set_parent_spec w kids p q sp sq :
  world_ok w kids -> Z.of_nat (size (w_segments w)) < 2 ^ 29 ->
  w_segments w !! p = Some sp -> w_segments w !! q = Some sq ->
  exists ok w' kids', nr_segment_set_parent realloc_ok (Some p) (Some q) w = Some (ok, w')
    /\ world_ok w' kids' /\ reparented w kids p q sp sq ok w' kids'.
Proof.
  intros Hw Hsize Hp Hq. pose proof (wo_forest _ _ Hw) as Hf.
  destruct (ancestor_loop_forest _ kids p q Hf) as (lq & Hlq & Hloop); [by eexists|].
  unfold reparented. destruct (decide (s_txn sp = s_txn sq)) as [Et|Et].
  2:{ exists false, w, kids. unfold nr_segment_set_parent. rewrite Hp, Hq. cbn [mbind option_bind].
      rewrite bool_decide_false by done. split; [done|]. split; [done|]. by exists lq. }
  destruct (decide (s_parent sp = Some q)) as [Ep|Ep].
  { exists true, w, kids. unfold nr_segment_set_parent. rewrite Hp, Hq. cbn [mbind option_bind].
    rewrite !bool_decide_true by done. split; [done|]. split; [done|]. by exists lq. }
  destruct (decide (p ∈ lq)) as [Hin|Hout].
  { exists false, w, kids. unfold nr_segment_set_parent. rewrite Hp, Hq. cbn [mbind option_bind].
    rewrite bool_decide_true by done. cbn [negb]. rewrite bool_decide_false, Hloop by done.
    rewrite bool_decide_true by done. split; [done|]. split; [done|]. exists lq. by rewrite decide_True. }
  destruct (nr_segment_set_parent_move w kids p q sp sq lq) as (w' & Hrun & Honly & Hmoves); [done..|].
  exists true, w', (moved_kids kids p q). split; [done|]. split.
  - eapply world_ok_segments; [done|done| |].
    + eapply (forest_move (w_segments w) _ kids _ p q); [done|done|done|done|done| | |done|done].
      * intros x c. apply moved_kids_elem.
      * intros x. apply moved_kids_nodup, (fo_nodup _ _ Hf).
    + intros x. by apply moves_keeps_at with (1 := Hmoves x).
  - exists lq. split; [done|]. by rewrite decide_False.
Qed.

Lemma nr_segment_end_spec w kids p s tp t l :
  world_ok w kids -> w_segments w !! p = Some s -> s_txn s = Some tp -> w_txns w !! tp = Some t ->
  current_stack t l -> (forall x, x ∈ l -> owned (w_segments w) tp x) ->
  let now := fst (read_clock clock w) in
  let stop := if s_stop_time s =? 0 then nr_time_duration (t_abs_start_time t) now else s_stop_time s in
  exists w' v, nr_segment_end realloc_ok clock (Some p) w = Some (true, w') /\ world_ok w' kids
    /\ w_segments w' = <[p := seg_stop_time stop s]> (w_segments w)
    /\ w_txns w' = <[tp := with_default_parent_stack v (with_segment_count (u64 (t_segment_count t + 1)) t)]> (w_txns w)
    /\ w_stacks w' = w_stacks w
    /\ vrep v (map Some (filter (fun x => x <> p) l)).
Proof.
  intros Hw Hs Htp Ht Hl Hown now stop. unfold nr_segment_end. rewrite Hs. cbn [mbind option_bind].
  rewrite Htp, Ht. cbn [mbind option_bind].
  set (w1 := if s_stop_time s =? 0 then _ else w).
  assert (Hw1 : world_ok w1 kids /\ w_segments w1 = <[p := seg_stop_time stop s]> (w_segments w)
    /\ w_txns w1 = w_txns w /\ w_stacks w1 = w_stacks w).
  { unfold w1, stop, now, read_clock. destruct (Z.eqb_spec (s_stop_time s) 0) as [E|E].
    - destruct (clock (w_tick w)) as [sec usec]. cbn [fst nr_txn_start_time from_option].
      split_and!; [|done..]. eapply world_ok_put; [by apply world_ok_clock|done|done|by split_and!; [| |left]].
    - split_and!; [done| |done|done]. symmetry. apply insert_id. rewrite Hs. f_equal. by destruct s. }
  clearbody w1. destruct Hw1 as (Hw1 & Es & Et & Ek).
  set (t1 := with_segment_count _ t). set (w2 := put_txn tp t1 w1).
  assert (Ht1 : w_txns w1 !! tp = Some t) by (by rewrite Et).
  assert (Hown1 : forall x, owned (w_segments w) tp x -> owned (w_segments w1) tp x).
  { intros x (sx & Hsx & E). unfold owned. rewrite Es. destruct (decide (x = p)) as [->|Hne].
    - rewrite lookup_insert_eq. simplify_eq. by eexists.
    - rewrite lookup_insert_ne by congruence. by exists sx. }
  assert (Hw2 : world_ok w2 kids).
  { eapply world_ok_txn; [done|done| |done]. constructor.
    - exists l. split; [done|]. intros x Hx. by apply Hown1, Hown.
    - exact (to_pool _ _ _ (wo_txns _ _ Hw tp t Ht)). }
  destruct (nr_txn_retire_main_spec w2 kids p (seg_stop_time stop s) tp t1 l Hw2) as (v & -> & [Hv _] & Hw3).
  - cbn [w2 w_segments put_txn set_txns]. by rewrite Es, lookup_insert_eq.
  - exact (sg_main _ _ (wo_segments _ _ Hw p s Hs)).
  - cbn [w2 w_txns put_txn set_txns]. by rewrite lookup_insert_eq.
  - done.
  - intros x Hx. by apply Hown1, Hown.
  - cbn [mbind option_bind]. eexists _, v. split; [done|]. split; [done|].
    cbn [w_segments w_txns w_stacks put_txn set_txns w2]. rewrite Et, insert_insert_eq. done.
Qed.

(** *** Starting a segment on the main context *)

Lemma current_stack_top (t : nrtxn_t S P) l :
  current_stack t l -> nr_stack_get_top (Some (t_default_parent_stack t)) = last l.
Proof.
  intros [Hv _]. rewrite (nr_stack_get_top_spec _ (map Some l)) by (by eexists).
  rewrite fmap_last. by destruct (last l).
Qed.

Lemma push_default_spec w tp p t l :
  w_txns w !! tp = Some t -> current_stack t l -> p ∉ l -> Z.of_nat (length l) < 2 ^ 29 ->
  exists v, push_default realloc_ok tp p w = Some (put_txn tp (with_default_parent_stack v t) w)
    /\ current_stack (with_default_parent_stack v t) (l ++ [p]).
Proof.
  intros Ht [Hv Hnd] Hp Hl. destruct Hroomy as [Hlim Hmem]. unfold push_default. rewrite Ht. cbn [mbind option_bind].
  destruct (nr_stack_push_spec realloc_ok (Some (t_default_parent_stack t)) (map Some l) (Some p) Hlim)
    as (v & -> & Hpush); [by eexists|]. cbn [mbind option_bind].
  destruct Hpush as [(v' & -> & Hv')|[_ Href]].
  - exists v'. split; [done|]. split; [by rewrite map_app|]. apply NoDup_app. split; [done|]. split.
    + intros x Hx ->%list_elem_of_singleton. done.
    + apply NoDup_singleton.
  - exfalso. rewrite length_map in Href. eapply not_refused; [exact Hmem| |exact Href]. lia.
Qed.

(** The segment as [nr_segment_init] leaves it, before it has a parent. *)
Definition started_segment (tp : txn_ptr) (start : Z) : nr_segment_t :=
  mk_segment NR_SEGMENT_CUSTOM (Some tp) None (Packed 0 (packed_elements (zeroed_children seg_ptr)))
    NR_SEGMENT_WHITE start 0 0 0 0 None None None 0 Zeroed.

Lemma started_kids : crep (s_children (started_segment 1 0)) (map Some []).
Proof. by split_and!. Qed.

(** The new segment [p] hangs below [parent], if there is one. *)
Definition hung_kids kids (p : seg_ptr) (parent : option seg_ptr) : seg_ptr -> list seg_ptr :=
  match parent with Some q => moved_kids kids p q | None => kids end.

Definition slabs_hold_with w (p : seg_ptr) : Prop :=
  exists slabs given, oa_ok (w_mem w) slabs given
    /\ (forall tp t s, w_txns w !! tp = Some t -> t_segment_slab t = Some s -> slabs !! tp = Some s)
    /\ (forall x, is_Some (w_segments w !! x) -> x ∈ given) /\ p ∈ given.

(** A new segment without parent. *)
Lemma world_ok_new w kids p tp start :
  world_ok w kids -> w_segments w !! p = None -> is_Some (w_txns w !! tp) -> slabs_hold_with w p ->
  world_ok (put_segment p (started_segment tp start) w) kids.
Proof.
  intros Hw Hp Htp (slabs & given & Hok & Hslabs & Hgiven & Hpg).
  constructor; cbn [w_segments w_txns put_segment set_segments].
  - apply forest_new; [apply (wo_forest _ _ Hw)|done|done|apply started_kids].
  - intros x s [[<- <-]|[_ Hx]]%lookup_insert_Some; [|by apply (wo_segments _ _ Hw x)].
    constructor; [done|by exists tp|done].
  - intros tq t Ht. eapply txn_ok_owned; [|by apply (wo_txns _ _ Hw)].
    intros x (s & Hs & E). exists s. split; [|done]. rewrite lookup_insert_ne; [done|]. intros ->. congruence.
  - exists slabs, given. split_and!; [done|done|]. cbn [w_segments put_segment set_segments].
    intros x [<-|[_ Hx]]%lookup_insert_is_Some; [done|by apply Hgiven].
Qed.

(** The segments after the new segment was hung below [parent]. *)
Definition hung w w' (p : seg_ptr) (s : nr_segment_t) (parent : option seg_ptr) : Prop :=
  match parent with
  | None => w' = put_segment p s w
  | Some q => exists sq ch, w_segments w !! q = Some sq /\ q <> p
                /\ w' = put_segment q (seg_children ch sq) (put_segment p (seg_parent parent s) w)
  end.

Lemma hang_new w kids p tp start parent :
  world_ok w kids -> Z.of_nat (size (w_segments w)) + 1 < 2 ^ 29 -> w_segments w !! p = None ->
  is_Some (w_txns w !! tp) -> (forall q, parent = Some q -> owned (w_segments w) tp q) -> slabs_hold_with w p ->
  exists w', hang_segment realloc_ok p parent (put_segment p (started_segment tp start) w) = Some w'
    /\ hung w w' p (started_segment tp start) parent /\ world_ok w' (hung_kids kids p parent).
Proof.
  intros Hw Hsize Hp Htp Hown Hslabs. set (s := started_segment tp start).
  pose proof (world_ok_new w kids p tp start Hw Hp Htp Hslabs) as Hw1. fold s in Hw1.
  set (w1 := put_segment p s w) in *. pose proof (wo_forest _ _ Hw1) as Hf1.
  assert (Hp1 : w_segments w1 !! p = Some s) by apply lookup_insert_eq.
  assert (Hput : forall s', put_segment p s' w1 = put_segment p s' w).
  { intros s'. unfold w1, put_segment, set_segments. cbn [w_segments w_txns w_stacks w_mem w_tick].
    by rewrite insert_insert_eq. }
  destruct parent as [q|].
  - destruct (Hown q eq_refl) as (sq & Hq & Hqt). assert (Hpq : p <> q) by congruence.
    assert (Hsz : Z.of_nat (size (w_segments w1)) < 2 ^ 29)
      by (cbn [w1 w_segments put_segment set_segments]; rewrite map_size_insert_None by done; lia).
    assert (Hq1 : w_segments w1 !! q = Some sq)
      by (cbn [w1 w_segments put_segment set_segments]; by rewrite lookup_insert_ne).
    destruct (hang_segment_spec w1 kids p q s sq Hf1 Hsz Hp1 eq_refl Hq1 Hpq) as (ch & Hrun & Hmoves).
    eexists. split; [exact Hrun|]. rewrite Hput in *. split; [by exists sq, ch|].
    destruct (fo_chain _ _ Hf1 q) as [lq Hlq]; [by eexists|].
    eapply world_ok_segments; [exact Hw1|by rewrite <- Hput| |].
    + eapply (forest_move (w_segments w1) _ kids _ p q); [done|exact Hmoves|done|done|done| | |done|].
      * intros x c. apply moved_kids_elem.
      * intros x. apply moved_kids_nodup, (fo_nodup _ _ Hf1).
      * eapply chain_no_kids; [exact Hf1| |done|done]. by eapply no_kids; [apply (wo_forest _ _ Hw)|].
    + intros x. by apply moves_keeps_at with (1 := Hmoves x).
  - exists w1. unfold hang_segment, upd_segment. rewrite Hp1. cbn [mbind option_bind].
    change (seg_parent None s) with s. rewrite Hput. by split_and!.
Qed.

Lemma world_ok_next w kids tp t slab r :
  world_ok w kids -> w_txns w !! tp = Some t -> t_segment_slab t = Some slab -> oa_next (w_mem w) (Some slab) = Some r ->
  exists p slab' mem, r = (Some p, Some slab', mem) /\ w_segments w !! p = None
    /\ let w1 := set_mem mem (put_txn tp (with_segment_slab (Some slab') t) w) in
       world_ok w1 kids /\ slabs_hold_with w1 p.
Proof.
  intros [Hf Hseg Htxn (slabs & given & Hok & Hslab & Hgiven)] Ht Hs Hnext.
  destruct (oa_next_law _ _ _ tp slab r Hok (Hslab _ _ _ Ht Hs) Hnext) as (p & slab' & mem & -> & Hfresh & Hok').
  exists p, slab', mem. split; [done|]. split.
  { destruct (w_segments w !! p) as [s|] eqn:E; [|done]. exfalso. apply Hfresh, Hgiven. by eexists. }
  intros w1.
  assert (Hslab' : forall tq t' s, w_txns w1 !! tq = Some t' -> t_segment_slab t' = Some s -> <[tp := slab']> slabs !! tq = Some s).
  { unfold w1; cbn [w_txns set_mem put_txn set_txns]. intros tq t' s [[<- <-]|[Hne Hq]]%lookup_insert_Some Hs'; [by rewrite lookup_insert_eq|].
    rewrite lookup_insert_ne by done. by eapply Hslab. }
  split; [constructor|]; cbn [w1 w_segments w_txns set_mem put_txn set_txns].
  - done.
  - intros x s Hx. destruct (Hseg x s Hx) as [Ha (tq & Hq & Hin) Hc]. constructor; [done| |done].
    exists tq. split; [done|]. apply lookup_insert_is_Some'. by right.
  - intros tq tt [[<- <-]|[_ Hq]]%lookup_insert_Some; [|by apply Htxn].
    destruct (Htxn tp t Ht) as [Hstack Hpool]. by constructor.
  - exists (<[tp := slab']> slabs), ({[p]} ∪ given). split_and!; [done|done|].
    intros x Hx. apply elem_of_union. right. by apply Hgiven.
  - exists (<[tp := slab']> slabs), ({[p]} ∪ given). split_and!; [done|done| |].
    + intros x Hx. apply elem_of_union. right. by apply Hgiven.
    + apply elem_of_union. left. by apply elem_of_singleton.
Qed.

Lemma hung_lookup w w' p s parent :
  hung w w' p s parent -> s_parent s = None ->
  w_segments w' !! p = Some (seg_parent parent s) /\ w_txns w' = w_txns w /\ w_stacks w' = w_stacks w
  /\ (forall x sx, x <> p -> w_segments w !! x = Some sx ->
        exists ch, w_segments w' !! x = Some (seg_children ch sx) /\ (Some x <> parent -> ch = s_children sx))
  /\ forall x, is_Some (w_segments w' !! x) -> x = p \/ is_Some (w_segments w !! x).
Proof.
  intros Hh Hroot. destruct parent as [q|]; [destruct Hh as (sq & ch & Hq & Hne & ->)|unfold hung in Hh; subst w'];
    cbn [w_segments w_txns w_stacks put_segment set_segments].
  - rewrite lookup_insert_ne, lookup_insert_eq by done. split_and!; [done|done|done| |].
    + intros x sx Hx Hsx. destruct (decide (x = q)) as [->|Hxq].
      * rewrite lookup_insert_eq. simplify_eq. exists ch. by split.
      * rewrite !lookup_insert_ne by congruence. exists (s_children sx). rewrite Hsx. by destruct sx.
    + intros x [<-|[_ [<-|[_ Hx]]%lookup_insert_is_Some]]%lookup_insert_is_Some; [right; by eexists|by left|by right].
  - rewrite lookup_insert_eq. split_and!; [by destruct s; simpl in *; subst|done|done| |].
    + intros x sx Hx Hsx. rewrite lookup_insert_ne by congruence. exists (s_children sx). rewrite Hsx. by destruct sx.
    + intros x [<-|[_ Hx]]%lookup_insert_is_Some; [by left|by right].
Qed.

(** The parent a new segment gets: the one asked for, or the current segment. *)
Definition effective_parent (parent : option seg_ptr) (l : list seg_ptr) : option seg_ptr :=
  match parent with Some q => Some q | None => last l end.

Definition stack_after (parent : option seg_ptr) (l : list seg_ptr) (p : seg_ptr) : list seg_ptr :=
  match parent with Some _ => l | None => l ++ [p] end.

(** What [nr_segment_start] does to the world. *)
Record started w w' (tp : txn_ptr) (t : nrtxn_t S P) (parent : option seg_ptr) (l : list seg_ptr) (p : seg_ptr) : Prop := {
  sa_fresh : w_segments w !! p = None;
  sa_segment : w_segments w' !! p = Some (seg_parent (effective_parent parent l)
    (started_segment tp (nr_time_duration (t_abs_start_time t) (fst (read_clock clock w)))));
  sa_others : forall x sx, w_segments w !! x = Some sx -> exists ch, w_segments w' !! x = Some (seg_children ch sx)
    /\ (Some x <> effective_parent parent l -> ch = s_children sx);
  sa_dom : forall x, is_Some (w_segments w' !! x) -> x = p \/ is_Some (w_segments w !! x);
  sa_txns : exists slab v, w_txns w' = <[tp := with_default_parent_stack v (with_segment_slab slab t)]> (w_txns w)
    /\ is_Some slab /\ current_stack (with_default_parent_stack v t) (stack_after parent l p);
}.

Lemma nr_segment_start_spec w kids tp t slab l parent :
  world_ok w kids -> Z.of_nat (size (w_segments w)) + 1 < 2 ^ 29 ->
  w_txns w !! tp = Some t -> recording (t_status t) <> 0 -> t_segment_slab t = Some slab ->
  oa_next (w_mem w) (Some slab) <> None ->
  current_stack t l -> (forall x, x ∈ l -> owned (w_segments w) tp x) ->
  (forall q, parent = Some q -> owned (w_segments w) tp q) ->
  exists p w', nr_segment_start realloc_ok clock (Some tp) parent None w = Some (Some p, w')
    /\ world_ok w' (hung_kids kids p (effective_parent parent l)) /\ started w w' tp t parent l p.
Proof.
  intros Hw Hsize Ht Hrec Hslab Hmem Hl Hown Hparent. unfold nr_segment_start. rewrite Ht. cbn [mbind option_bind].
  destruct (Z.eqb_spec (recording (t_status t)) 0); [done|]. rewrite Hslab.
  destruct (oa_next (w_mem w) (Some slab)) as [r|] eqn:Hnext; [|done]. cbn [mbind option_bind].
  destruct (world_ok_next w kids tp t slab r Hw Ht Hslab Hnext) as (p & slab' & mem & -> & Hfresh & Hw1 & Hs1).
  set (t1 := with_segment_slab (Some slab') t) in *. set (w1 := set_mem mem (put_txn tp t1 w)) in *.
  assert (Ht1 : w_txns w1 !! tp = Some t1) by apply lookup_insert_eq.
  unfold nr_segment_init, deref_txn. cbn [w_txns put_segment set_segments]. rewrite Ht1. cbn [mbind option_bind].
  assert (Hnow : fst (read_clock clock (put_segment p zeroed_segment w1)) = fst (read_clock clock w))
    by (unfold read_clock; cbn; by destruct (clock (w_tick w))).
  destruct (read_clock clock (put_segment p zeroed_segment w1)) as [now w2] eqn:Eclock. cbn [fst] in Hnow.
  assert (Ew2 : w2 = mk_world (<[p := zeroed_segment]> (w_segments w)) (w_txns w1) (w_stacks w) mem (Datatypes.S (w_tick w))).
  { unfold read_clock in Eclock. cbn in Eclock. destruct (clock (w_tick w)). by injection Eclock as _ <-. }
  rewrite Ew2. cbn [mbind option_bind w_segments]. rewrite lookup_insert_eq. cbn [mbind option_bind].
  change (nr_segment_children_init (Some (s_children zeroed_segment)))
    with (Some (Packed 0 (packed_elements (zeroed_children seg_ptr)))). cbn [mbind option_bind].
  set (start := nr_time_duration (nr_txn_start_time (Some t1)) now).
  set (w3 := mk_world (w_segments w) (w_txns w1) (w_stacks w) mem (Datatypes.S (w_tick w))).
  assert (Hw3 : world_ok w3 kids) by exact (world_ok_clock _ _ _ Hw1).
  match goal with |- context [nr_segment_init_parent _ _ _ _ _ ?x] =>
    replace x with (put_segment p (started_segment tp start) w3) end.
  2:{ unfold put_segment, set_segments. cbn [w_segments w_txns w_stacks w_mem w_tick w3]. by rewrite insert_insert_eq. }
  assert (Htop : nr_txn_get_current_segment (Some tp) None (put_segment p (started_segment tp start) w3)
    = Some (last l)).
  { unfold nr_txn_get_current_segment, deref_txn. cbn [w_txns put_segment set_segments w3]. rewrite Ht1.
    cbn [mbind option_bind]. f_equal. by apply current_stack_top. }
  assert (Heff : forall q, effective_parent parent l = Some q -> owned (w_segments w3) tp q).
  { intros q Hq. destruct parent as [q'|]; [by apply Hparent|]. apply Hown. by apply last_Some_elem_of. }
  destruct (hang_new w3 kids p tp start (effective_parent parent l) Hw3) as (w4 & Hrun & Hhung & Hw4);
    [done|done|by eexists|done|exact Hs1|].
  destruct (hung_lookup _ _ _ _ _ Hhung eq_refl) as (Hp4 & Et4 & _ & Hothers & Hdom).
  assert (Hpl : p ∉ l) by (intros Hin; destruct (Hown p Hin) as (s & Hs & _); congruence).
  assert (Hout : forall x sx, w_segments w !! x = Some sx -> x <> p) by (intros x sx Hx ->; congruence).
  exists p. unfold nr_segment_init_parent. destruct parent as [q|].
  - cbn [effective_parent] in *. rewrite Hrun. cbn [mbind option_bind]. exists w4. split; [done|]. split; [done|].
    constructor; [done| | |done|].
    + rewrite Hp4. unfold start. by rewrite Hnow.
    + intros x sx Hx. apply Hothers; [by eapply Hout|done].
    + exists (Some slab'), (t_default_parent_stack t). rewrite Et4. split; [done|]. split; [done|]. exact Hl.
  - rewrite Htop. cbn [mbind option_bind].
    replace (match last l with Some _ | _ => Some (last l) end) with (Some (last l)) by (by destruct (last l)).
    cbn [mbind option_bind]. cbn [effective_parent] in *. rewrite Hrun. cbn [mbind option_bind].
    unfold nr_txn_set_current_segment. rewrite Hp4. cbn [mbind option_bind s_async_context seg_parent started_segment Z.eqb negb].
    assert (Hlen : (length l <= size (w_segments w))%nat).
    { apply list_length_dom; [apply Hl|]. intros x Hx. destruct (Hown x Hx) as (s & -> & _). done. }
    destruct (push_default_spec w4 tp p t1 l) as (v & -> & Hv); [by rewrite Et4|exact Hl|done|lia|].
    cbn [mbind option_bind]. eexists. split; [done|]. split.
    + eapply world_ok_txn; [exact Hw4|by rewrite Et4| |done]. constructor.
      * exists (l ++ [p]). split; [done|]. intros x [Hx| ->%list_elem_of_singleton]%elem_of_app.
        -- destruct (Hown x Hx) as (sx & Hsx & E). destruct (Hothers x sx) as (ch & Hch & _); [by eapply Hout|done|].
           by eexists.
        -- by eexists.
      * exact (to_pool _ _ _ (wo_txns _ _ Hw tp t Ht)).
    + constructor; [done| | |done|].
      * cbn [w_segments put_txn set_txns]. rewrite Hp4. unfold start. by rewrite Hnow.
      * intros x sx Hx. apply Hothers; [by eapply Hout|done].
      * exists (Some slab'), v. cbn [w_txns put_txn set_txns]. rewrite Et4. cbn [w3 w_txns w1 set_mem put_txn set_txns].
        rewrite insert_insert_eq. split; [done|]. split; [done|]. exact Hv.
Qed.

End Tree.
