(* ===== verification/SegmentIter.v ===== *)
(** * Iterating over segments

    [nr_segment_iterate] of [nr_segment.c]: it calls a function on every segment below a segment, before
    and after the ones below it, and colors what it has seen, so that it ends on any graph. *)

From S2P Require Import Prelude Vector Strings Time StringPool Metrics.
From S2P Require Import HashMap SegmentChildren Slab Datastore Slowsqls Txn Segment.

(* @map nr_segment.c:295-301 nr_segment_toggle_color *)
Definition nr_segment_toggle_color (color : nr_segment_color_t) : nr_segment_color_t :=
  if bool_decide (NR_SEGMENT_WHITE = color) then NR_SEGMENT_GREY else NR_SEGMENT_WHITE.

Lemma toggle_color_ne color : nr_segment_toggle_color color <> color.
Proof. by destruct color. Qed.

Section Iterate.
(** [U] is what [userdata] points to. *)
Context {S P M U : Type}.

Abbreviation world := (world S P M).

Implicit Types (w : world) (u : U) (p : seg_ptr).

(* @map nr_segment.h:169-169 nr_segment_post_iter_t *)
Definition nr_segment_post_iter_t : Type := seg_ptr -> world -> U -> option (world * U).

(** The function to call afterwards, if any. *)
(* @map nr_segment.h:171-180 nr_segment_iter_return_t *)
Definition nr_segment_iter_t : Type := seg_ptr -> world -> U -> option (option nr_segment_post_iter_t * world * U).

(** [todo] children from number [i]. *)
(* @map nr_segment.c:360-363 nr_segment_iterate_helper *)
Fixpoint iterate_children (visit : option seg_ptr -> world -> U -> option (world * U)) p (i : Z) (todo : nat) w u
  : option (world * U) :=
  match todo with
  | O => Some (w, u)
  | Datatypes.S todo =>
      s ← w_segments w !! p;
      child ← nr_segment_children_get (Some (s_children s)) i;
      '(w, u) ← visit child w u;
      iterate_children visit p (i + 1) todo w u
  end.

(* @map nr_segment.c:340-371 nr_segment_iterate_helper *)
Fixpoint nr_segment_iterate_helper (fuel : nat) (root : option seg_ptr) (reset_color set_color : nr_segment_color_t)
  (callback : nr_segment_iter_t) w u : option (world * U) :=
  match fuel with
  | O => None
  | Datatypes.S fuel =>
      match root with
      | None => Some (w, u)
      | Some p =>
          s ← w_segments w !! p;
          if bool_decide (reset_color = s_color s) then
            n_children ← nr_segment_children_size (Some (s_children s));
            let w := put_segment p (seg_color set_color s) w in
            '(post_callback, w, u) ← callback p w u;
            '(w, u) ← iterate_children (fun child => nr_segment_iterate_helper fuel child reset_color set_color callback)
                        p 0 (Z.to_nat n_children) w u;
            match post_callback with
            | Some f => f p w u
            | None => Some (w, u)
            end
          else Some (w, u)
      end
  end.

(** Segments are only colored once, so the recursion is no deeper than their number. *)
(* @map nr_segment.c:373-393 nr_segment_iterate *)
Definition nr_segment_iterate (root : option seg_ptr) (callback : option nr_segment_iter_t) w u : option (world * U) :=
  match callback, root with
  | Some callback, Some p =>
      s ← w_segments w !! p;
      nr_segment_iterate_helper (Datatypes.S (size (w_segments w))) root (s_color s) (nr_segment_toggle_color (s_color s)) callback w u
  | _, _ => Some (w, u)
  end.

(** ** On any graph *)

Definition colors w : gmap seg_ptr nr_segment_color_t := s_color <$> w_segments w.
Definition links w : gmap seg_ptr (nr_segment_children_t seg_ptr) := s_children <$> w_segments w.

(** The children of every segment can be read, and are segments. *)
Definition readable (succ : seg_ptr -> list seg_ptr) w : Prop :=
  forall p c, links w !! p = Some c -> holds c (map Some (succ p)) /\ forall q, q ∈ succ p -> is_Some (links w !! q).

(** A call changes neither colors nor children; [seen] lists in [userdata] what was visited. *)
Definition leaves_shape w w' : Prop := colors w' = colors w /\ links w' = links w.

Definition visits_once (seen : U -> list seg_ptr) (callback : nr_segment_iter_t) : Prop :=
  forall p w u, is_Some (links w !! p) ->
    exists post w' u', callback p w u = Some (post, w', u') /\ leaves_shape w w' /\ seen u' = seen u ++ [p]
      /\ forall f, post = Some f -> forall w u, is_Some (links w !! p) ->
           exists w' u', f p w u = Some (w', u') /\ leaves_shape w w' /\ seen u' = seen u.

Section Marks.
Context (succ : seg_ptr -> list seg_ptr) (reset set_color : nr_segment_color_t) (Hne : set_color <> reset).
Context (seen : U -> list seg_ptr) (callback : nr_segment_iter_t) (Hcallback : visits_once seen callback).

(** From [p] over segments of the color [reset]. *)
Inductive reaches w : seg_ptr -> seg_ptr -> Prop :=
  | reaches_here p : colors w !! p = Some reset -> reaches w p p
  | reaches_child p c q : colors w !! p = Some reset -> c ∈ succ p -> reaches w c q -> reaches w p q.

(** What a part of the iteration did, that visited [vis]. *)
Record marked w u w' u' (vis : list seg_ptr) : Prop := {
  mk_links : links w' = links w;
  mk_nodup : NoDup vis;
  mk_fresh : forall q, q ∈ vis -> colors w !! q = Some reset;
  mk_colors : forall q, colors w' !! q = if decide (q ∈ vis) then Some set_color else colors w !! q;
  mk_closed : forall q c, q ∈ vis -> c ∈ succ q -> colors w' !! c <> Some reset;
  mk_seen : seen u' = seen u ++ vis;
}.

Lemma marked_nil w u : marked w u w u [].
Proof.
  constructor; [done|constructor|by intros q ?%elem_of_nil| |by intros q c ?%elem_of_nil|by rewrite app_nil_r].
  intros q. case_decide as Hq; [by apply elem_of_nil in Hq|done].
Qed.

Lemma marked_app w u w1 u1 w2 u2 vis1 vis2 :
  marked w u w1 u1 vis1 -> marked w1 u1 w2 u2 vis2 -> marked w u w2 u2 (vis1 ++ vis2).
Proof.
  intros [El1 Hn1 Hf1 Hc1 Hk1 Es1] [El2 Hn2 Hf2 Hc2 Hk2 Es2].
  assert (Hfresh : forall q, q ∈ vis2 -> q ∉ vis1 /\ colors w !! q = Some reset).
  { intros q Hq. pose proof (Hf2 q Hq) as E. rewrite Hc1 in E. case_decide; [congruence|done]. }
  constructor.
  - by rewrite El2.
  - apply NoDup_app. split; [done|]. split; [|done]. intros q Hq1 Hq2. by apply (Hfresh q).
  - intros q [Hq|Hq]%elem_of_app; [by apply Hf1|by apply Hfresh].
  - intros q. rewrite Hc2, Hc1. repeat case_decide; try done; set_solver.
  - intros q c [Hq|Hq]%elem_of_app Hc; [|by apply (Hk2 q)]. rewrite Hc2. case_decide; [congruence|by apply (Hk1 q)].
  - by rewrite Es2, Es1, (assoc_L (++)).
Qed.

(** The number of segments not visited yet. *)
Definition unmarked w : nat := size (filter (fun x => x.2 = reset) (colors w)).

Lemma unmarked_insert w w' p :
  colors w !! p = Some reset -> colors w' = <[p := set_color]> (colors w) -> Datatypes.S (unmarked w') = unmarked w.
Proof.
  intros Hp E. unfold unmarked. rewrite E, map_filter_insert_False by done.
  rewrite map_filter_delete.
  rewrite map_size_delete_Some; [|exists reset; by apply map_lookup_filter_Some_2].
  assert (0 < size (filter (fun x => x.2 = reset) (colors w)))%nat; [|lia].
  apply Nat.neq_0_lt_0, map_size_non_empty_iff. intros Hempty. assert (Hin : filter (fun x => x.2 = reset) (colors w) !! p = Some reset) by by apply map_lookup_filter_Some_2.
  by rewrite Hempty, lookup_empty in Hin.
Qed.

Lemma unmarked_le w u w' u' vis : marked w u w' u' vis -> (unmarked w' <= unmarked w)%nat.
Proof.
  intros Hm. unfold unmarked. apply map_subseteq_size. apply map_subseteq_spec. intros q c. rewrite !map_lookup_filter_Some.
  intros [Hq E]. cbn in E. subst c. split; [|done]. rewrite (mk_colors _ _ _ _ _ Hm) in Hq. by case_decide; [congruence|].
Qed.

Lemma marked_not_reset w u w' u' vis q : marked w u w' u' vis -> colors w !! q <> Some reset -> colors w' !! q <> Some reset.
Proof. intros Hm Hq. rewrite (mk_colors _ _ _ _ _ Hm). by case_decide; [congruence|]. Qed.

Lemma reaches_mono w w' p q :
  (forall x, colors w' !! x = Some reset -> colors w !! x = Some reset) -> reaches w' p q -> reaches w p q.
Proof. intros Hc. induction 1 as [p Hp|p c q Hp Hin _ IH]; [apply reaches_here|eapply reaches_child]; eauto. Qed.

Lemma marked_reset w u w' u' vis q : marked w u w' u' vis -> colors w' !! q = Some reset -> colors w !! q = Some reset.
Proof. intros Hm. rewrite (mk_colors _ _ _ _ _ Hm). by case_decide; [congruence|]. Qed.

Lemma readable_links w w' : links w' = links w -> readable succ w -> readable succ w'.
Proof. unfold readable. by intros ->. Qed.

Lemma links_segment w p : is_Some (links w !! p) -> exists s, w_segments w !! p = Some s.
Proof. unfold links. rewrite lookup_fmap, fmap_is_Some. by intros [s Hs]; exists s. Qed.

(** What the iteration from a segment does. *)
Definition iterates (fuel : nat) (root : option seg_ptr) w u : Prop :=
  exists w' u' vis, nr_segment_iterate_helper fuel root reset set_color callback w u = Some (w', u') /\ marked w u w' u' vis
    /\ (forall p, root = Some p -> colors w' !! p <> Some reset) /\ forall q, q ∈ vis -> exists p, root = Some p /\ reaches w p q.

Lemma children_marks (fuel : nat) p :
  (forall root w u, readable succ w -> (forall p, root = Some p -> is_Some (links w !! p)) -> (unmarked w < fuel)%nat ->
   iterates fuel root w u) ->
  forall cs i w u, drop i (succ p) = cs -> readable succ w -> is_Some (links w !! p) -> (unmarked w < fuel)%nat ->
    exists w' u' vis,
      iterate_children (fun child => nr_segment_iterate_helper fuel child reset set_color callback) p (Z.of_nat i) (length cs) w u
        = Some (w', u')
      /\ marked w u w' u' vis /\ (forall c, c ∈ cs -> colors w' !! c <> Some reset)
      /\ forall q, q ∈ vis -> exists c, c ∈ cs /\ reaches w c q.
Proof.
  intros IH cs. induction cs as [|c cs IHcs]; intros i w u Hdrop Hr Hp Hfuel; cbn [length iterate_children].
  { exists w, u, []. split; [done|]. split; [apply marked_nil|]. split; [by intros c ?%elem_of_nil|by intros q ?%elem_of_nil]. }
  destruct (links_segment w p Hp) as [s Hs]. rewrite Hs. cbn [mbind option_bind].
  assert (Hlink : links w !! p = Some (s_children s)) by (unfold links; by rewrite lookup_fmap, Hs).
  destruct (Hr p _ Hlink) as [Hholds Hlive]. rewrite (holds_get _ _ i Hholds), list_lookup_fmap.
  assert (Hi : succ p !! i = Some c) by (rewrite <- (Nat.add_0_r i), <- lookup_drop, Hdrop; done).
  rewrite Hi. cbn [fmap option_fmap option_map mbind option_bind].
  destruct (IH (Some c) w u Hr) as (w1 & u1 & vis1 & -> & Hm1 & Hc1 & Hv1); [|done|].
  { intros q [= <-]. apply Hlive. by eapply list_elem_of_lookup_2. }
  cbn [mbind option_bind]. replace (Z.of_nat i + 1) with (Z.of_nat (Datatypes.S i)) by lia.
  destruct (IHcs (Datatypes.S i) w1 u1) as (w2 & u2 & vis2 & -> & Hm2 & Hc2 & Hv2).
  - rewrite (drop_S _ c) in Hdrop by done. by injection Hdrop.
  - eapply readable_links; [apply Hm1|done].
  - by rewrite (mk_links _ _ _ _ _ Hm1).
  - pose proof (unmarked_le _ _ _ _ _ Hm1). lia.
  - exists w2, u2, (vis1 ++ vis2). split; [done|]. split; [by eapply marked_app|]. split.
    + intros q [->|Hq]%elem_of_cons; [|by apply Hc2]. eapply marked_not_reset; [exact Hm2|by apply Hc1].
    + intros q [Hq|Hq]%elem_of_app.
      * destruct (Hv1 q Hq) as (x & [= <-] & Hx). exists c. split; [left|done].
      * destruct (Hv2 q Hq) as (x & Hx & Hreach). exists x. split; [by right|].
        eapply reaches_mono; [|exact Hreach]. intros y. by eapply marked_reset.
Qed.

Lemma helper_marks (fuel : nat) root w u :
  readable succ w -> (forall p, root = Some p -> is_Some (links w !! p)) -> (unmarked w < fuel)%nat -> iterates fuel root w u.
Proof.
  revert root w u. induction fuel as [|fuel IH]; intros root w u Hr Hroot Hfuel; [lia|]. unfold iterates. cbn [nr_segment_iterate_helper].
  destruct root as [p|].
  2:{ exists w, u, []. split; [done|]. split; [apply marked_nil|]. split; [done|by intros q ?%elem_of_nil]. }
  destruct (links_segment w p (Hroot p eq_refl)) as [s Hs]. rewrite Hs. cbn [mbind option_bind].
  assert (Ecolor : colors w !! p = Some (s_color s)) by (unfold colors; by rewrite lookup_fmap, Hs).
  case_bool_decide as Hcolor.
  2:{ exists w, u, []. split; [done|]. split; [apply marked_nil|]. split; [intros q [= <-]; congruence|by intros q ?%elem_of_nil]. }
  rewrite <- Hcolor in Ecolor.
  assert (Hlink : links w !! p = Some (s_children s)) by (unfold links; by rewrite lookup_fmap, Hs).
  destruct (Hr p _ Hlink) as [Hholds Hlive]. rewrite (holds_size _ _ Hholds), length_fmap. cbn [mbind option_bind]. rewrite Nat2Z.id.
  set (w1 := put_segment p (seg_color set_color s) w).
  assert (Ec1 : colors w1 = <[p := set_color]> (colors w)) by (unfold colors, w1; cbn; apply fmap_insert).
  assert (El1 : links w1 = links w).
  { unfold links, w1. cbn [w_segments put_segment set_segments]. rewrite fmap_insert. by apply insert_id. }
  destruct (Hcallback p w1 u) as (post & w2 & u2 & -> & [Ec2 El2] & Es2 & Hpost); [rewrite El1; by eexists|]. cbn [mbind option_bind].
  pose proof (unmarked_insert w w2 p Ecolor ltac:(by rewrite Ec2)) as Hless.
  destruct (children_marks fuel p IH (succ p) 0 w2 u2) as (w3 & u3 & vis & Erun & Hm & Hclosed & Hv).
  - by rewrite drop_0.
  - by eapply readable_links; [rewrite El2|].
  - rewrite El2, El1. by eexists.
  - lia.
  - change (Z.of_nat 0) with 0 in Erun. rewrite Erun. cbn [mbind option_bind].
    assert (Hend : exists w4 u4, match post with Some f => f p w3 u3 | None => Some (w3, u3) end = Some (w4, u4)
                     /\ leaves_shape w3 w4 /\ seen u4 = seen u3).
    { destruct post as [f|]; [|by exists w3, u3]. apply (Hpost f eq_refl w3 u3).
      rewrite (mk_links _ _ _ _ _ Hm), El2, El1. by eexists. }
    destruct Hend as (w4 & u4 & Eend & [Ec4 El4] & Es4). exists w4, u4, (p :: vis). split; [exact Eend|].
    assert (Hp2 : colors w2 !! p = Some set_color) by by rewrite Ec2, Ec1, lookup_insert_eq.
    assert (Hpv : p ∉ vis) by (intros Hin; apply (mk_fresh _ _ _ _ _ Hm) in Hin; congruence).
    assert (Hback : forall q, colors w2 !! q = Some reset -> colors w !! q = Some reset).
    { intros q. rewrite Ec2, Ec1, lookup_insert_Some. intros [[_ E]|[_ E]]; [by destruct Hne|done]. }
    split; [constructor|split].
    + by rewrite El4, (mk_links _ _ _ _ _ Hm), El2.
    + constructor; [done|apply Hm].
    + intros q [->|Hq]%elem_of_cons; [done|]. by apply Hback, (mk_fresh _ _ _ _ _ Hm).
    + intros q. rewrite Ec4, (mk_colors _ _ _ _ _ Hm), Ec2, Ec1. destruct (decide (q = p)) as [->|Hqp].
      * rewrite lookup_insert_eq. rewrite (decide_True (P := p ∈ p :: vis)) by left. by case_decide.
      * rewrite lookup_insert_ne by done. repeat case_decide; set_solver.
    + intros q c [->|Hq]%elem_of_cons Hc; rewrite Ec4; [by apply Hclosed|by apply (mk_closed _ _ _ _ _ Hm q)].
    + rewrite Es4, (mk_seen _ _ _ _ _ Hm), Es2, <- (assoc_L (++)). done.
    + intros q [= <-]. rewrite Ec4. eapply marked_not_reset; [exact Hm|]. congruence.
    + intros q [->|Hq]%elem_of_cons; exists p; (split; [done|]); [by apply reaches_here|].
      destruct (Hv q Hq) as (c & Hc & Hreach). eapply reaches_child; [done|exact Hc|]. by eapply reaches_mono.
Qed.

(** Everything that can be reached was visited. *)
Lemma marked_reaches w u w' u' vis p q :
  marked w u w' u' vis -> reaches w p q -> colors w' !! p <> Some reset -> q ∈ vis.
Proof.
  intros Hm Hreach. induction Hreach as [p Hp|p c q Hp Hc Hreach IH]; intros Hp'.
  - rewrite (mk_colors _ _ _ _ _ Hm) in Hp'. case_decide; [done|by destruct Hp'].
  - apply IH. apply (mk_closed _ _ _ _ _ Hm p); [|done].
    rewrite (mk_colors _ _ _ _ _ Hm) in Hp'. case_decide; [done|by destruct Hp'].
Qed.

End Marks.

(* @about nr_segment_iterate nr_segment_iterate_helper iterate_children nr_segment_toggle_color nr_segment_children_get nr_segment_children_size *)
(** C20 (termination): iterating over segments ends on every graph, with cycles and with segments that
    are children of several, as the comment on [nr_segment_iterate_helper] claims.  Let the children of
    every segment be segments and the function to call change neither colors nor children.  Then the
    iteration returns; it has called the function exactly once for each segment that can be reached
    from the root over segments of the color of the root, and for no other; these have the other
    color now, the rest the color they had. *)
Theorem nr_segment_iterate_visits (succ : seg_ptr -> list seg_ptr) (seen : U -> list seg_ptr) (callback : nr_segment_iter_t)
  (root : seg_ptr) s w u :
  visits_once seen callback -> readable succ w -> w_segments w !! root = Some s ->
  exists w' u' vis, nr_segment_iterate (Some root) (Some callback) w u = Some (w', u')
    /\ seen u' = seen u ++ vis /\ NoDup vis /\ (forall q, q ∈ vis <-> reaches succ (s_color s) w root q)
    /\ (forall q, colors w' !! q = if decide (q ∈ vis) then Some (nr_segment_toggle_color (s_color s)) else colors w !! q)
    /\ links w' = links w.
Proof.
  intros Hcallback Hr Hs. unfold nr_segment_iterate. rewrite Hs. cbn [mbind option_bind].
  destruct (helper_marks succ (s_color s) (nr_segment_toggle_color (s_color s)) (toggle_color_ne _) seen callback Hcallback
    (Datatypes.S (size (w_segments w))) (Some root) w u Hr) as (w' & u' & vis & -> & Hm & Hroot & Hv).
  - intros p [= <-]. exists (s_children s). unfold links. by rewrite lookup_fmap, Hs.
  - unfold unmarked. assert (Hle : (size (filter (fun x => x.2 = s_color s) (colors w)) <= size (colors w))%nat)
      by apply map_subseteq_size, map_filter_subseteq.
    unfold colors in *. rewrite map_size_fmap in Hle. lia.
  - exists w', u', vis. split; [done|]. split; [apply Hm|]. split; [apply Hm|]. split; [|split; apply Hm]. intros q. split.
    + intros Hq. by destruct (Hv q Hq) as (x & [= <-] & Hx).
    + intros Hreach. by eapply marked_reaches; [exact Hm|exact Hreach|apply Hroot].
Qed.

End Iterate.

(** ** Witness *)

(** Two segments, each a child of the other, and of itself. *)
Definition looped (children : list seg_ptr) : nr_segment_t :=
  seg_children (Packed (Z.of_nat (length children)) (map Some children ++ replicate (8 - length children) None)) zeroed_segment.

Definition looped_world : world unit nrstrpool_t Z :=
  mk_world (<[1 := looped [1; 2]]> (<[2 := looped [2; 1]]> ∅)) ∅ ∅ 0 Datatypes.O.

Definition looped_succ (p : seg_ptr) : list seg_ptr := if p =? 1 then [1; 2] else [2; 1].

(** Remembering what was visited. *)
Definition remember : nr_segment_iter_t (S := unit) (P := nrstrpool_t) (M := Z) (U := list seg_ptr) := fun p w l => Some (None, w, l ++ [p]).

Lemma remember_visits : visits_once (fun l => l) remember.
Proof. intros p w l _. exists None, w, (l ++ [p]). split; [done|]. split; [done|]. split; [done|]. by intros f [=]. Qed.

Lemma looped_readable : readable looped_succ looped_world.
Proof.
  intros p c. unfold links. rewrite lookup_fmap, fmap_Some. intros (s & Hs & ->). cbn [looped_world w_segments] in Hs.
  assert (Hin : forall q, q ∈ [1; 2] \/ q ∈ [2; 1] -> is_Some (links looped_world !! q)).
  { intros q Hq. assert (q = 1 \/ q = 2) as [->| ->] by (rewrite !elem_of_cons, !elem_of_nil in Hq; tauto); by eexists. }
  apply lookup_insert_Some in Hs as [[<- <-]|[Hp Hs]].
  - split; [by split_and!|]. intros q Hq. apply Hin. by left.
  - apply lookup_insert_Some in Hs as [[<- <-]|[_ [=]]]. split; [by split_and!|]. intros q Hq. apply Hin. by right.
Qed.

Lemma nr_segment_iterate_visits_witness :
  exists w', nr_segment_iterate (Some 1) (Some remember) looped_world [] = Some (w', [1; 2])
    /\ colors w' !! 2 = Some NR_SEGMENT_GREY.
Proof.
  destruct (nr_segment_iterate_visits looped_succ (fun l => l) remember 1 (looped [1; 2]) looped_world []) as (w' & u' & vis & E & Eu & _ & _ & Hc & _).
  - exact remember_visits.
  - exact looped_readable.
  - reflexivity.
  - assert (Erun : (fun r => r.2) <$> nr_segment_iterate (Some 1) (Some remember) looped_world [] = Some [1; 2]) by by vm_compute.
    rewrite E in Erun. injection Erun as ->. exists w'. split; [exact E|]. rewrite Hc. cbn [app] in Eu. subst vis. reflexivity.
Defined.
