(* ===== verification/SegmentTour.v ===== *)
(** * The order of an iteration over a tree

    In a forest the iteration of [nr_segment_iterate] enters and leaves the segments in the order of
    their tree; a rule to reason about what the functions it calls do along that order. *)

From S2P Require Import Prelude Vector Strings Time StringPool Metrics.
From S2P Require Import HashMap SegmentChildren Slab Datastore Slowsqls Txn Segment SegmentIter.

(** A segment is entered before those below it and left after them. *)
Inductive visit : Type := Enter (p : seg_ptr) | Leave (p : seg_ptr).

#[export] Instance visit_eq_dec : EqDecision visit.
Proof. solve_decision. Defined.

(** The segments entered, in order. *)
Definition entered (T : list visit) : list seg_ptr := omap (fun v => match v with Enter p => Some p | Leave _ => None end) T.

Lemma entered_app T T' : entered (T ++ T') = entered T ++ entered T'.
Proof. apply omap_app. Qed.

Lemma elem_of_entered T p : p ∈ entered T <-> Enter p ∈ T.
Proof.
  unfold entered. rewrite list_elem_of_omap. split; [|intros Hp; by exists (Enter p)].
  intros ([q|q] & Hq & E); [by injection E as ->|done].
Qed.

(** The segments left, in order. *)
Definition finished (T : list visit) : list seg_ptr := omap (fun v => match v with Enter _ => None | Leave p => Some p end) T.

Lemma finished_app T T' : finished (T ++ T') = finished T ++ finished T'.
Proof. apply omap_app. Qed.

(** The tour of the tree below a segment. *)
Inductive tour (kids : seg_ptr -> list seg_ptr) : seg_ptr -> list visit -> Prop :=
  | tour_node p T : tours kids (kids p) T -> tour kids p (Enter p :: T ++ [Leave p])
with tours (kids : seg_ptr -> list seg_ptr) : list seg_ptr -> list visit -> Prop :=
  | tours_nil : tours kids [] []
  | tours_cons c cs T Ts : tour kids c T -> tours kids cs Ts -> tours kids (c :: cs) (T ++ Ts).

Scheme tour_min := Minimality for tour Sort Prop with tours_min := Minimality for tours Sort Prop.
Combined Scheme tour_tours_ind from tour_min, tours_min.

(** A segment is entered below one that is entered and not left yet, and left after all its children
    were entered. *)
Lemma tour_nested kids :
  (forall p T, tour kids p T -> forall l r x,
     (T = l ++ Enter x :: r -> x = p /\ l = [] \/ exists q, x ∈ kids q /\ Enter q ∈ l /\ Leave q ∈ r)
     /\ (T = l ++ Leave x :: r -> Enter x ∈ l /\ forall c, c ∈ kids x -> Enter c ∈ l))
  /\ forall cs T, tours kids cs T -> (forall c, c ∈ cs -> Enter c ∈ T) /\ forall l r x,
     (T = l ++ Enter x :: r -> x ∈ cs \/ exists q, x ∈ kids q /\ Enter q ∈ l /\ Leave q ∈ r)
     /\ (T = l ++ Leave x :: r -> Enter x ∈ l /\ forall c, c ∈ kids x -> Enter c ∈ l).
Proof.
  apply (tour_tours_ind kids
    (fun p T => forall l r x,
     (T = l ++ Enter x :: r -> x = p /\ l = [] \/ exists q, x ∈ kids q /\ Enter q ∈ l /\ Leave q ∈ r)
     /\ (T = l ++ Leave x :: r -> Enter x ∈ l /\ forall c, c ∈ kids x -> Enter c ∈ l))
    (fun cs T => (forall c, c ∈ cs -> Enter c ∈ T) /\ forall l r x,
     (T = l ++ Enter x :: r -> x ∈ cs \/ exists q, x ∈ kids q /\ Enter q ∈ l /\ Leave q ∈ r)
     /\ (T = l ++ Leave x :: r -> Enter x ∈ l /\ forall c, c ∈ kids x -> Enter c ∈ l))).
  - intros p T _ [Hkids IH] l r x. split; intros E; (destruct l as [|v l]; [first [discriminate E|injection E as -> _; by left; split]|]); injection E as <- E;
      apply app_eq_inv in E as [(k & El & Er)|(k & El & Er)].
    + destruct k as [|v k]; [done|]. injection Er as <- ->. right.
      destruct (proj1 (IH l k x) El) as [Hx|(q & Hq & Hl & Hr)]; [exists p; split_and!; [done|left|apply elem_of_app; right; left]|].
      exists q. split_and!; [done|by right|apply elem_of_app; by left].
    + by destruct k as [|v [|]].
    + destruct k as [|v k].
      * injection Er as -> ->. rewrite app_nil_r in El. subst l. split; [left|]. intros c Hc. right. by apply Hkids.
      * injection Er as <- ->. destruct (proj2 (IH l k x) El) as [Hx Hc]. split; [by right|]. intros c Hin. right. by apply Hc.
    + destruct k as [|v [|]]; [|done|done]. injection Er as <- <-. rewrite app_nil_r in El. subst l.
      split; [left|]. intros c Hc. right. by apply Hkids.
  - split; [by intros c ?%elem_of_nil|]. intros l r x. split; by destruct l.
  - intros c cs T Ts HT IH _ [Hkids IHs]. split.
    + intros c' [->|Hc']%elem_of_cons; apply elem_of_app; [left; inversion HT; left|right; by apply Hkids].
    + intros l r x. split; intros [(k & -> & Er)|(k & -> & Er)]%app_eq_inv.
      * destruct k as [|v k].
        -- cbn [app] in Er. destruct (proj1 (IHs [] r x) (eq_sym Er)) as [Hx|(q & Hq & Hl & _)]; [left; by right|by apply elem_of_nil in Hl].
        -- injection Er as <- ->. destruct (proj1 (IH l k x) eq_refl) as [[-> _]|(q & Hq & Hl & Hr)]; [left; left|right].
           exists q. split_and!; [done|done|apply elem_of_app; by left].
      * destruct (proj1 (IHs k r x) Er) as [Hx|(q & Hq & Hl & Hr)]; [left; by right|right].
        exists q. split_and!; [done|apply elem_of_app; by right|done].
      * destruct k as [|v k].
        -- cbn [app] in Er. destruct (proj2 (IHs [] r x) (eq_sym Er)) as [Hx _]. by apply elem_of_nil in Hx.
        -- injection Er as <- ->. by apply (proj2 (IH l k x)).
      * destruct (proj2 (IHs k r x) Er) as [Hx Hc]. split; [apply elem_of_app; by right|].
        intros c' Hc'. apply elem_of_app. right. by apply Hc.
Qed.

Section Tours.
Context (segments : gmap seg_ptr nr_segment_t) (kids : seg_ptr -> list seg_ptr) (Hforest : forest segments kids).

Abbreviation up := (parent_in segments).

Lemma kid_parent p c : c ∈ kids p -> up c = Some p.
Proof. intros (s & Hs & Hp)%(fo_link _ _ Hforest). unfold parent_in. by rewrite Hs. Qed.

Lemma kid_live p c : c ∈ kids p -> is_Some (segments !! c).
Proof. intros (s & Hs & _)%(fo_link _ _ Hforest). by exists s. Qed.

Lemma kid_parent_live p c : c ∈ kids p -> is_Some (segments !! p).
Proof. intros (s & Hs & Hp)%(fo_link _ _ Hforest). destruct (fo_parent _ _ Hforest c s p Hs Hp) as (s' & -> & _). done. Qed.

(** A tour stays below its root. *)
Lemma tour_below :
  (forall p T, tour kids p T -> forall lp, chain up p lp -> forall x, Enter x ∈ T -> exists a, chain up x (a ++ lp))
  /\ forall cs T, tours kids cs T -> forall p lp, (forall c, c ∈ cs -> c ∈ kids p) -> chain up p lp ->
       forall x, Enter x ∈ T -> exists c a, c ∈ cs /\ chain up x (a ++ c :: lp).
Proof.
  apply (tour_tours_ind kids (fun p T => forall lp, chain up p lp -> forall x, Enter x ∈ T -> exists a, chain up x (a ++ lp))
    (fun cs T => forall p lp, (forall c, c ∈ cs -> c ∈ kids p) -> chain up p lp ->
       forall x, Enter x ∈ T -> exists c a, c ∈ cs /\ chain up x (a ++ c :: lp))).
  - intros p T _ IH lp Hlp x Hx. rewrite elem_of_cons, elem_of_app, list_elem_of_singleton in Hx. destruct Hx as [[= ->]|[Hx|[=]]].
    + by exists [].
    + destruct (IH p lp (fun c Hc => Hc) Hlp x Hx) as (c & a & _ & Hc). exists (a ++ [c]). by rewrite <- (assoc_L (++)).
  - intros p lp _ _ x Hx. by apply elem_of_nil in Hx.
  - intros c cs T Ts _ IH _ IHs p lp Hcs Hlp x [Hx|Hx]%elem_of_app.
    + destruct (IH (c :: lp)) with (x := x) as (a & Ha); [|done|].
      { eapply chain_step; [|done]. apply kid_parent, Hcs. left. }
      exists c, a. split; [left|done].
    + destruct (IHs p lp (fun c' Hc' => Hcs c' (list_elem_of_further _ _ _ Hc')) Hlp x Hx) as (c' & a & Hc' & Ha).
      exists c', a. split; [by right|done].
Qed.

Lemma leave_enter :
  (forall p T, tour kids p T -> forall x, Leave x ∈ T <-> Enter x ∈ T)
  /\ forall cs T, tours kids cs T -> forall x, Leave x ∈ T <-> Enter x ∈ T.
Proof.
  apply (tour_tours_ind kids (fun p T => forall x, Leave x ∈ T <-> Enter x ∈ T) (fun cs T => forall x, Leave x ∈ T <-> Enter x ∈ T)).
  - intros p T _ IH x. rewrite !elem_of_cons, !elem_of_app, !list_elem_of_singleton, IH. naive_solver.
  - intros x. by rewrite !elem_of_nil.
  - intros c cs T Ts _ IH _ IHs x. by rewrite !elem_of_app, IH, IHs.
Qed.

Lemma below_two p lp c c' x a a' :
  chain up p lp -> chain up x (a ++ c :: lp) -> chain up x (a' ++ c' :: lp) -> c = c'.
Proof.
  intros Hp Hx Hx'. pose proof (chain_det _ _ _ _ Hx Hx') as E.
  assert (El : length a = length a') by (apply (f_equal length) in E; rewrite !length_app in E; cbn in E; lia).
  by apply app_inj_1 in E as [_ [= ->]].
Qed.

Lemma not_below_itself p lp a c : chain up p lp -> ~ chain up p (a ++ c :: lp).
Proof.
  intros Hp Hp'. pose proof (chain_det _ _ _ _ Hp Hp') as E. apply (f_equal length) in E.
  rewrite length_app in E. cbn in E. lia.
Qed.

(** Every segment is entered and left once. *)
Lemma tour_nodup :
  (forall p T, tour kids p T -> forall lp, chain up p lp -> NoDup T)
  /\ forall cs T, tours kids cs T -> forall p lp, (forall c, c ∈ cs -> c ∈ kids p) -> NoDup cs -> chain up p lp -> NoDup T.
Proof.
  apply (tour_tours_ind kids (fun p T => forall lp, chain up p lp -> NoDup T)
    (fun cs T => forall p lp, (forall c, c ∈ cs -> c ∈ kids p) -> NoDup cs -> chain up p lp -> NoDup T)).
  - intros p T HT IH lp Hlp.
    assert (Hnot : Enter p ∉ T).
    { intros Hin. destruct (proj2 tour_below _ _ HT p lp (fun c Hc => Hc) Hlp p Hin) as (c & a & _ & Hc). exact (not_below_itself p lp a c Hlp Hc). }
    apply NoDup_cons. split; [rewrite elem_of_app, list_elem_of_singleton; by intros [?|[=]]|].
    apply NoDup_app. split; [apply (IH p lp); [done|apply (fo_nodup _ _ Hforest)|done]|]. split; [|apply NoDup_singleton].
    intros v Hv ->%list_elem_of_singleton. by apply Hnot, (proj2 leave_enter _ _ HT).
  - intros p lp _ _ _. apply NoDup_nil_2.
  - intros c cs T Ts HT IH HTs IHs p lp Hcs Hnd Hlp. apply NoDup_cons in Hnd as [Hc Hnd].
    assert (Hlc : chain up c (c :: lp)) by (eapply chain_step; [apply kid_parent, Hcs; left|done]).
    assert (Hdisj : forall x, Enter x ∈ T -> Enter x ∈ Ts -> False).
    { intros x Hx Hx'. destruct (proj1 tour_below _ _ HT _ Hlc x Hx) as (a & Ha).
      destruct (proj2 tour_below _ _ HTs p lp (fun c' Hc' => Hcs c' (list_elem_of_further _ _ _ Hc')) Hlp x Hx') as (c' & a' & Hc' & Ha').
      rewrite (below_two p lp c c' x a a' Hlp Ha Ha') in Hc. done. }
    apply NoDup_app. split; [by eapply IH|]. split.
    + intros [x|x] Hx Hx'; [by eapply Hdisj|].
      apply (Hdisj x); [by apply (proj1 leave_enter _ _ HT)|by apply (proj2 leave_enter _ _ HTs)].
    + apply (IHs p lp); [|done..]. intros c' Hc'. apply Hcs. by right.
Qed.

(** A tour visits everything below. *)
Lemma tour_closed :
  (forall p T, tour kids p T -> Enter p ∈ T /\ forall x c, Enter x ∈ T -> c ∈ kids x -> Enter c ∈ T)
  /\ forall cs T, tours kids cs T ->
       (forall c, c ∈ cs -> Enter c ∈ T) /\ forall x c, Enter x ∈ T -> c ∈ kids x -> Enter c ∈ T.
Proof.
  apply (tour_tours_ind kids (fun p T => Enter p ∈ T /\ forall x c, Enter x ∈ T -> c ∈ kids x -> Enter c ∈ T)
    (fun cs T => (forall c, c ∈ cs -> Enter c ∈ T) /\ forall x c, Enter x ∈ T -> c ∈ kids x -> Enter c ∈ T)).
  - intros p T _ [Hkids Hclosed]. split; [left|]. intros x c. rewrite !elem_of_cons, !elem_of_app, !list_elem_of_singleton.
    intros [[= ->]|[Hx|[=]]] Hc; right; left; [by apply Hkids|by eapply Hclosed].
  - split; [by intros c ?%elem_of_nil|by intros x c ?%elem_of_nil].
  - intros c cs T Ts _ [Hc Hclosed] _ [Hcs Hclosed']. split.
    + intros c' [->|Hc']%elem_of_cons; apply elem_of_app; [by left|right; by apply Hcs].
    + intros x c' [Hx|Hx]%elem_of_app Hk; apply elem_of_app; [left; by eapply Hclosed|right; by eapply Hclosed'].
Qed.

Lemma tour_covers p T lp x a : tour kids p T -> chain up p lp -> chain up x (a ++ lp) -> is_Some (segments !! x) -> Enter x ∈ T.
Proof.
  intros HT Hlp. revert x. induction a as [|y a IH]; intros x Hx Hlive; cbn [app] in Hx.
  - assert (x = p) as ->; [|by apply (proj1 tour_closed _ _ HT)].
    inversion Hlp; subst; inversion Hx; by subst.
  - inversion Hx as [y' Hup E1 E2|y' z l Hup Hz E1 E2]; subst.
    + exfalso. destruct a; [|done]. cbn in *. subst. by inversion Hlp.
    + destruct Hlive as [s Hs]. assert (Hpar : s_parent s = Some z) by (unfold parent_in in Hup; by rewrite Hs in Hup).
      apply (proj2 (proj1 tour_closed _ _ HT) z); [|apply (fo_link _ _ Hforest); by exists s].
      apply IH; [done|]. destruct (fo_parent _ _ Hforest _ _ _ Hs Hpar) as (s' & ? & _). by exists s'.
Qed.

(** There is a tour of every tree. *)
Lemma tours_of cs : (forall c, c ∈ cs -> exists T, tour kids c T) -> exists Ts, tours kids cs Ts.
Proof.
  induction cs as [|c cs IH]; intros H; [exists []; constructor|].
  destruct (H c) as [T HT]; [left|]. destruct IH as [Ts HTs]; [intros c' Hc'; apply H; by right|].
  exists (T ++ Ts). by constructor.
Qed.

Lemma tour_exists p : is_Some (segments !! p) -> exists T, tour kids p T.
Proof.
  intros Hp. destruct (fo_chain _ _ Hforest p Hp) as [lp Hlp].
  remember (size segments - length lp)%nat as n eqn:Hn. revert p lp Hp Hlp Hn.
  induction n as [n IH] using lt_wf_ind. intros p lp Hp Hlp ->.
  destruct (tours_of (kids p)) as [T HT]; [|by exists (Enter p :: T ++ [Leave p]); constructor].
  intros c Hc. assert (Hlc : chain up c (c :: lp)) by (eapply chain_step; [by apply kid_parent|done]).
  eapply (IH _ _ c (c :: lp)); [by apply (kid_live p)|done|done].
  Unshelve. cbn [length]. pose proof (list_length_dom segments (c :: lp) (chain_nodup _ _ _ Hlc)
    (chain_segments _ _ _ _ Hforest (kid_live p c Hc) Hlc)) as Hlen. cbn [length] in Hlen. lia.
Qed.

(** The segments of a tree are of one transaction. *)
Lemma tour_txn :
  (forall p T, tour kids p T -> forall s, segments !! p = Some s ->
     forall x, Enter x ∈ T -> exists sx, segments !! x = Some sx /\ s_txn sx = s_txn s)
  /\ forall cs T, tours kids cs T -> forall p s, segments !! p = Some s -> (forall c, c ∈ cs -> c ∈ kids p) ->
     forall x, Enter x ∈ T -> exists sx, segments !! x = Some sx /\ s_txn sx = s_txn s.
Proof.
  apply (tour_tours_ind kids (fun p T => forall s, segments !! p = Some s ->
     forall x, Enter x ∈ T -> exists sx, segments !! x = Some sx /\ s_txn sx = s_txn s)
    (fun cs T => forall p s, segments !! p = Some s -> (forall c, c ∈ cs -> c ∈ kids p) ->
     forall x, Enter x ∈ T -> exists sx, segments !! x = Some sx /\ s_txn sx = s_txn s)).
  - intros p T _ IH s Hs x. rewrite elem_of_cons, elem_of_app, list_elem_of_singleton. intros [[= ->]|[Hx|[=]]]; [by exists s|].
    by apply (IH p s Hs).
  - by intros p s _ _ x ?%elem_of_nil.
  - intros c cs T Ts _ IH _ IHs p s Hs Hcs x [Hx|Hx]%elem_of_app; [|apply (IHs p s); [done| |done]; intros c' Hc'; apply Hcs; by right].
    destruct (proj1 (fo_link _ _ Hforest p c)) as (sc & Hsc & Hpar); [apply Hcs; left|].
    destruct (fo_parent _ _ Hforest c sc p Hsc Hpar) as (s' & Hs' & Et). rewrite Hs in Hs'. injection Hs' as <-. rewrite Et. by apply IH.
Qed.

Lemma nodup_entered T : NoDup T -> NoDup (entered T).
Proof.
  induction T as [|v T IH]; [constructor|]. intros [Hv HT]%NoDup_cons. destruct v as [p|p]; cbn; [|by apply IH].
  apply NoDup_cons. split; [|by apply IH]. intros Hp. apply Hv. by apply elem_of_entered.
Qed.

Lemma tour_size p T : tour kids p T -> is_Some (segments !! p) -> (length (entered T) <= size segments)%nat.
Proof.
  intros HT Hp. destruct (fo_chain _ _ Hforest p Hp) as [lp Hlp]. apply list_length_dom.
  - apply nodup_entered. exact (proj1 tour_nodup p T HT lp Hlp).
  - intros x Hx%elem_of_entered. destruct Hp as [s Hs]. destruct (proj1 tour_txn p T HT s Hs x Hx) as (sx & -> & _). done.
Qed.

End Tours.

(** ** Running along a tour *)

Section Run.
Context {S P M U : Type}.

Abbreviation world := (world S P M).

Context (kids : seg_ptr -> list seg_ptr) (reset set_color : nr_segment_color_t) (callback : nr_segment_iter_t (S := S) (P := P) (M := M) (U := U)).

(** The whole tour, and what holds after a part of it. *)
Context (whole : list visit) (Hwhole : NoDup whole) (I : list visit -> world -> U -> Prop).

(** The function called on leaving a segment. *)
Definition leaves_well (post : option (nr_segment_post_iter_t (S := S) (P := P) (M := M) (U := U))) (p : seg_ptr) : Prop :=
  forall done rest w u, whole = done ++ Leave p :: rest -> I done w u ->
    exists w' u', match post with Some f => f p w u | None => Some (w, u) end = Some (w', u') /\ I (done ++ [Leave p]) w' u'.

(** Until a segment is left its children are the ones of the forest, and its color says whether it was
    entered. *)
Context (Hshape : forall done w u p, I done w u -> Enter p ∈ whole -> Leave p ∉ done ->
  exists s, w_segments w !! p = Some s /\ holds (s_children s) (map Some (kids p))
    /\ s_color s = if decide (Enter p ∈ done) then set_color else reset).
(** The function called on entering a segment, which is colored already. *)
Context (Henter : forall done rest p w u s, whole = done ++ Enter p :: rest -> I done w u -> w_segments w !! p = Some s ->
  exists post w' u', callback p (put_segment p (seg_color set_color s) w) u = Some (post, w', u')
    /\ I (done ++ [Enter p]) w' u' /\ leaves_well post p).

Lemma later_fresh done later v : whole = done ++ later -> v ∈ later -> v ∉ done.
Proof. intros E Hv Hin. rewrite E in Hwhole. apply NoDup_app in Hwhole as (_ & Hd & _). by apply (Hd v Hin). Qed.

Lemma run_tour :
  (forall p T, tour kids p T -> forall done rest w u fuel, whole = done ++ T ++ rest -> I done w u ->
     (length (entered T) <= fuel)%nat ->
     exists w' u', nr_segment_iterate_helper fuel (Some p) reset set_color callback w u = Some (w', u') /\ I (done ++ T) w' u')
  /\ forall cs T, tours kids cs T -> forall p i done rest w u fuel, drop i (kids p) = cs -> Enter p ∈ whole -> Leave p ∈ rest ->
       whole = done ++ T ++ rest -> I done w u -> (length (entered T) <= fuel)%nat ->
       exists w' u', iterate_children (fun child => nr_segment_iterate_helper fuel child reset set_color callback) p (Z.of_nat i)
                       (length cs) w u = Some (w', u') /\ I (done ++ T) w' u'.
Proof.
  apply (tour_tours_ind kids
    (fun p T => forall done rest w u fuel, whole = done ++ T ++ rest -> I done w u ->
     (length (entered T) <= fuel)%nat ->
     exists w' u', nr_segment_iterate_helper fuel (Some p) reset set_color callback w u = Some (w', u') /\ I (done ++ T) w' u')
    (fun cs T => forall p i done rest w u fuel, drop i (kids p) = cs -> Enter p ∈ whole -> Leave p ∈ rest ->
       whole = done ++ T ++ rest -> I done w u -> (length (entered T) <= fuel)%nat ->
       exists w' u', iterate_children (fun child => nr_segment_iterate_helper fuel child reset set_color callback) p (Z.of_nat i)
                       (length cs) w u = Some (w', u') /\ I (done ++ T) w' u')).
  - intros p T _ IH done rest w u fuel E Hi Hfuel. cbn [entered omap list_omap] in Hfuel. fold (entered (T ++ [Leave p])) in Hfuel.
    rewrite entered_app, app_nil_r in Hfuel. cbn [length] in Hfuel. destruct fuel as [|fuel]; [lia|]. cbn [nr_segment_iterate_helper].
    cbn [app] in E. rewrite <- (assoc_L (++)) in E. cbn [app] in E.
    assert (Hin : Enter p ∈ whole) by (rewrite E; apply elem_of_app; right; left).
    destruct (Hshape done w u p Hi Hin) as (s & Hs & Hkids & Hcolor); [apply (later_fresh _ _ _ E); rewrite elem_of_cons, elem_of_app; right; right; left|].
    rewrite decide_False in Hcolor by (apply (later_fresh _ _ _ E); left).
    rewrite Hs. cbn [mbind option_bind]. rewrite bool_decide_eq_true_2 by done. rewrite (holds_size _ _ Hkids). cbn [mbind option_bind].
    rewrite length_fmap, Nat2Z.id. destruct (Henter done _ p w u s E Hi Hs) as (post & w1 & u1 & -> & Hi1 & Hpost). cbn [mbind option_bind].
    destruct (IH p 0%nat (done ++ [Enter p]) (Leave p :: rest) w1 u1 fuel) as (w2 & u2 & E2 & Hi2);
      [done|done|left|by rewrite E, <- (assoc_L (++))|done|lia|].
    change (Z.of_nat 0) with 0 in E2. rewrite E2. cbn [mbind option_bind]. rewrite <- (assoc_L (++)) in Hi2. cbn [app] in Hi2.
    destruct (Hpost (done ++ Enter p :: T) rest w2 u2) as (w3 & u3 & E3 & Hi3); [by rewrite E, <- (assoc_L (++))|done|].
    exists w3, u3. split; [exact E3|]. by rewrite <- (assoc_L (++)) in Hi3.
  - intros p i done rest w u fuel Hdrop _ _ E Hi _. cbn [length iterate_children]. rewrite app_nil_r. by exists w, u.
  - intros c cs T Ts _ IH _ IHs p i done rest w u fuel Hdrop Hin Hleave E Hi Hfuel. cbn [length iterate_children].
    rewrite entered_app, length_app in Hfuel.
    destruct (Hshape done w u p Hi Hin) as (s & Hs & Hkids & _);
      [apply (later_fresh _ _ _ E); rewrite elem_of_app; by right|].
    assert (Hi' : kids p !! i = Some c) by (rewrite <- (Nat.add_0_r i), <- lookup_drop, Hdrop; done).
    rewrite Hs. cbn [mbind option_bind]. rewrite (holds_get _ _ i Hkids), list_lookup_fmap, Hi'.
    cbn [fmap option_fmap option_map mbind option_bind].
    destruct (IH done (Ts ++ rest) w u fuel) as (w1 & u1 & -> & Hi1); [by rewrite E, <- (assoc_L (++))|done|lia|]. cbn [mbind option_bind].
    replace (Z.of_nat i + 1) with (Z.of_nat (Datatypes.S i)) by lia.
    destruct (IHs p (Datatypes.S i) (done ++ T) rest w1 u1 fuel) as (w2 & u2 & -> & Hi2); try done.
    + rewrite (drop_S _ c) in Hdrop by done. by injection Hdrop.
    + by rewrite E, !(assoc_L (++)).
    + lia.
    + exists w2, u2. split; [done|]. by rewrite (assoc_L (++)).
Qed.

End Run.

(** Iterating over a tree runs along its tour. *)
Lemma iterate_tour {S P M U : Type} (segments : gmap seg_ptr nr_segment_t) kids
  (callback : nr_segment_iter_t (S := S) (P := P) (M := M) (U := U)) (I : list visit -> world S P M -> U -> Prop) root T s w u :
  forest segments kids -> tour kids root T -> segments !! root = Some s -> (size segments <= size (w_segments w))%nat ->
  (exists s', w_segments w !! root = Some s' /\ s_color s' = s_color s) ->
  (forall done w u p, I done w u -> Enter p ∈ T -> Leave p ∉ done ->
    exists s', w_segments w !! p = Some s' /\ holds (s_children s') (map Some (kids p))
      /\ s_color s' = if decide (Enter p ∈ done) then nr_segment_toggle_color (s_color s) else s_color s) ->
  (forall done rest p w u s', T = done ++ Enter p :: rest -> I done w u -> w_segments w !! p = Some s' ->
    exists post w' u', callback p (put_segment p (seg_color (nr_segment_toggle_color (s_color s)) s') w) u = Some (post, w', u')
      /\ I (done ++ [Enter p]) w' u' /\ leaves_well T I post p) ->
  I [] w u -> exists w' u', nr_segment_iterate (Some root) (Some callback) w u = Some (w', u') /\ I T w' u'.
Proof.
  intros Hf HT Hroot Hsize (s' & Hs' & Ec) Hshape Henter Hi. unfold nr_segment_iterate. rewrite Hs'. cbn [mbind option_bind]. rewrite Ec.
  destruct (fo_chain _ _ Hf root (mk_is_Some _ _ Hroot)) as [l Hl].
  apply (proj1 (run_tour kids (s_color s) (nr_segment_toggle_color (s_color s)) callback T (proj1 (tour_nodup segments kids Hf) root T HT l Hl) I Hshape Henter)
    root T HT [] [] w u (Datatypes.S (size (w_segments w)))); [by rewrite app_nil_r|done|].
  pose proof (tour_size segments kids Hf root T HT (mk_is_Some _ _ Hroot)). lia.
Qed.
