(* ===== verification/SegmentTree.v ===== *)
(** * The first pass over the segments of a transaction

    [nr_segment_tree_to_heap] of [nr_segment.c], which [nr_segment_tree_finalise] calls when a transaction
    ends: it computes the exclusive time of every segment and their sum, the total time, merges the
    metrics of the segments with the tables of the transaction, and selects the segments that go into
    traces and span events with two bounded heaps. *)

From S2P Require Import Prelude Strings Hash HashTree Vector Time StringPool Metrics ExclusiveTime MinMaxHeap.
From S2P Require Import HashMap SegmentChildren Slab Datastore Slowsqls Txn Segment SegmentIter SegmentTour.

(** ** Comparing segments *)

(** What the comparators read of a segment: when it starts and stops, and its priority. *)
Definition rank : Type := Z * Z * Z.
Definition rank_of (s : nr_segment_t) : rank := (s_start_time s, s_stop_time s, s_priority s).

(* @map nr_segment.c:480-491 nr_segment_duration_comparator *)
Definition nr_segment_duration_comparator (a b : rank) : Z :=
  let '(start_a, stop_a, _) := a in
  let '(start_b, stop_b, _) := b in
  let duration_a := u64 (stop_a - start_a) in
  let duration_b := u64 (stop_b - start_b) in
  if duration_a <? duration_b then -1 else if duration_b <? duration_a then 1 else 0.

(* @map nr_segment.c:502-511 nr_segment_span_priority_comparator *)
Definition nr_segment_span_priority_comparator (a b : rank) : Z :=
  let '(_, _, priority_a) := a in
  let '(_, _, priority_b) := b in
  if priority_b <? priority_a then 1
  else if priority_a <? priority_b then -1
  else nr_segment_duration_comparator a b.

(** NULL is less than the other addresses.  A heap only compares segments that are in it. *)
(* @map nr_segment.c:470-478 COMPARATOR_NULL_CHECK *)
Definition null_checked (compare : rank -> rank -> Z) (ranks : gmap seg_ptr rank) (a b : option seg_ptr) : Z :=
  match a, b with
  | None, None => 0
  | None, Some _ => -1
  | Some _, None => 1
  | Some p, Some q => compare (default (0, 0, 0) (ranks !! p)) (default (0, 0, 0) (ranks !! q))
  end.

(* @map nr_segment.c:493-500 nr_segment_wrapped_duration_comparator *)
Definition nr_segment_wrapped_duration_comparator := null_checked nr_segment_duration_comparator.

(* @map nr_segment.c:513-520 nr_segment_wrapped_span_priority_comparator *)
Definition nr_segment_wrapped_span_priority_comparator := null_checked nr_segment_span_priority_comparator.

(** A heap of segments; its comparator reads them when it is called. *)
Record segment_heap : Type := mk_segment_heap {
  sh_comparator : gmap seg_ptr rank -> option seg_ptr -> option seg_ptr -> Z;
  sh_heap : nr_minmax_heap_t seg_ptr;
}.

(** A new heap is empty, so it does not matter what its comparator would read. *)
(* @map nr_segment.c:522-525 nr_segment_heap_create *)
Definition nr_segment_heap_create (bound : Z) (comparator : gmap seg_ptr rank -> option seg_ptr -> option seg_ptr -> Z)
  : option segment_heap :=
  h ← nr_minmax_heap_create bound (Some (comparator ∅)) false; Some (mk_segment_heap comparator h).

(** The heap with its comparator reading the segments as they are. *)
Definition reading (ranks : gmap seg_ptr rank) (h : segment_heap) : nr_minmax_heap_t seg_ptr :=
  mk_heap (h_bound (sh_heap h)) (h_capacity (sh_heap h)) (h_used (sh_heap h)) (h_elements (sh_heap h))
    (sh_comparator h ranks) (h_destructor (sh_heap h)).

(** [nr_minmax_heap_insert(heap, segment)], which does nothing to a heap that is NULL. *)
Definition heap_insert (ranks : gmap seg_ptr rank) (heap : option segment_heap) (segment : seg_ptr)
  : option (option segment_heap) :=
  match heap with
  | None => Some None
  | Some h =>
      '(r, _) ← nr_minmax_heap_insert (Some (reading ranks h)) (Some segment);
      r ← r;
      Some (Some (mk_segment_heap (sh_comparator h) r))
  end.

(* @map nr_segment.h:34-47 nr_segment_tree_to_heap_metadata_t *)
Record nr_segment_tree_to_heap_metadata_t : Type := mk_to_heap {
  th_span_heap : option segment_heap;
  th_trace_heap : option segment_heap;
  th_total_time : Z;
  th_main_context : option nr_exclusive_time_t;
}.

Section Pass.
Context {S P M : Type} `{NamePool P}.
(** What [nr_sort] does. *)
Context (qsort_r : (nr_exclusive_time_transition_t -> nr_exclusive_time_transition_t -> Z)
                   -> list nr_exclusive_time_transition_t -> list nr_exclusive_time_transition_t).

Abbreviation world := (world S P M).

Implicit Types (w : world) (p : seg_ptr) (metadata : nr_segment_tree_to_heap_metadata_t).

Definition ranks_in w : gmap seg_ptr rank := rank_of <$> w_segments w.

(** ** The functions called for every segment *)

(** [todo] metrics from number [i]. *)
(* @map nr_segment.c:546-555 nr_segment_stoh_post_iterator_callback *)
Fixpoint merge_metrics (todo : nat) (i : Z) p (exclusive_time : Z) w : option world :=
  match todo with
  | O => Some w
  | Datatypes.S todo =>
      s ← w_segments w !! p;
      sm ← nr_vector_get (s_metrics s) i;
      tp ← s_txn s;
      t ← w_txns w !! tp;
      let duration := nr_time_duration (s_start_time s) (s_stop_time s) in
      t ← (if sm_scoped sm then
             table ← nrm_add_ex (t_scoped_metrics t) (Some (sm_name sm)) duration exclusive_time;
             Some (with_scoped_metrics table t)
           else
             table ← nrm_add_ex (t_unscoped_metrics t) (Some (sm_name sm)) duration exclusive_time;
             Some (with_unscoped_metrics table t));
      merge_metrics todo (i + 1) p exclusive_time (put_txn tp t w)
  end.

(** The calculation sorts the transitions of the segment. *)
(* @map nr_segment.c:527-556 nr_segment_stoh_post_iterator_callback *)
Definition nr_segment_stoh_post_iterator_callback : nr_segment_post_iter_t (S := S) (P := P) (M := M) := fun p w metadata =>
  s ← w_segments w !! p;
  let '(exclusive_time, et) := nr_exclusive_time_calculate qsort_r (s_exclusive_time s) in
  let w := put_segment p (seg_exclusive_time et s) w in
  let metadata := mk_to_heap (th_span_heap metadata) (th_trace_heap metadata)
                    (u64 (th_total_time metadata + exclusive_time)) (th_main_context metadata) in
  let metric_count := nr_vector_size (s_metrics s) in
  w ← merge_metrics (Z.to_nat metric_count) 0 p exclusive_time w;
  Some (w, metadata).

(** Adding the segment to the exclusive time of its parent. *)
(* @map nr_segment.c:587-592 nr_segment_stoh_iterator_callback *)
Definition adjust_parent p w : option world :=
  s ← w_segments w !! p;
  match s_parent s with
  | None => Some w
  | Some q =>
      s' ← w_segments w !! q;
      if s_async_context s' =? s_async_context s then
        let '(_, et) := nr_exclusive_time_add_child (s_exclusive_time s') (s_start_time s) (s_stop_time s) in
        Some (put_segment q (seg_exclusive_time et s') w)
      else Some w
  end.

(** [async_context && main_context]. *)
(* @map nr_segment.c:594-606 nr_segment_stoh_iterator_callback *)
Definition adjust_main (s : nr_segment_t) (main_context : option nr_exclusive_time_t) : option nr_exclusive_time_t :=
  if negb (s_async_context s =? 0) && bool_decide (is_Some main_context)
  then (nr_exclusive_time_add_child main_context (s_start_time s) (s_stop_time s)).2
  else main_context.

(** The exclusive time the segment may have from before is freed. *)
(* @map nr_segment.c:569-626 nr_segment_stoh_iterator_callback *)
Definition nr_segment_stoh_iterator_callback : nr_segment_iter_t (S := S) (P := P) (M := M) := fun p w metadata =>
  s ← w_segments w !! p;
  n ← nr_segment_children_size (Some (s_children s));
  let et := nr_exclusive_time_create n (s_start_time s) (s_stop_time s) in
  w ← adjust_parent p (put_segment p (seg_exclusive_time et s) w);
  let main_context := adjust_main s (th_main_context metadata) in
  trace_heap ← heap_insert (ranks_in w) (th_trace_heap metadata) p;
  span_heap ← heap_insert (ranks_in w) (th_span_heap metadata) p;
  Some (Some nr_segment_stoh_post_iterator_callback, w,
        mk_to_heap span_heap trace_heap (th_total_time metadata) main_context).

(* @map nr_segment.c:628-639 nr_segment_tree_to_heap *)
Definition nr_segment_tree_to_heap (root : option seg_ptr) (metadata : option nr_segment_tree_to_heap_metadata_t) w
  : option (world * option nr_segment_tree_to_heap_metadata_t) :=
  match root, metadata with
  | Some _, Some metadata =>
      '(w, metadata) ← nr_segment_iterate root (Some nr_segment_stoh_iterator_callback) w metadata;
      Some (w, Some metadata)
  | _, _ => Some (w, metadata)
  end.

End Pass.

(** ** The comparators order segments *)

Lemma duration_spec (a b : rank) :
  nr_segment_duration_comparator a b
  = if u64 (a.1.2 - a.1.1) <? u64 (b.1.2 - b.1.1) then -1 else if u64 (b.1.2 - b.1.1) <? u64 (a.1.2 - a.1.1) then 1 else 0.
Proof. by destruct a as [[? ?] ?], b as [[? ?] ?]. Qed.

Lemma priority_spec (a b : rank) :
  nr_segment_span_priority_comparator a b
  = if b.2 <? a.2 then 1 else if a.2 <? b.2 then -1 else nr_segment_duration_comparator a b.
Proof. by destruct a as [[? ?] ?], b as [[? ?] ?]. Qed.

Ltac comparing := repeat match goal with |- context [Z.ltb ?x ?y] => destruct (Z.ltb_spec x y) end; try lia.

#[export] Instance duration_total ranks : TotalCmp (nr_segment_wrapped_duration_comparator ranks).
Proof.
  split; [intros [p|] [q|]|intros [p|] [q|] [r|]]; cbn [nr_segment_wrapped_duration_comparator null_checked]; try lia;
    rewrite !duration_spec; comparing.
Qed.

#[export] Instance priority_total ranks : TotalCmp (nr_segment_wrapped_span_priority_comparator ranks).
Proof.
  split; [intros [p|] [q|]|intros [p|] [q|] [r|]]; cbn [nr_segment_wrapped_span_priority_comparator null_checked]; try lia;
    rewrite !priority_spec, !duration_spec; comparing.
Qed.

(** ** Heaps *)

(** [h] has kept the greatest of the segments [xs] put into [start], an empty heap. *)
Definition heap_after (ranks : gmap seg_ptr rank) (start : option segment_heap) (xs : list seg_ptr) (h : option segment_heap) : Prop :=
  match start with
  | None => h = None
  | Some h0 =>
      exists h1 out, h = Some h1 /\ sh_comparator h1 = sh_comparator h0 /\ heap_ok (reading ranks h1)
        /\ h_bound (sh_heap h1) = h_bound (sh_heap h0)
        /\ greatest_of (sh_comparator h0 ranks) (h_bound (sh_heap h0)) (map Some xs) (heap_contents (sh_heap h1)) out
  end.

(** What [nr_segment_tree_finalise] makes: no heap, or one from [nr_segment_heap_create]. *)
Definition new_heap (h : option segment_heap) : Prop :=
  h = None \/ exists bound comparator, h = nr_segment_heap_create bound comparator /\ 2 <= bound < 2 ^ 62
    /\ (comparator = nr_segment_wrapped_duration_comparator \/ comparator = nr_segment_wrapped_span_priority_comparator).

Lemma new_heap_total bound comparator h ranks :
  nr_segment_heap_create bound comparator = Some h ->
  comparator = nr_segment_wrapped_duration_comparator \/ comparator = nr_segment_wrapped_span_priority_comparator ->
  TotalCmp (sh_comparator h ranks).
Proof.
  unfold nr_segment_heap_create. intros E Hc. destruct (nr_minmax_heap_create _ _ _); [|done]. injection E as <-.
  destruct Hc as [->| ->]; cbn [sh_comparator]; apply _.
Qed.

Lemma heap_start ranks h : new_heap h -> heap_after ranks h [] h.
Proof.
  intros [->|(bound & comparator & -> & Hb & Hc)]; [done|].
  assert (Htotal : forall m, TotalCmp (comparator m)) by (intros m; destruct Hc as [->| ->]; apply _).
  destruct (nr_minmax_heap_create_ok bound (comparator ∅) false (Htotal ∅)) as (h & E & Hok & Hnil & Hu & Hbd & Hcmp & Hd); [lia..|].
  unfold nr_segment_heap_create. rewrite E. cbn [mbind option_bind heap_after].
  eexists _, []. split; [done|]. split; [done|]. destruct Hok as [_ Hused Hsmall Hcap Hlive _ Hbound]. split; [|split; [done|]].
  - constructor; cbn [reading sh_heap h_comparator h_used h_elements h_bound h_capacity]; try done.
    intros a b Ha Hb'. rewrite Hu in Hb'. intros Hab. unfold anc in Hab. dlia.
  - cbn [sh_heap sh_comparator]. rewrite Hnil, Hbd. split_and!; [done|simpl; lia|]. intros x y []%elem_of_nil.
Qed.

Lemma heap_insert_after ranks start xs h p :
  (forall h0, start = Some h0 -> 0 < h_bound (sh_heap h0)) ->
  heap_after ranks start xs h -> exists h', heap_insert ranks h p = Some h' /\ heap_after ranks start (xs ++ [p]) h'.
Proof.
  intros Hb. destruct start as [h0|]; [|intros ->; by exists None]. intros (h1 & out & -> & Ec & Hok & Eb & Hg).
  destruct (insert_keeps (reading ranks h1) (Some p) (map Some xs) out Hok) as (h' & o & E & Hok' & (Hb' & Hc' & Hd') & Hg').
  - cbn [reading h_bound]. rewrite Eb. by apply Hb.
  - cbn [reading h_bound h_comparator]. by rewrite Eb, Ec.
  - unfold heap_insert. rewrite E. cbn [mbind option_bind]. eexists. split; [done|].
    eexists _, _. split; [done|]. cbn [sh_comparator sh_heap].
    cbn [reading h_bound h_comparator h_destructor] in Hb', Hc', Hd', Hg'.
    assert (Er : reading ranks (mk_segment_heap (sh_comparator h1) h') = h').
    { unfold reading. cbn [sh_comparator sh_heap]. rewrite <- Hc'. by destruct h'. }
    rewrite Er, Hb', Eb. split; [done|]. split; [done|]. split; [done|]. rewrite map_app. cbn [map]. by rewrite <- Ec, <- Eb.
Qed.

(** ** Merging the metrics of a segment *)

(** The metrics of a segment that took [duration], as additions to one of the two tables. *)
Definition additions (duration exclusive : Z) (scoped : bool) (ms : list nr_segment_metric_t) : list metric_op :=
  map (fun sm => OpAdd 0 (sm_name sm) 1 duration exclusive duration duration (u64 (duration * duration)))
    (filter (fun sm => sm_scoped sm = scoped) ms).

(** The vector of metrics of a segment, if it has one, holds [ms]. *)
Definition metrics_are (s : nr_segment_t) (ms : list nr_segment_metric_t) : Prop :=
  match s_metrics s with None => ms = [] | Some v => vrep v (map Some ms) end.

Lemma metrics_size s ms : metrics_are s ms -> nr_vector_size (s_metrics s) = Z.of_nat (length ms).
Proof.
  unfold metrics_are. destruct (s_metrics s) as [v|]; [|by intros ->]. intros (Hu & _). cbn. by rewrite Hu, length_map.
Qed.

Lemma metrics_get s ms (i : nat) sm : metrics_are s ms -> ms !! i = Some sm -> nr_vector_get (s_metrics s) (Z.of_nat i) = Some sm.
Proof.
  unfold metrics_are. destruct (s_metrics s) as [v|]; [|by intros ->]. intros Hv Hi. pose proof (lookup_lt_Some _ _ _ Hi).
  pose proof (proj1 Hv) as Hu. rewrite length_map in Hu. cbn [nr_vector_get]. destruct (Z.leb_spec (v_used v) (Z.of_nat i)); [lia|].
  rewrite (vrep_elem_at v _ _ Hv) by lia. rewrite Nat2Z.id. apply list_lookup_total_correct. by rewrite list_lookup_fmap, Hi.
Qed.

Lemma additions_cons d e b sm ms :
  additions d e b (sm :: ms) = additions d e b [sm] ++ additions d e b ms.
Proof. unfold additions. change (sm :: ms) with ([sm] ++ ms). by rewrite filter_app, map_app. Qed.

Lemma additions_own d e sm :
  additions d e (sm_scoped sm) [sm] = [OpAdd 0 (sm_name sm) 1 d e d d (u64 (d * d))]
  /\ additions d e (negb (sm_scoped sm)) [sm] = [].
Proof.
  unfold additions. rewrite !filter_cons, !filter_nil. rewrite decide_True by done.
  rewrite decide_False by (by destruct (sm_scoped sm)). done.
Qed.

Section Merge.
Context {S P M : Type} `{NamePool P}.

Abbreviation world := (world S P M).

Implicit Types (w : world) (p : seg_ptr) (tp : txn_ptr) (t : nrtxn_t S P) (es : bool -> list metric_view) (tables : bool -> nrmtable_t P).

(** The transaction with the scoped and the unscoped table. *)
Definition with_tables tables t : nrtxn_t S P :=
  with_unscoped_metrics (Some (tables false)) (with_scoped_metrics (Some (tables true)) t).

(** The tables represent [es], with room for so many more additions to each. *)
Definition tables_rep tables es (more : bool -> nat) : Prop :=
  forall b, table_rep (tables b) (es b) /\ Z.of_nat (length (es b) + more b) + NR_STRPOOL_INCREASE_SIZE < 2 ^ 31.

Definition after_additions tables es (ops : bool -> list metric_op) (b : bool) : list metric_view :=
  fold_left (spec_op (max_size (tables b))) (ops b) (es b).

Lemma length_additions tables es ops b : (length (after_additions tables es ops b) <= length (es b) + length (ops b))%nat.
Proof.
  unfold after_additions. generalize (es b). induction (ops b) as [|op l IH]; intros k; cbn [fold_left length]; [lia|].
  specialize (IH (spec_op (max_size (tables b)) k op)). pose proof (length_spec_op (max_size (tables b)) k op). lia.
Qed.

Lemma put_segment_eq w p s : w_segments (put_segment p s w) !! p = Some s.
Proof. apply lookup_insert_eq. Qed.

Lemma put_segment_twice w p s s' : put_segment p s' (put_segment p s w) = put_segment p s' w.
Proof. unfold put_segment, set_segments. cbn. by rewrite insert_insert_eq. Qed.

Lemma put_txn_same w tp t : w_txns w !! tp = Some t -> put_txn tp t w = w.
Proof. intros Ht. destruct w. unfold put_txn, set_txns. cbn in *. by rewrite insert_id. Qed.

Lemma put_txn_twice w tp t t' : put_txn tp t' (put_txn tp t w) = put_txn tp t' w.
Proof. unfold put_txn, set_txns. cbn. by rewrite insert_insert_eq. Qed.

Lemma merge_one w tp t tables es more sm d e :
  tables_rep tables es more -> (forall b, (length (additions d e b [sm]) <= more b)%nat) -> strlen (sm_name sm) < 2 ^ 31 - 1 ->
  exists tables', (if sm_scoped sm then
       table ← nrm_add_ex (t_scoped_metrics (with_tables tables t)) (Some (sm_name sm)) d e;
       Some (with_scoped_metrics table (with_tables tables t))
     else
       table ← nrm_add_ex (t_unscoped_metrics (with_tables tables t)) (Some (sm_name sm)) d e;
       Some (with_unscoped_metrics table (with_tables tables t))) = Some (with_tables tables' t)
    /\ (forall b, max_size (tables' b) = max_size (tables b))
    /\ forall b, table_rep (tables' b) (after_additions tables es (fun b => additions d e b [sm]) b).
Proof.
  intros Hrep Hmore Hname. set (own := sm_scoped sm). pose proof (additions_own d e sm) as [Eown Eother]. fold own in Eown, Eother.
  destruct (Hrep own) as [Hr Hroom]. pose proof (Hmore own) as Hm. rewrite Eown in Hm. cbn [length] in Hm.
  destruct (run_op_spec (tables own) (es own) (OpAdd 0 (sm_name sm) 1 d e d d (u64 (d * d))) Hr) as (t' & E & Hmax & Hr'); [unfold room; lia|done|].
  cbn [run_op] in E. exists (fun b => if bool_decide (b = own) then t' else tables b).
  split; [|split; intros b; case_bool_decide as Hb; try subst b; try done].
  - unfold nrm_add_ex. destruct own; cbn [with_tables with_unscoped_metrics with_scoped_metrics t_scoped_metrics t_unscoped_metrics]; by rewrite E.
  - unfold after_additions. by rewrite Eown.
  - assert (b = negb own) as -> by by destruct b, own. unfold after_additions. rewrite Eother. apply Hrep.
Qed.

Lemma merge_metrics_spec p s tp t ms e :
  forall done rest w tables es, ms = done ++ rest ->
  w_segments w !! p = Some s -> s_txn s = Some tp -> metrics_are s ms -> Forall (fun sm => strlen (sm_name sm) < 2 ^ 31 - 1) ms ->
  w_txns w !! tp = Some (with_tables tables t) ->
  let d := nr_time_duration (s_start_time s) (s_stop_time s) in
  tables_rep tables es (fun b => length (additions d e b rest)) ->
  exists tables', merge_metrics (length rest) (Z.of_nat (length done)) p e w = Some (put_txn tp (with_tables tables' t) w)
    /\ (forall b, max_size (tables' b) = max_size (tables b))
    /\ forall b, table_rep (tables' b) (after_additions tables es (fun b => additions d e b rest) b).
Proof.
  intros done rest. revert done. induction rest as [|sm rest IH]; intros done w tables es Ems Hs Htp Hms Hnames Ht d Hrep; cbn [length merge_metrics].
  { exists tables. split; [by rewrite put_txn_same|]. split; [done|]. intros b. by destruct (Hrep b). }
  assert (Hi : ms !! length done = Some sm) by (rewrite Ems, lookup_app_r by lia; by rewrite Nat.sub_diag).
  rewrite Hs. cbn [mbind option_bind]. rewrite (metrics_get s ms _ sm Hms Hi). cbn [mbind option_bind].
  rewrite Htp. cbn [mbind option_bind]. rewrite Ht. cbn [mbind option_bind]. fold d.
  assert (Hone : forall b, (length (additions d e b [sm]) <= length (additions d e b (sm :: rest)))%nat)
    by (intros b; rewrite (additions_cons _ _ _ sm rest), length_app; lia).
  destruct (merge_one w tp t tables es _ sm d e Hrep Hone) as (tables1 & -> & Hmax1 & Hrep1).
  { rewrite Forall_forall in Hnames. apply Hnames. by eapply list_elem_of_lookup_2. }
  cbn [mbind option_bind].
  destruct (IH (done ++ [sm]) (put_txn tp (with_tables tables1 t) w) tables1 (after_additions tables es (fun b => additions d e b [sm])))
    as (tables2 & E & Hmax2 & Hrep2); try done.
  - by rewrite <- (assoc_L (++)).
  - cbn. apply lookup_insert_eq.
  - intros b. split; [done|]. destruct (Hrep b) as [_ Hb]. rewrite (additions_cons _ _ _ sm rest), length_app in Hb.
    pose proof (length_additions tables es (fun b => additions d e b [sm]) b). cbv beta in *. fold d. lia.
  - rewrite length_app in E. cbn [length] in E. replace (Z.of_nat (length done) + 1) with (Z.of_nat (length done + 1)) by lia.
    exists tables2. rewrite E, put_txn_twice. split; [done|]. split; [intros b; by rewrite Hmax2|].
    intros b. specialize (Hrep2 b). unfold after_additions in Hrep2 |- *. rewrite Hmax1 in Hrep2.
    by rewrite (additions_cons _ _ _ sm rest), fold_left_app.
Qed.

End Merge.

(** ** What the pass computes *)

Section Spec.
Context (segments : gmap seg_ptr nr_segment_t) (kids : seg_ptr -> list seg_ptr).

Implicit Types (p c : seg_ptr) (done : list visit).

(** When a segment starts and stops, and the asynchronous context it runs in. *)
Definition span p : Z * Z := from_option (fun s => (s_start_time s, s_stop_time s)) (0, 0) (segments !! p).
Definition context_of p : Z := from_option s_async_context 0 (segments !! p).

(** The children that run in the context of their parent. *)
Definition concurrent p : list seg_ptr := filter (fun c => context_of c = context_of p) (kids p).

(** The exclusive time of a segment: the ticks no child of its context covers. *)
Definition exclusive p : Z := exclusive_ticks (span p).1 (span p).2 (map span (concurrent p)).

Definition asynchronous (order : list seg_ptr) : list seg_ptr := filter (fun p => context_of p <> 0) order.

(** What is added to one of the metric tables. *)
Definition merged (metrics_of : seg_ptr -> list nr_segment_metric_t) (order : list seg_ptr) (scoped : bool) : list metric_op :=
  order ≫= fun p => additions (nr_time_duration (span p).1 (span p).2) (exclusive p) scoped (metrics_of p).

Lemma asynchronous_snoc order c : asynchronous (order ++ [c]) = asynchronous order ++ if decide (context_of c = 0) then [] else [c].
Proof.
  unfold asynchronous. rewrite filter_app, filter_cons, filter_nil. f_equal.
  destruct (decide (context_of c = 0)); [by rewrite decide_False by naive_solver|by rewrite decide_True].
Qed.

Lemma merged_app ms order order' b : merged ms (order ++ order') b = merged ms order b ++ merged ms order' b.
Proof. unfold merged. by rewrite bind_app. Qed.

(** The children of [p] in its context entered so far, and the exclusive time of [p] that counts them. *)
Definition below done p : list seg_ptr := filter (fun c => c ∈ kids p /\ context_of c = context_of p) (entered done).

Definition counted (start stop capacity : Z) (cs : list seg_ptr) : nr_exclusive_time_t :=
  mk_exclusive_time start stop capacity (transitions_of (filter (fun x => recorded start stop x = true) (map span cs))).

Definition recorded_time done p : option nr_exclusive_time_t :=
  if (span p).2 <? (span p).1 then None
  else Some (counted (span p).1 (span p).2 (u64 (Z.of_nat (length (kids p)) * 2)) (below done p)).

Lemma below_enter done c p :
  below (done ++ [Enter c]) p = below done p ++ (if decide (c ∈ kids p /\ context_of c = context_of p) then [c] else []).
Proof. unfold below. rewrite entered_app, filter_app. done. Qed.

Lemma below_leave done q p : below (done ++ [Leave q]) p = below done p.
Proof. unfold below. by rewrite entered_app, app_nil_r. Qed.

Lemma below_length done p : NoDup (entered done) -> (length (below done p) <= length (kids p))%nat.
Proof.
  intros Hnd. apply submseteq_length, NoDup_submseteq; [by apply NoDup_filter|].
  intros c [[Hc _] _]%list_elem_of_filter. done.
Qed.

Lemma below_concurrent done p :
  NoDup (entered done) -> NoDup (kids p) -> (forall c, c ∈ kids p -> Enter c ∈ done) -> below done p ≡ₚ concurrent p.
Proof.
  intros Hnd Hk Hall. apply NoDup_Permutation; [by apply NoDup_filter|by apply NoDup_filter|].
  intros c. unfold below, concurrent. rewrite !list_elem_of_filter, elem_of_entered. naive_solver.
Qed.

Lemma counted_add start stop capacity cs c :
  2 * Z.of_nat (length cs) + 2 <= capacity < 2 ^ 64 ->
  (nr_exclusive_time_add_child (Some (counted start stop capacity cs)) (span c).1 (span c).2).2
  = Some (counted start stop capacity (cs ++ [c])).
Proof.
  intros Hcap. unfold counted. rewrite add_child_records.
  - cbn [snd]. by rewrite <- transitions_of_app, <- filter_app, map_app.
  - rewrite length_transitions_of. pose proof (length_filter (fun x => recorded start stop x = true) (map span cs)) as Hl.
    rewrite length_map in Hl. lia.
Qed.

Lemma recorded_enter done q c :
  NoDup (entered (done ++ [Enter c])) -> c ∈ kids q -> context_of c = context_of q -> Z.of_nat (length (kids q)) < 2 ^ 31 ->
  (nr_exclusive_time_add_child (recorded_time done q) (span c).1 (span c).2).2 = recorded_time (done ++ [Enter c]) q.
Proof.
  intros Hnd Hc Hctx Hlen. unfold recorded_time. case_if; [done|].
  pose proof (below_length _ q Hnd) as Hle. rewrite below_enter, decide_True in Hle |- * by done. rewrite length_app in Hle. cbn [length] in Hle.
  apply counted_add. rewrite u64_id by (unfold in_u64; lia). lia.
Qed.

Lemma recorded_other done q c :
  ~ (c ∈ kids q /\ context_of c = context_of q) -> recorded_time (done ++ [Enter c]) q = recorded_time done q.
Proof. intros Hn. unfold recorded_time. by rewrite below_enter, decide_False, app_nil_r. Qed.

Lemma recorded_leave done q p : recorded_time (done ++ [Leave q]) p = recorded_time done p.
Proof. unfold recorded_time. by rewrite below_leave. Qed.

Lemma recorded_create done p s :
  segments !! p = Some s -> below done p = [] ->
  nr_exclusive_time_create (Z.of_nat (length (kids p))) (s_start_time s) (s_stop_time s) = recorded_time done p.
Proof. intros Hs Hnone. unfold nr_exclusive_time_create, recorded_time, span. by rewrite Hs, Hnone. Qed.

Lemma exclusive_ticks_permutation start stop (cs cs' : list (Z * Z)) :
  cs ≡ₚ cs' -> exclusive_ticks start stop cs = exclusive_ticks start stop cs'.
Proof.
  intros Hp. unfold exclusive_ticks. apply count_ext. intros tick _. f_equal.
  induction Hp as [|x l l' _ IH|x y l|l1 l2 l3 _ IH1 _ IH2]; cbn [existsb]; [done|by rewrite IH| |by rewrite IH1].
  by rewrite !orb_assoc, (orb_comm (covers tick x)).
Qed.

Section Calculated.
Context (qsort_r : (nr_exclusive_time_transition_t -> nr_exclusive_time_transition_t -> Z)
                   -> list nr_exclusive_time_transition_t -> list nr_exclusive_time_transition_t).
Context (Hsort : forall l, sorts nr_exclusive_time_transition_compare l (qsort_r nr_exclusive_time_transition_compare l)).

Definition timed p : Prop := in_u64 (span p).1 /\ in_u64 (span p).2.

Lemma counted_calculate start stop capacity cs :
  0 <= start <= stop -> stop < 2 ^ 64 -> Z.of_nat (length cs) < 2 ^ 31 -> (forall c, c ∈ cs -> timed c) ->
  exists et', nr_exclusive_time_calculate qsort_r (Some (counted start stop capacity cs)) = (exclusive_ticks start stop (map span cs), Some et').
Proof.
  intros Hs Hst Hlen Htimes. apply calculate_counts; [done..| |by rewrite length_map].
  apply Forall_forall. intros x (c & -> & Hc)%list_elem_of_fmap. by apply Htimes.
Qed.

Lemma recorded_calculate done p :
  NoDup (entered done) -> NoDup (kids p) -> (forall c, c ∈ kids p -> Enter c ∈ done) -> Z.of_nat (length (kids p)) < 2 ^ 31 ->
  timed p -> (forall c, c ∈ kids p -> timed c) ->
  (nr_exclusive_time_calculate qsort_r (recorded_time done p)).1 = exclusive p.
Proof.
  intros Hnd Hk Hall Hlen Hp Hkids. pose proof (below_concurrent done p Hnd Hk Hall) as Hperm. pose proof (below_length done p Hnd).
  destruct Hp as [Hs Hst]. unfold in_u64 in *. unfold recorded_time, exclusive. destruct (Z.ltb_spec (span p).2 (span p).1).
  - cbn. symmetry. apply count_empty. lia.
  - destruct (counted_calculate (span p).1 (span p).2 (u64 (Z.of_nat (length (kids p)) * 2)) (below done p)) as [et' ->]; [lia..| |].
    { intros c [[Hc _] _]%list_elem_of_filter. by apply Hkids. }
    cbn [fst]. apply exclusive_ticks_permutation. by apply fmap_Permutation.
Qed.

End Calculated.
End Spec.

(** ** The pass along the tour *)

(** What a segment must be for the pass. *)
Record measured (color : nr_segment_color_t) (s : nr_segment_t) (ms : list nr_segment_metric_t) : Prop := {
  me_start : in_u64 (s_start_time s);
  me_stop : in_u64 (s_stop_time s);
  me_color : s_color s = color;
  me_metrics : metrics_are s ms;
  me_names : Forall (fun sm => strlen (sm_name sm) < 2 ^ 31 - 1) ms;
}.

(** What [nr_segment_tree_finalise] makes for the main context: nothing, or the exclusive time of the
    transaction, with room for so many segments. *)
Definition new_main (count : nat) (main_context : option nr_exclusive_time_t) : Prop :=
  main_context = None
  \/ exists n duration, main_context = nr_exclusive_time_create n 0 duration /\ 0 <= duration < 2 ^ 64
       /\ Z.of_nat count <= n < 2 ^ 31.

Section Walk.
Context {S P M : Type} `{NamePool P}.
Context (qsort_r : (nr_exclusive_time_transition_t -> nr_exclusive_time_transition_t -> Z)
                   -> list nr_exclusive_time_transition_t -> list nr_exclusive_time_transition_t).
Context (Hsort : forall l, sorts nr_exclusive_time_transition_compare l (qsort_r nr_exclusive_time_transition_compare l)).
Context (kids : seg_ptr -> list seg_ptr) (metrics_of : seg_ptr -> list nr_segment_metric_t) (w0 : world S P M).

Abbreviation segments := (w_segments w0).
Abbreviation ranks := (ranks_in w0).
Abbreviation spent := (span segments).

Context (root : seg_ptr) (sr : nr_segment_t) (T : list visit) (tp : txn_ptr) (t : nrtxn_t S P).
Context (tables : bool -> nrmtable_t P) (es : bool -> list metric_view) (u0 : nr_segment_tree_to_heap_metadata_t).
Context (Hforest : forest segments kids) (HT : tour kids root T).
Context (Hroot : segments !! root = Some sr) (Htop : s_parent sr = None) (Htxn : s_txn sr = Some tp).
Context (Hmeasured : forall p s, segments !! p = Some s -> s_txn s = Some tp -> measured (s_color sr) s (metrics_of p)).
Context (Ht : w_txns w0 !! tp = Some (with_tables tables t)).
Context (Hrep : tables_rep tables es (fun b => length (merged segments kids metrics_of (finished T) b))).
Context (Hsize : Z.of_nat (size segments) < 2 ^ 31).
Context (Htotal : in_u64 (th_total_time u0)).
Context (Htrace : new_heap (th_trace_heap u0)) (Hspan : new_heap (th_span_heap u0)) (Hmain : new_main (length (entered T)) (th_main_context u0)).

Implicit Types (w : world S P M) (u : nr_segment_tree_to_heap_metadata_t) (done rest : list visit) (p c q : seg_ptr).

(** A segment after a part of the tour. *)
Definition walked done p (s0 s : nr_segment_t) : Prop :=
  exists et, s = seg_exclusive_time et (seg_color (if decide (Enter p ∈ done) then nr_segment_toggle_color (s_color sr) else s_color s0) s0)
    /\ (Enter p ∈ done -> Leave p ∉ done -> et = recorded_time segments kids done p).

(** The exclusive time of the main context. *)
Definition main_after done : option nr_exclusive_time_t :=
  et ← th_main_context u0;
  Some (counted segments (et_start_time et) (et_stop_time et) (et_capacity et) (asynchronous segments (entered done))).

Record so_far done w u : Prop := {
  sf_segments : forall p, option_Forall2 (walked done p) (segments !! p) (w_segments w !! p);
  sf_rest : w_stacks w = w_stacks w0 /\ w_mem w = w_mem w0 /\ w_tick w = w_tick w0;
  sf_txns : exists tables', w_txns w = <[tp := with_tables tables' t]> (w_txns w0)
    /\ (forall b, max_size (tables' b) = max_size (tables b))
    /\ forall b, table_rep (tables' b) (after_additions tables es (merged segments kids metrics_of (finished done)) b);
  sf_total : th_total_time u = u64 (th_total_time u0 + sum_over (exclusive segments kids) (finished done));
  sf_trace : heap_after ranks (th_trace_heap u0) (entered done) (th_trace_heap u);
  sf_span : heap_after ranks (th_span_heap u0) (entered done) (th_span_heap u);
  sf_main : th_main_context u = main_after done;
}.

Lemma whole_nodup : NoDup T.
Proof. destruct (fo_chain _ _ Hforest root (mk_is_Some _ _ Hroot)) as [l Hl]. exact (proj1 (tour_nodup segments kids Hforest) root T HT l Hl). Qed.

Lemma done_nodup done rest : T = done ++ rest -> NoDup done.
Proof. intros E. pose proof whole_nodup as Hnd. rewrite E in Hnd. by apply NoDup_app in Hnd as [? _]. Qed.

Lemma visited_measured p : Enter p ∈ T -> exists s, segments !! p = Some s /\ s_txn s = Some tp /\ measured (s_color sr) s (metrics_of p).
Proof.
  intros Hp. destruct (proj1 (tour_txn segments kids Hforest) root T HT sr Hroot p Hp) as (s & Hs & Et).
  exists s. rewrite Htxn in Et. split; [done|]. split; [done|]. by apply Hmeasured.
Qed.

Lemma kids_few p : Z.of_nat (length (kids p)) < 2 ^ 31.
Proof. pose proof (kids_size segments kids p Hforest). lia. Qed.

(** The segment entered next: its parent was entered and not left. *)
Lemma enter_parent done rest c s :
  T = done ++ Enter c :: rest -> segments !! c = Some s ->
  match s_parent s with None => True | Some q => c ∈ kids q /\ Enter q ∈ done /\ Leave q ∉ done /\ q <> c end.
Proof.
  intros E Hs. destruct (proj1 (proj1 (tour_nested kids) root T HT done rest c) E) as [[-> ->]|(q & Hq & Hl & Hr)].
  - rewrite Hroot in Hs. injection Hs as <-. by rewrite Htop.
  - pose proof (proj1 (fo_link _ _ Hforest q c) Hq) as (s' & Hs' & Hpar). rewrite Hs in Hs'. injection Hs' as <-. rewrite Hpar.
    pose proof whole_nodup as Hnd. rewrite E in Hnd. apply NoDup_app in Hnd as (_ & Hd & _).
    split; [done|]. split; [done|]. split; [intros Hin; apply (Hd _ Hin); by right|]. intros ->. apply (Hd _ Hl). left.
Qed.

(** No child of the segment entered next was entered. *)
Lemma enter_below done rest c : T = done ++ Enter c :: rest -> below segments kids done c = [].
Proof.
  intros E. unfold below. destruct (filter _ (entered done)) as [|x l] eqn:Ef; [done|exfalso].
  assert (Hx : x ∈ x :: l) by left. rewrite <- Ef in Hx. apply list_elem_of_filter in Hx as [[Hx _] Hin%elem_of_entered].
  apply list_elem_of_split in Hin as (l1 & l2 & El).
  assert (E' : T = l1 ++ Enter x :: (l2 ++ Enter c :: rest)) by by rewrite E, El, <- (assoc_L (++)).
  pose proof (proj1 (fo_link _ _ Hforest c x) Hx) as (s & Hs & Hpar). pose proof (enter_parent _ _ _ _ E' Hs) as Hq. rewrite Hpar in Hq.
  destruct Hq as (_ & Hl & _). pose proof whole_nodup as Hnd. rewrite E in Hnd. apply NoDup_app in Hnd as (_ & Hd & _).
  apply (Hd (Enter c)); [rewrite El; apply elem_of_app; by left|left].
Qed.

Lemma visited_timed p : Enter p ∈ T -> timed segments p.
Proof. intros (s & Hs & _ & Hm)%visited_measured. unfold timed, span. rewrite Hs. cbn. split; apply Hm. Qed.

Lemma visited_kids p c : Enter p ∈ T -> c ∈ kids p -> Enter c ∈ T.
Proof. intros Hp. by apply (proj2 (proj1 (tour_closed kids) root T HT)). Qed.

Lemma walking_ranks done w : (forall p, option_Forall2 (walked done p) (segments !! p) (w_segments w !! p)) -> ranks_in w = ranks.
Proof.
  intros Hw. apply map_eq. intros p. unfold ranks_in. rewrite !lookup_fmap. destruct (Hw p) as [s0 s (et & -> & _)|]; done.
Qed.

Lemma entered_snoc done c p : p <> c -> Enter p ∈ done ++ [Enter c] <-> Enter p ∈ done.
Proof. rewrite elem_of_app, list_elem_of_singleton. naive_solver. Qed.

Lemma left_snoc done c p : Leave p ∈ done ++ [Enter c] <-> Leave p ∈ done.
Proof. rewrite elem_of_app, list_elem_of_singleton. naive_solver. Qed.

Lemma walked_other done c p s0 s :
  p <> c -> ~ (c ∈ kids p /\ context_of segments c = context_of segments p) -> walked done p s0 s -> walked (done ++ [Enter c]) p s0 s.
Proof.
  intros Hne Hn (et & -> & Het). exists et. split.
  - do 2 f_equal. apply decide_ext. symmetry. by apply entered_snoc.
  - rewrite entered_snoc, left_snoc, recorded_other by done. done.
Qed.

(** What is not the segment and does not count it stays as it is. *)
Lemma walked_others done c w :
  (forall p, option_Forall2 (walked done p) (segments !! p) (w_segments w !! p)) ->
  forall p, p <> c -> ~ (c ∈ kids p /\ context_of segments c = context_of segments p) ->
    option_Forall2 (walked (done ++ [Enter c]) p) (segments !! p) (w_segments w !! p).
Proof. intros Hw p Hp Hn. destruct (Hw p) as [s0 s Hs|]; constructor. by apply walked_other. Qed.

Lemma walked_self done c s0 s :
  c ∉ kids c -> walked done c s0 s ->
  walked (done ++ [Enter c]) c s0 (seg_exclusive_time (recorded_time segments kids done c) (seg_color (nr_segment_toggle_color (s_color sr)) s)).
Proof.
  intros Hc (et & -> & _). exists (recorded_time segments kids done c). split.
  - by rewrite (decide_True (P := Enter c ∈ done ++ [Enter c])) by (apply elem_of_app; right; left).
  - intros _ _. rewrite recorded_other; [done|]. by intros [? _].
Qed.

(** The first half of the function called on entering a segment. *)
Lemma adjust_step done rest c w s0 s :
  T = done ++ Enter c :: rest -> (forall p, option_Forall2 (walked done p) (segments !! p) (w_segments w !! p)) ->
  segments !! c = Some s0 -> w_segments w !! c = Some s ->
  exists m, adjust_parent c (put_segment c (seg_exclusive_time (recorded_time segments kids done c)
              (seg_color (nr_segment_toggle_color (s_color sr)) s)) w) = Some (set_segments m w)
    /\ forall p, option_Forall2 (walked (done ++ [Enter c]) p) (segments !! p) (m !! p).
Proof.
  intros E Hw Hs0 Hs. pose proof (enter_parent done rest c s0 E Hs0) as Hpar.
  assert (Hwc : walked done c s0 s) by (pose proof (Hw c) as Hc; rewrite Hs0, Hs in Hc; by inversion Hc).
  assert (Hloop : c ∉ kids c).
  { intros (sx & Hsx & Hx)%(fo_link _ _ Hforest). rewrite Hs0 in Hsx. injection Hsx as <-. rewrite Hx in Hpar. tauto. }
  set (s1 := seg_exclusive_time _ (seg_color _ s)).
  pose proof (walked_self done c s0 s Hloop Hwc) as Hself. fold s1 in Hself.
  assert (Ep : s_parent s1 = s_parent s0) by (destruct Hwc as (et & -> & _); done).
  assert (Ec : s_async_context s1 = context_of segments c)
    by (unfold context_of; rewrite Hs0; destruct Hwc as (et & -> & _); done).
  assert (Et : (s_start_time s1, s_stop_time s1) = spent c)
    by (unfold span; rewrite Hs0; destruct Hwc as (et & -> & _); done).
  pose proof (walked_others done c w Hw) as Hothers.
  unfold adjust_parent. cbn [put_segment set_segments w_segments]. rewrite lookup_insert_eq. cbn [mbind option_bind]. rewrite Ep.
  assert (Hkid : forall p, c ∈ kids p -> s_parent s0 = Some p).
  { intros p (sx & Hsx & Hx)%(fo_link _ _ Hforest). rewrite Hs0 in Hsx. by injection Hsx as <-. }
  destruct (s_parent s0) as [q|].
  2:{ eexists. split; [reflexivity|]. intros p. destruct (decide (p = c)) as [->|Hne].
      - rewrite Hs0, lookup_insert_eq. by constructor.
      - rewrite lookup_insert_ne by done. apply Hothers; [done|]. intros [Hc _]. by specialize (Hkid p Hc). }
  destruct Hpar as (Hq & Hin & Hout & Hne). rewrite lookup_insert_ne by done.
  pose proof (Hw q) as Hwq. destruct (kid_parent_live segments kids Hforest q c Hq) as [sq0 Hsq0]. rewrite Hsq0 in Hwq.
  destruct (w_segments w !! q) as [sq|] eqn:Eq; [|by inversion Hwq]. cbn [mbind option_bind].
  assert (Hwq' : walked done q sq0 sq) by by inversion Hwq. destruct Hwq' as (etq & -> & Hetq). specialize (Hetq Hin Hout).
  assert (Eqc : s_async_context sq0 = context_of segments q) by (unfold context_of; by rewrite Hsq0).
  cbn [seg_exclusive_time seg_color s_async_context s_exclusive_time]. rewrite Eqc, Ec.
  destruct (Z.eqb_spec (context_of segments q) (context_of segments c)) as [Hctx|Hctx].
  - assert (Etimes : s_start_time s1 = (spent c).1 /\ s_stop_time s1 = (spent c).2) by by rewrite <- Et.
    destruct Etimes as [-> ->]. subst etq.
    pose proof (recorded_enter segments kids done q c) as Hrec. destruct (nr_exclusive_time_add_child _ _ _) as [ok et'].
    cbn [snd] in Hrec. rewrite Hrec; [|apply nodup_entered; eapply (done_nodup _ rest); by rewrite E, <- (assoc_L (++))|done|done|apply kids_few].
    eexists. split; [reflexivity|]. intros p. cbn [put_segment set_segments w_segments]. destruct (decide (p = q)) as [->|Hpq]; [|destruct (decide (p = c)) as [->|Hpc]].
    + rewrite lookup_insert_eq, Hsq0. constructor. eexists. split; [|done].
      rewrite (decide_True (P := Enter q ∈ done)) by done. rewrite (decide_True (P := Enter q ∈ done ++ [Enter c])) by (by apply entered_snoc). done.
    + rewrite lookup_insert_ne, lookup_insert_eq, Hs0 by done. by constructor.
    + rewrite !lookup_insert_ne by done. apply Hothers; [done|]. intros [Hc _]. specialize (Hkid p Hc). congruence.
  - eexists. split; [reflexivity|]. intros p. destruct (decide (p = c)) as [->|Hpc].
    + rewrite lookup_insert_eq, Hs0. by constructor.
    + rewrite lookup_insert_ne by done. apply Hothers; [done|]. intros [Hc Hcc]. specialize (Hkid p Hc). congruence.
Qed.

Lemma asynchronous_length done : NoDup (entered done) -> (forall p, Enter p ∈ done -> Enter p ∈ T) ->
  (length (asynchronous segments (entered done)) <= size segments)%nat.
Proof.
  intros Hnd Hin. apply list_length_dom; [by apply NoDup_filter|]. intros p [_ Hp%elem_of_entered]%list_elem_of_filter.
  destruct (visited_measured p) as (s & -> & _); [by apply Hin|done].
Qed.

Lemma asynchronous_prefix done rest : T = done ++ rest -> (length (asynchronous segments (entered done)) <= length (entered T))%nat.
Proof. intros ->. rewrite entered_app, length_app. unfold asynchronous. etrans; [apply length_filter|lia]. Qed.

(** The main context counts the segments of other contexts. *)
Lemma main_step done rest c s0 s :
  T = done ++ Enter c :: rest -> segments !! c = Some s0 -> s_async_context s = s_async_context s0 ->
  (s_start_time s, s_stop_time s) = spent c -> adjust_main s (main_after done) = main_after (done ++ [Enter c]).
Proof.
  intros E Hs0 Ec Es. unfold adjust_main, main_after.
  assert (Es' : s_start_time s = (spent c).1 /\ s_stop_time s = (spent c).2) by by rewrite <- Es.
  assert (Hlen : (length (asynchronous segments (entered (done ++ [Enter c]))) <= length (entered T))%nat)
    by (apply (asynchronous_prefix _ rest); by rewrite E, <- (assoc_L (++))).
  rewrite entered_app in Hlen |- *. cbn [entered omap list_omap] in Hlen |- *.
  rewrite asynchronous_snoc in Hlen |- *. rewrite length_app in Hlen.
  destruct Es' as [-> ->]. assert (Hctx : s_async_context s = context_of segments c) by (unfold context_of; by rewrite Hs0). rewrite Hctx.
  destruct Hmain as [->|(n & D & -> & HD & Hn)]; [by rewrite andb_false_r|].
  unfold nr_exclusive_time_create. destruct (Z.ltb_spec D 0); [lia|]. cbn [mbind option_bind et_start_time et_stop_time et_capacity].
  rewrite (bool_decide_eq_true_2 (is_Some _)) by done. rewrite andb_true_r.
  destruct (Z.eqb_spec (context_of segments c) 0) as [Hz|Hz]; cbn [negb].
  - rewrite decide_True by done. by rewrite app_nil_r.
  - rewrite decide_False in Hlen |- * by done. cbn [length] in Hlen. apply counted_add. rewrite u64_id by (unfold in_u64; lia). lia.
Qed.

Lemma heap_bounded h h0 : new_heap h -> h = Some h0 -> 0 < h_bound (sh_heap h0).
Proof.
  intros [->|(bound & comparator & -> & Hb & _)]; [done|]. unfold nr_segment_heap_create, nr_minmax_heap_create.
  destruct (Z.eqb_spec bound 1), (Z.ltb_spec bound 0); try lia. cbn [orb mbind option_bind]. intros [= <-]. cbn. lia.
Qed.

Lemma enter_step done rest c w u s :
  T = done ++ Enter c :: rest -> so_far done w u -> w_segments w !! c = Some s ->
  exists w' u', nr_segment_stoh_iterator_callback qsort_r c (put_segment c (seg_color (nr_segment_toggle_color (s_color sr)) s) w) u
      = Some (Some (nr_segment_stoh_post_iterator_callback qsort_r), w', u')
    /\ so_far (done ++ [Enter c]) w' u'.
Proof.
  intros E [Hw Hrest Htx Htot Htr Hsp Hm] Hs.
  assert (Hin : Enter c ∈ T) by (rewrite E; apply elem_of_app; right; left).
  destruct (visited_measured c Hin) as (s0 & Hs0 & _ & Hme).
  assert (Hwc : walked done c s0 s) by (pose proof (Hw c) as Hc; rewrite Hs0, Hs in Hc; by inversion Hc).
  assert (Es : (s_start_time s, s_stop_time s) = spent c /\ s_async_context s = s_async_context s0 /\ s_children s = s_children s0)
    by (unfold span; rewrite Hs0; destruct Hwc as (et & -> & _); done).
  destruct Es as (Es & Ec & Ech). destruct (adjust_step done rest c w s0 s E Hw Hs0 Hs) as (m & Eadj & Hw').
  unfold nr_segment_stoh_iterator_callback. rewrite put_segment_eq. cbn [mbind option_bind].
  cbn [seg_color s_children s_start_time s_stop_time].
  rewrite (holds_size _ _ (proj1 (eq_ind_r (fun ch => crep ch _) (fo_children _ _ Hforest c s0 Hs0) Ech))). cbn [mbind option_bind].
  rewrite length_fmap. pose proof (recorded_create segments kids done c s0 Hs0 (enter_below done rest c E)) as Hcreate.
  assert (Et : s_start_time s = s_start_time s0 /\ s_stop_time s = s_stop_time s0) by (unfold span in Es; rewrite Hs0 in Es; by injection Es).
  destruct Et as [Et1 Et2]. rewrite Et1, Et2, Hcreate.
  rewrite put_segment_twice, Eadj. cbn [mbind option_bind]. rewrite (walking_ranks _ (set_segments m w) Hw').
  destruct (heap_insert_after ranks (th_trace_heap u0) (entered done) (th_trace_heap u) c) as (tr & -> & Htr'); [intros h0; exact (heap_bounded _ _ Htrace)|done|].
  destruct (heap_insert_after ranks (th_span_heap u0) (entered done) (th_span_heap u) c) as (sp & -> & Hsp'); [intros h0; exact (heap_bounded _ _ Hspan)|done|].
  cbn [mbind option_bind]. eexists _, _. split; [reflexivity|]. constructor; cbn [th_total_time th_trace_heap th_span_heap th_main_context].
  - exact Hw'.
  - done.
  - by rewrite finished_app, app_nil_r.
  - by rewrite finished_app, app_nil_r.
  - by rewrite entered_app.
  - by rewrite entered_app.
  - rewrite Hm. by apply (main_step done rest c s0).
Qed.

Lemma entered_leave done q p : Enter p ∈ done ++ [Leave q] <-> Enter p ∈ done.
Proof. rewrite elem_of_app, list_elem_of_singleton. naive_solver. Qed.

Lemma color_leave done q p (a b : nr_segment_color_t) :
  (if decide (Enter p ∈ done ++ [Leave q]) then a else b) = if decide (Enter p ∈ done) then a else b.
Proof. apply decide_ext, entered_leave. Qed.

Lemma walked_leave done q p s0 s : p <> q -> walked done p s0 s -> walked (done ++ [Leave q]) p s0 s.
Proof.
  intros Hne (et & -> & Het). exists et. rewrite color_leave. split; [done|].
  rewrite entered_leave, recorded_leave, elem_of_app, list_elem_of_singleton. naive_solver.
Qed.

Lemma walking_leave done p s0 s et w :
  (forall x, option_Forall2 (walked done x) (segments !! x) (w_segments w !! x)) ->
  segments !! p = Some s0 -> walked done p s0 s ->
  forall x, option_Forall2 (walked (done ++ [Leave p]) x) (segments !! x) (<[p := seg_exclusive_time et s]> (w_segments w) !! x).
Proof.
  intros Hw Hs0 (et0 & -> & _) x. destruct (decide (x = p)) as [->|Hne].
  - rewrite lookup_insert_eq, Hs0. constructor. exists et. rewrite color_leave. split; [done|].
    intros _ []. apply elem_of_app. right. left.
  - rewrite lookup_insert_ne by done. destruct (Hw x) as [sx s Hs|]; constructor. by apply walked_leave.
Qed.

(** The tables have room for the metrics of the segment left next. *)
Lemma room_left done rest p tables' :
  T = done ++ Leave p :: rest -> (forall b, max_size (tables' b) = max_size (tables b)) ->
  (forall b, table_rep (tables' b) (after_additions tables es (merged segments kids metrics_of (finished done)) b)) ->
  tables_rep tables' (after_additions tables es (merged segments kids metrics_of (finished done)))
    (fun b => length (merged segments kids metrics_of [p] b)).
Proof.
  intros E Hmax Hr b. split; [done|]. destruct (Hrep b) as [_ Hroom].
  rewrite E, finished_app, merged_app, length_app in Hroom. change (finished (Leave p :: rest)) with ([p] ++ finished rest) in Hroom.
  rewrite merged_app, length_app in Hroom. pose proof (length_additions tables es (merged segments kids metrics_of (finished done)) b). lia.
Qed.

Lemma leave_step done rest p w u :
  T = done ++ Leave p :: rest -> so_far done w u ->
  exists w' u', nr_segment_stoh_post_iterator_callback qsort_r p w u = Some (w', u') /\ so_far (done ++ [Leave p]) w' u'.
Proof.
  intros E [Hw Hrest (tables1 & Etx & Hmax1 & Hr1) Htot Htr Hsp Hm].
  destruct (proj2 (proj1 (tour_nested kids) root T HT done rest p) E) as [Hin Hkids].
  assert (HinT : Enter p ∈ T) by (rewrite E; apply elem_of_app; by left).
  pose proof (done_nodup done _ E) as Hnd.
  assert (Hout : Leave p ∉ done).
  { pose proof whole_nodup as HndT. rewrite E in HndT. apply NoDup_app in HndT as (_ & Hd & _). intros Hl. apply (Hd _ Hl). left. }
  destruct (visited_measured p HinT) as (s0 & Hs0 & Hs0t & Hme).
  pose proof (Hw p) as Hwp. rewrite Hs0 in Hwp. destruct (w_segments w !! p) as [s|] eqn:Hs; [|by inversion Hwp].
  assert (Hwalk : walked done p s0 s) by by inversion Hwp. clear Hwp. pose proof Hwalk as (et & Es & Het). specialize (Het Hin Hout).
  assert (Eet : s_exclusive_time s = recorded_time segments kids done p) by by rewrite Es.
  pose proof (recorded_calculate segments kids qsort_r Hsort done p (nodup_entered done Hnd) (fo_nodup _ _ Hforest p) Hkids (kids_few p)
    (visited_timed p HinT) (fun c Hc => visited_timed c (visited_kids p c HinT Hc))) as Hcalc.
  unfold nr_segment_stoh_post_iterator_callback. rewrite Hs. cbn [mbind option_bind]. rewrite Eet.
  destruct (nr_exclusive_time_calculate qsort_r (recorded_time segments kids done p)) as [e et']. cbn [fst] in Hcalc. subst e.
  assert (Hmet : metrics_are (seg_exclusive_time et' s) (metrics_of p)) by (rewrite Es; apply Hme).
  change (s_metrics s) with (s_metrics (seg_exclusive_time et' s)). rewrite (metrics_size _ _ Hmet), Nat2Z.id.
  assert (Edur : nr_time_duration (s_start_time s) (s_stop_time s) = nr_time_duration (spent p).1 (spent p).2)
    by (unfold span; rewrite Hs0, Es; done).
  assert (Emerged : forall b, merged segments kids metrics_of [p] b = additions (nr_time_duration (s_start_time s) (s_stop_time s)) (exclusive segments kids p) b (metrics_of p))
    by (intros b; rewrite Edur; unfold merged; cbn; by rewrite app_nil_r).
  destruct (merge_metrics_spec p (seg_exclusive_time et' s) tp t (metrics_of p) (exclusive segments kids p) [] (metrics_of p)
    (put_segment p (seg_exclusive_time et' s) w) tables1 (after_additions tables es (merged segments kids metrics_of (finished done))))
    as (tables2 & Erun & Hmax2 & Hr2); [done|apply put_segment_eq|by rewrite Es|done|apply Hme|by rewrite <- (lookup_insert_eq (w_txns w0) tp), <- Etx| |].
  { cbn [seg_exclusive_time s_start_time s_stop_time]. intros b. rewrite <- Emerged. by apply (room_left done rest p). }
  change (Z.of_nat (length [])) with 0 in Erun. rewrite Erun. cbn [mbind option_bind]. eexists _, _. split; [reflexivity|].
  constructor; cbn [th_total_time th_trace_heap th_span_heap th_main_context].
  - by apply (walking_leave done p s0 s et' w Hw).
  - done.
  - exists tables2. cbn [put_txn set_txns put_segment set_segments w_txns]. rewrite Etx, insert_insert_eq. split; [done|].
    split; [intros b; by rewrite Hmax2|]. intros b. specialize (Hr2 b). unfold after_additions in Hr2 |- *. rewrite Hmax1, <- fold_left_app in Hr2.
    cbn [seg_exclusive_time s_start_time s_stop_time] in Hr2. by rewrite finished_app, merged_app, Emerged.
  - rewrite Htot, finished_app, sum_over_app. cbn. rewrite u64_add_l. f_equal. lia.
  - by rewrite entered_app, app_nil_r.
  - by rewrite entered_app, app_nil_r.
  - unfold main_after in Hm |- *. by rewrite entered_app, app_nil_r.
Qed.

Lemma start_so_far : so_far [] w0 u0.
Proof.
  constructor; cbn [entered finished omap list_omap sum_over foldr].
  - intros p. destruct (segments !! p) as [s|]; constructor. exists (s_exclusive_time s). rewrite decide_False by apply not_elem_of_nil.
    split; [by destruct s|]. by intros ?%elem_of_nil.
  - done.
  - exists tables. split; [by rewrite insert_id|]. split; [done|]. intros b. apply Hrep.
  - rewrite Z.add_0_r. symmetry. apply u64_id, Htotal.
  - by apply heap_start.
  - by apply heap_start.
  - unfold main_after. destruct Hmain as [->|(n & D & -> & HD & _)]; [done|].
    unfold nr_exclusive_time_create. destruct (Z.ltb_spec D 0); [lia|done].
Qed.

Lemma whole_walk : exists w u, nr_segment_iterate (Some root) (Some (nr_segment_stoh_iterator_callback qsort_r)) w0 u0 = Some (w, u) /\ so_far T w u.
Proof.
  apply (iterate_tour segments kids (nr_segment_stoh_iterator_callback qsort_r) so_far root T sr w0 u0); [done..|by exists sr| | |exact start_so_far].
  - intros done w u p Hi HinT Hout. destruct (visited_measured p HinT) as (s0 & Hs0 & _ & Hme). pose proof (sf_segments _ _ _ Hi p) as Hp.
    rewrite Hs0 in Hp. destruct (w_segments w !! p) as [s|]; [|by inversion Hp].
    assert (Hs : walked done p s0 s) by by inversion Hp. destruct Hs as (et & -> & _). eexists. split; [reflexivity|].
    split; [exact (proj1 (fo_children _ _ Hforest p s0 Hs0))|]. cbn [seg_exclusive_time seg_color s_color]. by rewrite (me_color _ _ _ Hme).
  - intros done rest p w u s E Hi Hs. destruct (enter_step done rest p w u s E Hi Hs) as (w' & u' & Erun & Hi').
    eexists _, w', u'. split; [exact Erun|]. split; [done|]. intros done' rest' w2 u2 E' Hi2. by apply (leave_step done' rest').
Qed.

End Walk.

Section Properties.
Context {S P M : Type} `{NamePool P}.

(** The first pass over the segments of a transaction, [T] being the order in which the
    tree below the root is entered and left.  It returns; the total time is the sum of the exclusive
    times, modulo [2 ^ 64], the exclusive time of a segment being the ticks that no child of its own
    asynchronous context covers, and 0 when it stops before it starts; every metric of every segment is
    added, in the order the segments are left, to the scoped or the unscoped table, with the duration
    and the exclusive time of the segment; each heap that was asked for holds as many segments as its
    bound allows, and none it left out compares greater than one it kept; the exclusive time of the
    main context counts the ticks of the transaction in which no asynchronous segment runs; the
    segments keep their fields, except for the exclusive time and the color, which is the other one.  The
    sort is the C library's, assumed to permute and order. *)
Theorem nr_segment_tree_to_heap_totals
    (qsort_r : (nr_exclusive_time_transition_t -> nr_exclusive_time_transition_t -> Z)
               -> list nr_exclusive_time_transition_t -> list nr_exclusive_time_transition_t)
    kids metrics_of (w : world S P M) root sr T tp t tables es md :
  (forall l, sorts nr_exclusive_time_transition_compare l (qsort_r nr_exclusive_time_transition_compare l)) ->
  forest (w_segments w) kids -> Z.of_nat (size (w_segments w)) < 2 ^ 31 -> tour kids root T ->
  w_segments w !! root = Some sr -> s_parent sr = None -> s_txn sr = Some tp ->
  (forall p s, w_segments w !! p = Some s -> s_txn s = Some tp -> measured (s_color sr) s (metrics_of p)) ->
  w_txns w !! tp = Some t -> t_scoped_metrics t = Some (tables true) -> t_unscoped_metrics t = Some (tables false) ->
  tables_rep tables es (fun scoped => length (merged (w_segments w) kids metrics_of (finished T) scoped)) ->
  new_heap (th_trace_heap md) -> new_heap (th_span_heap md) -> new_main (length (entered T)) (th_main_context md) ->
  in_u64 (th_total_time md) ->
  exists w' md', nr_segment_tree_to_heap qsort_r (Some root) (Some md) w = Some (w', Some md')
    /\ th_total_time md' = u64 (th_total_time md + sum_over (exclusive (w_segments w) kids) (finished T))
    /\ (exists tables', w_txns w' = <[tp := with_tables tables' t]> (w_txns w)
          /\ forall scoped, table_rep (tables' scoped)
               (after_additions tables es (merged (w_segments w) kids metrics_of (finished T)) scoped))
    /\ heap_after (ranks_in w) (th_trace_heap md) (entered T) (th_trace_heap md')
    /\ heap_after (ranks_in w) (th_span_heap md) (entered T) (th_span_heap md')
    /\ (forall n duration, th_main_context md = nr_exclusive_time_create n 0 duration -> 0 <= duration < 2 ^ 64 ->
          (nr_exclusive_time_calculate qsort_r (th_main_context md')).1
          = exclusive_ticks 0 duration (map (span (w_segments w)) (asynchronous (w_segments w) (entered T))))
    /\ forall p, option_Forall2 (fun s s' => exists et, s' = seg_exclusive_time et
                   (seg_color (if decide (Enter p ∈ T) then nr_segment_toggle_color (s_color sr) else s_color s) s))
                   (w_segments w !! p) (w_segments w' !! p).
Proof.
  intros Hsort Hforest Hsize HT Hroot Htop Htxn Hmeasured Ht Hsc Hun Hrep Htrace Hspan Hmain Htotal.
  assert (Et : with_tables tables t = t) by (destruct t; cbn in *; by subst).
  assert (Ht' : w_txns w !! tp = Some (with_tables tables t)) by by rewrite Et.
  destruct (whole_walk qsort_r Hsort kids metrics_of w root sr T tp t tables es md Hforest HT Hroot Htop Htxn Hmeasured Ht' Hrep Hsize Htotal
    Htrace Hspan Hmain) as (w' & md' & Erun & [Hw Hrest (tables' & Etx & _ & Hr') Htot Htr Hsp Hm]).
  exists w', md'. split; [unfold nr_segment_tree_to_heap; by rewrite Erun|]. split; [done|]. split; [by exists tables'|].
  split; [done|]. split; [done|]. split.
  - intros n D En HD. rewrite Hm. unfold main_after. rewrite En. unfold nr_exclusive_time_create.
    destruct (Z.ltb_spec D 0); [lia|]. cbn [mbind option_bind et_start_time et_stop_time et_capacity].
    destruct (counted_calculate (w_segments w) qsort_r Hsort 0 D (u64 (n * 2)) (asynchronous (w_segments w) (entered T))) as [et ->]; [lia|lia| | |done].
    + pose proof (asynchronous_length kids metrics_of w root sr T tp Hforest HT Hroot Htxn Hmeasured T
        (nodup_entered T (whole_nodup kids w root sr T Hforest HT Hroot)) (fun p Hp => Hp)). lia.
    + intros c [_ Hc%elem_of_entered]%list_elem_of_filter. by apply (visited_timed kids metrics_of w root sr T tp Hforest HT Hroot Htxn Hmeasured).
  - intros p. destruct (Hw p) as [s s' (et & -> & _)|]; constructor. by exists et.
Qed.

End Properties.

(** ** Witness *)

(** A root with a child in its context and one in another, which overlap; the first has a metric. *)
Definition timed_segment (start stop context : Z) (parent : option seg_ptr) (children : list seg_ptr)
  (metrics : option (nr_vector_t nr_segment_metric_t)) : nr_segment_t :=
  mk_segment NR_SEGMENT_CUSTOM (Some 7%positive) parent
    (Packed (Z.of_nat (length children)) (map Some children ++ replicate (8 - length children) None))
    NR_SEGMENT_WHITE start stop 0 0 context None metrics None 0 Zeroed.

Definition a_metric : nr_segment_metric_t := mk_segment_metric (str "Custom/a") true.

Definition timed_segments : gmap seg_ptr nr_segment_t :=
  <[1 := timed_segment 10 100 0 None [2; 3] None]>
    (<[2 := timed_segment 20 50 0 (Some 1) [] (Some (mk_vector 1 1 [Some a_metric] false))]>
       (<[3 := timed_segment 30 90 4 (Some 1) [] None]> ∅)).

Definition timed_txn : nrtxn_t unit nrstrpool_t :=
  mk_txn 0 nr_txn_test_options (mk_status 0 NR_PATH_TYPE_UNKNOWN 0 0 0 1 false) (nr_vector_init_impl 8 false) None 3 None (Some 1) 0 None None
    (Some (nrm_table_create 100)) (Some (nrm_table_create 100)) None None None None 0.

Definition timed_world : world unit nrstrpool_t Z := mk_world timed_segments (<[7%positive := timed_txn]> ∅) ∅ 0 Datatypes.O.

Definition timed_kids (p : seg_ptr) : list seg_ptr := if p =? 1 then [2; 3] else [].
Definition timed_metrics (p : seg_ptr) : list nr_segment_metric_t := if p =? 2 then [a_metric] else [].
Definition timed_tour : list visit := [Enter 1; Enter 2; Leave 2; Enter 3; Leave 3; Leave 1].

Lemma timed_cases p s : timed_segments !! p = Some s ->
  p = 1 /\ s = timed_segment 10 100 0 None [2; 3] None
  \/ p = 2 /\ s = timed_segment 20 50 0 (Some 1) [] (Some (mk_vector 1 1 [Some a_metric] false))
  \/ p = 3 /\ s = timed_segment 30 90 4 (Some 1) [] None.
Proof.
  unfold timed_segments. rewrite !lookup_insert_Some, lookup_empty. naive_solver.
Qed.

Lemma timed_forest : forest timed_segments timed_kids.
Proof.
  assert (Hroot : chain (parent_in timed_segments) 1 [1]) by by constructor.
  constructor.
  - intros p s [[-> ->]|[[-> ->]|[-> ->]]]%timed_cases; by repeat split.
  - intros p c. unfold timed_kids. split.
    + destruct (Z.eqb_spec p 1) as [->|]; [|by intros ?%elem_of_nil].
      rewrite !elem_of_cons, elem_of_nil. intros [->|[->|[]]]; by eexists.
    + intros (s & [[-> ->]|[[-> ->]|[-> ->]]]%timed_cases & [= <-]); cbn; rewrite !elem_of_cons; tauto.
  - intros c s p [[-> ->]|[[-> ->]|[-> ->]]]%timed_cases [= <-]; by eexists.
  - intros p. unfold timed_kids. destruct (p =? 1); [|constructor].
    apply NoDup_cons. split; [by rewrite list_elem_of_singleton|apply NoDup_singleton].
  - intros p [s [[-> _]|[[-> _]|[-> _]]]%timed_cases]; eexists; [exact Hroot|eapply chain_step; [|exact Hroot]; done..].
Qed.

Lemma timed_measured p s : timed_segments !! p = Some s -> s_txn s = Some 7%positive -> measured NR_SEGMENT_WHITE s (timed_metrics p).
Proof.
  intros [[-> ->]|[[-> ->]|[-> ->]]]%timed_cases _; constructor; try done; try apply Forall_nil_2.
  - split_and!; [done..|by exists []].
  - apply Forall_singleton. by vm_compute.
Qed.

Lemma timed_whole : tour timed_kids 1 timed_tour.
Proof.
  apply (tour_node timed_kids 1 [Enter 2; Leave 2; Enter 3; Leave 3]).
  apply (tours_cons timed_kids 2 [3] [Enter 2; Leave 2] [Enter 3; Leave 3]).
  - apply (tour_node timed_kids 2 []), tours_nil.
  - apply (tours_cons timed_kids 3 [] [Enter 3; Leave 3] []), tours_nil. apply (tour_node timed_kids 3 []), tours_nil.
Qed.

Lemma nr_segment_tree_to_heap_totals_witness :
  exists w' md', nr_segment_tree_to_heap merge_sort_r (Some 1)
      (Some (mk_to_heap None (nr_segment_heap_create 2 nr_segment_wrapped_duration_comparator) 0 (nr_exclusive_time_create 3 0 100)))
      timed_world = Some (w', Some md')
    /\ th_total_time md' = 150
    /\ (nr_exclusive_time_calculate merge_sort_r (th_main_context md')).1 = 40.
Proof.
  set (md := mk_to_heap _ _ _ _).
  destruct (nr_segment_tree_to_heap_totals merge_sort_r timed_kids timed_metrics timed_world 1 (timed_segment 10 100 0 None [2; 3] None)
    timed_tour 7%positive timed_txn (fun _ => nrm_table_create 100) (fun _ => []) md) as (w' & md' & Erun & Etot & _ & _ & _ & Hmain & _).
  - intros l. apply merge_sort_r_sorts; [apply compare_total|apply compare_trans].
  - exact timed_forest.
  - by vm_compute.
  - exact timed_whole.
  - reflexivity.
  - reflexivity.
  - reflexivity.
  - exact timed_measured.
  - reflexivity.
  - reflexivity.
  - reflexivity.
  - intros b. split; [apply nrm_table_create_rep; lia|destruct b; by vm_compute].
  - right. exists 2, nr_segment_wrapped_duration_comparator. split; [reflexivity|]. split; [lia|by left].
  - by left.
  - right. exists 3, 100. split; [reflexivity|]. split; [lia|by vm_compute].
  - by vm_compute.
  - exists w', md'. split; [exact Erun|]. split; [rewrite Etot; by vm_compute|].
    rewrite (Hmain 3 100) by (reflexivity || lia). by vm_compute.
Defined.
