(* ===== verification/SegmentFinal.v ===== *)
(** * The end of a transaction's tree of segments

    [nr_segment_tree_finalise] of [nr_segment_tree.c], which [nr_txn_end] calls: it decides whether a trace
    and span events are made and whether segments have to be left out, runs the first pass over the
    tree, corrects the total time, and hands the chosen segments over as sets ([util_set.c]).  Also how
    the passes that write them find the nearest chosen segment above another. *)

From S2P Require Import Prelude Strings Hash HashTree Vector Time StringPool Metrics ExclusiveTime MinMaxHeap.
From S2P Require Import HashMap SegmentChildren Slab Datastore Slowsqls Txn Segment SegmentIter SegmentTour SegmentTree.

(** ** Sets of segments

    A set is a red-black tree of a BSD header file, and its size; of the tree only which addresses are in
    it is told apart. *)

(* @map util_set_private.h:36-39 _nr_set_t *)
Record nr_set_t : Type := mk_set {
  set_size : Z;
  set_tree : gset seg_ptr;
}.

(* @map util_set.c:5-12 nr_set_create *)
Definition nr_set_create : nr_set_t := mk_set 0 ∅.

(** Every node is freed. *)
(* @map util_set.c:14-34 nr_set_destroy *)
Definition nr_set_destroy (set_ptr : option (option nr_set_t)) : option (option nr_set_t) :=
  match set_ptr with Some (Some _) => Some None | _ => set_ptr end.

(* @map util_set.c:36-44 nr_set_contains *)
Definition nr_set_contains (set : option nr_set_t) (value : seg_ptr) : bool :=
  match set with None => false | Some s => bool_decide (value ∈ set_tree s) end.

(* @map util_set.c:46-67 nr_set_insert *)
Definition nr_set_insert (set : option nr_set_t) (value : seg_ptr) : option nr_set_t :=
  match set with
  | None => None
  | Some s =>
      if bool_decide (value ∈ set_tree s) then Some s
      else Some (mk_set (u64 (set_size s + 1)) ({[value]} ∪ set_tree s))
  end.

(* @map util_set.c:69-75 nr_set_size *)
Definition nr_set_size (set : option nr_set_t) : Z := from_option set_size 0 set.

(* @map nr_segment.c:652-659 nr_segment_htos_iterator_callback *)
Definition nr_segment_htos_iterator_callback (value : option seg_ptr) (set : option nr_set_t) : bool * option nr_set_t :=
  match value with
  | Some p => (true, nr_set_insert set p)
  | None => (true, set)
  end.

(* @map nr_segment.c:661-672 nr_segment_heap_to_set *)
Definition nr_segment_heap_to_set (heap : option segment_heap) (set : option nr_set_t) : option nr_set_t :=
  match heap, set with
  | Some h, Some _ => nr_minmax_heap_iterate (Some (sh_heap h)) (Some nr_segment_htos_iterator_callback) set
  | _, _ => set
  end.

(** ** Whether a trace and span events are made *)

(** What these decisions read of a transaction beside the fields of [nrtxn_t]: the types it has, and
    whether its distributed trace, if there is one, is sampled. *)
Record trace_state : Type := mk_trace_state {
  ts_type : Z;
  ts_distributed_trace : option bool;
}.

(* @map nr_txn.h:178-178 NR_TXN_TYPE_SYNTHETICS *)
Definition NR_TXN_TYPE_SYNTHETICS : Z := Z.shiftl 1 0.

Section Finalise.
Context {S P M : Type} `{NamePool P}.

Abbreviation world := (world S P M).

Implicit Types (w : world) (p : seg_ptr) (tp : txn_ptr) (t : nrtxn_t S P) (x : trace_state).

(* @map nr_txn.c:1706-1711 nr_txn_is_synthetics *)
Definition nr_txn_is_synthetics (x : option trace_state) : Z :=
  match x with
  | None => 0
  | Some x => if Z.land NR_TXN_TYPE_SYNTHETICS (ts_type x) =? 0 then 0 else 1
  end.

(* @map nr_txn.c:2085-2105 nr_txn_should_save_trace *)
Definition nr_txn_should_save_trace (txn : option (nrtxn_t S P * trace_state)) (duration : Z) : Z :=
  match txn with
  | None => 0
  | Some (t, x) =>
      if t_segment_count t <? 1 then 0
      else if negb (nr_txn_is_synthetics (Some x) =? 0) then 1
      else if tt_threshold (t_options t) <=? duration then 1 else 0
  end.

(* @map nr_distributed_trace.c:276-281 nr_distributed_trace_is_sampled *)
Definition nr_distributed_trace_is_sampled (dt : option bool) : bool :=
  match dt with None => false | Some sampled => sampled end.

(* @map nr_txn.c:2515-2519 nr_txn_should_create_span_events *)
Definition nr_txn_should_create_span_events t x : bool :=
  nr_distributed_trace_is_sampled (ts_distributed_trace x)
  && negb (distributed_tracing_enabled (t_options t) =? 0)
  && negb (span_events_enabled (t_options t) =? 0).

(* @map nr_txn.c:1170-1177 nr_txn_duration *)
Definition nr_txn_duration (txn : option txn_ptr) w : option Z :=
  match txn with
  | None => Some 0
  | Some tp =>
      t ← w_txns w !! tp;
      match t_segment_root t with
      | None => Some 0
      | Some root => s ← w_segments w !! root; Some (nr_time_duration (s_start_time s) (s_stop_time s))
      end
  end.

(** ** Finalising *)

(** [V] is the type of the vector of span events. *)
Context {V : Type}.

(* @map nr_txn.h:147-151 nrtxnfinal_t *)
Record nrtxnfinal_t : Type := mk_final {
  f_trace_json : option cstr;
  f_span_events : option V;
  f_total_time : Z;
}.

(** What [nr_sort] does, and the passes that write the trace and the span events:
    [nr_segment_traces_create_data] with the attributes it is given, on the sets of the chosen segments,
    a set that is NULL standing for all. *)
Context (qsort_r : (nr_exclusive_time_transition_t -> nr_exclusive_time_transition_t -> Z)
                   -> list nr_exclusive_time_transition_t -> list nr_exclusive_time_transition_t).
Context (nr_segment_traces_create_data : txn_ptr -> Z -> option nr_set_t -> option nr_set_t -> bool -> bool -> world
                                         -> option (option cstr * option V * world)).

(** A heap of the first pass, where segments have to be left out. *)
(* @map nr_segment_tree.c:41-48 nr_segment_tree_finalise *)
Definition sampling_heap (should_save should_sample : bool) (limit : Z)
  (comparator : gmap seg_ptr rank -> option seg_ptr -> option seg_ptr -> Z) : option segment_heap :=
  if should_save && should_sample then nr_segment_heap_create limit comparator else None.

(* @map nr_segment_tree.c:113-124 nr_segment_tree_finalise *)
Definition sampling_set (should_sample : bool) (heap : option segment_heap) : option nr_set_t :=
  if should_sample then nr_segment_heap_to_set heap (Some nr_set_create) else None.

(** The time the main context was blocked is the time of the transaction without the exclusive time of
    the main context. *)
(* @map nr_segment_tree.c:69-90 nr_segment_tree_finalise *)
Definition discounted (discount : bool) (duration total_time : Z) (main_context : option nr_exclusive_time_t) : Z :=
  if discount then u64 (total_time - u64 (duration - (nr_exclusive_time_calculate qsort_r main_context).1)) else total_time.

(** [total_time_cb]: the function to call with the total time, if there is one. *)
(* @map nr_segment_tree.c:96-98 nr_segment_tree_finalise *)
Definition call_back (total_time_cb : option (txn_ptr -> Z -> world -> option world)) tp (total_time : Z) w : option world :=
  match total_time_cb with Some f => f tp total_time w | None => Some w end.

(* @map nr_segment_tree.c:104-146 nr_segment_tree_finalise *)
Definition write_data (should_save_trace should_save_spans : bool) tp (duration total_time : Z)
  (trace_set span_set : option nr_set_t) w : option (nrtxnfinal_t * world) :=
  if should_save_trace || should_save_spans then
    '(trace_json, span_events, w) ←
      nr_segment_traces_create_data tp duration trace_set span_set should_save_trace should_save_spans w;
    Some (mk_final trace_json span_events total_time, w)
  else Some (mk_final None None total_time, w).

(* @map nr_segment_tree.c:4-147 nr_segment_tree_finalise *)
Definition nr_segment_tree_finalise (txn : option txn_ptr) x (trace_limit span_limit : Z)
  (total_time_cb : option (txn_ptr -> Z -> world -> option world)) w : option (nrtxnfinal_t * world) :=
  match txn with
  | None => Some (mk_final None None 0, w)
  | Some tp =>
      t ← w_txns w !! tp;
      match t_segment_root t with
      | None => Some (mk_final None None 0, w)
      | Some root =>
          duration ← nr_txn_duration txn w;
          let should_save_trace := (0 <? trace_limit) && negb (nr_txn_should_save_trace (Some (t, x)) duration =? 0) in
          let should_sample_trace := trace_limit <? t_segment_count t in
          let should_save_spans := (0 <? span_limit) && nr_txn_should_create_span_events t x in
          let should_sample_spans := span_limit <? t_segment_count t in
          let span_heap := sampling_heap should_save_spans should_sample_spans span_limit
                             nr_segment_wrapped_span_priority_comparator in
          let trace_heap := sampling_heap should_save_trace should_sample_trace trace_limit
                              nr_segment_wrapped_duration_comparator in
          let main_context := if discount_main_context_blocking (t_options t)
                              then nr_exclusive_time_create (t_segment_count t) 0 duration else None in
          '(w, metadata) ← nr_segment_tree_to_heap qsort_r (Some root) (Some (mk_to_heap span_heap trace_heap 0 main_context)) w;
          metadata ← metadata;
          let total_time := discounted (discount_main_context_blocking (t_options t)) duration (th_total_time metadata)
                              (th_main_context metadata) in
          w ← call_back total_time_cb tp total_time w;
          write_data should_save_trace should_save_spans tp duration total_time
            (sampling_set should_sample_trace (th_trace_heap metadata))
            (sampling_set should_sample_spans (th_span_heap metadata)) w
      end
  end.

(** ** The nearest chosen segment above another *)

(* @map nr_segment_tree.c:158-168 nr_segment_tree_get_nearest_sampled_ancestor *)
Fixpoint sampled_loop (fuel : nat) (sampled_set : nr_set_t) (root : option seg_ptr) (current : option seg_ptr) w
  : option (option seg_ptr) :=
  match current with
  | None => Some None
  | Some p =>
      if nr_set_contains (Some sampled_set) p then Some (Some p)
      else if bool_decide (Some p = root) then Some None
      else match fuel with
           | O => None
           | Datatypes.S fuel => s ← w_segments w !! p; sampled_loop fuel sampled_set root (s_parent s) w
           end
  end.

(* @map nr_segment_tree.c:149-172 nr_segment_tree_get_nearest_sampled_ancestor *)
Definition nr_segment_tree_get_nearest_sampled_ancestor (sampled_set : option nr_set_t) (segment : option seg_ptr) w
  : option (option seg_ptr) :=
  match segment, sampled_set with
  | Some p, Some set =>
      s ← w_segments w !! p;
      match s_txn s with
      | None => Some None
      | Some tp =>
          t ← w_txns w !! tp;
          sampled_loop (size (w_segments w)) set (t_segment_root t) (s_parent s) w
      end
  | _, _ => Some None
  end.

End Finalise.

(** ** The sets hold what the heaps kept *)

Lemma nr_set_insert_new s p :
  p ∉ set_tree s -> 0 <= set_size s < 2 ^ 64 - 1 -> nr_set_insert (Some s) p = Some (mk_set (set_size s + 1) ({[p]} ∪ set_tree s)).
Proof. intros Hp Hs. cbn [nr_set_insert]. rewrite bool_decide_eq_false_2 by done. by rewrite u64_id by (unfold in_u64; lia). Qed.

(** Putting values into a set one after the other. *)
Lemma insert_values ps : forall s,
  NoDup ps -> (forall p, p ∈ ps -> p ∉ set_tree s) -> 0 <= set_size s -> set_size s + Z.of_nat (length ps) < 2 ^ 64 ->
  foldl (fun set value => (nr_segment_htos_iterator_callback value set).2) (Some s) (map Some ps)
  = Some (mk_set (set_size s + Z.of_nat (length ps)) (list_to_set ps ∪ set_tree s)).
Proof.
  induction ps as [|p ps IH]; intros s Hnd Hnew H0 Hlen; cbn [map foldl length] in *.
  - destruct s as [n tree]. cbn. by rewrite Z.add_0_r, union_empty_l_L.
  - apply NoDup_cons in Hnd as [Hp Hnd]. cbn [nr_segment_htos_iterator_callback snd].
    rewrite nr_set_insert_new by (first [apply Hnew; left|lia]). rewrite IH; cbn [set_size set_tree]; [|done| |lia|lia].
    + do 2 f_equal; [lia|]. rewrite list_to_set_cons. set_solver.
    + intros q Hq [->%elem_of_singleton|Hin]%elem_of_union; [done|]. by apply (Hnew q); [right|].
Qed.

(** What a set given to the passes that write is: of the segments in [order] as many as the limit
    allows, and none that was left out compares greater than one that is in. *)
Definition chosen (compare : option seg_ptr -> option seg_ptr -> Z) (limit : Z) (order : list seg_ptr) (set : option nr_set_t) : Prop :=
  exists s kept out, set = Some s /\ kept ++ out ≡ₚ order /\ Z.of_nat (length kept) = limit `min` Z.of_nat (length order)
    /\ set_tree s = list_to_set kept /\ set_size s = Z.of_nat (length kept)
    /\ forall p q, p ∈ out -> q ∈ kept -> compare (Some p) (Some q) <= 0.

Lemma heap_to_set_chosen ranks start order h limit compare :
  heap_after ranks start order h -> start = nr_segment_heap_create limit compare -> 2 <= limit < 2 ^ 62 -> NoDup order ->
  chosen (compare ranks) limit order (nr_segment_heap_to_set h (Some nr_set_create)).
Proof.
  intros Hafter Estart Hlimit Hnd. unfold nr_segment_heap_create, nr_minmax_heap_create in Estart.
  destruct (Z.eqb_spec limit 1), (Z.ltb_spec limit 0); try lia. cbn [orb mbind option_bind] in Estart. subst start.
  destruct Hafter as (h1 & out & -> & Ec & Hok & Eb & Hperm & Hlen & Hle). cbn [sh_heap sh_comparator h_bound] in *.
  apply Permutation_map_inv in Hperm as (xs & Exs & Hxs). symmetry in Exs. apply map_eq_app in Exs as (kept & rest & -> & Ek & Er).
  pose proof (used_values_contents _ Hok) as Eused. change (used_values (sh_heap h1) = heap_contents (sh_heap h1)) in Eused.
  rewrite <- Ek in Eused, Hlen, Hle. rewrite <- Er in Hle. rewrite !length_map in Hlen.
  rewrite Hxs in Hnd. apply NoDup_app in Hnd as (Hnd & _ & _).
  cbn [nr_segment_heap_to_set nr_minmax_heap_iterate]. rewrite Eused.
  exists (mk_set (Z.of_nat (length kept)) (list_to_set kept)), kept, rest. split.
  - rewrite (insert_values kept nr_set_create Hnd); cbn [nr_set_create set_size set_tree]; [|set_solver|lia|lia].
    by rewrite union_empty_r_L.
  - split; [by rewrite Hxs|]. split; [done|]. split; [done|]. split; [done|]. intros p q Hp Hq.
    apply Hle; by apply list_elem_of_fmap_2.
Qed.

(** ** The time the main context is blocked *)

Lemma count_le f g lo hi : (forall t, lo <= t < hi -> f t = true -> g t = true) -> count f lo hi <= count g lo hi.
Proof.
  intros Hfg. unfold count. apply sum_over_le. intros t Ht%elem_of_seqZ. specialize (Hfg t ltac:(lia)).
  destruct (f t); [by rewrite Hfg|by destruct (g t)].
Qed.

Lemma count_orb f g lo hi : count (fun t => f t || g t) lo hi <= count f lo hi + count g lo hi.
Proof.
  unfold count. rewrite <- sum_over_plus. apply sum_over_le. intros t _. by destruct (f t), (g t).
Qed.

Lemma count_none f lo hi : (forall t, lo <= t < hi -> f t = false) -> count f lo hi = 0.
Proof.
  intros Hf. destruct (decide (hi <= lo)); [by apply count_empty|]. rewrite (count_ext _ (fun _ => false)) by done. apply count_const. lia.
Qed.

Lemma count_within f lo lo' hi' hi : lo <= lo' -> lo' <= hi' -> hi' <= hi -> count f lo' hi' <= count f lo hi.
Proof.
  intros. rewrite (count_split f lo lo' hi), (count_split f lo' hi' hi) by lia.
  pose proof (count_nonneg f lo lo'). pose proof (count_nonneg f hi' hi). lia.
Qed.

(** Ticks of a window are counted at most once. *)
Lemma count_window f a b lo hi : count (fun t => covers t (a, b) && f t) lo hi <= count f a b.
Proof.
  set (g := fun t => covers t (a, b) && f t).
  assert (Hout : forall t, ~ (a <= t < b) -> g t = false).
  { intros t Ht. unfold g, covers. cbn [fst snd]. destruct (Z.leb_spec a t), (Z.ltb_spec t b); try done. lia. }
  set (lo' := lo `max` a). set (hi' := hi `min` b). destruct (decide (hi' <= lo')) as [Hno|Hsome].
  - rewrite count_none by (intros t Ht; apply Hout; lia). apply count_nonneg.
  - rewrite (count_split g lo lo' hi), (count_split g lo' hi' hi) by lia.
    rewrite (count_none g lo lo'), (count_none g hi' hi) by (intros t Ht; apply Hout; lia).
    assert (count g lo' hi' <= count f lo' hi') by (apply count_le; intros t _ [_ Hf]%andb_true_iff; done).
    assert (count f lo' hi' <= count f a b) by (apply count_within; lia). lia.
Qed.

Lemma count_existsb {T : Type} (g : T -> Z -> bool) (l : list T) lo hi :
  count (fun t => existsb (fun x => g x t) l) lo hi <= sum_over (fun x => count (g x) lo hi) l.
Proof.
  induction l as [|x l IH]; cbn [existsb sum_over foldr]; [by rewrite count_none|].
  etrans; [apply (count_orb (g x) (fun t => existsb (fun x => g x t) l))|]. by apply Z.add_le_mono_l.
Qed.

Section Blocked.
Context (segments : gmap seg_ptr nr_segment_t) (kids : seg_ptr -> list seg_ptr).

(** A tick at which a segment runs and none of the children of its context does. *)
Definition runs_alone (q : seg_ptr) (tick : Z) : bool :=
  covers tick (span segments q) && negb (existsb (covers tick) (map (span segments) (concurrent segments kids q))).

Lemma exclusive_alone q lo hi : count (runs_alone q) lo hi <= exclusive segments kids q.
Proof. unfold runs_alone, exclusive, exclusive_ticks. destruct (span segments q) as [a b]. apply count_window. Qed.

Lemma existsb_elem {T : Type} (f : T -> bool) l : existsb f l = true <-> exists x, x ∈ l /\ f x = true.
Proof. rewrite existsb_exists. by setoid_rewrite list_elem_of_In. Qed.

(** Whenever a segment of a tree runs, some segment of it runs alone in its context. *)
Lemma someone_alone tick :
  (forall p T, tour kids p T -> forall c, Enter c ∈ T -> covers tick (span segments c) = true ->
     exists q, q ∈ finished T /\ runs_alone q tick = true)
  /\ forall cs T, tours kids cs T -> (forall c, c ∈ cs -> Enter c ∈ T) /\ forall c, Enter c ∈ T -> covers tick (span segments c) = true ->
     exists q, q ∈ finished T /\ runs_alone q tick = true.
Proof.
  apply (tour_tours_ind kids
    (fun p T => forall c, Enter c ∈ T -> covers tick (span segments c) = true -> exists q, q ∈ finished T /\ runs_alone q tick = true)
    (fun cs T => (forall c, c ∈ cs -> Enter c ∈ T) /\ forall c, Enter c ∈ T -> covers tick (span segments c) = true ->
       exists q, q ∈ finished T /\ runs_alone q tick = true)).
  - intros p T _ [Hkids IH] c Hc Hcov. change (finished (Enter p :: T ++ [Leave p])) with (finished (T ++ [Leave p])). rewrite finished_app.
    assert (Hbelow : forall d, Enter d ∈ T -> covers tick (span segments d) = true ->
      exists q, q ∈ finished T ++ finished [Leave p] /\ runs_alone q tick = true).
    { intros d Hd Hcd. destruct (IH d Hd Hcd) as (q & Hq & Ha). exists q. split; [apply elem_of_app; by left|done]. }
    rewrite elem_of_cons, elem_of_app, list_elem_of_singleton in Hc. destruct Hc as [[= ->]|[Hc|[=]]]; [|by apply (Hbelow c)].
    destruct (existsb (covers tick) (map (span segments) (concurrent segments kids p))) eqn:E.
    + apply existsb_elem in E as (y & (d & -> & [_ Hd]%list_elem_of_filter)%list_elem_of_fmap & Hy). by apply (Hbelow d); [apply Hkids|].
    + exists p. split; [apply elem_of_app; right; left|]. unfold runs_alone. by rewrite Hcov, E.
  - split; [by intros c ?%elem_of_nil|]. by intros c ?%elem_of_nil.
  - intros c cs T Ts HT IH _ [Hkids IHs]. split.
    + intros c' [->|Hc']%elem_of_cons; apply elem_of_app; [left; inversion HT; left|right; by apply Hkids].
    + intros c' [Hc'|Hc']%elem_of_app Hcov; rewrite finished_app; setoid_rewrite elem_of_app.
      * destruct (IH c' Hc' Hcov) as (q & Hq & Ha). exists q. auto.
      * destruct (IHs c' Hc' Hcov) as (q & Hq & Ha). exists q. auto.
Qed.

(** So no more ticks are blocked than there is exclusive time. *)
Lemma blocked_le root T (cs : list seg_ptr) duration :
  tour kids root T -> (forall c, c ∈ cs -> Enter c ∈ T) ->
  count (fun tick => existsb (covers tick) (map (span segments) cs)) 0 duration <= sum_over (exclusive segments kids) (finished T).
Proof.
  intros HT Hcs. etrans; [|apply sum_over_le; intros q _; apply (exclusive_alone q 0 duration)].
  etrans; [|apply (count_existsb runs_alone)]. apply count_le. intros tick _ (y & (c & -> & Hc)%list_elem_of_fmap & Hy)%existsb_elem.
  destruct (proj1 (someone_alone tick) root T HT c (Hcs c Hc) Hy) as (q & Hq & Ha). apply existsb_elem. by exists q.
Qed.

End Blocked.

(** ** What finalising does *)

(** A limit of a heap: nothing is kept, or at least two segments. *)
Definition limit_ok (limit : Z) : Prop := limit = 0 \/ 2 <= limit < 2 ^ 62.

(** The ticks of the transaction at which a segment of another context runs, when they are discounted. *)
Definition blocked_time (segments : gmap seg_ptr nr_segment_t) (discount : bool) (order : list seg_ptr) (duration : Z) : Z :=
  if discount then count (fun tick => existsb (covers tick) (map (span segments) (asynchronous segments order))) 0 duration else 0.

(** Which set goes to a pass that writes: NULL for all segments, or the chosen ones. *)
Definition sampled (compare : option seg_ptr -> option seg_ptr -> Z) (should_save : bool) (limit count : Z) (order : list seg_ptr)
  (set : option nr_set_t) : Prop :=
  if limit <? count then (if should_save then chosen compare limit order set else set = Some nr_set_create) else set = None.

Lemma blocked_nonneg segments discount order duration : 0 <= blocked_time segments discount order duration.
Proof. unfold blocked_time. destruct discount; [apply count_nonneg|done]. Qed.

Lemma sampling_new save sample limit compare :
  (save = true -> limit_ok limit /\ 0 < limit) ->
  compare = nr_segment_wrapped_duration_comparator \/ compare = nr_segment_wrapped_span_priority_comparator ->
  new_heap (sampling_heap save sample limit compare).
Proof.
  intros Hlimit Hc. unfold sampling_heap. destruct save; [|by left]. destruct sample; [|by left]. right. exists limit, compare.
  split; [done|]. split; [|done]. destruct (Hlimit eq_refl) as [[->|?] ?]; [done|lia].
Qed.

Lemma sampled_set ranks save limit count order compare h :
  (save = true -> limit_ok limit /\ 0 < limit) -> NoDup order ->
  heap_after ranks (sampling_heap save (limit <? count) limit compare) order h ->
  sampled (compare ranks) save limit count order (sampling_set (limit <? count) h).
Proof.
  intros Hlimit Hnd Hafter. unfold sampled, sampling_set, sampling_heap in *. destruct (limit <? count); [|done].
  destruct save; cbn [andb] in Hafter; [|by rewrite Hafter].
  eapply heap_to_set_chosen; [exact Hafter|done| |done]. destruct (Hlimit eq_refl) as [[->|?] ?]; [done|lia].
Qed.

(** The corrected total time. *)
Lemma discounted_total qsort_r segments discount order duration total (m : option nr_exclusive_time_t) :
  0 <= duration < 2 ^ 64 ->
  (discount = true -> (nr_exclusive_time_calculate qsort_r m).1 = exclusive_ticks 0 duration (map (span segments) (asynchronous segments order))) ->
  discounted qsort_r discount duration (u64 total) m = u64 (total - blocked_time segments discount order duration).
Proof.
  intros HD Hm. unfold discounted, blocked_time. destruct discount; [|by rewrite Z.sub_0_r]. rewrite (Hm eq_refl).
  unfold exclusive_ticks. rewrite count_negb by lia. set (n := count _ 0 duration).
  replace (duration - (duration - 0 - n)) with n by lia. unfold u64. by rewrite Zminus_mod_idemp_l, Zminus_mod_idemp_r.
Qed.

Section Properties.
Context {S P M V : Type} `{NamePool P}.


End Properties.

(** ** The nearest chosen segment *)

Section Nearest.
Context {S P M : Type} `{NamePool P}.

Implicit Types (w : world S P M) (set : nr_set_t).

(** Along a chain that ends without a parent: the first segment that is chosen. *)
Lemma sampled_loop_spec (fuel : nat) set root q l w :
  chain (parent_in (w_segments w)) q l -> (forall y, y ∈ l -> is_Some (w_segments w !! y)) ->
  (forall r, root = Some r -> parent_in (w_segments w) r = None) -> (length l <= fuel)%nat ->
  sampled_loop fuel set root (Some q) w = Some (head (filter (fun y => y ∈ set_tree set) l)).
Proof.
  intros Hc Hin Hroot. revert fuel. induction Hc as [q Hq|q r l Hq Hc IH]; intros fuel Hf; cbn [length] in Hf;
    (destruct fuel as [|fuel]; [lia|]); cbn [sampled_loop nr_set_contains]; destruct (Hin q) as [s Hs]; try left;
    unfold parent_in in Hq; rewrite Hs in Hq |- *; cbn [mbind option_bind] in Hq |- *; rewrite Hq; rewrite filter_cons; case_bool_decide;
    [by rewrite decide_True|rewrite decide_False by done|by rewrite decide_True|rewrite decide_False by done].
  - case_bool_decide; [done|]. by destruct fuel.
  - rewrite bool_decide_eq_false_2; [apply IH; [intros y Hy; apply Hin; by right|lia]|].
    intros <-. specialize (Hroot q eq_refl). unfold parent_in in Hroot. rewrite Hs in Hroot. cbn in Hroot. congruence.
Qed.

(** In a forest whose root has no parent the search returns the first chosen segment above. *)
Lemma nr_segment_tree_get_nearest_sampled_ancestor_finds set w kids p s tp t l :
  forest (w_segments w) kids -> w_segments w !! p = Some s -> s_txn s = Some tp -> w_txns w !! tp = Some t ->
  chain (parent_in (w_segments w)) p (p :: l) -> (forall r, t_segment_root t = Some r -> parent_in (w_segments w) r = None) ->
  nr_segment_tree_get_nearest_sampled_ancestor (Some set) (Some p) w = Some (head (filter (fun y => y ∈ set_tree set) l)).
Proof.
  intros Hf Hs Htp Ht Hc Hroot. unfold nr_segment_tree_get_nearest_sampled_ancestor. rewrite Hs. cbn [mbind option_bind].
  rewrite Htp. cbn [mbind option_bind]. rewrite Ht. cbn [mbind option_bind].
  pose proof (chain_nodup _ _ _ Hc) as Hnd.
  pose proof (chain_segments _ _ _ _ Hf (mk_is_Some _ _ Hs) Hc) as Hin.
  pose proof (list_length_dom (w_segments w) (p :: l) Hnd Hin) as Hlen. cbn [length] in Hlen.
  inversion Hc as [? Hp|? q ? Hp Hq]; subst; unfold parent_in in Hp; rewrite Hs in Hp; cbn in Hp; rewrite Hp.
  - by destruct (size (w_segments w)).
  - apply sampled_loop_spec; [done|intros y Hy; apply Hin; by right|done|lia].
Qed.

(** The check for the root stops at the root only: among segments whose parents are among them, none of
    which is the root or chosen, the search never ends. *)
Lemma sampled_loop_endless (fuel : nat) set root (cycle : list seg_ptr) w q :
  (forall y, y ∈ cycle -> Some y <> root /\ y ∉ set_tree set /\ exists s z, w_segments w !! y = Some s /\ s_parent s = Some z /\ z ∈ cycle) ->
  q ∈ cycle -> sampled_loop fuel set root (Some q) w = None.
Proof.
  intros Hcycle. revert q. induction fuel as [|fuel IH]; intros q Hq; destruct (Hcycle q Hq) as (Hr & Hset & s & z & Hs & Hz & Hin);
    cbn [sampled_loop nr_set_contains]; rewrite !bool_decide_eq_false_2 by done; [done|].
  rewrite Hs. cbn [mbind option_bind]. rewrite Hz. by apply IH.
Qed.

End Nearest.

(** With a limit of one no heap is made, and the set for the second pass stays empty. *)
Lemma limit_of_one_keeps_nothing (save : bool) comparator :
  sampling_set true (sampling_heap save true 1 comparator) = Some nr_set_create.
Proof. by destruct save. Qed.

(** ** Witness *)

(** The blocking of the main context is discounted. *)
Definition waiting_options : nrtxnopt_t :=
  mk_options 0 0 1 1 1 0 1 1 1 1 1 NR_SQL_OBFUSCATED 1 500000 0 1 500000 500000 1 0 0 0 0 0 true.

Definition waiting_txn : nrtxn_t unit nrstrpool_t :=
  mk_txn 0 waiting_options (mk_status 0 NR_PATH_TYPE_UNKNOWN 0 0 0 1 false) (nr_vector_init_impl 8 false) None 3 None (Some 1) 0 None None
    (Some (nrm_table_create 100)) (Some (nrm_table_create 100)) None None None None 0.

Definition waiting_world : world unit nrstrpool_t Z := mk_world timed_segments (<[7%positive := waiting_txn]> ∅) ∅ 0 Datatypes.O.

(** The set for the trace, given back. *)
Definition give_back (tp : txn_ptr) (duration : Z) (trace_set span_set : option nr_set_t) (trace spans : bool)
  (w : world unit nrstrpool_t Z) : option (option cstr * option (option nr_set_t) * world unit nrstrpool_t Z) :=
  Some (None, Some trace_set, w).

