(* ===== verification/SegmentEnd.v ===== *)
(** * The end of datastore and external segments

    [nr_segment_datastore.c] and [nr_segment_external.c]: ending a segment of one of the two kinds
    ends it like any other, gives it its metrics and its name, and keeps what is known of the query
    or of the call.  Neither the roll-up of external segments nor the header of a response, which no
    function of the SDK asks for, are modelled. *)

From S2P Require Import Prelude Vector Strings Sql Url Time StringPool Metrics.
From S2P Require Import HashMap SegmentChildren Slab Datastore Slowsqls Txn Segment.

(** ** Parameters *)

(** The functions to call: [backtrace] is what it answers, [modify_table_name] what it makes of a
    name. *)
(* @map nr_segment_datastore.h:12-70 nr_segment_datastore_params_t *)
Record nr_segment_datastore_params_t : Type := mk_segment_datastore_params {
  sdp_collection : option cstr;
  sdp_operation : option cstr;
  sdp_instance : option nr_datastore_instance_t;
  sdp_type : nr_datastore_t;
  sdp_string : option cstr;
  sdp_sql : option cstr;
  sdp_plan_json : option cstr;
  sdp_input_query : option (option cstr * option cstr);
  sdp_backtrace : option (option cstr);
  sdp_modify_table_name : option (cstr -> cstr);
}.

(** Without the two fields the SDK leaves zero. *)
(* @map nr_segment_external.h:6-16 nr_segment_external_params_t *)
Record nr_segment_external_params_t : Type := mk_segment_external_params {
  sep_library : option cstr;
  sep_procedure : option cstr;
  sep_uri : option cstr;
}.

(** ** Formatting *)

(** [%s] of a string; of NULL it is undefined. *)
Definition fmt_s (s : option cstr) : option cstr := c_str <$> s.

(** The text in memory of its own, or NULL when an [int] cannot hold its length. *)
(* @map util_strings.c:34-53 nr_formatf *)
Definition nr_formatf (text : cstr) : option cstr := if Z.of_nat (length text) <? 2 ^ 31 then Some text else None.

(** What [snprintf] leaves in a buffer of [n] bytes. *)
Definition snprintf (n : Z) (text : cstr) : cstr := take (Z.to_nat (n - 1)) text.

Section SegmentEnd.
Context {S P M : Type} `{NamePool P} `{ObjectAllocator S M}.
Context (realloc_ok : Z -> bool) (clock : nat -> Z * Z).
(** JSON objects are not modelled. *)
Context (json_of : list json_field -> option cstr).

Abbreviation txn_t := (nrtxn_t S P).
Abbreviation world := (world S P M).

Implicit Types (w : world).

(** ** Slow queries *)

(* @map nr_segment_datastore.c:284-291 nr_segment_potential_slowsql *)
Definition nr_segment_potential_slowsql (txn : option txn_t) (duration : Z) : bool :=
  match txn with
  | None => false
  | Some t =>
      match tt_recordsql (t_options t) with
      | NR_SQL_NONE => false
      | _ => if 0 =? tt_slowsql (t_options t) then false else ep_threshold (t_options t) <=? duration
      end
  end.

(* @map nr_segment_datastore.c:276-282 nr_segment_potential_explain_plan *)
Definition nr_segment_potential_explain_plan (txn : option txn_t) (duration : Z) : bool :=
  match txn with
  | None => false
  | Some t => negb (ep_enabled (t_options t) =? 0) && nr_segment_potential_slowsql txn duration
  end.

(* @map nr_segment_datastore.c:323-340 nr_segment_datastore_stack_worthy *)
Definition nr_segment_datastore_stack_worthy (txn : option txn_t) (duration : Z) : bool :=
  match txn with
  | None => false
  | Some t =>
      let o := t_options t in
      if (0 <? ss_threshold o) && (ss_threshold o <=? duration) then true
      else if negb (0 =? tt_slowsql o) then ep_threshold o <=? duration else false
  end.

(** The table, and what [*operation_ptr] becomes. *)
(* @map nr_segment_datastore.c:293-321 nr_segment_sql_get_operation_and_table *)
Definition nr_segment_sql_get_operation_and_table (txn : option txn_t) (sql : option cstr)
  (modify_table_name_fn : option (cstr -> cstr)) : option (option cstr * option cstr) :=
  match txn with
  | None => Some (None, None)
  | Some t =>
      if negb (t_no_sql_parsing t =? 0) then Some (None, None)
      else
        '(operation, table) ← nr_sql_get_operation_and_table sql true true;
        match table, modify_table_name_fn with
        | Some table, Some f => Some (Some (f table), operation)
        | _, _ => Some (table, operation)
        end
  end.

(** ** Metrics of a datastore segment *)

(** A metric of the transaction at an address. *)
Definition force_add_at (tp : txn_ptr) (name : option cstr) (duration : Z) w : option world :=
  t ← w_txns w !! tp;
  t ← add_unscoped (fun table => nrm_force_add table name duration) t;
  Some (put_txn tp t w).

(** Adding a metric to the segment, whose result the callers ignore. *)
Definition add_metric (p : seg_ptr) (name : option cstr) (scoped : bool) w : option world :=
  '(_, w) ← nr_segment_add_metric realloc_ok (Some p) name scoped w; Some w.

(** The instance of [datastore] as its metrics leave it. *)
Definition keep_instance (o : nrtxnopt_t) (hostname : cstr) (instance : nr_datastore_instance_t) : nr_datastore_instance_t :=
  let none := mk_instance None None None in
  let i := if negb (database_name_reporting_enabled o =? 0)
           then default none (nr_datastore_instance_set_database_name (Some none) (di_database_name instance)) else none in
  let i := default none (nr_datastore_instance_set_host (Some i) (di_host instance) hostname) in
  default none (nr_datastore_instance_set_port_path_or_id (Some i) (di_port_path_or_id instance)).

(** The name of the scoped metric, the instance [datastore] gets, and the memory. *)
(* @map nr_segment_datastore.c:10-71 create_metrics *)
Definition create_metrics (p : seg_ptr) (duration : Z) (product : cstr) (collection operation : option cstr)
  (instance : option nr_datastore_instance_t) (hostname : cstr) w : option (cstr * nr_datastore_instance_t * world) :=
  s ← w_segments w !! p;
  tp ← s_txn s;
  w ← force_add_at tp (Some (str "Datastore/all")) duration w;
  w ← force_add_at tp (nr_formatf (str "Datastore/" ++ c_str product ++ str "/all")) duration w;
  operation ← fmt_s operation;
  let operation_metric := nr_formatf (str "Datastore/operation/" ++ c_str product ++ str "/" ++ operation) in
  '(scoped_metric, w) ←
    match collection with
    | Some collection =>
        w ← add_metric p operation_metric false w;
        Some (nr_formatf (str "Datastore/statement/" ++ c_str product ++ str "/" ++ c_str collection ++ str "/" ++ operation), w)
    | None => Some (operation_metric, w)
    end;
  w ← add_metric p scoped_metric true w;
  let scoped_metric := nr_strdup scoped_metric in
  t ← w_txns w !! tp;
  match instance with
  | None => Some (scoped_metric, mk_instance None None None, w)
  | Some i =>
      if 0 =? instance_reporting_enabled (t_options t) then Some (scoped_metric, mk_instance None None None, w)
      else
        host ← fmt_s (di_host i);
        port_path_or_id ← fmt_s (di_port_path_or_id i);
        w ← add_metric p (nr_formatf (str "Datastore/instance/" ++ c_str product ++ str "/" ++ host ++ str "/" ++ port_path_or_id))
              false w;
        Some (scoped_metric, keep_instance (t_options t) hostname i, w)
  end.

(** ** Ending a datastore segment *)

(** The name of the datastore, and the collection and the operation in its query. *)
(* @map nr_segment_datastore.c:97-132 nr_segment_datastore_end *)
Definition datastore_names (t : txn_t) (params : nr_segment_datastore_params_t)
  : option (option cstr * option cstr * option cstr) :=
  if nr_datastore_is_sql (sdp_type params) then
    let datastore_string := nr_datastore_as_string (sdp_type params) in
    match sdp_collection params, sdp_operation params with
    | Some _, Some _ => Some (datastore_string, None, None)
    | _, _ =>
        '(table, operation) ← nr_segment_sql_get_operation_and_table (Some t) (sdp_sql params) (sdp_modify_table_name params);
        Some (datastore_string, table, operation)
    end
  else Some (if bool_decide (NR_DATASTORE_OTHER = sdp_type params) then sdp_string params
             else nr_datastore_as_string (sdp_type params), None, None).

(** The query and the obfuscated query to keep, and the input query. *)
(* @map nr_segment_datastore.c:204-229 nr_segment_datastore_end *)
Definition datastore_queries (t : txn_t) (is_sql : bool) (params : nr_segment_datastore_params_t)
  : option (option cstr * option cstr * option (option cstr * option cstr)) :=
  if is_sql then
    match nr_txn_sql_recording_level (Some t) with
    | NR_SQL_RAW => Some (sdp_sql params, None, sdp_input_query params)
    | NR_SQL_OBFUSCATED =>
        obfuscated ← nr_sql_obfuscate (sdp_sql params);
        match sdp_input_query params with
        | None => Some (None, obfuscated, None)
        | Some (name, query) => query ← nr_sql_obfuscate query; Some (None, obfuscated, Some (name, query))
        end
    | NR_SQL_NONE => Some (None, None, sdp_input_query params)
    end
  else Some (None, None, sdp_input_query params).

(** [hostname] is what [nr_system_get_hostname] answers. *)
(* @map nr_segment_datastore.c:73-274 nr_segment_datastore_end *)
Definition nr_segment_datastore_end (segment : option seg_ptr) (params : option nr_segment_datastore_params_t)
  (hostname : cstr) w : option world :=
  match segment, params with
  | Some p, Some params =>
      s ← w_segments w !! p;
      match s_txn s with
      | None => Some w
      | Some tp =>
          t ← w_txns w !! tp;
          let is_sql := nr_datastore_is_sql (sdp_type params) in
          '(datastore_string, collection, operation) ← datastore_names t params;
          match datastore_string with
          | None => Some w
          | Some product =>
              '(_, products) ← pool_add (t_datastore_products t) datastore_string;
              let w := put_txn tp (with_datastore_products products t) w in
              let collection := match sdp_collection params with Some c => Some c | None => collection end in
              let operation := match sdp_operation params with
                               | Some o => Some o
                               | None => match operation with Some o => Some o | None => Some (str "other") end
                               end in
              '(_, w) ← nr_segment_end realloc_ok clock (Some p) w;
              s ← w_segments w !! p;
              let duration := nr_time_duration (s_start_time s) (s_stop_time s) in
              t ← w_txns w !! tp;
              let backtrace_json := match sdp_backtrace params with
                                    | Some backtrace => if nr_segment_datastore_stack_worthy (Some t) duration then backtrace else None
                                    | None => None
                                    end in
              '(scoped_metric, instance, w) ← create_metrics p duration product collection operation (sdp_instance params) hostname w;
              '(_, w) ← nr_segment_set_name (Some p) (Some scoped_metric) w;
              t ← w_txns w !! tp;
              '(sql, sql_obfuscated, input_query) ← datastore_queries t is_sql params;
              let input_query_json :=
                match input_query with
                | None => None
                | Some (name, query) => json_of [(str "label", (false, name)); (str "query", (false, query))]
                end in
              slowsqls ← (if is_sql && nr_segment_potential_slowsql (Some t) duration then
                            nr_slowsqls_add json_of (t_slowsqls t) (Some
                              {| sp_sql := match sql_obfuscated with Some _ => sql_obfuscated | None => sql end;
                                 sp_duration := duration;
                                 sp_stacktrace_json := backtrace_json;
                                 sp_metric_name := Some scoped_metric;
                                 sp_plan_json := sdp_plan_json params;
                                 sp_input_query_json := input_query_json;
                                 sp_instance := sdp_instance params;
                                 sp_instance_reporting_enabled := instance_reporting_enabled (t_options t);
                                 sp_database_name_reporting_enabled := database_name_reporting_enabled (t_options t) |})
                          else Some (t_slowsqls t));
              let w := put_txn tp (with_slowsqls slowsqls t) w in
              '(_, w) ← nr_segment_set_datastore (Some p) (Some
                {| ds_component := Some (nr_strdup datastore_string);
                   ds_sql := sql;
                   ds_sql_obfuscated := sql_obfuscated;
                   ds_input_query_json := input_query_json;
                   ds_backtrace_json := backtrace_json;
                   ds_explain_plan_json := sdp_plan_json params;
                   ds_instance := instance |}) w;
              Some w
          end
      end
  | _, _ => Some w
  end.

(** ** External segments *)

(* @map nr_segment_external.c:14-30 nr_segment_external_set_attrs *)
Definition nr_segment_external_set_attrs (p : seg_ptr) (params : nr_segment_external_params_t) (external_guid : option cstr) w
  : option world :=
  uri ← (match sep_uri params with
         | None => Some None
         | Some _ => nr_url_clean (sep_uri params) (nr_strlen (sep_uri params))
         end);
  '(_, w) ← nr_segment_set_external (Some p) (Some
    {| ex_transaction_guid := external_guid; ex_uri := uri; ex_library := sep_library params;
       ex_procedure := sep_procedure params |}) w;
  Some w.

(** The domain in the names of metrics. *)
(* @map nr_segment_external.c:70-75 nr_segment_external_create_metrics *)
Definition metric_domain (uri : option cstr) (buflen : Z) : cstr :=
  match nr_url_extract_domain uri (nr_strlen uri) (Some 0), uri with
  | (Some start, Some len), Some u =>
      if (len <=? 0) || (buflen - 256 <=? len) then str "<unknown>"
      else take (Z.to_nat len) (drop (Z.to_nat start) (c_str u))
  | _, _ => str "<unknown>"
  end.

(* @map nr_segment_external.c:57-101 nr_segment_external_create_metrics *)
Definition nr_segment_external_create_metrics (p : seg_ptr) (uri external_id external_txnname : option cstr) w : option world :=
  let buflen := 1024 in
  let domain := metric_domain uri buflen in
  s ← w_segments w !! p;
  tp ← s_txn s;
  w ← force_add_at tp (Some (str "External/all")) (nr_time_duration (s_start_time s) (s_stop_time s)) w;
  '(buf, w) ←
    match external_id, external_txnname with
    | Some id, Some name =>
        w ← add_metric p (Some (snprintf buflen (str "External/" ++ domain ++ str "/all"))) false w;
        w ← add_metric p (Some (snprintf buflen (str "ExternalApp/" ++ domain ++ str "/" ++ c_str id ++ str "/all"))) false w;
        let buf := snprintf buflen (str "ExternalTransaction/" ++ domain ++ str "/" ++ c_str id ++ str "/" ++ c_str name) in
        w ← add_metric p (Some buf) true w;
        Some (buf, w)
    | _, _ =>
        let buf := snprintf buflen (str "External/" ++ domain ++ str "/all") in
        w ← add_metric p (Some buf) true w;
        Some (buf, w)
    end;
  t ← w_txns w !! tp;
  '(name, strings) ← pool_add (t_trace_strings t) (Some buf);
  upd_segment p (seg_name name) (put_txn tp (with_trace_strings strings t) w).

(* @map nr_segment_external.c:181-214 nr_segment_external_end *)
Definition nr_segment_external_end (segment : option seg_ptr) (params : option nr_segment_external_params_t) w
  : option (bool * world) :=
  match segment, params with
  | Some p, Some params =>
      s ← w_segments w !! p;
      match s_txn s with
      | None => Some (false, w)
      | Some _ =>
          w ← nr_segment_external_set_attrs p params None w;
          '(rv, w) ← nr_segment_end realloc_ok clock (Some p) w;
          w ← nr_segment_external_create_metrics p (sep_uri params) None None w;
          Some (rv, w)
      end
  | _, _ => Some (false, w)
  end.

End SegmentEnd.
