(* ===== verification/Sdk.v ===== *)
(** * The state of the SDK and its programs

    The objects the API hands out ([app.h], [transaction.h], [segment.h], [custom_event.h]), the
    locks ([util_threads.c]), the part of axiom that is not modelled as an interface, and programs
    over all of it: a program fails where the C code has no defined behaviour.

    Every lock, unlock and use of a transaction is recorded in a trace that no program reads. *)

From S2P Require Import Prelude Vector Strings Time StringPool Metrics.
From S2P Require Import HashMap SegmentChildren Slab Datastore Slowsqls Txn Config Segment SegmentEnd.

(** ** Pointers *)

Abbreviation app_ptr := positive.
Abbreviation nrapp_ptr := positive.
Abbreviation applist_ptr := positive.
Abbreviation conn_ptr := positive.
Abbreviation sdk_txn_ptr := positive.
Abbreviation sdk_seg_ptr := positive.
Abbreviation event_ptr := positive.

(** ** Locks *)

(** A mutex from [nrt_mutex_init] checks for errors; one that is all zeroes does not. *)
Record nrthread_mutex_t : Type := mk_mutex { mu_checks : bool; mu_locked : bool }.
Definition zeroed_mutex : nrthread_mutex_t := mk_mutex false false.

(** The mutexes, by the object they are in; [SegmentMutex] is the static one of [segment.c]. *)
Inductive mutex_id : Type :=
  | SegmentMutex
  | AppLock (p : app_ptr)
  | TxnLock (p : sdk_txn_ptr)
  | NrappLock (p : nrapp_ptr).

#[export] Instance mutex_id_eq_dec : EqDecision mutex_id.
Proof. solve_decision. Defined.

Inductive trace_event : Type :=
  | Lock (m : mutex_id)
  | Unlock (m : mutex_id)
  | Uses (t : txn_ptr).

(** ** Objects of the API *)

(** [environment] is an [nrobj_t]; the fields the SDK leaves zero are left out. *)
(* @map nr_app.h:53-69 nr_app_info_t *)
Record nr_app_info_t (O : Type) : Type := mk_app_info {
  ai_appname : cstr;
  ai_license : cstr;
  ai_redirect_collector : cstr;
  ai_environment : O;
  ai_lang : cstr;
  ai_version : cstr;
}.
Arguments mk_app_info {O}.
Arguments ai_appname {O}.
Arguments ai_license {O}.
Arguments ai_redirect_collector {O}.
Arguments ai_environment {O}.
Arguments ai_lang {O}.
Arguments ai_version {O}.

(* @map app.h:13-27 _nr_app_and_info_t *)
Record newrelic_app_t (O : Type) : Type := mk_app {
  ap_app : option nrapp_ptr;
  ap_app_info : option (nr_app_info_t O);
  ap_config : option newrelic_app_config_t;
  ap_lock : nrthread_mutex_t;
}.
Arguments mk_app {O}.
Arguments ap_app {O}.
Arguments ap_app_info {O}.
Arguments ap_config {O}.
Arguments ap_lock {O}.

(** The fields of a transaction and of a segment that the API gave are never NULL. *)
(* @map transaction.h:12-21 _newrelic_txn_t *)
Record newrelic_txn_t : Type := mk_sdk_txn {
  tx_txn : txn_ptr;
  tx_lock : nrthread_mutex_t;
}.

(* @map segment.h:24-36 datastore *)
Record datastore_fields_t : Type := mk_datastore_fields {
  df_collection : option cstr;
  df_operation : option cstr;
  df_instance : nr_datastore_instance_t;
  df_type : nr_datastore_t;
  df_string : option cstr;
  df_sql : option cstr;
}.

(* @map segment.h:37-41 external *)
Record external_fields_t : Type := mk_external_fields {
  xf_uri : option cstr;
  xf_library : option cstr;
  xf_procedure : option cstr;
}.

(** The union: as [nr_zalloc] leaves it, or the member written last. *)
(* @map segment.h:23-42 type *)
Inductive type_fields_t : Type :=
  | NoFields
  | DatastoreFields (d : datastore_fields_t)
  | ExternalFields (e : external_fields_t).

(* @map segment.h:14-43 _newrelic_segment_t *)
Record newrelic_segment_t : Type := mk_sdk_segment {
  sg_segment : seg_ptr;
  sg_transaction : option txn_ptr;
  sg_txn_lock : option mutex_id;
  sg_type : type_fields_t;
}.

(* @map custom_event.h:12-18 _newrelic_custom_event_t *)
Record newrelic_custom_event_t (O : Type) : Type := mk_custom_event {
  ev_type : cstr;
  ev_attributes : O;
}.
Arguments mk_custom_event {O}.
Arguments ev_type {O}.
Arguments ev_attributes {O}.

(** ** Axiom

    What the SDK calls in axiom beyond the modelled parts: the agent and its connection to the
    daemon, logging, JSON objects, the beginning and the end of transactions, distributed tracing.  [A] is the memory of all this and of
    the operating system; [O] is [nrobj_t]. *)
Class AxiomLib (S P M A O : Type) := {
  nrl_set_log_file : cstr -> A -> nr_status_t * A;
  nrl_set_log_level : cstr -> A -> nr_status_t * A;
  nrl_close_log_file : A -> A;
  nr_conn_params_init : cstr -> A -> option conn_ptr * A;
  nr_conn_params_free : conn_ptr -> A -> A;
  nr_agent_initialize_daemon_connection_parameters : conn_ptr -> A -> nr_status_t * A;
  nr_agent_try_daemon_connect : Z -> A -> Z * A;
  nr_agent_close_daemon_connection : A -> A;
  nr_applist_create : A -> option applist_ptr * A;
  nr_applist_destroy : applist_ptr -> A -> A;
  atexit_shutdown : A -> A;
  nr_agent_find_or_add_app : option applist_ptr -> nr_app_info_t O -> Z -> A -> option nrapp_ptr * A;
  nr_app_consider_appinfo : option nrapp_ptr -> A -> A;
  pthread_mutex_init : A -> nr_status_t * A;

  nr_txn_begin : option nrapp_ptr -> nrtxnopt_t -> world S P M -> A -> option txn_ptr * world S P M * A;
  nr_txn_end : txn_ptr -> world S P M -> A -> option (world S P M * A);
  nr_cmd_txndata_tx : txn_ptr -> world S P M -> A -> nr_status_t * A;
  nr_txn_destroy : txn_ptr -> world S P M -> A -> option (world S P M * A);

  nro_new_hash : O;
  nro_new_int : Z -> O;
  nro_new_long : Z -> O;
  nro_new_double : double -> O;
  nro_new_string : cstr -> O;
  nro_set_hash_int : O -> option cstr -> Z -> nr_status_t * O;
  nro_set_hash_long : O -> option cstr -> Z -> nr_status_t * O;
  nro_set_hash_double : O -> option cstr -> double -> nr_status_t * O;
  nro_set_hash_string : O -> option cstr -> option cstr -> nr_status_t * O;
  strings_to_json : list cstr -> option cstr;
  backtrace_symbols : A -> list cstr;

  nr_attributes_user_add : txn_ptr -> cstr -> O -> A -> nr_status_t * A;
  nr_custom_events_add_event : txn_ptr -> cstr -> O -> Z -> A -> A;

  nr_system_get_hostname : A -> cstr;
  json_of : list json_field -> option cstr;

  nr_txn_create_distributed_trace_payload :
    txn_ptr -> option seg_ptr -> world S P M -> A -> option (option cstr * world S P M * A);
  nr_txn_accept_distributed_trace_payload :
    txn_ptr -> option cstr -> option cstr -> world S P M -> A -> option (bool * world S P M * A);
  nr_txn_accept_distributed_trace_payload_httpsafe :
    txn_ptr -> option cstr -> option cstr -> world S P M -> A -> option (bool * world S P M * A);
  nr_b64_encode : cstr -> option cstr;
}.

(** ** State *)

(** [sd_applist] is [nr_agent_applist], [sd_mutex] the static mutex of [segment.c]. *)
Record sdk (S P M A O : Type) : Type := mk_sdk {
  sd_world : world S P M;
  sd_axiom : A;
  sd_apps : gmap app_ptr (newrelic_app_t O);
  sd_txns : gmap sdk_txn_ptr newrelic_txn_t;
  sd_segments : gmap sdk_seg_ptr newrelic_segment_t;
  sd_events : gmap event_ptr (newrelic_custom_event_t O);
  sd_applist : option applist_ptr;
  sd_log_configured : bool;
  sd_mutex : nrthread_mutex_t;
  sd_trace : list trace_event;
}.
Arguments mk_sdk {S P M A O}.
Arguments sd_world {S P M A O}.
Arguments sd_axiom {S P M A O}.
Arguments sd_apps {S P M A O}.
Arguments sd_txns {S P M A O}.
Arguments sd_segments {S P M A O}.
Arguments sd_events {S P M A O}.
Arguments sd_applist {S P M A O}.
Arguments sd_log_configured {S P M A O}.
Arguments sd_mutex {S P M A O}.
Arguments sd_trace {S P M A O}.

(** A program: its result and the state after it, or no defined behaviour. *)
Definition prog (S P M A O T : Type) : Type := sdk S P M A O -> option (T * sdk S P M A O).

#[export] Instance prog_ret {S P M A O} : MRet (prog S P M A O) := fun T x s => Some (x, s).
#[export] Instance prog_bind {S P M A O} : MBind (prog S P M A O) :=
  fun T U k m s => match m s with Some (x, s') => k x s' | None => None end.

Section Programs.
Context {S P M A O : Type} `{NamePool P} `{ObjectAllocator S M} `{AxiomLib S P M A O}.
(** Whether [realloc] can give a block of a size; what [gettimeofday] answers each time. *)
Context (realloc_ok : Z -> bool) (clock : nat -> Z * Z).

Abbreviation sdk := (sdk S P M A O).
Abbreviation prog := (prog S P M A O).
Abbreviation world := (world S P M).

Implicit Types (s : sdk).

Definition set_world (v : world) s : sdk :=
  mk_sdk v (sd_axiom s) (sd_apps s) (sd_txns s) (sd_segments s) (sd_events s) (sd_applist s)
    (sd_log_configured s) (sd_mutex s) (sd_trace s).
Definition set_axiom (v : A) s : sdk :=
  mk_sdk (sd_world s) v (sd_apps s) (sd_txns s) (sd_segments s) (sd_events s) (sd_applist s)
    (sd_log_configured s) (sd_mutex s) (sd_trace s).
Definition set_apps (v : gmap app_ptr (newrelic_app_t O)) s : sdk :=
  mk_sdk (sd_world s) (sd_axiom s) v (sd_txns s) (sd_segments s) (sd_events s) (sd_applist s)
    (sd_log_configured s) (sd_mutex s) (sd_trace s).
Definition set_sdk_txns (v : gmap sdk_txn_ptr newrelic_txn_t) s : sdk :=
  mk_sdk (sd_world s) (sd_axiom s) (sd_apps s) v (sd_segments s) (sd_events s) (sd_applist s)
    (sd_log_configured s) (sd_mutex s) (sd_trace s).
Definition set_sdk_segments (v : gmap sdk_seg_ptr newrelic_segment_t) s : sdk :=
  mk_sdk (sd_world s) (sd_axiom s) (sd_apps s) (sd_txns s) v (sd_events s) (sd_applist s)
    (sd_log_configured s) (sd_mutex s) (sd_trace s).
Definition set_events (v : gmap event_ptr (newrelic_custom_event_t O)) s : sdk :=
  mk_sdk (sd_world s) (sd_axiom s) (sd_apps s) (sd_txns s) (sd_segments s) v (sd_applist s)
    (sd_log_configured s) (sd_mutex s) (sd_trace s).
Definition set_applist (v : option applist_ptr) s : sdk :=
  mk_sdk (sd_world s) (sd_axiom s) (sd_apps s) (sd_txns s) (sd_segments s) (sd_events s) v
    (sd_log_configured s) (sd_mutex s) (sd_trace s).
Definition set_log_configured (v : bool) s : sdk :=
  mk_sdk (sd_world s) (sd_axiom s) (sd_apps s) (sd_txns s) (sd_segments s) (sd_events s) (sd_applist s)
    v (sd_mutex s) (sd_trace s).
Definition set_segment_mutex (v : nrthread_mutex_t) s : sdk :=
  mk_sdk (sd_world s) (sd_axiom s) (sd_apps s) (sd_txns s) (sd_segments s) (sd_events s) (sd_applist s)
    (sd_log_configured s) v (sd_trace s).
Definition add_trace (e : trace_event) s : sdk :=
  mk_sdk (sd_world s) (sd_axiom s) (sd_apps s) (sd_txns s) (sd_segments s) (sd_events s) (sd_applist s)
    (sd_log_configured s) (sd_mutex s) (sd_trace s ++ [e]).

(** ** Elementary programs *)

Definition gets {T : Type} (f : sdk -> T) : prog T := fun s => Some (f s, s).
Definition modify (f : sdk -> sdk) : prog unit := fun s => Some (tt, f s).
(** The C code has no defined behaviour from here on. *)
Definition undefined {T : Type} : prog T := fun _ => None.
Definition of_option {T : Type} (o : option T) : prog T := fun s => x ← o; Some (x, s).
Definition traced (e : trace_event) : prog unit := modify (add_trace e).

(** A call of axiom that changes its state. *)
Definition call {T : Type} (f : A -> T * A) : prog T :=
  fun s => Some (fst (f (sd_axiom s)), set_axiom (snd (f (sd_axiom s))) s).
Definition call_ (f : A -> A) : prog unit := modify (fun s => set_axiom (f (sd_axiom s)) s).

(** A computation on the memory of axiom. *)
Definition on_world {T : Type} (f : world -> option (T * world)) : prog T :=
  fun s => '(x, w) ← f (sd_world s); Some (x, set_world w s).

(** A use of the transaction at an address, and of the one a segment belongs to. *)
Definition use_segment (p : seg_ptr) : prog unit :=
  fun s => sg ← w_segments (sd_world s) !! p;
           match s_txn sg with Some tp => traced (Uses tp) s | None => Some (tt, s) end.

Definition on_txn {T : Type} (tp : txn_ptr) (f : option (nrtxn_t S P) -> option (T * option (nrtxn_t S P))) : prog T :=
  _ ← traced (Uses tp);
  on_world (fun w => t ← w_txns w !! tp;
                     '(x, t) ← f (Some t);
                     t ← t;
                     Some (x, put_txn tp t w)).

(** Reading a transaction. *)
Definition read_txn (tp : txn_ptr) : prog (nrtxn_t S P) :=
  _ ← traced (Uses tp); s ← gets id; of_option (w_txns (sd_world s) !! tp).

(** ** Mutexes *)

Definition mutex_at (m : mutex_id) s : option nrthread_mutex_t :=
  match m with
  | SegmentMutex => Some (sd_mutex s)
  | AppLock p => ap_lock <$> sd_apps s !! p
  | TxnLock p => tx_lock <$> sd_txns s !! p
  | NrappLock _ => None
  end.

Definition set_mutex (m : mutex_id) (v : nrthread_mutex_t) s : sdk :=
  match m with
  | SegmentMutex => set_segment_mutex v s
  | AppLock p => set_apps (alter (fun a => mk_app (ap_app a) (ap_app_info a) (ap_config a) v) p (sd_apps s)) s
  | TxnLock p => set_sdk_txns (alter (fun t => mk_sdk_txn (tx_txn t) v) p (sd_txns s)) s
  | NrappLock _ => s
  end.

(** A thread that locks a mutex it holds is told so by a mutex that checks and waits forever on one
    that does not. *)
(* @map util_threads.c:74-91 nrt_mutex_lock_f *)
Definition nrt_mutex_lock (mutex : option mutex_id) : prog nr_status_t :=
  match mutex with
  | None => mret NR_FAILURE
  | Some m =>
      s ← gets id;
      v ← of_option (mutex_at m s);
      if mu_locked v then if mu_checks v then mret NR_FAILURE else undefined
      else
        _ ← modify (set_mutex m (mk_mutex (mu_checks v) true));
        _ ← traced (Lock m);
        mret NR_SUCCESS
  end.

(* @map util_threads.c:93-110 nrt_mutex_unlock_f *)
Definition nrt_mutex_unlock (mutex : option mutex_id) : prog nr_status_t :=
  match mutex with
  | None => mret NR_FAILURE
  | Some m =>
      s ← gets id;
      v ← of_option (mutex_at m s);
      if mu_locked v then
        _ ← modify (set_mutex m (mk_mutex (mu_checks v) false));
        _ ← traced (Unlock m);
        mret NR_SUCCESS
      else if mu_checks v then mret NR_FAILURE else undefined
  end.

(** A mutex in use is not destroyed. *)
(* @map util_threads.c:112-129 nrt_mutex_destroy_f *)
Definition nrt_mutex_destroy (mutex : option mutex_id) : prog nr_status_t :=
  match mutex with
  | None => mret NR_FAILURE
  | Some m =>
      s ← gets id;
      v ← of_option (mutex_at m s);
      mret (if mu_locked v then NR_FAILURE else NR_SUCCESS)
  end.

(** The mutex is one the caller assigns. *)
(* @map util_threads.c:38-72 nrt_mutex_init_f *)
Definition nrt_mutex_init : prog (option nrthread_mutex_t) :=
  ret ← call pthread_mutex_init;
  match ret with
  | NR_SUCCESS => mret (Some (mk_mutex true false))
  | NR_FAILURE => mret None
  end.

End Programs.

(** Running the elementary programs of a program in a hypothesis or in the goal. *)
Ltac prog_run := unfold mbind, prog_bind, mret, prog_ret; cbn [mbind prog_bind mret prog_ret gets modify call call_ of_option traced id fst snd
  option_bind set_world set_axiom set_apps set_sdk_txns set_sdk_segments set_events set_applist set_log_configured
  set_segment_mutex add_trace sd_world sd_axiom sd_apps sd_txns sd_segments sd_events sd_applist
  sd_log_configured sd_mutex sd_trace].
Ltac prog_run_in H := unfold mbind, prog_bind, mret, prog_ret in H; cbn [mbind prog_bind mret prog_ret gets modify call call_ of_option traced id fst snd
  option_bind set_world set_axiom set_apps set_sdk_txns set_sdk_segments set_events set_applist set_log_configured
  set_segment_mutex add_trace sd_world sd_axiom sd_apps sd_txns sd_segments sd_events sd_applist
  sd_log_configured sd_mutex sd_trace] in H.

(** All ways a program can go. *)
Ltac prog_cases H :=
  repeat (prog_run_in H;
          match type of H with
          | Some _ = Some _ => injection H as <- <-
          | Some _ = Some _ => progress simplify_eq H
          | None = Some _ => discriminate H
          | context [match ?x with _ => _ end] =>
              lazymatch x with context [match _ with _ => _ end] => fail | _ => destruct x eqn:? end
          end).

(** A conjunction of a result and of simple consequences. *)
Ltac outcome := split; [reflexivity|done].

#[global] Arguments str : simpl never.

(** ** Running programs *)

Section Running.
Context {S P M A O : Type} `{NamePool P} `{ObjectAllocator S M} `{AxiomLib S P M A O}.

Abbreviation sdk := (sdk S P M A O).
Abbreviation prog := (prog S P M A O).

Implicit Types (s : sdk).

Lemma bind_run {T U : Type} (m : prog T) (f : T -> prog U) s x s' : m s = Some (x, s') -> (m ≫= f) s = f x s'.
Proof. intros E. unfold mbind, prog_bind. by rewrite E. Qed.

Lemma bind_undefined {T U : Type} (m : prog T) (f : T -> prog U) s : m s = None -> (m ≫= f) s = None.
Proof. intros E. unfold mbind, prog_bind. by rewrite E. Qed.

Lemma of_option_run {T : Type} (o : option T) x s : o = Some x -> of_option o s = Some (x, s).
Proof. by intros ->. Qed.

Lemma on_world_run {T : Type} (f : world S P M -> option (T * world S P M)) s x w :
  f (sd_world s) = Some (x, w) -> on_world f s = Some (x, set_world w s).
Proof. unfold on_world. by intros ->. Qed.

(** A transaction of the API with its lock in a state. *)
Definition relock (x : sdk_txn_ptr) (tx : newrelic_txn_t) (locked : bool) s : sdk :=
  set_sdk_txns (<[x := mk_sdk_txn (tx_txn tx) (mk_mutex true locked)]> (sd_txns s)) s.

Lemma alter_lock x tx (locked : bool) s :
  sd_txns s !! x = Some tx ->
  set_mutex (TxnLock x) (mk_mutex true locked) s = relock x tx locked s.
Proof.
  intros Hx. unfold set_mutex, relock. f_equal. apply map_eq. intros y. destruct (decide (y = x)) as [->|Hne].
  - by rewrite lookup_alter_eq, lookup_insert_eq, Hx.
  - by rewrite lookup_alter_ne, lookup_insert_ne by congruence.
Qed.

Lemma lock_txn_run s x tx :
  sd_txns s !! x = Some tx -> tx_lock tx = mk_mutex true false ->
  nrt_mutex_lock (Some (TxnLock x)) s = Some (NR_SUCCESS, add_trace (Lock (TxnLock x)) (relock x tx true s)).
Proof.
  intros Hx Hl. unfold nrt_mutex_lock. erewrite bind_run by done. cbn [id mutex_at]. rewrite Hx.
  cbn [fmap option_fmap option_map]. rewrite Hl. erewrite bind_run by done. cbn [mu_locked mu_checks].
  by rewrite <- alter_lock.
Qed.

Lemma unlock_txn_run s x tx :
  sd_txns s !! x = Some tx -> tx_lock tx = mk_mutex true true ->
  nrt_mutex_unlock (Some (TxnLock x)) s = Some (NR_SUCCESS, add_trace (Unlock (TxnLock x)) (relock x tx false s)).
Proof.
  intros Hx Hl. unfold nrt_mutex_unlock. erewrite bind_run by done. cbn [id mutex_at]. rewrite Hx.
  cbn [fmap option_fmap option_map]. rewrite Hl. erewrite bind_run by done. cbn [mu_locked mu_checks].
  by rewrite <- alter_lock.
Qed.

(** The static mutex. *)
Lemma lock_segments_run s :
  mu_locked (sd_mutex s) = false ->
  nrt_mutex_lock (Some SegmentMutex) s
  = Some (NR_SUCCESS, add_trace (Lock SegmentMutex) (set_segment_mutex (mk_mutex (mu_checks (sd_mutex s)) true) s)).
Proof. intros Hl. unfold nrt_mutex_lock. do 2 erewrite bind_run by done. cbn. by rewrite Hl. Qed.

Lemma unlock_segments_run s :
  mu_locked (sd_mutex s) = true ->
  nrt_mutex_unlock (Some SegmentMutex) s
  = Some (NR_SUCCESS, add_trace (Unlock SegmentMutex) (set_segment_mutex (mk_mutex (mu_checks (sd_mutex s)) false) s)).
Proof. intros Hl. unfold nrt_mutex_unlock. do 2 erewrite bind_run by done. cbn. by rewrite Hl. Qed.

End Running.

(** One step of a program in the goal: the equation of its first part. *)
Ltac step_by E := erewrite bind_run; [|apply E]; cbv beta.
