(* ===== verification/SdkSample.v ===== *)
(** * A sample axiom

    A concrete instance of the interface to axiom, on which the theorems about the SDK are tried
    out: a daemon that is always there, applications that are always connected, transactions
    that begin with a root segment, objects that are lists of keys and values. *)

From S2P Require Import Prelude Vector Strings Time StringPool Metrics.
From S2P Require Import HashMap SegmentChildren Slab Datastore Slowsqls Txn Config Segment SegmentEnd Sdk.

(** Memory comes from [bump_calloc]. *)
#[export] Instance sample_allocator : ObjectAllocator nr_slab_t (list block) := slab_allocator bump_calloc bump_calloc_fresh.

Definition sample_world : Type := world nr_slab_t nrstrpool_t (list block).

(** The transactions sent to the daemon. *)
Definition sample_state : Type := list txn_ptr.

Definition sample_realloc (n : Z) : bool := permissive_realloc n.
Definition sample_clock (n : nat) : Z * Z := (1 + Z.of_nat n, 0).

Section Sample.
Context {S M : Type} `{ObjectAllocator S M} (slab_create : M -> option (option S * M)).

(** The transaction before it has segments. *)
Definition blank_txn (opts : nrtxnopt_t) (slab : S) (now : Z) : nrtxn_t S nrstrpool_t :=
  mk_txn 0 opts (mk_status 0 NR_PATH_TYPE_UNKNOWN 0 0 0 1 false) (nr_vector_init_impl 32 false) None 0 (Some slab)
    None now None (Some nr_string_pool_create) (Some (nrm_table_create 0)) (Some (nrm_table_create 0)) None None
    (nr_slowsqls_create 10) (Some nr_string_pool_create) 0.

Definition sample_begin (app : option nrapp_ptr) (opts : nrtxnopt_t) (w : world S nrstrpool_t M) (a : sample_state)
  : option txn_ptr * world S nrstrpool_t M * sample_state :=
  match slab_create (w_mem w) with
  | Some (Some slab, mem) =>
      let tp := fresh (dom (w_txns w)) in
      let '(now, w) := read_clock sample_clock w in
      let w := set_mem mem (put_txn tp (blank_txn opts slab now) w) in
      match nr_segment_start sample_realloc sample_clock (Some tp) None None w with
      | Some (Some root, w) =>
          match w_txns w !! tp with
          | Some t => (Some tp, put_txn tp (with_segment_root (Some root) t) w, a)
          | None => (None, w, a)
          end
      | _ => (None, w, a)
      end
  | _ => (None, w, a)
  end.

(** Without the transaction and its segments. *)
Definition forget_txn (tp : txn_ptr) (w : world S nrstrpool_t M) : world S nrstrpool_t M :=
  set_txns (delete tp (w_txns w)) (set_segments (filter (fun x => x.2.(s_txn) <> Some tp) (w_segments w)) w).

Definition sample_object : Type := list (cstr * cstr).

Definition set_key (o : sample_object) (key value : option cstr) : nr_status_t * sample_object :=
  match key, value with
  | Some k, Some v => (NR_SUCCESS, o ++ [(c_str k, c_str v)])
  | _, _ => (NR_FAILURE, o)
  end.

Definition sample_lib : AxiomLib S nrstrpool_t M sample_state sample_object := {|
  nrl_set_log_file f a := (NR_SUCCESS, a);
  nrl_set_log_level l a := (NR_SUCCESS, a);
  nrl_close_log_file a := a;
  nr_conn_params_init addr a := (Some 1%positive, a);
  nr_conn_params_free p a := a;
  nr_agent_initialize_daemon_connection_parameters p a := (NR_SUCCESS, a);
  nr_agent_try_daemon_connect t a := (1, a);
  nr_agent_close_daemon_connection a := a;
  nr_applist_create a := (Some 1%positive, a);
  nr_applist_destroy l a := a;
  atexit_shutdown a := a;
  nr_agent_find_or_add_app l info t a := (Some 1%positive, a);
  nr_app_consider_appinfo app a := a;
  pthread_mutex_init a := (NR_SUCCESS, a);
  nr_txn_begin := sample_begin;
  nr_txn_end tp w a := Some (w, a);
  nr_cmd_txndata_tx tp w a := (NR_SUCCESS, a ++ [tp]);
  nr_txn_destroy tp w a := Some (forget_txn tp w, a);
  nro_new_hash := [];
  nro_new_int v := [];
  nro_new_long v := [];
  nro_new_double v := [];
  nro_new_string s := [(str "value", s)];
  nro_set_hash_int o k v := set_key o k (Some (str "int"));
  nro_set_hash_long o k v := set_key o k (Some (str "long"));
  nro_set_hash_double o k v := set_key o k (Some (str "double"));
  nro_set_hash_string := set_key;
  strings_to_json l := Some (concat l);
  backtrace_symbols a := [str "main"];
  nr_attributes_user_add tp k o a := (NR_SUCCESS, a);
  nr_custom_events_add_event tp ty o now a := a;
  nr_system_get_hostname a := str "host";
  json_of l := Some [];
  nr_txn_create_distributed_trace_payload tp p w a := Some (Some (str "payload"), w, a);
  nr_txn_accept_distributed_trace_payload tp p t w a := Some (true, w, a);
  nr_txn_accept_distributed_trace_payload_httpsafe tp p t w a := Some (true, w, a);
  nr_b64_encode s := Some s
|}.

End Sample.

(** On slabs. *)
#[export] Instance sample_axiom : AxiomLib nr_slab_t nrstrpool_t (list block) sample_state sample_object :=
  sample_lib (fun mem => nr_slab_create bump_calloc 4096 mem 168 0).

(** The process before the SDK is used. *)
Definition initial_sdk {S P M A O : Type} (mem : M) (a : A) : sdk S P M A O :=
  mk_sdk (mk_world empty empty empty mem 0%nat) a empty empty empty empty None false (mk_mutex false false) [].

Definition sample_sdk : sdk nr_slab_t nrstrpool_t (list block) sample_state sample_object := initial_sdk [] [].
