(* ===== verification/SdkGlobal.v ===== *)
(** * Initialisation and applications

    [src/version.c], [src/global.c], [src/app.c] and [src/app_internal.c]: the log, the connection
    to the daemon, applications. *)

From S2P Require Import Prelude Vector Strings Time StringPool Metrics.
From S2P Require Import HashMap SegmentChildren Slab Datastore Slowsqls Txn Config Segment SegmentEnd Sdk SdkSample.

Section Global.
Context {S P M A O : Type} `{NamePool P} `{ObjectAllocator S M} `{AxiomLib S P M A O}.
(** The version the build defines. *)
Context (NEWRELIC_VERSION : cstr).

Abbreviation sdk := (sdk S P M A O).
Abbreviation prog := (prog S P M A O).

(* @map version.c:4-6 newrelic_version *)
Definition newrelic_version : cstr := NEWRELIC_VERSION.

(** ** [global.c] *)

(* @map global.c:16-17 level_array *)
Definition level_array : list cstr := [str "error"; str "warning"; str "info"; str "verbosedebug"].

(** An enumeration without negative constants is an [unsigned int]. *)
(* @map global.c:14-44 newrelic_configure_log *)
Definition newrelic_configure_log (filename : option cstr) (level : newrelic_loglevel_t) : prog bool :=
  match filename with
  | None => mret false
  | Some filename =>
      match level_array !! Z.to_nat (u32 level) with
      | None => mret false
      | Some level =>
          ret ← call (nrl_set_log_file filename);
          match ret with
          | NR_FAILURE => mret false
          | NR_SUCCESS =>
              ret ← call (nrl_set_log_level level);
              match ret with
              | NR_FAILURE => mret false
              | NR_SUCCESS => _ ← modify (set_log_configured true); mret true
              end
          end
      end
  end.

(* @map global.c:55-102 newrelic_do_init *)
Definition newrelic_do_init (daemon_socket : option cstr) (time_limit_ms : Z) : prog bool :=
  s ← gets id;
  configured ← (if sd_log_configured s then mret true
                else newrelic_configure_log (Some (str "stderr")) NEWRELIC_LOG_INFO);
  if negb configured then mret false
  else
    let address := match daemon_socket with Some a => a | None => str "/tmp/.newrelic.sock" end in
    params ← call (nr_conn_params_init address);
    match params with
    | None => mret false
    | Some params =>
        ret ← call (nr_agent_initialize_daemon_connection_parameters params);
        _ ← call_ (nr_conn_params_free params);
        match ret with
        | NR_FAILURE => mret false
        | NR_SUCCESS =>
            connected ← call (nr_agent_try_daemon_connect (if time_limit_ms =? 0 then 10 else time_limit_ms));
            if (connected : Z) =? 0 then mret false
            else
              applist ← call nr_applist_create;
              _ ← modify (set_applist applist);
              _ ← call_ atexit_shutdown;
              mret true
        end
    end.

(* @map global.c:46-53 newrelic_init *)
Definition newrelic_init (daemon_socket : option cstr) (time_limit_ms : Z) : prog bool :=
  s ← gets id;
  match sd_applist s with
  | Some _ => mret false
  | None => newrelic_do_init daemon_socket time_limit_ms
  end.

(* @map global.c:104-111 newrelic_ensure_init *)
Definition newrelic_ensure_init : prog bool :=
  s ← gets id;
  match sd_applist s with
  | Some _ => mret true
  | None => newrelic_do_init None 0
  end.

(* @map global.c:113-118 newrelic_shutdown *)
Definition newrelic_shutdown : prog unit :=
  _ ← call_ nr_agent_close_daemon_connection;
  s ← gets id;
  _ ← (match sd_applist s with
       | None => mret tt
       | Some l => _ ← call_ (nr_applist_destroy l); modify (set_applist None)
       end);
  _ ← call_ nrl_close_log_file;
  modify (set_log_configured false).

(** The transaction is updated in place. *)
(* @map global.c:120-131 newrelic_add_api_supportability_metric *)
Definition newrelic_add_api_supportability_metric (txn : option txn_ptr) (name : option cstr) : prog unit :=
  match name, txn with
  | Some name, Some tp =>
      let metric := str "Supportability/C/api/" ++ c_str name in
      on_txn tp (fun t => match t with
                          | None => None
                          | Some t => t ← add_unscoped (fun table => nrm_force_add table (Some metric) 0) t;
                                      Some (tt, Some t)
                          end)
  | _, _ => mret tt
  end.

(** ** [app_internal.c] *)

(** The application comes locked; the timeout is an [int] times a [nrtime_t].  The lock is assigned
    to whatever [nrt_mutex_init] could make of it. *)
(* @map app_internal.c:13-42 newrelic_connect_app *)
Definition newrelic_connect_app (app : option app_ptr) (timeout_ms : Z) : prog nr_status_t :=
  match app with
  | None => mret NR_FAILURE
  | Some p =>
      s ← gets id;
      a ← of_option (sd_apps s !! p);
      match ap_app_info a with
      | None => mret NR_FAILURE
      | Some info =>
          nrapp ← call (nr_agent_find_or_add_app (sd_applist s) info (u64 (timeout_ms * NR_TIME_DIVISOR_MS)));
          match nrapp with
          | None => mret NR_FAILURE
          | Some nrapp =>
              _ ← traced (Lock (NrappLock nrapp));
              _ ← traced (Unlock (NrappLock nrapp));
              lock ← nrt_mutex_init;
              _ ← modify (fun s => set_apps (<[p := mk_app (Some nrapp) (ap_app_info a) (ap_config a)
                                                      (default (ap_lock a) lock)]> (sd_apps s)) s);
              mret NR_SUCCESS
          end
      end
  end.

(** ** [app.c] *)

(** The result, and what [*app] is afterwards. *)
(* @map app.c:75-101 newrelic_destroy_app *)
Definition newrelic_destroy_app (app : option (option app_ptr)) : prog (bool * option (option app_ptr)) :=
  match app with
  | None => mret (false, None)
  | Some None => mret (false, Some None)
  | Some (Some p) =>
      _ ← nrt_mutex_lock (Some (AppLock p));
      _ ← call_ nr_agent_close_daemon_connection;
      _ ← call_ nrl_close_log_file;
      s ← gets id;
      a ← of_option (sd_apps s !! p);
      let config := match ap_config a with
                    | Some c => from_option id None (snd (newrelic_destroy_app_config (Some (Some c))))
                    | None => None
                    end in
      _ ← modify (fun s => set_apps (<[p := mk_app (ap_app a) None config (ap_lock a)]> (sd_apps s)) s);
      _ ← nrt_mutex_unlock (Some (AppLock p));
      _ ← nrt_mutex_destroy (Some (AppLock p));
      _ ← modify (fun s => set_apps (delete p (sd_apps s)) s);
      mret (true, Some None)
  end.

(** The settings the SDK takes over from the configuration it is given. *)
(* @map app.c:40-42 newrelic_create_app *)
Definition take_settings (given config : newrelic_app_config_t) : newrelic_app_config_t :=
  mk_config (app_name config) (license_key config) (redirect_collector config) (log_filename config)
    (log_level config) (transaction_tracer given) (datastore_tracer config)
    (mk_distributed_tracing (distributed_enabled (distributed_tracing given)))
    (mk_span_events (spans_enabled (span_events given))).

(* @map app.c:44-59 newrelic_create_app *)
Definition app_info_of (given : newrelic_app_config_t) : nr_app_info_t O :=
  {| ai_redirect_collector :=
       if 0 <? nr_strlen (Some (redirect_collector given)) then nr_strdup (Some (redirect_collector given))
       else nr_strdup (Some []);
     ai_appname := nr_strdup (Some (app_name given));
     ai_license := nr_strdup (Some (license_key given));
     ai_lang := nr_strdup (Some (str "c"));
     ai_environment := nro_new_hash;
     ai_version := nr_strdup (Some newrelic_version) |}.

(* @map app.c:10-73 newrelic_create_app *)
Definition newrelic_create_app (given_config : option newrelic_app_config_t) (timeout_ms : Z) : prog (option app_ptr) :=
  match given_config with
  | None => mret None
  | Some given =>
      if nr_strempty (Some (app_name given)) then mret None
      else if negb (NR_LICENSE_SIZE =? nr_strlen (Some (license_key given))) then mret None
      else
        ready ← newrelic_ensure_init;
        if negb ready then mret None
        else
          config ← of_option (newrelic_create_app_config (Some (app_name given)) (Some (license_key given)));
          config ← of_option config;
          s ← gets id;
          let p := fresh (dom (sd_apps s)) in
          _ ← modify (fun s => set_apps (<[p := mk_app None (Some (app_info_of given))
                                                  (Some (take_settings given config)) zeroed_mutex]> (sd_apps s)) s);
          status ← newrelic_connect_app (Some p) timeout_ms;
          match status with
          | NR_FAILURE =>
              _ ← call_ nrl_close_log_file;
              _ ← newrelic_destroy_app (Some (Some p));
              mret None
          | NR_SUCCESS => mret (Some p)
          end
  end.

End Global.

(** ** Phases of the process

    The abstract state of the process: whether the log is configured, and whether there is a list
    of applications. *)

Inductive phase : Type := Silent | Logging | Ready.

#[export] Instance phase_eq_dec : EqDecision phase.
Proof. solve_decision. Defined.

Inductive global_call : Type :=
  | ConfigureLog (filename : option cstr) (level : newrelic_loglevel_t)
  | Init (daemon_socket : option cstr) (time_limit_ms : Z)
  | EnsureInit
  | Shutdown.

(** What a call may do to the phase, by its result. *)
Inductive phase_step : global_call -> phase -> bool -> phase -> Prop :=
  | configure_refused f l ph : phase_step (ConfigureLog f l) ph false ph
  | configure_done f l ph : phase_step (ConfigureLog (Some f) l) ph true (if decide (ph = Ready) then Ready else Logging)
  | init_refused d t : phase_step (Init d t) Ready false Ready
  | init_failed d t ph ph' : ph <> Ready -> (ph' = ph \/ ph' = Logging) -> phase_step (Init d t) ph false ph'
  | init_done d t ph : ph <> Ready -> phase_step (Init d t) ph true Ready
  | init_without_list d t ph : ph <> Ready -> phase_step (Init d t) ph true Logging
  | ensure_ready : phase_step EnsureInit Ready true Ready
  | ensure_failed ph ph' : ph <> Ready -> (ph' = ph \/ ph' = Logging) -> phase_step EnsureInit ph false ph'
  | ensure_done ph : ph <> Ready -> phase_step EnsureInit ph true Ready
  | ensure_without_list ph : ph <> Ready -> phase_step EnsureInit ph true Logging
  | shutdown_done ph : phase_step Shutdown ph true Silent.

Section Phases.
Context {S P M A O : Type} `{NamePool P} `{ObjectAllocator S M} `{AxiomLib S P M A O}.
Context (NEWRELIC_VERSION : cstr).

Abbreviation sdk := (sdk S P M A O).
Abbreviation prog := (prog S P M A O).

Implicit Types (s : sdk).

Definition run_global (c : global_call) : prog bool :=
  match c with
  | ConfigureLog f l => newrelic_configure_log f l
  | Init d t => newrelic_init d t
  | EnsureInit => newrelic_ensure_init
  | Shutdown => _ ← newrelic_shutdown; mret true
  end.

(** The phase a state is in; none when applications are listed without a log. *)
Definition in_phase s (ph : phase) : Prop :=
  match sd_applist s, sd_log_configured s with
  | None, false => ph = Silent
  | None, true => ph = Logging
  | Some _, true => ph = Ready
  | Some _, false => False
  end.

(** Only the log, the list of applications and axiom change. *)
Definition same_objects s s' : Prop :=
  sd_world s' = sd_world s /\ sd_apps s' = sd_apps s /\ sd_txns s' = sd_txns s /\ sd_segments s' = sd_segments s
  /\ sd_events s' = sd_events s /\ sd_mutex s' = sd_mutex s /\ sd_trace s' = sd_trace s.

(** What [newrelic_configure_log] does when it is defined. *)
Lemma configure_log_cases f l s :
  exists b a, newrelic_configure_log f l s = Some (b, set_log_configured (b || sd_log_configured s) (set_axiom a s))
    /\ (b = true -> is_Some f).
Proof.
  destruct s as [w a apps txns segs evs al lc mu tr]. unfold newrelic_configure_log. destruct f as [f|].
  2:{ exists false, a. outcome. }
  destruct (level_array !! Z.to_nat (u32 l)) as [level|]; [|exists false, a; outcome]. prog_run.
  destruct (nrl_set_log_file f a) as [[] a1]; cbn; [|exists false, a1; outcome].
  destruct (nrl_set_log_level level a1) as [[] a2]; cbn; [exists true, a2|exists false, a2]; outcome.
Qed.

(** Initialising never fails to return, and succeeds with a configured log. *)
Lemma do_init_cases d t s :
  sd_applist s = None ->
  exists b al lc a, newrelic_do_init d t s = Some (b, set_applist al (set_log_configured lc (set_axiom a s)))
    /\ (sd_log_configured s = true -> lc = true) /\ (b = true -> lc = true) /\ (b = false -> al = None).
Proof.
  intros Hal. unfold newrelic_do_init. prog_run.
  assert (exists c a, (if sd_log_configured s then mret true
      else newrelic_configure_log (Some (str "stderr")) NEWRELIC_LOG_INFO) s
    = Some (c, set_log_configured (c || sd_log_configured s) (set_axiom a s))
    /\ (sd_log_configured s = true -> c = true)) as (c & a & E & Hc).
  { destruct (sd_log_configured s) eqn:El.
    - exists true, (sd_axiom s). split; [|done]. by destruct s; simpl in *; subst.
    - destruct (configure_log_cases (Some (str "stderr")) NEWRELIC_LOG_INFO s) as (c & a & E & _).
      rewrite El in E. by exists c, a. }
  unfold mret, prog_ret in E. rewrite E. destruct s as [w a0 apps txns segs evs al lc mu tr]. cbn in Hal, Hc |- *. subst al.
  destruct c; cbn.
  2:{ exists false, None, lc, a. outcome. }
  destruct (nr_conn_params_init _ a) as [[params|] a1]; cbn; [|exists false, None, true, a1; outcome].
  destruct (nr_agent_initialize_daemon_connection_parameters params a1) as [[] a2]; cbn;
    [|exists false, None, true, (nr_conn_params_free params a2); outcome].
  destruct (nr_agent_try_daemon_connect _ _) as [connected a3]; cbn.
  destruct (connected =? 0); cbn; [exists false, None, true, a3; outcome|].
  destruct (nr_applist_create a3) as [al a4]; cbn. exists true, al, true, (atexit_shutdown a4). outcome.
Qed.

Lemma in_phase_ready s ph : in_phase s ph -> ph = Ready <-> is_Some (sd_applist s).
Proof.
  unfold in_phase. destruct (sd_applist s), (sd_log_configured s); try done; intros ->; split; try done; by eexists.
Qed.

Lemma do_init_phase d t s ph :
  in_phase s ph -> ph <> Ready ->
  exists b s' ph', newrelic_do_init d t s = Some (b, s') /\ in_phase s' ph' /\ same_objects s s'
    /\ if b then ph' = Ready \/ ph' = Logging else ph' = ph \/ ph' = Logging.
Proof.
  intros Hph Hne. pose proof (in_phase_ready s ph Hph) as Hready.
  assert (Hal : sd_applist s = None).
  { destruct (sd_applist s) eqn:E; [|done]. exfalso. apply Hne, Hready. by eexists. }
  destruct (do_init_cases d t s Hal) as (b & al & lc & a & -> & Hlc & Htrue & Hfalse).
  unfold in_phase in Hph. rewrite Hal in Hph. destruct b.
  - rewrite (Htrue eq_refl). exists true, (set_applist al (set_log_configured true (set_axiom a s))).
    exists (match al with Some _ => Ready | None => Logging end). split; [done|]. unfold in_phase. cbn.
    destruct al; (split; [done|]; split; [done|]); [by left|by right].
  - rewrite (Hfalse eq_refl). exists false, (set_applist None (set_log_configured lc (set_axiom a s))).
    exists (if lc then Logging else Silent). split; [done|]. unfold in_phase. cbn.
    destruct lc; (split; [done|]; split; [done|]); [by right|left]. destruct (sd_log_configured s); [by discriminate Hlc|done].
Qed.

Lemma run_global_phase c s ph :
  in_phase s ph ->
  exists b s' ph', run_global c s = Some (b, s') /\ phase_step c ph b ph' /\ in_phase s' ph' /\ same_objects s s'.
Proof.
  intros Hph. pose proof (in_phase_ready s ph Hph) as Hready. destruct c as [f l|d t| |]; cbn [run_global].
  - destruct (configure_log_cases f l s) as (b & a & -> & Hf). destruct b; cbn [orb].
    + destruct (Hf eq_refl) as [f' ->]. eexists _, _, _. split; [done|]. split; [apply configure_done|]. split; [|done].
      unfold in_phase in *. cbn. destruct (sd_applist s), (sd_log_configured s); subst; done.
    + exists false. eexists _, ph. split; [done|]. split; [constructor|]. split; [|done].
      unfold in_phase in *. cbn. exact Hph.
  - unfold newrelic_init. prog_run. destruct (decide (ph = Ready)) as [->|Hne].
    + destruct (proj1 Hready eq_refl) as [al Hal]. rewrite Hal. exists false, s, Ready. by split; [|split; [constructor|]].
    + destruct (sd_applist s) eqn:Hal; [exfalso; apply Hne, Hready; by eexists|].
      destruct (do_init_phase d t s ph Hph Hne) as (b & s' & ph' & E & Hph' & Hsame & Hb).
      exists b, s', ph'. split; [exact E|]. split; [|done]. destruct b; [destruct Hb as [-> | ->]|]; by constructor.
  - unfold newrelic_ensure_init. prog_run. destruct (decide (ph = Ready)) as [->|Hne].
    + destruct (proj1 Hready eq_refl) as [al Hal]. rewrite Hal. exists true, s, Ready. by split; [|split; [constructor|]].
    + destruct (sd_applist s) eqn:Hal; [exfalso; apply Hne, Hready; by eexists|].
      destruct (do_init_phase None 0 s ph Hph Hne) as (b & s' & ph' & E & Hph' & Hsame & Hb).
      exists b, s', ph'. split; [exact E|]. split; [|done]. destruct b; [destruct Hb as [-> | ->]|]; by constructor.
  - unfold newrelic_shutdown. prog_run. exists true.
    destruct (sd_applist s) eqn:Hal; eexists _, Silent; (split; [reflexivity|]; split; [constructor|]); unfold in_phase; cbn;
      rewrite ?Hal; by repeat split.
Qed.

(** Several calls, with their results. *)
Fixpoint run_globals (cs : list global_call) : prog (list bool) :=
  match cs with
  | [] => mret []
  | c :: cs => b ← run_global c; bs ← run_globals cs; mret (b :: bs)
  end.

End Phases.

(** The abstract run. *)
Inductive phases : list global_call -> phase -> list bool -> phase -> Prop :=
  | phases_nil ph : phases [] ph [] ph
  | phases_cons c cs ph b bs ph' ph'' :
      phase_step c ph b ph' -> phases cs ph' bs ph'' -> phases (c :: cs) ph (b :: bs) ph''.

(** ** Creating an application *)

(** A string in an array of a configuration. *)
Definition terminated (c : newrelic_app_config_t) : Prop :=
  strlen (app_name c) < 255 /\ strlen (license_key c) < 255 /\ strlen (redirect_collector c) < 100.

(** The configuration with both datastore settings on. *)
Definition datastore_on (c : newrelic_app_config_t) : newrelic_app_config_t :=
  mk_config (app_name c) (license_key c) (redirect_collector c) (log_filename c) (log_level c)
    (transaction_tracer c) (mk_datastore_tracer true true) (distributed_tracing c) (span_events c).

Section CreateApp.
Context {S P M A O : Type} `{NamePool P} `{ObjectAllocator S M} `{AxiomLib S P M A O}.
Context (NEWRELIC_VERSION : cstr).

Implicit Types (s : sdk S P M A O).

(** *** What connecting takes *)

(** The log is configured, or can be: to the standard error, from information on. *)
Inductive log_ready : bool -> A -> A -> Prop :=
  | log_configured a : log_ready true a a
  | log_to_stderr a a1 a2 :
      nrl_set_log_file (str "stderr") a = (NR_SUCCESS, a1) -> nrl_set_log_level (str "info") a1 = (NR_SUCCESS, a2) ->
      log_ready false a a2.

(** There is a list of applications, or the daemon answers at its default address and one can be made. *)
Inductive initialised (lc : bool) : option applist_ptr -> A -> option applist_ptr -> A -> Prop :=
  | list_there al a : initialised lc (Some al) a (Some al) a
  | daemon_answers a a1 params a2 a3 connected a4 al a5 :
      log_ready lc a a1 ->
      nr_conn_params_init (str "/tmp/.newrelic.sock") a1 = (Some params, a2) ->
      nr_agent_initialize_daemon_connection_parameters params a2 = (NR_SUCCESS, a3) ->
      nr_agent_try_daemon_connect 10 (nr_conn_params_free params a3) = (connected, a4) -> connected <> 0 ->
      nr_applist_create a4 = (al, a5) ->
      initialised lc None a al (atexit_shutdown a5).

(** What the daemon is told of an application. *)
Definition wanted_info (c : newrelic_app_config_t) : nr_app_info_t O :=
  mk_app_info (c_str (app_name c)) (c_str (license_key c)) (c_str (redirect_collector c)) nro_new_hash
    (str "c") (c_str NEWRELIC_VERSION).

(** The agent gives this application within the time given. *)
Definition connects s (c : newrelic_app_config_t) (timeout_ms : Z) (nrapp : nrapp_ptr) : Prop :=
  exists al a1 a2, initialised (sd_log_configured s) (sd_applist s) (sd_axiom s) al a1
    /\ nr_agent_find_or_add_app al (wanted_info c) (u64 (timeout_ms * 1000)) a1 = (Some nrapp, a2).

Lemma log_ready_fun lc a a1 a2 : log_ready lc a a1 -> log_ready lc a a2 -> a1 = a2.
Proof. inversion 1; inversion 1; congruence. Qed.

Lemma initialised_fun lc o a al1 a1 al2 a2 : initialised lc o a al1 a1 -> initialised lc o a al2 a2 -> al1 = al2 /\ a1 = a2.
Proof.
  intros [al a0|a0 b1 params b2 b3 n b4 al b5 Hl E1 E2 E3 Hn E4]; inversion 1 as [|? c1 ? c2 c3 ? c4 ? c5 Hl' E1' E2' E3' Hn' E4']; subst; [done|].
  assert (b1 = c1) as <- by (by eapply log_ready_fun). rewrite E1 in E1'. injection E1' as <- <-. rewrite E2 in E2'. injection E2' as <-.
  rewrite E3 in E3'. injection E3' as <- <-. rewrite E4 in E4'. by injection E4' as <- <-.
Qed.

Lemma wanted_info_given (c : newrelic_app_config_t) : terminated c -> app_info_of NEWRELIC_VERSION c = wanted_info c.
Proof.
  intros (_ & _ & Hr). pose proof (strlen_le (redirect_collector c)). unfold app_info_of, wanted_info, nr_strdup. cbn [nr_strlen].
  rewrite s32_id by lia. f_equal. destruct (Z.ltb_spec 0 (strlen (redirect_collector c))) as [|E]; [done|].
  unfold strlen in *. destruct (c_str (redirect_collector c)); [done|cbn in *; lia].
Qed.

Lemma ensure_init_outcome s :
  exists b al lc a, newrelic_ensure_init s = Some (b, set_applist al (set_log_configured lc (set_axiom a s)))
    /\ (b = true -> initialised (sd_log_configured s) (sd_applist s) (sd_axiom s) al a)
    /\ (b = false -> forall al a, ~ initialised (sd_log_configured s) (sd_applist s) (sd_axiom s) al a).
Proof.
  destruct s as [w a0 apps txns segs evs al0 lc mu tr]. unfold newrelic_ensure_init. prog_run. destruct al0 as [al|].
  { exists true, (Some al), lc, a0. split; [done|]. split; [by constructor|done]. }
  unfold newrelic_do_init. prog_run.
  assert (exists c a, (if lc then mret true else newrelic_configure_log (Some (str "stderr")) NEWRELIC_LOG_INFO)
      (mk_sdk w a0 apps txns segs evs None lc mu tr) = Some (c, mk_sdk w a apps txns segs evs None (c || lc) mu tr)
    /\ if c then log_ready lc a0 a else forall a1, ~ log_ready lc a0 a1) as (c & a & E & Hc).
  { destruct lc; [exists true, a0; split; [done|constructor]|]. unfold newrelic_configure_log. cbn [level_array]. prog_run.
    change (level_array !! _) with (Some (str "info")). cbv iota. prog_run.
    destruct (nrl_set_log_file (str "stderr") a0) as [[] a1] eqn:E1; cbn.
    2:{ exists false, a1. split; [done|]. intros a2 Hl. inversion Hl. congruence. }
    destruct (nrl_set_log_level (str "info") a1) as [[] a2] eqn:E2; cbn.
    2:{ exists false, a2. split; [done|]. intros a3 Hl. inversion Hl. congruence. }
    exists true, a2. split; [done|]. by econstructor. }
  unfold mret, prog_ret in E. rewrite E. destruct c; cbn.
  2:{ exists false, None, lc, a. split; [done|]. split; [done|]. intros _ al a1 Hi. inversion Hi. by eapply Hc. }
  assert (Hdet : forall a1, log_ready lc a0 a1 -> a1 = a) by (intros a1 Ha1; by eapply log_ready_fun).
  destruct (nr_conn_params_init _ a) as [[params|] a1] eqn:E1; cbn.
  2:{ exists false, None, true, a1. split; [done|]. split; [done|]. intros _ al a2 Hi. inversion Hi as [|? b1]. rewrite (Hdet b1) in * by done. congruence. }
  destruct (nr_agent_initialize_daemon_connection_parameters params a1) as [[] a2] eqn:E2; cbn.
  2:{ exists false, None, true, (nr_conn_params_free params a2). split; [done|]. split; [done|].
      intros _ al a3 Hi. inversion Hi as [|? b1]. rewrite (Hdet b1) in * by done. congruence. }
  destruct (nr_agent_try_daemon_connect _ _) as [connected a3] eqn:E3; cbn.
  destruct (Z.eqb_spec connected 0) as [->|Hne]; cbn.
  { exists false, None, true, a3. split; [done|]. split; [done|].
    intros _ al a4 Hi. inversion Hi as [|? b1]. rewrite (Hdet b1) in * by done. congruence. }
  destruct (nr_applist_create a3) as [al a4] eqn:E4; cbn. exists true, al, true, (atexit_shutdown a4). split; [done|].
  split; [|done]. intros _. by econstructor.
Qed.

Lemma ensure_init_cases s :
  exists b al lc a, newrelic_ensure_init s = Some (b, set_applist al (set_log_configured lc (set_axiom a s))).
Proof. destruct (ensure_init_outcome s) as (b & al & lc & a & E & _). by exists b, al, lc, a. Qed.

(** Everything but axiom, the log and the applications. *)
Definition same_rest s s' : Prop :=
  sd_world s' = sd_world s /\ sd_txns s' = sd_txns s /\ sd_segments s' = sd_segments s /\ sd_events s' = sd_events s
  /\ sd_mutex s' = sd_mutex s.

(** Connecting gives the application of axiom and the lock, or changes nothing but axiom. *)
Lemma connect_app_cases p t s a info :
  sd_apps s !! p = Some a -> ap_app_info a = Some info ->
  exists x status s', newrelic_connect_app (Some p) t s = Some (status, s')
    /\ match status with
       | NR_SUCCESS => same_rest s s' /\ exists nrapp lock, (lock = ap_lock a \/ lock = mk_mutex true false)
           /\ sd_apps s' = <[p := mk_app (Some nrapp) (ap_app_info a) (ap_config a) lock]> (sd_apps s)
           /\ nr_agent_find_or_add_app (sd_applist s) info (u64 (t * 1000)) (sd_axiom s) = (Some nrapp, x)
       | NR_FAILURE => s' = set_axiom x s
           /\ nr_agent_find_or_add_app (sd_applist s) info (u64 (t * 1000)) (sd_axiom s) = (None, x)
       end.
Proof.
  intros Hp Hinfo. unfold newrelic_connect_app, nrt_mutex_init. prog_run. rewrite Hp. cbn. rewrite Hinfo.
  change NR_TIME_DIVISOR_MS with 1000. destruct (nr_agent_find_or_add_app _ _ _ _) as [[nrapp|] x] eqn:E; cbn.
  - destruct (pthread_mutex_init x) as [[] y]; cbn; (exists x; do 2 eexists; split; [reflexivity|]); (split; [done|]); exists nrapp.
    + exists (mk_mutex true false). split; [by right|done].
    + exists (ap_lock a). split; [by left|done].
  - exists x; do 2 eexists. by split.
Qed.

(** Destroying an application whose lock is free removes it. *)
Lemma destroy_app_run p s a :
  sd_apps s !! p = Some a -> mu_locked (ap_lock a) = false ->
  exists s', newrelic_destroy_app (Some (Some p)) s = Some ((true, Some None), s')
    /\ sd_apps s' = delete p (sd_apps s) /\ same_rest s s'.
Proof.
  intros Hp Hlock. unfold newrelic_destroy_app, nrt_mutex_lock, nrt_mutex_unlock, nrt_mutex_destroy.
  prog_run. unfold mutex_at, set_mutex. rewrite Hp. cbn. rewrite Hlock. cbn. rewrite lookup_alter_eq, Hp. cbn.
  rewrite lookup_insert_eq. cbn. rewrite lookup_alter_eq, lookup_insert_eq. cbn.
  eexists. split; [reflexivity|]. split; [|done]. cbn.
  apply map_eq. intros q. destruct (decide (q = p)) as [->|Hne].
  - by rewrite !lookup_delete_eq.
  - rewrite !lookup_delete_ne, lookup_alter_ne, lookup_insert_ne, lookup_alter_ne by congruence. done.
Qed.

Lemma create_app_run (c : newrelic_app_config_t) (timeout_ms : Z) s :
  terminated c ->
  exists r s', newrelic_create_app NEWRELIC_VERSION (Some c) timeout_ms s = Some (r, s') /\ same_rest s s'
    /\ (strlen (app_name c) = 0 \/ strlen (license_key c) <> NR_LICENSE_SIZE -> r = None /\ s' = s)
    /\ match r with
       | None => sd_apps s' = sd_apps s
           /\ (strlen (app_name c) <> 0 -> strlen (license_key c) = NR_LICENSE_SIZE ->
               forall nrapp, ~ connects s c timeout_ms nrapp)
       | Some p => sd_apps s !! p = None
           /\ exists nrapp config lock,
                connects s c timeout_ms nrapp
                /\ sd_apps s' = <[p := mk_app (Some nrapp) (Some (wanted_info c)) (Some config) lock]> (sd_apps s)
                /\ mu_locked lock = false
                /\ newrelic_get_transaction_options (Some config)
                   = newrelic_get_transaction_options (Some (datastore_on c))
       end.
Proof.
  intros Hc. pose proof Hc as (Hname & Hkey & _). pose proof (strlen_le (app_name c)) as Hn0. pose proof (strlen_le (license_key c)) as Hk0.
  unfold newrelic_create_app. assert (Hk : nr_strlen (Some (license_key c)) = strlen (license_key c))
    by (cbn [nr_strlen]; apply s32_id; lia). rewrite Hk.
  assert (He : nr_strempty (Some (app_name c)) = (strlen (app_name c) =? 0)).
  { unfold nr_strempty. pose proof (byte_at_zero (app_name c) 0) as Hz. destruct (Z.eqb_spec (strlen (app_name c)) 0) as [E|E].
    - rewrite (proj2 (Hz ltac:(lia)) (eq_sym E)). done.
    - destruct (Z.eqb_spec 0 (byte_at (app_name c) 0)) as [E'|E']; [|done].
      symmetry in E'. apply Hz in E'; lia. }
  rewrite He. destruct (Z.eqb_spec (strlen (app_name c)) 0) as [E0|E0]; [by exists None, s; repeat split|].
  destruct (Z.eqb_spec NR_LICENSE_SIZE (strlen (license_key c))) as [E1|E1]; cbn [negb]; [|exists None, s; repeat split; congruence].
  assert (Hguard : strlen (app_name c) = 0 \/ strlen (license_key c) <> NR_LICENSE_SIZE -> False) by (intros [?|?]; congruence).
  destruct (ensure_init_outcome s) as (b & al & lc & a & E & Hready & Hnot). prog_run. rewrite E.
  set (s1 := set_applist al (set_log_configured lc (set_axiom a s))). destruct b; cbn [negb].
  2:{ exists None, s1. split; [done|]. split; [done|]. split; [by intros []%Hguard|]. split; [done|].
      intros _ _ nrapp (al1 & a1 & a2 & Hi & _). by eapply Hnot. }
  specialize (Hready eq_refl). clear Hnot.
  rewrite create_app_config_some by (unfold short; cbn; lia). unfold of_option. cbn [mbind option_bind sd_apps s1 set_applist set_log_configured set_axiom].
  set (p := fresh (dom (sd_apps s))). assert (Hp : sd_apps s !! p = None) by (apply not_elem_of_dom, is_fresh).
  rewrite (wanted_info_given c Hc). set (config := take_settings c _).
  set (app := mk_app None (Some (wanted_info c)) (Some config) zeroed_mutex).
  match goal with |- context [newrelic_connect_app (Some p) timeout_ms ?x] => set (s2 := x) end.
  assert (Happs : sd_apps s2 = <[p := app]> (sd_apps s)) by done. assert (Hrest : same_rest s s2) by done.
  assert (Hal : sd_applist s2 = al) by done. assert (Hax : sd_axiom s2 = a) by done. clearbody s2.
  destruct (connect_app_cases p timeout_ms s2 app (wanted_info c)) as (x & status & s3 & -> & Hst);
    [by rewrite Happs, lookup_insert_eq|done|]. destruct status.
  - destruct Hst as (Hrest3 & nrapp & lock & Hlock & Hs3 & Hfind). exists (Some p), s3. split; [done|].
    split; [unfold same_rest in *; intuition congruence|].
    split; [by intros []%Hguard|]. split; [done|]. exists nrapp, config, lock.
    split; [exists al, a, x; rewrite Hal, Hax in Hfind; by split|]. rewrite Hs3, Happs, insert_insert_eq. split; [done|]. split; [by destruct Hlock as [-> | ->]|]. done.
  - destruct Hst as [-> Hfind]. set (s3 := set_axiom (nrl_close_log_file (sd_axiom (set_axiom x s2))) (set_axiom x s2)).
    destruct (destroy_app_run p s3 app) as (s4 & E4 & Hs4 & Hrest4);
      [cbn; rewrite Happs; apply lookup_insert_eq|done|]. rewrite E4. exists None, s4. split; [done|].
    split; [unfold same_rest in *; cbn in Hrest4; intuition congruence|].
    split; [by intros []%Hguard|]. split; [rewrite Hs4; cbn; rewrite Happs; by apply delete_insert_id|].
    intros _ _ nrapp (al1 & a1 & a2 & Hi & Hfind1). rewrite Hal, Hax in Hfind.
    destruct (initialised_fun _ _ _ _ _ _ _ Hready Hi) as [<- <-]. congruence.
Qed.

End CreateApp.

(** ** Properties *)

(* @about newrelic_configure_log newrelic_init newrelic_ensure_init newrelic_do_init newrelic_shutdown *)
(** C4 (refinement): the calls that set the process up implement a machine of three phases (no
    log, a log, a log and applications).  From any phase, every sequence of calls returns, each
    call with a result the machine allows: configuring the log never loses the applications,
    [newrelic_init] refuses and changes nothing once there are applications, a failed
    initialisation at most configures the log, shutting down goes back to the first phase, and
    applications are never listed without a configured log.  The objects of the API, the memory
    of transactions and the locks are untouched. *)
Theorem newrelic_setup_refines_phases {S P M A O : Type} `{NamePool P} `{ObjectAllocator S M} `{AxiomLib S P M A O}
  (cs : list global_call) (s : sdk S P M A O) (ph : phase) :
  in_phase s ph ->
  exists bs s' ph', run_globals cs s = Some (bs, s') /\ phases cs ph bs ph' /\ in_phase s' ph' /\ same_objects s s'.
Proof.
  revert s ph. induction cs as [|c cs IH]; intros s ph Hph.
  - exists [], s, ph. split; [done|]. split; [constructor|]. by repeat split.
  - destruct (run_global_phase c s ph Hph) as (b & s1 & ph1 & E1 & Hstep & Hph1 & Hsame1).
    destruct (IH s1 ph1 Hph1) as (bs & s2 & ph2 & E2 & Hsteps & Hph2 & Hsame2).
    exists (b :: bs), s2, ph2. split.
    { cbn [run_globals]. unfold mbind, prog_bind. by rewrite E1, E2. }
    split; [by econstructor|]. split; [done|]. unfold same_objects in *. intuition congruence.
Qed.

Lemma newrelic_setup_refines_phases_witness :
  exists bs s' ph', run_globals [Init None 0; Init None 0; ConfigureLog None 0; Shutdown; EnsureInit] sample_sdk = Some (bs, s')
    /\ phases [Init None 0; Init None 0; ConfigureLog None 0; Shutdown; EnsureInit] Silent bs ph'
    /\ in_phase s' ph' /\ same_objects sample_sdk s'.
Proof.
  apply (newrelic_setup_refines_phases [Init None 0; Init None 0; ConfigureLog None 0; Shutdown; EnsureInit] sample_sdk Silent).
  reflexivity.
Defined.

(* @about newrelic_create_app newrelic_connect_app newrelic_destroy_app newrelic_ensure_init take_settings app_info_of *)
(** C12 (functional): [newrelic_create_app] always returns for a configuration whose strings fit
    their arrays.  Without a name or with a key that is not forty characters long it does nothing.
    Otherwise it gives a new application exactly when the agent can connect: when there is a list of
    applications already, or the log can be set up, the parameters of the connection are taken and the
    daemon answers at its default address within ten milliseconds, and then the agent finds or adds an
    application of this name, key, host, language and version within the given time.  The application
    is the one of the agent, with a free lock; its transactions get the options of the given
    configuration, except that the two settings of the datastore tracer are always on, whatever was
    configured.  When it gives NULL no application is left behind. *)
Theorem newrelic_create_app_outcomes {S P M A O : Type} `{NamePool P} `{ObjectAllocator S M} `{AxiomLib S P M A O}
  (version : cstr) (c : newrelic_app_config_t) (timeout_ms : Z) (s : sdk S P M A O) :
  terminated c ->
  exists r s', newrelic_create_app version (Some c) timeout_ms s = Some (r, s')
    /\ (strlen (app_name c) = 0 \/ strlen (license_key c) <> NR_LICENSE_SIZE -> r = None /\ s' = s)
    /\ match r with
       | None => sd_apps s' = sd_apps s
           /\ (strlen (app_name c) <> 0 -> strlen (license_key c) = NR_LICENSE_SIZE ->
               forall nrapp, ~ connects version s c timeout_ms nrapp)
       | Some p => sd_apps s !! p = None
           /\ exists nrapp config lock,
                connects version s c timeout_ms nrapp
                /\ sd_apps s' = <[p := mk_app (Some nrapp) (Some (wanted_info version c)) (Some config) lock]> (sd_apps s)
                /\ mu_locked lock = false
                /\ newrelic_get_transaction_options (Some config)
                   = newrelic_get_transaction_options (Some (datastore_on c))
       end.
Proof. intros Hc. destruct (create_app_run version c timeout_ms s Hc) as (r & s' & E & _ & Hr). by exists r, s'. Qed.

Lemma newrelic_create_app_outcomes_witness :
  exists p s', newrelic_create_app (str "1.3") (Some (default_config (str "shop") (replicate 40 97))) 10 sample_sdk = Some (Some p, s')
    /\ is_Some (sd_apps s' !! p).
Proof.
  destruct (newrelic_create_app_outcomes (str "1.3") (default_config (str "shop") (replicate 40 97)) 10 sample_sdk)
    as (r & s' & E & _ & Hr); [vm_compute; intuition congruence|].
  destruct r as [p|].
  - exists p, s'. split; [exact E|]. destruct Hr as (_ & n & c & l & _ & Hs & _). rewrite Hs, lookup_insert_eq. eexists. reflexivity.
  - exfalso. destruct Hr as [_ Hr]. apply Hr with (nrapp := 1%positive); [vm_compute; discriminate|vm_compute; reflexivity|].
    do 3 eexists. split; [|reflexivity].
    eapply daemon_answers; [eapply log_to_stderr; reflexivity|reflexivity|reflexivity|reflexivity|discriminate|reflexivity].
Defined.
