(* ===== verification/SdkTransaction.v ===== *)
(** * Transactions

    [src/transaction.c], [src/custom_metric.c], [src/error.c], [src/stack.c], [src/attribute.c] and
    [src/custom_event.c]: the calls of the API on a transaction, and custom events. *)

From S2P Require Import Prelude Vector Strings Time StringPool Metrics.
From S2P Require Import HashMap SegmentChildren Slab Datastore Slowsqls Txn Config Segment SegmentEnd Sdk SdkGlobal.

Section Transaction.
Context {S P M A O : Type} `{NamePool P} `{ObjectAllocator S M} `{AxiomLib S P M A O}.
Context (realloc_ok : Z -> bool) (clock : nat -> Z * Z) (NEWRELIC_VERSION : cstr) (HAVE_BACKTRACE : bool).

Abbreviation sdk := (sdk S P M A O).
Abbreviation prog := (prog S P M A O).
Abbreviation txn_t := (nrtxn_t S P).

(** [transaction->txn], the memory of a transaction of the API. *)
Definition txn_of (p : sdk_txn_ptr) : prog txn_ptr :=
  s ← gets id; x ← of_option (sd_txns s !! p); mret (tx_txn x).

(** ** Starting *)

(* @map transaction.c:95-151 newrelic_start_transaction *)
Definition newrelic_start_transaction (app : option app_ptr) (name : option cstr) (is_web_transaction : bool)
  : prog (option sdk_txn_ptr) :=
  match app with
  | None => mret None
  | Some ap =>
      s ← gets id;
      a ← of_option (sd_apps s !! ap);
      _ ← call_ (nr_app_consider_appinfo (ap_app a));
      lock ← nrt_mutex_init;
      match lock with
      | None => mret None
      | Some lock =>
          _ ← nrt_mutex_lock (Some (AppLock ap));
          let options := newrelic_get_transaction_options (ap_config a) in
          txn ← (fun s => let '(txn, w, x) := nr_txn_begin (ap_app a) options (sd_world s) (sd_axiom s) in
                          Some (txn, set_axiom x (set_world w s)));
          _ ← nrt_mutex_unlock (Some (AppLock ap));
          match txn with
          | None => mret None
          | Some tp =>
              s ← gets id;
              let transaction := fresh (dom (sd_txns s)) in
              _ ← modify (fun s => set_sdk_txns (<[transaction := mk_sdk_txn tp lock]> (sd_txns s)) s);
              let name := match name with None => str "NULL" | Some name => name end in
              _ ← on_txn tp (fun t => Some (nr_txn_set_path t (Some name) NR_PATH_TYPE_ACTION NR_OK_TO_OVERWRITE));
              _ ← on_txn tp (fun t => t ← (if is_web_transaction then nr_txn_set_as_web_transaction t
                                           else nr_txn_set_as_background_job t); Some (tt, t));
              mret (Some transaction)
          end
      end
  end.

(* @map transaction.c:18-21 newrelic_start_web_transaction *)
Definition newrelic_start_web_transaction (app : option app_ptr) (name : option cstr) : prog (option sdk_txn_ptr) :=
  newrelic_start_transaction app name true.

(* @map transaction.c:23-26 newrelic_start_non_web_transaction *)
Definition newrelic_start_non_web_transaction (app : option app_ptr) (name : option cstr)
  : prog (option sdk_txn_ptr) :=
  newrelic_start_transaction app name false.

(** ** Timing, name, ignoring *)

(* @map transaction.c:28-44 newrelic_set_transaction_timing *)
Definition newrelic_set_transaction_timing (transaction : option sdk_txn_ptr)
  (start_time duration : newrelic_time_us_t) : prog bool :=
  match transaction with
  | None => mret false
  | Some x =>
      _ ← nrt_mutex_lock (Some (TxnLock x));
      tp ← txn_of x;
      _ ← newrelic_add_api_supportability_metric (Some tp) (Some (str "set_transaction_timing"));
      _ ← traced (Uses tp);
      ret ← on_world (nr_txn_set_timing (Some tp) start_time duration);
      _ ← nrt_mutex_unlock (Some (TxnLock x));
      mret ret
  end.

(* @map transaction.c:153-160 newrelic_ignore_transaction *)
Definition newrelic_ignore_transaction (transaction : option sdk_txn_ptr) : prog bool :=
  match transaction with
  | None => mret false
  | Some x => tp ← txn_of x; on_txn tp (fun t => Some (nr_txn_ignore t))
  end.

(* @map transaction.c:162-184 newrelic_set_transaction_name *)
Definition newrelic_set_transaction_name (transaction : option sdk_txn_ptr) (name : option cstr) : prog bool :=
  match transaction with
  | None => mret false
  | Some x =>
      match name with
      | None => mret false
      | Some _ =>
          tp ← txn_of x;
          ret ← on_txn tp (fun t => Some (nr_txn_set_path t name NR_PATH_TYPE_CUSTOM NR_OK_TO_OVERWRITE));
          match ret with
          | NR_SUCCESS => mret true
          | NR_FAILURE => mret false
          end
      end
  end.

(** ** Ending *)

(** The result, and what [*transaction] is afterwards.  The log is read from the transaction. *)
(* @map transaction.c:46-93 newrelic_end_transaction *)
Definition newrelic_end_transaction (transaction : option (option sdk_txn_ptr))
  : prog (bool * option (option sdk_txn_ptr)) :=
  match transaction with
  | None => mret (false, None)
  | Some None => mret (false, Some None)
  | Some (Some x) =>
      _ ← nrt_mutex_lock (Some (TxnLock x));
      tp ← txn_of x;
      let version_metric := str "Supportability/C/NewrelicVersion/" ++ c_str (newrelic_version NEWRELIC_VERSION) in
      _ ← on_txn tp (fun t => t ← nr_txn_force_single_count t (Some version_metric); Some (tt, t));
      _ ← traced (Uses tp);
      _ ← (fun s => '(w, a) ← nr_txn_end tp (sd_world s) (sd_axiom s); Some (tt, set_axiom a (set_world w s)));
      t ← read_txn tp;
      ret ← (if 0 =? ignore (t_status t) then
               s ← gets id;
               status ← call (nr_cmd_txndata_tx tp (sd_world s));
               mret (match status with NR_FAILURE => false | NR_SUCCESS => true end)
             else mret true);
      _ ← traced (Uses tp);
      _ ← (fun s => '(w, a) ← nr_txn_destroy tp (sd_world s) (sd_axiom s); Some (tt, set_axiom a (set_world w s)));
      _ ← nrt_mutex_unlock (Some (TxnLock x));
      _ ← nrt_mutex_destroy (Some (TxnLock x));
      _ ← modify (fun s => set_sdk_txns (delete x (sd_txns s)) s);
      mret (ret, Some None)
  end.

(** ** Metrics *)

(* @map custom_metric.c:6-22 newrelic_record_custom_metric *)
Definition newrelic_record_custom_metric (transaction : option sdk_txn_ptr) (metric_name : option cstr)
  (milliseconds : double) : prog bool :=
  match transaction, metric_name with
  | Some x, Some _ =>
      _ ← nrt_mutex_lock (Some (TxnLock x));
      tp ← txn_of x;
      ret ← on_txn tp (fun t => nr_txn_add_custom_metric t metric_name milliseconds);
      _ ← nrt_mutex_unlock (Some (TxnLock x));
      mret (bool_decide (NR_SUCCESS = ret))
  | _, _ => mret false
  end.

(** ** Errors *)

(** At most this many frames are asked for; each goes to the end of the array. *)
(* @map stack.c:12-12 NUM_BACKTRACE_FRAMES *)
Definition NUM_BACKTRACE_FRAMES : nat := 100.

(** The text in quotes (byte 34) between brackets. *)
(* @map stack.c:41-41 newrelic_get_stack_trace_as_json *)
Definition NO_BACKTRACE : cstr := str "[" ++ 34 :: str "No backtrace on this platform." ++ 34 :: str "]".

(* @map stack.c:14-43 newrelic_get_stack_trace_as_json *)
Definition newrelic_get_stack_trace_as_json : prog (option cstr) :=
  if HAVE_BACKTRACE then
    backtrace_lines ← gets (fun s => take NUM_BACKTRACE_FRAMES (backtrace_symbols (sd_axiom s)));
    mret (strings_to_json (foldl (fun arr line => arr ++ [line]) [] backtrace_lines))
  else mret (Some (nr_strdup (Some NO_BACKTRACE))).

(** What happens under the lock. *)
(* @map error.c:30-62 newrelic_notice_error *)
Definition notice_error_locked (tp : txn_ptr) (priority : Z) (errmsg errclass : option cstr) : prog unit :=
  t ← read_txn tp;
  if 0 =? err_enabled (t_options t) then mret tt
  else if 0 =? recording (t_status t) then mret tt
  else if match t_error t with
          | Some _ => priority <? nr_error_priority (t_error t)
          | None => false
          end then mret tt
  else match nr_txn_record_error_worthy (Some t) priority with
       | NR_FAILURE => mret tt
       | NR_SUCCESS =>
           stacktrace_json ← newrelic_get_stack_trace_as_json;
           now ← on_world (fun w => Some (read_clock clock w));
           on_txn tp (fun t => Some (tt, nr_txn_record_error t priority errmsg errclass stacktrace_json now))
       end.

(* @map error.c:9-66 newrelic_notice_error *)
Definition newrelic_notice_error (transaction : option sdk_txn_ptr) (priority : Z) (errmsg errclass : option cstr)
  : prog unit :=
  match transaction with
  | None => mret tt
  | Some x =>
      if from_option (fun m => byte_at m 0 =? 0) true errmsg then mret tt
      else if from_option (fun c => byte_at c 0 =? 0) true errclass then mret tt
      else
        _ ← nrt_mutex_lock (Some (TxnLock x));
        tp ← txn_of x;
        _ ← notice_error_locked tp priority errmsg errclass;
        _ ← nrt_mutex_unlock (Some (TxnLock x));
        mret tt
  end.

(** ** Attributes *)

(* @map nr_txn.c:1526-1542 nr_txn_add_user_custom_parameter *)
Definition nr_txn_add_user_custom_parameter (tp : txn_ptr) (key : cstr) (value : O) : prog nr_status_t :=
  t ← read_txn tp;
  if negb (t_high_security t =? 0) then mret NR_FAILURE
  else if 0 =? custom_parameters_enabled (t_options t) then mret NR_FAILURE
  else call (nr_attributes_user_add tp key value).

(* @map attribute.c:9-43 newrelic_add_attribute *)
Definition newrelic_add_attribute (transaction : option sdk_txn_ptr) (key : option cstr) (obj : option O) : prog bool :=
  match transaction with
  | None => mret false
  | Some x =>
      _ ← nrt_mutex_lock (Some (TxnLock x));
      success ← (match key, obj with
                 | None, _ => mret false
                 | _, None => mret false
                 | Some key, Some obj =>
                     tp ← txn_of x;
                     ret ← nr_txn_add_user_custom_parameter tp key obj;
                     match ret with
                     | NR_FAILURE => mret false
                     | NR_SUCCESS => mret true
                     end
                 end);
      _ ← nrt_mutex_unlock (Some (TxnLock x));
      mret success
  end.

(* @map attribute.c:45-56 newrelic_add_attribute_int *)
Definition newrelic_add_attribute_int (transaction : option sdk_txn_ptr) (key : option cstr) (value : Z) : prog bool :=
  newrelic_add_attribute transaction key (Some (nro_new_int value)).

(* @map attribute.c:58-69 newrelic_add_attribute_long *)
Definition newrelic_add_attribute_long (transaction : option sdk_txn_ptr) (key : option cstr) (value : Z) : prog bool :=
  newrelic_add_attribute transaction key (Some (nro_new_long value)).

(* @map attribute.c:71-82 newrelic_add_attribute_double *)
Definition newrelic_add_attribute_double (transaction : option sdk_txn_ptr) (key : option cstr) (value : double)
  : prog bool :=
  newrelic_add_attribute transaction key (Some (nro_new_double value)).

(* @map attribute.c:84-100 newrelic_add_attribute_string *)
Definition newrelic_add_attribute_string (transaction : option sdk_txn_ptr) (key value : option cstr) : prog bool :=
  match value with
  | None => mret false
  | Some value => newrelic_add_attribute transaction key (Some (nro_new_string value))
  end.

(** ** Custom events *)

(* @map custom_event.c:7-22 newrelic_create_custom_event *)
Definition newrelic_create_custom_event (event_type : option cstr) : prog (option event_ptr) :=
  match event_type with
  | None => mret None
  | Some _ =>
      s ← gets id;
      let event := fresh (dom (sd_events s)) in
      _ ← modify (fun s => set_events (<[event := mk_custom_event (nr_strdup event_type) nro_new_hash]> (sd_events s)) s);
      mret (Some event)
  end.

(** What [*event] is afterwards. *)
(* @map custom_event.c:41-50 newrelic_discard_custom_event *)
Definition newrelic_discard_custom_event (event : option (option event_ptr)) : prog (option (option event_ptr)) :=
  match event with
  | None => mret None
  | Some None => mret (Some None)
  | Some (Some e) =>
      s ← gets id;
      _ ← of_option (sd_events s !! e);
      _ ← modify (fun s => set_events (delete e (sd_events s)) s);
      mret (Some None)
  end.

(** [nr_txn_record_custom_event] reads the clock first. *)
(* @map nr_txn.c:1666-1704 nr_txn_record_custom_event *)
Definition nr_txn_record_custom_event (tp : txn_ptr) (type : cstr) (params : O) : prog unit :=
  now ← on_world (fun w => Some (read_clock clock w));
  t ← read_txn tp;
  if recording (t_status t) =? 0 then mret tt
  else if negb (t_high_security t =? 0) then mret tt
  else if custom_events_enabled (t_options t) =? 0 then mret tt
  else call_ (nr_custom_events_add_event tp type params now).

(* @map custom_event.c:24-39 newrelic_record_custom_event *)
Definition newrelic_record_custom_event (transaction : option sdk_txn_ptr) (event : option (option event_ptr))
  : prog (option (option event_ptr)) :=
  match transaction, event with
  | Some x, Some (Some e) =>
      _ ← nrt_mutex_lock (Some (TxnLock x));
      tp ← txn_of x;
      s ← gets id;
      ev ← of_option (sd_events s !! e);
      _ ← nr_txn_record_custom_event tp (ev_type ev) (ev_attributes ev);
      _ ← nrt_mutex_unlock (Some (TxnLock x));
      newrelic_discard_custom_event event
  | _, _ => mret event
  end.

(** Setting a key in the attributes of an event. *)
Definition set_attribute (event : option event_ptr) (f : O -> nr_status_t * O) : prog bool :=
  match event with
  | None => mret false
  | Some e =>
      s ← gets id;
      ev ← of_option (sd_events s !! e);
      let '(status, attributes) := f (ev_attributes ev) in
      _ ← modify (fun s => set_events (<[e := mk_custom_event (ev_type ev) attributes]> (sd_events s)) s);
      mret (bool_decide (NR_SUCCESS = status))
  end.

(* @map custom_event.c:52-59 newrelic_custom_event_add_attribute_int *)
Definition newrelic_custom_event_add_attribute_int (event : option event_ptr) (key : option cstr) (value : Z) : prog bool :=
  set_attribute event (fun o => nro_set_hash_int o key value).

(* @map custom_event.c:61-68 newrelic_custom_event_add_attribute_long *)
Definition newrelic_custom_event_add_attribute_long (event : option event_ptr) (key : option cstr) (value : Z) : prog bool :=
  set_attribute event (fun o => nro_set_hash_long o key value).

(* @map custom_event.c:70-77 newrelic_custom_event_add_attribute_double *)
Definition newrelic_custom_event_add_attribute_double (event : option event_ptr) (key : option cstr) (value : double)
  : prog bool :=
  set_attribute event (fun o => nro_set_hash_double o key value).

(* @map custom_event.c:79-87 newrelic_custom_event_add_attribute_string *)
Definition newrelic_custom_event_add_attribute_string (event : option event_ptr) (key value : option cstr) : prog bool :=
  set_attribute event (fun o => nro_set_hash_string o key value).

End Transaction.
