(* ===== verification/SdkSegment.v ===== *)
(** * Segments

    [src/segment.c], [src/datastore.c], [src/external.c] and [src/distributed_trace.c], with the
    functions of axiom on the names and instances of datastores they call. *)

From S2P Require Import Prelude Vector Strings Time StringPool Metrics.
From S2P Require Import HashMap SegmentChildren Slab Datastore Slowsqls Txn Config Segment SegmentEnd Sdk SdkGlobal SdkTransaction.

(** ** Fields of the wrappers *)

Definition no_instance : nr_datastore_instance_t := mk_instance None None None.

(** Through the datastore member the pointers of an external segment are the collection, the
    operation and the host. *)
(* @map datastore.c:110-116 newrelic_destroy_datastore_segment_fields *)
Definition newrelic_destroy_datastore_segment_fields (f : type_fields_t) : type_fields_t :=
  match f with
  | NoFields => NoFields
  | DatastoreFields d =>
      DatastoreFields (mk_datastore_fields None None
        (default no_instance (nr_datastore_instance_destroy_fields (Some (df_instance d)))) (df_type d) None None)
  | ExternalFields e => NoFields
  end.

(** The other way round the host, the operation and the collection are freed. *)
(* @map external.c:64-68 newrelic_destroy_external_segment_fields *)
Definition newrelic_destroy_external_segment_fields (f : type_fields_t) : type_fields_t :=
  match f with
  | NoFields => NoFields
  | ExternalFields e => ExternalFields (mk_external_fields None None None)
  | DatastoreFields d =>
      let i := df_instance d in
      DatastoreFields (mk_datastore_fields None None (mk_instance None (di_port_path_or_id i) (di_database_name i))
                         (df_type d) (df_string d) (df_sql d))
  end.

(** Whether a string has a slash, which [nr_strchr] looks for. *)
(* @map segment.c:64-75 newrelic_validate_segment_param *)
Definition newrelic_validate_segment_param (i : option cstr) : bool :=
  match i with
  | None => true
  | Some s => negb (existsb (Z.eqb 47) (c_str s))
  end.

Section Segments.
Context {S P M A O : Type} `{NamePool P} `{ObjectAllocator S M} `{AxiomLib S P M A O}.
Context (realloc_ok : Z -> bool) (clock : nat -> Z * Z).

Abbreviation sdk := (sdk S P M A O).
Abbreviation prog := (prog S P M A O).

(** [segment->segment], and writing through a pointer to a segment of the API. *)
Definition segment_of (p : sdk_seg_ptr) : prog newrelic_segment_t :=
  s ← gets id; of_option (sd_segments s !! p).

Definition update_segment (p : sdk_seg_ptr) (f : newrelic_segment_t -> newrelic_segment_t) : prog unit :=
  x ← segment_of p; modify (fun s => set_sdk_segments (<[p := f x]> (sd_segments s)) s).

Definition with_txn_lock (v : option mutex_id) (x : newrelic_segment_t) : newrelic_segment_t :=
  mk_sdk_segment (sg_segment x) (sg_transaction x) v (sg_type x).
Definition with_type (v : type_fields_t) (x : newrelic_segment_t) : newrelic_segment_t :=
  mk_sdk_segment (sg_segment x) (sg_transaction x) (sg_txn_lock x) v.

(** Reading the segment of axiom. *)
Definition read_segment (p : seg_ptr) : prog nr_segment_t :=
  _ ← use_segment p; s ← gets id; of_option (w_segments (sd_world s) !! p).

(** ** Creating and destroying the wrapper *)

(* @map segment.c:16-33 newrelic_segment_create *)
Definition newrelic_segment_create (txn : txn_ptr) : prog (option sdk_seg_ptr) :=
  _ ← traced (Uses txn);
  txn_seg ← on_world (nr_segment_start realloc_ok clock (Some txn) None None);
  match txn_seg with
  | None => mret None
  | Some txn_seg =>
      _ ← nrt_mutex_lock (Some SegmentMutex);
      s ← gets id;
      let segment := fresh (dom (sd_segments s)) in
      _ ← nrt_mutex_unlock (Some SegmentMutex);
      _ ← modify (fun s => set_sdk_segments
                    (<[segment := mk_sdk_segment txn_seg (Some txn) None NoFields]> (sd_segments s)) s);
      mret (Some segment)
  end.

(** What [*segment_ptr] is afterwards. *)
(* @map segment.c:35-62 newrelic_segment_destroy *)
Definition newrelic_segment_destroy (segment_ptr : option (option sdk_seg_ptr)) : prog (option (option sdk_seg_ptr)) :=
  match segment_ptr with
  | None => mret None
  | Some None => mret (Some None)
  | Some (Some p) =>
      x ← segment_of p;
      seg ← read_segment (sg_segment x);
      _ ← (match s_type seg with
           | NR_SEGMENT_DATASTORE => update_segment p (fun x => with_type (newrelic_destroy_datastore_segment_fields (sg_type x)) x)
           | NR_SEGMENT_EXTERNAL => update_segment p (fun x => with_type (newrelic_destroy_external_segment_fields (sg_type x)) x)
           | NR_SEGMENT_CUSTOM => mret tt
           end);
      _ ← modify (fun s => set_sdk_segments (delete p (sd_segments s)) s);
      mret (Some None)
  end.

(** ** Custom segments *)

(** Assigning [txn_lock] of the NULL segment of a failed creation is undefined. *)
(* @map segment.c:77-119 newrelic_start_segment *)
Definition newrelic_start_segment (transaction : option sdk_txn_ptr) (name category : option cstr)
  : prog (option sdk_seg_ptr) :=
  match transaction with
  | None => mret None
  | Some x =>
      let name := match name with
                  | Some n => if newrelic_validate_segment_param name then n else str "Unnamed Segment"
                  | None => str "Unnamed Segment"
                  end in
      let category := match category with
                      | Some c => if newrelic_validate_segment_param category then c else str "Custom"
                      | None => str "Custom"
                      end in
      _ ← nrt_mutex_lock (Some (TxnLock x));
      tp ← txn_of x;
      segment ← newrelic_segment_create tp;
      _ ← (match segment with
           | None => mret tt
           | Some p =>
               let metric_name := c_str category ++ str "/" ++ c_str name in
               sg ← segment_of p;
               _ ← use_segment (sg_segment sg);
               _ ← on_world (nr_segment_set_name (Some (sg_segment sg)) (Some metric_name));
               mret tt
           end);
      _ ← nrt_mutex_unlock (Some (TxnLock x));
      p ← of_option segment;
      _ ← update_segment p (with_txn_lock (Some (TxnLock x)));
      mret (Some p)
  end.

(* @map segment.c:121-149 newrelic_set_segment_parent *)
Definition newrelic_set_segment_parent (segment parent : option sdk_seg_ptr) : prog bool :=
  match segment, parent with
  | None, _ => mret false
  | _, None => mret false
  | Some p, Some q =>
      if bool_decide (p = q) then mret false
      else
        x ← segment_of p;
        _ ← nrt_mutex_lock (sg_txn_lock x);
        _ ← newrelic_add_api_supportability_metric (sg_transaction x) (Some (str "set_segment_parent"));
        y ← segment_of q;
        _ ← use_segment (sg_segment x);
        ret ← on_world (nr_segment_set_parent realloc_ok (Some (sg_segment x)) (Some (sg_segment y)));
        _ ← nrt_mutex_unlock (sg_txn_lock x);
        mret ret
  end.

(* @map segment.c:151-182 newrelic_set_segment_parent_root *)
Definition newrelic_set_segment_parent_root (segment : option sdk_seg_ptr) : prog bool :=
  match segment with
  | None => mret false
  | Some p =>
      x ← segment_of p;
      match sg_transaction x with
      | None => mret false
      | Some tp =>
          t ← read_txn tp;
          match t_segment_root t with
          | None => mret false
          | Some _ =>
              _ ← nrt_mutex_lock (sg_txn_lock x);
              _ ← newrelic_add_api_supportability_metric (sg_transaction x) (Some (str "set_segment_parent_root"));
              t ← read_txn tp;
              ret ← on_world (nr_segment_set_parent realloc_ok (Some (sg_segment x)) (t_segment_root t));
              _ ← nrt_mutex_unlock (sg_txn_lock x);
              mret ret
          end
      end
  end.

(* @map segment.c:184-199 newrelic_set_segment_timing *)
Definition newrelic_set_segment_timing (segment : option sdk_seg_ptr) (start_time duration : newrelic_time_us_t)
  : prog bool :=
  match segment with
  | None => mret false
  | Some p =>
      x ← segment_of p;
      _ ← nrt_mutex_lock (sg_txn_lock x);
      _ ← use_segment (sg_segment x);
      ret ← on_world (nr_segment_set_timing (Some (sg_segment x)) start_time duration);
      _ ← nrt_mutex_unlock (sg_txn_lock x);
      mret ret
  end.

(** ** Datastore segments *)

(* @map datastore.c:12-108 newrelic_start_datastore_segment *)
Definition newrelic_start_datastore_segment (transaction : option sdk_txn_ptr)
  (params : option newrelic_datastore_segment_params_t) : prog (option sdk_seg_ptr) :=
  match transaction, params with
  | Some x, Some params =>
      match dp_product params with
      | None => mret None
      | Some product =>
          if negb (newrelic_validate_segment_param (dp_product params)) then mret None
          else if negb (newrelic_validate_segment_param (dp_collection params)) then mret None
          else if negb (newrelic_validate_segment_param (dp_operation params)) then mret None
          else if negb (newrelic_validate_segment_param (dp_host params)) then mret None
          else
            let ds_type := nr_datastore_from_string (dp_product params) in
            _ ← nrt_mutex_lock (Some (TxnLock x));
            tp ← txn_of x;
            segment ← newrelic_segment_create tp;
            _ ← (match segment with
                 | None => mret tt
                 | Some p =>
                     sg ← segment_of p;
                     _ ← use_segment (sg_segment sg);
                     _ ← on_world (fun w => w ← upd_segment (sg_segment sg) (seg_type NR_SEGMENT_DATASTORE) w; Some (tt, w));
                     hostname ← gets (fun s => nr_system_get_hostname (sd_axiom s));
                     let instance := nr_datastore_instance_set_host (Some no_instance) (dp_host params) hostname in
                     let instance := nr_datastore_instance_set_port_path_or_id instance (dp_port_path_or_id params) in
                     let instance := nr_datastore_instance_set_database_name instance (dp_database_name params) in
                     update_segment p (with_type (DatastoreFields
                       {| df_collection := Some (nr_strdup_or (dp_collection params) (Some (str "other")));
                          df_operation := Some (nr_strdup_or (dp_operation params) (Some (str "other")));
                          df_type := ds_type;
                          df_string := Some (if nr_strempty (dp_product params)
                                             then nr_strdup (Some NEWRELIC_DATASTORE_OTHER)
                                             else nr_strdup (dp_product params));
                          df_sql := strdup_or_null (dp_query params);
                          df_instance := default no_instance instance |}))
                 end);
            _ ← nrt_mutex_unlock (Some (TxnLock x));
            mret segment
      end
  | _, _ => mret None
  end.

(** What the member of the union for datastores holds. *)
Definition datastore_fields (f : type_fields_t) : datastore_fields_t :=
  match f with
  | DatastoreFields d => d
  | NoFields => mk_datastore_fields None None no_instance NR_DATASTORE_OTHER None None
  | ExternalFields e =>
      mk_datastore_fields (xf_uri e) (xf_library e) (mk_instance (xf_procedure e) None None) NR_DATASTORE_OTHER None None
  end.

(** The parameters made of the fields of a wrapper. *)
(* @map datastore.c:121-132 newrelic_end_datastore_segment *)
Definition datastore_end_params (d : datastore_fields_t) : nr_segment_datastore_params_t :=
  {| sdp_operation := df_operation d;
     sdp_collection := df_collection d;
     sdp_instance := Some (df_instance d);
     sdp_type := df_type d;
     sdp_string := df_string d;
     sdp_sql := df_sql d;
     sdp_plan_json := None;
     sdp_input_query := None;
     sdp_backtrace := None;
     sdp_modify_table_name := None |}.

(* @map datastore.c:118-141 newrelic_end_datastore_segment *)
Definition newrelic_end_datastore_segment (p : sdk_seg_ptr) : prog bool :=
  x ← segment_of p;
  seg ← read_segment (sg_segment x);
  match s_type seg with
  | NR_SEGMENT_DATASTORE =>
      let params := datastore_end_params (datastore_fields (sg_type x)) in
      hostname ← gets (fun s => nr_system_get_hostname (sd_axiom s));
      _ ← on_world (fun w => w ← nr_segment_datastore_end realloc_ok clock json_of (Some (sg_segment x)) (Some params) hostname w;
                             Some (tt, w));
      _ ← update_segment p (fun x => with_type (newrelic_destroy_datastore_segment_fields (sg_type x)) x);
      mret true
  | _ => mret false
  end.

(** ** External segments *)

(* @map external.c:11-62 newrelic_start_external_segment *)
Definition newrelic_start_external_segment (transaction : option sdk_txn_ptr)
  (params : option newrelic_external_segment_params_t) : prog (option sdk_seg_ptr) :=
  match transaction, params with
  | Some x, Some params =>
      if negb (newrelic_validate_segment_param (ep_library params)) then mret None
      else if negb (newrelic_validate_segment_param (ep_procedure params)) then mret None
      else
        match ep_uri params with
        | None => mret None
        | Some _ =>
            _ ← nrt_mutex_lock (Some (TxnLock x));
            tp ← txn_of x;
            segment ← newrelic_segment_create tp;
            _ ← (match segment with
                 | None => mret tt
                 | Some p =>
                     sg ← segment_of p;
                     _ ← use_segment (sg_segment sg);
                     _ ← on_world (fun w => w ← upd_segment (sg_segment sg) (seg_type NR_SEGMENT_EXTERNAL) w; Some (tt, w));
                     update_segment p (with_type (ExternalFields
                       {| xf_uri := strdup_or_null (ep_uri params);
                          xf_library := strdup_or_null (ep_library params);
                          xf_procedure := strdup_or_null (ep_procedure params) |}))
                 end);
            _ ← nrt_mutex_unlock (Some (TxnLock x));
            mret segment
        end
  | _, _ => mret None
  end.

(** What the member of the union for external segments holds. *)
Definition external_fields (f : type_fields_t) : external_fields_t :=
  match f with
  | ExternalFields e => e
  | NoFields => mk_external_fields None None None
  | DatastoreFields d => mk_external_fields (df_collection d) (df_operation d) (di_host (df_instance d))
  end.

(* @map external.c:73-77 newrelic_end_external_segment *)
Definition external_end_params (e : external_fields_t) : nr_segment_external_params_t :=
  {| sep_uri := xf_uri e; sep_library := xf_library e; sep_procedure := xf_procedure e |}.

(* @map external.c:70-86 newrelic_end_external_segment *)
Definition newrelic_end_external_segment (p : sdk_seg_ptr) : prog bool :=
  x ← segment_of p;
  seg ← read_segment (sg_segment x);
  match s_type seg with
  | NR_SEGMENT_EXTERNAL =>
      let params := external_end_params (external_fields (sg_type x)) in
      _ ← on_world (nr_segment_external_end realloc_ok clock (Some (sg_segment x)) (Some params));
      _ ← update_segment p (fun x => with_type (newrelic_destroy_external_segment_fields (sg_type x)) x);
      mret true
  | _ => mret false
  end.

(** ** Ending *)

(** The result, and what [*segment_ptr] is afterwards. *)
(* @map segment.c:201-264 newrelic_end_segment *)
Definition newrelic_end_segment (transaction : option sdk_txn_ptr) (segment_ptr : option (option sdk_seg_ptr))
  : prog (bool * option (option sdk_seg_ptr)) :=
  match segment_ptr with
  | None => mret (false, None)
  | Some None => mret (false, Some None)
  | Some (Some p) =>
      x ← segment_of p;
      status ← (match sg_transaction x, transaction with
                | Some tp, Some y =>
                    tq ← txn_of y;
                    if negb (bool_decide (tq = tp)) then mret false
                    else
                      _ ← nrt_mutex_lock (Some (TxnLock y));
                      seg ← read_segment (sg_segment x);
                      _ ← (match s_type seg with
                           | NR_SEGMENT_CUSTOM =>
                               _ ← on_world (nr_segment_end realloc_ok clock (Some (sg_segment x)));
                               t ← read_txn tq;
                               seg ← read_segment (sg_segment x);
                               name ← of_option (pool_get (t_trace_strings t) (s_name seg));
                               _ ← on_world (nr_segment_add_metric realloc_ok (Some (sg_segment x)) name true);
                               mret tt
                           | NR_SEGMENT_DATASTORE => _ ← newrelic_end_datastore_segment p; mret tt
                           | NR_SEGMENT_EXTERNAL => _ ← newrelic_end_external_segment p; mret tt
                           end);
                      _ ← nrt_mutex_unlock (Some (TxnLock y));
                      mret true
                | _, _ => mret false
                end);
      ptr ← newrelic_segment_destroy (Some (Some p));
      mret (status, ptr)
  end.

(** ** Distributed tracing *)

(* @map distributed_trace.c:12-38 newrelic_create_distributed_trace_payload *)
Definition newrelic_create_distributed_trace_payload (transaction : option sdk_txn_ptr) (segment : option sdk_seg_ptr)
  : prog (option cstr) :=
  match transaction with
  | None => mret None
  | Some x =>
      _ ← nrt_mutex_lock (Some (TxnLock x));
      tp ← txn_of x;
      s' ← (match segment with
            | None => t ← read_txn tp; mret (t_segment_root t)
            | Some p => sg ← segment_of p; mret (Some (sg_segment sg))
            end);
      _ ← traced (Uses tp);
      payload ← (fun s => '(payload, w, a) ← nr_txn_create_distributed_trace_payload tp s' (sd_world s) (sd_axiom s);
                          Some (payload, set_axiom a (set_world w s)));
      _ ← nrt_mutex_unlock (Some (TxnLock x));
      mret payload
  end.

(* @map distributed_trace.c:40-56 newrelic_create_distributed_trace_payload_httpsafe *)
Definition newrelic_create_distributed_trace_payload_httpsafe (transaction : option sdk_txn_ptr)
  (segment : option sdk_seg_ptr) : prog (option cstr) :=
  payload ← newrelic_create_distributed_trace_payload transaction segment;
  match payload with
  | None => mret None
  | Some payload => mret (nr_b64_encode payload)
  end.

(** Both functions that accept a payload, by the function of axiom they call. *)
Definition accept_payload (accept : txn_ptr -> option cstr -> option cstr -> world S P M -> A -> option (bool * world S P M * A))
  (transaction : option sdk_txn_ptr) (payload transport_type : option cstr) : prog bool :=
  match transaction with
  | None => mret false
  | Some x =>
      _ ← nrt_mutex_lock (Some (TxnLock x));
      tp ← txn_of x;
      _ ← traced (Uses tp);
      ret ← (fun s => '(ret, w, a) ← accept tp payload transport_type (sd_world s) (sd_axiom s);
                      Some (ret, set_axiom a (set_world w s)));
      _ ← nrt_mutex_unlock (Some (TxnLock x));
      mret ret
  end.

(* @map distributed_trace.c:58-76 newrelic_accept_distributed_trace_payload *)
Definition newrelic_accept_distributed_trace_payload : option sdk_txn_ptr -> option cstr -> option cstr -> prog bool :=
  accept_payload nr_txn_accept_distributed_trace_payload.

(* @map distributed_trace.c:78-98 newrelic_accept_distributed_trace_payload_httpsafe *)
Definition newrelic_accept_distributed_trace_payload_httpsafe
  : option sdk_txn_ptr -> option cstr -> option cstr -> prog bool :=
  accept_payload nr_txn_accept_distributed_trace_payload_httpsafe.

End Segments.
