(* ===== verification/Session.v ===== *)
(** * Sessions

    The state an application leaves the SDK in between two calls, and that the calls keep it: the
    handles the application holds are alive, the segments of every transaction are a forest,
    every lock is free, and there is room for what the next calls add. *)

From S2P Require Import Prelude Vector Strings Time StringPool Metrics.
From S2P Require Import HashMap SegmentChildren Slab Datastore Slowsqls Txn Config Segment SegmentEnd Sdk SdkSample.
From S2P Require Import SdkGlobal SdkTransaction SdkSegment.

Section Memory.
Context {S P M : Type} `{NamePool P} `{ObjectAllocator S M}.
Context (realloc_ok : Z -> bool) (clock : nat -> Z * Z) (Hroomy : roomy realloc_ok).

Abbreviation world := (world S P M).

Implicit Types (w : world) (kids : seg_ptr -> list seg_ptr) (k d : Z).

(** Room for [k] more names in the pool of a transaction, where the names of its segments are. *)
Definition names_left k (segments : gmap seg_ptr nr_segment_t) (tp : txn_ptr) (t : nrtxn_t S P) : Prop :=
  exists pool ss, t_trace_strings t = Some pool /\ pool_holds pool ss
    /\ Z.of_nat (length ss) + k + NR_STRPOOL_INCREASE_SIZE < 2 ^ 31
    /\ forall p s, segments !! p = Some s -> s_txn s = Some tp ->
         s_name s = 0 \/ 0 < s_name s /\ is_Some (ss !! Z.to_nat (s_name s - 1)).

(** Room for [k] more metrics. *)
Definition metrics_left k (t : nrtxn_t S P) : Prop :=
  exists table es, t_unscoped_metrics t = Some table /\ table_rep table es
    /\ Z.of_nat (length es) + k + NR_STRPOOL_INCREASE_SIZE < 2 ^ 31.

(** Room for [k] more names of datastore products. *)
Definition products_left k (t : nrtxn_t S P) : Prop :=
  exists pool ss, t_datastore_products t = Some pool /\ pool_holds pool ss
    /\ Z.of_nat (length ss) + k + NR_STRPOOL_INCREASE_SIZE < 2 ^ 31.

Record txn_live k (segments : gmap seg_ptr nr_segment_t) (tp : txn_ptr) (t : nrtxn_t S P) : Prop := {
  tl_slab : is_Some (t_segment_slab t);
  tl_names : names_left k segments tp t;
  tl_metrics : metrics_left k t;
  tl_root : forall r, t_segment_root t = Some r -> owned segments tp r;
  tl_products : products_left k t;
}.

(** The memory of axiom between two calls, with room for [k] additions. *)
Record memory_ok k w kids : Prop := {
  mo_world : world_ok w kids;
  mo_size : Z.of_nat (size (w_segments w)) + k < 2 ^ 29;
  mo_txns : forall tp t, w_txns w !! tp = Some t -> txn_live k (w_segments w) tp t;
}.

(** Nothing that was there is gone, and segments keep their transaction and their type. *)
Record grows w w' : Prop := {
  gr_segments : forall p s, w_segments w !! p = Some s ->
    exists s', w_segments w' !! p = Some s' /\ s_txn s' = s_txn s /\ s_type s' = s_type s;
  gr_txns : forall tp, is_Some (w_txns w !! tp) -> is_Some (w_txns w' !! tp);
}.

(** No segment got a name. *)
Definition names_kept (segments segments' : gmap seg_ptr nr_segment_t) : Prop :=
  forall p s', segments' !! p = Some s' ->
    s_name s' = 0 \/ exists s, segments !! p = Some s /\ s_txn s = s_txn s' /\ s_name s = s_name s'.

Lemma gr_owned w w' : grows w w' -> forall tp p, owned (w_segments w) tp p -> owned (w_segments w') tp p.
Proof. intros Hg tp p (s & Hs & Ho). destruct (gr_segments _ _ Hg p s Hs) as (s' & Hs' & Et & _). exists s'. by rewrite Et. Qed.

Lemma grows_same w w' : w_segments w' = w_segments w -> w_txns w' = w_txns w -> grows w w'.
Proof. intros Es Et. constructor; rewrite ?Es, ?Et; [|done]. intros p s Hs. by exists s. Qed.

Lemma grows_refl w : grows w w.
Proof. by apply grows_same. Qed.

Lemma grows_trans w1 w2 w3 : grows w1 w2 -> grows w2 w3 -> grows w1 w3.
Proof.
  intros [H1 H2] [H3 H4]. constructor; [|by auto]. intros p s Hs. destruct (H1 p s Hs) as (s2 & Hs2 & Et2 & Ey2).
  destruct (H3 p s2 Hs2) as (s3 & Hs3 & Et3 & Ey3). exists s3. split; [done|]. split; congruence.
Qed.

Lemma names_kept_refl segments : names_kept segments segments.
Proof. intros p s Hs. right. by exists s. Qed.

Lemma names_left_le k k' segments segments' tp t :
  k' <= k -> names_kept segments segments' -> names_left k segments tp t -> names_left k' segments' tp t.
Proof.
  intros Hk Hkept (pool & ss & H1 & H2 & H3 & H4). exists pool, ss. split; [done|]. split; [done|]. split; [lia|].
  intros p s' Hs' Ho. destruct (Hkept p s' Hs') as [?|(s & Hs & Et & En)]; [by left|]. rewrite <- En.
  by apply (H4 p s Hs); congruence.
Qed.

Lemma metrics_left_le k k' t : k' <= k -> metrics_left k t -> metrics_left k' t.
Proof. intros Hk (table & es & H1 & H2 & H3). exists table, es. split; [done|]. split; [done|lia]. Qed.

Lemma products_left_le k k' t t' :
  k' <= k -> t_datastore_products t' = t_datastore_products t -> products_left k t -> products_left k' t'.
Proof. intros Hk E (pool & ss & H1 & H2 & H3). exists pool, ss. split; [congruence|]. split; [done|lia]. Qed.

Lemma txn_live_le k k' segments segments' tp t :
  k' <= k -> (forall p, owned segments tp p -> owned segments' tp p) -> names_kept segments segments' ->
  txn_live k segments tp t -> txn_live k' segments' tp t.
Proof.
  intros Hk Ho Hn [H1 H2 H3 H4 H5].
  constructor; [done|by eapply names_left_le|by eapply metrics_left_le| |by eapply products_left_le].
  intros r Hr. by apply Ho, H4.
Qed.

Lemma memory_ok_le k k' w kids : k' <= k -> memory_ok k w kids -> memory_ok k' w kids.
Proof.
  intros Hk [H1 H2 H3]. constructor; [done|lia|]. intros tp t Ht.
  eapply txn_live_le; [done|done|apply names_kept_refl|by apply H3].
Qed.

(** What a change of a transaction must leave alone. *)
Definition same_frame (t t' : nrtxn_t S P) : Prop :=
  t_default_parent_stack t' = t_default_parent_stack t /\ t_segment_slab t' = t_segment_slab t
  /\ t_segment_root t' = t_segment_root t /\ t_trace_strings t' = t_trace_strings t
  /\ t_datastore_products t' = t_datastore_products t.

Lemma grows_txn w tp t : grows w (put_txn tp t w).
Proof. constructor; [intros p s Hs; by exists s|]. intros tq Hq. cbn. apply lookup_insert_is_Some'. by right. Qed.

Lemma memory_ok_txn k k' w kids tp t t' :
  memory_ok k w kids -> k' <= k -> w_txns w !! tp = Some t -> same_frame t t' -> metrics_left k' t' ->
  memory_ok k' (put_txn tp t' w) kids /\ grows w (put_txn tp t' w).
Proof.
  intros [Hw Hsize Hlive] Hk Ht (Hs1 & Hs2 & Hs3 & Hs4 & Hs5) Hm. split; [|apply grows_txn]. constructor; [|cbn; lia|].
  - eapply world_ok_txn; [done|done| |done]. destruct (wo_txns _ _ Hw tp t Ht) as [Ha Hb].
    constructor; unfold current_stack in *; rewrite ?Hs1, ?Hs4; done.
  - intros tq tt. cbn [w_txns w_segments put_txn set_txns]. intros [[<- <-]|[_ Hq]]%lookup_insert_Some.
    + destruct (Hlive tp t Ht) as [H1 H2 H3 H4 H5].
      constructor; [by rewrite Hs2| |done|by rewrite Hs3|by eapply products_left_le].
      unfold names_left in *. rewrite Hs4. by eapply names_left_le; [|apply names_kept_refl|].
    + eapply txn_live_le; [done|done|apply names_kept_refl|by apply Hlive].
Qed.

(** New products of datastores. *)
Lemma memory_ok_products k k' w kids tp t v :
  memory_ok k w kids -> k' <= k -> w_txns w !! tp = Some t -> products_left k' (with_datastore_products v t) ->
  memory_ok k' (put_txn tp (with_datastore_products v t) w) kids.
Proof.
  intros [Hw Hsize Hlive] Hk Ht Hp. constructor; [|cbn; lia|].
  - eapply world_ok_txn; [done|done| |done]. by destruct (wo_txns _ _ Hw tp t Ht).
  - intros tq tt. cbn [w_txns w_segments put_txn set_txns]. intros [[<- <-]|[_ Hq]]%lookup_insert_Some.
    + destruct (Hlive tp t Ht) as [H1 H2 H3 H4 H5]. constructor; [done| |by eapply metrics_left_le; [|exact H3]|done|done].
      by eapply names_left_le; [|apply names_kept_refl|].
    + eapply txn_live_le; [done|done|apply names_kept_refl|by apply Hlive].
Qed.

(** Writing a segment without moving it. *)
Lemma grows_put w p s s' :
  w_segments w !! p = Some s -> s_txn s' = s_txn s -> s_type s' = s_type s -> grows w (put_segment p s' w).
Proof.
  intros Hs Et Ey. constructor; [|done]. intros q sq Hq. cbn [w_segments put_segment set_segments].
  destruct (decide (q = p)) as [->|Hne]; [rewrite lookup_insert_eq; eexists; split; [done|by simplify_eq]|].
  rewrite lookup_insert_ne by congruence. by eexists.
Qed.

Lemma names_kept_put segments p s s' :
  segments !! p = Some s -> s_txn s' = s_txn s -> s_name s' = s_name s -> names_kept segments (<[p := s']> segments).
Proof.
  intros Hs Et En q sq [[<- <-]|[_ Hq]]%lookup_insert_Some; right; [by exists s|by exists sq].
Qed.

Lemma memory_ok_world k k' w w' kids kids' :
  memory_ok k w kids -> k' <= k -> world_ok w' kids' -> (forall tp p, owned (w_segments w) tp p -> owned (w_segments w') tp p) ->
  names_kept (w_segments w) (w_segments w') -> w_txns w' = w_txns w ->
  Z.of_nat (size (w_segments w')) <= Z.of_nat (size (w_segments w)) + (k - k') -> memory_ok k' w' kids'.
Proof.
  intros [Hw Hsize Hlive] Hk Hw' Hg Hn Et Hsize'. constructor; [done|lia|]. intros tp t. rewrite Et. intros Ht.
  eapply txn_live_le; [done|exact (Hg tp)|done|by apply Hlive].
Qed.

Lemma size_put w p s s' : w_segments w !! p = Some s -> size (w_segments (put_segment p s' w)) = size (w_segments w).
Proof. intros Hs. cbn. apply map_size_insert_Some. by eexists. Qed.

Lemma memory_ok_put k w kids p s s' :
  memory_ok k w kids -> w_segments w !! p = Some s -> same_place s s' -> keeps s s' -> s_name s' = s_name s ->
  memory_ok k (put_segment p s' w) kids.
Proof.
  intros Hm Hs Hsame Hk Hn. eapply memory_ok_world; [exact Hm|lia| | | |done|].
  - by eapply world_ok_put; [apply (mo_world _ _ _ Hm)| | |].
  - intros tp q (sq & Hq & Ho). unfold owned. cbn [w_segments put_segment set_segments].
    destruct (decide (q = p)) as [->|Hne]; [rewrite lookup_insert_eq; eexists; split; [done|]; destruct Hk; congruence|].
    rewrite lookup_insert_ne by congruence. by eexists.
  - eapply names_kept_put; [done|apply Hk|done].
  - rewrite (size_put w p s s' Hs). lia.
Qed.

Lemma memory_ok_update k w kids p s s' :
  memory_ok k w kids -> w_segments w !! p = Some s -> same_place s s' -> keeps s s' -> s_name s' = s_name s -> s_type s' = s_type s ->
  memory_ok k (put_segment p s' w) kids /\ grows w (put_segment p s' w).
Proof. intros Hm Hs Hsame Hk Hn Ey. split; [by eapply memory_ok_put|]. eapply grows_put; [done|apply Hk|done]. Qed.

(** One more forced metric. *)
Lemma add_unscoped_spec k t name d :
  metrics_left (k + 1) t -> 0 <= k -> strlen name < 2 ^ 31 - 1 ->
  exists table, add_unscoped (fun tb => nrm_force_add tb (Some name) d) t = Some (with_unscoped_metrics (Some table) t)
    /\ metrics_left k (with_unscoped_metrics (Some table) t).
Proof.
  intros (table & es & Htable & Hrep & Hroom) Hk Hname. unfold add_unscoped, nrm_force_add. rewrite Htable.
  destruct (nrm_add_internal_spec table es name 1 1 d d d d (u64 (d * d)) Hrep) as (table' & -> & _ & Hrep');
    [unfold room; lia|done|]. exists table'. split; [done|]. eexists table', _. split; [done|]. split; [done|].
  pose proof (length_spec_change (max_size table) 1 es (c_str name) (view_add 1 d d d d (u64 (d * d)))). lia.
Qed.

(** ** Starting and ending segments of the main context *)

Lemma started_grows w w' tp t parent l p :
  w_txns w !! tp = Some t -> started clock w w' tp t parent l p -> grows w w'.
Proof.
  intros Ht Hst. constructor.
  - intros q s Hs. destruct (sa_others _ _ _ _ _ _ _ _ Hst q s Hs) as (ch & Hch & _). by eexists.
  - intros tq Hq. destruct (sa_txns _ _ _ _ _ _ _ _ Hst) as (slab & v & -> & _). apply lookup_insert_is_Some'. by right.
Qed.

Lemma started_size w w' tp t parent l p :
  started clock w w' tp t parent l p -> (size (w_segments w') <= Datatypes.S (size (w_segments w)))%nat.
Proof.
  intros Hst. rewrite <- !size_dom.
  assert (dom (w_segments w') ⊆ {[p]} ∪ dom (w_segments w)) as Hsub.
  { intros x Hx%elem_of_dom. destruct (sa_dom _ _ _ _ _ _ _ _ Hst x Hx) as [->|Hin]; [set_solver|].
    apply elem_of_union_r. by apply elem_of_dom. }
  apply subseteq_size in Hsub. pose proof (size_union_alt {[p]} (dom (w_segments w))) as E. rewrite E in Hsub.
  rewrite size_singleton in Hsub.
  assert (size (dom (w_segments w) ∖ {[p]}) <= size (dom (w_segments w)))%nat by (apply subseteq_size; intros x [? _]%elem_of_difference; done).
  lia.
Qed.

Lemma started_names w w' tp t parent l p :
  started clock w w' tp t parent l p -> names_kept (w_segments w) (w_segments w').
Proof.
  intros Hst q s' Hq. destruct (sa_dom _ _ _ _ _ _ _ _ Hst q) as [->|[s Hs]]; [by eexists| |].
  - left. rewrite (sa_segment _ _ _ _ _ _ _ _ Hst) in Hq. by injection Hq as <-.
  - right. destruct (sa_others _ _ _ _ _ _ _ _ Hst q s Hs) as (ch & Hch & _). exists s. split; [done|].
    rewrite Hch in Hq. by injection Hq as <-.
Qed.

Lemma nr_segment_start_ok k w kids tp t :
  memory_ok (k + 1) w kids -> 0 <= k -> w_txns w !! tp = Some t -> recording (t_status t) <> 0 ->
  oa_next (w_mem w) (t_segment_slab t) <> None ->
  exists l p w' kids', current_stack t l /\ nr_segment_start realloc_ok clock (Some tp) None None w = Some (Some p, w')
    /\ memory_ok k w' kids' /\ grows w w' /\ started clock w w' tp t None l p.
Proof.
  intros [Hw Hsize Hlive] Hk Ht Hrec Hmem. destruct (Hlive tp t Ht) as [[slab Hslab] Hnames Hmetrics Hroot Hproducts].
  destruct (wo_txns _ _ Hw tp t Ht) as [(l & Hl & Hown) Hpool]. rewrite Hslab in Hmem.
  destruct (nr_segment_start_spec realloc_ok clock Hroomy w kids tp t slab l None) as (p & w' & Hrun & Hw' & Hst); try done;
    [lia|]. exists l, p, w', (hung_kids kids p (effective_parent None l)).
  assert (Hg : grows w w') by (by eapply started_grows). pose proof (started_size _ _ _ _ _ _ _ Hst) as Hsz.
  pose proof (started_names _ _ _ _ _ _ _ Hst) as Hn.
  split; [done|]. split; [done|]. split; [|by split]. constructor; [done|lia|].
  destruct (sa_txns _ _ _ _ _ _ _ _ Hst) as (slab' & v & -> & Hslab' & _).
  assert (Hle : k <= k + 1) by lia. intros tq tt [[<- <-]|[_ Hq]]%lookup_insert_Some.
  - constructor; [done|exact (names_left_le _ _ _ _ _ _ Hle Hn Hnames)|exact (metrics_left_le _ _ _ Hle Hmetrics)| |by eapply products_left_le].
    intros r Hr. by apply (gr_owned _ _ Hg), Hroot.
  - eapply txn_live_le; [exact Hle| |exact Hn|by apply Hlive]. apply (gr_owned _ _ Hg).
Qed.

(** Naming a segment. *)
Lemma nr_segment_set_name_ok k w kids p tp name :
  memory_ok (k + 1) w kids -> 0 <= k -> owned (w_segments w) tp p -> is_Some (w_txns w !! tp) -> strlen name < 2 ^ 31 - 1 ->
  exists s idx pool ss t, w_segments w !! p = Some s /\ w_txns w !! tp = Some t
    /\ let w' := put_segment p (seg_name idx s) (put_txn tp (with_trace_strings (Some pool) t) w) in
       nr_segment_set_name (Some p) (Some name) w = Some (true, w') /\ memory_ok k w' kids /\ grows w w'
       /\ pool_holds pool ss /\ 0 < idx /\ ss !! Z.to_nat (idx - 1) = Some (c_str name).
Proof.
  intros Hm Hk (s & Hs & Htp) [t Ht] Hlen. destruct Hm as [Hw Hsize Hlive].
  destruct (Hlive tp t Ht) as [Hslab (pool & ss & Hpool & Hholds & Hroom & Hnamed) Hmetrics Hroot Hproducts].
  destruct (nr_segment_set_name_spec w kids p s tp t name pool ss) as (idx & pool' & ss' & Hrun & Hw' & Hholds' & Hpre & Hmore & Hidx & Hget);
    try done; [lia|]. exists s, idx, pool', ss', t. split; [done|]. split; [done|]. cbv zeta.
  assert (Hg : grows w (put_segment p (seg_name idx s) (put_txn tp (with_trace_strings (Some pool') t) w))).
  { eapply grows_trans; [apply grows_txn|]. by eapply grows_put. }
  split; [done|]. split; [|by split]. constructor; [done| |].
  - rewrite (size_put _ p s) by done. cbn. lia.
  - intros tq tt. cbn [w_txns w_segments put_segment set_segments put_txn set_txns].
    intros [[<- <-]|[Hne Hq]]%lookup_insert_Some.
    + assert (Hle : k <= k + 1) by lia. constructor; [done| | | |by eapply products_left_le].
      * exists pool', ss'. split; [done|]. split; [done|]. split; [lia|].
        intros q sq [[<- <-]|[_ Hq]]%lookup_insert_Some Hsq.
        -- right. cbn [s_name seg_name]. split; [done|]. by eexists.
        -- destruct (Hnamed q sq Hq Hsq) as [?|[Hpos [x Hx]]]; [by left|right]. split; [done|].
           destruct Hpre as [rest ->]. exists x. by apply lookup_app_l_Some.
      * eapply metrics_left_le; [|exact Hmetrics]. lia.
      * intros r Hr. apply (gr_owned _ _ Hg), Hroot. exact Hr.
    + destruct (Hlive tq tt Hq) as [H1 H2 H3 H4 H5]. assert (Hle : k <= k + 1) by lia.
      constructor; [done| | | |by eapply products_left_le].
      * destruct H2 as (pool2 & ss2 & E1 & E2 & E3 & E4). exists pool2, ss2. split; [done|]. split; [done|]. split; [lia|].
        intros q sq [[<- <-]|[_ Hin]]%lookup_insert_Some Hsq; [|by apply (E4 q)].
        exfalso. apply Hne. cbn in Hsq. congruence.
      * eapply metrics_left_le; [|exact H3]. lia.
      * intros r Hr. apply (gr_owned _ _ Hg), H4. exact Hr.
Qed.

(** ** The other operations *)

Lemma nr_txn_set_timing_ok k w kids tp start duration :
  memory_ok k w kids -> is_Some (w_txns w !! tp) ->
  exists b w', nr_txn_set_timing (Some tp) start duration w = Some (b, w') /\ memory_ok k w' kids /\ grows w w'.
Proof.
  intros Hm [t Ht]. unfold nr_txn_set_timing, deref_txn. rewrite Ht. cbn [mbind option_bind].
  destruct (t_segment_root t) as [r|] eqn:Er; [|exists false, w; split; [done|]; split; [done|apply grows_refl]].
  destruct (mo_txns _ _ _ Hm tp t Ht) as [_ _ Hmetrics Hroot _]. destruct (Hroot r Er) as (s & Hs & _).
  destruct (memory_ok_txn k k w kids tp t (with_abs_start_time start t)) as [Hm1 Hg1]; [done|lia|done|by repeat split|done|].
  destruct (memory_ok_update k _ kids r s (seg_stop_time duration s) Hm1) as [Hm2 Hg2];
    [done|by split_and!|by split_and!; [| |left]|done|done|].
  unfold upd_segment. cbn [w_segments put_txn set_txns]. rewrite Hs. cbn [mbind option_bind].
  eexists true, _. split; [reflexivity|]. split; [exact Hm2|]. by eapply grows_trans.
Qed.

Lemma nr_segment_set_timing_ok k w kids tp p start duration :
  memory_ok k w kids -> owned (w_segments w) tp p ->
  exists w', nr_segment_set_timing (Some p) start duration w = Some (true, w') /\ memory_ok k w' kids /\ grows w w'.
Proof.
  intros Hm (s & Hs & _). destruct (nr_segment_set_timing_spec w kids p s start duration (mo_world _ _ _ Hm) Hs) as [Hrun _].
  eexists. split; [exact Hrun|]. apply (memory_ok_update k w kids p s); [done|done|by split_and!|by split_and!; [| |left]|done|done].
Qed.

(** What adding a metric leaves in the segment. *)
Definition metric_added (name : option cstr) (scoped ok : bool) (s s' : nr_segment_t) : Prop :=
  (exists m, s' = seg_metrics m s)
  /\ forall n, name = Some n -> exists l v', (match s_metrics s with Some v => vrep v l | None => l = [] end)
       /\ s_metrics s' = Some v' /\ vrep v' (if ok then l ++ [Some (mk_segment_metric (c_str n) scoped)] else l).

Lemma nr_segment_add_metric_ok k w kids p s name scoped :
  memory_ok k w kids -> w_segments w !! p = Some s ->
  exists ok s', nr_segment_add_metric realloc_ok (Some p) name scoped w = Some (ok, put_segment p s' w)
    /\ memory_ok k (put_segment p s' w) kids /\ grows w (put_segment p s' w) /\ metric_added name scoped ok s s'.
Proof.
  intros Hm Hs. destruct name as [name|].
  - destruct (nr_segment_add_metric_spec realloc_ok Hroomy w kids p s name scoped (mo_world _ _ _ Hm) Hs)
      as (ok & w' & Hrun & _ & v & v' & l & E & Hl & -> & Hv'). exists ok, (seg_metrics (Some v') s). split; [exact Hrun|].
    assert (Hv : keeps s (seg_metrics (Some v') s)).
    { split; [done|]. split; [done|]. right. intros ? [= <-]. by eexists. }
    destruct (memory_ok_update k w kids p s (seg_metrics (Some v') s) Hm Hs) as [Hm' Hg']; [by split_and!|done|done|done|].
    split; [done|]. split; [done|]. split; [by eexists|]. intros n [= <-]. exists l, v'. by rewrite E.
  - exists false, s. assert (E : put_segment p s w = w).
    { unfold put_segment, set_segments. rewrite insert_id by done. by destruct w. }
    rewrite E. split; [done|]. split; [done|]. split; [apply grows_refl|]. split; [|done].
    exists (s_metrics s). by destruct s.
Qed.

Lemma moves_names p q kids' segments segments' :
  (forall x, option_Forall2 (moves p q x kids') (segments !! x) (segments' !! x)) -> names_kept segments segments'.
Proof.
  intros Hall x s' Hs'. specialize (Hall x). rewrite Hs' in Hall. inversion Hall as [s ? [E _] Hs|]; subst.
  right. exists s. split; [done|]. rewrite E. done.
Qed.

Lemma option_Forall2_size (R : seg_ptr -> nr_segment_t -> nr_segment_t -> Prop) (segments segments' : gmap seg_ptr nr_segment_t) :
  (forall x, option_Forall2 (R x) (segments !! x) (segments' !! x)) -> size segments' = size segments.
Proof.
  intros Hall. rewrite <- !size_dom. apply set_size_proper. intros x. rewrite !elem_of_dom.
  specialize (Hall x). by inversion Hall.
Qed.

Lemma nr_segment_set_parent_ok k w kids tp tq p q :
  memory_ok k w kids -> 0 <= k -> owned (w_segments w) tp p -> owned (w_segments w) tq q ->
  exists b w' kids', nr_segment_set_parent realloc_ok (Some p) (Some q) w = Some (b, w') /\ memory_ok k w' kids' /\ grows w w'.
Proof.
  intros Hm Hk (sp & Hp & _) (sq & Hq & _). pose proof (mo_size _ _ _ Hm) as Hsize.
  destruct (nr_segment_set_parent_spec realloc_ok Hroomy w kids p q sp sq (mo_world _ _ _ Hm)) as (b & w' & kids' & Hrun & Hw' & Hrep);
    [lia|done|done|]. exists b, w', kids'. split; [done|].
  destruct Hrep as (lq & _ & Hcases).
  assert (Hsame : w' = w /\ kids' = kids \/ only_segments w w'
    /\ forall x, option_Forall2 (moves p q x kids') (w_segments w !! x) (w_segments w' !! x)).
  { destruct (decide _); [|left; by destruct Hcases]. destruct (decide _); [left; by destruct Hcases|].
    destruct (decide _); [left; by destruct Hcases|right]. by destruct Hcases as (_ & ? & _ & ?). }
  destruct Hsame as [[-> ->]|[Honly Hmoves]]; [by split; [|apply grows_refl]|].
  assert (Et : w_txns w' = w_txns w) by (by rewrite Honly).
  assert (Hg : grows w w').
  { constructor; [|by rewrite Et]. intros x sx Hx. pose proof (Hmoves x) as Hm'. rewrite Hx in Hm'.
    destruct (w_segments w' !! x) as [sx'|]; [|by inversion Hm']. exists sx'. split; [done|].
    assert (Hmv : moves p q x kids' sx sx') by by inversion Hm'. destruct Hmv as [-> _]. done. }
  split; [|done]. eapply memory_ok_world; [exact Hm|lia|exact Hw'|exact (gr_owned _ _ Hg)| |done|].
  - by eapply moves_names.
  - rewrite (option_Forall2_size (fun x => moves p q x kids') _ _ Hmoves). lia.
Qed.

Lemma current_stack_det (t : nrtxn_t S P) l l' : current_stack t l -> current_stack t l' -> l = l'.
Proof.
  intros [(Hu & _ & _ & j & E) _] [(Hu' & _ & _ & j' & E') _]. rewrite E in E'.
  apply app_inj_1 in E' as [E' _]; [|lia]. revert E'. clear. revert l'.
  induction l as [|x l IH]; intros [|y l'] E; try done. injection E as -> E. f_equal. by apply IH.
Qed.

(** Ending keeps what [memory_ok] says of the transaction. *)
Lemma nr_segment_end_ok k w kids tp p s :
  memory_ok k w kids -> w_segments w !! p = Some s -> s_txn s = Some tp -> is_Some (w_txns w !! tp) ->
  exists w' t l v stop, w_txns w !! tp = Some t /\ current_stack t l
    /\ nr_segment_end realloc_ok clock (Some p) w = Some (true, w') /\ memory_ok k w' kids /\ grows w w'
    /\ stop = (if s_stop_time s =? 0 then nr_time_duration (t_abs_start_time t) (fst (read_clock clock w)) else s_stop_time s)
    /\ w_segments w' = <[p := seg_stop_time stop s]> (w_segments w)
    /\ w_txns w' = <[tp := with_default_parent_stack v (with_segment_count (u64 (t_segment_count t + 1)) t)]> (w_txns w)
    /\ vrep v (map Some (filter (fun x => x <> p) l)).
Proof.
  intros Hm Hs Htp [t Ht]. destruct (wo_txns _ _ (mo_world _ _ _ Hm) tp t Ht) as [(l & Hl & Hown) Hpool].
  destruct (nr_segment_end_spec realloc_ok clock Hroomy w kids p s tp t l (mo_world _ _ _ Hm) Hs Htp Ht Hl Hown)
    as (w' & v & Hrun & Hw' & Es & Et & _ & Hv).
  set (stop := if s_stop_time s =? 0 then _ else _) in *.
  exists w', t, l, v, stop. split; [done|]. split; [done|]. split; [done|].
  assert (Hg : grows w w').
  { constructor.
    - intros q sq Hq. rewrite Es. destruct (decide (q = p)) as [->|Hne].
      + rewrite lookup_insert_eq. simplify_eq. by eexists.
      + rewrite lookup_insert_ne by congruence. by eexists.
    - intros tq Hq. rewrite Et. apply lookup_insert_is_Some'. by right. }
  split; [|by split]. constructor; [done| |].
  - rewrite Es, map_size_insert_Some by by eexists. apply Hm.
  - assert (Hn : names_kept (w_segments w) (w_segments w')) by (rewrite Es; by apply names_kept_put with (s := s)).
    intros tq tt. rewrite Et. intros [[<- <-]|[_ Hq]]%lookup_insert_Some.
    + destruct (mo_txns _ _ _ Hm tp t Ht) as [H1 H2 H3 H4 H5].
      constructor; [done|exact (names_left_le _ _ _ _ _ _ ltac:(done) Hn H2)|done| |done]. intros r Hr. by apply (gr_owned _ _ Hg), H4.
    + eapply txn_live_le; [done|apply (gr_owned _ _ Hg)|done|by apply Hm].
Qed.

End Memory.

(** ** The state of the SDK *)

Definition free_lock : nrthread_mutex_t := mk_mutex true false.

Section State.
Context {S P M A O : Type} `{NamePool P} `{ObjectAllocator S M} `{AxiomLib S P M A O}.
Context (realloc_ok : Z -> bool) (clock : nat -> Z * Z) (Hroomy : roomy realloc_ok).

Abbreviation sdk := (sdk S P M A O).
Abbreviation prog := (prog S P M A O).

Implicit Types (s : sdk) (kids : seg_ptr -> list seg_ptr) (k : Z).

(** The member of the union of a wrapper that goes with the type of its segment. *)
Definition fits (ty : nr_segment_type_t) (f : type_fields_t) : bool :=
  match ty, f with
  | NR_SEGMENT_CUSTOM, NoFields | NR_SEGMENT_DATASTORE, DatastoreFields _ | NR_SEGMENT_EXTERNAL, ExternalFields _ => true
  | _, _ => false
  end.

Definition fitting (segments : gmap seg_ptr nr_segment_t) (sg : newrelic_segment_t) : Prop :=
  forall seg, segments !! sg_segment sg = Some seg -> fits (s_type seg) (sg_type sg) = true.

(** What a wrapper holds: a segment of a transaction, whose type says which member of the union is in
    use, and no lock or the lock of an API transaction for the same transaction. *)
Definition wrapper_ok (segments : gmap seg_ptr nr_segment_t) (txns : gmap sdk_txn_ptr newrelic_txn_t)
  (sg : newrelic_segment_t) : Prop :=
  exists tp, sg_transaction sg = Some tp /\ owned segments tp (sg_segment sg)
    /\ (forall m, sg_txn_lock sg = Some m -> exists x tx, m = TxnLock x /\ txns !! x = Some tx /\ tx_txn tx = tp)
    /\ fitting segments sg.

Record sdk_ok k s kids : Prop := {
  so_memory : memory_ok k (sd_world s) kids;
  so_txns : forall x tx, sd_txns s !! x = Some tx ->
    is_Some (w_txns (sd_world s) !! tx_txn tx) /\ tx_lock tx = free_lock;
  so_segments : forall p sg, sd_segments s !! p = Some sg -> wrapper_ok (w_segments (sd_world s)) (sd_txns s) sg;
  so_mutex : mu_locked (sd_mutex s) = false;
}.

(** All but the memory of axiom, the wrappers and the trace. *)
Definition same_api s s' : Prop :=
  sd_apps s' = sd_apps s /\ sd_txns s' = sd_txns s /\ sd_events s' = sd_events s /\ sd_applist s' = sd_applist s
  /\ sd_log_configured s' = sd_log_configured s /\ sd_mutex s' = sd_mutex s.

Lemma wrapper_grows (w w' : world S P M) txns sg :
  grows w w' -> wrapper_ok (w_segments w) txns sg -> wrapper_ok (w_segments w') txns sg.
Proof.
  intros Hg (tp & H1' & H2 & H3 & H4). exists tp. split; [done|]. split; [by apply (gr_owned _ _ Hg)|]. split; [done|].
  intros seg' Hseg'. destruct H2 as (seg & Hseg & _). destruct (gr_segments _ _ Hg _ seg Hseg) as (seg2 & Hseg2 & _ & Ey).
  rewrite Hseg' in Hseg2. injection Hseg2 as <-. rewrite Ey. by apply H4.
Qed.

(** The memory of axiom grew, and at most one wrapper was written. *)
Lemma sdk_ok_step k k' s s' kids kids' :
  sdk_ok k s kids -> memory_ok k' (sd_world s') kids' -> grows (sd_world s) (sd_world s') ->
  sd_txns s' = sd_txns s -> sd_mutex s' = sd_mutex s ->
  (forall p sg, sd_segments s' !! p = Some sg ->
     sd_segments s !! p = Some sg \/ wrapper_ok (w_segments (sd_world s')) (sd_txns s) sg) ->
  sdk_ok k' s' kids'.
Proof.
  intros [Hm Ht Hs Hl] Hm' Hg Et El Hsegs. constructor; [done| | |by rewrite El].
  - intros x tx. rewrite Et. intros Hx. destruct (Ht x tx Hx) as [Hin Hfree]. split; [|done]. by apply (gr_txns _ _ Hg).
  - intros p sg Hp. rewrite Et. destruct (Hsegs p sg Hp) as [Hold|?]; [|done]. by eapply wrapper_grows; [|apply (Hs p)].
Qed.

(** Locking and unlocking a transaction leaves it as it was. *)
Lemma relock_twice (txns : gmap sdk_txn_ptr newrelic_txn_t) x tx v :
  txns !! x = Some tx -> tx_lock tx = free_lock ->
  <[x := mk_sdk_txn (tx_txn tx) free_lock]> (<[x := v]> txns) = txns.
Proof. intros Hx Hl. rewrite insert_insert_eq. apply insert_id. rewrite Hx. f_equal. destruct tx. by simpl in *; subst. Qed.

Lemma txn_of_run s x tx : sd_txns s !! x = Some tx -> txn_of x s = Some (tx_txn tx, s).
Proof. intros Hx. unfold txn_of. erewrite bind_run by done. cbn. by rewrite Hx. Qed.

Lemma segment_of_run s p sg : sd_segments s !! p = Some sg -> segment_of p s = Some (sg, s).
Proof. intros Hx. unfold segment_of. erewrite bind_run by done. cbn. by rewrite Hx. Qed.

Lemma update_segment_run s p sg f :
  sd_segments s !! p = Some sg ->
  update_segment p f s = Some (tt, set_sdk_segments (<[p := f sg]> (sd_segments s)) s).
Proof. intros Hx. unfold update_segment. by erewrite bind_run by by apply segment_of_run. Qed.

Lemma use_segment_run s p tp :
  owned (w_segments (sd_world s)) tp p -> use_segment p s = Some (tt, add_trace (Uses tp) s).
Proof. intros (sg & Hp & Ho). unfold use_segment. rewrite Hp. cbn [mbind option_bind]. by rewrite Ho. Qed.

(** The name of a new segment. *)
Definition start_name (name category : option cstr) : cstr :=
  let name := match name with
              | Some n => if newrelic_validate_segment_param name then n else str "Unnamed Segment"
              | None => str "Unnamed Segment"
              end in
  let category := match category with
                  | Some c => if newrelic_validate_segment_param category then c else str "Custom"
                  | None => str "Custom"
                  end in
  c_str category ++ str "/" ++ c_str name.

(** [newrelic_segment_create] on a transaction that records. *)
Lemma segment_create_run k s kids tp t :
  memory_ok (k + 1) (sd_world s) kids -> 0 <= k -> mu_locked (sd_mutex s) = false ->
  w_txns (sd_world s) !! tp = Some t -> recording (t_status t) <> 0 ->
  oa_next (w_mem (sd_world s)) (t_segment_slab t) <> None ->
  exists l p w' kids' s', newrelic_segment_create realloc_ok clock tp s = Some (Some (fresh (dom (sd_segments s))), s')
    /\ current_stack t l /\ memory_ok k w' kids' /\ grows (sd_world s) w'
    /\ started clock (sd_world s) w' tp t None l p
    /\ sd_world s' = w'
    /\ sd_segments s' = <[fresh (dom (sd_segments s)) := mk_sdk_segment p (Some tp) None NoFields]> (sd_segments s)
    /\ same_api s s' /\ sd_axiom s' = sd_axiom s.
Proof.
  intros Hm Hk Hl Ht Hrec Hmem.
  destruct (nr_segment_start_ok realloc_ok clock Hroomy k _ kids tp t Hm Hk Ht Hrec Hmem)
    as (l & p & w' & kids' & Hstack & Hrun & Hm' & Hg & Hst).
  unfold newrelic_segment_create. erewrite bind_run by done. cbv beta.
  erewrite bind_run by (apply on_world_run; exact Hrun). cbv beta iota.
  erewrite bind_run by (apply lock_segments_run; exact Hl). cbv beta.
  erewrite bind_run by done. cbv beta. erewrite bind_run by by apply unlock_segments_run. cbv beta.
  erewrite bind_run by done. exists l, p, w', kids'. eexists. split; [reflexivity|].
  split; [done|]. split; [done|]. split; [done|]. split; [done|]. split; [done|]. split; [done|].
  split; [|done]. repeat split; cbn. destruct (sd_mutex s). cbn in *. by subst.
Qed.

(** Whether a call from the state [s] ended in [s'] with [r]. *)
Lemma start_segment_run k s kids x tx t name category :
  sdk_ok (k + 2) s kids -> 0 <= k -> sd_txns s !! x = Some tx ->
  w_txns (sd_world s) !! tx_txn tx = Some t -> recording (t_status t) <> 0 ->
  oa_next (w_mem (sd_world s)) (t_segment_slab t) <> None -> strlen (start_name name category) < 2 ^ 31 - 1 ->
  exists l p q s' kids' sg t' idx pool ss,
    newrelic_start_segment realloc_ok clock (Some x) name category s = Some (Some q, s')
    /\ sdk_ok k s' kids' /\ same_api s s' /\ grows (sd_world s) (sd_world s')
    /\ current_stack t l /\ w_segments (sd_world s) !! p = None
    /\ sd_segments s !! q = None
    /\ sd_segments s' = <[q := mk_sdk_segment p (Some (tx_txn tx)) (Some (TxnLock x)) NoFields]> (sd_segments s)
    /\ w_segments (sd_world s') !! p = Some sg /\ s_parent sg = last l /\ s_type sg = NR_SEGMENT_CUSTOM
    /\ s_stop_time sg = 0
    /\ s_start_time sg = nr_time_duration (t_abs_start_time t) (fst (read_clock clock (sd_world s)))
    /\ w_txns (sd_world s') !! tx_txn tx = Some t' /\ current_stack t' (l ++ [p])
    /\ t_trace_strings t' = Some pool /\ pool_holds pool ss /\ 0 < s_name sg /\ idx = Z.to_nat (s_name sg - 1)
    /\ ss !! idx = Some (c_str (start_name name category)).
Proof.
  intros Hok Hk Hx Ht Hrec Hmem Hlen. destruct Hok as [Hm Htx Hsegs Hmu]. destruct (Htx x tx Hx) as [_ Hfree].
  set (tp := tx_txn tx) in *. unfold newrelic_start_segment.
  erewrite bind_run by by apply lock_txn_run. cbv beta.
  set (s1 := add_trace (Lock (TxnLock x)) (relock x tx true s)).
  assert (Hx1 : sd_txns s1 !! x = Some (mk_sdk_txn tp (mk_mutex true true))) by (cbn; apply lookup_insert_eq).
  erewrite bind_run by by apply txn_of_run. cbn [tx_txn]. cbv beta.
  destruct (segment_create_run (k + 1) s1 kids tp t) as (l & p & w2 & kids2 & s2 & Hrun & Hstack & Hm2 & Hg2 & Hst & Ew2 & Es2 & Hapi2 & _);
    [by replace (k + 1 + 1) with (k + 2) by lia|lia|done..|].
  erewrite bind_run by exact Hrun. cbv beta iota. change (sd_segments s1) with (sd_segments s) in *.
  set (q := fresh (dom (sd_segments s))) in *.
  assert (Hq : sd_segments s !! q = None) by (apply not_elem_of_dom, is_fresh).
  assert (Hq2 : sd_segments s2 !! q = Some (mk_sdk_segment p (Some tp) None NoFields)) by (rewrite Es2; apply lookup_insert_eq).
  assert (Hown2 : owned (w_segments (sd_world s2)) tp p).
  { rewrite Ew2. eexists. split; [exact (sa_segment _ _ _ _ _ _ _ _ Hst)|done]. }
  destruct (nr_segment_set_name_ok k w2 kids2 p tp (start_name name category)) as
    (sg & idx & pool & ss & t2 & Hsg & Ht2 & Hname & Hm3 & Hg3 & Hholds & Hidx & Hget); [done|lia|by rewrite <- Ew2| |done|].
  { apply (gr_txns _ _ Hg2). by exists t. }
  set (s3 := set_world (put_segment p (seg_name idx sg) (put_txn tp (with_trace_strings (Some pool) t2) w2)) (add_trace (Uses tp) s2)).
  erewrite bind_run.
  2:{ erewrite bind_run by by apply segment_of_run. cbv beta. erewrite bind_run by by apply use_segment_run. cbv beta.
      erewrite bind_run by (apply on_world_run; cbn [sd_world add_trace sg_segment]; rewrite Ew2; exact Hname). reflexivity. }
  cbv beta. destruct Hapi2 as (Ea & Et & Ee & Eal & Elc & Emu).
  assert (Hx3 : sd_txns s3 !! x = Some (mk_sdk_txn tp (mk_mutex true true))) by (cbn; by rewrite Et).
  change (set_world _ (add_trace (Uses (tx_txn tx)) s2)) with s3.
  erewrite bind_run by by apply unlock_txn_run. cbv beta. erewrite bind_run by done. cbv beta.
  erewrite bind_run by (apply update_segment_run; exact Hq2). cbv beta.
  eexists l, p, q, _, kids2, (seg_name idx sg), (with_trace_strings (Some pool) t2), _, pool, ss.
  split; [reflexivity|]. cbn [sd_world set_sdk_segments add_trace relock set_sdk_txns].
  assert (Hsg' : sg = seg_parent (effective_parent None l) (started_segment tp (nr_time_duration (t_abs_start_time t) (fst (read_clock clock (sd_world s)))))).
  { pose proof (sa_segment _ _ _ _ _ _ _ _ Hst) as E. rewrite Hsg in E. by injection E as ->. }
  assert (Hapi : same_api s (set_sdk_segments (<[q := mk_sdk_segment p (Some tp) (Some (TxnLock x)) NoFields]> (sd_segments s2))
      (add_trace (Unlock (TxnLock x)) (relock x (mk_sdk_txn tp (mk_mutex true true)) false s3)))).
  { split; [done|]. split; [|by repeat split]. cbn. rewrite Et. cbn. by apply relock_twice. }
  assert (Hgrow : grows (sd_world s) (sd_world s3)) by (by eapply grows_trans).
  split; [|split; [exact Hapi|split; [exact Hgrow|]]].
  { destruct Hapi as (_ & Et' & _ & _ & _ & Emu'). eapply (sdk_ok_step (k + 2) k s); [by constructor|done|done|exact Et'|exact Emu'|].
    cbn. rewrite Es2, insert_insert_eq. intros r sr [[<- <-]|[_ Hr]]%lookup_insert_Some; [right|by left].
    exists tp. split; [done|]. split; [|split; [intros m [= <-]; by exists x, tx|]].
    - eexists. cbn. rewrite lookup_insert_eq. split; [done|]. cbn. by subst sg.
    - intros seg. cbn. rewrite lookup_insert_eq. intros [= <-]. by subst sg. }
  split; [done|]. split; [exact (sa_fresh _ _ _ _ _ _ _ _ Hst)|]. split; [done|].
  split; [cbn; by rewrite Es2, insert_insert_eq|]. cbn. rewrite !lookup_insert_eq.
  destruct (sa_txns _ _ _ _ _ _ _ _ Hst) as (slab & v & E & _ & Hstack').
  rewrite E, lookup_insert_eq in Ht2. injection Ht2 as <-. subst sg.
  repeat split; try done; apply Hstack'.
Qed.

(** *** The other calls

    Each keeps the state in order, from room for [k + 2] additions to room for [k]. *)

(** A call that changes the memory of axiom only. *)
Definition keeps_sdk k s kids {T : Type} (m : prog T) : Prop :=
  exists r s' kids', m s = Some (r, s') /\ sdk_ok k s' kids'.

Lemma keeps_sdk_ret k s kids {T : Type} (r : T) : sdk_ok (k + 2) s kids -> keeps_sdk k s kids (mret r).
Proof.
  intros [Hm H2' H3 H4]. exists r, s, kids. split; [done|]. constructor; [|done..]. eapply memory_ok_le; [|exact Hm]. lia.
Qed.

(** The lock of a transaction, or none. *)
Definition lock_of s (m : option mutex_id) : Prop :=
  forall m', m = Some m' -> exists x, m' = TxnLock x /\ is_Some (sd_txns s !! x).

(** The transactions of the API while a lock is held. *)
Definition txns_held (m : option mutex_id) (txns : gmap sdk_txn_ptr newrelic_txn_t) : gmap sdk_txn_ptr newrelic_txn_t :=
  match m with
  | Some (TxnLock x) => alter (fun tx => mk_sdk_txn (tx_txn tx) (mk_mutex true true)) x txns
  | _ => txns
  end.

Definition held (m : option mutex_id) s0 s1 : Prop :=
  sd_txns s1 = txns_held m (sd_txns s0) /\ sd_mutex s1 = sd_mutex s0.

Lemma held_txn m s0 s1 x tx : held m s0 s1 -> sd_txns s0 !! x = Some tx -> txn_of x s1 = Some (tx_txn tx, s1).
Proof.
  intros [E _] Hx.
  assert (Hl : exists tx', sd_txns s1 !! x = Some tx' /\ tx_txn tx' = tx_txn tx).
  { rewrite E. destruct m as [[]|]; cbn [txns_held]; try by exists tx.
    destruct (decide (p = x)) as [->|Hne].
    - rewrite lookup_alter_eq, Hx. by eexists.
    - rewrite lookup_alter_ne by done. by exists tx. }
  destruct Hl as (tx' & Hl & <-). by apply txn_of_run.
Qed.

Lemma alter_held x tx (txns : gmap sdk_txn_ptr newrelic_txn_t) :
  txns !! x = Some tx -> txns_held (Some (TxnLock x)) txns = <[x := mk_sdk_txn (tx_txn tx) (mk_mutex true true)]> txns.
Proof.
  intros Hx. cbn [txns_held]. apply map_eq. intros y. destruct (decide (y = x)) as [->|Hne].
  - by rewrite lookup_alter_eq, lookup_insert_eq, Hx.
  - by rewrite lookup_alter_ne, lookup_insert_ne by congruence.
Qed.

(** A call that takes a lock, runs [body] and lets go. *)
Lemma locked_section_run k k' s kids (m : option mutex_id) {T U : Type} (body : prog T) (f : T -> U) :
  sdk_ok k s kids -> lock_of s m ->
  (forall s1, sd_world s1 = sd_world s -> sd_segments s1 = sd_segments s -> sd_events s1 = sd_events s -> held m s s1 ->
     exists r s2 kids2, body s1 = Some (r, s2) /\ held m s s2
       /\ (forall p sg, sd_segments s2 !! p = Some sg ->
             sd_segments s !! p = Some sg \/ wrapper_ok (w_segments (sd_world s2)) (sd_txns s) sg)
       /\ memory_ok k' (sd_world s2) kids2 /\ grows (sd_world s) (sd_world s2)) ->
  exists r s1 s2 s3 kids3, (_ ← nrt_mutex_lock m; r ← body; _ ← nrt_mutex_unlock m; mret (f r)) s = Some (f r, s3)
    /\ sd_axiom s1 = sd_axiom s /\ sd_axiom s3 = sd_axiom s2 /\ sd_world s1 = sd_world s /\ sd_segments s1 = sd_segments s /\ sd_events s1 = sd_events s /\ held m s s1
    /\ body s1 = Some (r, s2) /\ sd_segments s3 = sd_segments s2 /\ sd_world s3 = sd_world s2 /\ sd_events s3 = sd_events s2
    /\ sd_txns s3 = sd_txns s /\ sdk_ok k' s3 kids3.
Proof.
  intros Hok Hm Hbody. destruct m as [m|].
  - destruct (Hm m eq_refl) as (x & -> & tx & Hx). pose proof (so_txns _ _ _ Hok x tx Hx) as [_ Hfree].
    set (s1 := add_trace (Lock (TxnLock x)) (relock x tx true s)).
    assert (Hheld1 : held (Some (TxnLock x)) s s1) by (split; [by rewrite (alter_held x tx)|done]).
    destruct (Hbody s1) as (r & s2 & kids2 & Hrun & [Et Emu] & Hsegs & Hm2 & Hg2); try done.
    rewrite (alter_held x tx) in Et by done.
    erewrite bind_run by by apply lock_txn_run. cbv beta. erewrite bind_run by exact Hrun. cbv beta.
    erewrite bind_run by (apply unlock_txn_run; [rewrite Et; apply lookup_insert_eq|done]).
    assert (Et3 : <[x := mk_sdk_txn (tx_txn tx) free_lock]> (sd_txns s2) = sd_txns s) by (rewrite Et; by apply relock_twice).
    eexists r, s1, s2, _, kids2. split; [reflexivity|]. do 11 (split; [done|]).
    by apply (sdk_ok_step k k' s _ kids kids2).
  - destruct (Hbody s) as (r & s2 & kids2 & Hrun & [Et Emu] & Hsegs & Hm2 & Hg2); try done.
    erewrite bind_run by done. cbv beta. erewrite bind_run by exact Hrun. cbv beta. erewrite bind_run by done.
    exists r, s, s2, s2, kids2. split; [reflexivity|]. do 11 (split; [done|]).
    by apply (sdk_ok_step k k' s _ kids kids2).
Qed.

(** The same when no wrapper is written. *)
Lemma locked_section k s kids (m : option mutex_id) {T U : Type} (body : prog T) (f : T -> U) :
  sdk_ok (k + 2) s kids -> lock_of s m ->
  (forall s1, sd_world s1 = sd_world s -> sd_segments s1 = sd_segments s -> sd_events s1 = sd_events s -> held m s s1 ->
     exists r s2 kids2, body s1 = Some (r, s2) /\ held m s s2 /\ sd_segments s2 = sd_segments s
       /\ memory_ok k (sd_world s2) kids2 /\ grows (sd_world s) (sd_world s2)) ->
  keeps_sdk k s kids (_ ← nrt_mutex_lock m; r ← body; _ ← nrt_mutex_unlock m; mret (f r)).
Proof.
  intros Hok Hm Hbody. destruct (locked_section_run (k + 2) k s kids m body f Hok Hm) as (r & s1 & s2 & s3 & kids3 & Hrun & H');
    [|exists (f r), s3, kids3; split; [done|apply H']].
  intros s1 H1' H2' H3' H4'. destruct (Hbody s1 H1' H2' H3' H4') as (r & s2 & kids2 & Hrun & Hh & Es & Hr).
  exists r, s2, kids2. split; [done|]. split; [done|]. split; [|done]. rewrite Es. by left.
Qed.

Lemma supportability_run k s kids tp name :
  memory_ok (k + 1) (sd_world s) kids -> 0 <= k -> is_Some (w_txns (sd_world s) !! tp) ->
  strlen (str "Supportability/C/api/" ++ c_str name) < 2 ^ 31 - 1 ->
  exists s', newrelic_add_api_supportability_metric (Some tp) (Some name) s = Some (tt, s')
    /\ memory_ok k (sd_world s') kids /\ grows (sd_world s) (sd_world s') /\ same_api s s'
    /\ sd_segments s' = sd_segments s
    /\ (forall t, w_txns (sd_world s) !! tp = Some t ->
          exists table, w_txns (sd_world s') !! tp = Some (with_unscoped_metrics table t))
    /\ w_segments (sd_world s') = w_segments (sd_world s).
Proof.
  intros Hm Hk [t Ht] Hname. unfold newrelic_add_api_supportability_metric, on_txn.
  erewrite bind_run by done. cbv beta.
  destruct (mo_txns _ _ _ Hm tp t Ht) as [_ _ Hmetrics _ _].
  destruct (add_unscoped_spec k t (str "Supportability/C/api/" ++ c_str name) 0) as (table & E & Hleft); [done|done|done|].
  destruct (memory_ok_txn (k + 1) k (sd_world s) kids tp t (with_unscoped_metrics (Some table) t)) as [Hm' Hg'];
    [done|lia|done|by repeat split|done|].
  eexists. split.
  { erewrite on_world_run; [reflexivity|]. cbn [sd_world add_trace]. rewrite Ht. cbn [mbind option_bind]. rewrite E. reflexivity. }
  cbn [sd_world set_world sd_segments]. split; [done|]. split; [done|]. split; [by repeat split|]. split; [done|].
  split; [|done]. intros t' Ht'. exists (Some table). cbn. rewrite lookup_insert_eq. congruence.
Qed.

(** Programs that do the same are interchangeable. *)
Lemma keeps_sdk_ext k s kids {T : Type} (m m' : prog T) :
  (forall s, m s = m' s) -> keeps_sdk k s kids m' -> keeps_sdk k s kids m.
Proof. intros E (r & s' & kids' & Hrun & Hok). exists r, s', kids'. by rewrite E. Qed.

(** A change of a transaction in a program. *)
Lemma on_txn_run k k' s kids tp {T : Type} (f : option (nrtxn_t S P) -> option (T * option (nrtxn_t S P))) t r t' :
  memory_ok k (sd_world s) kids -> k' <= k -> w_txns (sd_world s) !! tp = Some t -> f (Some t) = Some (r, Some t') ->
  same_frame t t' -> metrics_left k' t' ->
  let s' := set_world (put_txn tp t' (sd_world s)) (add_trace (Uses tp) s) in
  on_txn tp f s = Some (r, s') /\ memory_ok k' (sd_world s') kids /\ grows (sd_world s) (sd_world s').
Proof.
  intros Hm Hk Ht Hf Hsame Hleft. split; [|by apply (memory_ok_txn k k' (sd_world s) kids tp t t')].
  unfold on_txn. erewrite bind_run by done. apply on_world_run. cbn [sd_world add_trace]. rewrite Ht.
  cbn [mbind option_bind]. by rewrite Hf.
Qed.

(** The same for a call that takes no lock. *)
Lemma unlocked_call k s kids {T : Type} (m : prog T) r s' kids' :
  sdk_ok (k + 2) s kids -> m s = Some (r, s') -> memory_ok k (sd_world s') kids' -> grows (sd_world s) (sd_world s') ->
  sd_txns s' = sd_txns s -> sd_mutex s' = sd_mutex s -> sd_segments s' = sd_segments s -> keeps_sdk k s kids m.
Proof.
  intros Hok Hrun Hm Hg Et Emu Es. exists r, s', kids'. split; [done|].
  eapply (sdk_ok_step (k + 2) k s); [done..|]. rewrite Es. by left.
Qed.

Lemma txn_left k s kids x tx :
  sdk_ok (k + 2) s kids -> sd_txns s !! x = Some tx ->
  exists t, w_txns (sd_world s) !! tx_txn tx = Some t /\ metrics_left k t.
Proof.
  intros Hok Hx. destruct (so_txns _ _ _ Hok x tx Hx) as [[t Ht] _]. exists t. split; [done|].
  destruct (mo_txns _ _ _ (so_memory _ _ _ Hok) _ t Ht) as [_ _ Hm _]. eapply metrics_left_le; [|exact Hm]. lia.
Qed.

Lemma ignore_transaction_ok k s kids x :
  sdk_ok (k + 2) s kids -> is_Some (sd_txns s !! x) -> keeps_sdk k s kids (newrelic_ignore_transaction (Some x)).
Proof.
  intros Hok [tx Hx]. destruct (txn_left k s kids x tx Hok Hx) as (t & Ht & Hleft).
  destruct (on_txn_run (k + 2) k s kids (tx_txn tx) (fun t => Some (nr_txn_ignore t)) t true
    (with_status (set_ignore (t_status t)) t)) as (Hrun & Hm & Hg); [apply Hok|lia|done|done|by repeat split|done|].
  eapply unlocked_call; [done| |exact Hm|exact Hg|done..].
  unfold newrelic_ignore_transaction. erewrite bind_run by by apply txn_of_run. exact Hrun.
Qed.

Lemma set_transaction_name_ok k s kids x name :
  sdk_ok (k + 2) s kids -> is_Some (sd_txns s !! x) -> keeps_sdk k s kids (newrelic_set_transaction_name (Some x) name).
Proof.
  intros Hok [tx Hx]. destruct name as [name|]; [|by apply keeps_sdk_ret].
  destruct (txn_left k s kids x tx Hok Hx) as (t & Ht & Hleft).
  destruct (nr_txn_set_path (Some t) (Some name) NR_PATH_TYPE_CUSTOM NR_OK_TO_OVERWRITE) as [ret t2] eqn:E.
  assert (exists t', t2 = Some t' /\ same_frame t t' /\ metrics_left k t') as (t' & -> & Hsame & Hleft').
  { unfold nr_txn_set_path in E. repeat case_match; injection E as _ <-; eexists; (split; [done|]); by repeat split. }
  destruct (on_txn_run (k + 2) k s kids (tx_txn tx)
    (fun t => Some (nr_txn_set_path t (Some name) NR_PATH_TYPE_CUSTOM NR_OK_TO_OVERWRITE)) t ret t')
    as (Hrun & Hm & Hg); [apply Hok|lia|done|by rewrite E|done|done|].
  eapply (unlocked_call k s kids _ (match ret with NR_SUCCESS => true | NR_FAILURE => false end));
    [done| |exact Hm|exact Hg|done..].
  unfold newrelic_set_transaction_name. erewrite bind_run by by apply txn_of_run. cbv beta.
  erewrite bind_run by exact Hrun. by destruct ret.
Qed.

(** The lock of a live transaction. *)
Lemma lock_of_txn s x : is_Some (sd_txns s !! x) -> lock_of s (Some (TxnLock x)).
Proof. intros Hx m [= <-]. by exists x. Qed.

Lemma set_transaction_timing_ok k s kids x start duration :
  sdk_ok (k + 2) s kids -> 0 <= k -> is_Some (sd_txns s !! x) ->
  keeps_sdk k s kids (newrelic_set_transaction_timing (Some x) start duration).
Proof.
  intros Hok Hk Hx.
  eapply (keeps_sdk_ext _ _ _ _ (_ ← nrt_mutex_lock (Some (TxnLock x));
    ret ← (tp ← txn_of x; _ ← newrelic_add_api_supportability_metric (Some tp) (Some (str "set_transaction_timing"));
           _ ← traced (Uses tp); on_world (nr_txn_set_timing (Some tp) start duration));
    _ ← nrt_mutex_unlock (Some (TxnLock x)); mret ret)).
  { intros s0. unfold newrelic_set_transaction_timing, mbind, prog_bind. by repeat case_match; simplify_eq. }
  apply (locked_section k s kids _ _ id); [done|by apply lock_of_txn|]. intros s1 Ew Es _ Hheld. destruct Hx as [tx Hx].
  destruct (so_txns _ _ _ Hok x tx Hx) as [Hin _].
  destruct (supportability_run (k + 1) s1 kids (tx_txn tx) (str "set_transaction_timing"))
    as (s2 & Hrun & Hm2 & Hg2 & Hapi & Hsegs & _);
    [rewrite Ew; replace (k + 1 + 1) with (k + 2) by lia; apply Hok|lia|by rewrite Ew|by vm_compute|].
  destruct (nr_txn_set_timing_ok (k + 1) (sd_world s2) kids (tx_txn tx) start duration Hm2) as (b & w3 & Htiming & Hm3 & Hg3);
    [apply (gr_txns _ _ Hg2); by rewrite Ew|].
  eexists b, _, kids. split.
  { erewrite bind_run by by eapply held_txn. cbv beta. erewrite bind_run by exact Hrun. cbv beta.
    erewrite bind_run by done. cbv beta. apply on_world_run. exact Htiming. }
  destruct Hapi as (_ & Et & _ & _ & _ & Emu). destruct Hheld as [E1 E2].
  split; [split; [exact (eq_trans Et E1)|exact (eq_trans Emu E2)]|]. split; [cbn; congruence|]. cbn [sd_world set_world].
  split; [eapply memory_ok_le; [|exact Hm3]; lia|]. rewrite <- Ew. by eapply grows_trans.
Qed.

(** A value [newrelic_record_custom_metric] refuses or can convert. *)
Definition convertible (v : double) : Prop :=
  isnan v || isinf v = true \/ is_Some (double_to_u64 (double_mul NR_TIME_DIVISOR_MS_D v)).

Lemma add_custom_metric_run k (t : nrtxn_t S P) name v :
  metrics_left (k + 1) t -> 0 <= k -> strlen name < 2 ^ 31 - 1 -> convertible v ->
  exists r t', nr_txn_add_custom_metric (Some t) (Some name) v = Some (r, Some t') /\ same_frame t t' /\ metrics_left k t'.
Proof.
  intros Hleft Hk Hname Hv. assert (Hless : metrics_left k t) by (eapply metrics_left_le; [|exact Hleft]; lia).
  unfold nr_txn_add_custom_metric. assert (Hrefused : exists r t', Some (NR_FAILURE, Some t) = Some (r, Some t') /\ same_frame t t' /\ metrics_left k t')
    by (exists NR_FAILURE, t; split; [done|]; split; [by repeat split|done]).
  destruct (recording (t_status t) =? 0); [done|]. destruct (isnan v || isinf v) eqn:Ev; [done|]. destruct Hv as [?|[d Hd]]; [congruence|].
  rewrite Hd. cbn [mbind option_bind]. destruct Hleft as (table & es & Htable & Hrep & Hroom). unfold add_unscoped, nrm_add.
  rewrite Htable. destruct (nrm_add_internal_spec table es name 0 1 d d d d (u64 (d * d)) Hrep) as (table' & -> & _ & Hrep');
    [unfold room; lia|done|]. cbn [mbind option_bind]. eexists NR_SUCCESS, _. split; [reflexivity|].
  split; [by repeat split|]. eexists table', _. split; [done|]. split; [exact Hrep'|].
  pose proof (length_spec_change (max_size table) 0 es (c_str name) (view_add 1 d d d d (u64 (d * d)))). lia.
Qed.

Lemma record_custom_metric_ok k s kids x name v :
  sdk_ok (k + 2) s kids -> 0 <= k -> is_Some (sd_txns s !! x) -> strlen name < 2 ^ 31 - 1 -> convertible v ->
  keeps_sdk k s kids (newrelic_record_custom_metric (Some x) (Some name) v).
Proof.
  intros Hok Hk Hx Hname Hv.
  eapply (keeps_sdk_ext _ _ _ _ (_ ← nrt_mutex_lock (Some (TxnLock x));
    ret ← (tp ← txn_of x; on_txn tp (fun t => nr_txn_add_custom_metric t (Some name) v));
    _ ← nrt_mutex_unlock (Some (TxnLock x)); mret (bool_decide (NR_SUCCESS = ret)))).
  { intros s0. unfold newrelic_record_custom_metric, mbind, prog_bind. by repeat case_match; simplify_eq. }
  apply (locked_section k s kids _ _ (fun ret => bool_decide (NR_SUCCESS = ret))); [done|by apply lock_of_txn|].
  intros s1 Ew Es _ Hheld. destruct Hx as [tx Hx]. destruct (so_txns _ _ _ Hok x tx Hx) as [[t Ht] _].
  destruct (mo_txns _ _ _ (so_memory _ _ _ Hok) _ t Ht) as [_ _ Hm _].
  destruct (add_custom_metric_run (k + 1) t name v) as (r & t' & Hadd & Hsame & Hleft);
    [by replace (k + 1 + 1) with (k + 2) by lia|lia|done|done|].
  destruct (on_txn_run (k + 2) k s1 kids (tx_txn tx) (fun t => nr_txn_add_custom_metric t (Some name) v) t r t')
    as (Hrun & Hm' & Hg'); [rewrite Ew; apply Hok|lia|by rewrite Ew|done|done|eapply metrics_left_le; [|exact Hleft]; lia|].
  eexists r, _, kids. split; [erewrite bind_run by (by eapply held_txn); exact Hrun|].
  destruct Hheld as [E1 E2]. split; [by split|]. split; [done|]. split; [done|]. by rewrite <- Ew.
Qed.

Lemma read_txn_run s tp t : w_txns (sd_world s) !! tp = Some t -> read_txn tp s = Some (t, add_trace (Uses tp) s).
Proof. intros Ht. unfold read_txn. do 2 erewrite bind_run by done. by apply of_option_run. Qed.

(** Reading the clock. *)
Lemma read_clock_ok k s kids :
  memory_ok k (sd_world s) kids ->
  exists now w, on_world (fun w => Some (read_clock clock w)) s = Some (now, set_world w s)
    /\ memory_ok k w kids /\ grows (sd_world s) w /\ w_txns w = w_txns (sd_world s).
Proof.
  intros [Hw Hsize Hlive]. destruct (read_clock clock (sd_world s)) as [now w] eqn:E.
  assert (Ew : w = mk_world (w_segments (sd_world s)) (w_txns (sd_world s)) (w_stacks (sd_world s)) (w_mem (sd_world s))
                 (Datatypes.S (w_tick (sd_world s)))).
  { unfold read_clock in E. destruct (clock (w_tick (sd_world s))). by injection E as _ <-. }
  exists now, w. split; [apply on_world_run; by rewrite E|]. subst w. split; [|by split; [apply grows_same|]].
  constructor; [by apply world_ok_clock|done|done].
Qed.

Lemma notice_error_locked_ok k s kids tp priority msg cls backtrace t :
  memory_ok k (sd_world s) kids -> w_txns (sd_world s) !! tp = Some t ->
  exists s', notice_error_locked clock backtrace tp priority msg cls s = Some (tt, s')
    /\ memory_ok k (sd_world s') kids /\ grows (sd_world s) (sd_world s')
    /\ sd_txns s' = sd_txns s /\ sd_mutex s' = sd_mutex s /\ sd_segments s' = sd_segments s.
Proof.
  intros Hm Ht. unfold notice_error_locked. erewrite bind_run by by apply read_txn_run. cbv beta.
  set (s1 := add_trace (Uses tp) s).
  assert (Hskip : exists s', (mret tt : prog unit) s1 = Some (tt, s') /\ memory_ok k (sd_world s') kids /\ grows (sd_world s) (sd_world s')
    /\ sd_txns s' = sd_txns s /\ sd_mutex s' = sd_mutex s /\ sd_segments s' = sd_segments s).
  { exists s1. split; [done|]. split; [done|]. split; [apply grows_refl|done]. }
  destruct (0 =? err_enabled (t_options t)); [exact Hskip|]. destruct (0 =? recording (t_status t)); [exact Hskip|].
  destruct (match t_error t with Some _ => _ | None => _ end); [exact Hskip|].
  destruct (nr_txn_record_error_worthy (Some t) priority); [|exact Hskip].
  assert (exists json, newrelic_get_stack_trace_as_json backtrace s1 = Some (json, s1)) as [json Hjson]
    by (unfold newrelic_get_stack_trace_as_json; destruct backtrace; by eexists).
  erewrite bind_run by exact Hjson. cbv beta.
  destruct (read_clock_ok k s1 kids Hm) as (now & w & Hclock & Hm1 & Hg1 & Et1).
  erewrite bind_run by exact Hclock. cbv beta.
  assert (exists t', nr_txn_record_error (Some t) priority msg cls json now = Some t' /\ same_frame t t'
    /\ t_unscoped_metrics t' = t_unscoped_metrics t) as (t' & Ht' & Hsame & Hun).
  { unfold nr_txn_record_error. repeat case_match; eexists; (split; [done|]); by repeat split. }
  destruct (mo_txns _ _ _ Hm tp t Ht) as [_ _ Hleft _].
  destruct (on_txn_run k k (set_world w s1) kids tp
    (fun t => Some (tt, nr_txn_record_error t priority msg cls json now)) t tt t') as (Hrun & Hm2 & Hg2);
    [done|lia|cbn; by rewrite Et1|by rewrite Ht'|done|unfold metrics_left; by rewrite Hun|].
  rewrite Hrun. eexists. split; [reflexivity|]. split; [done|]. split; [by eapply grows_trans|done].
Qed.

Lemma notice_error_ok k s kids x priority msg cls backtrace :
  sdk_ok (k + 2) s kids -> 0 <= k -> is_Some (sd_txns s !! x) ->
  keeps_sdk k s kids (newrelic_notice_error clock backtrace (Some x) priority msg cls).
Proof.
  intros Hok Hk Hx. unfold newrelic_notice_error.
  destruct (from_option _ true msg); [by apply keeps_sdk_ret|]. destruct (from_option _ true cls); [by apply keeps_sdk_ret|].
  eapply (keeps_sdk_ext _ _ _ _ (_ ← nrt_mutex_lock (Some (TxnLock x));
    ret ← (tp ← txn_of x; notice_error_locked clock backtrace tp priority msg cls);
    _ ← nrt_mutex_unlock (Some (TxnLock x)); mret tt)).
  { intros s0. unfold mbind, prog_bind. by repeat case_match; simplify_eq. }
  apply (locked_section k s kids _ _ (fun _ => tt)); [done|by apply lock_of_txn|].
  intros s1 Ew Es _ [E1 E2]. destruct Hx as [tx Hx]. destruct (so_txns _ _ _ Hok x tx Hx) as [[t Ht] _].
  destruct (notice_error_locked_ok (k + 2) s1 kids (tx_txn tx) priority msg cls backtrace t) as (s2 & Hrun & Hm & Hg & Et & Emu & Esg);
    [rewrite Ew; apply Hok|by rewrite Ew|].
  eexists tt, s2, kids. split; [erewrite bind_run by (by eapply held_txn); exact Hrun|].
  split; [split; congruence|]. split; [congruence|]. split; [eapply memory_ok_le; [|exact Hm]; lia|by rewrite <- Ew].
Qed.

Lemma add_user_parameter_ok k s kids tp key obj t :
  memory_ok k (sd_world s) kids -> w_txns (sd_world s) !! tp = Some t ->
  exists r s', nr_txn_add_user_custom_parameter tp key obj s = Some (r, s') /\ sd_world s' = sd_world s
    /\ sd_txns s' = sd_txns s /\ sd_mutex s' = sd_mutex s /\ sd_segments s' = sd_segments s.
Proof.
  intros Hm Ht. unfold nr_txn_add_user_custom_parameter. erewrite bind_run by by apply read_txn_run. cbv beta.
  destruct (negb _); [by do 2 eexists|]. destruct (0 =? _); [by do 2 eexists|]. unfold call. do 2 eexists. by split.
Qed.

Lemma add_attribute_ok k s kids x key obj :
  sdk_ok (k + 2) s kids -> 0 <= k -> is_Some (sd_txns s !! x) -> keeps_sdk k s kids (newrelic_add_attribute (Some x) key obj).
Proof.
  intros Hok Hk Hx. unfold newrelic_add_attribute.
  apply (locked_section k s kids _ _ id); [done|by apply lock_of_txn|].
  intros s1 Ew Es _ [E1 E2]. destruct Hx as [tx Hx]. destruct (so_txns _ _ _ Hok x tx Hx) as [[t Ht] _].
  assert (Hm : memory_ok k (sd_world s1) kids) by (rewrite Ew; eapply memory_ok_le; [|apply Hok]; lia).
  assert (Hdone : exists r s2 kids2, (mret false : prog bool) s1 = Some (r, s2) /\ held (Some (TxnLock x)) s s2
    /\ sd_segments s2 = sd_segments s /\ memory_ok k (sd_world s2) kids2 /\ grows (sd_world s) (sd_world s2)).
  { exists false, s1, kids. split; [done|]. split; [by split|]. split; [done|]. split; [done|]. rewrite Ew. apply grows_refl. }
  destruct key as [key|]; [|exact Hdone]. destruct obj as [obj|]; [|exact Hdone].
  destruct (add_user_parameter_ok k s1 kids (tx_txn tx) key obj t Hm) as (r & s2 & Hrun & Ew2 & Et2 & Emu2 & Es2); [by rewrite Ew|].
  exists (match r with NR_SUCCESS => true | NR_FAILURE => false end), s2, kids. split.
  { erewrite bind_run by by eapply held_txn. cbv beta. erewrite bind_run by exact Hrun. by destruct r. }
  split; [split; congruence|]. split; [congruence|]. rewrite Ew2. split; [done|]. rewrite Ew. apply grows_refl.
Qed.

(** The lock of a wrapper. *)
Lemma lock_of_wrapper k s kids p sg : sdk_ok k s kids -> sd_segments s !! p = Some sg -> lock_of s (sg_txn_lock sg).
Proof.
  intros Hok Hp m Hm. destruct (so_segments _ _ _ Hok p sg Hp) as (tp & _ & _ & Hlock & _).
  destruct (Hlock m Hm) as (x & tx & -> & Hx & _). exists x. split; [done|by exists tx].
Qed.

(** The transaction of a segment is there. *)
Lemma owned_txn k w kids tp p : memory_ok k w kids -> owned (w_segments w) tp p -> is_Some (w_txns w !! tp).
Proof.
  intros Hm (s & Hs & Ho). destruct (sg_txn _ _ (wo_segments _ _ (mo_world _ _ _ Hm) p s Hs)) as (tq & E & Hin).
  assert (tp = tq) as -> by congruence. done.
Qed.

Lemma set_segment_timing_ok k s kids p start duration :
  sdk_ok (k + 2) s kids -> is_Some (sd_segments s !! p) ->
  keeps_sdk k s kids (newrelic_set_segment_timing (Some p) start duration).
Proof.
  intros Hok [sg Hp]. destruct (so_segments _ _ _ Hok p sg Hp) as (tp & Htp & Hown & _).
  eapply (keeps_sdk_ext _ _ _ _ (sg ← segment_of p; _ ← nrt_mutex_lock (sg_txn_lock sg);
    ret ← (_ ← use_segment (sg_segment sg); on_world (nr_segment_set_timing (Some (sg_segment sg)) start duration));
    _ ← nrt_mutex_unlock (sg_txn_lock sg); mret ret)).
  { intros s0. unfold newrelic_set_segment_timing, mbind, prog_bind. by repeat case_match; simplify_eq. }
  unfold keeps_sdk. erewrite bind_run by by apply segment_of_run. cbv beta.
  apply (locked_section k s kids _ _ id); [done|by eapply lock_of_wrapper|]. intros s1 Ew Es _ [E1 E2].
  destruct (nr_segment_set_timing_ok (k + 2) (sd_world s1) kids tp (sg_segment sg) start duration) as (w & Hrun & Hm & Hg);
    [rewrite Ew; apply Hok|by rewrite Ew|].
  exists true. eexists _, kids. split.
  { erewrite bind_run by (apply (use_segment_run _ _ tp); by rewrite Ew). apply on_world_run. exact Hrun. }
  split; [by split|]. split; [done|]. split; [eapply memory_ok_le; [|exact Hm]; lia|]. by rewrite <- Ew.
Qed.

Lemma set_segment_parent_root_ok k s kids p :
  sdk_ok (k + 2) s kids -> 0 <= k -> is_Some (sd_segments s !! p) ->
  keeps_sdk k s kids (newrelic_set_segment_parent_root realloc_ok (Some p)).
Proof.
  intros Hok Hk [sp Hp]. destruct (so_segments _ _ _ Hok p sp Hp) as (tp & Htp & Hop & _).
  destruct (owned_txn _ _ _ _ _ (so_memory _ _ _ Hok) Hop) as [t Ht].
  unfold newrelic_set_segment_parent_root, keeps_sdk. erewrite bind_run by by apply segment_of_run. cbv beta. rewrite Htp.
  erewrite bind_run by by apply read_txn_run. cbv beta. set (s0 := add_trace (Uses tp) s).
  assert (Hok0 : sdk_ok (k + 2) s0 kids) by (by destruct Hok; constructor).
  destruct (t_segment_root t) as [r|] eqn:Er; [|exact (keeps_sdk_ret k s0 kids false Hok0)].
  eapply (keeps_sdk_ext k s0 kids _ (_ ← nrt_mutex_lock (sg_txn_lock sp);
    ret ← (_ ← newrelic_add_api_supportability_metric (Some tp) (Some (str "set_segment_parent_root"));
           t ← read_txn tp; on_world (nr_segment_set_parent realloc_ok (Some (sg_segment sp)) (t_segment_root t)));
    _ ← nrt_mutex_unlock (sg_txn_lock sp); mret ret)).
  { intros s1. unfold mbind, prog_bind. by repeat case_match; simplify_eq. }
  apply (locked_section k s0 kids _ _ id); [done|exact (lock_of_wrapper (k + 2) s0 kids p sp Hok0 Hp)|]. intros s1 Ew Es _ [E1 E2].
  change (sd_world s0) with (sd_world s) in Ew.
  destruct (supportability_run (k + 1) s1 kids tp (str "set_segment_parent_root"))
    as (s2 & Hrun & Hm2 & Hg2 & (_ & Et2 & _ & _ & _ & Emu2) & Es2 & Hroot & _);
    [rewrite Ew; replace (k + 1 + 1) with (k + 2) by lia; apply Hok|lia|rewrite Ew; by exists t|by vm_compute|].
  rewrite <- Ew in Ht. destruct (Hroot t Ht) as (table & Ht2).
  assert (Hor : owned (w_segments (sd_world s2)) tp r).
  { apply (gr_owned _ _ Hg2). rewrite Ew in Ht |- *. by apply (tl_root _ _ _ _ (mo_txns _ _ _ (so_memory _ _ _ Hok) _ t Ht)). }
  rewrite <- Ew in Hop. apply (gr_owned _ _ Hg2) in Hop.
  destruct (nr_segment_set_parent_ok realloc_ok Hroomy (k + 1) (sd_world s2) kids tp tp (sg_segment sp) r Hm2 ltac:(lia) Hop Hor)
    as (b & w3 & kids3 & Hset & Hm3 & Hg3).
  exists b. eexists _, kids3. split.
  { erewrite bind_run by exact Hrun. cbv beta. erewrite bind_run by by apply read_txn_run. cbv beta.
    apply on_world_run. cbn. rewrite Er. exact Hset. }
  split; [split; [exact (eq_trans Et2 E1)|exact (eq_trans Emu2 E2)]|]. split; [exact (eq_trans Es2 Es)|].
  split; [eapply memory_ok_le; [|exact Hm3]; lia|].
  change (sd_world s0) with (sd_world s). rewrite <- Ew. by eapply grows_trans.
Qed.

(** *** Ending a segment *)

Lemma read_segment_run s p sg tp :
  w_segments (sd_world s) !! p = Some sg -> s_txn sg = Some tp -> read_segment p s = Some (sg, add_trace (Uses tp) s).
Proof.
  intros Hp Ho. unfold read_segment. erewrite bind_run by (apply use_segment_run; by exists sg). cbv beta.
  erewrite bind_run by done. by apply of_option_run.
Qed.

Lemma segment_destroy_run s p sg tp :
  sd_segments s !! p = Some sg -> owned (w_segments (sd_world s)) tp (sg_segment sg) ->
  exists s', newrelic_segment_destroy (Some (Some p)) s = Some (Some None, s') /\ sd_world s' = sd_world s
    /\ sd_segments s' = delete p (sd_segments s) /\ same_api s s'.
Proof.
  intros Hp (seg & Hseg & Ho). unfold newrelic_segment_destroy.
  erewrite bind_run by by apply segment_of_run. cbv beta. erewrite bind_run by by apply read_segment_run. cbv beta.
  set (s1 := add_trace (Uses tp) s). assert (Hp1 : sd_segments s1 !! p = Some sg) by done.
  destruct (s_type seg).
  - erewrite bind_run by done. eexists. split; [reflexivity|]. by repeat split.
  - erewrite bind_run by by apply update_segment_run. eexists. split; [reflexivity|]. cbn.
    rewrite delete_insert_eq. by repeat split.
  - erewrite bind_run by by apply update_segment_run. eexists. split; [reflexivity|]. cbn.
    rewrite delete_insert_eq. by repeat split.
Qed.

(** The part of [newrelic_end_segment] under the lock, for a custom segment. *)
Definition end_custom (tq : txn_ptr) (sp : seg_ptr) : prog unit :=
  _ ← on_world (nr_segment_end realloc_ok clock (Some sp));
  t ← read_txn tq;
  seg ← read_segment sp;
  name ← of_option (pool_get (t_trace_strings t) (s_name seg));
  _ ← on_world (nr_segment_add_metric realloc_ok (Some sp) name true);
  mret tt.

(** What ending leaves in the segment. *)
Definition ended (w : world S P M) (t : nrtxn_t S P) (seg seg' : nr_segment_t) : Prop :=
  s_stop_time seg' = (if s_stop_time seg =? 0
                      then nr_time_duration (t_abs_start_time t) (fst (read_clock clock w)) else s_stop_time seg)
  /\ s_start_time seg' = s_start_time seg /\ s_parent seg' = s_parent seg /\ s_children seg' = s_children seg
  /\ s_name seg' = s_name seg.

(** The scoped metric a named segment gets at its end. *)
Definition gets_metric (t : nrtxn_t S P) (seg seg' : nr_segment_t) : Prop :=
  exists pool ss, t_trace_strings t = Some pool /\ pool_holds pool ss
    /\ forall name, 0 < s_name seg -> ss !! Z.to_nat (s_name seg - 1) = Some name ->
         exists ok l v', (match s_metrics seg with Some v => vrep v l | None => l = [] end)
           /\ s_metrics seg' = Some v'
           /\ vrep v' (if (ok : bool) then l ++ [Some (mk_segment_metric name true)] else l).

Lemma pool_get_name k segments tp (t : nrtxn_t S P) p seg :
  names_left k segments tp t -> segments !! p = Some seg -> s_txn seg = Some tp ->
  exists pool ss name, t_trace_strings t = Some pool /\ pool_holds pool ss
    /\ pool_get (t_trace_strings t) (s_name seg) = Some name
    /\ forall n, 0 < s_name seg -> ss !! Z.to_nat (s_name seg - 1) = Some n -> exists n', name = Some n' /\ c_str n' = n.
Proof.
  intros (pool & ss & Hpool & Hholds & _ & Hnames) Hp Ho. rewrite Hpool.
  destruct (Hnames p seg Hp Ho) as [E|[Hpos [n Hn]]].
  - exists pool, ss, None. rewrite E. split; [done|]. split; [done|]. split; [apply pool_get_zero|]. lia.
  - destruct (pool_get_law pool ss (s_name seg) n Hholds Hpos Hn) as (n' & Hget & Hc). exists pool, ss, (Some n').
    split; [done|]. split; [done|]. split; [done|]. intros m _ Hm. exists n'. split; [done|]. congruence.
Qed.

Lemma end_custom_run k s kids tp p seg t l :
  memory_ok k (sd_world s) kids -> w_segments (sd_world s) !! p = Some seg -> s_txn seg = Some tp ->
  w_txns (sd_world s) !! tp = Some t -> current_stack t l ->
  exists s' seg' t', end_custom tp p s = Some (tt, s') /\ memory_ok k (sd_world s') kids /\ grows (sd_world s) (sd_world s')
    /\ same_api s s' /\ sd_segments s' = sd_segments s
    /\ w_segments (sd_world s') = <[p := seg']> (w_segments (sd_world s))
    /\ ended (sd_world s) t seg seg' /\ gets_metric t seg seg'
    /\ w_txns (sd_world s') !! tp = Some t' /\ current_stack t' (filter (fun x => x <> p) l)
    /\ t_trace_strings t' = t_trace_strings t.
Proof.
  intros Hm Hp Htp Ht Hl. unfold end_custom.
  destruct (nr_segment_end_ok realloc_ok clock Hroomy k (sd_world s) kids tp p seg Hm Hp Htp) as
    (w1 & t0 & l0 & v & stop & Ht0 & Hl0 & Hend & Hm1 & Hg1 & Hstop & Es1 & Et1 & Hv); [by exists t|].
  assert (t0 = t) as -> by congruence.
  assert (l0 = l) as -> by by eapply current_stack_det.
  erewrite bind_run by (apply on_world_run; exact Hend). cbv beta.
  set (s1 := set_world w1 s).
  set (t1 := with_default_parent_stack v (with_segment_count (u64 (t_segment_count t + 1)) t)) in *.
  assert (Ht1 : w_txns w1 !! tp = Some t1) by (rewrite Et1; apply lookup_insert_eq).
  set (seg1 := seg_stop_time stop seg) in *.
  assert (Hp1 : w_segments w1 !! p = Some seg1) by (rewrite Es1; apply lookup_insert_eq).
  erewrite bind_run by by apply read_txn_run. cbv beta. erewrite bind_run by by apply read_segment_run. cbv beta.
  destruct (mo_txns _ _ _ Hm1 tp t1 Ht1) as [_ Hnames _ _].
  destruct (pool_get_name k (w_segments w1) tp t1 p seg1 Hnames Hp1 Htp) as (pool & ss & name & Hpool & Hholds & Hget & Hname).
  erewrite bind_run by by apply of_option_run. cbv beta.
  destruct (nr_segment_add_metric_ok realloc_ok Hroomy k w1 kids p seg1 name true Hm1 Hp1)
    as (ok & seg2 & Hadd & Hm2 & Hg2 & [m Eseg2] & Hmetric).
  erewrite bind_run by (apply on_world_run; exact Hadd). cbv beta.
  eexists _, seg2, t1. split; [reflexivity|]. cbn [sd_world set_world add_trace sd_segments].
  split; [exact Hm2|]. split; [by eapply grows_trans|]. split; [by repeat split|]. split; [done|].
  split; [cbn; by rewrite Es1, insert_insert_eq|].
  split; [subst seg2; by repeat split|]. split.
  { exists pool, ss. split; [done|]. split; [done|]. intros n Hpos Hn.
    destruct (Hname n Hpos Hn) as (n' & -> & <-). destruct (Hmetric n' eq_refl) as (l' & v' & E1 & E2 & E3).
    by exists ok, l', v'. }
  split; [exact Ht1|]. split; [|done]. split; [exact Hv|]. apply NoDup_filter. apply Hl.
Qed.

End State.
