(* ===== verification/Transactions.v ===== *)
(** * Starting and ending transactions

    What [newrelic_start_transaction], [newrelic_end_transaction] and
    [newrelic_record_custom_event] do step by step, by what the
    functions of axiom they call answer. *)

From S2P Require Import Prelude Vector Strings Time StringPool Metrics.
From S2P Require Import HashMap SegmentChildren Slab Datastore Slowsqls Txn Config Segment SegmentEnd Sdk SdkSample.
From S2P Require Import SdkGlobal SdkTransaction SdkSegment Session.

Section Locks.
Context {S P M A O : Type} `{NamePool P} `{ObjectAllocator S M} `{AxiomLib S P M A O}.

Implicit Types (s : sdk S P M A O).

(** An application with its lock in a state. *)
Definition relock_app (ap : app_ptr) (a : newrelic_app_t O) (locked : bool) s : sdk S P M A O :=
  set_apps (<[ap := mk_app (ap_app a) (ap_app_info a) (ap_config a) (mk_mutex (mu_checks (ap_lock a)) locked)]> (sd_apps s)) s.

Lemma alter_app_lock ap a (locked : bool) s :
  sd_apps s !! ap = Some a -> set_mutex (AppLock ap) (mk_mutex (mu_checks (ap_lock a)) locked) s = relock_app ap a locked s.
Proof.
  intros Hx. unfold set_mutex, relock_app. f_equal. apply map_eq. intros y. destruct (decide (y = ap)) as [->|Hne].
  - by rewrite lookup_alter_eq, lookup_insert_eq, Hx.
  - by rewrite lookup_alter_ne, lookup_insert_ne by congruence.
Qed.

Lemma lock_app_run s ap a :
  sd_apps s !! ap = Some a -> mu_locked (ap_lock a) = false ->
  nrt_mutex_lock (Some (AppLock ap)) s = Some (NR_SUCCESS, add_trace (Lock (AppLock ap)) (relock_app ap a true s)).
Proof.
  intros Hx Hl. unfold nrt_mutex_lock. erewrite bind_run by done. cbn [id mutex_at]. rewrite Hx.
  cbn [fmap option_fmap option_map]. erewrite bind_run by done. cbv beta. rewrite Hl.
  by rewrite <- alter_app_lock.
Qed.

Lemma unlock_app_run s ap a :
  sd_apps s !! ap = Some a -> mu_locked (ap_lock a) = true ->
  nrt_mutex_unlock (Some (AppLock ap)) s = Some (NR_SUCCESS, add_trace (Unlock (AppLock ap)) (relock_app ap a false s)).
Proof.
  intros Hx Hl. unfold nrt_mutex_unlock. erewrite bind_run by done. cbn [id mutex_at]. rewrite Hx.
  cbn [fmap option_fmap option_map]. erewrite bind_run by done. cbv beta. rewrite Hl.
  by rewrite <- alter_app_lock.
Qed.

Lemma relock_app_twice ap a v (apps : gmap app_ptr (newrelic_app_t O)) :
  apps !! ap = Some a -> mu_locked (ap_lock a) = false ->
  <[ap := mk_app (ap_app a) (ap_app_info a) (ap_config a) (mk_mutex (mu_checks (ap_lock a)) false)]> (<[ap := v]> apps) = apps.
Proof. intros Hx Hl. rewrite insert_insert_eq. apply insert_id. rewrite Hx. f_equal. destruct a as [? ? ? []]. by simpl in *; subst. Qed.

(** Changing a transaction whose change is known. *)
Lemma on_txn_eq s tp {T : Type} (f : option (nrtxn_t S P) -> option (T * option (nrtxn_t S P))) t r t' :
  w_txns (sd_world s) !! tp = Some t -> f (Some t) = Some (r, Some t') ->
  on_txn tp f s = Some (r, set_world (put_txn tp t' (sd_world s)) (add_trace (Uses tp) s)).
Proof.
  intros Ht Hf. unfold on_txn. erewrite bind_run by done. apply on_world_run. cbn [sd_world add_trace]. rewrite Ht.
  cbn [mbind option_bind]. by rewrite Hf.
Qed.

End Locks.

Section Transactions.
Context {S P M A O : Type} `{NamePool P} `{ObjectAllocator S M} `{AxiomLib S P M A O}.
Context (clock : nat -> Z * Z) (NEWRELIC_VERSION : cstr).

Implicit Types (s : sdk S P M A O).

(** ** Starting *)

(** A transaction with the name and the kind it is started with. *)
Definition named_transaction (name : option cstr) (is_web_transaction : bool) (t : nrtxn_t S P) : nrtxn_t S P :=
  let name := default (str "NULL") name in
  let t := if decide (c_str name = []) then t
           else with_path (Some (c_str name)) (with_status (set_path_type NR_PATH_TYPE_ACTION (t_status t)) t) in
  with_status (set_background (if is_web_transaction then 0 else 1) (t_status t)) t.

Lemma start_named name is_web_transaction (t : nrtxn_t S P) :
  path_is_frozen (t_status t) = 0 -> path_type_int (path_type (t_status t)) <= path_type_int NR_PATH_TYPE_ACTION ->
  let name' := match name with None => str "NULL" | Some name => name end in
  exists r t1, nr_txn_set_path (Some t) (Some name') NR_PATH_TYPE_ACTION NR_OK_TO_OVERWRITE = (r, Some t1)
    /\ (if is_web_transaction : bool then nr_txn_set_as_web_transaction (Some t1) else nr_txn_set_as_background_job (Some t1))
       = Some (Some (named_transaction name is_web_transaction t)).
Proof.
  intros Hfrozen Htype name'. unfold nr_txn_set_path, named_transaction.
  replace (default (str "NULL") name) with name' by (unfold name'; by destruct name).
  assert (Hempty : (byte_at name' 0 =? 0) = bool_decide (c_str name' = [])).
  { destruct name' as [|c l]; [done|]. change (byte_at (c :: l) 0) with c. cbn [c_str]. by destruct (Z.eqb_spec c 0). }
  rewrite Hempty. clearbody name'. rewrite Hfrozen. case_bool_decide as Hn.
  - rewrite decide_True by done. eexists _, t. split; [done|]. unfold nr_txn_set_as_web_transaction, nr_txn_set_as_background_job, nr_txn_change_background_status.
    rewrite Hfrozen. by destruct is_web_transaction.
  - rewrite decide_False by done. cbn [negb Z.eqb]. rewrite (proj2 (Z.ltb_ge _ _)) by done.
    rewrite bool_decide_eq_false_2 by done. cbn [andb nr_strdup]. eexists _, _. split; [reflexivity|].
    unfold nr_txn_set_as_web_transaction, nr_txn_set_as_background_job, nr_txn_change_background_status.
    cbn [t_status with_path with_status path_is_frozen set_path_type]. rewrite Hfrozen. by destruct is_web_transaction.
Qed.

Lemma start_transaction_run s ap a name is_web_transaction status a2 txn w a3 :
  sd_apps s !! ap = Some a -> mu_locked (ap_lock a) = false ->
  pthread_mutex_init (nr_app_consider_appinfo (ap_app a) (sd_axiom s)) = (status, a2) ->
  nr_txn_begin (ap_app a) (newrelic_get_transaction_options (ap_config a)) (sd_world s) a2 = (txn, w, a3) ->
  newrelic_start_transaction None name is_web_transaction s = Some (None, s)
  /\ match status, txn with
     | NR_FAILURE, _ => newrelic_start_transaction (Some ap) name is_web_transaction s = Some (None, set_axiom a2 s)
     | NR_SUCCESS, None => exists s', newrelic_start_transaction (Some ap) name is_web_transaction s = Some (None, s')
         /\ sd_world s' = w /\ sd_axiom s' = a3 /\ sd_txns s' = sd_txns s /\ sd_apps s' = sd_apps s
         /\ sd_segments s' = sd_segments s /\ sd_events s' = sd_events s /\ sd_mutex s' = sd_mutex s
     | NR_SUCCESS, Some tp => forall t, w_txns w !! tp = Some t -> path_is_frozen (t_status t) = 0 ->
         path_type_int (path_type (t_status t)) <= path_type_int NR_PATH_TYPE_ACTION ->
         exists x s', newrelic_start_transaction (Some ap) name is_web_transaction s = Some (Some x, s')
         /\ sd_txns s !! x = None /\ sd_txns s' = <[x := mk_sdk_txn tp free_lock]> (sd_txns s)
         /\ sd_world s' = put_txn tp (named_transaction name is_web_transaction t) w
         /\ sd_axiom s' = a3 /\ sd_apps s' = sd_apps s
         /\ sd_segments s' = sd_segments s /\ sd_events s' = sd_events s /\ sd_mutex s' = sd_mutex s
     end.
Proof.
  intros Ha Hfree Hinit Hbegin. split; [done|]. unfold newrelic_start_transaction.
  erewrite bind_run by done. cbv beta. erewrite bind_run by (apply of_option_run; exact Ha). cbv beta.
  erewrite bind_run by done. cbv beta.
  set (s1 := set_axiom (nr_app_consider_appinfo (ap_app a) (sd_axiom s)) s).
  assert (Hmutex : nrt_mutex_init s1 = Some (match status with NR_SUCCESS => Some free_lock | NR_FAILURE => None end, set_axiom a2 s)).
  { unfold nrt_mutex_init, call, mbind, prog_bind. cbn [sd_axiom set_axiom s1]. rewrite Hinit. by destruct status. }
  erewrite bind_run by exact Hmutex. cbv beta. destruct status; [|done]. cbv iota.
  erewrite bind_run by (apply (lock_app_run (set_axiom a2 s) ap a); [exact Ha|exact Hfree]). cbv beta zeta.
  set (s2 := add_trace (Lock (AppLock ap)) (relock_app ap a true (set_axiom a2 s))).
  erewrite (bind_run _ _ s2 txn (set_axiom a3 (set_world w s2)))
    by (cbn [sd_world sd_axiom add_trace relock_app set_apps set_axiom s2]; by rewrite Hbegin).
  cbv beta. set (s3 := set_axiom a3 (set_world w s2)).
  set (a' := mk_app (ap_app a) (ap_app_info a) (ap_config a) (mk_mutex (mu_checks (ap_lock a)) true)).
  erewrite bind_run by (apply (unlock_app_run s3 ap a'); [apply lookup_insert_eq|done]). cbv beta.
  set (s4 := add_trace (Unlock (AppLock ap)) (relock_app ap a' false s3)).
  assert (Happs : sd_apps s4 = sd_apps s) by exact (relock_app_twice ap a a' (sd_apps s) Ha Hfree).
  destruct txn as [tp|]; [|by exists s4].
  intros t Ht Hfrozen Htype. destruct (start_named name is_web_transaction t Hfrozen Htype) as (r & t1 & Hpath & Hkind).
  erewrite bind_run by done. cbv beta. cbn [id]. set (x := fresh (dom (sd_txns s4))). erewrite bind_run by done. cbv beta zeta.
  set (s5 := set_sdk_txns (<[x := mk_sdk_txn tp (mk_mutex true false)]> (sd_txns s4)) s4).
  erewrite bind_run by (apply (on_txn_eq s5 tp _ t r t1); [exact Ht|by rewrite Hpath]). cbv beta.
  erewrite bind_run.
  2:{ eapply (on_txn_eq _ tp _ t1 tt); [apply lookup_insert_eq|]. cbn [option_bind mbind]. rewrite Hkind. reflexivity. }
  cbv beta. exists x. eexists. split; [reflexivity|]. split; [apply not_elem_of_dom, is_fresh|]. split; [done|].
  split; [cbn; unfold put_txn, set_txns; cbn; by rewrite insert_insert_eq|]. by split_and!.
Qed.

(** ** Ending *)

(** The metric of the version of the SDK, which a transaction gets at its end. *)
Definition version_metric : cstr := str "Supportability/C/NewrelicVersion/" ++ c_str (newrelic_version NEWRELIC_VERSION).

Lemma end_transaction_run s x tx t table w a w1 a1 t1 w2 a2 :
  sd_txns s !! x = Some tx -> tx_lock tx = free_lock -> w_txns (sd_world s) !! tx_txn tx = Some t ->
  add_unscoped (fun tb => nrm_force_add tb (Some version_metric) 0) t = Some (with_unscoped_metrics table t) ->
  w = put_txn (tx_txn tx) (with_unscoped_metrics table t) (sd_world s) -> a = sd_axiom s ->
  nr_txn_end (tx_txn tx) w a = Some (w1, a1) -> w_txns w1 !! tx_txn tx = Some t1 ->
  let sent := ignore (t_status t1) =? 0 in
  let '(status, a1') := if sent then nr_cmd_txndata_tx (tx_txn tx) w1 a1 else (NR_SUCCESS, a1) in
  nr_txn_destroy (tx_txn tx) w1 a1' = Some (w2, a2) ->
  newrelic_end_transaction NEWRELIC_VERSION None s = Some ((false, None), s)
  /\ newrelic_end_transaction NEWRELIC_VERSION (Some None) s = Some ((false, Some None), s)
  /\ exists s', newrelic_end_transaction NEWRELIC_VERSION (Some (Some x)) s = Some ((bool_decide (status = NR_SUCCESS), Some None), s')
     /\ sd_world s' = w2 /\ sd_axiom s' = a2 /\ sd_txns s' = delete x (sd_txns s)
     /\ sd_apps s' = sd_apps s /\ sd_segments s' = sd_segments s /\ sd_events s' = sd_events s
     /\ sd_mutex s' = sd_mutex s.
Proof.
  intros Hx Hfree Ht Hmetric -> -> Hend Ht1 sent. destruct (if sent then _ else _) as [status a1'] eqn:Esent. intros Hdestroy.
  split; [done|]. split; [done|]. unfold newrelic_end_transaction.
  erewrite bind_run by (apply (lock_txn_run s x tx); done). cbv beta.
  set (s1 := add_trace (Lock (TxnLock x)) (relock x tx true s)).
  assert (Hx1 : sd_txns s1 !! x = Some (mk_sdk_txn (tx_txn tx) (mk_mutex true true))) by apply lookup_insert_eq.
  erewrite bind_run by (apply (txn_of_run s1 x _ Hx1)). cbv beta zeta. cbn [tx_txn].
  erewrite bind_run.
  2:{ eapply (on_txn_eq s1 (tx_txn tx) _ t tt); [exact Ht|]. unfold nr_txn_force_single_count. fold version_metric.
      cbn [mbind option_bind]. rewrite Hmetric. reflexivity. }
  cbv beta. set (s2 := set_world _ _). erewrite bind_run by done. cbv beta.
  erewrite (bind_run _ _ (add_trace (Uses (tx_txn tx)) s2) tt (set_axiom a1 (set_world w1 (add_trace (Uses (tx_txn tx)) s2))))
    by (cbn [sd_world sd_axiom add_trace set_world s2 s1 relock set_sdk_txns]; by rewrite Hend).
  cbv beta. set (s3 := set_axiom a1 _).
  erewrite bind_run by (apply (read_txn_run s3 (tx_txn tx) t1); exact Ht1). cbv beta.
  set (s4 := add_trace _ s3). rewrite (Z.eqb_sym 0). fold sent.
  erewrite (bind_run _ _ s4 (bool_decide (status = NR_SUCCESS)) (set_axiom a1' s4)).
  2:{ destruct sent.
      - unfold call, mbind, prog_bind, gets, id. cbn [sd_world sd_axiom s4 s3 add_trace set_axiom set_world].
        rewrite Esent. by destruct status.
      - by injection Esent as <- <-. }
  cbv beta. erewrite bind_run by done. cbv beta.
  erewrite (bind_run _ _ (add_trace (Uses (tx_txn tx)) (set_axiom a1' s4)) tt
    (set_axiom a2 (set_world w2 (add_trace (Uses (tx_txn tx)) (set_axiom a1' s4)))))
    by (cbn [sd_world sd_axiom add_trace set_world set_axiom s4 s3]; by rewrite Hdestroy).
  cbv beta. set (s5 := set_axiom a2 _).
  erewrite bind_run by (apply (unlock_txn_run s5 x (mk_sdk_txn (tx_txn tx) (mk_mutex true true))); [exact Hx1|done]). cbv beta.
  set (s6 := add_trace (Unlock (TxnLock x)) _).
  assert (Hx6 : sd_txns s6 !! x = Some (mk_sdk_txn (tx_txn tx) (mk_mutex true false))) by apply lookup_insert_eq.
  erewrite (bind_run _ _ s6 NR_SUCCESS s6); cycle 1.
  { unfold nrt_mutex_destroy. erewrite bind_run by done. cbv beta. cbn [mutex_at id]. by rewrite Hx6. }
  cbv beta. erewrite bind_run by done. cbv beta. eexists. split; [reflexivity|]. split; [done|]. split; [done|].
  split; [|by split_and!]. cbn. by rewrite !delete_insert_eq.
Qed.

(** ** Custom events *)

(** Whether a transaction takes custom events. *)
Definition takes_events (t : nrtxn_t S P) : bool :=
  negb (recording (t_status t) =? 0) && (t_high_security t =? 0) && negb (custom_events_enabled (t_options t) =? 0).

Lemma record_custom_event_run s x tx t e ev :
  sd_txns s !! x = Some tx -> tx_lock tx = free_lock -> w_txns (sd_world s) !! tx_txn tx = Some t ->
  sd_events s !! e = Some ev ->
  newrelic_record_custom_event clock None (Some (Some e)) s = Some (Some (Some e), s)
  /\ exists s', newrelic_record_custom_event clock (Some x) (Some (Some e)) s = Some (Some None, s')
     /\ sd_events s' = delete e (sd_events s) /\ sd_txns s' = sd_txns s /\ sd_segments s' = sd_segments s
     /\ sd_world s' = snd (read_clock clock (sd_world s))
     /\ sd_axiom s' = (if takes_events t
                       then nr_custom_events_add_event (tx_txn tx) (ev_type ev) (ev_attributes ev)
                              (fst (read_clock clock (sd_world s))) (sd_axiom s)
                       else sd_axiom s).
Proof.
  intros Hx Hfree Ht He. split; [done|]. unfold newrelic_record_custom_event.
  erewrite bind_run by (apply (lock_txn_run s x tx); done). cbv beta.
  set (s1 := add_trace (Lock (TxnLock x)) (relock x tx true s)).
  assert (Hx1 : sd_txns s1 !! x = Some (mk_sdk_txn (tx_txn tx) (mk_mutex true true))) by apply lookup_insert_eq.
  erewrite bind_run by (apply (txn_of_run s1 x _ Hx1)). cbv beta. cbn [tx_txn]. erewrite bind_run by done. cbv beta. cbn [id].
  erewrite bind_run by (apply of_option_run; exact He). cbv beta.
  set (now := fst (read_clock clock (sd_world s))). set (w := snd (read_clock clock (sd_world s))).
  assert (Hclock : read_clock clock (sd_world s) = (now, w)) by (unfold now, w; by destruct (read_clock clock (sd_world s))).
  assert (Ew : w_txns w = w_txns (sd_world s)) by (unfold w, read_clock; by destruct (clock (w_tick (sd_world s)))).
  set (added := takes_events t).
  set (s2 := add_trace (Uses (tx_txn tx)) (set_world w s1)).
  erewrite (bind_run _ _ s1 tt (if added then set_axiom (nr_custom_events_add_event (tx_txn tx) (ev_type ev) (ev_attributes ev) now (sd_axiom s)) s2 else s2)).
  2:{ unfold nr_txn_record_custom_event.
      erewrite bind_run by (apply on_world_run; cbn [sd_world s1 add_trace relock set_sdk_txns]; rewrite Hclock; reflexivity). cbv beta.
      erewrite bind_run by (apply (read_txn_run _ (tx_txn tx) t); cbn [sd_world set_world]; rewrite Ew; exact Ht). cbv beta.
      unfold added, takes_events. destruct (recording (t_status t) =? 0); [done|]. destruct (t_high_security t =? 0); [|done].
      by destruct (custom_events_enabled (t_options t) =? 0). }
  cbv beta. set (s3 := if added then _ else s2).
  assert (Hs3 : sd_txns s3 = sd_txns s1 /\ sd_events s3 = sd_events s /\ sd_segments s3 = sd_segments s /\ sd_world s3 = w
    /\ sd_axiom s3 = (if added then nr_custom_events_add_event (tx_txn tx) (ev_type ev) (ev_attributes ev) now (sd_axiom s) else sd_axiom s))
    by (unfold s3; by destruct added).
  destruct Hs3 as (Et3 & Ee3 & Es3 & Ew3 & Ea3).
  erewrite bind_run by (apply (unlock_txn_run s3 x (mk_sdk_txn (tx_txn tx) (mk_mutex true true))); [by rewrite Et3|done]). cbv beta.
  unfold newrelic_discard_custom_event. erewrite bind_run by done. cbv beta. cbn [id].
  erewrite bind_run by (apply of_option_run; cbn; rewrite Ee3; exact He). cbv beta. erewrite bind_run by done. cbv beta.
  eexists. split; [reflexivity|]. cbn. rewrite Et3, Ee3. split; [done|]. split; [by apply relock_twice|]. by split_and!.
Qed.

End Transactions.
