(* ===== verification/SessionEnds.v ===== *)
(** * The end of datastore and external segments keeps the memory in order

    From memory in order, for parameters the SDK gives, [nr_segment_datastore_end] and
    [nr_segment_external_end] return and leave the memory in order. *)

From S2P Require Import Prelude Vector Strings Sql Url Time StringPool Metrics.
From S2P Require Import HashMap SegmentChildren Slab Datastore Slowsqls Txn Segment SegmentEnd Session.

(** ** The parameters *)

(** The strings of a segment: short enough that the names of metrics made of them have a length. *)
Definition LIMIT : Z := 2 ^ 28.
Definition short_string (s : cstr) : bool := strlen s <? LIMIT.
Definition short_or_null (s : option cstr) : bool := from_option short_string true s.
Definition short_given (s : option cstr) : bool := from_option short_string false s.

(** A query that can be obfuscated: it does not end in a string after a backslash. *)
Definition obfuscatable (sql : option cstr) : bool :=
  match nr_sql_obfuscate sql with Some _ => true | None => false end.

Definition instance_ok (i : nr_datastore_instance_t) : bool := short_given (di_host i) && short_given (di_port_path_or_id i).

(** Parameters without a name, or as the SDK makes them. *)
Definition datastore_end_params_ok (p : nr_segment_datastore_params_t) : Prop :=
  (sdp_type p = NR_DATASTORE_OTHER /\ sdp_string p = None)
  \/ (short_given (sdp_collection p) = true /\ short_given (sdp_operation p) = true /\ short_or_null (sdp_string p) = true
      /\ (forall i, sdp_instance p = Some i -> instance_ok i = true)
      /\ obfuscatable (sdp_sql p) = true /\ sdp_backtrace p = None /\ sdp_input_query p = None).

Definition external_end_params_ok (p : nr_segment_external_params_t) : Prop := short_or_null (sep_uri p) = true.

Lemma short_given_some s : short_given s = true -> exists x, s = Some x /\ strlen x < LIMIT.
Proof. destruct s as [x|]; [|done]. cbn. unfold short_string. rewrite Z.ltb_lt. by exists x. Qed.

Lemma as_string_short ds s : nr_datastore_as_string ds = Some s -> strlen s < LIMIT.
Proof.
  destruct ds; cbn [nr_datastore_as_string as_string_loop datastore_mappings bool_decide decide]; intros E; vm_compute in E;
    try discriminate E; injection E as <-; by vm_compute.
Qed.

(** The lengths of formatted names. *)
Lemma formatted (text : cstr) : Z.of_nat (length text) < 2 ^ 31 - 1 -> nr_formatf text = Some text /\ strlen text < 2 ^ 31 - 1.
Proof.
  intros Hl. unfold nr_formatf. destruct (Z.ltb_spec (Z.of_nat (length text)) (2 ^ 31)); [|lia]. split; [done|].
  pose proof (strlen_le text). lia.
Qed.

(** The length of a name made of constants and short strings. *)
Ltac name_length :=
  rewrite ?length_app;
  repeat match goal with
         | |- context [length (str ?x)] => let n := eval vm_compute in (length (str x)) in change (length (str x)) with n
         | H : context [length (str ?x)] |- _ => let n := eval vm_compute in (length (str x)) in change (length (str x)) with n in H
         end; unfold strlen, LIMIT in *; lia.

Section Ends.
Context {S P M : Type} `{NamePool P} `{ObjectAllocator S M}.
Context (realloc_ok : Z -> bool) (clock : nat -> Z * Z) (Hroomy : roomy realloc_ok).
Context (json_of : list json_field -> option cstr).

Abbreviation world := (world S P M).

Implicit Types (w : world) (kids : seg_ptr -> list seg_ptr) (k d : Z).

(** Every step: it returns, keeps the memory in order and uses up [c] of the room. *)
Definition steps (c : Z) kids tp (p : seg_ptr) (f : world -> option world) : Prop :=
  forall k w, memory_ok (k + c) w kids -> 0 <= k -> owned (w_segments w) tp p ->
  exists w', f w = Some w' /\ memory_ok k w' kids /\ grows w w'.

Lemma force_add_steps kids tp p name d :
  strlen name < 2 ^ 31 - 1 -> steps 1 kids tp p (force_add_at tp (Some name) d).
Proof.
  intros Hn k w Hm Hk Ho. destruct (owned_txn (k + 1) w kids tp p Hm Ho) as [t Ht].
  unfold force_add_at. rewrite Ht. cbn [mbind option_bind].
  destruct (add_unscoped_spec k t name d (tl_metrics _ _ _ _ (mo_txns _ _ _ Hm tp t Ht)) Hk Hn) as (table & -> & Hleft).
  cbn [mbind option_bind]. eexists. split; [done|]. apply (memory_ok_txn (k + 1) k w kids tp t); [done|lia|done|by repeat split|done].
Qed.

Lemma add_metric_steps kids tp p name scoped : steps 0 kids tp p (add_metric realloc_ok p name scoped).
Proof.
  intros k w Hm Hk (s & Hs & _). rewrite Z.add_0_r in Hm.
  destruct (nr_segment_add_metric_ok realloc_ok Hroomy k w kids p s name scoped Hm Hs) as (ok & s' & E & Hm' & Hg' & _).
  unfold add_metric. rewrite E. by eexists.
Qed.

Lemma end_steps kids tp p :
  steps 0 kids tp p (fun w => '(_, w) ← nr_segment_end realloc_ok clock (Some p) w; Some w).
Proof.
  intros k w Hm Hk Ho. rewrite Z.add_0_r in Hm. pose proof (owned_txn k w kids tp p Hm Ho) as Ht. destruct Ho as (s & Hs & Ho).
  destruct (nr_segment_end_ok realloc_ok clock Hroomy k w kids tp p s Hm Hs Ho Ht) as (w' & t & l & v & stop & _ & _ & E & Hm' & Hg & _).
  rewrite E. by eexists.
Qed.

Lemma set_name_steps kids tp p name :
  strlen name < 2 ^ 31 - 1 -> steps 1 kids tp p (fun w => '(_, w) ← nr_segment_set_name (Some p) (Some name) w; Some w).
Proof.
  intros Hn k w Hm Hk Ho. destruct (nr_segment_set_name_ok k w kids p tp name Hm Hk Ho) as (s & idx & pool & ss & t & _ & _ & E & Hm' & Hg & _);
    [by eapply owned_txn|done|]. rewrite E. by eexists.
Qed.

(** One more product. *)
Definition add_product (tp : txn_ptr) (name : option cstr) w : option world :=
  t ← w_txns w !! tp;
  '(_, products) ← pool_add (t_datastore_products t) name;
  Some (put_txn tp (with_datastore_products products t) w).

Lemma add_product_steps kids tp p name :
  strlen name < 2 ^ 31 - 1 -> steps 1 kids tp p (add_product tp (Some name)).
Proof.
  intros Hn k w Hm Hk Ho. destruct (owned_txn (k + 1) w kids tp p Hm Ho) as [t Ht].
  unfold add_product. rewrite Ht. cbn [mbind option_bind].
  destruct (tl_products _ _ _ _ (mo_txns _ _ _ Hm tp t Ht)) as (pool & ss & -> & Hpool & Hroom).
  destruct (pool_add_law pool ss name Hpool) as (idx & pool' & ss' & -> & Hpool' & _ & Hlen & _); [lia|done|].
  cbn [mbind option_bind]. eexists. split; [done|]. split; [|apply grows_txn].
  apply (memory_ok_products (k + 1)); [done|lia|done|]. exists pool', ss'. split; [done|]. split; [done|lia].
Qed.

(** The metrics of a datastore segment, and the name it is to get. *)
Lemma create_metrics_ok k w kids tp p d product collection operation instance hostname :
  memory_ok (k + 2) w kids -> 0 <= k -> owned (w_segments w) tp p ->
  strlen product < LIMIT -> strlen collection < LIMIT -> strlen operation < LIMIT ->
  (forall i, instance = Some i -> instance_ok i = true) ->
  exists name i w', create_metrics realloc_ok p d product (Some collection) (Some operation) instance hostname w = Some (name, i, w')
    /\ strlen name < 2 ^ 31 - 1 /\ memory_ok k w' kids /\ grows w w'.
Proof.
  intros Hm Hk Ho Hp Hc Hop Hi. pose proof Ho as (s & Hs & Hst). unfold create_metrics. rewrite Hs. cbn [mbind option_bind]. rewrite Hst.
  cbn [mbind option_bind fmt_s fmap option_fmap option_map].
  destruct (force_add_steps kids tp p (str "Datastore/all") d ltac:(by vm_compute) (k + 1) w) as (w1 & -> & Hm1 & Hg1);
    [by replace (k + 1 + 1) with (k + 2) by lia|lia|done|]. cbn [mbind option_bind].
  destruct (formatted (str "Datastore/" ++ c_str product ++ str "/all")) as [-> Hl]; [name_length|].
  destruct (force_add_steps kids tp p _ d Hl k w1 Hm1 Hk) as (w2 & -> & Hm2 & Hg2); [by apply (gr_owned _ _ Hg1)|]. cbn [mbind option_bind].
  assert (Hm2' : memory_ok (k + 0) w2 kids) by by rewrite Z.add_0_r.
  assert (Ho2 : owned (w_segments w2) tp p) by by apply (gr_owned _ _ Hg2), (gr_owned _ _ Hg1).
  destruct (add_metric_steps kids tp p (nr_formatf (str "Datastore/operation/" ++ c_str product ++ str "/" ++ c_str operation)) false
              k w2 Hm2' Hk Ho2) as (w3 & -> & Hm3 & Hg3). cbn [mbind option_bind].
  destruct (formatted (str "Datastore/statement/" ++ c_str product ++ str "/" ++ c_str collection ++ str "/" ++ c_str operation))
    as [-> Hl']; [name_length|].
  set (name := str "Datastore/statement/" ++ _) in *.
  assert (Hm3' : memory_ok (k + 0) w3 kids) by by rewrite Z.add_0_r.
  assert (Ho3 : owned (w_segments w3) tp p) by by apply (gr_owned _ _ Hg3).
  destruct (add_metric_steps kids tp p (Some name) true k w3 Hm3' Hk Ho3) as (w4 & -> & Hm4 & Hg4). cbn [mbind option_bind].
  assert (Ho4 : owned (w_segments w4) tp p) by by apply (gr_owned _ _ Hg4).
  destruct (owned_txn k w4 kids tp p Hm4 Ho4) as [t ->]. cbn [mbind option_bind nr_strdup].
  assert (Hname : strlen (c_str name) < 2 ^ 31 - 1) by (unfold strlen in *; by rewrite c_str_idemp).
  assert (Hg : grows w w4) by (do 3 (eapply grows_trans; [eassumption|]); done).
  destruct instance as [i|]; [|eexists _, _, w4; by split_and!].
  destruct (0 =? instance_reporting_enabled (t_options t)); [eexists _, _, w4; by split_and!|].
  specialize (Hi i eq_refl). apply andb_true_iff in Hi as [(host & -> & Hh)%short_given_some (port & -> & Hport)%short_given_some].
  cbn [mbind option_bind fmt_s fmap option_fmap option_map].
  assert (Hm4' : memory_ok (k + 0) w4 kids) by by rewrite Z.add_0_r.
  match goal with |- context [add_metric realloc_ok p ?n false w4] =>
    destruct (add_metric_steps kids tp p n false k w4 Hm4' Hk Ho4) as (w5 & -> & Hm5 & Hg5) end.
  cbn [mbind option_bind]. eexists _, _, w5. split; [done|]. split; [done|]. split; [done|]. by eapply grows_trans.
Qed.

(** The name of a datastore whose parameters are in order. *)
Lemma datastore_names_ok (t : nrtxn_t S P) params :
  datastore_end_params_ok params ->
  exists product, datastore_names t params = Some (product, None, None)
    /\ (product = None \/ exists n, product = Some n /\ strlen n < LIMIT
          /\ short_given (sdp_collection params) = true /\ short_given (sdp_operation params) = true
          /\ (forall i, sdp_instance params = Some i -> instance_ok i = true)
          /\ obfuscatable (sdp_sql params) = true /\ sdp_backtrace params = None /\ sdp_input_query params = None).
Proof.
  unfold datastore_names. intros [[-> ->]|(Hc & Ho & Hs & Hi & Hq & Hb & Hin)]; [by exists None; split; [|left]|].
  assert (Hgood : forall n, short_or_null n = true -> n = None \/ exists m, n = Some m /\ strlen m < LIMIT
    /\ short_given (sdp_collection params) = true /\ short_given (sdp_operation params) = true
    /\ (forall i, sdp_instance params = Some i -> instance_ok i = true)
    /\ obfuscatable (sdp_sql params) = true /\ sdp_backtrace params = None /\ sdp_input_query params = None).
  { intros [n|] Hn; [right|by left]. exists n. cbn in Hn. unfold short_string in Hn. rewrite Z.ltb_lt in Hn. by split_and!. }
  assert (Hstring : short_or_null (nr_datastore_as_string (sdp_type params)) = true).
  { destruct (nr_datastore_as_string (sdp_type params)) as [n|] eqn:E; [|done]. apply as_string_short in E. cbn. by apply Z.ltb_lt. }
  destruct (short_given_some _ Hc) as (c & Ec & _), (short_given_some _ Ho) as (o & Eo & _). rewrite Ec, Eo in *.
  destruct (nr_datastore_is_sql (sdp_type params)); [eexists; split; [done|]; by apply Hgood|].
  eexists. split; [done|]. apply Hgood. by case_bool_decide.
Qed.

(** What is kept of a query that can be obfuscated. *)
Lemma datastore_queries_ok (t : nrtxn_t S P) is_sql params :
  obfuscatable (sdp_sql params) = true -> sdp_input_query params = None ->
  exists sql obfuscated, datastore_queries t is_sql params = Some (sql, obfuscated, None).
Proof.
  unfold datastore_queries, obfuscatable. intros Ho ->. destruct is_sql; [|by eexists _, _].
  destruct (nr_txn_sql_recording_level _); [by eexists _, _|by eexists _, _|].
  destruct (nr_sql_obfuscate _) as [o|]; [|done]. by eexists _, _.
Qed.

(** Without a backtrace a slow query is not recorded. *)
Lemma slowsqls_unchanged s (params : nr_slowsqls_params_t) :
  sp_stacktrace_json params = None -> nr_slowsqls_add json_of s (Some params) = Some s.
Proof. intros E. unfold nr_slowsqls_add. rewrite E. by destruct s, (sp_sql params). Qed.

(** The segment at [p] has the type [ty]. *)
Definition has_type w (p : seg_ptr) (ty : nr_segment_type_t) : Prop := exists s, w_segments w !! p = Some s /\ s_type s = ty.

Lemma has_type_grows w w' p ty : grows w w' -> has_type w p ty -> has_type w' p ty.
Proof. intros Hg (s & Hs & <-). destruct (gr_segments _ _ Hg p s Hs) as (s' & Hs' & _ & Ey). by exists s'. Qed.

(** Setting the attributes of its own type. *)
Lemma set_datastore_ok k w kids p attrs :
  memory_ok k w kids -> has_type w p NR_SEGMENT_DATASTORE ->
  exists w', ('(_, w) ← nr_segment_set_datastore (Some p) (Some attrs) w; Some w) = Some w' /\ memory_ok k w' kids /\ grows w w'.
Proof.
  intros Hm (s & Hs & Ey). unfold nr_segment_set_datastore. rewrite Hs. cbn [mbind option_bind].
  eexists. split; [done|]. apply (memory_ok_update k w kids p s); [done|done|by split_and!|by split_and!; [| |left]|done|done].
Qed.

Lemma set_external_ok k w kids p e :
  memory_ok k w kids -> has_type w p NR_SEGMENT_EXTERNAL ->
  exists w', ('(_, w) ← nr_segment_set_external (Some p) (Some e) w; Some w) = Some w' /\ memory_ok k w' kids /\ grows w w'.
Proof.
  intros Hm (s & Hs & Ey). unfold nr_segment_set_external. rewrite Hs. cbn [mbind option_bind].
  eexists. split; [done|]. apply (memory_ok_update k w kids p s); [done|done|by split_and!|by split_and!; [| |left]|done|done].
Qed.

Lemma datastore_end_ok k w kids tp p params hostname :
  memory_ok (k + 16) w kids -> 0 <= k -> owned (w_segments w) tp p -> has_type w p NR_SEGMENT_DATASTORE ->
  datastore_end_params_ok params ->
  exists w', nr_segment_datastore_end realloc_ok clock json_of (Some p) (Some params) hostname w = Some w'
    /\ memory_ok k w' kids /\ grows w w'.
Proof.
  intros Hm Hk Ho Hty Hparams. apply (memory_ok_le _ (k + 1 + 1 + 2)) in Hm; [|lia].
  destruct (owned_txn _ w kids tp p Hm Ho) as [t Ht]. pose proof Ho as (s & Hs & Hst).
  unfold nr_segment_datastore_end. rewrite Hs. cbn [mbind option_bind]. rewrite Hst, Ht. cbn [mbind option_bind].
  destruct (datastore_names_ok t params Hparams) as (product & -> & [->|(n & -> & Hn & Hc & Hop & Hi & Hq & Hb & Hin)]); cbn [mbind option_bind].
  { exists w. split; [done|]. split; [by eapply memory_ok_le; [|exact Hm]; lia|apply grows_refl]. }
  replace (k + 1 + 1 + 2) with (k + 1 + 2 + 1) in Hm by lia.
  destruct (add_product_steps kids tp p n ltac:(unfold LIMIT in *; lia) (k + 1 + 2) w Hm ltac:(lia) Ho) as (w1 & E1 & Hm1 & Hg1).
  unfold add_product in E1. rewrite Ht in E1. cbn [mbind option_bind] in E1.
  destruct (pool_add _ _) as [[idx products]|]; [|done]. cbn [mbind option_bind] in E1 |- *. injection E1 as E1. rewrite E1.
  assert (Ho1 : owned (w_segments w1) tp p) by by apply (gr_owned _ _ Hg1).
  destruct (end_steps kids tp p (k + 1 + 2) w1) as (w2 & E2 & Hm2 & Hg2); [by rewrite Z.add_0_r|lia|done|].
  destruct (nr_segment_end realloc_ok clock (Some p) w1) as [[b w2']|]; [|done]. injection E2 as ->. cbn [mbind option_bind].
  assert (Ho2 : owned (w_segments w2) tp p) by by apply (gr_owned _ _ Hg2).
  destruct (owned_txn _ w2 kids tp p Hm2 Ho2) as [t2 Ht2]. pose proof Ho2 as (s2 & Hs2 & _). rewrite Hs2, Ht2. cbn [mbind option_bind].
  rewrite Hb. destruct (short_given_some _ Hc) as (c & -> & Hc'), (short_given_some _ Hop) as (o & -> & Ho').
  match goal with |- context [create_metrics realloc_ok p ?d _ _ _ _ _ w2] => set (d0 := d) end.
  destruct (create_metrics_ok (k + 1) w2 kids tp p d0 n c o (sdp_instance params) hostname Hm2) as (name & i & w3 & -> & Hname & Hm3 & Hg3);
    [lia|done|done|done|done|done|]. cbn [mbind option_bind].
  assert (Ho3 : owned (w_segments w3) tp p) by by apply (gr_owned _ _ Hg3).
  destruct (set_name_steps kids tp p name Hname k w3 Hm3 Hk Ho3) as (w4 & E4 & Hm4 & Hg4).
  destruct (nr_segment_set_name (Some p) (Some name) w3) as [[b4 w4']|]; [|done]. injection E4 as ->. cbn [mbind option_bind].
  assert (Ho4 : owned (w_segments w4) tp p) by by apply (gr_owned _ _ Hg4).
  destruct (owned_txn _ w4 kids tp p Hm4 Ho4) as [t4 Ht4]. rewrite Ht4. cbn [mbind option_bind].
  destruct (datastore_queries_ok t4 (nr_datastore_is_sql (sdp_type params)) params Hq Hin) as (sql & obfuscated & ->). cbn [mbind option_bind].
  match goal with |- context [if ?b then nr_slowsqls_add json_of ?s ?x else ?y] =>
    assert ((if b then nr_slowsqls_add json_of s x else y) = Some (t_slowsqls t4)) as -> by (destruct b; [by apply slowsqls_unchanged|done]) end.
  cbn [mbind option_bind].
  destruct (memory_ok_txn k k w4 kids tp t4 (with_slowsqls (t_slowsqls t4) t4)) as [Hm5 Hg5];
    [done|lia|done|by repeat split|exact (tl_metrics _ _ _ _ (mo_txns _ _ _ Hm4 tp t4 Ht4))|].
  match goal with |- context [nr_segment_set_datastore (Some p) (Some ?d) ?w5] =>
    destruct (set_datastore_ok k w5 kids p d) as (w6 & E6 & Hm6 & Hg6) end;
    [done|do 5 (eapply has_type_grows; [eassumption|]); done|].
  exists w6. split; [exact E6|]. split; [done|]. do 5 (eapply grows_trans; [eassumption|]). done.
Qed.

(** The names of an external segment. *)
Lemma external_name_short uri : strlen (snprintf 1024 (str "External/" ++ metric_domain uri 1024 ++ str "/all")) < 2 ^ 31 - 1.
Proof.
  unfold snprintf. pose proof (strlen_le (take (Z.to_nat (1024 - 1)) (str "External/" ++ metric_domain uri 1024 ++ str "/all"))) as Hl.
  rewrite length_take in Hl. lia.
Qed.

(** Naming a segment, as the end of external segments does it. *)
Definition name_segment (tp : txn_ptr) (p : seg_ptr) (buf : cstr) w : option world :=
  t ← w_txns w !! tp;
  '(name, strings) ← pool_add (t_trace_strings t) (Some buf);
  upd_segment p (seg_name name) (put_txn tp (with_trace_strings strings t) w).

Lemma name_segment_steps kids tp p buf : strlen buf < 2 ^ 31 - 1 -> steps 1 kids tp p (name_segment tp p buf).
Proof.
  intros Hn k w Hm Hk Ho. destruct (set_name_steps kids tp p buf Hn k w Hm Hk Ho) as (w' & E & Hm' & Hg').
  exists w'. split; [|done]. destruct Ho as (s & Hs & Hst). unfold nr_segment_set_name in E. rewrite Hs in E.
  cbn [mbind option_bind] in E. rewrite Hst in E. cbn [mbind option_bind] in E. unfold name_segment.
  destruct (w_txns w !! tp) as [t|]; [|done]. cbn [mbind option_bind] in *.
  destruct (pool_add _ _) as [[idx pool]|]; [|done]. cbn [mbind option_bind] in *. injection E as <-.
  unfold upd_segment. cbn [w_segments put_txn set_txns]. by rewrite Hs.
Qed.

Lemma external_end_ok k w kids tp p params :
  memory_ok (k + 16) w kids -> 0 <= k -> owned (w_segments w) tp p -> has_type w p NR_SEGMENT_EXTERNAL ->
  external_end_params_ok params ->
  exists b w', nr_segment_external_end realloc_ok clock (Some p) (Some params) w = Some (b, w')
    /\ memory_ok k w' kids /\ grows w w'.
Proof.
  intros Hm Hk Ho Hty Hparams. apply (memory_ok_le _ (k + 1 + 1)) in Hm; [|lia]. pose proof Ho as (s & Hs & Hst).
  unfold nr_segment_external_end. rewrite Hs. cbn [mbind option_bind]. rewrite Hst.
  assert (exists uri, match sep_uri params with None => Some None | Some _ => nr_url_clean (sep_uri params) (nr_strlen (sep_uri params)) end
    = Some uri) as [uri Euri].
  { unfold external_end_params_ok, short_or_null, short_string, LIMIT in Hparams. destruct (sep_uri params) as [u|]; [|by eexists].
    cbn [from_option] in Hparams. rewrite Z.ltb_lt in Hparams. destruct (clean_returns u ltac:(lia)) as [r E]. by exists r. }
  unfold nr_segment_external_set_attrs. rewrite Euri. cbn [mbind option_bind].
  match goal with |- context [nr_segment_set_external (Some p) (Some ?e) w] =>
    destruct (set_external_ok (k + 1 + 1) w kids p e Hm Hty) as (w1 & E1 & Hm1 & Hg1) end.
  destruct (nr_segment_set_external _ _ w) as [[b1 w1']|]; [|done]. injection E1 as ->. cbn [mbind option_bind].
  assert (Ho1 : owned (w_segments w1) tp p) by by apply (gr_owned _ _ Hg1).
  destruct (end_steps kids tp p (k + 1 + 1) w1) as (w2 & E2 & Hm2 & Hg2); [by rewrite Z.add_0_r|lia|done|].
  destruct (nr_segment_end realloc_ok clock (Some p) w1) as [[b w2']|]; [|done]. injection E2 as ->. cbn [mbind option_bind].
  assert (Ho2 : owned (w_segments w2) tp p) by by apply (gr_owned _ _ Hg2). pose proof Ho2 as (s2 & Hs2 & Hst2).
  unfold nr_segment_external_create_metrics. rewrite Hs2. cbn [mbind option_bind]. rewrite Hst2. cbn [mbind option_bind].
  destruct (force_add_steps kids tp p (str "External/all") (nr_time_duration (s_start_time s2) (s_stop_time s2)) ltac:(by vm_compute)
              (k + 1) w2 Hm2 ltac:(lia) Ho2) as (w3 & -> & Hm3 & Hg3). cbn [mbind option_bind].
  assert (Ho3 : owned (w_segments w3) tp p) by by apply (gr_owned _ _ Hg3).
  set (buf := snprintf 1024 _).
  destruct (add_metric_steps kids tp p (Some buf) true (k + 1) w3) as (w4 & -> & Hm4 & Hg4); [by rewrite Z.add_0_r|lia|done|].
  cbn [mbind option_bind]. assert (Ho4 : owned (w_segments w4) tp p) by by apply (gr_owned _ _ Hg4).
  destruct (name_segment_steps kids tp p buf (external_name_short _) k w4 Hm4 Hk Ho4) as (w5 & E5 & Hm5 & Hg5).
  unfold name_segment in E5. rewrite E5. cbn [mbind option_bind]. exists b, w5. split; [done|]. split; [done|].
  do 4 (eapply grows_trans; [eassumption|]). done.
Qed.

End Ends.
