(* ===== verification/Frames.v ===== *)
(** * What programs leave alone

    Relations between the state before and the state after a program that every step of it keeps:
    statuses, applications and handles ([steady]), and the fields of the wrappers of segments
    ([fields_kept]).  Nothing is said of programs without a result. *)

From S2P Require Import Prelude Vector Strings Time StringPool Metrics.
From S2P Require Import HashMap SegmentChildren Slab Datastore Slowsqls Txn Config Segment SegmentEnd Sdk.
From S2P Require Import SdkGlobal SdkTransaction SdkSegment SessionEnds.

(** Steps of a computation with a result, one hypothesis for each. *)
Ltac results :=
  repeat match goal with
    | H : None = Some _ |- _ => discriminate H
    | H : Some _ = Some _ |- _ => injection H as H; try subst
    | H : (_, _) = (_, _) |- _ => injection H as H; try subst
    | H : _ ≫= _ = Some _ |- _ => apply bind_Some in H as (? & ? & H)
    | x : _ * _ |- _ => destruct x
    | H : match ?x with _ => _ end = Some _ |- _ => destruct x eqn:?
    end.

Section Frames.
Context {S P M : Type} `{NamePool P} `{ObjectAllocator S M}.

Abbreviation world := (world S P M).

(** ** The memory of axiom *)

(** A relation on memories that holds when only segments, stacks, the allocator or the clock change, or a
    transaction whose status of recording stays. *)
Class WorldFrame (Rw : world -> world -> Prop) : Prop := {
  wf_pre :: PreOrder Rw;
  wf_segments : forall w v, Rw w (set_segments v w);
  wf_stacks : forall w v, Rw w (set_stacks v w);
  wf_mem : forall w v, Rw w (set_mem v w);
  wf_tick : forall w n, Rw w (mk_world (w_segments w) (w_txns w) (w_stacks w) (w_mem w) n);
  wf_txn : forall w tp t t', w_txns w !! tp = Some t -> recording (t_status t') = recording (t_status t) ->
    Rw w (put_txn tp t' w);
}.

Context (realloc_ok : Z -> bool) (clock : nat -> Z * Z).
Context (Rw : world -> world -> Prop) `{!WorldFrame Rw}.

Implicit Types (w : world).

Lemma wf_put_segment w p s : Rw w (put_segment p s w).
Proof. apply wf_segments. Qed.

Lemma wf_clock w n w' : read_clock clock w = (n, w') -> Rw w w'.
Proof. unfold read_clock. destruct (clock (w_tick w)). intros [= _ <-]. apply wf_tick. Qed.

(** A chain of steps that keep the relation. *)
Ltac chain :=
  first [ reflexivity | eassumption
        | match goal with
          | H : Rw _ ?w |- Rw _ ?w => etrans; [|exact H]; chain
          | |- Rw _ (put_txn _ _ _) => etrans; [|eapply wf_txn; [eassumption|first [done|by cbn; congruence]]]; chain
          | |- Rw _ (put_segment _ _ _) => etrans; [|apply wf_put_segment]; chain
          | |- Rw _ (set_stacks _ _) => etrans; [|apply wf_stacks]; chain
          | |- Rw _ (set_mem _ _) => etrans; [|apply wf_mem]; chain
          | |- Rw _ (mk_world _ _ _ _ _) => etrans; [|apply wf_tick]; chain
          end ].

Lemma wf_upd_segment w p f w' : upd_segment p f w = Some w' -> Rw w w'.
Proof. unfold upd_segment. intros E. results. chain. Qed.

Lemma wf_upd_step w p f r w' : (w1 ← upd_segment p f w; Some (tt, w1)) = Some (r, w') -> Rw w w'.
Proof. intros (w1 & E & [= _ <-])%bind_Some. by apply wf_upd_segment in E. Qed.

Lemma wf_add_child w p c w' : add_child realloc_ok p c w = Some w' -> Rw w w'.
Proof. unfold add_child. intros E. results. chain. Qed.

Lemma wf_remove_child w p c w' : remove_child realloc_ok p c w = Some w' -> Rw w w'.
Proof. unfold remove_child. intros E. results. chain. Qed.

Lemma wf_push_stack w st p w' : push_stack realloc_ok st p w = Some w' -> Rw w w'.
Proof. unfold push_stack. intros E. results. chain. Qed.

Lemma wf_push_default w tp p w' : push_default realloc_ok tp p w = Some w' -> Rw w w'.
Proof. unfold push_default. intros E. results. chain. Qed.

(** What is known of the steps with a name. *)
Ltac steps_known :=
  repeat match goal with
    | E : read_clock _ _ = _ |- _ => apply wf_clock in E
    | E : upd_segment _ _ _ = Some _ |- _ => apply wf_upd_segment in E
    | E : add_child _ _ _ _ = Some _ |- _ => apply wf_add_child in E
    | E : remove_child _ _ _ _ = Some _ |- _ => apply wf_remove_child in E
    | E : push_stack _ _ _ _ = Some _ |- _ => apply wf_push_stack in E
    | E : push_default _ _ _ _ = Some _ |- _ => apply wf_push_default in E
    end.

Lemma wf_set_current w txn p w' : nr_txn_set_current_segment realloc_ok txn p w = Some w' -> Rw w w'.
Proof. unfold nr_txn_set_current_segment, new_stack. intros E. results; steps_known; chain. Qed.

Lemma wf_retire w txn p w' : nr_txn_retire_current_segment realloc_ok txn p w = Some w' -> Rw w w'.
Proof. unfold nr_txn_retire_current_segment. intros E. results; chain. Qed.

Lemma wf_hang w p parent w' : hang_segment realloc_ok p parent w = Some w' -> Rw w w'.
Proof. unfold hang_segment. intros E. results; steps_known; chain. Qed.

Lemma wf_init_parent w p txn parent c w' : nr_segment_init_parent realloc_ok p txn parent c w = Some w' -> Rw w w'.
Proof.
  unfold nr_segment_init_parent. intros E. results; try (apply wf_set_current in E);
    match goal with H : hang_segment _ _ _ _ = Some _ |- _ => apply wf_hang in H end; chain.
Qed.

Lemma wf_start w txn w' r : nr_segment_start realloc_ok clock txn None None w = Some (r, w') -> Rw w w'.
Proof.
  unfold nr_segment_start, nr_segment_init. intros E. results; steps_known; try chain;
    match goal with E : nr_segment_init_parent _ _ _ _ _ _ = Some _ |- _ => apply wf_init_parent in E end; chain.
Qed.

Lemma wf_end w p w' r : nr_segment_end realloc_ok clock p w = Some (r, w') -> Rw w w'.
Proof.
  unfold nr_segment_end, read_clock. intros E. results; steps_known; try chain.
  match goal with E : nr_txn_retire_current_segment _ _ _ _ = Some _ |- _ => apply wf_retire in E end.
  destruct (s_stop_time _ =? 0); [destruct (clock _)|]; chain.
Qed.

Lemma wf_set_timing w p a b w' r : nr_segment_set_timing p a b w = Some (r, w') -> Rw w w'.
Proof. unfold nr_segment_set_timing. intros E. results; steps_known; chain. Qed.

Lemma wf_txn_timing w tp a b w' r : nr_txn_set_timing tp a b w = Some (r, w') -> Rw w w'.
Proof.
  unfold nr_txn_set_timing, deref_txn. intros E. results; steps_known; try chain.
Qed.

Lemma wf_set_name w p n w' r : nr_segment_set_name p n w = Some (r, w') -> Rw w w'.
Proof. unfold nr_segment_set_name. intros E. results; steps_known; chain. Qed.

Lemma wf_add_metric w p n b w' r : nr_segment_add_metric realloc_ok p n b w = Some (r, w') -> Rw w w'.
Proof. unfold nr_segment_add_metric. intros E. results; steps_known; chain. Qed.

Lemma wf_set_parent w p q w' r : nr_segment_set_parent realloc_ok p q w = Some (r, w') -> Rw w w'.
Proof. unfold nr_segment_set_parent. intros E. results; steps_known; chain. Qed.

Lemma wf_force_add w tp n d w' : force_add_at tp n d w = Some w' -> Rw w w'.
Proof. unfold force_add_at, add_unscoped. intros E. results; chain. Qed.

Lemma wf_add w p n b w' : add_metric realloc_ok p n b w = Some w' -> Rw w w'.
Proof. unfold add_metric. intros E. results. by apply wf_add_metric in H1. Qed.

Ltac calls_known :=
  steps_known;
  repeat match goal with
    | E : nr_segment_end _ _ _ _ = Some _ |- _ => apply wf_end in E
    | E : nr_segment_set_name _ _ _ = Some _ |- _ => apply wf_set_name in E
    | E : force_add_at _ _ _ _ = Some _ |- _ => apply wf_force_add in E
    | E : add_metric _ _ _ _ _ = Some _ |- _ => apply wf_add in E
    end.

Lemma wf_create_metrics w p d product c o i hostname w' r :
  create_metrics realloc_ok p d product c o i hostname w = Some (r, w') -> Rw w w'.
Proof. unfold create_metrics. intros E. results; calls_known; chain. Qed.

Lemma wf_datastore_end json_of w p params hostname w' :
  nr_segment_datastore_end realloc_ok clock json_of p params hostname w = Some w' -> Rw w w'.
Proof.
  unfold nr_segment_datastore_end, nr_segment_set_datastore. intros E. results; try chain;
    repeat match goal with H : create_metrics _ _ _ _ _ _ _ _ _ = Some _ |- _ => apply wf_create_metrics in H end; calls_known; chain.
Qed.

Lemma wf_external_end w p params w' r :
  nr_segment_external_end realloc_ok clock p params w = Some (r, w') -> Rw w w'.
Proof.
  unfold nr_segment_external_end, nr_segment_external_set_attrs, nr_segment_set_external, nr_segment_external_create_metrics.
  intros E. results; calls_known; chain.
Qed.

End Frames.

(** ** Programs *)

Section Programs.
Context {S P M A O : Type} `{NamePool P} `{ObjectAllocator S M} `{AxiomLib S P M A O}.

Abbreviation sdk := (sdk S P M A O).
Abbreviation prog := (prog S P M A O).

Implicit Types (s : sdk).

(** A relation on states that holds when only axiom, the trace or a lock of a transaction or of
    [segment.c] change, or the memory of axiom in relation. *)
Class Frame (R : sdk -> sdk -> Prop) (Rw : world S P M -> world S P M -> Prop) : Prop := {
  fr_pre :: PreOrder R;
  fr_wf :: WorldFrame Rw;
  fr_world : forall s w, Rw (sd_world s) w -> R s (set_world w s);
  fr_axiom : forall s a, R s (set_axiom a s);
  fr_trace : forall s e, R s (add_trace e s);
  fr_lock : forall s m v, (forall a, m <> AppLock a) -> R s (set_mutex m v s);
}.

(** The relation also holds when the events change. *)
Class EventFrame (R : sdk -> sdk -> Prop) : Prop := fr_events : forall s v, R s (set_events v s).

Lemma bind_inv {T U : Type} (m : prog T) (f : T -> prog U) s r s' :
  (m ≫= f) s = Some (r, s') -> exists x s1, m s = Some (x, s1) /\ f x s1 = Some (r, s').
Proof. unfold mbind, prog_bind. destruct (m s) as [[x s1]|]; [|done]. by exists x, s1. Qed.

Lemma ret_inv {T : Type} (x : T) s r s' : (mret x : prog T) s = Some (r, s') -> s' = s.
Proof. by intros [= _ <-]. Qed.

Lemma gets_inv {T : Type} (f : sdk -> T) s r s' : gets f s = Some (r, s') -> r = f s /\ s' = s.
Proof. by intros [= <- <-]. Qed.

Lemma of_option_inv {T : Type} (o : option T) s r s' : of_option o s = Some (r, s') -> o = Some r /\ s' = s.
Proof. unfold of_option. destruct o; [|done]. by intros [= <- <-]. Qed.

Lemma modify_inv (f : sdk -> sdk) s r s' : modify f s = Some (r, s') -> s' = f s.
Proof. by intros [= _ <-]. Qed.

Lemma on_world_inv {T : Type} (f : world S P M -> option (T * world S P M)) s r s' :
  on_world f s = Some (r, s') -> exists w, f (sd_world s) = Some (r, w) /\ s' = set_world w s.
Proof. unfold on_world. destruct (f (sd_world s)) as [[x w]|]; [|done]. intros [= <- <-]. by exists w. Qed.

Context (R : sdk -> sdk -> Prop) (Rw : world S P M -> world S P M -> Prop) `{!Frame R Rw}.
Context (realloc_ok : Z -> bool) (clock : nat -> Z * Z) (HAVE_BACKTRACE : bool).

(** The steps of a program with a result. *)
Ltac runs :=
  repeat match goal with
    | H : (_ ≫= _) _ = Some _ |- _ => apply bind_inv in H as (? & ? & ? & H)
    | H : mret _ _ = Some _ |- _ => apply ret_inv in H; subst
    | H : gets _ _ = Some _ |- _ => apply gets_inv in H as [? ?]; subst
    | H : of_option _ _ = Some _ |- _ => apply of_option_inv in H as [? ?]; subst
    | H : modify _ _ = Some _ |- _ => apply modify_inv in H; subst
    | H : undefined _ = Some _ |- _ => discriminate H
    | H : on_world _ _ = Some _ |- _ => apply on_world_inv in H as (? & ? & ?); subst
    | H : traced _ _ = Some _ |- _ => apply modify_inv in H; subst
    | H : call_ _ _ = Some _ |- _ => apply modify_inv in H; subst
    | H : (match ?x with _ => _ end) _ = Some _ |- _ => destruct x eqn:?
    | x : unit |- _ => destruct x
    end.

(** A chain of states in relation. *)
Ltac linked :=
  first [ reflexivity | eassumption
        | match goal with
          | H : R _ ?s |- R _ ?s => etrans; [|exact H]; linked
          | |- R _ (add_trace _ _) => etrans; [|apply fr_trace]; linked
          | |- R _ (set_axiom _ _) => etrans; [|apply fr_axiom]; linked
          | |- R _ (set_events _ _) => etrans; [|apply (fr_events (R := R))]; linked
          | |- R _ (set_world _ _) => etrans; [|apply fr_world; eassumption]; linked
          end ].

Lemma fr_call {T : Type} (f : A -> T * A) s r s' : call f s = Some (r, s') -> R s s'.
Proof. intros [= _ <-]. linked. Qed.

Lemma fr_mutex_lock m s r s' : nrt_mutex_lock m s = Some (r, s') -> (forall a, m <> Some (AppLock a)) -> R s s'.
Proof.
  unfold nrt_mutex_lock. intros E Hm. runs; try linked. etrans; [|apply fr_trace]. apply fr_lock. intros a ->. by apply (Hm a).
Qed.

Lemma fr_mutex_unlock m s r s' : nrt_mutex_unlock m s = Some (r, s') -> (forall a, m <> Some (AppLock a)) -> R s s'.
Proof.
  unfold nrt_mutex_unlock. intros E Hm. runs; try linked. etrans; [|apply fr_trace]. apply fr_lock. intros a ->. by apply (Hm a).
Qed.

Lemma use_segment_inv p s r s' : use_segment p s = Some (r, s') -> R s s'.
Proof. unfold use_segment. intros E. apply bind_Some in E as (sg & _ & E). destruct (s_txn sg); [runs; linked|injection E as _ <-; linked]. Qed.

Lemma segment_of_inv p s r s' : segment_of p s = Some (r, s') -> sd_segments s !! p = Some r /\ s' = s.
Proof. unfold segment_of. intros E. runs. done. Qed.

Lemma txn_of_inv x s r s' : txn_of x s = Some (r, s') -> s' = s.
Proof. unfold txn_of. intros E. by runs. Qed.

Lemma fr_read_segment p s r s' : read_segment p s = Some (r, s') -> R s s'.
Proof. unfold read_segment. intros E. runs. by eapply use_segment_inv. Qed.

Lemma fr_read_txn tp s r s' : read_txn tp s = Some (r, s') -> R s s'.
Proof. unfold read_txn. intros E. runs. linked. Qed.

(** A transaction changed in place, but for its status of recording. *)
Lemma fr_on_txn tp {T : Type} (f : option (nrtxn_t S P) -> option (T * option (nrtxn_t S P))) s r s' :
  on_txn tp f s = Some (r, s') ->
  (forall t x t', f (Some t) = Some (x, Some t') -> recording (t_status t') = recording (t_status t)) -> R s s'.
Proof.
  unfold on_txn. intros E Hf. runs. match goal with H : _ = Some (_, _) |- _ => rename H into Hw end.
  apply bind_Some in Hw as (t & Ht & Hw). apply bind_Some in Hw as ([y t1] & Hx & Hw).
  apply bind_Some in Hw as (t' & -> & Hw). injection Hw as <- <-.
  etrans; [apply fr_trace|]. apply fr_world. eapply wf_txn; [exact Ht|by eapply Hf].
Qed.

(** The steps that are calls. *)
Ltac known :=
  repeat match goal with
    | H : segment_of _ _ = Some _ |- _ => apply segment_of_inv in H as [? ?]; subst
    | H : txn_of _ _ = Some _ |- _ => apply txn_of_inv in H; subst
    | H : use_segment _ _ = Some _ |- _ => apply use_segment_inv in H
    | H : read_segment _ _ = Some _ |- _ => apply fr_read_segment in H
    | H : read_txn _ _ = Some _ |- _ => apply fr_read_txn in H
    | H : call _ _ = Some _ |- _ => apply fr_call in H
    | H : nrt_mutex_lock (Some (TxnLock _)) _ = Some _ |- _ => apply fr_mutex_lock in H; [|done]
    | H : nrt_mutex_unlock (Some (TxnLock _)) _ = Some _ |- _ => apply fr_mutex_unlock in H; [|done]
    | H : nrt_mutex_lock (Some SegmentMutex) _ = Some _ |- _ => apply fr_mutex_lock in H; [|done]
    | H : nrt_mutex_unlock (Some SegmentMutex) _ = Some _ |- _ => apply fr_mutex_unlock in H; [|done]
    | H : nrt_mutex_lock ?m _ = Some _, Hm : forall a, ?m <> Some (AppLock a) |- _ => apply fr_mutex_lock in H; [|exact Hm]
    | H : nrt_mutex_unlock ?m _ = Some _, Hm : forall a, ?m <> Some (AppLock a) |- _ => apply fr_mutex_unlock in H; [|exact Hm]
    | H : nr_segment_start _ _ _ _ _ _ = Some _ |- _ => eapply (wf_start realloc_ok clock Rw) in H
    | H : nr_segment_end _ _ _ _ = Some _ |- _ => eapply (wf_end realloc_ok clock Rw) in H
    | H : nr_segment_set_name _ _ _ = Some _ |- _ => eapply (wf_set_name Rw) in H
    | H : nr_segment_add_metric _ _ _ _ _ = Some _ |- _ => eapply (wf_add_metric realloc_ok Rw) in H
    | H : nr_segment_set_timing _ _ _ _ = Some _ |- _ => eapply (wf_set_timing Rw) in H
    | H : nr_txn_set_timing _ _ _ _ = Some _ |- _ => eapply (wf_txn_timing Rw) in H
    | H : nr_segment_set_parent _ _ _ _ = Some _ |- _ => eapply (wf_set_parent realloc_ok Rw) in H
    | H : Some (read_clock _ _) = Some _ |- _ => injection H as H; eapply (wf_clock clock Rw) in H
    end.

Ltac follow := runs; known; linked.

Lemma supportability_frame txn name s r s' :
  newrelic_add_api_supportability_metric txn name s = Some (r, s') -> R s s'.
Proof.
  unfold newrelic_add_api_supportability_metric. destruct name as [name|], txn as [tp|]; intros E; try follow.
  eapply fr_on_txn; [exact E|]. intros t x t' Et. unfold add_unscoped in Et.
  apply bind_Some in Et as (t1 & Et & E1). apply bind_Some in Et as (table & _ & E2). injection E2 as <-. by injection E1 as _ <-.
Qed.

Ltac metric_known :=
  repeat match goal with H : newrelic_add_api_supportability_metric _ _ _ = Some _ |- _ => apply supportability_frame in H end.

Lemma set_transaction_timing_frame x a b s r s' : newrelic_set_transaction_timing x a b s = Some (r, s') -> R s s'.
Proof. unfold newrelic_set_transaction_timing. intros E. runs; known; metric_known; linked. Qed.

(** The wrapper at an address has no lock of an application. *)
Definition txn_locked s (p : sdk_seg_ptr) : Prop :=
  forall sg, sd_segments s !! p = Some sg -> forall a, sg_txn_lock sg <> Some (AppLock a).

Ltac wrapper_lock Hl :=
  match goal with
  | H : segment_of _ _ = Some _ |- _ =>
      let Hsg := fresh in apply segment_of_inv in H as [Hsg ?]; subst; pose proof (Hl _ Hsg)
  end.

Lemma set_segment_timing_frame p a b s r s' :
  txn_locked s p -> newrelic_set_segment_timing (Some p) a b s = Some (r, s') -> R s s'.
Proof. unfold newrelic_set_segment_timing. intros Hl E. runs. wrapper_lock Hl. known. linked. Qed.

Lemma set_segment_parent_frame p q s r s' :
  txn_locked s p -> newrelic_set_segment_parent realloc_ok (Some p) (Some q) s = Some (r, s') -> R s s'.
Proof.
  unfold newrelic_set_segment_parent. intros Hl E. destruct (bool_decide (p = q)); [follow|].
  apply bind_inv in E as (sg & s1 & E1 & E). apply segment_of_inv in E1 as [Hsg ->]. pose proof (Hl _ Hsg) as Hlock.
  runs. known. metric_known. linked.
Qed.

Lemma set_segment_parent_root_frame p s r s' :
  txn_locked s p -> newrelic_set_segment_parent_root realloc_ok (Some p) s = Some (r, s') -> R s s'.
Proof.
  unfold newrelic_set_segment_parent_root. intros Hl E.
  apply bind_inv in E as (sg & s1 & E1 & E). apply segment_of_inv in E1 as [Hsg ->]. pose proof (Hl _ Hsg) as Hlock.
  runs; known; metric_known; linked.
Qed.

Lemma set_transaction_name_frame x name s r s' : newrelic_set_transaction_name x name s = Some (r, s') -> R s s'.
Proof.
  unfold newrelic_set_transaction_name. intros E. runs; known; try linked;
    match goal with H : on_txn _ _ _ = Some _ |- _ => eapply fr_on_txn; [exact H|] end;
    intros t y t' Et; unfold nr_txn_set_path in Et; repeat case_match; by injection Et as _ <-.
Qed.

Lemma record_custom_metric_frame x name v s r s' : newrelic_record_custom_metric x name v s = Some (r, s') -> R s s'.
Proof.
  unfold newrelic_record_custom_metric. intros E. runs; known; try linked.
  match goal with H : on_txn _ _ _ = Some _ |- _ => eapply fr_on_txn in H end; [linked|].
  intros t y t' Et. unfold nr_txn_add_custom_metric, add_unscoped in Et. results; done.
Qed.

Lemma notice_error_frame x priority msg cls s r s' :
  newrelic_notice_error clock HAVE_BACKTRACE x priority msg cls s = Some (r, s') -> R s s'.
Proof.
  unfold newrelic_notice_error, notice_error_locked, newrelic_get_stack_trace_as_json. intros E. runs; known; try linked;
    (match goal with H : on_txn _ _ _ = Some _ |- _ => eapply fr_on_txn in H end; [linked|]);
    intros t y t' Et; unfold nr_txn_record_error in Et; results; repeat case_match; by simplify_eq.
Qed.

Lemma add_attribute_frame x key value s r s' : newrelic_add_attribute x key value s = Some (r, s') -> R s s'.
Proof.
  unfold newrelic_add_attribute, nr_txn_add_user_custom_parameter. intros E. runs; known; linked.
Qed.

(** ** Writing wrappers *)

(** The relation also holds when a wrapper is written with good fields or the ones it had, or removed. *)
Class WrapperFrame (good : type_fields_t -> Prop) : Prop := {
  wr_put : forall s p sg, good (sg_type sg) \/ (exists sg0, sd_segments s !! p = Some sg0 /\ sg_type sg = sg_type sg0) ->
    R s (set_sdk_segments (<[p := sg]> (sd_segments s)) s);
  wr_delete : forall s p, R s (set_sdk_segments (delete p (sd_segments s)) s);
}.

Context (good : type_fields_t -> Prop) `{!WrapperFrame good}.

Lemma update_segment_frame p f s r s' :
  update_segment p f s = Some (r, s') ->
  (forall sg, sd_segments s !! p = Some sg -> good (sg_type (f sg)) \/ sg_type (f sg) = sg_type sg) -> R s s'.
Proof.
  unfold update_segment. intros E Hf. runs. known. match goal with H : sd_segments _ !! p = Some ?sg |- _ => rename H into Hp end.
  apply wr_put. destruct (Hf _ Hp) as [?|?]; [by left|right]. by eexists.
Qed.

Lemma segment_create_frame tp s r s' :
  good NoFields -> newrelic_segment_create realloc_ok clock tp s = Some (r, s') -> R s s'.
Proof.
  unfold newrelic_segment_create. intros Hgood E. runs; known; try linked.
  etrans; [|apply wr_put; by left]. linked.
Qed.

Lemma start_segment_frame x name category s r s' :
  good NoFields -> newrelic_start_segment realloc_ok clock x name category s = Some (r, s') -> R s s'.
Proof.
  unfold newrelic_start_segment. intros Hgood E. runs; try linked;
    repeat match goal with
      | H : update_segment _ _ _ = Some _ |- _ => apply update_segment_frame in H; [|intros ? ?; by right]
      | H : newrelic_segment_create _ _ _ _ = Some _ |- _ => apply segment_create_frame in H; [|exact Hgood]
      end; known; linked.
Qed.

(** When every fields are good. *)
Lemma end_segment_frame transaction segment s r s' :
  (forall f, good f) -> newrelic_end_segment realloc_ok clock transaction segment s = Some (r, s') -> R s s'.
Proof.
  intros Hgood. unfold newrelic_end_segment, newrelic_end_datastore_segment, newrelic_end_external_segment,
    newrelic_segment_destroy. intros E.
  runs; known;
    repeat match goal with
      | H : update_segment _ _ _ = Some _ |- _ => apply update_segment_frame in H; [|intros ? ?; by left]
      | H : (_ ← nr_segment_datastore_end _ _ _ _ _ _ _; _) = Some _ |- _ => results
      | H : nr_segment_datastore_end _ _ _ _ _ _ _ = Some _ |- _ => eapply (wf_datastore_end realloc_ok clock Rw) in H
      | H : nr_segment_external_end _ _ _ _ _ = Some _ |- _ => eapply (wf_external_end realloc_ok clock Rw) in H
      end; try linked; try (etrans; [|apply wr_delete]; linked).
Qed.

(** The start of a segment of a type. *)
Ltac typed_start Hgood :=
  runs; try linked;
  repeat match goal with
    | H : (_ ← upd_segment _ _ _; Some _) = Some _ |- _ => eapply (wf_upd_step Rw) in H
    | H : update_segment _ _ _ = Some _ |- _ => apply update_segment_frame in H; [|intros ? ?; by left]
    | H : newrelic_segment_create _ _ _ _ = Some _ |- _ => apply segment_create_frame in H; [|exact (Hgood _)]
    end; known; linked.

Lemma start_datastore_frame x params s r s' :
  (forall f, good f) -> newrelic_start_datastore_segment realloc_ok clock x params s = Some (r, s') -> R s s'.
Proof. unfold newrelic_start_datastore_segment. intros Hgood E. typed_start Hgood. Qed.

Lemma start_external_frame x params s r s' :
  (forall f, good f) -> newrelic_start_external_segment realloc_ok clock x params s = Some (r, s') -> R s s'.
Proof. unfold newrelic_start_external_segment. intros Hgood E. typed_start Hgood. Qed.

(** ** Events *)

Context `{!EventFrame R}.

Lemma create_custom_event_frame ty s r s' : newrelic_create_custom_event ty s = Some (r, s') -> R s s'.
Proof. unfold newrelic_create_custom_event. intros E. follow. Qed.

Lemma set_attribute_frame e f s r s' : set_attribute e f s = Some (r, s') -> R s s'.
Proof. unfold set_attribute. intros E. runs; known; try linked. Qed.

Lemma discard_custom_event_frame e s r s' : newrelic_discard_custom_event e s = Some (r, s') -> R s s'.
Proof. unfold newrelic_discard_custom_event. intros E. follow. Qed.

Lemma record_custom_event_frame x e s r s' : newrelic_record_custom_event clock x e s = Some (r, s') -> R s s'.
Proof.
  unfold newrelic_record_custom_event, nr_txn_record_custom_event. intros E. runs; known;
    repeat match goal with H : newrelic_discard_custom_event _ _ = Some _ |- _ => apply discard_custom_event_frame in H end; linked.
Qed.

End Programs.

(** ** The fields of the wrappers *)

(** Fields of a wrapper with which its segment can end, whatever its type. *)
Definition fields_ok (f : type_fields_t) : Prop :=
  datastore_end_params_ok (datastore_end_params (datastore_fields f))
  /\ external_end_params_ok (external_end_params (external_fields f)).

Section Fields.
Context {S P M A O : Type} `{NamePool P} `{ObjectAllocator S M} `{AxiomLib S P M A O}.

Implicit Types (s : sdk S P M A O).

Definition all_fields s : Prop := forall p sg, sd_segments s !! p = Some sg -> fields_ok (sg_type sg).
Definition fields_kept s s' : Prop := all_fields s -> all_fields s'.

Lemma fields_kept_same s s' : sd_segments s' = sd_segments s -> fields_kept s s'.
Proof. unfold fields_kept, all_fields. by intros ->. Qed.

Lemma all_fields_insert s s' p sg :
  sd_segments s' = <[p := sg]> (sd_segments s) -> fields_ok (sg_type sg) -> fields_kept s s'.
Proof. intros E Hsg Hs q sq. rewrite E. intros [[<- <-]|[_ Hq]]%lookup_insert_Some; [done|by apply (Hs q)]. Qed.

Lemma all_fields_delete s s' p : sd_segments s' = delete p (sd_segments s) -> fields_kept s s'.
Proof. intros E Hs q sq. rewrite E. intros [_ Hq]%lookup_delete_Some. by apply (Hs q). Qed.

Lemma no_fields_ok : fields_ok NoFields.
Proof. split; [by left|done]. Qed.

#[export] Instance any_world_frame : WorldFrame (S := S) (P := P) (M := M) (fun _ _ => True).
Proof. constructor; try done. Qed.

#[export] Instance fields_kept_frame : Frame fields_kept (fun _ _ : world S P M => True).
Proof.
  constructor; try (intros; by apply fields_kept_same); try apply _.
  - constructor; [intros s Hs; exact Hs|intros s1 s2 s3 H12 H23 Hs; exact (H23 (H12 Hs))].
  - intros s m v Hm. destruct m; by apply fields_kept_same.
Qed.

#[export] Instance fields_kept_events : EventFrame fields_kept.
Proof. intros s v. by apply fields_kept_same. Qed.

#[export] Instance fields_kept_wrappers : WrapperFrame fields_kept fields_ok.
Proof.
  constructor; [|intros s p; by eapply all_fields_delete].
  intros s p sg Hsg Hs. destruct Hsg as [Hsg|(sg0 & Hp & E)]; (eapply all_fields_insert; [done| |exact Hs]); [done|].
  rewrite E. by apply (Hs p).
Qed.

(** Ignoring a transaction changes the transaction. *)
Lemma ignore_transaction_inv x s r s' :
  newrelic_ignore_transaction x s = Some (r, s') ->
  s' = s \/ exists tp t t' e, w_txns (sd_world s) !! tp = Some t /\ s' = set_world (put_txn tp t' (sd_world s)) (add_trace e s).
Proof.
  unfold newrelic_ignore_transaction, on_txn. intros E. destruct x as [x|]; [|left; by apply ret_inv in E as ->]. right.
  apply bind_inv in E as (tp & s1 & E1 & E). apply bind_inv in E as ([] & s2 & E2 & E).
  unfold txn_of in E1. apply bind_inv in E1 as (s0 & s3 & E0 & E1). apply gets_inv in E0 as [-> ->].
  apply bind_inv in E1 as (tx & s4 & E3 & E1). apply of_option_inv in E3 as [_ ->]. apply ret_inv in E1 as ->.
  apply modify_inv in E2 as ->. apply on_world_inv in E as (w & E & ->).
  apply bind_Some in E as (t & Ht & E). apply bind_Some in E as ([y t1] & _ & E). apply bind_Some in E as (t' & _ & [= _ <-]).
  by exists tp, t, t', (Uses tp).
Qed.

Lemma ignore_transaction_fields x s r s' : newrelic_ignore_transaction x s = Some (r, s') -> fields_kept s s'.
Proof. intros [->|(tp & t & t' & e & _ & ->)]%ignore_transaction_inv; by apply fields_kept_same. Qed.

(** ** What most calls do not touch *)

(** No transaction of axiom begins or goes. *)
Definition txns_kept (w w' : world S P M) : Prop := dom (w_txns w') = dom (w_txns w).

(** Those that are there go on recording or not. *)
Definition statuses_kept (w w' : world S P M) : Prop :=
  txns_kept w w' /\ forall tp t, w_txns w !! tp = Some t ->
    exists t', w_txns w' !! tp = Some t' /\ recording (t_status t') = recording (t_status t).

(** Applications and transactions stay. *)
Definition handles_kept s s' : Prop :=
  txns_kept (sd_world s) (sd_world s') /\ sd_apps s' = sd_apps s /\ tx_txn <$> sd_txns s' = tx_txn <$> sd_txns s.

(** So do the wrappers and the events, unless they are said to be touched. *)
Definition touches (wrappers events : bool) s s' : Prop :=
  handles_kept s s' /\ statuses_kept (sd_world s) (sd_world s')
  /\ (wrappers = false -> sd_segments s' = sd_segments s) /\ (events = false -> sd_events s' = sd_events s).

Lemma txns_kept_put w tp t t' : w_txns w !! tp = Some t -> txns_kept w (put_txn tp t' w).
Proof. intros Ht. unfold txns_kept. cbn. apply dom_insert_lookup_L. by eexists. Qed.

#[export] Instance txns_kept_frame : WorldFrame txns_kept.
Proof.
  constructor; try done; [|intros w tp t t' Ht _; by eapply txns_kept_put].
  constructor; [done|]. intros w1 w2 w3 H12 H23. unfold txns_kept in *. congruence.
Qed.

#[export] Instance statuses_kept_frame : WorldFrame statuses_kept.
Proof.
  assert (Hsame : forall w w' : world S P M, w_txns w' = w_txns w -> statuses_kept w w').
  { intros w w' E. split; [unfold txns_kept; by rewrite E|]. intros tp t Ht. rewrite E. by exists t. }
  constructor; try (intros; by apply Hsame).
  - constructor; [intros w; by apply Hsame|]. intros w1 w2 w3 [Hd12 H12] [Hd23 H23]. split; [by etrans|]. intros tp t Ht.
    destruct (H12 tp t Ht) as (t2 & Ht2 & E2), (H23 tp t2 Ht2) as (t3 & Ht3 & E3). exists t3. split; [done|congruence].
  - intros w tp t t' Ht E. split; [by eapply txns_kept_put|]. intros tq tt Htt. cbn. destruct (decide (tq = tp)) as [->|Hne].
    + rewrite lookup_insert_eq. exists t'. split; [done|congruence].
    + rewrite lookup_insert_ne by done. by exists tt.
Qed.

#[export] Instance handles_kept_frame : Frame handles_kept txns_kept.
Proof.
  constructor; try apply _; try (intros; by split_and!).
  - constructor; [intros s; by split_and!|]. intros s1 s2 s3 (H1' & H2' & H3) (H4 & H5 & H6). split; [by etrans|]. split; congruence.
  - intros s m v Hm. destruct m as [|a|x|n]; split_and!; try done; [by destruct (Hm a)|].
    cbn. apply map_eq. intros y. rewrite !lookup_fmap. destruct (decide (y = x)) as [->|Hne].
    + rewrite lookup_alter_eq. by destruct (sd_txns s !! x).
    + by rewrite lookup_alter_ne.
Qed.

#[export] Instance handles_kept_wrappers : WrapperFrame handles_kept (fun _ => True).
Proof. constructor; intros; by split. Qed.

#[export] Instance handles_kept_events : EventFrame handles_kept.
Proof. intros s v. by split. Qed.

(** Ignoring a transaction changes what it records, but no handle. *)
Lemma ignore_transaction_handles x s r s' : newrelic_ignore_transaction x s = Some (r, s') -> handles_kept s s'.
Proof. intros [->|(tp & t & t' & e & Ht & ->)]%ignore_transaction_inv; [done|]. split; [by eapply txns_kept_put|done]. Qed.

#[export] Instance touches_frame wrappers events : Frame (touches wrappers events) statuses_kept.
Proof.
  assert (Hrefl : forall w : world S P M, statuses_kept w w) by reflexivity.
  constructor; try apply _; try (intros; by split_and!).
  - constructor; [intros s; by split_and!|]. intros s1 s2 s3 (H1' & H2' & H3 & H4) (H5 & H6 & H7 & H8).
    split; [by etrans|]. split; [by etrans|]. split; intros E; [rewrite H7, H3|rewrite H8, H4]; done.
  - intros s w Hw. split; [split; [apply Hw|done]|by split_and!].
  - intros s m v Hm. split; [by apply fr_lock|]. by destruct m.
Qed.

#[export] Instance touches_wrappers events : WrapperFrame (touches true events) (fun _ => True).
Proof.
  assert (Hrefl : forall w : world S P M, statuses_kept w w) by reflexivity.
  constructor; intros; split_and!; try done; try by split.
Qed.

#[export] Instance touches_events wrappers : EventFrame (touches wrappers true).
Proof.
  assert (Hrefl : forall w : world S P M, statuses_kept w w) by reflexivity.
  intros s v. by split_and!.
Qed.

End Fields.
