(* ===== verification/Calls.v ===== *)
(** * Calls

    The end of a segment, segments for datastores and external calls, custom events; and sessions,
    sequences of calls between the start and the end of the transactions. *)

From S2P Require Import Prelude Vector Strings Time StringPool Metrics.
From S2P Require Import HashMap SegmentChildren Slab Datastore Slowsqls Txn Config Segment SegmentEnd Sdk SdkSample.
From S2P Require Import SdkGlobal SdkTransaction SdkSegment Session SessionEnds Frames.

Section Calls.
Context {S P M A O : Type} `{NamePool P} `{ObjectAllocator S M} `{AxiomLib S P M A O}.
Context (realloc_ok : Z -> bool) (clock : nat -> Z * Z) (Hroomy : roomy realloc_ok).

Abbreviation sdk := (sdk S P M A O).
Abbreviation prog := (prog S P M A O).

Implicit Types (s : sdk) (kids : seg_ptr -> list seg_ptr) (k : Z).

(** ** Segments of datastores and external calls *)

(** Changing the type of a segment. *)
Lemma seg_type_ok k (w : world S P M) kids tp p ty :
  memory_ok k w kids -> owned (w_segments w) tp p ->
  exists sg, w_segments w !! p = Some sg /\ s_txn sg = Some tp
    /\ upd_segment p (seg_type ty) w = Some (put_segment p (seg_type ty sg) w)
    /\ memory_ok k (put_segment p (seg_type ty sg) w) kids.
Proof.
  intros Hm (sg & Hp & Ho). exists sg. split; [done|]. split; [done|]. split; [unfold upd_segment; by rewrite Hp|].
  apply (memory_ok_put k w kids p sg); try done. by split; [|split; [|left]].
Qed.

(** Writing what is new. *)
Lemma grows_put_new (w w' : world S P M) p sg : grows w w' -> w_segments w !! p = None -> grows w (put_segment p sg w').
Proof.
  intros Hg Hp. constructor; [|apply Hg]. intros x sx Hx. cbn. rewrite lookup_insert_ne by congruence. by apply (gr_segments _ _ Hg).
Qed.

(** The segment of a transaction of which every field but the ones of its type is set. *)
Definition typed_segment (x : sdk_txn_ptr) (ty : nr_segment_type_t) (fill : sdk_seg_ptr -> prog unit)
  : prog (option sdk_seg_ptr) :=
  tp ← txn_of x;
  segment ← newrelic_segment_create realloc_ok clock tp;
  _ ← (match segment with
       | None => mret tt
       | Some p =>
           sg ← segment_of p;
           _ ← use_segment (sg_segment sg);
           _ ← on_world (fun w => w ← upd_segment (sg_segment sg) (seg_type ty) w; Some (tt, w));
           fill p
       end);
  mret segment.

Lemma typed_segment_run k s1 kids x tx t ty fill (fields : A -> type_fields_t) :
  memory_ok (k + 1) (sd_world s1) kids -> 0 <= k -> txn_of x s1 = Some (tx_txn tx, s1) ->
  mu_locked (sd_mutex s1) = false ->
  w_txns (sd_world s1) !! tx_txn tx = Some t -> recording (t_status t) <> 0 ->
  oa_next (w_mem (sd_world s1)) (t_segment_slab t) <> None ->
  (forall s q sg, sd_segments s !! q = Some sg ->
     fill q s = Some (tt, set_sdk_segments (<[q := with_type (fields (sd_axiom s)) sg]> (sd_segments s)) s)) ->
  let q := fresh (dom (sd_segments s1)) in
  exists p s2 kids2 sg, typed_segment x ty fill s1 = Some (Some q, s2)
    /\ memory_ok k (sd_world s2) kids2 /\ grows (sd_world s1) (sd_world s2) /\ same_api s1 s2
    /\ sd_axiom s2 = sd_axiom s1
    /\ sd_segments s2 = <[q := mk_sdk_segment p (Some (tx_txn tx)) None (fields (sd_axiom s1))]> (sd_segments s1)
    /\ w_segments (sd_world s2) !! p = Some sg /\ s_type sg = ty /\ s_txn sg = Some (tx_txn tx).
Proof.
  intros Hm Hk Hx Hmu Ht Hrec Hmem Hfill q. unfold typed_segment. erewrite bind_run by exact Hx. cbv beta.
  destruct (segment_create_run realloc_ok clock Hroomy k s1 kids (tx_txn tx) t Hm Hk Hmu Ht Hrec Hmem)
    as (l & p & w2 & kids2 & s2 & Hrun & _ & Hm2 & Hg2 & Hst & Ew2 & Es2 & Hapi2 & Ea2).
  erewrite bind_run by exact Hrun. cbv beta iota. fold q in Es2.
  assert (Hq2 : sd_segments s2 !! q = Some (mk_sdk_segment p (Some (tx_txn tx)) None NoFields))
    by (rewrite Es2; apply lookup_insert_eq).
  assert (Hown : owned (w_segments (sd_world s2)) (tx_txn tx) p)
    by (rewrite Ew2; eexists; split; [exact (sa_segment _ _ _ _ _ _ _ _ Hst)|done]).
  rewrite <- Ew2 in Hm2, Hg2.
  destruct (seg_type_ok k (sd_world s2) kids2 (tx_txn tx) p ty Hm2 Hown) as (sg & Hp & Ho & Hupd & Hm3).
  set (s3 := set_world (put_segment p (seg_type ty sg) (sd_world s2)) (add_trace (Uses (tx_txn tx)) s2)).
  erewrite bind_run.
  2:{ erewrite bind_run by (apply segment_of_run; exact Hq2). cbv beta.
      erewrite bind_run by by apply (use_segment_run _ _ (tx_txn tx)). cbv beta.
      erewrite bind_run by (apply (on_world_run _ _ tt); cbn [sd_world add_trace sg_segment]; rewrite Hupd; reflexivity).
      cbv beta. apply (Hfill s3 q (mk_sdk_segment p (Some (tx_txn tx)) None NoFields)). exact Hq2. }
  cbv beta. eexists p, _, kids2, (seg_type ty sg). split; [reflexivity|].
  split; [exact Hm3|]. split; [exact (grows_put_new _ _ p _ Hg2 (sa_fresh _ _ _ _ _ _ _ _ Hst))|]. split; [exact Hapi2|]. split; [exact Ea2|].
  split; [cbn; rewrite Es2, insert_insert_eq; by rewrite Ea2|]. cbn. rewrite lookup_insert_eq. by repeat split.
Qed.

(** Nothing is created in a transaction that does not record. *)
Lemma create_ignored s1 tp t :
  w_txns (sd_world s1) !! tp = Some t -> recording (t_status t) = 0 ->
  newrelic_segment_create realloc_ok clock tp s1 = Some (None, set_world (sd_world s1) (add_trace (Uses tp) s1)).
Proof.
  intros Ht Hrec. unfold newrelic_segment_create. erewrite bind_run by done. cbv beta.
  eapply eq_trans; [apply (bind_run _ _ _ None)|reflexivity].
  apply on_world_run. unfold nr_segment_start. cbn [sd_world add_trace]. rewrite Ht. cbn [mbind option_bind]. by rewrite Hrec.
Qed.

Lemma typed_segment_ignored s1 x tx t ty fill :
  txn_of x s1 = Some (tx_txn tx, s1) -> w_txns (sd_world s1) !! tx_txn tx = Some t -> recording (t_status t) = 0 ->
  typed_segment x ty fill s1 = Some (None, set_world (sd_world s1) (add_trace (Uses (tx_txn tx)) s1)).
Proof.
  intros Hx Ht Hrec. unfold typed_segment. erewrite bind_run by exact Hx. cbv beta.
  erewrite bind_run by by apply (create_ignored s1 (tx_txn tx) t). cbv beta iota. by erewrite bind_run.
Qed.

(** The same for a custom segment: the NULL that comes back is written to. *)
Lemma start_segment_ignored k s kids x tx t name category :
  sdk_ok k s kids -> sd_txns s !! x = Some tx -> w_txns (sd_world s) !! tx_txn tx = Some t -> recording (t_status t) = 0 ->
  newrelic_start_segment realloc_ok clock (Some x) name category s = None.
Proof.
  intros Hok Hx Ht Hrec. destruct (so_txns _ _ _ Hok x tx Hx) as [_ Hfree]. unfold newrelic_start_segment.
  erewrite bind_run by by apply lock_txn_run. cbv beta. set (s1 := add_trace (Lock (TxnLock x)) (relock x tx true s)).
  assert (Hx1 : sd_txns s1 !! x = Some (mk_sdk_txn (tx_txn tx) (mk_mutex true true))) by apply lookup_insert_eq.
  erewrite bind_run by by apply txn_of_run. cbv beta. cbn [tx_txn].
  erewrite bind_run by by apply (create_ignored s1 (tx_txn tx) t). cbv beta iota.
  erewrite bind_run by done. cbv beta. erewrite bind_run by by eapply unlock_txn_run. cbv beta.
  by apply bind_undefined.
Qed.

Definition locked_typed_segment (x : sdk_txn_ptr) (ty : nr_segment_type_t) (fill : sdk_seg_ptr -> prog unit)
  : prog (option sdk_seg_ptr) :=
  _ ← nrt_mutex_lock (Some (TxnLock x)); r ← typed_segment x ty fill; _ ← nrt_mutex_unlock (Some (TxnLock x)); mret (id r).

Lemma locked_typed_run k s kids x tx t ty fill (fields : A -> type_fields_t) :
  sdk_ok (k + 2) s kids -> 0 <= k -> sd_txns s !! x = Some tx ->
  w_txns (sd_world s) !! tx_txn tx = Some t -> recording (t_status t) <> 0 ->
  oa_next (w_mem (sd_world s)) (t_segment_slab t) <> None ->
  (forall s q sg, sd_segments s !! q = Some sg ->
     fill q s = Some (tt, set_sdk_segments (<[q := with_type (fields (sd_axiom s)) sg]> (sd_segments s)) s)) ->
  (forall a, fits ty (fields a) = true) ->
  exists p q s' kids' sg, locked_typed_segment x ty fill s = Some (Some q, s') /\ sdk_ok k s' kids'
    /\ sd_segments s !! q = None /\ sd_txns s' = sd_txns s /\ sd_axiom s' = sd_axiom s
    /\ sd_segments s' = <[q := mk_sdk_segment p (Some (tx_txn tx)) None (fields (sd_axiom s))]> (sd_segments s)
    /\ w_segments (sd_world s') !! p = Some sg /\ s_type sg = ty /\ s_txn sg = Some (tx_txn tx).
Proof.
  intros Hok Hk Hx Ht Hrec Hmem Hfill Hfits. set (q := fresh (dom (sd_segments s))).
  assert (Hq : sd_segments s !! q = None) by (apply not_elem_of_dom, is_fresh).
  assert (Hm1 : memory_ok (k + 1) (sd_world s) kids) by (eapply memory_ok_le; [|apply Hok]; lia).
  assert (Hbody : forall s1, sd_world s1 = sd_world s -> sd_segments s1 = sd_segments s -> held (Some (TxnLock x)) s s1 ->
    exists p s2 kids2 sg, typed_segment x ty fill s1 = Some (Some q, s2)
      /\ memory_ok k (sd_world s2) kids2 /\ grows (sd_world s1) (sd_world s2) /\ same_api s1 s2 /\ sd_axiom s2 = sd_axiom s1
      /\ sd_segments s2 = <[q := mk_sdk_segment p (Some (tx_txn tx)) None (fields (sd_axiom s1))]> (sd_segments s1)
      /\ w_segments (sd_world s2) !! p = Some sg /\ s_type sg = ty /\ s_txn sg = Some (tx_txn tx)).
  { intros s1 Ew Es Hheld. unfold q. rewrite <- Es. rewrite <- Ew in Hm1, Ht, Hmem.
    apply (typed_segment_run k s1 kids x tx t ty fill fields); try done; [by eapply held_txn|].
    destruct Hheld as [_ ->]. by apply Hok. }
  destruct (locked_section_run (k + 2) k s kids (Some (TxnLock x)) (typed_segment x ty fill) id Hok)
    as (r & s1 & s2 & s3 & kids3 & Hrun & Ea1 & Ea3 & Ew1 & Es1 & _ & Hheld1 & Hr & Es3 & Ew3 & _ & Et3 & Hok3);
    [apply lock_of_txn; by eexists| |].
  { intros s1 Ew Es _ Hheld. destruct (Hbody s1 Ew Es Hheld) as (p & s2 & kids2 & sg & Hrun & Hm2 & Hg2 & (_ & Et & _ & _ & _ & Emu) & _ & Es2 & Hp & Hty & Ho).
    exists (Some q), s2, kids2. split; [done|]. destruct Hheld as [E1 E2]. split; [split; congruence|].
    split; [|split; [done|by rewrite <- Ew]]. rewrite Es2, Es. intros r sr [[<- <-]|[_ Hr]]%lookup_insert_Some; [right|by left].
    exists (tx_txn tx). split; [done|]. split; [by exists sg|]. split; [done|]. intros seg. cbn [sg_segment sg_type]. rewrite Hp.
    intros [= <-]. by rewrite Hty. }
  destruct (Hbody s1 Ew1 Es1 Hheld1) as (p & s2' & kids2 & sg & Hr' & _ & _ & _ & Ea2 & Es2 & Hp & Hty & Ho).
  rewrite Hr' in Hr. injection Hr as <- <-. exists p, q, s3, kids3, sg. split; [exact Hrun|]. split; [done|]. split; [done|].
  split; [done|]. split; [congruence|]. split; [congruence|]. rewrite Ew3. by repeat split.
Qed.

(** In a transaction that does not record the answer is NULL. *)
Lemma locked_typed_ignored k s kids x tx t ty fill :
  sdk_ok (k + 2) s kids -> 0 <= k -> sd_txns s !! x = Some tx ->
  w_txns (sd_world s) !! tx_txn tx = Some t -> recording (t_status t) = 0 ->
  exists s' kids', locked_typed_segment x ty fill s = Some (None, s') /\ sdk_ok k s' kids' /\ sd_segments s' = sd_segments s.
Proof.
  intros Hok Hk Hx Ht Hrec.
  destruct (locked_section_run (k + 2) k s kids (Some (TxnLock x)) (typed_segment x ty fill) id Hok)
    as (r & s1 & s2 & s3 & kids3 & Hrun & _ & _ & Ew1 & Es1 & _ & Hheld1 & Hr & Es3 & _ & _ & _ & Hok3); [apply lock_of_txn; by eexists| |].
  { intros s1 Ew Es _ Hheld. eexists None, _, kids. split; [eapply typed_segment_ignored; [by eapply held_txn|by rewrite Ew|done]|].
    destruct Hheld as [E1 E2]. split; [by split|]. split; [intros p sg Hp; left; by rewrite <- Es|]. cbn. rewrite Ew. split; [|apply grows_refl].
    eapply memory_ok_le; [|apply Hok]. lia. }
  erewrite (typed_segment_ignored s1 x tx t) in Hr; [|by eapply held_txn|by rewrite Ew1|done]. injection Hr as <- <-.
  exists s3, kids3. split; [exact Hrun|]. split; [done|]. by rewrite Es3, <- Es1.
Qed.

(** The same whether the transaction records or not; the fields of wrappers stay good when the new ones are. *)
Lemma locked_typed_ok k s kids x ty fill (fields : A -> type_fields_t) :
  sdk_ok (k + 2) s kids -> 0 <= k -> is_Some (sd_txns s !! x) ->
  (forall tx t, sd_txns s !! x = Some tx -> w_txns (sd_world s) !! tx_txn tx = Some t ->
     oa_next (w_mem (sd_world s)) (t_segment_slab t) <> None) ->
  (forall s q sg, sd_segments s !! q = Some sg ->
     fill q s = Some (tt, set_sdk_segments (<[q := with_type (fields (sd_axiom s)) sg]> (sd_segments s)) s)) ->
  fields_ok (fields (sd_axiom s)) -> (forall a, fits ty (fields a) = true) ->
  exists r s' kids', locked_typed_segment x ty fill s = Some (r, s') /\ sdk_ok k s' kids' /\ fields_kept s s'.
Proof.
  intros Hok Hk [tx Hx] Hmem Hfill Hgood Hfits. destruct (so_txns _ _ _ Hok x tx Hx) as [[t Ht] _].
  destruct (decide (recording (t_status t) = 0)) as [Hrec|Hrec].
  - destruct (locked_typed_ignored k s kids x tx t ty fill Hok Hk Hx Ht Hrec) as (s' & kids' & Hrun & Hok' & Es).
    exists None, s', kids'. split; [done|]. split; [done|by apply fields_kept_same].
  - destruct (locked_typed_run k s kids x tx t ty fill fields Hok Hk Hx Ht Hrec (Hmem tx t Hx Ht) Hfill Hfits)
      as (p & q & s' & kids' & sg & Hrun & Hok' & _ & _ & _ & Es & _).
    exists (Some q), s', kids'. split; [done|]. split; [done|]. by eapply all_fields_insert.
Qed.

(** What the parameters of a datastore segment become, with the hostname of the machine. *)
Definition stored_datastore (params : newrelic_datastore_segment_params_t) (hostname : cstr) : datastore_fields_t := {|
  df_collection := Some (nr_strdup_or (dp_collection params) (Some (str "other")));
  df_operation := Some (nr_strdup_or (dp_operation params) (Some (str "other")));
  df_instance := default no_instance (nr_datastore_instance_set_database_name
    (nr_datastore_instance_set_port_path_or_id
      (nr_datastore_instance_set_host (Some no_instance) (dp_host params) hostname) (dp_port_path_or_id params))
    (dp_database_name params));
  df_type := nr_datastore_from_string (dp_product params);
  df_string := Some (if nr_strempty (dp_product params) then nr_strdup (Some NEWRELIC_DATASTORE_OTHER)
                     else nr_strdup (dp_product params));
  df_sql := strdup_or_null (dp_query params);
|}.

Definition fill_datastore (params : newrelic_datastore_segment_params_t) (p : sdk_seg_ptr) : prog unit :=
  hostname ← gets (fun s => nr_system_get_hostname (sd_axiom s));
  update_segment p (with_type (DatastoreFields (stored_datastore params hostname))).

(** Whether [newrelic_start_datastore_segment] takes the parameters. *)
Definition datastore_params_valid (params : newrelic_datastore_segment_params_t) : bool :=
  negb (bool_decide (dp_product params = None))
  && forallb newrelic_validate_segment_param [dp_product params; dp_collection params; dp_operation params; dp_host params].

Lemma start_datastore_eq x params s :
  newrelic_start_datastore_segment realloc_ok clock (Some x) (Some params) s
  = (if datastore_params_valid params
     then locked_typed_segment x NR_SEGMENT_DATASTORE (fill_datastore params) else mret None) s.
Proof.
  unfold newrelic_start_datastore_segment, datastore_params_valid. destruct (dp_product params) as [product|] eqn:Ep; [|done].
  cbn [forallb negb bool_decide andb]. rewrite bool_decide_eq_false_2 by done. cbn [negb andb].
  destruct (newrelic_validate_segment_param (Some product)); [|done].
  destruct (newrelic_validate_segment_param (dp_collection params)); [|done].
  destruct (newrelic_validate_segment_param (dp_operation params)); [|done].
  destruct (newrelic_validate_segment_param (dp_host params)); [|done]. cbn [negb andb].
  unfold locked_typed_segment, typed_segment, fill_datastore, stored_datastore, mbind, prog_bind, mret, prog_ret. rewrite Ep.
  by repeat case_match; simplify_eq.
Qed.

Lemma fill_datastore_run params s q sg :
  sd_segments s !! q = Some sg ->
  fill_datastore params q s
  = Some (tt, set_sdk_segments (<[q := with_type (DatastoreFields (stored_datastore params (nr_system_get_hostname (sd_axiom s)))) sg]>
                                  (sd_segments s)) s).
Proof. intros Hq. unfold fill_datastore. erewrite bind_run by done. by apply update_segment_run. Qed.

(** The same for the parameters of an external call. *)
Definition stored_external (params : newrelic_external_segment_params_t) : external_fields_t := {|
  xf_uri := strdup_or_null (ep_uri params);
  xf_library := strdup_or_null (ep_library params);
  xf_procedure := strdup_or_null (ep_procedure params);
|}.

Definition external_params_valid (params : newrelic_external_segment_params_t) : bool :=
  forallb newrelic_validate_segment_param [ep_library params; ep_procedure params] && negb (bool_decide (ep_uri params = None)).

Definition fill_external (params : newrelic_external_segment_params_t) (p : sdk_seg_ptr) : prog unit :=
  update_segment p (with_type (ExternalFields (stored_external params))).

Lemma start_external_eq x params s :
  newrelic_start_external_segment realloc_ok clock (Some x) (Some params) s
  = (if external_params_valid params
     then locked_typed_segment x NR_SEGMENT_EXTERNAL (fill_external params) else mret None) s.
Proof.
  unfold newrelic_start_external_segment, external_params_valid. cbn [forallb andb].
  destruct (newrelic_validate_segment_param (ep_library params)); [|done].
  destruct (newrelic_validate_segment_param (ep_procedure params)); [|done]. cbn [negb andb].
  destruct (ep_uri params) eqn:Eu; [|done]. rewrite bool_decide_eq_false_2 by done. cbn [negb].
  unfold locked_typed_segment, typed_segment, fill_external, stored_external, mbind, prog_bind, mret, prog_ret. rewrite Eu.
  by repeat case_match; simplify_eq.
Qed.

Lemma sdk_ok_le k k' s kids : k' <= k -> sdk_ok k s kids -> sdk_ok k' s kids.
Proof. intros Hle [Hm H2' H3 H4]. constructor; [by eapply memory_ok_le|done..]. Qed.

(** ** Parameters in range *)

(** The parameters of a datastore segment and the name of the machine, when they are short and the
    query can be obfuscated. *)
Definition datastore_params_short (params : newrelic_datastore_segment_params_t) (hostname : cstr) : bool :=
  forallb short_or_null [dp_product params; dp_collection params; dp_operation params; dp_host params; dp_port_path_or_id params]
  && short_string hostname && obfuscatable (strdup_or_null (dp_query params)).

Definition external_params_short (params : newrelic_external_segment_params_t) : bool := short_or_null (ep_uri params).

Lemma short_strdup (s : option cstr) : short_or_null s = true -> short_string (nr_strdup s) = true.
Proof. destruct s as [s|]; [|done]. cbn. unfold short_string, strlen. by rewrite c_str_idemp. Qed.

Lemma short_strdup_or (s d : option cstr) :
  short_or_null s = true -> short_or_null d = true -> short_string (nr_strdup_or s d) = true.
Proof. intros Hs Hd. destruct s as [s|], d as [d|]; try done; by apply (short_strdup (Some _)). Qed.

Lemma short_if (b : bool) (x y : cstr) :
  short_string x = true -> short_string y = true -> short_string (if b then x else y) = true.
Proof. by destruct b. Qed.

(** Fields made of such parameters are ones a segment can end with. *)
Lemma stored_datastore_fields params hostname :
  datastore_params_short params hostname = true -> fields_ok (DatastoreFields (stored_datastore params hostname)).
Proof.
  unfold datastore_params_short. cbn [forallb]. rewrite !andb_true_iff.
  intros [[(Hproduct & Hcollection & Hoperation & Hhost & Hport & _) Hname] Hquery].
  assert (Hc : short_string (nr_strdup_or (dp_collection params) (Some (str "other"))) = true) by by apply short_strdup_or.
  assert (Ho : short_string (nr_strdup_or (dp_operation params) (Some (str "other"))) = true) by by apply short_strdup_or.
  split; [right|exact Hc]. cbn [datastore_end_params datastore_fields stored_datastore sdp_collection sdp_operation sdp_string sdp_instance
    sdp_sql sdp_backtrace sdp_input_query]. split; [exact Hc|]. split; [exact Ho|]. split.
  { apply short_if; [by vm_compute|by apply short_strdup]. }
  split; [|by split]. intros i [= <-]. unfold instance_ok. apply andb_true_iff. unfold short_given.
  split; cbn [default nr_datastore_instance_set_host nr_datastore_instance_set_port_path_or_id nr_datastore_instance_set_database_name
                di_host di_port_path_or_id from_option].
  - apply short_if; [exact Hname|]. apply short_if; [by vm_compute|by apply short_strdup].
  - apply short_if; [by vm_compute|by apply short_strdup].
Qed.

Lemma stored_external_fields params :
  external_params_short params = true -> fields_ok (ExternalFields (stored_external params)).
Proof.
  intros Hu. split; [by left|]. unfold external_end_params_ok. cbn. unfold external_params_short in Hu.
  destruct (ep_uri params) as [u|]; [|done]. by apply (short_strdup (Some u)).
Qed.

Lemma start_datastore_ok k s kids x params :
  sdk_ok (k + 2) s kids -> 0 <= k -> is_Some (sd_txns s !! x) ->
  (forall tx t, sd_txns s !! x = Some tx -> w_txns (sd_world s) !! tx_txn tx = Some t ->
     oa_next (w_mem (sd_world s)) (t_segment_slab t) <> None) ->
  datastore_params_short params (nr_system_get_hostname (sd_axiom s)) = true ->
  exists r s' kids', newrelic_start_datastore_segment realloc_ok clock (Some x) (Some params) s = Some (r, s')
    /\ sdk_ok k s' kids' /\ fields_kept s s'.
Proof.
  intros Hok Hk Hx Hmem Hshort. rewrite start_datastore_eq.
  destruct (datastore_params_valid params); [|exists None, s, kids; split; [done|split; [by eapply sdk_ok_le; [|exact Hok]; lia|done]]].
  apply (locked_typed_ok k s kids x _ _ (fun a => DatastoreFields (stored_datastore params (nr_system_get_hostname a)))); [done..| | |done].
  - intros s0 q sg. apply fill_datastore_run.
  - by apply stored_datastore_fields.
Qed.

Lemma start_external_ok k s kids x params :
  sdk_ok (k + 2) s kids -> 0 <= k -> is_Some (sd_txns s !! x) ->
  (forall tx t, sd_txns s !! x = Some tx -> w_txns (sd_world s) !! tx_txn tx = Some t ->
     oa_next (w_mem (sd_world s)) (t_segment_slab t) <> None) ->
  external_params_short params = true ->
  exists r s' kids', newrelic_start_external_segment realloc_ok clock (Some x) (Some params) s = Some (r, s')
    /\ sdk_ok k s' kids' /\ fields_kept s s'.
Proof.
  intros Hok Hk Hx Hmem Hshort. rewrite start_external_eq.
  destruct (external_params_valid params); [|exists None, s, kids; split; [done|split; [by eapply sdk_ok_le; [|exact Hok]; lia|done]]].
  apply (locked_typed_ok k s kids x _ _ (fun _ => ExternalFields (stored_external params))); [done..| | |done].
  - intros s0 q sg Hq. by apply update_segment_run.
  - by apply stored_external_fields.
Qed.

(** ** Ending a segment *)

(** The part of [newrelic_end_segment] under the lock. *)
Definition end_body (tq : txn_ptr) (p : sdk_seg_ptr) (sp : seg_ptr) : prog unit :=
  seg ← read_segment sp;
  match s_type seg with
  | NR_SEGMENT_CUSTOM => end_custom realloc_ok clock tq sp
  | NR_SEGMENT_DATASTORE => _ ← newrelic_end_datastore_segment realloc_ok clock p; mret tt
  | NR_SEGMENT_EXTERNAL => _ ← newrelic_end_external_segment realloc_ok clock p; mret tt
  end.

(** Whether [newrelic_end_segment] ends the segment in the transaction. *)
Definition ends_in s (sg : newrelic_segment_t) (transaction : option sdk_txn_ptr) : option sdk_txn_ptr :=
  match transaction with
  | Some y => match sd_txns s !! y with
              | Some tx => if bool_decide (sg_transaction sg = Some (tx_txn tx)) then Some y else None
              | None => None
              end
  | None => None
  end.

Definition locked_end (y : sdk_txn_ptr) (p : sdk_seg_ptr) (sg : newrelic_segment_t) (tq : txn_ptr) : prog unit :=
  _ ← nrt_mutex_lock (Some (TxnLock y)); r ← end_body tq p (sg_segment sg); _ ← nrt_mutex_unlock (Some (TxnLock y)); mret (id r).

Lemma end_segment_eq s p sg transaction :
  sd_segments s !! p = Some sg -> (forall y, transaction = Some y -> is_Some (sd_txns s !! y)) ->
  newrelic_end_segment realloc_ok clock transaction (Some (Some p)) s
  = match ends_in s sg transaction with
    | Some y => (_ ← locked_end y p sg (default 1%positive (sg_transaction sg));
                 ptr ← newrelic_segment_destroy (Some (Some p)); mret (true, ptr)) s
    | None => (ptr ← newrelic_segment_destroy (Some (Some p)); mret (false, ptr)) s
    end.
Proof.
  intros Hp Hy. unfold newrelic_end_segment. erewrite bind_run by by apply segment_of_run. cbv beta.
  destruct (sg_transaction sg) as [tp|] eqn:Etp, transaction as [y|]; cbn [ends_in].
  - destruct (Hy y eq_refl) as [tx Hx]. rewrite Hx, Etp.
    unfold locked_end, end_body, end_custom, mbind, prog_bind, mret, prog_ret. rewrite (txn_of_run _ _ _ Hx).
    destruct (decide (tx_txn tx = tp)) as [<-|Hne].
    + rewrite !bool_decide_eq_true_2 by done. cbn [negb from_option]. unfold id. by repeat case_match; simplify_eq.
    + rewrite !bool_decide_eq_false_2 by congruence. done.
  - done.
  - destruct (Hy y eq_refl) as [tx Hx]. rewrite Hx, Etp. by rewrite bool_decide_eq_false_2.
  - done.
Qed.

(** What the end of a segment of one of the other types does. *)
Definition ends_typed k s kids p sg (m : prog bool) (ty : type_fields_t) : Prop :=
  exists s', m s = Some (true, s') /\ memory_ok k (sd_world s') kids /\ grows (sd_world s) (sd_world s')
    /\ sd_txns s' = sd_txns s /\ sd_mutex s' = sd_mutex s /\ sd_segments s' = <[p := with_type ty sg]> (sd_segments s).

Lemma end_datastore_run k s kids tp p sg seg :
  memory_ok (k + 16) (sd_world s) kids -> 0 <= k -> sd_segments s !! p = Some sg -> fields_ok (sg_type sg) ->
  w_segments (sd_world s) !! sg_segment sg = Some seg -> s_txn seg = Some tp -> s_type seg = NR_SEGMENT_DATASTORE ->
  ends_typed k s kids p sg (newrelic_end_datastore_segment realloc_ok clock p) (newrelic_destroy_datastore_segment_fields (sg_type sg)).
Proof.
  intros Hm Hk Hp [Hdata _] Hseg Ho Ety. set (s1 := add_trace (Uses tp) s).
  destruct (datastore_end_ok realloc_ok clock Hroomy json_of k (sd_world s1) kids tp (sg_segment sg) _
              (nr_system_get_hostname (sd_axiom s1)) Hm Hk (ex_intro _ seg (conj Hseg Ho)) (ex_intro _ seg (conj Hseg Ety)) Hdata) as (w & Hend & Hm' & Hg').
  exists (set_sdk_segments (<[p := with_type (newrelic_destroy_datastore_segment_fields (sg_type sg)) sg]> (sd_segments s)) (set_world w s1)).
  split; [|by split_and!]. unfold newrelic_end_datastore_segment.
  erewrite bind_run by by apply segment_of_run. cbv beta.
  erewrite bind_run by (by apply (read_segment_run s _ seg tp)). cbv beta. rewrite Ety.
  erewrite bind_run by reflexivity. cbv beta zeta.
  erewrite bind_run by (apply on_world_run; fold s1; rewrite Hend; reflexivity). cbv beta.
  erewrite bind_run by (apply (update_segment_run _ p sg); exact Hp). reflexivity.
Qed.

Lemma end_external_run k s kids tp p sg seg :
  memory_ok (k + 16) (sd_world s) kids -> 0 <= k -> sd_segments s !! p = Some sg -> fields_ok (sg_type sg) ->
  w_segments (sd_world s) !! sg_segment sg = Some seg -> s_txn seg = Some tp -> s_type seg = NR_SEGMENT_EXTERNAL ->
  ends_typed k s kids p sg (newrelic_end_external_segment realloc_ok clock p) (newrelic_destroy_external_segment_fields (sg_type sg)).
Proof.
  intros Hm Hk Hp [_ Hext] Hseg Ho Ety. set (s1 := add_trace (Uses tp) s).
  destruct (external_end_ok realloc_ok clock Hroomy k (sd_world s1) kids tp (sg_segment sg) _ Hm Hk (ex_intro _ seg (conj Hseg Ho))
              (ex_intro _ seg (conj Hseg Ety)) Hext)
    as (b & w & Hend & Hm' & Hg').
  exists (set_sdk_segments (<[p := with_type (newrelic_destroy_external_segment_fields (sg_type sg)) sg]> (sd_segments s)) (set_world w s1)).
  split; [|by split_and!]. unfold newrelic_end_external_segment.
  erewrite bind_run by by apply segment_of_run. cbv beta.
  erewrite bind_run by (by apply (read_segment_run s _ seg tp)). cbv beta zeta. rewrite Ety.
  erewrite bind_run by (apply on_world_run; exact Hend). cbv beta.
  erewrite bind_run by (apply (update_segment_run _ p sg); exact Hp). reflexivity.
Qed.

(** Freeing the fields leaves the member of the union in use. *)
Lemma destroy_datastore_fits f : fits NR_SEGMENT_DATASTORE f = true -> fits NR_SEGMENT_DATASTORE (newrelic_destroy_datastore_segment_fields f) = true.
Proof. by destruct f. Qed.

Lemma destroy_external_fits f : fits NR_SEGMENT_EXTERNAL f = true -> fits NR_SEGMENT_EXTERNAL (newrelic_destroy_external_segment_fields f) = true.
Proof. by destruct f. Qed.

(** Ending leaves the wrapper but for the fields of its type. *)
Lemma end_body_ok k s kids tp p sg :
  memory_ok (k + 16) (sd_world s) kids -> 0 <= k -> sd_segments s !! p = Some sg -> fields_ok (sg_type sg) ->
  owned (w_segments (sd_world s)) tp (sg_segment sg) -> fitting (w_segments (sd_world s)) sg ->
  exists s' ty, end_body tp p (sg_segment sg) s = Some (tt, s') /\ memory_ok k (sd_world s') kids
    /\ grows (sd_world s) (sd_world s') /\ sd_txns s' = sd_txns s /\ sd_mutex s' = sd_mutex s
    /\ fitting (w_segments (sd_world s)) (with_type ty sg) /\ sd_segments s' = <[p := with_type ty sg]> (sd_segments s).
Proof.
  intros Hm Hk Hp Hfields (seg & Hseg & Ho) Hfit. pose proof (Hfit seg Hseg) as Hseg_fits. unfold end_body. erewrite bind_run by by apply (read_segment_run s _ seg tp). cbv beta.
  set (s1 := add_trace (Uses tp) s). assert (Hw1 : owned (w_segments (sd_world s1)) tp (sg_segment sg)) by by exists seg.
  destruct (s_type seg) eqn:Ety.
  - destruct (owned_txn (k + 16) (sd_world s1) kids tp (sg_segment sg) Hm Hw1) as [t Ht].
    destruct (wo_txns _ _ (mo_world _ _ _ Hm) tp t Ht) as [(l & Hl & _) _].
    destruct (end_custom_run realloc_ok clock Hroomy (k + 16) s1 kids tp (sg_segment sg) seg t l Hm Hseg Ho Ht Hl)
      as (s2 & seg' & t' & Hrun & Hm2 & Hg2 & (_ & Et & _ & _ & _ & Emu) & Es & _).
    rewrite Hrun. exists s2, (sg_type sg). split; [done|]. split; [eapply memory_ok_le; [|exact Hm2]; lia|].
    split; [done|]. split; [done|]. split; [done|]. split; [exact Hfit|]. rewrite Es. symmetry. apply insert_id. destruct sg. exact Hp.
  - destruct (end_datastore_run k s1 kids tp p sg seg Hm Hk Hp Hfields Hseg Ho Ety) as (s' & Hrun & Hrest).
    erewrite bind_run by exact Hrun. eexists s', _. split; [done|]. split_and!; try apply Hrest.
    intros seg' Hseg'. cbn [with_type sg_segment] in Hseg'. rewrite Hseg in Hseg'. injection Hseg' as <-. rewrite Ety. by apply destroy_datastore_fits.
  - destruct (end_external_run k s1 kids tp p sg seg Hm Hk Hp Hfields Hseg Ho Ety) as (s' & Hrun & Hrest).
    erewrite bind_run by exact Hrun. eexists s', _. split; [done|]. split_and!; try apply Hrest.
    intros seg' Hseg'. cbn [with_type sg_segment] in Hseg'. rewrite Hseg in Hseg'. injection Hseg' as <-. rewrite Ety. by apply destroy_external_fits.
Qed.

Lemma with_type_ok segments txns ty sg :
  wrapper_ok segments txns sg -> fitting segments (with_type ty sg) -> wrapper_ok segments txns (with_type ty sg).
Proof. intros (tp & H1' & H2 & H3 & _) Hfit. by exists tp. Qed.

Lemma segment_destroy_ok k s kids p sg :
  sdk_ok k s kids -> sd_segments s !! p = Some sg ->
  exists s', newrelic_segment_destroy (Some (Some p)) s = Some (Some None, s') /\ sdk_ok k s' kids
    /\ sd_segments s' = delete p (sd_segments s).
Proof.
  intros Hok Hp. destruct (so_segments _ _ _ Hok p sg Hp) as (tp & _ & Hown & _).
  destruct (segment_destroy_run s p sg tp Hp Hown) as (s' & Hrun & Ew & Es & (_ & Et & _ & _ & _ & Emu)).
  exists s'. split; [done|]. split; [|done]. apply (sdk_ok_step k k s s' kids kids Hok); rewrite ?Ew; [apply Hok|apply grows_refl|done|done|].
  rewrite Es. intros q sq [_ Hq]%lookup_delete_Some. by left.
Qed.

Lemma end_segment_ok k s kids p sg transaction :
  sdk_ok (k + 16) s kids -> 0 <= k -> sd_segments s !! p = Some sg -> fields_ok (sg_type sg) ->
  (forall y, transaction = Some y -> is_Some (sd_txns s !! y)) ->
  exists s' kids', newrelic_end_segment realloc_ok clock transaction (Some (Some p)) s
      = Some ((bool_decide (is_Some (ends_in s sg transaction)), Some None), s')
    /\ sdk_ok k s' kids' /\ sd_segments s' = delete p (sd_segments s).
Proof.
  intros Hok Hk Hp Hfields Hy. rewrite (end_segment_eq s p sg transaction Hp Hy).
  pose proof (so_segments _ _ _ Hok p sg Hp) as Hsg. pose proof Hsg as (tp & Htp & Hown & Hlock & Hfit).
  destruct (ends_in s sg transaction) as [y|] eqn:Eends.
  - rewrite bool_decide_eq_true_2 by by eexists. rewrite Htp. cbn [default from_option id].
    assert (Hx : is_Some (sd_txns s !! y)).
    { unfold ends_in in Eends. destruct transaction as [z|]; [|done]. destruct (Hy z eq_refl) as [tx Hz]. rewrite Hz in Eends.
      destruct (bool_decide _); simplify_eq. by eexists. }
    assert (Hbody : forall s1, sd_world s1 = sd_world s -> sd_segments s1 = sd_segments s -> exists s2 ty,
      end_body tp p (sg_segment sg) s1 = Some (tt, s2) /\ memory_ok k (sd_world s2) kids /\ grows (sd_world s) (sd_world s2)
      /\ sd_txns s2 = sd_txns s1 /\ sd_mutex s2 = sd_mutex s1 /\ fitting (w_segments (sd_world s)) (with_type ty sg)
      /\ sd_segments s2 = <[p := with_type ty sg]> (sd_segments s)).
    { intros s1 Ew Es. rewrite <- Ew, <- Es. apply end_body_ok; [rewrite Ew; apply Hok|done|by rewrite Es|done|by rewrite Ew|by rewrite Ew]. }
    destruct (locked_section_run (k + 16) k s kids (Some (TxnLock y)) (end_body tp p (sg_segment sg)) id Hok)
      as (r & s1 & s2 & s3 & kids3 & Hrun & _ & _ & Ew1 & Es1 & _ & _ & Hr & Es3 & _ & _ & _ & Hok3); [by apply lock_of_txn| |].
    { intros s1 Ew Es _ [E1 E2]. destruct (Hbody s1 Ew Es) as (s2 & ty & Hrun & Hm2 & Hg2 & Et & Emu & Hfit2 & Es2).
      exists tt, s2, kids. split; [done|]. split; [split; congruence|]. split; [|done]. rewrite Es2.
      intros q sq [[<- <-]|[_ Hq]]%lookup_insert_Some; [right|by left].
      eapply wrapper_grows; [exact Hg2|]. by apply with_type_ok. }
    destruct (Hbody s1 Ew1 Es1) as (s2' & ty & Hr' & _ & _ & _ & _ & _ & Es2). rewrite Hr' in Hr. injection Hr as <- <-.
    unfold locked_end. erewrite bind_run by exact Hrun. cbv beta.
    destruct (segment_destroy_ok k s3 kids3 p (with_type ty sg) Hok3) as (s4 & Hdestroy & Hok4 & Es4);
      [rewrite Es3, Es2; apply lookup_insert_eq|].
    erewrite bind_run by exact Hdestroy. exists s4, kids3. split; [done|]. split; [done|].
    by rewrite Es4, Es3, Es2, delete_insert_eq.
  - rewrite bool_decide_eq_false_2 by by intros [? ?].
    destruct (segment_destroy_ok k s kids p sg) as (s' & Hrun & Hok' & Es); [|done|].
    { destruct Hok. constructor; [|done..]. eapply memory_ok_le; [|done]. lia. }
    erewrite bind_run by exact Hrun. by exists s', kids.
Qed.

(** Ending a custom segment. *)
Lemma end_custom_segment_run k s kids p sg seg y tx t l :
  sdk_ok k s kids -> sd_segments s !! p = Some sg -> sg_transaction sg = Some (tx_txn tx) -> sd_txns s !! y = Some tx ->
  w_segments (sd_world s) !! sg_segment sg = Some seg -> s_type seg = NR_SEGMENT_CUSTOM ->
  w_txns (sd_world s) !! tx_txn tx = Some t -> current_stack t l ->
  exists s' kids' seg' t', newrelic_end_segment realloc_ok clock (Some y) (Some (Some p)) s = Some ((true, Some None), s')
    /\ sdk_ok k s' kids' /\ sd_segments s' = delete p (sd_segments s) /\ sd_txns s' = sd_txns s
    /\ w_segments (sd_world s') = <[sg_segment sg := seg']> (w_segments (sd_world s))
    /\ ended clock (sd_world s) t seg seg' /\ gets_metric t seg seg'
    /\ w_txns (sd_world s') !! tx_txn tx = Some t' /\ current_stack t' (filter (fun x => x <> sg_segment sg) l).
Proof.
  intros Hok Hp Htp Hy Hseg Hty Ht Hl. set (tp := tx_txn tx) in *.
  assert (Ho : s_txn seg = Some tp).
  { destruct (so_segments _ _ _ Hok p sg Hp) as (tq & E & (seg0 & E0 & Ho) & _). congruence. }
  rewrite (end_segment_eq s p sg (Some y) Hp) by (intros z [= <-]; by eexists). unfold ends_in. rewrite Hy.
  rewrite bool_decide_eq_true_2 by done. rewrite Htp. cbn [default from_option id].
  assert (Hbody : forall s1, sd_world s1 = sd_world s -> sd_segments s1 = sd_segments s -> exists s2 seg' t',
    end_body tp p (sg_segment sg) s1 = Some (tt, s2) /\ memory_ok k (sd_world s2) kids /\ grows (sd_world s) (sd_world s2)
    /\ same_api s1 s2 /\ sd_segments s2 = sd_segments s
    /\ w_segments (sd_world s2) = <[sg_segment sg := seg']> (w_segments (sd_world s))
    /\ ended clock (sd_world s) t seg seg' /\ gets_metric t seg seg'
    /\ w_txns (sd_world s2) !! tp = Some t' /\ current_stack t' (filter (fun x => x <> sg_segment sg) l)).
  { intros s1 Ew Es. unfold end_body. rewrite <- Ew in Hseg, Ht |- *. rewrite <- Es.
    erewrite bind_run by (apply read_segment_run; [exact Hseg|exact Ho]). cbv beta. rewrite Hty.
    destruct (end_custom_run realloc_ok clock Hroomy k (add_trace (Uses tp) s1) kids tp (sg_segment sg) seg t l)
      as (s2 & seg' & t' & Hrun & Hm2 & Hg2 & Hapi & Es2 & Ew2 & Hend & Hmet & Ht' & Hl' & _);
      [cbn; rewrite Ew; apply Hok|exact Hseg|exact Ho|exact Ht|exact Hl|].
    exists s2, seg', t'. split_and!; assumption. }
  destruct (locked_section_run k k s kids (Some (TxnLock y)) (end_body tp p (sg_segment sg)) id Hok)
    as (r & s1 & s2 & s3 & kids3 & Hrun & _ & _ & Ew1 & Es1 & _ & _ & Hr & Es3 & Ew3 & _ & Et3 & Hok3);
    [apply lock_of_txn; by eexists| |].
  { intros s1 Ew Es _ [E1 E2]. destruct (Hbody s1 Ew Es) as (s2 & seg' & t' & Hrun & Hm2 & Hg2 & (_ & Et & _ & _ & _ & Emu) & Es2 & _).
    exists tt, s2, kids. split; [done|]. split; [split; congruence|]. split; [|done]. rewrite Es2. by left. }
  destruct (Hbody s1 Ew1 Es1) as (s2' & seg' & t' & Hr' & _ & _ & _ & Es2 & Ew2 & Hend & Hmet & Ht' & Hl').
  rewrite Hr' in Hr. injection Hr as <- <-. unfold locked_end. erewrite bind_run by exact Hrun. cbv beta.
  destruct (so_segments _ _ _ Hok3 p sg) as (tq & _ & Hown & _); [by rewrite Es3, Es2|].
  destruct (segment_destroy_run s3 p sg tq) as (s4 & Hdestroy & Ew4 & Es4 & (_ & Et4 & _ & _ & _ & Emu4)); [by rewrite Es3, Es2|done|].
  erewrite bind_run by exact Hdestroy. exists s4, kids3, seg', t'. split; [done|]. rewrite Ew4, Ew3.
  split; [|split; [by rewrite Es4, Es3, Es2|split; [by rewrite Et4|by split_and!]]].
  apply (sdk_ok_step k k s3 s4 kids3 kids3 Hok3); rewrite ?Ew4; [apply Hok3|apply grows_refl|done|done|].
  rewrite Es4. intros q sq [_ Hq]%lookup_delete_Some. by left.
Qed.

(** ** The parent of a segment *)

(** Whether a segment can go under another one, whose ancestors and itself are [above]. *)
Definition may_hang (sp sq : nr_segment_t) (p q : seg_ptr) (above : list seg_ptr) : bool :=
  bool_decide (s_txn sp = s_txn sq) && (bool_decide (s_parent sp = Some q) || negb (bool_decide (p ∈ above))).

Lemma reparented_parents (w w' : world S P M) kids kids' p q sp sq ok :
  w_segments w !! p = Some sp -> reparented w kids p q sp sq ok w' kids' ->
  exists above, chain (parent_in (w_segments w)) q above /\ ok = may_hang sp sq p q above
    /\ forall x, parent_in (w_segments w') x = if ok && bool_decide (x = p) then Some q else parent_in (w_segments w) x.
Proof.
  intros Hp (lq & Hchain & Hcases). exists lq. split; [done|]. unfold may_hang.
  assert (Hpar : parent_in (w_segments w) p = s_parent sp) by (unfold parent_in; by rewrite Hp).
  destruct (decide (s_txn sp = s_txn sq)) as [Et|Et].
  2:{ destruct Hcases as (-> & -> & _). by rewrite bool_decide_eq_false_2. }
  rewrite (bool_decide_eq_true_2 (s_txn sp = s_txn sq)) by done.
  destruct (decide (s_parent sp = Some q)) as [Ep|Ep].
  { destruct Hcases as (-> & -> & _). rewrite bool_decide_eq_true_2 by done. split; [done|]. intros x.
    cbn [andb]. case_bool_decide; [subst x; congruence|done]. }
  rewrite (bool_decide_eq_false_2 (s_parent sp = Some q)) by done. destruct (decide (p ∈ lq)) as [Hin|Hout].
  { destruct Hcases as (-> & -> & _). by rewrite bool_decide_eq_true_2. }
  destruct Hcases as (-> & _ & _ & Hmoves). rewrite bool_decide_eq_false_2 by done. split; [done|]. intros x. cbn [andb].
  unfold parent_in. case_bool_decide as Ex.
  - subst x. pose proof (Hmoves p) as Hx. rewrite Hp in Hx. inversion Hx as [? s' Hm E1 E2|]. cbn [mbind option_bind].
    destruct (moves_fields _ _ _ _ _ _ Hm) as [_ ->]. by rewrite decide_True.
  - destruct (Hmoves x) as [s s' Hm|]; cbn [mbind option_bind]; [|done].
    destruct (moves_fields _ _ _ _ _ _ Hm) as [_ ->]. by rewrite decide_False.
Qed.

(** Calls of [newrelic_set_segment_parent] on two live segments. *)
Lemma set_segment_parent_run k s kids p q sgp sgq sp sq :
  sdk_ok (k + 2) s kids -> 0 <= k -> p <> q -> sd_segments s !! p = Some sgp -> sd_segments s !! q = Some sgq ->
  w_segments (sd_world s) !! sg_segment sgp = Some sp -> w_segments (sd_world s) !! sg_segment sgq = Some sq ->
  exists ok s' kids' above, newrelic_set_segment_parent realloc_ok (Some p) (Some q) s = Some (ok, s') /\ sdk_ok k s' kids'
    /\ sd_segments s' = sd_segments s /\ sd_txns s' = sd_txns s
    /\ chain (parent_in (w_segments (sd_world s))) (sg_segment sgq) above
    /\ ok = may_hang sp sq (sg_segment sgp) (sg_segment sgq) above
    /\ forall x, parent_in (w_segments (sd_world s')) x
        = if ok && bool_decide (x = sg_segment sgp) then Some (sg_segment sgq) else parent_in (w_segments (sd_world s)) x.
Proof.
  intros Hok Hk Hne Hp Hq Hsp Hsq. destruct (so_segments _ _ _ Hok p sgp Hp) as (tp & Htp & Hop & _).
  destruct (so_segments _ _ _ Hok q sgq Hq) as (tq & _ & Hoq & _).
  set (body := (_ ← newrelic_add_api_supportability_metric (sg_transaction sgp) (Some (str "set_segment_parent"));
           sh ← segment_of q; _ ← use_segment (sg_segment sgp);
           on_world (nr_segment_set_parent realloc_ok (Some (sg_segment sgp)) (Some (sg_segment sh)))) : prog bool).
  assert (Hbody : forall s1, sd_world s1 = sd_world s -> sd_segments s1 = sd_segments s -> exists ok s2 kids2 above, body s1 = Some (ok, s2)
    /\ memory_ok k (sd_world s2) kids2 /\ grows (sd_world s) (sd_world s2) /\ sd_txns s2 = sd_txns s1 /\ sd_mutex s2 = sd_mutex s1
    /\ sd_segments s2 = sd_segments s /\ chain (parent_in (w_segments (sd_world s))) (sg_segment sgq) above
    /\ ok = may_hang sp sq (sg_segment sgp) (sg_segment sgq) above
    /\ forall x, parent_in (w_segments (sd_world s2)) x
        = if ok && bool_decide (x = sg_segment sgp) then Some (sg_segment sgq) else parent_in (w_segments (sd_world s)) x).
  { intros s1 Ew Es. unfold body. rewrite Htp.
    destruct (supportability_run (k + 1) s1 kids tp (str "set_segment_parent"))
      as (s2 & Hrun & Hm2 & Hg2 & (_ & Et2 & _ & _ & _ & Emu2) & Es2 & _ & Eseg);
      [rewrite Ew; replace (k + 1 + 1) with (k + 2) by lia; apply Hok|lia|rewrite Ew; by eapply owned_txn; [apply Hok|]|by vm_compute|].
    assert (Hsize : Z.of_nat (size (w_segments (sd_world s2))) < 2 ^ 29) by (pose proof (mo_size _ _ _ Hm2); lia).
    rewrite <- Ew, <- Eseg in Hsp, Hsq. rewrite <- Ew in Hop, Hoq. apply (gr_owned _ _ Hg2) in Hop, Hoq.
    destruct (nr_segment_set_parent_spec realloc_ok Hroomy (sd_world s2) kids (sg_segment sgp) (sg_segment sgq) sp sq
      (mo_world _ _ _ Hm2) Hsize Hsp Hsq) as (ok & w3 & kids3 & Hset & _ & Hrep).
    destruct (nr_segment_set_parent_ok realloc_ok Hroomy (k + 1) (sd_world s2) kids tp tq (sg_segment sgp) (sg_segment sgq) Hm2
      ltac:(lia) Hop Hoq) as (b & w3' & kids3' & Hset' & Hm3 & Hg3).
    assert (w3' = w3) as -> by congruence.
    destruct (reparented_parents _ _ _ _ _ _ _ _ _ Hsp Hrep) as (above & Hchain & Eok & Hparents).
    rewrite Eseg, Ew in Hchain. rewrite Eseg, Ew in Hparents.
    exists ok. eexists _, kids3', above. split.
    { erewrite bind_run by exact Hrun. cbv beta. erewrite bind_run by (apply segment_of_run; rewrite Es2, Es; exact Hq). cbv beta.
      erewrite bind_run by by apply (use_segment_run _ _ tp). cbv beta. apply on_world_run. exact Hset. }
    cbn [sd_world set_world]. split; [eapply memory_ok_le; [|exact Hm3]; lia|].
    split; [rewrite <- Ew; by eapply grows_trans|]. split; [done|]. split; [done|]. split; [exact (eq_trans Es2 Es)|]. by split. }
  destruct (locked_section_run (k + 2) k s kids (sg_txn_lock sgp) body id Hok)
    as (r & s1 & s2 & s3 & kids3 & Hrun & _ & _ & Ew1 & Es1 & _ & _ & Hr & Es3 & Ew3 & _ & Et3 & Hok3); [by eapply lock_of_wrapper| |].
  { intros s1 Ew Es _ [E1 E2]. destruct (Hbody s1 Ew Es) as (ok & s2 & kids2 & above & Hrun & Hm2 & Hg2 & Et & Emu & Es2 & _).
    exists ok, s2, kids2. split; [done|]. split; [split; congruence|]. split; [|done]. rewrite Es2. by left. }
  destruct (Hbody s1 Ew1 Es1) as (ok & s2' & kids2 & above & Hr' & _ & _ & _ & _ & Es2 & Hchain & Eok & Hparents).
  rewrite Hr' in Hr. injection Hr as <- <-. exists ok, s3, kids3, above. rewrite Ew3.
  split; [|split; [done|split; [congruence|by split_and!]]].
  unfold newrelic_set_segment_parent. rewrite bool_decide_eq_false_2 by done. erewrite bind_run by by apply segment_of_run. cbv beta.
  eapply eq_trans; [|exact Hrun]. unfold body, mbind, prog_bind, mret, prog_ret. by repeat case_match; simplify_eq.
Qed.

Lemma set_segment_parent_ok k s kids p q :
  sdk_ok (k + 2) s kids -> 0 <= k -> is_Some (sd_segments s !! p) -> is_Some (sd_segments s !! q) ->
  keeps_sdk k s kids (newrelic_set_segment_parent realloc_ok (Some p) (Some q)).
Proof.
  intros Hok Hk [sgp Hp] [sgq Hq]. destruct (decide (p = q)) as [->|Hne].
  { unfold newrelic_set_segment_parent. rewrite bool_decide_eq_true_2 by done. by apply keeps_sdk_ret. }
  destruct (so_segments _ _ _ Hok p sgp Hp) as (tp & _ & (sp & Hsp & _) & _).
  destruct (so_segments _ _ _ Hok q sgq Hq) as (tq & _ & (sq & Hsq & _) & _).
  destruct (set_segment_parent_run k s kids p q sgp sgq sp sq) as (ok & s' & kids' & above & Hrun & Hok' & _); [done..|].
  by exists ok, s', kids'.
Qed.



(** ** Custom events *)

Lemma set_events_ok k s kids ev : sdk_ok k s kids -> sdk_ok k (set_events ev s) kids.
Proof. intros [H1' H2' H3 H4]. by constructor. Qed.

Lemma create_custom_event_ok k s kids ty :
  sdk_ok (k + 2) s kids -> keeps_sdk k s kids (newrelic_create_custom_event ty).
Proof.
  intros Hok. destruct ty as [ty|]; [|by apply keeps_sdk_ret]. unfold keeps_sdk, newrelic_create_custom_event.
  erewrite bind_run by done. cbv beta. erewrite bind_run by done. cbv beta. eexists _, _, kids. split; [reflexivity|].
  apply set_events_ok. eapply sdk_ok_le; [|done]. lia.
Qed.

Lemma discard_custom_event_ok k s kids e :
  sdk_ok (k + 2) s kids -> is_Some (sd_events s !! e) -> keeps_sdk k s kids (newrelic_discard_custom_event (Some (Some e))).
Proof.
  intros Hok [ev He]. unfold keeps_sdk, newrelic_discard_custom_event.
  erewrite bind_run by done. cbv beta. erewrite bind_run by by apply of_option_run. cbv beta. erewrite bind_run by done. cbv beta.
  eexists _, _, kids. split; [reflexivity|]. apply set_events_ok. eapply sdk_ok_le; [|done]. lia.
Qed.

Lemma set_attribute_ok k s kids e f :
  sdk_ok (k + 2) s kids -> is_Some (sd_events s !! e) -> keeps_sdk k s kids (set_attribute (Some e) f).
Proof.
  intros Hok [ev He]. unfold keeps_sdk, set_attribute.
  erewrite bind_run by done. cbv beta. erewrite bind_run by by apply of_option_run. cbv beta.
  destruct (f (ev_attributes ev)) as [status attributes]. erewrite bind_run by done. cbv beta.
  eexists _, _, kids. split; [reflexivity|]. apply set_events_ok. eapply sdk_ok_le; [|done]. lia.
Qed.

Lemma record_event_locked_ok k s kids tp ty params t :
  memory_ok k (sd_world s) kids -> w_txns (sd_world s) !! tp = Some t ->
  exists s', nr_txn_record_custom_event clock tp ty params s = Some (tt, s')
    /\ memory_ok k (sd_world s') kids /\ grows (sd_world s) (sd_world s')
    /\ sd_txns s' = sd_txns s /\ sd_mutex s' = sd_mutex s /\ sd_segments s' = sd_segments s /\ sd_events s' = sd_events s.
Proof.
  intros Hm Ht. unfold nr_txn_record_custom_event.
  destruct (read_clock_ok clock k s kids Hm) as (now & w & Hclock & Hm1 & Hg1 & Et1).
  erewrite bind_run by exact Hclock. cbv beta.
  erewrite bind_run by (apply read_txn_run; cbn [sd_world set_world]; rewrite Et1; exact Ht). cbv beta.
  destruct (_ =? 0); [by eexists|]. destruct (negb _); [by eexists|]. destruct (_ =? 0); by eexists.
Qed.

Lemma record_custom_event_ok k s kids x e :
  sdk_ok (k + 2) s kids -> is_Some (sd_txns s !! x) -> is_Some (sd_events s !! e) ->
  keeps_sdk k s kids (newrelic_record_custom_event clock (Some x) (Some (Some e))).
Proof.
  intros Hok [tx Hx] [ev He]. destruct (so_txns _ _ _ Hok x tx Hx) as [[t Ht] _].
  set (body := (tp ← txn_of x; s ← gets id; ev ← of_option (sd_events s !! e);
                nr_txn_record_custom_event clock tp (ev_type ev) (ev_attributes ev)) : prog unit).
  assert (Hbody : forall s1, sd_world s1 = sd_world s -> sd_events s1 = sd_events s -> held (Some (TxnLock x)) s s1 ->
    exists s2, body s1 = Some (tt, s2) /\ memory_ok (k + 2) (sd_world s2) kids /\ grows (sd_world s) (sd_world s2)
      /\ sd_txns s2 = sd_txns s1 /\ sd_mutex s2 = sd_mutex s1 /\ sd_segments s2 = sd_segments s1 /\ sd_events s2 = sd_events s).
  { intros s1 Ew Ee Hheld. unfold body. erewrite bind_run by by eapply held_txn. cbv beta. erewrite bind_run by done. cbv beta.
    erewrite bind_run by (apply of_option_run; unfold id; rewrite Ee; exact He). cbv beta. rewrite <- Ew, <- Ee.
    eapply (record_event_locked_ok (k + 2) s1 kids); [rewrite Ew; apply Hok|by rewrite Ew]. }
  destruct (locked_section_run (k + 2) (k + 2) s kids (Some (TxnLock x)) body id Hok)
    as (r & s1 & s2 & s3 & kids3 & Hrun & _ & _ & Ew1 & _ & Ee1 & Hheld & Hr & _ & _ & Ee3 & _ & Hok3); [apply lock_of_txn; by eexists| |].
  { intros s1 Ew Es Ee Hheld. destruct (Hbody s1 Ew Ee Hheld) as (s2 & Hrun & Hm2 & Hg2 & Et & Emu & Es2 & _).
    destruct Hheld as [E1 E2]. exists tt, s2, kids. split; [done|]. split; [split; congruence|]. split; [|done].
    rewrite Es2, Es. by left. }
  destruct (Hbody s1 Ew1 Ee1 Hheld) as (s2' & Hr' & _ & _ & _ & _ & _ & Ee2). rewrite Hr' in Hr. injection Hr as <- <-.
  eapply (keeps_sdk_ext _ _ _ _ (_ ← (_ ← nrt_mutex_lock (Some (TxnLock x)); r ← body; _ ← nrt_mutex_unlock (Some (TxnLock x)); mret (id r));
                                 newrelic_discard_custom_event (Some (Some e)))).
  { intros s0. unfold newrelic_record_custom_event, body, mbind, prog_bind, mret, prog_ret. by repeat case_match; simplify_eq. }
  destruct (discard_custom_event_ok k s3 kids3 e Hok3) as (r & s4 & kids4 & Hdiscard & Hok4); [by rewrite Ee3, Ee2; eexists|].
  exists r, s4, kids4. split; [|done]. erewrite bind_run by exact Hrun. exact Hdiscard.
Qed.

(** ** Sessions *)

(** The calls of an application between the start and the end of its transactions. *)
Inductive api_call : Type :=
  | StartSegment (x : sdk_txn_ptr) (name category : option cstr)
  | StartDatastoreSegment (x : sdk_txn_ptr) (params : newrelic_datastore_segment_params_t)
  | StartExternalSegment (x : sdk_txn_ptr) (params : newrelic_external_segment_params_t)
  | EndSegment (x : option sdk_txn_ptr) (p : sdk_seg_ptr)
  | SetSegmentParent (p q : sdk_seg_ptr)
  | SetSegmentParentRoot (p : sdk_seg_ptr)
  | SetSegmentTiming (p : sdk_seg_ptr) (start duration : newrelic_time_us_t)
  | SetTransactionTiming (x : sdk_txn_ptr) (start duration : newrelic_time_us_t)
  | SetTransactionName (x : sdk_txn_ptr) (name : option cstr)
  | IgnoreTransaction (x : sdk_txn_ptr)
  | RecordCustomMetric (x : sdk_txn_ptr) (name : cstr) (milliseconds : double)
  | NoticeError (x : sdk_txn_ptr) (priority : Z) (errmsg errclass : option cstr)
  | AddAttribute (x : sdk_txn_ptr) (key : option cstr) (value : option O)
  | CreateCustomEvent (event_type : option cstr)
  | AddEventAttribute (e : event_ptr) (set_hash : O -> nr_status_t * O)
  | DiscardCustomEvent (e : event_ptr)
  | RecordCustomEvent (x : sdk_txn_ptr) (e : event_ptr).

Context (HAVE_BACKTRACE : bool).

(** The function of the API a call is to. *)
Definition api_run (c : api_call) : prog unit :=
  let done {T : Type} (m : prog T) : prog unit := _ ← m; mret tt in
  match c with
  | StartSegment x name category => done (newrelic_start_segment realloc_ok clock (Some x) name category)
  | StartDatastoreSegment x params => done (newrelic_start_datastore_segment realloc_ok clock (Some x) (Some params))
  | StartExternalSegment x params => done (newrelic_start_external_segment realloc_ok clock (Some x) (Some params))
  | EndSegment x p => done (newrelic_end_segment realloc_ok clock x (Some (Some p)))
  | SetSegmentParent p q => done (newrelic_set_segment_parent realloc_ok (Some p) (Some q))
  | SetSegmentParentRoot p => done (newrelic_set_segment_parent_root realloc_ok (Some p))
  | SetSegmentTiming p start duration => done (newrelic_set_segment_timing (Some p) start duration)
  | SetTransactionTiming x start duration => done (newrelic_set_transaction_timing (Some x) start duration)
  | SetTransactionName x name => done (newrelic_set_transaction_name (Some x) name)
  | IgnoreTransaction x => done (newrelic_ignore_transaction (Some x))
  | RecordCustomMetric x name v => done (newrelic_record_custom_metric (Some x) (Some name) v)
  | NoticeError x priority msg cls => done (newrelic_notice_error clock HAVE_BACKTRACE (Some x) priority msg cls)
  | AddAttribute x key value => done (newrelic_add_attribute (Some x) key value)
  | CreateCustomEvent ty => done (newrelic_create_custom_event ty)
  | AddEventAttribute e f => done (set_attribute (Some e) f)
  | DiscardCustomEvent e => done (newrelic_discard_custom_event (Some (Some e)))
  | RecordCustomEvent x e => done (newrelic_record_custom_event clock (Some x) (Some (Some e)))
  end.

(** A live transaction has memory for another segment. *)
Definition segment_memory s (x : sdk_txn_ptr) : Prop :=
  forall tx t, sd_txns s !! x = Some tx -> w_txns (sd_world s) !! tx_txn tx = Some t ->
    oa_next (w_mem (sd_world s)) (t_segment_slab t) <> None.

Definition records s (x : sdk_txn_ptr) : Prop :=
  forall tx t, sd_txns s !! x = Some tx -> w_txns (sd_world s) !! tx_txn tx = Some t -> recording (t_status t) <> 0.

(** What the API asks of its caller: the handles are live; a custom segment is started in a
    transaction that is not ignored; strings and metrics are in range; memory is left. *)
Definition api_valid (c : api_call) s : Prop :=
  match c with
  | StartSegment x name category =>
      is_Some (sd_txns s !! x) /\ records s x /\ segment_memory s x /\ strlen (start_name name category) < 2 ^ 31 - 1
  | StartDatastoreSegment x params =>
      is_Some (sd_txns s !! x) /\ segment_memory s x /\ datastore_params_short params (nr_system_get_hostname (sd_axiom s)) = true
  | StartExternalSegment x params => is_Some (sd_txns s !! x) /\ segment_memory s x /\ external_params_short params = true
  | EndSegment x p => is_Some (sd_segments s !! p) /\ forall y, x = Some y -> is_Some (sd_txns s !! y)
  | SetSegmentParent p q => is_Some (sd_segments s !! p) /\ is_Some (sd_segments s !! q)
  | SetSegmentParentRoot p | SetSegmentTiming p _ _ => is_Some (sd_segments s !! p)
  | SetTransactionTiming x _ _ | SetTransactionName x _ | IgnoreTransaction x | NoticeError x _ _ _ | AddAttribute x _ _ =>
      is_Some (sd_txns s !! x)
  | RecordCustomMetric x name v => is_Some (sd_txns s !! x) /\ strlen name < 2 ^ 31 - 1 /\ convertible v
  | CreateCustomEvent _ => True
  | AddEventAttribute e _ | DiscardCustomEvent e => is_Some (sd_events s !! e)
  | RecordCustomEvent x e => is_Some (sd_txns s !! x) /\ is_Some (sd_events s !! e)
  end.

(** Calls one after the other, each valid where it is made. *)
Fixpoint session_run (calls : list api_call) : prog unit :=
  match calls with
  | [] => mret tt
  | c :: calls => _ ← api_run c; session_run calls
  end.

Fixpoint session_valid (calls : list api_call) s : Prop :=
  match calls with
  | [] => True
  | c :: calls => api_valid c s /\ forall s', api_run c s = Some (tt, s') -> session_valid calls s'
  end.

(** The same as boolean functions. *)
Definition is_some {T : Type} (o : option T) : bool := match o with Some _ => true | None => false end.

Definition txn_at s (x : sdk_txn_ptr) : option (nrtxn_t S P) := tx ← sd_txns s !! x; w_txns (sd_world s) !! tx_txn tx.

Definition segment_memoryb s (x : sdk_txn_ptr) : bool :=
  match txn_at s x with Some t => is_some (oa_next (w_mem (sd_world s)) (t_segment_slab t)) | None => true end.

Definition recordsb s (x : sdk_txn_ptr) : bool :=
  match txn_at s x with Some t => negb (recording (t_status t) =? 0) | None => true end.

Definition convertibleb (v : double) : bool :=
  isnan v || isinf v || is_some (double_to_u64 (double_mul NR_TIME_DIVISOR_MS_D v)).

Definition api_validb (c : api_call) s : bool :=
  match c with
  | StartSegment x name category =>
      is_some (sd_txns s !! x) && recordsb s x && segment_memoryb s x && (strlen (start_name name category) <? 2 ^ 31 - 1)
  | StartDatastoreSegment x params =>
      is_some (sd_txns s !! x) && segment_memoryb s x && datastore_params_short params (nr_system_get_hostname (sd_axiom s))
  | StartExternalSegment x params => is_some (sd_txns s !! x) && segment_memoryb s x && external_params_short params
  | EndSegment x p => is_some (sd_segments s !! p) && from_option (fun y => is_some (sd_txns s !! y)) true x
  | SetSegmentParent p q => is_some (sd_segments s !! p) && is_some (sd_segments s !! q)
  | SetSegmentParentRoot p | SetSegmentTiming p _ _ => is_some (sd_segments s !! p)
  | SetTransactionTiming x _ _ | SetTransactionName x _ | IgnoreTransaction x | NoticeError x _ _ _ | AddAttribute x _ _ =>
      is_some (sd_txns s !! x)
  | RecordCustomMetric x name v => is_some (sd_txns s !! x) && (strlen name <? 2 ^ 31 - 1) && convertibleb v
  | CreateCustomEvent _ => true
  | AddEventAttribute e _ | DiscardCustomEvent e => is_some (sd_events s !! e)
  | RecordCustomEvent x e => is_some (sd_txns s !! x) && is_some (sd_events s !! e)
  end.

Fixpoint session_validb (calls : list api_call) s : bool :=
  match calls with
  | [] => true
  | c :: calls => api_validb c s && match api_run c s with Some (_, s') => session_validb calls s' | None => true end
  end.

Lemma is_some_iff {T : Type} (o : option T) : is_some o = true <-> is_Some o.
Proof. destruct o; cbn; [by split; [eexists|]|]. split; [done|by intros [? ?]]. Qed.

Lemma segment_memoryb_ok s x : segment_memoryb s x = true -> segment_memory s x.
Proof.
  unfold segment_memoryb, segment_memory, txn_at. intros E tx t Hx Ht. rewrite Hx in E. cbn [mbind option_bind] in E.
  rewrite Ht in E. by intros E'; rewrite E' in E.
Qed.

Lemma recordsb_ok s x : recordsb s x = true -> records s x.
Proof.
  unfold recordsb, records, txn_at. intros E tx t Hx Ht. rewrite Hx in E. cbn [mbind option_bind] in E.
  rewrite Ht in E. by destruct (Z.eqb_spec (recording (t_status t)) 0).
Qed.

Lemma api_validb_ok c s : api_validb c s = true -> api_valid c s.
Proof.
  destruct c; cbn [api_validb api_valid]; rewrite ?andb_true_iff, ?is_some_iff, ?Z.ltb_lt; try done.
  - intros [[[? ?] ?] ?]. split; [done|]. split; [by apply recordsb_ok|]. split; [by apply segment_memoryb_ok|done].
  - intros [[? ?] ?]. split; [done|]. split; [by apply segment_memoryb_ok|done].
  - intros [[? ?] ?]. split; [done|]. split; [by apply segment_memoryb_ok|done].
  - intros [? E]. split; [done|]. intros y ->. by apply is_some_iff.
  - intros [[? ?] Hv]. split; [done|]. split; [done|]. unfold convertibleb in Hv. unfold convertible.
    destruct (isnan milliseconds || isinf milliseconds); [by left|right]. by apply is_some_iff.
Qed.

Lemma session_validb_ok calls s : session_validb calls s = true -> session_valid calls s.
Proof.
  revert s. induction calls as [|c calls IH]; intros s; cbn [session_validb session_valid]; [done|].
  intros [Hc Hv]%andb_true_iff. split; [by apply api_validb_ok|]. intros s' E. rewrite E in Hv. by apply IH.
Qed.

(** A call that keeps the state in order keeps the fields of the wrappers too. *)
Lemma keeps_done k s kids {T : Type} (m : prog T) :
  keeps_sdk k s kids m -> (forall r s', m s = Some (r, s') -> fields_kept s s') ->
  exists s' kids', (_ ← m; mret tt) s = Some (tt, s') /\ sdk_ok k s' kids' /\ fields_kept s s'.
Proof. intros (r & s' & kids' & Hrun & Hok) Hfields. exists s', kids'. erewrite bind_run by done. split; [done|]. split; [done|by eapply Hfields]. Qed.

Lemma kept_done k s {T : Type} (m : prog T) :
  (exists r s' kids', m s = Some (r, s') /\ sdk_ok k s' kids' /\ fields_kept s s') ->
  exists s' kids', (_ ← m; mret tt) s = Some (tt, s') /\ sdk_ok k s' kids' /\ fields_kept s s'.
Proof. intros (r & s' & kids' & Hrun & Hok). exists s', kids'. by erewrite bind_run. Qed.

Lemma start_segment_ok k s kids x name category :
  sdk_ok (k + 2) s kids -> 0 <= k -> is_Some (sd_txns s !! x) -> records s x -> segment_memory s x ->
  strlen (start_name name category) < 2 ^ 31 - 1 ->
  keeps_sdk k s kids (newrelic_start_segment realloc_ok clock (Some x) name category).
Proof.
  intros Hok Hk [tx Hx] Hrec Hmem Hlen. destruct (so_txns _ _ _ Hok x tx Hx) as [[t Ht] _].
  destruct (start_segment_run realloc_ok clock Hroomy k s kids x tx t name category Hok Hk Hx Ht (Hrec tx t Hx Ht) (Hmem tx t Hx Ht) Hlen)
    as (l & p & q & s' & kids' & sg & t' & idx & pool & ss & Hrun & Hok' & _).
  by exists (Some q), s', kids'.
Qed.

(** The lock of a wrapper in order is of a transaction. *)
Lemma wrapper_txn_locked k s kids p : sdk_ok k s kids -> txn_locked s p.
Proof.
  intros Hok sg Hp a E. by destruct (lock_of_wrapper k s kids p sg Hok Hp _ E) as (x & [=] & _).
Qed.

(** Every valid call returns and keeps the state in order. *)
Lemma api_run_ok k s kids c :
  sdk_ok (k + 16) s kids -> 0 <= k -> all_fields s -> api_valid c s ->
  exists s' kids', api_run c s = Some (tt, s') /\ sdk_ok k s' kids' /\ all_fields s'.
Proof.
  intros Hok Hk Hall Hv. assert (Hok2 : sdk_ok (k + 2) s kids) by (eapply sdk_ok_le; [|exact Hok]; lia).
  pose proof (fun p => wrapper_txn_locked (k + 2) s kids p Hok2) as Hlocked.
  enough (exists s' kids', api_run c s = Some (tt, s') /\ sdk_ok k s' kids' /\ fields_kept s s') as (s' & kids' & Hrun & Hok' & Hkept).
  { exists s', kids'. split; [done|]. split; [done|by apply Hkept]. }
  destruct c; cbn [api_valid] in Hv; unfold api_run;
    lazymatch goal with
    | |- context [newrelic_start_datastore_segment] => apply (kept_done k s)
    | |- context [newrelic_start_external_segment] => apply (kept_done k s)
    | |- context [newrelic_end_segment] => apply (kept_done k s)
    | _ => apply (keeps_done k s kids)
    end.
  - destruct Hv as (? & ? & ? & ?). by apply start_segment_ok.
  - intros r s'. apply (start_segment_frame _ _ realloc_ok clock fields_ok), no_fields_ok.
  - destruct Hv as (? & ? & ?). by apply (start_datastore_ok k s kids).
  - destruct Hv as (? & ? & ?). by apply (start_external_ok k s kids).
  - destruct Hv as [[sg Hp] Hy]. destruct (end_segment_ok k s kids p sg x Hok Hk Hp (Hall p sg Hp) Hy) as (s' & kids' & Hrun & Hok' & Es).
    eexists _, s', kids'. split; [done|]. split; [done|]. by eapply all_fields_delete.
  - destruct Hv. by apply (set_segment_parent_ok k s kids).
  - intros r s'. eapply set_segment_parent_frame; [apply _|apply Hlocked].
  - by apply set_segment_parent_root_ok.
  - intros r s'. eapply set_segment_parent_root_frame; [apply _|apply Hlocked].
  - by apply set_segment_timing_ok.
  - intros r s'. eapply set_segment_timing_frame; [apply _|apply Hlocked].
  - by apply set_transaction_timing_ok.
  - intros r s'. eapply set_transaction_timing_frame; apply _.
  - by apply set_transaction_name_ok.
  - intros r s'. eapply set_transaction_name_frame; apply _.
  - by apply ignore_transaction_ok.
  - intros r s'. apply ignore_transaction_fields.
  - destruct Hv as (? & ? & ?). by apply record_custom_metric_ok.
  - intros r s'. eapply record_custom_metric_frame; apply _.
  - by apply notice_error_ok.
  - intros r s'. eapply notice_error_frame; apply _.
  - by apply add_attribute_ok.
  - intros r s'. eapply add_attribute_frame; apply _.
  - by apply create_custom_event_ok.
  - intros r s'. eapply create_custom_event_frame; apply _.
  - by apply set_attribute_ok.
  - intros r s'. eapply set_attribute_frame; apply _.
  - by apply discard_custom_event_ok.
  - intros r s'. eapply discard_custom_event_frame; apply _.
  - destruct Hv. by apply record_custom_event_ok.
  - intros r s'. eapply record_custom_event_frame; apply _.
Qed.

Lemma session_run_ok calls k s kids :
  sdk_ok (k + 16 * Z.of_nat (length calls)) s kids -> 0 <= k -> all_fields s -> session_valid calls s ->
  exists s' kids', session_run calls s = Some (tt, s') /\ sdk_ok k s' kids' /\ all_fields s'.
Proof.
  revert s kids. induction calls as [|c calls IH]; intros s kids Hok Hk Hall Hv; cbn [session_run session_valid length] in *.
  - exists s, kids. split; [done|]. split; [|done]. eapply sdk_ok_le; [|exact Hok]. lia.
  - destruct Hv as [Hc Hv].
    destruct (api_run_ok (k + 16 * Z.of_nat (length calls)) s kids c) as (s1 & kids1 & Hrun & Hok1 & Hall1);
      [eapply sdk_ok_le; [|exact Hok]; lia|lia|done|done|].
    erewrite bind_run by exact Hrun. by apply (IH s1 kids1); [..|apply Hv].
Qed.

End Calls.
