(* ===== verification/Lifetimes.v ===== *)
(** * Lifetimes

    All the calls of the API from the start of a process to its end: the log and the connection to the
    daemon, applications, transactions, what happens inside transactions, distributed tracing.  What
    the SDK relies on when it lets axiom begin, end and destroy a transaction is the class
    [TxnLifecycle]. *)

From S2P Require Import Prelude Vector Strings Time StringPool Metrics.
From S2P Require Import HashMap SegmentChildren Slab Datastore Slowsqls Txn Config Segment SegmentEnd Sdk SdkSample.
From S2P Require Import SdkGlobal SdkTransaction SdkSegment Session Transactions SessionEnds Frames Calls.

(** ** What the SDK relies on *)

Section Lifecycle.
Context {S P M A O : Type} `{NamePool P} `{ObjectAllocator S M} `{!AxiomLib S P M A O}.

Abbreviation world := (world S P M).

Implicit Types (w : world) (kids : seg_ptr -> list seg_ptr).

(** What was there is there, but for a transaction and its segments; segments keep their
    transaction and their type. *)
Record without (tp : txn_ptr) w w' : Prop := {
  wt_segments : forall p s, w_segments w !! p = Some s -> s_txn s <> Some tp ->
    exists s', w_segments w' !! p = Some s' /\ s_txn s' = s_txn s /\ s_type s' = s_type s;
  wt_txns : dom (w_txns w') = dom (w_txns w) ∖ {[tp]};
}.

(** A wrapper of a segment of another transaction. *)
Lemma wrapper_without tp w w' txns txns' sg :
  without tp w w' -> sg_transaction sg <> Some tp -> wrapper_ok (w_segments w) txns sg ->
  (forall x tx, txns !! x = Some tx -> tx_txn tx <> tp -> txns' !! x = Some tx) -> wrapper_ok (w_segments w') txns' sg.
Proof.
  intros Hw Hne (tq & Htq & (seg & Hseg & Ho) & Hlock & Hfit) Htxns.
  destruct (wt_segments _ _ _ Hw _ seg Hseg) as (seg' & Hseg' & Et & Ey); [congruence|].
  exists tq. split; [done|]. split; [exists seg'; by rewrite Et|]. split.
  - intros m Hm. destruct (Hlock m Hm) as (x & tx & -> & Hx & <-). exists x, tx. split; [done|]. split; [|done].
    apply Htxns; [done|congruence].
  - intros seg2 Hseg2. rewrite Hseg' in Hseg2. injection Hseg2 as <-. rewrite Ey. by apply Hfit.
Qed.

(** Calls of axiom that change the transaction they are about, and return. *)
Definition changes_txn {T : Type} (f : txn_ptr -> world -> A -> option (T * world * A)) : Prop :=
  forall k w kids tp a, memory_ok (k + 1) w kids -> 0 <= k -> is_Some (w_txns w !! tp) ->
    exists r w' a' kids', f tp w a = Some (r, w', a') /\ memory_ok k w' kids' /\ grows w w' /\ statuses_kept w w'.

(** [nr_txn_begin] makes a new transaction that records, whose name is not frozen, or nothing;
    [nr_txn_end] leaves the transaction in place, and [nr_txn_destroy] after it takes it and its
    segments away and nothing else; payloads of distributed traces are read and written for a live
    transaction. *)
Class TxnLifecycle : Prop := {
  lc_begin : forall k w kids app opts a txn w' a', memory_ok (k + 1) w kids -> 0 <= k -> nr_txn_begin app opts w a = (txn, w', a') ->
    exists kids', memory_ok k w' kids' /\ grows w w'
      /\ match txn with
         | None => dom (w_txns w') = dom (w_txns w)
         | Some tp => w_txns w !! tp = None /\ dom (w_txns w') = {[tp]} ∪ dom (w_txns w)
             /\ exists t, w_txns w' !! tp = Some t /\ path_is_frozen (t_status t) = 0
                /\ path_type_int (path_type (t_status t)) <= path_type_int NR_PATH_TYPE_ACTION
                /\ recording (t_status t) <> 0
         end;
  lc_end : forall k w kids tp a, memory_ok k w kids -> 0 <= k -> is_Some (w_txns w !! tp) ->
    exists w1 a1, nr_txn_end tp w a = Some (w1, a1) /\ is_Some (w_txns w1 !! tp)
      /\ forall a2, exists w' a' kids', nr_txn_destroy tp w1 a2 = Some (w', a') /\ memory_ok k w' kids' /\ without tp w w';
  lc_create_payload : forall root, changes_txn (fun tp => nr_txn_create_distributed_trace_payload tp root);
  lc_accept : forall payload transport, changes_txn (fun tp => nr_txn_accept_distributed_trace_payload tp payload transport);
  lc_accept_httpsafe : forall payload transport,
    changes_txn (fun tp => nr_txn_accept_distributed_trace_payload_httpsafe tp payload transport);
}.

End Lifecycle.
Arguments TxnLifecycle S P M A O {_ _ _}.

(** ** Calls *)

Inductive life_call {O : Type} : Type :=
  | Setup (c : global_call)
  | CreateApp (config : newrelic_app_config_t) (timeout_ms : Z)
  | DestroyApp (a : app_ptr)
  | StartTransaction (a : app_ptr) (name : option cstr) (is_web_transaction : bool)
  | EndTransaction (x : sdk_txn_ptr)
  | CreatePayload (x : sdk_txn_ptr) (segment : option sdk_seg_ptr) (httpsafe : bool)
  | AcceptPayload (x : sdk_txn_ptr) (payload transport_type : option cstr) (httpsafe : bool)
  | Within (c : api_call (O := O)).

Section Lifetimes.
Context {S P M A O : Type} `{NamePool P} `{ObjectAllocator S M} `{!AxiomLib S P M A O}.
Context (realloc_ok : Z -> bool) (clock : nat -> Z * Z) (NEWRELIC_VERSION : cstr) (HAVE_BACKTRACE : bool).

Abbreviation sdk := (sdk S P M A O).
Abbreviation prog := (prog S P M A O).
Abbreviation life_call := (life_call (O := O)).

Implicit Types (s : sdk) (kids : seg_ptr -> list seg_ptr) (k : Z).

(** The function of the API a call is to. *)
Definition life_run (c : life_call) : prog unit :=
  let done {T : Type} (m : prog T) : prog unit := _ ← m; mret tt in
  match c with
  | Setup c => done (run_global c)
  | CreateApp config timeout => done (newrelic_create_app NEWRELIC_VERSION (Some config) timeout)
  | DestroyApp a => done (newrelic_destroy_app (Some (Some a)))
  | StartTransaction a name web => done (newrelic_start_transaction (Some a) name web)
  | EndTransaction x => done (newrelic_end_transaction NEWRELIC_VERSION (Some (Some x)))
  | CreatePayload x segment false => done (newrelic_create_distributed_trace_payload (Some x) segment)
  | CreatePayload x segment true => done (newrelic_create_distributed_trace_payload_httpsafe (Some x) segment)
  | AcceptPayload x payload transport false => done (newrelic_accept_distributed_trace_payload (Some x) payload transport)
  | AcceptPayload x payload transport true => done (newrelic_accept_distributed_trace_payload_httpsafe (Some x) payload transport)
  | Within c => api_run realloc_ok clock HAVE_BACKTRACE c
  end.

(** No wrapper of a segment of a transaction is left. *)
Definition segments_ended s (x : sdk_txn_ptr) : Prop :=
  forall tx p sg, sd_txns s !! x = Some tx -> sd_segments s !! p = Some sg -> sg_transaction sg <> Some (tx_txn tx).

(** What the API asks of its caller: the handles are live, strings fit, and the segments of a
    transaction are ended before it is. *)
Definition life_valid (c : life_call) s : Prop :=
  match c with
  | Setup _ => True
  | CreateApp config _ => terminated config
  | DestroyApp a => is_Some (sd_apps s !! a)
  | StartTransaction a _ _ => is_Some (sd_apps s !! a)
  | EndTransaction x => is_Some (sd_txns s !! x) /\ segments_ended s x
  | CreatePayload x segment _ => is_Some (sd_txns s !! x) /\ forall p, segment = Some p -> is_Some (sd_segments s !! p)
  | AcceptPayload x _ _ _ => is_Some (sd_txns s !! x)
  | Within c => api_valid c s
  end.

Fixpoint lifetime_run (calls : list life_call) : prog unit :=
  match calls with
  | [] => mret tt
  | c :: calls => _ ← life_run c; lifetime_run calls
  end.

Fixpoint lifetime_valid (calls : list life_call) s : Prop :=
  match calls with
  | [] => True
  | c :: calls => life_valid c s /\ forall s', life_run c s = Some (tt, s') -> lifetime_valid calls s'
  end.

(** ** The state between calls *)

(** Every transaction of axiom has exactly one handle. *)
Definition handled s : Prop :=
  (forall tp, tp ∈ dom (w_txns (sd_world s)) -> exists x, (tx_txn <$> sd_txns s) !! x = Some tp)
  /\ forall x y tp, (tx_txn <$> sd_txns s) !! x = Some tp -> (tx_txn <$> sd_txns s) !! y = Some tp -> x = y.

Definition apps_free (apps : gmap app_ptr (newrelic_app_t O)) : Prop := forall p a, apps !! p = Some a -> mu_locked (ap_lock a) = false.

Record life_ok k s kids : Prop := {
  lo_sdk : sdk_ok k s kids;
  lo_fields : all_fields s;
  lo_handled : handled s;
  lo_apps : apps_free (sd_apps s);
}.

Lemma handles_kept_handled s s' : handles_kept s s' -> handled s -> handled s'.
Proof. intros (Hd & _ & Ht) Hs. unfold handled. rewrite Hd, Ht. exact Hs. Qed.

Lemma life_ok_le k k' s kids : k' <= k -> life_ok k s kids -> life_ok k' s kids.
Proof. intros Hle [? ? ? ?]. constructor; try done. by eapply sdk_ok_le. Qed.

(** A transaction of a handle. *)
Lemma handle_txn k s kids x tx : life_ok k s kids -> sd_txns s !! x = Some tx -> is_Some (w_txns (sd_world s) !! tx_txn tx).
Proof. intros Hok Hx. by apply (so_txns _ _ _ (lo_sdk _ _ _ Hok) x tx). Qed.

(** Nothing but axiom, the log and the applications changes. *)
Lemma life_ok_rest k s s' kids : life_ok k s kids -> same_rest s s' -> apps_free (sd_apps s') -> life_ok k s' kids.
Proof.
  intros [[Hm Ht Hs Hl] Hf Hh _] (Ew & Et & Es & _ & Emu) Hfree. constructor; [|by eapply fields_kept_same| |done].
  - constructor; rewrite ?Ew, ?Et, ?Es, ?Emu; done.
  - unfold handled. by rewrite Ew, Et.
Qed.

(** The state after a transaction began. *)
Lemma life_ok_begun k s s' kids w kids' tp x :
  life_ok k s kids -> memory_ok k w kids' -> grows (sd_world s) w -> sd_world s' = w ->
  w_txns (sd_world s) !! tp = None -> dom (w_txns w) = {[tp]} ∪ dom (w_txns (sd_world s)) ->
  sd_txns s !! x = None -> sd_txns s' = <[x := mk_sdk_txn tp free_lock]> (sd_txns s) ->
  sd_segments s' = sd_segments s -> sd_mutex s' = sd_mutex s -> sd_apps s' = sd_apps s -> life_ok k s' kids'.
Proof.
  intros Hlife Hm Hg Ew Htp Hdom Hx Et Es Emu Eapps. destruct Hlife as [[_ Ht Hs Hl] Hf [Hall Hone] Hfree]. subst w.
  constructor; [constructor| | |by rewrite Eapps].
  - done.
  - intros y ty. rewrite Et. intros [[<- <-]|[_ Hy]]%lookup_insert_Some.
    + split; [|done]. apply elem_of_dom. rewrite Hdom. apply elem_of_union. left. by apply elem_of_singleton.
    + destruct (Ht y ty Hy) as [Hin ?]. split; [by apply (gr_txns _ _ Hg)|done].
  - intros p sg. rewrite Es, Et. intros Hp. destruct (wrapper_grows _ _ _ _ Hg (Hs p sg Hp)) as (tq & Htq & Hown & Hlock & Hfit). exists tq. split; [done|].
    split; [done|]. split; [|done]. intros m Hm'. destruct (Hlock m Hm') as (y & ty & -> & Hy & E). exists y, ty.
    split; [done|]. split; [|done]. rewrite lookup_insert_ne; [done|]. by intros ->; simplify_eq.
  - by rewrite Emu.
  - by eapply fields_kept_same.
  - assert (Hnew : forall y tq, (tx_txn <$> sd_txns s) !! y = Some tq -> tq <> tp /\ y <> x).
    { intros y tq (ty & Etq & Hy)%lookup_fmap_Some. split; [|congruence]. destruct (Ht y ty Hy) as [[? ?] _]. congruence. }
    unfold handled. rewrite Et, Hdom, fmap_insert. cbn [tx_txn]. split.
    + intros tq [->%elem_of_singleton|Hq]%elem_of_union; [exists x; apply lookup_insert_eq|].
      destruct (Hall tq Hq) as [y Hy]. exists y. destruct (Hnew y tq Hy) as [_ Hne]. by rewrite lookup_insert_ne.
    + intros y z tq [[<- <-]|[Hy1 Hy]]%lookup_insert_Some [[Ez Etq]|[Hz1 Hz]]%lookup_insert_Some; try done.
      * by destruct (Hnew z _ Hz).
      * subst tq. by destruct (Hnew y _ Hy).
      * by eapply Hone.
Qed.

(** The state after a transaction is gone. *)
Lemma life_ok_ended k k' s s' kids kids' x tx :
  life_ok k s kids -> memory_ok k' (sd_world s') kids' -> without (tx_txn tx) (sd_world s) (sd_world s') ->
  sd_txns s !! x = Some tx -> segments_ended s x -> sd_txns s' = delete x (sd_txns s) ->
  sd_segments s' = sd_segments s -> sd_mutex s' = sd_mutex s -> sd_apps s' = sd_apps s -> life_ok k' s' kids'.
Proof.
  intros Hlife Hm Hwithout Hx Hended Et Es Emu Eapps. destruct Hlife as [[_ Ht Hs Hl] Hf [Hall Hone] Hfree].
  assert (Hother : forall y tq, (tx_txn <$> sd_txns s) !! y = Some tq -> y <> x -> tq <> tx_txn tx).
  { intros y tq Hy Hne E. apply Hne, (Hone y x tq); [done|]. by rewrite lookup_fmap, Hx, E. }
  constructor; [constructor| | |by rewrite Eapps].
  - done.
  - intros y ty. rewrite Et. intros [Hne Hy]%lookup_delete_Some. destruct (Ht y ty Hy) as [Hin ?]. split; [|done].
    apply elem_of_dom. rewrite (wt_txns _ _ _ Hwithout). apply elem_of_dom in Hin. apply elem_of_difference. split; [done|]. rewrite elem_of_singleton.
    apply (Hother y); [by rewrite lookup_fmap, Hy|done].
  - intros p sg. rewrite Es, Et. intros Hp. eapply wrapper_without; [exact Hwithout|by apply (Hended tx p sg)|by apply (Hs p)|].
    intros y ty Hy Hne. rewrite lookup_delete_ne; [done|]. intros <-. by simplify_eq.
  - by rewrite Emu.
  - by eapply fields_kept_same.
  - unfold handled. rewrite Et, (wt_txns _ _ _ Hwithout), fmap_delete. split.
    + intros tq [Hq Hne]%elem_of_difference. rewrite elem_of_singleton in Hne. destruct (Hall tq Hq) as [y Hy]. exists y.
      rewrite lookup_delete_ne; [done|]. intros ->. rewrite lookup_fmap, Hx in Hy. by simplify_eq/=.
    + intros y z tq [_ Hy]%lookup_delete_Some [_ Hz]%lookup_delete_Some. by eapply Hone.
Qed.

(** ** Every call *)

Definition keeps_life k s kids {T : Type} (m : prog T) : Prop :=
  exists r s' kids', m s = Some (r, s') /\ life_ok k s' kids'.

Lemma keeps_life_done k s kids {T : Type} (m : prog T) :
  keeps_life k s kids m -> exists s' kids', (_ ← m; mret tt) s = Some (tt, s') /\ life_ok k s' kids'.
Proof. intros (r & s' & kids' & Hrun & Hok). exists s', kids'. by erewrite bind_run. Qed.

Lemma run_global_rest c s : exists b s', run_global c s = Some (b, s') /\ same_rest s s' /\ sd_apps s' = sd_apps s.
Proof.
  destruct c as [f l|d t| |]; cbn [run_global].
  - destruct (configure_log_cases f l s) as (b & a & -> & _). by eexists _, _.
  - unfold newrelic_init. erewrite bind_run by done. cbv beta. cbn [id]. destruct (sd_applist s) eqn:E; [by eexists _, _|].
    destruct (do_init_cases d t s E) as (b & al & lc & a & -> & _). by eexists _, _.
  - destruct (ensure_init_cases s) as (b & al & lc & a & ->). by eexists _, _.
  - unfold newrelic_shutdown, mbind, prog_bind. cbn. destruct (sd_applist s); by eexists _, _.
Qed.

Lemma apps_free_insert apps p a : apps_free apps -> mu_locked (ap_lock a) = false -> apps_free (<[p := a]> apps).
Proof. intros Hfree Ha q b [[_ <-]|[_ Hq]]%lookup_insert_Some; [done|by eapply Hfree]. Qed.

Lemma apps_free_delete apps p : apps_free apps -> apps_free (delete p apps).
Proof. intros Hfree q b [_ Hq]%lookup_delete_Some. by eapply Hfree. Qed.

Lemma setup_ok k s kids c : life_ok k s kids -> keeps_life k s kids (run_global c).
Proof.
  intros Hok. destruct (run_global_rest c s) as (b & s' & Hrun & Hrest & Eapps). exists b, s', kids. split; [done|].
  eapply life_ok_rest; [done|done|]. rewrite Eapps. apply Hok.
Qed.

Lemma create_app_ok k s kids config timeout :
  life_ok k s kids -> terminated config -> keeps_life k s kids (newrelic_create_app NEWRELIC_VERSION (Some config) timeout).
Proof.
  intros Hok Hc. destruct (create_app_run NEWRELIC_VERSION config timeout s Hc) as (r & s' & Hrun & Hrest & _ & Hr).
  exists r, s', kids. split; [done|]. eapply life_ok_rest; [done|done|]. destruct r as [p|]; [|rewrite (proj1 Hr); apply Hok].
  destruct Hr as (_ & nrapp & cfg & lock & _ & -> & Hlock & _). apply apps_free_insert; [apply Hok|done].
Qed.

Lemma destroy_app_ok k s kids p :
  life_ok k s kids -> is_Some (sd_apps s !! p) -> keeps_life k s kids (newrelic_destroy_app (Some (Some p))).
Proof.
  intros Hok [a Hp]. destruct (destroy_app_run p s a Hp (lo_apps _ _ _ Hok p a Hp)) as (s' & Hrun & Eapps & Hrest).
  eexists _, s', kids. split; [done|]. eapply life_ok_rest; [done|done|]. rewrite Eapps. apply apps_free_delete, Hok.
Qed.

Context `{!TxnLifecycle S P M A O} (Hversion : strlen NEWRELIC_VERSION < LIMIT).

Lemma start_transaction_ok k s kids p name web :
  life_ok (k + 1) s kids -> 0 <= k -> is_Some (sd_apps s !! p) -> keeps_life k s kids (newrelic_start_transaction (Some p) name web).
Proof.
  intros Hok Hk [a Hp]. pose proof (lo_sdk _ _ _ Hok) as Hsdk.
  assert (Hok' : life_ok k s kids) by (eapply life_ok_le; [|exact Hok]; lia).
  destruct (pthread_mutex_init (nr_app_consider_appinfo (ap_app a) (sd_axiom s))) as [status a2] eqn:Hinit.
  destruct (nr_txn_begin (ap_app a) (newrelic_get_transaction_options (ap_config a)) (sd_world s) a2) as [[txn w] a3] eqn:Hbegin.
  destruct (lc_begin _ _ _ _ _ _ _ _ _ (so_memory _ _ _ Hsdk) Hk Hbegin) as (kids' & Hm & Hg & Htxn).
  destruct (start_transaction_run s p a name web status a2 txn w a3 Hp (lo_apps _ _ _ Hok p a Hp) Hinit Hbegin) as [_ Hrun].
  destruct status; [|exists None, (set_axiom a2 s), kids; split; [done|apply (life_ok_rest k s); [done|done|apply Hok]]].
  destruct txn as [tp|].
  - destruct Htxn as (Htp & Hdom & t & Ht & Hfrozen & Htype & _).
    destruct (Hrun t Ht Hfrozen Htype) as (x & s' & E & Hx & Et & Ew & Ea & Eapps & Es & Ee & Emu).
    destruct (memory_ok_txn k k w kids' tp t (named_transaction name web t)) as [Hm' Hg']; [done|lia|done| | |].
    { unfold named_transaction. by destruct (decide _). }
    { pose proof (tl_metrics _ _ _ _ (mo_txns _ _ _ Hm tp t Ht)) as Hmet. unfold named_transaction. by destruct (decide _). }
    exists (Some x), s', kids'. split; [done|]. eapply (life_ok_begun k s s' kids); try done; [by eapply grows_trans|].
    cbn. by rewrite dom_insert_L, Hdom, assoc_L, union_idemp_L by apply _.
  - destruct Hrun as (s' & E & Ew & Ea & Et & Eapps & Es & Ee & Emu). exists None, s', kids'. split; [done|].
    destruct Hok' as [Hs Hf Hh Hfree]. constructor; [|by eapply fields_kept_same| |by rewrite Eapps].
    + apply (sdk_ok_step k k s s' kids kids' Hs); rewrite ?Ew; try done. rewrite Es. by left.
    + unfold handled. by rewrite Ew, Et, Htxn.
Qed.

Lemma version_metric_short : strlen (version_metric NEWRELIC_VERSION) < 2 ^ 31 - 1.
Proof.
  unfold version_metric, newrelic_version. set (v := str "Supportability/C/NewrelicVersion/").
  pose proof (strlen_le (v ++ c_str NEWRELIC_VERSION)) as Hle. rewrite length_app in Hle.
  change (length v) with 33%nat in Hle. unfold LIMIT, strlen in *. lia.
Qed.

Lemma end_transaction_ok k s kids x :
  life_ok (k + 1) s kids -> 0 <= k -> is_Some (sd_txns s !! x) -> segments_ended s x ->
  exists ok s' kids', newrelic_end_transaction NEWRELIC_VERSION (Some (Some x)) s = Some ((ok, Some None), s') /\ life_ok k s' kids'
    /\ sd_txns s' = delete x (sd_txns s) /\ sd_apps s' = sd_apps s /\ sd_segments s' = sd_segments s /\ sd_events s' = sd_events s.
Proof.
  intros Hok Hk [tx Hx] Hended. pose proof (lo_sdk _ _ _ Hok) as Hsdk. pose proof (so_memory _ _ _ Hsdk) as Hm.
  destruct (so_txns _ _ _ Hsdk x tx Hx) as [[t Ht] Hfree].
  destruct (add_unscoped_spec k t (version_metric NEWRELIC_VERSION) 0) as (table & Hmetric & Hleft);
    [exact (tl_metrics _ _ _ _ (mo_txns _ _ _ Hm _ t Ht))|done|exact version_metric_short|].
  set (w := put_txn (tx_txn tx) (with_unscoped_metrics (Some table) t) (sd_world s)).
  destruct (memory_ok_txn (k + 1) k (sd_world s) kids (tx_txn tx) t (with_unscoped_metrics (Some table) t)) as [Hm' Hg'];
    [done|lia|done|by repeat split|done|].
  destruct (lc_end k w kids (tx_txn tx) (sd_axiom s) Hm' Hk) as (w1 & a1 & Hend & [t1 Ht1] & Hdestroy);
    [eexists; apply lookup_insert_eq|].
  pose proof (end_transaction_run NEWRELIC_VERSION s x tx t (Some table) w (sd_axiom s) w1 a1 t1) as Hrun.
  destruct (Hdestroy (if ignore (t_status t1) =? 0 then snd (nr_cmd_txndata_tx (tx_txn tx) w1 a1) else a1))
    as (w2 & a2 & kids2 & Hd & Hm2 & Hwithout).
  specialize (Hrun w2 a2 Hx Hfree Ht Hmetric eq_refl eq_refl Hend Ht1). cbv zeta in Hrun.
  destruct (if ignore (t_status t1) =? 0 then nr_cmd_txndata_tx (tx_txn tx) w1 a1 else (NR_SUCCESS, a1)) as [status a1'] eqn:Esent.
  destruct Hrun as (_ & _ & s' & E & Ew & Ea & Et & Eapps & Es & Ee & Emu).
  { destruct (ignore (t_status t1) =? 0); [by rewrite Esent in Hd|by injection Esent as _ <-]. }
  eexists _, s', kids2. split; [exact E|]. split; [|by split_and!].
  apply (life_ok_ended (k + 1) k s s' kids kids2 x tx Hok); rewrite ?Ew; try done.
  destruct Hwithout as [Hkept Hdom]. constructor; [exact Hkept|]. rewrite Hdom. unfold w. cbn. rewrite dom_insert_L.
  apply elem_of_dom_2 in Ht. by rewrite (subseteq_union_1_L {[tx_txn tx]}) by by apply singleton_subseteq_l.
Qed.

(** Everything but axiom, its memory and the trace. *)
Definition same_handles s s' : Prop :=
  sd_apps s' = sd_apps s /\ sd_txns s' = sd_txns s /\ sd_segments s' = sd_segments s /\ sd_events s' = sd_events s
  /\ sd_mutex s' = sd_mutex s.

(** A call of axiom on a transaction, under its lock. *)
Lemma locked_axiom_ok k s kids x tx {T U : Type} (body : prog T) (g : T -> U) :
  life_ok (k + 1) s kids -> 0 <= k -> sd_txns s !! x = Some tx ->
  (forall s1, sd_world s1 = sd_world s -> sd_segments s1 = sd_segments s -> txn_of x s1 = Some (tx_txn tx, s1) ->
     exists r s2 kids2, body s1 = Some (r, s2) /\ same_handles s1 s2 /\ memory_ok k (sd_world s2) kids2
       /\ grows (sd_world s) (sd_world s2) /\ statuses_kept (sd_world s) (sd_world s2)) ->
  exists r s' kids', (_ ← nrt_mutex_lock (Some (TxnLock x)); r ← body; _ ← nrt_mutex_unlock (Some (TxnLock x)); mret (g r)) s = Some (g r, s')
    /\ life_ok k s' kids' /\ touches false false s s'.
Proof.
  intros Hok Hk Hx Hbody. destruct Hok as [Hsdk Hf Hh Hfree]. destruct (so_txns _ _ _ Hsdk x tx Hx) as [_ Hlock].
  set (s1 := add_trace (Lock (TxnLock x)) (relock x tx true s)).
  assert (Hx1 : sd_txns s1 !! x = Some (mk_sdk_txn (tx_txn tx) (mk_mutex true true))) by apply lookup_insert_eq.
  destruct (Hbody s1 eq_refl eq_refl) as (r & s2 & kids2 & Hrun & (Ea2 & Et2 & Es2 & Ee2 & Emu2) & Hm2 & Hg2 & Hst);
    [by apply (txn_of_run s1 x _ Hx1)|].
  set (s3 := add_trace (Unlock (TxnLock x)) (relock x (mk_sdk_txn (tx_txn tx) (mk_mutex true true)) false s2)).
  assert (Et3 : sd_txns s3 = sd_txns s) by (cbn; rewrite Et2; by apply relock_twice).
  exists r, s3, kids2. split.
  { erewrite bind_run by (by apply (lock_txn_run s x tx)). cbv beta. erewrite bind_run by exact Hrun. cbv beta.
    erewrite bind_run by (apply (unlock_txn_run s2 x (mk_sdk_txn (tx_txn tx) (mk_mutex true true))); [by rewrite Et2|done]). done. }
  assert (Hkept : touches false false s s3).
  { split; [split; [exact (proj1 Hst)|split; [exact Ea2|by rewrite Et3]]|]. split; [exact Hst|by split]. }
  split; [|done]. constructor.
  - apply (sdk_ok_step (k + 1) k s s3 kids kids2 Hsdk Hm2 Hg2 Et3 Emu2). intros p sg Hp. left. change (sd_segments s2 !! p = Some sg) in Hp. by rewrite Es2 in Hp.
  - by eapply fields_kept_same.
  - by eapply handles_kept_handled; [apply Hkept|].
  - by rewrite (proj1 (proj2 (proj1 Hkept))).
Qed.

(** The call of axiom itself. *)
Definition axiom_step {T : Type} (f : txn_ptr -> world S P M -> A -> option (T * world S P M * A)) (tp : txn_ptr) : prog T :=
  fun s => '(r, w, a) ← f tp (sd_world s) (sd_axiom s); Some (r, set_axiom a (set_world w s)).

(** Reading the segment a payload is for, and making it. *)
Definition payload_root (tp : txn_ptr) (segment : option sdk_seg_ptr) : prog (option seg_ptr) :=
  match segment with
  | None => t ← read_txn tp; mret (t_segment_root t)
  | Some p => sg ← segment_of p; mret (Some (sg_segment sg))
  end.

Definition payload_body (x : sdk_txn_ptr) (segment : option sdk_seg_ptr) : prog (option cstr) :=
  tp ← txn_of x; root ← payload_root tp segment; _ ← traced (Uses tp);
  axiom_step (fun tp => nr_txn_create_distributed_trace_payload tp root) tp.

Definition accept_body (accept : txn_ptr -> option cstr -> option cstr -> world S P M -> A -> option (bool * world S P M * A))
  (x : sdk_txn_ptr) (payload transport : option cstr) : prog bool :=
  tp ← txn_of x; _ ← traced (Uses tp); axiom_step (fun tp => accept tp payload transport) tp.

Lemma changes_txn_run k s kids tp {T : Type} (f : txn_ptr -> world S P M -> A -> option (T * world S P M * A)) s1 :
  changes_txn f -> memory_ok (k + 1) (sd_world s) kids -> 0 <= k -> is_Some (w_txns (sd_world s) !! tp) -> sd_world s1 = sd_world s ->
  exists r s2 kids2, axiom_step f tp s1 = Some (r, s2)
    /\ same_handles s1 s2 /\ memory_ok k (sd_world s2) kids2 /\ grows (sd_world s) (sd_world s2)
    /\ statuses_kept (sd_world s) (sd_world s2).
Proof.
  intros Hf Hm Hk Hin Ew. destruct (Hf k (sd_world s) kids tp (sd_axiom s1) Hm Hk Hin) as (r & w & a & kids1 & E & Hm1 & Hg1 & Hst).
  exists r, (set_axiom a (set_world w s1)), kids1. unfold axiom_step. rewrite Ew, E. by split_and!.
Qed.

Lemma create_payload_ok k s kids x segment :
  life_ok (k + 1) s kids -> 0 <= k -> is_Some (sd_txns s !! x) -> (forall p, segment = Some p -> is_Some (sd_segments s !! p)) ->
  exists r s' kids', newrelic_create_distributed_trace_payload (Some x) segment s = Some (r, s')
    /\ life_ok k s' kids' /\ touches false false s s'.
Proof.
  intros Hok Hk [tx Hx] Hseg. pose proof (lo_sdk _ _ _ Hok) as Hsdk. destruct (so_txns _ _ _ Hsdk x tx Hx) as [Hin _].
  destruct (locked_axiom_ok k s kids x tx
    (payload_body x segment)
    id Hok Hk Hx) as (r & s' & kids' & Hrun & Hrest).
  - intros s1 Ew Es Htxn. unfold payload_body. erewrite bind_run by exact Htxn. cbv beta.
    assert (exists root s2, payload_root (tx_txn tx) segment s1 = Some (root, s2) /\ sd_world s2 = sd_world s1 /\ same_handles s1 s2) as (root & s2 & E & Ew2 & Hsame).
    { unfold payload_root. destruct segment as [p|].
      - destruct (Hseg p eq_refl) as [sg Hp]. exists (Some (sg_segment sg)), s1. split; [|done].
        erewrite bind_run by (apply segment_of_run; rewrite Es; exact Hp). done.
      - destruct Hin as [t Ht]. exists (t_segment_root t), (add_trace (Uses (tx_txn tx)) s1). split; [|done].
        erewrite bind_run by (apply (read_txn_run s1 _ t); by rewrite Ew). done. }
    erewrite bind_run by exact E. cbv beta. erewrite bind_run by done. cbv beta.
    destruct (changes_txn_run k s kids (tx_txn tx) _ (add_trace (Uses (tx_txn tx)) s2) (lc_create_payload root) (so_memory _ _ _ Hsdk) Hk Hin)
      as (r & s3 & kids3 & Hrun & Hsame3 & Hrest); [cbn; congruence|].
    exists r, s3, kids3. split; [exact Hrun|]. split; [|done]. unfold same_handles in *. cbn in Hsame3. intuition congruence.
  - exists r, s', kids'. split; [|done]. eapply eq_trans; [|exact Hrun].
    unfold newrelic_create_distributed_trace_payload, payload_body, payload_root, axiom_step, mbind, prog_bind, mret, prog_ret, id. by repeat case_match; simplify_eq.
Qed.

Lemma accept_payload_ok k s kids x payload transport accept :
  life_ok (k + 1) s kids -> 0 <= k -> is_Some (sd_txns s !! x) ->
  changes_txn (fun tp => accept tp payload transport) ->
  exists r s' kids', accept_payload accept (Some x) payload transport s = Some (r, s') /\ life_ok k s' kids' /\ touches false false s s'.
Proof.
  intros Hok Hk [tx Hx] Hf. pose proof (lo_sdk _ _ _ Hok) as Hsdk. destruct (so_txns _ _ _ Hsdk x tx Hx) as [Hin _].
  destruct (locked_axiom_ok k s kids x tx
    (accept_body accept x payload transport)
    id Hok Hk Hx) as (r & s' & kids' & Hrun & Hrest).
  - intros s1 Ew Es Htxn. unfold accept_body. erewrite bind_run by exact Htxn. cbv beta. erewrite bind_run by done. cbv beta.
    destruct (changes_txn_run k s kids (tx_txn tx) _ (add_trace (Uses (tx_txn tx)) s1) Hf (so_memory _ _ _ Hsdk) Hk Hin Ew)
      as (r & s3 & kids3 & Hrun & Hsame3 & Hrest). by exists r, s3, kids3.
  - exists r, s', kids'. split; [|done]. eapply eq_trans; [|exact Hrun].
    unfold accept_payload, accept_body, axiom_step, mbind, prog_bind, mret, prog_ret, id. by repeat case_match; simplify_eq.
Qed.

(** What happens inside transactions keeps the handles. *)
Lemma api_run_handles k s kids c s' :
  sdk_ok k s kids -> api_run realloc_ok clock HAVE_BACKTRACE c s = Some (tt, s') -> handles_kept s s'.
Proof.
  intros Hok E. pose proof (fun p => wrapper_txn_locked k s kids p Hok) as Hlocked. unfold api_run in E.
  destruct c; apply bind_inv in E as (r & s1 & E & E1); apply ret_inv in E1 as ->; revert E.
  - eapply start_segment_frame; [apply _|apply handles_kept_wrappers|done].
  - eapply start_datastore_frame; [apply _|apply handles_kept_wrappers|done].
  - eapply start_external_frame; [apply _|apply handles_kept_wrappers|done].
  - eapply end_segment_frame; [apply _|apply handles_kept_wrappers|done].
  - eapply set_segment_parent_frame; [apply _|apply Hlocked].
  - eapply set_segment_parent_root_frame; [apply _|apply Hlocked].
  - eapply set_segment_timing_frame; [apply _|apply Hlocked].
  - eapply set_transaction_timing_frame; apply _.
  - eapply set_transaction_name_frame; apply _.
  - apply ignore_transaction_handles.
  - eapply record_custom_metric_frame; apply _.
  - eapply notice_error_frame; apply _.
  - eapply add_attribute_frame; apply _.
  - eapply create_custom_event_frame; apply _.
  - eapply set_attribute_frame; apply _.
  - eapply discard_custom_event_frame; apply _.
  - eapply record_custom_event_frame; apply _.
Qed.

Context (Hroomy : roomy realloc_ok).

Lemma within_ok k s kids c :
  life_ok (k + 16) s kids -> 0 <= k -> api_valid c s ->
  exists s' kids', api_run realloc_ok clock HAVE_BACKTRACE c s = Some (tt, s') /\ life_ok k s' kids'.
Proof.
  intros [Hsdk Hf Hh Hfree] Hk Hv.
  destruct (api_run_ok realloc_ok clock Hroomy HAVE_BACKTRACE k s kids c Hsdk Hk Hf Hv) as (s' & kids' & Hrun & Hsdk' & Hf').
  pose proof (api_run_handles _ s kids c s' Hsdk Hrun) as Hkept. exists s', kids'. split; [done|]. constructor; try done.
  - by eapply handles_kept_handled.
  - by rewrite (proj1 (proj2 Hkept)).
Qed.

Lemma httpsafe_payload k s kids x segment :
  life_ok (k + 1) s kids -> 0 <= k -> is_Some (sd_txns s !! x) -> (forall p, segment = Some p -> is_Some (sd_segments s !! p)) ->
  exists r s' kids', newrelic_create_distributed_trace_payload_httpsafe (Some x) segment s = Some (r, s')
    /\ life_ok k s' kids' /\ touches false false s s'.
Proof.
  intros Hok Hk Hx Hseg. destruct (create_payload_ok k s kids x segment Hok Hk Hx Hseg) as (r & s' & kids' & Hrun & Hrest).
  unfold newrelic_create_distributed_trace_payload_httpsafe. exists (match r with Some p => nr_b64_encode p | None => None end), s', kids'.
  split; [|done]. erewrite bind_run by exact Hrun. by destruct r.
Qed.

Lemma life_run_ok k s kids c :
  life_ok (k + 16) s kids -> 0 <= k -> life_valid c s ->
  exists s' kids', life_run c s = Some (tt, s') /\ life_ok k s' kids'.
Proof.
  intros Hok Hk Hv. assert (Hok1 : life_ok (k + 1) s kids) by (eapply life_ok_le; [|exact Hok]; lia).
  assert (Hok0 : life_ok k s kids) by (eapply life_ok_le; [|exact Hok]; lia).
  destruct c as [c|config timeout|a|a name web|x|x segment []|x payload transport []|c]; cbn [life_valid] in Hv; unfold life_run;
    try apply (keeps_life_done k s kids).
  - by apply setup_ok.
  - by apply create_app_ok.
  - by apply destroy_app_ok.
  - by apply start_transaction_ok.
  - destruct Hv as [Hx Hended]. destruct (end_transaction_ok k s kids x Hok1 Hk Hx Hended) as (ok & s' & kids' & Hrun & Hok' & _).
    by eexists _, s', kids'.
  - destruct Hv as [Hx Hseg]. destruct (httpsafe_payload k s kids x segment Hok1 Hk Hx Hseg) as (r & s' & kids' & Hrun & Hok' & _).
    by exists r, s', kids'.
  - destruct Hv as [Hx Hseg]. destruct (create_payload_ok k s kids x segment Hok1 Hk Hx Hseg) as (r & s' & kids' & Hrun & Hok' & _).
    by exists r, s', kids'.
  - destruct (accept_payload_ok k s kids x payload transport nr_txn_accept_distributed_trace_payload_httpsafe Hok1 Hk Hv
      (lc_accept_httpsafe payload transport)) as (r & s' & kids' & Hrun & Hok' & _). by exists r, s', kids'.
  - destruct (accept_payload_ok k s kids x payload transport nr_txn_accept_distributed_trace_payload Hok1 Hk Hv
      (lc_accept payload transport)) as (r & s' & kids' & Hrun & Hok' & _). by exists r, s', kids'.
  - by apply (within_ok k s kids).
Qed.

Lemma lifetime_run_ok calls k s kids :
  life_ok (k + 16 * Z.of_nat (length calls)) s kids -> 0 <= k -> lifetime_valid calls s ->
  exists s' kids', lifetime_run calls s = Some (tt, s') /\ life_ok k s' kids'.
Proof.
  revert s kids. induction calls as [|c calls IH]; intros s kids Hok Hk Hv; cbn [lifetime_run lifetime_valid length] in *.
  - exists s, kids. split; [done|]. eapply life_ok_le; [|exact Hok]. lia.
  - destruct Hv as [Hc Hv].
    destruct (life_run_ok (k + 16 * Z.of_nat (length calls)) s kids c) as (s1 & kids1 & Hrun & Hok1);
      [eapply life_ok_le; [|exact Hok]; lia|lia|done|].
    erewrite bind_run by exact Hrun. by apply (IH s1 kids1); [..|apply Hv].
Qed.

(** ** The start and the end of a process *)

Lemma initial_life_ok mem (a : A) k :
  oa_ok mem empty empty -> k < 2 ^ 29 -> life_ok k (initial_sdk mem a) (fun _ => []).
Proof.
  intros Hmem Hk. constructor; [|done| |done].
  - constructor; [|done..]. constructor; [|by cbn; rewrite map_size_empty|done]. constructor; [|done..|].
    + constructor; [done| |done|constructor|by intros p [? ?]].
      intros p c. split; [by intros ?%elem_of_nil|by intros (? & ? & _)].
    + exists empty, empty. split; [done|]. split; [done|]. by intros p [? ?].
  - split; [|by intros x y tp ?%lookup_fmap_Some]. intros tp. cbn. by rewrite dom_empty, elem_of_empty.
Qed.

(** Without handles of transactions axiom holds no transaction and no segment. *)
Lemma no_handles_no_memory k s kids :
  life_ok k s kids -> sd_txns s = empty -> w_txns (sd_world s) = empty /\ w_segments (sd_world s) = empty.
Proof.
  intros Hok Et. assert (Htxns : w_txns (sd_world s) = empty).
  { apply dom_empty_iff_L, set_eq. intros tp. rewrite elem_of_empty. split; [|done]. intros Htp.
    destruct (proj1 (lo_handled _ _ _ Hok) tp Htp) as [x Hx]. by rewrite Et, fmap_empty, lookup_empty in Hx. }
  split; [done|]. apply map_empty. intros p. destruct (w_segments (sd_world s) !! p) as [sg|] eqn:Hp; [|done].
  destruct (sg_txn _ _ (wo_segments _ _ (mo_world _ _ _ (so_memory _ _ _ (lo_sdk _ _ _ Hok))) p sg Hp)) as (tp & _ & [t Ht]).
  by rewrite Htxns, lookup_empty in Ht.
Qed.

End Lifetimes.
