(* ===== verification/SessionSample.v ===== *)
(** * A state of the SDK in order

    The state of a process with one transaction that has no segments yet, on the sample axiom, and
    that it is in order: the theorems about calls and sessions are tried out on it. *)

From S2P Require Import Prelude Vector Strings Time StringPool Metrics.
From S2P Require Import HashMap SegmentChildren Slab Datastore Slowsqls Txn Config Segment SegmentEnd Sdk SdkSample.
From S2P Require Import SdkGlobal SdkTransaction SdkSegment Session SessionEnds Frames Calls.

Abbreviation sample_sdk_t := (sdk nr_slab_t nrstrpool_t (list block) sample_state sample_object).

(** The slab of the transaction, and the memory with its page. *)
Definition sample_slab : nr_slab_t * list block :=
  match nr_slab_create bump_calloc 4096 [] 168 0 with
  | Some (Some slab, mem) => (slab, mem)
  | _ => (mk_slab [] 0 0, [])
  end.

Definition sample_txn : nrtxn_t nr_slab_t nrstrpool_t :=
  blank_txn (newrelic_get_transaction_options None) (fst sample_slab) 5.

Definition sample_open_world : sample_world :=
  mk_world empty {[1%positive := sample_txn]} empty (snd sample_slab) 0%nat.

Definition sample_open : sample_sdk_t :=
  mk_sdk sample_open_world [] empty {[1%positive := mk_sdk_txn 1%positive free_lock]} empty empty (Some 1%positive) true
    (mk_mutex false false) [].

Definition no_kids_map (p : seg_ptr) : list seg_ptr := [].

Lemma sample_realloc_roomy : roomy sample_realloc.
Proof. exact permissive_roomy. Qed.

Lemma sample_open_txn tp t : w_txns sample_open_world !! tp = Some t -> 1%positive = tp /\ sample_txn = t.
Proof. change (({[1%positive := sample_txn]} : gmap txn_ptr _) !! tp = Some t -> 1%positive = tp /\ sample_txn = t). apply lookup_singleton_Some. Qed.

Lemma sample_world_ok : world_ok sample_open_world no_kids_map.
Proof.
  constructor.
  - constructor; [done| |done|constructor|by intros p [? ?]].
    intros p c. split; [by intros ?%elem_of_nil|by intros (? & ? & _)].
  - done.
  - intros tp t [<- <-]%sample_open_txn. constructor.
    + exists []. split; [|by intros p ?%elem_of_nil]. split; [|constructor].
      split; [done|]. split; [done|]. split; [done|]. by exists (replicate 32 None).
    + eexists _, []. split; [done|]. exact (pool_create_holds (P := nrstrpool_t)).
  - destruct (nr_slab_create_spec bump_calloc bump_calloc_fresh 4096 [] 168 0 (fst sample_slab) (snd sample_slab)) as (Hs & Hd & _);
      [lia|lia|lia|by intros [|i] j b c|by vm_compute|].
    exists {[1%positive := fst sample_slab]}, empty. split; [|split].
    + constructor; [done| | |by intros a ?%elem_of_empty].
      * by intros t s [<- <-]%lookup_singleton_Some.
      * intros t1 t2 s1 s2 p1 p2 [<- _]%lookup_singleton_Some [<- _]%lookup_singleton_Some. done.
    + intros tp t s [<- <-]%sample_open_txn [= <-]. by rewrite lookup_singleton_eq.
    + intros p [? ?]. done.
Qed.

(** There is room for a million additions. *)
Lemma sample_open_ok : sdk_ok 1000000 sample_open no_kids_map.
Proof.
  constructor; [constructor|..].
  - apply sample_world_ok.
  - done.
  - intros tp t [<- <-]%sample_open_txn. constructor.
    + by eexists.
    + eexists _, []. split; [done|]. split; [exact (pool_create_holds (P := nrstrpool_t))|]. by split.
    + destruct (nrm_table_create_rep 0) as [Hrep _]; [lia|]. eexists _, []. split; [done|]. by split.
    + done.
    + eexists _, []. split; [done|]. by split; [exact (pool_create_holds (P := nrstrpool_t))|].
  - intros x tx Hx. change (({[1%positive := mk_sdk_txn 1%positive free_lock]} : gmap _ _) !! x = Some tx) in Hx.
    apply lookup_singleton_Some in Hx as [<- <-]. by split; [eexists|].
  - done.
  - done.
Qed.

(** It has no wrappers. *)
Lemma sample_fields : all_fields sample_open.
Proof. by intros p sg [=]. Qed.
