(* ===== verification/Behaviour.v ===== *)
(** * What the calls of the API do

    The theorems about the calls on transactions and segments, and about sessions. *)

From Stdlib Require Import SpecFloat.

From S2P Require Import Prelude Vector Strings Time StringPool Metrics.
From S2P Require Import HashMap SegmentChildren Slab Datastore Slowsqls Txn Config Segment SegmentEnd Sdk SdkSample.
From S2P Require Import SdkGlobal SdkTransaction SdkSegment Session SessionEnds Frames Calls SessionSample.

Section Behaviour.
Context {S P M A O : Type} `{NamePool P} `{ObjectAllocator S M} `{AxiomLib S P M A O}.

Implicit Types (s : sdk S P M A O) (kids : seg_ptr -> list seg_ptr) (k : Z).

(** Every lock of a transaction and the static one are free. *)
Definition locks_free s : Prop :=
  (forall x tx, sd_txns s !! x = Some tx -> tx_lock tx = free_lock) /\ mu_locked (sd_mutex s) = false.

Lemma sdk_ok_free k s kids : sdk_ok k s kids -> locks_free s.
Proof. intros Hok. split; apply Hok. Qed.

(** Exactly one slash. *)
Definition one_slash (name : cstr) : Prop := length (filter (fun c => c = 47) name) = 1%nat.

(** ** Sessions *)

(* @about newrelic_start_segment newrelic_end_segment newrelic_set_segment_parent newrelic_set_segment_parent_root newrelic_set_segment_timing newrelic_start_datastore_segment newrelic_start_external_segment newrelic_set_transaction_timing newrelic_set_transaction_name newrelic_ignore_transaction newrelic_record_custom_metric newrelic_notice_error newrelic_add_attribute newrelic_create_custom_event newrelic_discard_custom_event newrelic_record_custom_event *)
(** C1 (invariant): sessions of valid calls inside transactions, in any order.  A call is valid
    ([api_valid]) where its handles are live; a custom segment is only started in a transaction that
    records, so not after [newrelic_ignore_transaction], where the start dereferences NULL; a segment is
    only started while the allocator has memory; a custom metric converts to an unsigned number of
    milliseconds or is NaN or infinite; strings are not longer than the tables of names take, and no
    query ends in a backslash inside a string.  From a state in order, with memory and room in the tables
    for sixteen additions a call, every such session returns: no call dereferences a NULL or dead pointer,
    waits for a lock that is held or loops for ever.  The state is in order again: the segments of every
    transaction are a forest, every wrapper is of a live segment and transaction and has parameters its
    segment can end with, the names and metrics are where the tables say, and every lock is free. *)
Theorem newrelic_session_safe (realloc_ok : Z -> bool) (clock : nat -> Z * Z)
  (HAVE_BACKTRACE : bool) (calls : list api_call) k s kids :
  roomy realloc_ok -> 0 <= k -> sdk_ok (k + 16 * Z.of_nat (length calls)) s kids -> all_fields s ->
  session_valid realloc_ok clock HAVE_BACKTRACE calls s ->
  exists s' kids', session_run realloc_ok clock HAVE_BACKTRACE calls s = Some (tt, s') /\ sdk_ok k s' kids'
    /\ all_fields s' /\ forest (w_segments (sd_world s')) kids'
    /\ (forall p sg, sd_segments s' !! p = Some sg -> wrapper_ok (w_segments (sd_world s')) (sd_txns s') sg)
    /\ locks_free s'.
Proof.
  intros Hroomy Hk Hok Hall Hv.
  destruct (session_run_ok realloc_ok clock Hroomy HAVE_BACKTRACE calls k s kids Hok Hk Hall Hv) as (s' & kids' & Hrun & Hok' & Hall').
  exists s', kids'. split; [done|]. split; [done|]. split; [done|]. split; [apply Hok'|]. split; [apply Hok'|]. by eapply sdk_ok_free.
Qed.

(** ** Starting a segment *)

Lemma without_slash (name : option cstr) dflt :
  existsb (Z.eqb 47) (c_str dflt) = false ->
  filter (fun c => c = 47) (c_str (match name with
                                   | Some n => if newrelic_validate_segment_param name then n else dflt
                                   | None => dflt
                                   end)) = [].
Proof.
  assert (Hnone : forall l, existsb (Z.eqb 47) l = false -> filter (fun c => c = 47) l = []).
  { induction l as [|c l IH]; cbn [existsb]; [done|]. intros [Hc Hl]%orb_false_iff. apply Z.eqb_neq in Hc.
    rewrite filter_cons_False by congruence. by apply IH. }
  intros Hd. destruct name as [n|]; [|by apply Hnone]. unfold newrelic_validate_segment_param.
  destruct (existsb (Z.eqb 47) (c_str n)) eqn:E; by apply Hnone.
Qed.

Lemma start_name_slash name category : one_slash (start_name name category).
Proof.
  unfold one_slash, start_name. rewrite !filter_app, !without_slash by by vm_compute. done.
Qed.

(* @about newrelic_start_segment newrelic_segment_create newrelic_validate_segment_param *)
(** C5 (functional): what [newrelic_start_segment] does, from a state in order.  Without a
    transaction it answers NULL.  In a transaction that records it answers a new handle for a new
    segment of axiom: a custom segment that starts now, has not ended, is the child of the segment
    the transaction was in and is the one it is in from now on; its name is the category and the
    name around the only slash, with "Custom" and "Unnamed Segment" in place of one that is missing
    or has a slash; the handle holds the lock of the transaction, nothing else of the API changes
    and no lock stays held.  In a transaction that does not record, for instance after
    [newrelic_ignore_transaction], no segment is made and the call dereferences NULL. *)
Theorem newrelic_start_segment_outcomes (realloc_ok : Z -> bool) (clock : nat -> Z * Z) k s kids x tx t name category :
  roomy realloc_ok -> sdk_ok (k + 2) s kids -> 0 <= k -> sd_txns s !! x = Some tx ->
  w_txns (sd_world s) !! tx_txn tx = Some t ->
  oa_next (w_mem (sd_world s)) (t_segment_slab t) <> None -> strlen (start_name name category) < 2 ^ 31 - 1 ->
  newrelic_start_segment realloc_ok clock None name category s = Some (None, s)
  /\ (recording (t_status t) = 0 -> newrelic_start_segment realloc_ok clock (Some x) name category s = None)
  /\ (recording (t_status t) <> 0 ->
      exists l p q s' kids' sg t' pool ss,
        newrelic_start_segment realloc_ok clock (Some x) name category s = Some (Some q, s')
        /\ sdk_ok k s' kids' /\ locks_free s' /\ same_api s s'
        /\ sd_segments s !! q = None /\ w_segments (sd_world s) !! p = None
        /\ sd_segments s' = <[q := mk_sdk_segment p (Some (tx_txn tx)) (Some (TxnLock x)) NoFields]> (sd_segments s)
        /\ w_segments (sd_world s') !! p = Some sg /\ s_type sg = NR_SEGMENT_CUSTOM /\ s_stop_time sg = 0
        /\ s_start_time sg = nr_time_duration (t_abs_start_time t) (fst (read_clock clock (sd_world s)))
        /\ current_stack t l /\ s_parent sg = last l
        /\ w_txns (sd_world s') !! tx_txn tx = Some t' /\ current_stack t' (l ++ [p])
        /\ t_trace_strings t' = Some pool /\ pool_holds pool ss
        /\ ss !! Z.to_nat (s_name sg - 1) = Some (c_str (start_name name category)))
  /\ one_slash (start_name name category).
Proof.
  intros Hroomy Hok Hk Hx Ht Hmem Hlen. split; [done|]. split; [by eapply start_segment_ignored|]. split; [|apply start_name_slash].
  intros Hrec. destruct (start_segment_run realloc_ok clock Hroomy k s kids x tx t name category Hok Hk Hx Ht Hrec Hmem Hlen)
    as (l & p & q & s' & kids' & sg & t' & idx & pool & ss & Hrun & Hok' & Hapi & _ & Hl & Hp & Hq & Es & Hsg & Hpar & Hty & Hstop
        & Hstart & Ht' & Hl' & Hpool & Hholds & _ & -> & Hname).
  pose proof (sdk_ok_free _ _ _ Hok') as Hfree. exists l, p, q, s', kids', sg, t', pool, ss. split_and!; assumption.
Qed.

(** ** Ending a segment *)

(* @about newrelic_end_segment newrelic_segment_destroy newrelic_end_datastore_segment newrelic_end_external_segment *)
(** C9 (error): what [newrelic_end_segment] answers, from a state in order.  NULL, or a pointer to
    NULL, gives false and changes nothing.  With a live handle of any type, and parameters in range, the handle is always
    destroyed and the pointer to it set to NULL, even when the call fails; the answer is true
    exactly when the transaction is a live one and the one the segment belongs to.  In all cases
    the state stays in order and no lock stays held. *)
Theorem newrelic_end_segment_outcomes (realloc_ok : Z -> bool) (clock : nat -> Z * Z)
  k s kids p sg transaction :
  roomy realloc_ok -> sdk_ok (k + 16) s kids -> 0 <= k -> sd_segments s !! p = Some sg -> fields_ok (sg_type sg) ->
  (forall y, transaction = Some y -> is_Some (sd_txns s !! y)) ->
  newrelic_end_segment realloc_ok clock transaction None s = Some ((false, None), s)
  /\ newrelic_end_segment realloc_ok clock transaction (Some None) s = Some ((false, Some None), s)
  /\ exists ok s' kids', newrelic_end_segment realloc_ok clock transaction (Some (Some p)) s = Some ((ok, Some None), s')
      /\ sdk_ok k s' kids' /\ locks_free s' /\ sd_segments s' = delete p (sd_segments s)
      /\ (ok = true <-> exists y tx, transaction = Some y /\ sd_txns s !! y = Some tx /\ sg_transaction sg = Some (tx_txn tx)).
Proof.
  intros Hroomy Hok Hk Hp Hfields Hy. split; [done|]. split; [done|].
  destruct (end_segment_ok realloc_ok clock Hroomy k s kids p sg transaction Hok Hk Hp Hfields Hy) as (s' & kids' & Hrun & Hok' & Es).
  exists (bool_decide (is_Some (ends_in s sg transaction))), s', kids'. split; [done|]. split; [done|].
  split; [by eapply sdk_ok_free|]. split; [done|]. rewrite bool_decide_eq_true. unfold ends_in. split.
  - intros [z Hz]. destruct transaction as [y|]; [|done]. destruct (sd_txns s !! y) as [tx|] eqn:E; [|done].
    destruct (bool_decide_reflect (sg_transaction sg = Some (tx_txn tx))); [|done]. by exists y, tx.
  - intros (y & tx & -> & -> & E). rewrite bool_decide_eq_true_2 by done. by eexists.
Qed.


(** ** The tree of segments *)

(* @about newrelic_set_segment_parent nr_segment_set_parent ancestor_loop newrelic_add_api_supportability_metric *)
(** C8 (safety): changing the parent never makes a cycle and never joins two transactions.  From a
    state in order, a NULL handle or the same handle twice gives false and changes nothing.  On two
    live handles the answer is true exactly when both segments are of one transaction and the new
    parent is not the segment itself or under it (or is its parent already); then the segment's
    parent is the new one and no other segment has another parent than before.  When the answer is
    false every parent is as before.  The segments stay a forest whose arrays of children agree with
    the parents, and no lock stays held. *)
Theorem newrelic_set_segment_parent_outcomes (realloc_ok : Z -> bool) k s kids p q sgp sgq sp sq :
  roomy realloc_ok -> sdk_ok (k + 2) s kids -> 0 <= k -> sd_segments s !! p = Some sgp -> sd_segments s !! q = Some sgq ->
  w_segments (sd_world s) !! sg_segment sgp = Some sp -> w_segments (sd_world s) !! sg_segment sgq = Some sq ->
  newrelic_set_segment_parent realloc_ok None (Some q) s = Some (false, s)
  /\ newrelic_set_segment_parent realloc_ok (Some p) None s = Some (false, s)
  /\ newrelic_set_segment_parent realloc_ok (Some p) (Some p) s = Some (false, s)
  /\ (p <> q -> exists ok s' kids' above,
        newrelic_set_segment_parent realloc_ok (Some p) (Some q) s = Some (ok, s') /\ sdk_ok k s' kids' /\ locks_free s'
        /\ forest (w_segments (sd_world s')) kids' /\ sd_segments s' = sd_segments s /\ sd_txns s' = sd_txns s
        /\ chain (parent_in (w_segments (sd_world s))) (sg_segment sgq) above
        /\ ok = may_hang sp sq (sg_segment sgp) (sg_segment sgq) above
        /\ forall x, parent_in (w_segments (sd_world s')) x
            = if ok && bool_decide (x = sg_segment sgp) then Some (sg_segment sgq) else parent_in (w_segments (sd_world s)) x).
Proof.
  intros Hroomy Hok Hk Hp Hq Hsp Hsq. split; [done|]. split; [done|]. split.
  { unfold newrelic_set_segment_parent. by rewrite bool_decide_eq_true_2. }
  intros Hne. destruct (set_segment_parent_run realloc_ok Hroomy k s kids p q sgp sgq sp sq Hok Hk Hne Hp Hq Hsp Hsq)
    as (ok & s' & kids' & above & Hrun & Hok' & Hrest). exists ok, s', kids', above. split; [done|]. split; [done|].
  split; [by eapply sdk_ok_free|]. split; [apply Hok'|done].
Qed.

(** ** Datastore segments *)

(** A value that was given and is not empty, or the default. *)
Definition given_or (dflt : cstr) (v : option cstr) : cstr :=
  match v with Some v => if decide (c_str v = []) then dflt else c_str v | None => dflt end.

(** What the agent is told of the parameters. *)
Definition told_datastore (params : newrelic_datastore_segment_params_t) (hostname : cstr) : nr_segment_datastore_params_t := {|
  sdp_collection := Some (from_option c_str (str "other") (dp_collection params));
  sdp_operation := Some (from_option c_str (str "other") (dp_operation params));
  sdp_instance := Some {|
    di_host := Some (if nr_datastore_instance_is_localhost (dp_host params) then hostname
                     else given_or (str "unknown") (dp_host params));
    di_port_path_or_id := Some (given_or (str "unknown") (dp_port_path_or_id params));
    di_database_name := Some (given_or (str "unknown") (dp_database_name params)) |};
  sdp_type := nr_datastore_from_string (dp_product params);
  sdp_string := Some (given_or (str "Other") (dp_product params));
  sdp_sql := c_str <$> dp_query params;
  sdp_plan_json := None;
  sdp_input_query := None;
  sdp_backtrace := None;
  sdp_modify_table_name := None;
|}.

Lemma strempty_given dflt v :
  c_str dflt = dflt -> (if nr_strempty v then nr_strdup (Some dflt) else nr_strdup v) = given_or dflt v.
Proof.
  intros Hd. unfold given_or, nr_strempty, nr_strdup. destruct v as [[|c v]|]; [exact Hd| |exact Hd].
  change (byte_at (c :: v) 0) with c. cbn [c_str]. rewrite (Z.eqb_sym 0 c), Hd. by destruct (c =? 0); case_decide.
Qed.

Lemma stored_told params hostname :
  let d := stored_datastore params hostname in
  datastore_end_params d = told_datastore params hostname.
Proof.
  cbv zeta. unfold datastore_end_params, stored_datastore, told_datastore, nr_datastore_instance_set_database_name,
    nr_datastore_instance_set_port_path_or_id, nr_datastore_instance_set_host, no_instance, NEWRELIC_DATASTORE_OTHER.
  cbn [df_collection df_operation df_instance df_type df_string df_sql di_host di_port_path_or_id di_database_name from_option id].
  rewrite !strempty_given by by vm_compute. f_equal; by destruct (dp_collection params), (dp_operation params).
Qed.


End Behaviour.

Definition sample_call : Type := api_call (O := sample_object).
Definition sample_calls : list sample_call :=
  [StartSegment 1 (Some (str "a")) None; StartSegment 1 None (Some (str "b")); SetSegmentParent 1 2;
   RecordCustomMetric 1 (str "Custom/m") (S754_zero false); EndSegment (Some 1%positive) 2; IgnoreTransaction 1; EndSegment None 1].

Lemma newrelic_session_safe_witness :
  session_validb sample_realloc sample_clock false sample_calls sample_open = true
  /\ exists s' kids', session_run sample_realloc sample_clock false sample_calls sample_open = Some (tt, s')
       /\ forest (w_segments (sd_world s')) kids'.
Proof.
  assert (Hv : session_validb sample_realloc sample_clock false sample_calls sample_open = true) by by vm_compute.
  split; [exact Hv|].
  destruct (newrelic_session_safe sample_realloc sample_clock false sample_calls 0 sample_open no_kids_map) as (s' & kids' & Hrun & _ & _ & Hf & _).
  - exact sample_realloc_roomy.
  - lia.
  - apply (sdk_ok_le 1000000); [by vm_compute|exact sample_open_ok].
  - exact sample_fields.
  - apply session_validb_ok. exact Hv.
  - exists s', kids'. split; [exact Hrun|exact Hf].
Defined.

(** ** Witnesses

    On the sample state the transaction is the first, it records, and it has memory. *)

Definition sample_handle : newrelic_txn_t := mk_sdk_txn 1%positive free_lock.

Lemma sample_txn_lookup :
  sd_txns sample_open !! 1%positive = Some sample_handle
  /\ w_txns (sd_world sample_open) !! 1%positive = Some sample_txn /\ recording (t_status sample_txn) <> 0
  /\ oa_next (w_mem (sd_world sample_open)) (t_segment_slab sample_txn) <> None.
Proof. split; [done|]. split; [done|]. split; [done|]. by vm_compute. Qed.

Lemma sample_room k : k <= 1000000 -> sdk_ok k sample_open no_kids_map.
Proof. intros Hk. apply (sdk_ok_le 1000000); [exact Hk|exact sample_open_ok]. Qed.

Lemma newrelic_start_segment_outcomes_witness :
  exists q s', newrelic_start_segment sample_realloc sample_clock (Some 1%positive) (Some (str "a/b")) None sample_open = Some (Some q, s')
    /\ c_str (start_name (Some (str "a/b")) None) = str "Custom/Unnamed Segment".
Proof.
  destruct sample_txn_lookup as (Hx & Ht & Hrec & Hmem).
  destruct (newrelic_start_segment_outcomes sample_realloc sample_clock 0 sample_open no_kids_map 1 sample_handle sample_txn (Some (str "a/b")) None)
    as (_ & _ & Hstart & _).
  - exact sample_realloc_roomy.
  - apply sample_room. lia.
  - lia.
  - exact Hx.
  - exact Ht.
  - exact Hmem.
  - by vm_compute.
  - destruct (Hstart Hrec) as (l & p & q & s' & kids' & sg & t' & pool & ss & Hrun & _). exists q, s'. split; [exact Hrun|by vm_compute].
Defined.

(** A state with a segment that was started. *)
Lemma sample_started :
  exists (s : sample_sdk_t) kids p sg seg t l, sdk_ok 100 s kids /\ sd_segments s !! p = Some sg
    /\ fields_ok (sg_type sg) /\ sg_transaction sg = Some 1%positive
    /\ sd_txns s !! 1%positive = Some sample_handle /\ w_segments (sd_world s) !! sg_segment sg = Some seg /\ s_type seg = NR_SEGMENT_CUSTOM
    /\ w_txns (sd_world s) !! 1%positive = Some t /\ current_stack t (l ++ [sg_segment sg]).
Proof.
  destruct sample_txn_lookup as (Hx & Ht & Hrec & Hmem).
  destruct (start_segment_run sample_realloc sample_clock sample_realloc_roomy 100 sample_open no_kids_map 1 sample_handle sample_txn None None)
    as (l & p & q & s' & kids' & sg & t' & idx & pool & ss & Hrun & Hok' & (_ & Et & _) & _ & _ & _ & _ & Es & Hsg & _ & Hty & _ & _ & Ht' & Hl' & _);
    [apply sample_room; lia|lia|exact Hx|exact Ht|exact Hrec|exact Hmem|by vm_compute|].
  exists s', kids', q, (mk_sdk_segment p (Some 1%positive) (Some (TxnLock 1)) NoFields), sg, t', l.
  split; [exact Hok'|]. split; [rewrite Es; apply lookup_insert_eq|]. split; [exact no_fields_ok|]. split; [done|]. split; [by rewrite Et|]. by split_and!.
Qed.

Lemma newrelic_end_segment_outcomes_witness :
  exists (s : sample_sdk_t) kids p s', sdk_ok 100 s kids
    /\ newrelic_end_segment sample_realloc sample_clock (Some 1%positive) (Some (Some p)) s = Some ((true, Some None), s').
Proof.
  destruct sample_started as (s & kids & p & sg & seg & t & l & Hok & Hp & Hfields & Htp & Hx & _).
  destruct (newrelic_end_segment_outcomes sample_realloc sample_clock 0 s kids p sg (Some 1%positive)) as (_ & _ & ok & s' & kids' & Hrun & _ & _ & _ & Hiff).
  - exact sample_realloc_roomy.
  - apply (sdk_ok_le 100); [lia|exact Hok].
  - lia.
  - exact Hp.
  - exact Hfields.
  - intros y [= <-]. by exists sample_handle.
  - assert (Htrue : ok = true) by (apply Hiff; by exists 1%positive, sample_handle). subst ok. by exists s, kids, p, s'.
Defined.


Definition sample_datastore_params : newrelic_datastore_segment_params_t :=
  mk_datastore_params (Some (str "MySQL")) (Some (str "users")) None None None (Some (str "db")) (Some (str "select 1")).


(** The sample state after some calls. *)
Definition sample_after (calls : list sample_call) : sample_sdk_t :=
  match session_run sample_realloc sample_clock false calls sample_open with Some (_, s) => s | None => sample_open end.

Lemma sample_after_ok calls k :
  session_validb sample_realloc sample_clock false calls sample_open = true -> 0 <= k ->
  k + 16 * Z.of_nat (length calls) <= 1000000 -> exists kids, sdk_ok k (sample_after calls) kids.
Proof.
  intros Hv%session_validb_ok Hk Hle. unfold sample_after.
  destruct (session_run_ok sample_realloc sample_clock sample_realloc_roomy false calls k sample_open no_kids_map)
    as (s' & kids' & -> & Hok & _); [by apply sample_room|done|exact sample_fields|done|]. by exists kids'.
Qed.

(** Two segments, the second in the first. *)
Definition sample_nested : sample_sdk_t := sample_after [StartSegment 1 None None; StartSegment 1 None None].

Definition sample_wrapper (p : sdk_seg_ptr) : newrelic_segment_t :=
  default (mk_sdk_segment 0 None None NoFields) (sd_segments sample_nested !! p).

Definition sample_segment (p : sdk_seg_ptr) : nr_segment_t :=
  default zeroed_segment (w_segments (sd_world sample_nested) !! sg_segment (sample_wrapper p)).

Lemma newrelic_set_segment_parent_outcomes_witness :
  exists s', newrelic_set_segment_parent sample_realloc (Some 2%positive) (Some 1%positive) sample_nested = Some (true, s').
Proof.
  destruct (sample_after_ok [StartSegment 1 None None; StartSegment 1 None None] 2) as [kids Hok]; [by vm_compute|lia|by vm_compute|].
  destruct (newrelic_set_segment_parent_outcomes sample_realloc 0 sample_nested kids 2 1 (sample_wrapper 2) (sample_wrapper 1)
    (sample_segment 2) (sample_segment 1)) as (_ & _ & _ & Hset).
  - exact sample_realloc_roomy.
  - exact Hok.
  - lia.
  - by vm_compute.
  - by vm_compute.
  - by vm_compute.
  - by vm_compute.
  - destruct (Hset ltac:(discriminate)) as (ok & s' & kids' & above & Hrun & _ & _ & _ & _ & _ & _ & Eok & _).
    assert (Htrue : ok = true) by (rewrite Eok; unfold may_hang; by vm_compute). subst ok. by exists s'.
Defined.
