(* ===== verification/SegmentTypes.v ===== *)
(** * The types of segments

    The wrapper of a segment has a union whose member in use the type of axiom's segment names.  The
    handles of a state with the types of their segments are a typing environment; what every call of
    the API does to it. *)

From S2P Require Import Prelude Vector Strings Time StringPool Metrics.
From S2P Require Import HashMap SegmentChildren Slab Datastore Slowsqls Txn Config Segment SegmentEnd Sdk SdkSample.
From S2P Require Import SdkGlobal SdkTransaction SdkSegment Session SessionEnds Frames Calls SessionSample Behaviour.

Section Types.
Context {S P M A O : Type} `{NamePool P} `{ObjectAllocator S M} `{AxiomLib S P M A O}.
Context (realloc_ok : Z -> bool) (clock : nat -> Z * Z) (HAVE_BACKTRACE : bool).

Abbreviation sdk := (sdk S P M A O).
Abbreviation api_call := (api_call (O := O)).

Implicit Types (s : sdk) (kids : seg_ptr -> list seg_ptr) (k : Z).

(** The type of the segments a member of the union is for. *)
Definition member_type (f : type_fields_t) : nr_segment_type_t :=
  match f with
  | NoFields => NR_SEGMENT_CUSTOM
  | DatastoreFields _ => NR_SEGMENT_DATASTORE
  | ExternalFields _ => NR_SEGMENT_EXTERNAL
  end.

Lemma fits_member ty f : fits ty f = true -> ty = member_type f.
Proof. by destruct ty, f. Qed.

(** The handles with the types of their segments in axiom. *)
Definition handle_types s : gmap sdk_seg_ptr nr_segment_type_t :=
  omap (fun sg => s_type <$> w_segments (sd_world s) !! sg_segment sg) (sd_segments s).

(** Every handle is of a segment that is there, and holds the member for its type. *)
Definition union_matches s : Prop :=
  forall p sg, sd_segments s !! p = Some sg ->
    exists seg, w_segments (sd_world s) !! sg_segment sg = Some seg /\ fits (s_type seg) (sg_type sg) = true.

Lemma sdk_ok_matches k s kids : sdk_ok k s kids -> union_matches s.
Proof.
  intros Hok p sg Hp. destruct (so_segments _ _ _ Hok p sg Hp) as (tp & _ & (seg & Hseg & _) & _ & Hfit).
  exists seg. split; [done|by apply Hfit].
Qed.

(** The types can be read off the wrappers. *)
Lemma handle_types_members k s kids : sdk_ok k s kids -> handle_types s = (fun sg => member_type (sg_type sg)) <$> sd_segments s.
Proof.
  intros Hok. apply map_eq. intros p. unfold handle_types. rewrite lookup_omap, lookup_fmap.
  destruct (sd_segments s !! p) as [sg|] eqn:Hp; [|done]. cbn [mbind option_bind fmap option_fmap option_map].
  destruct (sdk_ok_matches k s kids Hok p sg Hp) as (seg & -> & Hfit). cbn. f_equal. by apply fits_member.
Qed.

(** The types after a call that is valid, [q] being a new handle. *)
Definition types_after (c : api_call) s (q : sdk_seg_ptr) : gmap sdk_seg_ptr nr_segment_type_t :=
  let types := handle_types s in
  match c with
  | StartSegment _ _ _ => <[q := NR_SEGMENT_CUSTOM]> types
  | StartDatastoreSegment x params =>
      if datastore_params_valid params && recordsb s x then <[q := NR_SEGMENT_DATASTORE]> types else types
  | StartExternalSegment x params =>
      if external_params_valid params && recordsb s x then <[q := NR_SEGMENT_EXTERNAL]> types else types
  | EndSegment _ p => delete p types
  | _ => types
  end.

Context (Hroomy : roomy realloc_ok).

Lemma recordsb_false s x tx t :
  sd_txns s !! x = Some tx -> w_txns (sd_world s) !! tx_txn tx = Some t -> recordsb s x = negb (recording (t_status t) =? 0).
Proof. intros Hx Ht. unfold recordsb, txn_at. rewrite Hx. cbn [mbind option_bind]. by rewrite Ht. Qed.

(** The wrappers after the start of a segment of a type. *)
Lemma typed_wrappers k s kids x ty fill (fields : A -> type_fields_t) :
  sdk_ok (k + 2) s kids -> 0 <= k -> is_Some (sd_txns s !! x) -> segment_memory s x ->
  (forall s q sg, sd_segments s !! q = Some sg ->
     fill q s = Some (tt, set_sdk_segments (<[q := with_type (fields (sd_axiom s)) sg]> (sd_segments s)) s)) ->
  (forall a, fits ty (fields a) = true) ->
  exists r q s' kids', locked_typed_segment realloc_ok clock x ty fill s = Some (r, s') /\ sdk_ok k s' kids'
    /\ sd_segments s !! q = None
    /\ handle_types s' = if recordsb s x then <[q := ty]> (handle_types s) else handle_types s.
Proof.
  intros Hok Hk [tx Hx] Hmem Hfill Hfits. destruct (so_txns _ _ _ Hok x tx Hx) as [[t Ht] _].
  rewrite (recordsb_false s x tx t Hx Ht), (handle_types_members _ s _ Hok). destruct (Z.eqb_spec (recording (t_status t)) 0) as [Hrec|Hrec].
  - destruct (locked_typed_ignored realloc_ok clock k s kids x tx t ty fill Hok Hk Hx Ht Hrec) as (s' & kids' & Hrun & Hok' & Es).
    exists None, (fresh (dom (sd_segments s))), s', kids'. split; [done|]. split; [done|].
    split; [apply not_elem_of_dom, is_fresh|]. by rewrite (handle_types_members _ s' _ Hok'), Es.
  - destruct (locked_typed_run realloc_ok clock Hroomy k s kids x tx t ty fill fields Hok Hk Hx Ht Hrec (Hmem tx t Hx Ht) Hfill Hfits)
      as (p & q & s' & kids' & sg & Hrun & Hok' & Hq & _ & _ & Es & _).
    exists (Some q), q, s', kids'. split; [done|]. split; [done|]. split; [done|].
    rewrite (handle_types_members _ s' _ Hok'), Es, fmap_insert. cbn [sg_type negb]. by rewrite <- (fits_member ty (fields (sd_axiom s))).
Qed.

(** A call that leaves the wrappers alone. *)
Lemma same_wrappers_types k k' s s' kids kids' :
  sdk_ok k s kids -> sdk_ok k' s' kids' -> sd_segments s' = sd_segments s -> handle_types s' = handle_types s.
Proof. intros Hok Hok' Es. by rewrite (handle_types_members _ s' _ Hok'), Es, (handle_types_members _ s _ Hok). Qed.

(** Whether a call starts or ends a segment. *)
Definition moves_wrappers (c : api_call) : bool :=
  match c with
  | StartSegment _ _ _ | StartDatastoreSegment _ _ | StartExternalSegment _ _ | EndSegment _ _ => true
  | _ => false
  end.

Lemma api_run_wrappers k s kids c s' :
  sdk_ok k s kids -> moves_wrappers c = false -> api_run realloc_ok clock HAVE_BACKTRACE c s = Some (tt, s') ->
  sd_segments s' = sd_segments s.
Proof.
  intros Hok Hc E. pose proof (fun p => wrapper_txn_locked k s kids p Hok) as Hlocked.
  enough (touches false true s s' \/ sd_segments s' = sd_segments s) as [(_ & _ & Hsame & _)|?]; [by apply Hsame|done|].
  unfold api_run in E. destruct c; try done; apply bind_inv in E as (r & s1 & E & E1); apply ret_inv in E1 as ->; revert E.
  - left. revert E. eapply set_segment_parent_frame; [apply _|apply Hlocked].
  - left. revert E. eapply set_segment_parent_root_frame; [apply _|apply Hlocked].
  - left. revert E. eapply set_segment_timing_frame; [apply _|apply Hlocked].
  - left. revert E. eapply set_transaction_timing_frame; apply _.
  - left. revert E. eapply set_transaction_name_frame; apply _.
  - intros [->|(tp & t & t' & e & _ & ->)]%ignore_transaction_inv; by right.
  - left. revert E. eapply record_custom_metric_frame; apply _.
  - left. revert E. eapply notice_error_frame; apply _.
  - left. revert E. eapply add_attribute_frame; apply _.
  - left. revert E. eapply create_custom_event_frame; apply _.
  - left. revert E. eapply set_attribute_frame; apply _.
  - left. revert E. eapply discard_custom_event_frame; apply _.
  - left. revert E. eapply record_custom_event_frame; apply _.
Qed.

(** The start of a segment that parameters may be refused for. *)
Lemma refused_or_typed k s kids x ty fill (fields : A -> type_fields_t) (valid : bool) (m : prog S P M A O (option sdk_seg_ptr)) :
  sdk_ok (k + 2) s kids -> 0 <= k -> is_Some (sd_txns s !! x) -> segment_memory s x ->
  (forall s q sg, sd_segments s !! q = Some sg ->
     fill q s = Some (tt, set_sdk_segments (<[q := with_type (fields (sd_axiom s)) sg]> (sd_segments s)) s)) ->
  (forall a, fits ty (fields a) = true) ->
  m s = (if valid then locked_typed_segment realloc_ok clock x ty fill else mret None) s ->
  exists q s' kids', (_ ← m; mret tt) s = Some (tt, s') /\ sdk_ok k s' kids' /\ sd_segments s !! q = None
    /\ handle_types s' = if valid && recordsb s x then <[q := ty]> (handle_types s) else handle_types s.
Proof.
  intros Hok Hk Hx Hmem Hfill Hfits Em. destruct valid.
  - destruct (typed_wrappers k s kids x ty fill fields Hok Hk Hx Hmem Hfill Hfits) as (r & q & s' & kids' & Hrun & Hok' & Hq & Ety).
    exists q, s', kids'. split; [by erewrite bind_run by (rewrite Em; exact Hrun)|done].
  - exists (fresh (dom (sd_segments s))), s, kids. split; [by erewrite bind_run by exact Em|].
    split; [eapply sdk_ok_le; [|exact Hok]; lia|]. split; [apply not_elem_of_dom, is_fresh|done].
Qed.

(** Every valid call has the effect on the types that its name says. *)
Lemma api_run_types k s kids c :
  sdk_ok (k + 16) s kids -> 0 <= k -> all_fields s -> api_valid c s ->
  exists q s' kids', api_run realloc_ok clock HAVE_BACKTRACE c s = Some (tt, s') /\ sdk_ok k s' kids'
    /\ sd_segments s !! q = None /\ handle_types s' = types_after c s q.
Proof.
  intros Hok Hk Hall Hv. assert (Hok2 : sdk_ok (k + 2) s kids) by (eapply sdk_ok_le; [|exact Hok]; lia).
  destruct (moves_wrappers c) eqn:Hc; cycle 1.
  { destruct (api_run_ok realloc_ok clock Hroomy HAVE_BACKTRACE k s kids c Hok Hk Hall Hv) as (s' & kids' & Hrun & Hok' & _).
    exists (fresh (dom (sd_segments s))), s', kids'. split; [done|]. split; [done|]. split; [apply not_elem_of_dom, is_fresh|].
    pose proof (api_run_wrappers _ s kids c s' Hok Hc Hrun) as Es.
    rewrite (same_wrappers_types _ _ s s' kids kids' Hok Hok' Es). by destruct c. }
  destruct c as [x name category|x params|x params|x p| | | | | | | | | | | | |]; try done; cbn [api_valid] in Hv; unfold api_run.
  - destruct Hv as ([tx Hx] & Hrec & Hmem & Hlen). destruct (so_txns _ _ _ Hok x tx Hx) as [[t Ht] _].
    destruct (start_segment_run realloc_ok clock Hroomy k s kids x tx t name category Hok2 Hk Hx Ht (Hrec tx t Hx Ht) (Hmem tx t Hx Ht) Hlen)
      as (l & p & q & s' & kids' & sg & t' & idx & pool & ss & Hrun & Hok' & _ & _ & _ & _ & Hq & Es & _).
    exists q, s', kids'. split; [by erewrite bind_run by exact Hrun|]. split; [done|]. split; [done|].
    rewrite (handle_types_members _ s' _ Hok'), Es, fmap_insert. cbn [types_after sg_type member_type].
    by rewrite (handle_types_members _ s _ Hok).
  - destruct Hv as (Hx & Hmem & _). 
    apply (refused_or_typed k s kids x _ (fill_datastore params)
      (fun a => DatastoreFields (stored_datastore params (nr_system_get_hostname a))));
      [done..|intros s0 q sg; apply fill_datastore_run|done|apply start_datastore_eq].
  - destruct Hv as (Hx & Hmem & _). 
    apply (refused_or_typed k s kids x _ (fill_external params) (fun _ => ExternalFields (stored_external params)));
      [done..|intros s0 q sg Hq; by apply update_segment_run|done|apply start_external_eq].
  - destruct Hv as [[sg Hp] Hy].
    destruct (end_segment_ok realloc_ok clock Hroomy k s kids p sg x Hok Hk Hp (Hall p sg Hp) Hy) as (s' & kids' & Hrun & Hok' & Es).
    exists (fresh (dom (sd_segments s))), s', kids'. split; [by erewrite bind_run by exact Hrun|]. split; [done|].
    split; [apply not_elem_of_dom, is_fresh|]. rewrite (handle_types_members _ s' _ Hok'), Es, fmap_delete. cbn [types_after].
    by rewrite (handle_types_members _ s _ Hok).
Qed.

(** The last call of a session. *)
Lemma session_valid_last calls c s :
  session_valid realloc_ok clock HAVE_BACKTRACE (calls ++ [c]) s ->
  session_valid realloc_ok clock HAVE_BACKTRACE calls s
  /\ forall s1, session_run realloc_ok clock HAVE_BACKTRACE calls s = Some (tt, s1) -> api_valid c s1.
Proof.
  revert s. induction calls as [|d calls IH]; intros s; cbn [session_valid session_run app].
  - intros [Hc _]. split; [done|]. by intros s1 [= <-].
  - intros [Hd Hv]. split; [split; [done|]; intros s' E; by apply IH, Hv|].
    intros s1 ([] & s' & E & E1)%bind_inv. by apply (IH s'); [apply Hv|].
Qed.

End Types.

(** ** Types are sound *)

(* @about newrelic_start_segment newrelic_start_datastore_segment newrelic_start_external_segment newrelic_end_segment newrelic_segment_t newrelic_segment_destroy newrelic_set_segment_parent newrelic_set_segment_timing *)
(** C6 (type): the tagged union of a segment is used as its tag says.  At any point of a session of
    valid calls, every handle is of a live segment of axiom whose type, custom, datastore or external,
    is the one the member of the union it holds is for, so that ending a segment reads and frees the
    fields that were stored for it.  What one more valid call does to the types of the handles is
    what its name says: a start of a custom segment adds one new handle, of a custom segment; a start
    of a datastore or external segment adds one of that type, unless the parameters are refused or
    the transaction does not record; the end of a segment removes its handle; every other call leaves
    all of them as they are, and no call changes the type of a handle. *)
Theorem newrelic_segments_typed {S P M A O : Type} `{NamePool P} `{ObjectAllocator S M} `{AxiomLib S P M A O}
  (realloc_ok : Z -> bool) (clock : nat -> Z * Z) (HAVE_BACKTRACE : bool)
  (calls : list (api_call (O := O))) c k (s : sdk S P M A O) kids :
  roomy realloc_ok -> 0 <= k -> sdk_ok (k + 16 + 16 * Z.of_nat (length calls)) s kids -> all_fields s ->
  session_valid realloc_ok clock HAVE_BACKTRACE (calls ++ [c]) s ->
  exists s1 s2 q, session_run realloc_ok clock HAVE_BACKTRACE calls s = Some (tt, s1)
    /\ api_run realloc_ok clock HAVE_BACKTRACE c s1 = Some (tt, s2)
    /\ union_matches s1 /\ union_matches s2
    /\ sd_segments s1 !! q = None /\ handle_types s2 = types_after c s1 q.
Proof.
  intros Hroomy Hk Hok Hall [Hv Hc]%session_valid_last.
  destruct (session_run_ok realloc_ok clock Hroomy HAVE_BACKTRACE calls (k + 16) s kids) as (s1 & kids1 & Hrun & Hok1 & Hall1);
    [done|lia|done|done|].
  destruct (api_run_types realloc_ok clock HAVE_BACKTRACE Hroomy k s1 kids1 c Hok1 Hk Hall1 (Hc s1 Hrun))
    as (q & s2 & kids2 & Hrun2 & Hok2 & Hq & Htypes).
  exists s1, s2, q. split; [done|]. split; [done|]. split; [by eapply sdk_ok_matches|]. split; [by eapply sdk_ok_matches|done].
Qed.

(** A custom segment, then a segment of a datastore. *)
Lemma newrelic_segments_typed_witness :
  exists s1 s2 q, session_run sample_realloc sample_clock false [StartSegment 1 (Some (str "a")) None] sample_open = Some (tt, s1)
    /\ api_run sample_realloc sample_clock false (StartDatastoreSegment 1 sample_datastore_params) s1 = Some (tt, s2)
    /\ union_matches s2 /\ handle_types s2 = <[q := NR_SEGMENT_DATASTORE]> (handle_types s1).
Proof.
  destruct (newrelic_segments_typed sample_realloc sample_clock false [StartSegment 1 (Some (str "a")) None]
    (StartDatastoreSegment 1 sample_datastore_params) 0 sample_open no_kids_map)
    as (s1 & s2 & q & Hrun & Hrun2 & _ & Hmatch & _ & Htypes).
  - exact sample_realloc_roomy.
  - lia.
  - apply sample_room. by vm_compute.
  - exact sample_fields.
  - apply session_validb_ok. by vm_compute.
  - exists s1, s2, q. split; [exact Hrun|]. split; [exact Hrun2|]. split; [exact Hmatch|]. rewrite Htypes.
    assert (Hrec : (fun r => recordsb r.2 1) <$> session_run sample_realloc sample_clock false [StartSegment 1 (Some (str "a")) None] sample_open
      = Some true) by by vm_compute.
    rewrite Hrun in Hrec. injection Hrec as Hrec. cbn in Hrec. unfold types_after. by rewrite Hrec.
Defined.
