(* ===== verification/TxnBehaviour.v ===== *)
(** * What starting and ending a transaction does

    The theorems about [newrelic_start_transaction], [newrelic_end_transaction] and the recording
    of custom events. *)

From S2P Require Import Prelude Vector Strings Time StringPool Metrics.
From S2P Require Import HashMap SegmentChildren Slab Datastore Slowsqls Txn Config Segment SegmentEnd Sdk SdkSample.
From S2P Require Import SdkGlobal SdkTransaction SdkSegment Session Transactions Calls SessionSample.

Section Transactions.
Context {S P M A O : Type} `{NamePool P} `{ObjectAllocator S M} `{AxiomLib S P M A O}.
Context (realloc_ok : Z -> bool) (clock : nat -> Z * Z) (NEWRELIC_VERSION : cstr).

Implicit Types (s : sdk S P M A O).

(** ** Starting *)

(* @about newrelic_start_transaction newrelic_get_transaction_options nr_txn_set_path nr_txn_change_background_status *)
(** C10 (functional): what [newrelic_start_transaction] does.  Without an application it answers
    NULL.  On a live application with a free lock it asks axiom about the application and makes a
    lock; if that fails, or axiom does not begin a transaction, it answers NULL and no handle is
    made.  Otherwise axiom begins a transaction with the options the configuration of the
    application stands for, and the answer is a new handle to it with a free lock.  The transaction
    has the kind asked for and, unless the name is empty, the name given ("NULL" for NULL) as an
    action, which a later name set by the user overrides; nothing else of it and no other
    transaction changes.  In all cases the lock of the application is free again. *)
Theorem newrelic_start_transaction_outcomes s ap a name is_web_transaction status a2 txn w a3 :
  sd_apps s !! ap = Some a -> mu_locked (ap_lock a) = false ->
  pthread_mutex_init (nr_app_consider_appinfo (ap_app a) (sd_axiom s)) = (status, a2) ->
  nr_txn_begin (ap_app a) (newrelic_get_transaction_options (ap_config a)) (sd_world s) a2 = (txn, w, a3) ->
  newrelic_start_transaction None name is_web_transaction s = Some (None, s)
  /\ match status, txn with
     | NR_FAILURE, _ => newrelic_start_transaction (Some ap) name is_web_transaction s = Some (None, set_axiom a2 s)
     | NR_SUCCESS, None => exists s', newrelic_start_transaction (Some ap) name is_web_transaction s = Some (None, s')
         /\ sd_world s' = w /\ sd_axiom s' = a3 /\ sd_txns s' = sd_txns s /\ sd_apps s' = sd_apps s
     | NR_SUCCESS, Some tp => forall t, w_txns w !! tp = Some t -> path_is_frozen (t_status t) = 0 ->
         path_type_int (path_type (t_status t)) <= path_type_int NR_PATH_TYPE_ACTION ->
         exists x s', newrelic_start_transaction (Some ap) name is_web_transaction s = Some (Some x, s')
         /\ sd_txns s !! x = None /\ sd_txns s' = <[x := mk_sdk_txn tp free_lock]> (sd_txns s)
         /\ w_txns (sd_world s') = <[tp := named_transaction name is_web_transaction t]> (w_txns w)
         /\ w_segments (sd_world s') = w_segments w /\ sd_axiom s' = a3 /\ sd_apps s' = sd_apps s
     end.
Proof.
  intros Ha Hfree Hinit Hbegin.
  pose proof (start_transaction_run s ap a name is_web_transaction status a2 txn w a3 Ha Hfree Hinit Hbegin) as [Hnull Hrun].
  split; [exact Hnull|]. destruct status, txn as [tp|]; try exact Hrun.
  - intros t Ht Hfrozen Htype. destruct (Hrun t Ht Hfrozen Htype) as (x & s' & E & Hx & Et & Ew & Ea & Eapps & _).
    exists x, s'. by rewrite Ew.
  - destruct Hrun as (s' & E & Ew & Ea & Et & Eapps & _). by exists s'.
Qed.

(** ** Ending *)

(* @about newrelic_end_transaction nr_txn_force_single_count newrelic_version *)
(** C11 (functional): what [newrelic_end_transaction] does.  NULL, or a pointer to NULL, gives
    false and changes nothing.  A live transaction with a free lock gets the metric of the version;
    axiom ends it with that metric; if it is not ignored then, it is sent to the daemon, once, as
    axiom left it, and the answer is whether that succeeded; if it is ignored nothing is sent and
    the answer is true.  Then axiom destroys it.  In all cases, also when sending fails, the handle
    is gone and the pointer to it is NULL. *)
Theorem newrelic_end_transaction_outcomes s x tx t table w a w1 a1 t1 w2 a2 :
  sd_txns s !! x = Some tx -> tx_lock tx = free_lock -> w_txns (sd_world s) !! tx_txn tx = Some t ->
  add_unscoped (fun tb => nrm_force_add tb (Some (version_metric NEWRELIC_VERSION)) 0) t = Some (with_unscoped_metrics table t) ->
  w = put_txn (tx_txn tx) (with_unscoped_metrics table t) (sd_world s) -> a = sd_axiom s ->
  nr_txn_end (tx_txn tx) w a = Some (w1, a1) -> w_txns w1 !! tx_txn tx = Some t1 ->
  let sent := ignore (t_status t1) =? 0 in
  let '(status, a1') := if sent then nr_cmd_txndata_tx (tx_txn tx) w1 a1 else (NR_SUCCESS, a1) in
  nr_txn_destroy (tx_txn tx) w1 a1' = Some (w2, a2) ->
  newrelic_end_transaction NEWRELIC_VERSION None s = Some ((false, None), s)
  /\ newrelic_end_transaction NEWRELIC_VERSION (Some None) s = Some ((false, Some None), s)
  /\ exists s', newrelic_end_transaction NEWRELIC_VERSION (Some (Some x)) s = Some ((bool_decide (status = NR_SUCCESS), Some None), s')
     /\ sd_world s' = w2 /\ sd_axiom s' = a2 /\ sd_txns s' = delete x (sd_txns s)
     /\ sd_apps s' = sd_apps s /\ sd_segments s' = sd_segments s /\ sd_events s' = sd_events s.
Proof.
  intros Hx Hfree Ht Hmetric -> -> Hend Ht1.
  pose proof (end_transaction_run NEWRELIC_VERSION s x tx t table (put_txn (tx_txn tx) (with_unscoped_metrics table t) (sd_world s))
    (sd_axiom s) w1 a1 t1 w2 a2 Hx Hfree Ht Hmetric eq_refl eq_refl Hend Ht1) as Hrun.
  cbv zeta in *. destruct (if ignore (t_status t1) =? 0 then nr_cmd_txndata_tx (tx_txn tx) w1 a1 else (NR_SUCCESS, a1)) as [status a1']. intros Hdestroy.
  destruct (Hrun Hdestroy) as (H1' & H2' & s' & E & Ew & Ea & Et & Eapps & Es & Ee & _). split; [exact H1'|]. split; [exact H2'|].
  by exists s'.
Qed.

(** ** Custom events *)

(* @about newrelic_record_custom_event nr_txn_record_custom_event newrelic_discard_custom_event newrelic_create_custom_event *)
(** C21 (functional): what [newrelic_record_custom_event] does.  On a live transaction with a free
    lock and a live event, the type and the attributes of the event are handed to axiom, with the
    time, exactly when the transaction records, is not under high security and has custom events
    enabled; the event is freed and the pointer to it is NULL whether they were or not, and nothing
    but the clock and the events changes.  Without a transaction the call does nothing, and the
    event is not freed. *)
Theorem newrelic_record_custom_event_outcomes s x tx t e ev :
  sd_txns s !! x = Some tx -> tx_lock tx = free_lock -> w_txns (sd_world s) !! tx_txn tx = Some t ->
  sd_events s !! e = Some ev ->
  newrelic_record_custom_event clock None (Some (Some e)) s = Some (Some (Some e), s)
  /\ exists s', newrelic_record_custom_event clock (Some x) (Some (Some e)) s = Some (Some None, s')
     /\ sd_events s' = delete e (sd_events s) /\ sd_txns s' = sd_txns s /\ sd_segments s' = sd_segments s
     /\ sd_world s' = snd (read_clock clock (sd_world s))
     /\ sd_axiom s' = (if takes_events t
                       then nr_custom_events_add_event (tx_txn tx) (ev_type ev) (ev_attributes ev)
                              (fst (read_clock clock (sd_world s))) (sd_axiom s)
                       else sd_axiom s).
Proof. apply record_custom_event_run. Qed.

End Transactions.

(** ** Witnesses *)

(** The sample state with an application. *)
Definition sample_with_app : sample_sdk_t :=
  set_apps {[1%positive := mk_app (Some 1%positive) None None free_lock]} sample_open.

(** What the sample axiom begins, and the transaction in it. *)
Definition sample_begun : option txn_ptr * sample_world * sample_state :=
  sample_begin (fun mem => nr_slab_create bump_calloc 4096 mem 168 0) (Some 1%positive) (newrelic_get_transaction_options None) sample_open_world [].

Definition sample_begun_txn : nrtxn_t nr_slab_t nrstrpool_t :=
  default sample_txn (w_txns (snd (fst sample_begun)) !! 2%positive).

Lemma newrelic_start_transaction_outcomes_witness :
  exists x s', newrelic_start_transaction (Some 1%positive) (Some (str "checkout")) true sample_with_app = Some (Some x, s')
    /\ t_path (named_transaction (Some (str "checkout")) true sample_begun_txn) = Some (str "checkout").
Proof.
  destruct (newrelic_start_transaction_outcomes sample_with_app 1 (mk_app (Some 1%positive) None None free_lock)
    (Some (str "checkout")) true NR_SUCCESS [] (Some 2%positive) (snd (fst sample_begun)) []) as [_ Hstart].
  - reflexivity.
  - reflexivity.
  - reflexivity.
  - by vm_compute.
  - destruct (Hstart sample_begun_txn) as (x & s' & Hrun & _); [by vm_compute..|]. exists x, s'. split; [exact Hrun|by vm_compute].
Defined.

Lemma newrelic_end_transaction_outcomes_witness :
  exists s', newrelic_end_transaction (str "1.0") (Some (Some 1%positive)) sample_open = Some ((true, Some None), s')
    /\ sd_axiom s' = [1%positive] /\ sd_txns s' !! 1%positive = None.
Proof.
  destruct (add_unscoped_spec 0 sample_txn (version_metric (str "1.0")) 0) as (table & Hmetric & _).
  - destruct (mo_txns _ _ _ (so_memory _ _ _ sample_open_ok) 1%positive sample_txn eq_refl) as [_ _ Hm _].
    eapply metrics_left_le; [|exact Hm]. lia.
  - lia.
  - by vm_compute.
  - set (t1 := with_unscoped_metrics (Some table) sample_txn) in *.
    set (w := put_txn 1%positive t1 sample_open_world).
    destruct (newrelic_end_transaction_outcomes (str "1.0") sample_open 1 (mk_sdk_txn 1%positive free_lock) sample_txn (Some table)
      w [] w [] t1 (forget_txn 1%positive w) [1%positive]) as (_ & _ & s' & Hrun & _ & Ea & Et & _); try reflexivity.
    + exact Hmetric.
    + exists s'. split; [exact Hrun|]. split; [exact Ea|]. by rewrite Et, lookup_delete_eq.
Defined.

Lemma newrelic_record_custom_event_outcomes_witness :
  exists s', newrelic_record_custom_event sample_clock (Some 1%positive) (Some (Some 1%positive))
      (set_events {[1%positive := mk_custom_event (str "Sale") []]} sample_open) = Some (Some None, s')
    /\ sd_events s' = empty.
Proof.
  destruct (newrelic_record_custom_event_outcomes sample_clock (set_events {[1%positive := mk_custom_event (str "Sale") []]} sample_open)
    1 (mk_sdk_txn 1%positive free_lock) sample_txn 1 (mk_custom_event (str "Sale") [])) as (_ & s' & Hrun & Ee & _).
  - reflexivity.
  - reflexivity.
  - reflexivity.
  - reflexivity.
  - exists s'. split; [exact Hrun|]. rewrite Ee. reflexivity.
Defined.
