(* ===== verification/Threads.v ===== *)
(** * Locks and threads

    The order in which the calls of the API lock mutexes and use transactions: which calls use a
    transaction under its lock only, and what follows for threads that make such calls at once. *)

From Stdlib Require Import SpecFloat.
From S2P Require Import Prelude Vector Strings Time StringPool Metrics.
From S2P Require Import HashMap SegmentChildren Slab Datastore Slowsqls Txn Config Segment SegmentEnd Sdk SdkSample.
From S2P Require Import SdkGlobal SdkTransaction SdkSegment Session SessionEnds Frames Calls SessionSample.

(** ** Traces that keep to the locks *)

(** Mutexes are taken in this order: the lock of an application, of a transaction, the static one. *)
Definition mutex_rank (m : mutex_id) : Z :=
  match m with NrappLock _ => 0 | AppLock _ => 1 | TxnLock _ => 2 | SegmentMutex => 3 end.

Section Traces.
(** The transaction a mutex protects. *)
Context (guard : mutex_id -> option txn_ptr).

(** One event of a thread that holds the mutexes [held], the last one first: [None] when the thread
    takes a mutex out of order, gives back another one than the last, or uses a transaction without
    the mutex that protects it. *)
Definition lock_step (held : list mutex_id) (e : trace_event) : option (list mutex_id) :=
  match e with
  | Lock m => if forallb (fun m' => mutex_rank m' <? mutex_rank m) held then Some (m :: held) else None
  | Unlock m => match held with
                | m' :: held => if bool_decide (m = m') then Some held else None
                | [] => None
                end
  | Uses t => if existsb (fun m => bool_decide (guard m = Some t)) held then Some held else None
  end.

Fixpoint lock_steps (held : list mutex_id) (es : list trace_event) : option (list mutex_id) :=
  match es with
  | [] => Some held
  | e :: es => held ← lock_step held e; lock_steps held es
  end.

Definition well_locked (es : list trace_event) : Prop := lock_steps [] es = Some [].

Lemma lock_steps_app held es1 es2 :
  lock_steps held (es1 ++ es2) = held' ← lock_steps held es1; lock_steps held' es2.
Proof.
  revert held. induction es1 as [|e es1 IH]; intros held; [done|]. cbn [app lock_steps].
  destruct (lock_step held e); cbn [mbind option_bind]; [apply IH|done].
Qed.

End Traces.

(** ** Threads

    A thread is what is left of its trace; the mutexes have an owner. *)

Record threads_state : Type := mk_threads {
  th_left : list (list trace_event);
  th_owner : mutex_id -> option nat;
}.

Definition set_owner (m : mutex_id) (v : option nat) (owner : mutex_id -> option nat) : mutex_id -> option nat :=
  fun m' => if decide (m' = m) then v else owner m'.

Inductive thread_step : threads_state -> threads_state -> Prop :=
  | step_lock left owner i m es :
      left !! i = Some (Lock m :: es) -> owner m = None ->
      thread_step (mk_threads left owner) (mk_threads (<[i := es]> left) (set_owner m (Some i) owner))
  | step_unlock left owner i m es :
      left !! i = Some (Unlock m :: es) -> owner m = Some i ->
      thread_step (mk_threads left owner) (mk_threads (<[i := es]> left) (set_owner m None owner))
  | step_use left owner i t es :
      left !! i = Some (Uses t :: es) ->
      thread_step (mk_threads left owner) (mk_threads (<[i := es]> left) owner).

Definition threads_start (traces : list (list trace_event)) : threads_state := mk_threads traces (fun _ => None).

(** Two threads are about to use the same transaction. *)
Definition race (st : threads_state) : Prop :=
  exists i j t es1 es2, i <> j /\ th_left st !! i = Some (Uses t :: es1) /\ th_left st !! j = Some (Uses t :: es2).

Definition finished (st : threads_state) : Prop := Forall (fun es => es = []) (th_left st).

Definition events_left (st : threads_state) : nat := sum_list_with length (th_left st).

Section Threads.
Context (guard : mutex_id -> option txn_ptr).
(** A transaction has one lock. *)
Context (Hguard : forall m m' t, guard m = Some t -> guard m' = Some t -> m = m').

Implicit Types (st : threads_state).

(** The mutexes each thread holds, in the order of their ranks, are the ones it owns. *)
Record held_by st (helds : list (list mutex_id)) : Prop := {
  hb_length : length helds = length (th_left st);
  hb_steps : forall i es, th_left st !! i = Some es -> exists held, helds !! i = Some held /\ lock_steps guard held es = Some [];
  hb_owner : forall i m, th_owner st m = Some i <-> exists held, helds !! i = Some held /\ m ∈ held;
  hb_sorted : forall i held, helds !! i = Some held -> StronglySorted (fun m m' => mutex_rank m' < mutex_rank m) held;
}.

Lemma lock_step_lock held m held' :
  lock_step guard held (Lock m) = Some held' -> held' = m :: held /\ Forall (fun m' => mutex_rank m' < mutex_rank m) held.
Proof.
  cbn [lock_step]. destruct (forallb _ held) eqn:E; [|done]. intros [= <-]. split; [done|].
  rewrite forallb_forall in E. apply Forall_forall. intros m' Hin. apply list_elem_of_In in Hin. by apply Z.ltb_lt, E.
Qed.

Lemma lock_step_unlock held m held' : lock_step guard held (Unlock m) = Some held' -> held = m :: held'.
Proof. cbn [lock_step]. destruct held as [|m' held]; [done|]. case_bool_decide; [|done]. by intros [= <-]; subst. Qed.

Lemma lock_step_use held t held' :
  lock_step guard held (Uses t) = Some held' -> held' = held /\ exists m, m ∈ held /\ guard m = Some t.
Proof.
  cbn [lock_step]. destruct (existsb _ held) eqn:E; [|done]. intros [= <-]. split; [done|].
  apply existsb_exists in E as (m & Hin & E). exists m. by rewrite list_elem_of_In, bool_decide_eq_true in *.
Qed.

(** What the next event of a thread does to the mutexes it holds. *)
Lemma next_event st helds i e es :
  held_by st helds -> th_left st !! i = Some (e :: es) ->
  exists held held', helds !! i = Some held /\ lock_step guard held e = Some held' /\ lock_steps guard held' es = Some [].
Proof.
  intros Hh Hi. destruct (hb_steps _ _ Hh i _ Hi) as (held & Hheld & Hsteps). cbn [lock_steps] in Hsteps.
  destruct (lock_step guard held e) as [held'|] eqn:E; [|done]. by exists held, held'.
Qed.

Lemma held_step st st' helds : held_by st helds -> thread_step st st' -> exists helds', held_by st' helds'.
Proof.
  intros Hh Hstep. destruct Hstep as [left owner i m es Hi Hfree|left owner i m es Hi Hown|left owner i t es Hi].
  - destruct (next_event _ _ _ _ _ Hh Hi) as (held & held' & Hheld & [-> Hlow]%lock_step_lock & Hsteps).
    exists (<[i := m :: held]> helds). constructor; cbn [th_left th_owner]; [by rewrite !length_insert, (hb_length _ _ Hh)|..].
    + intros j esj [(<- & <- & _)|[Hne Hj]]%list_lookup_insert_Some.
      * exists (m :: held). split; [|done]. by apply list_lookup_insert_eq, lookup_lt_Some with held.
      * destruct (hb_steps _ _ Hh j esj Hj) as (heldj & Hheldj & Hstepsj). exists heldj. by rewrite list_lookup_insert_ne.
    + intros j m'. unfold set_owner. pose proof (lookup_lt_Some _ _ _ Hheld) as Hlt. destruct (decide (m' = m)) as [->|Hm].
      * split; [intros [= <-]; exists (m :: held); split; [by apply list_lookup_insert_eq|left]|].
        intros (heldj & [(<- & _ & _)|[Hne Hj]]%list_lookup_insert_Some & Hin); [done|].
        exfalso. assert (Ho : owner m = Some j) by (apply (hb_owner _ _ Hh); by exists heldj). congruence.
      * pose proof (hb_owner _ _ Hh j m') as Ho. cbn [th_owner] in Ho. rewrite Ho. destruct (decide (i = j)) as [<-|Hne].
        -- rewrite list_lookup_insert_eq by done. split; intros (h & Hh' & Hin); [|].
           ++ exists (m :: held). split; [done|]. rewrite Hheld in Hh'. injection Hh' as <-. by right.
           ++ injection Hh' as <-. apply elem_of_cons in Hin as [?|Hin]; [done|]. by exists held.
        -- by rewrite list_lookup_insert_ne.
    + intros j h [(<- & <- & _)|[Hne Hj]]%list_lookup_insert_Some; [|by apply (hb_sorted _ _ Hh j)].
      constructor; [by apply (hb_sorted _ _ Hh i)|done].
  - destruct (next_event _ _ _ _ _ Hh Hi) as (held & held' & Hheld & ->%lock_step_unlock & Hsteps).
    pose proof (hb_sorted _ _ Hh i _ Hheld) as Hsort. inversion Hsort as [|? ? Hsort' Hall]; subst.
    exists (<[i := held']> helds). constructor; cbn [th_left th_owner]; [by rewrite !length_insert, (hb_length _ _ Hh)|..].
    + intros j esj [(<- & <- & _)|[Hne Hj]]%list_lookup_insert_Some.
      * exists held'. split; [|done]. by apply list_lookup_insert_eq, lookup_lt_Some with (m :: held').
      * destruct (hb_steps _ _ Hh j esj Hj) as (heldj & Hheldj & Hstepsj). exists heldj. by rewrite list_lookup_insert_ne.
    + intros j m'. unfold set_owner. pose proof (lookup_lt_Some _ _ _ Hheld) as Hlt. destruct (decide (m' = m)) as [->|Hm].
      * split; [done|]. intros (heldj & [(<- & <- & _)|[Hne Hj]]%list_lookup_insert_Some & Hin).
        -- exfalso. apply (Forall_forall _ _) with (x := m) in Hall; [lia|done].
        -- exfalso. assert (Ho : owner m = Some j) by (apply (hb_owner _ _ Hh); by exists heldj). congruence.
      * pose proof (hb_owner _ _ Hh j m') as Ho. cbn [th_owner] in Ho. rewrite Ho. destruct (decide (i = j)) as [<-|Hne].
        -- rewrite list_lookup_insert_eq by done. split; intros (h & Hh' & Hin).
           ++ exists held'. split; [done|]. rewrite Hheld in Hh'. injection Hh' as <-. by apply elem_of_cons in Hin as [?|].
           ++ injection Hh' as <-. exists (m :: held'). split; [done|]. by right.
        -- by rewrite list_lookup_insert_ne.
    + intros j h [(<- & <- & _)|[Hne Hj]]%list_lookup_insert_Some; [done|by apply (hb_sorted _ _ Hh j)].
  - destruct (next_event _ _ _ _ _ Hh Hi) as (held & held' & Hheld & [-> _]%lock_step_use & Hsteps).
    exists helds. constructor; cbn [th_left th_owner]; [by rewrite length_insert, (hb_length _ _ Hh)| |apply Hh|apply Hh].
    intros j esj [(<- & <- & _)|[Hne Hj]]%list_lookup_insert_Some; [by exists held|by apply (hb_steps _ _ Hh)].
Qed.

Lemma held_start traces :
  Forall (well_locked guard) traces -> held_by (threads_start traces) (replicate (length traces) []).
Proof.
  intros Hall. constructor; cbn [th_left th_owner threads_start]; [by rewrite length_replicate|..].
  - intros i es Hi. exists []. split; [|by apply (Forall_lookup_1 _ _ _ _ Hall Hi)].
    apply lookup_replicate_2. by eapply lookup_lt_Some.
  - intros i m. split; [done|]. intros (h & [-> _]%lookup_replicate & Hin). by apply elem_of_nil in Hin.
  - intros i h [-> _]%lookup_replicate. constructor.
Qed.

Lemma held_reachable traces st :
  Forall (well_locked guard) traces -> rtc thread_step (threads_start traces) st -> exists helds, held_by st helds.
Proof.
  intros Hall Hsteps. assert (Hstart := held_start traces Hall). revert Hstart. generalize (replicate (length traces) ([] : list mutex_id)).
  induction Hsteps as [st|st st1 st2 Hstep _ IH]; intros helds Hh; [by exists helds|].
  destruct (held_step _ _ _ Hh Hstep) as [helds1 Hh1]. by apply (IH helds1).
Qed.

Lemma held_no_race st helds : held_by st helds -> ~ race st.
Proof.
  intros Hh (i & j & t & es1 & es2 & Hne & Hi & Hj).
  destruct (next_event _ _ _ _ _ Hh Hi) as (hi & _ & Hhi & (_ & m & Hm & Hgm)%lock_step_use & _).
  destruct (next_event _ _ _ _ _ Hh Hj) as (hj & _ & Hhj & (_ & m' & Hm' & Hgm')%lock_step_use & _).
  assert (m' = m) as -> by by apply (Hguard m' m t).
  assert (E1 : th_owner st m = Some i) by (apply (hb_owner _ _ Hh); by exists hi).
  assert (E2 : th_owner st m = Some j) by (apply (hb_owner _ _ Hh); by exists hj). congruence.
Qed.

Lemma mutex_rank_bounds m : 0 <= mutex_rank m <= 3.
Proof. destruct m; cbn; lia. Qed.

(** Some thread can go on while one waits: whoever holds what it waits for waits for a higher one. *)
Lemma waiting_step n st helds i m es :
  held_by st helds -> 4 <= mutex_rank m + Z.of_nat n -> th_left st !! i = Some (Lock m :: es) -> exists st', thread_step st st'.
Proof.
  revert i m es. induction n as [|n IH]; intros i m es Hh Hn Hi; [pose proof (mutex_rank_bounds m); lia|].
  destruct st as [left owner]. cbn [th_left] in *. destruct (owner m) as [j|] eqn:Ho; [|by eexists; eapply step_lock].
  pose proof (proj1 (hb_owner _ _ Hh j m) Ho) as (hj & Hhj & Hin).
  destruct (left !! j) as [[|e esj]|] eqn:Hj.
  - destruct (hb_steps _ _ Hh j _ Hj) as (h & Eh & Hsteps). rewrite Hhj in Eh. injection Eh as <-.
    injection Hsteps as ->. by apply elem_of_nil in Hin.
  - destruct (next_event _ _ _ _ _ Hh Hj) as (h & h' & Eh & Hstep & _). rewrite Hhj in Eh. injection Eh as <-. destruct e as [m2|m2|t].
    + apply lock_step_lock in Hstep as [_ Hlow]. apply (IH j m2 esj); [done| |done].
      apply (Forall_forall _ _) with (x := m) in Hlow; [lia|done].
    + apply lock_step_unlock in Hstep as ->. eexists. eapply step_unlock; [done|]. apply (hb_owner _ _ Hh). exists (m2 :: h').
      split; [done|left].
    + eexists. by eapply step_use.
  - apply lookup_lt_Some in Hhj. apply lookup_ge_None in Hj. pose proof (hb_length _ _ Hh) as E. cbn [th_left] in E. lia.
Qed.

Lemma held_progress st helds : held_by st helds -> finished st \/ exists st', thread_step st st'.
Proof.
  intros Hh. destruct (decide (finished st)) as [|Hnot]; [by left|right].
  apply not_Forall_Exists in Hnot; [|apply _]. apply Exists_exists in Hnot as (es & (i & Hi)%list_elem_of_lookup & Hes).
  destruct es as [|e es]; [by destruct Hes|]. destruct (next_event _ _ _ _ _ Hh Hi) as (h & h' & Eh & Hstep & _).
  destruct e as [m|m|t].
  - apply (waiting_step 4 st helds i m es Hh); [pose proof (mutex_rank_bounds m); lia|done].
  - apply lock_step_unlock in Hstep as ->. destruct st as [left owner]. eexists. eapply step_unlock; [done|].
    apply (hb_owner _ _ Hh). exists (m :: h'). split; [done|left].
  - destruct st as [left owner]. eexists. by eapply step_use.
Qed.

Lemma held_finished st helds : held_by st helds -> finished st -> forall m, th_owner st m = None.
Proof.
  intros Hh Hfin m. destruct (th_owner st m) as [i|] eqn:Ho; [|done]. apply (hb_owner _ _ Hh) in Ho as (h & Hi & Hin).
  destruct (th_left st !! i) as [es|] eqn:Hes.
  - destruct (hb_steps _ _ Hh i es Hes) as (h' & Hi' & Hsteps). rewrite Hi in Hi'. injection Hi' as <-.
    assert (es = []) as -> by by apply (Forall_lookup_1 _ _ _ _ Hfin Hes). injection Hsteps as ->. by apply elem_of_nil in Hin.
  - apply lookup_lt_Some in Hi. apply lookup_ge_None in Hes. rewrite (hb_length _ _ Hh) in Hi. lia.
Qed.

Lemma sum_insert (left : list (list trace_event)) i e es :
  left !! i = Some (e :: es) -> sum_list_with length left = Datatypes.S (sum_list_with length (<[i := es]> left)).
Proof.
  revert i. induction left as [|l left IH]; intros [|i] Hi; try done; cbn [lookup list_lookup insert list_insert sum_list_with] in *.
  - injection Hi as ->. cbn [length]. lia.
  - rewrite (IH i Hi). apply Nat.add_succ_r.
Qed.

Lemma step_events st st' : thread_step st st' -> events_left st = Datatypes.S (events_left st').
Proof. destruct 1 as [left owner i m es Hi _|left owner i m es Hi _|left owner i t es Hi]; by apply (sum_insert left i) in Hi. Qed.

Lemma steps_events n st st' : nsteps thread_step n st st' -> events_left st = (n + events_left st')%nat.
Proof. induction 1 as [|n st st1 st2 Hstep _ IH]; [done|]. rewrite (step_events _ _ Hstep), IH. lia. Qed.

End Threads.

(** ** The calls of the API *)

Section Discipline.
Context {S P M A O : Type} `{NamePool P} `{ObjectAllocator S M} `{AxiomLib S P M A O}.
Context (realloc_ok : Z -> bool) (clock : nat -> Z * Z) (Hroomy : roomy realloc_ok) (HAVE_BACKTRACE : bool).

Abbreviation sdk := (sdk S P M A O).
Abbreviation prog := (prog S P M A O).

Implicit Types (s : sdk) (held : list mutex_id).

(** The lock of a handle protects the transaction of the handle. *)
Definition txn_guard s : mutex_id -> option txn_ptr :=
  fun m => match m with TxnLock x => tx_txn <$> sd_txns s !! x | _ => None end.

Section Keeping.
Context (guard : mutex_id -> option txn_ptr).

(** The locks of the state are the ones that are held, and every handle is of the transaction its lock protects. *)
Record locks_are held s : Prop := {
  la_txns : forall x tx, sd_txns s !! x = Some tx ->
    tx_lock tx = mk_mutex true (bool_decide (TxnLock x ∈ held)) /\ guard (TxnLock x) = Some (tx_txn tx);
  la_static : mu_locked (sd_mutex s) = bool_decide (SegmentMutex ∈ held);
}.

(** [m] takes a thread from holding [held] to holding [held'], in step with its trace. *)
Definition keeps_to held held' s {T : Type} (m : prog T) : Prop :=
  locks_are held s -> forall r s', m s = Some (r, s') ->
    locks_are held' s' /\ exists es, sd_trace s' = sd_trace s ++ es /\ lock_steps guard held es = Some held'.

Lemma keeps_to_bind held held1 held2 s {T U : Type} (m : prog T) (f : T -> prog U) :
  keeps_to held held1 s m -> (forall r s1, locks_are held1 s1 -> m s = Some (r, s1) -> keeps_to held1 held2 s1 (f r)) ->
  keeps_to held held2 s (m ≫= f).
Proof.
  intros Hm Hf Hl r s' Hrun. unfold mbind, prog_bind in Hrun. destruct (m s) as [[r1 s1]|] eqn:E; [|done].
  destruct (Hm Hl r1 s1 E) as (Hl1 & es1 & Et1 & Hes1). destruct (Hf r1 s1 Hl1 eq_refl Hl1 r s' Hrun) as (Hl2 & es2 & Et2 & Hes2).
  split; [done|]. exists (es1 ++ es2). rewrite Et2, Et1, app_assoc. split; [done|]. rewrite lock_steps_app, Hes1. exact Hes2.
Qed.

(** A program that leaves the handles, the static mutex and the trace alone. *)
Definition silent {T : Type} (m : prog T) : Prop :=
  forall s r s', m s = Some (r, s') -> sd_txns s' = sd_txns s /\ sd_mutex s' = sd_mutex s /\ sd_trace s' = sd_trace s.

Lemma silent_keeps held s {T : Type} (m : prog T) : silent m -> keeps_to held held s m.
Proof.
  intros Hm [H1' H2'] r s' Hrun. destruct (Hm s r s' Hrun) as (Et & Emu & Etr). split; [constructor; by rewrite ?Et, ?Emu|].
  exists []. by rewrite Etr, app_nil_r.
Qed.

Lemma silent_ret {T : Type} (x : T) : silent (mret x : prog T).
Proof. by intros s r s' [= <- <-]. Qed.
Lemma silent_gets {T : Type} (f : sdk -> T) : silent (gets f).
Proof. by intros s r s' [= <- <-]. Qed.
Lemma silent_of_option {T : Type} (o : option T) : silent (of_option o : prog T).
Proof. intros s r s' E. unfold of_option in E. destruct o; [|done]. by injection E as <- <-. Qed.
Lemma silent_call {T : Type} (f : A -> T * A) : silent (call f : prog T).
Proof. by intros s r s' [= <- <-]. Qed.
Lemma silent_call_ (f : A -> A) : silent (call_ f : prog unit).
Proof. by intros s r s' [= <- <-]. Qed.
Lemma silent_on_world {T : Type} (f : world S P M -> option (T * world S P M)) : silent (on_world f : prog T).
Proof. intros s r s' E. unfold on_world in E. destruct (f (sd_world s)) as [[x w]|]; [|done]. by injection E as <- <-. Qed.

Lemma silent_bind {T U : Type} (m : prog T) (f : T -> prog U) : silent m -> (forall r, silent (f r)) -> silent (m ≫= f).
Proof.
  intros Hm Hf s r s' Hrun. unfold mbind, prog_bind in Hrun. destruct (m s) as [[r1 s1]|] eqn:E; [|done].
  destruct (Hm s r1 s1 E) as (E1 & E2 & E3). destruct (Hf r1 s1 r s' Hrun) as (E4 & E5 & E6). split_and!; congruence.
Qed.

Lemma silent_set_segments f : silent (modify (fun s => set_sdk_segments (f s) s) : prog unit).
Proof. by intros s r s' [= <- <-]. Qed.
Lemma silent_set_events f : silent (modify (fun s => set_events (f s) s) : prog unit).
Proof. by intros s r s' [= <- <-]. Qed.

Lemma silent_txn_of x : silent (txn_of x : prog txn_ptr).
Proof. apply silent_bind; [apply silent_gets|]. intros s0. apply silent_bind; [apply silent_of_option|]. intros tx. apply silent_ret. Qed.
Lemma silent_segment_of p : silent (segment_of p : prog newrelic_segment_t).
Proof. apply silent_bind; [apply silent_gets|]. intros s0. apply silent_of_option. Qed.
Lemma silent_update_segment p f : silent (update_segment p f : prog unit).
Proof. apply silent_bind; [apply silent_segment_of|]. intros sg. apply silent_set_segments. Qed.

(** Using a transaction whose lock is held. *)
Lemma keeps_to_use held s tp m :
  m ∈ held -> guard m = Some tp -> keeps_to held held s (traced (Uses tp)).
Proof.
  intros Hin Hg [H1' H2'] r s' [= <- <-]. split; [by constructor|]. exists [Uses tp]. split; [done|]. cbn [lock_steps lock_step].
  replace (existsb _ held) with true; [done|]. symmetry. apply existsb_exists. exists m.
  rewrite <- list_elem_of_In, bool_decide_eq_true. by split.
Qed.

Lemma keeps_to_on_txn held s tp m {T : Type} (f : option (nrtxn_t S P) -> option (T * option (nrtxn_t S P))) :
  m ∈ held -> guard m = Some tp -> keeps_to held held s (on_txn tp f).
Proof.
  intros Hin Hg. unfold on_txn. eapply keeps_to_bind; [by eapply keeps_to_use|]. intros r s1 _ _. apply silent_keeps, silent_on_world.
Qed.

Lemma keeps_to_read_txn held s tp m : m ∈ held -> guard m = Some tp -> keeps_to held held s (read_txn tp).
Proof.
  intros Hin Hg. unfold read_txn. eapply keeps_to_bind; [by eapply keeps_to_use|]. intros r s1 _ _. apply silent_keeps.
  apply silent_bind; [apply silent_gets|]. intros s2. apply silent_of_option.
Qed.

Lemma keeps_to_use_segment held s p tp m :
  m ∈ held -> guard m = Some tp -> owned (w_segments (sd_world s)) tp p -> keeps_to held held s (use_segment p).
Proof.
  intros Hin Hg Hown Hl r s' Hrun. rewrite (use_segment_run s p tp Hown) in Hrun. injection Hrun as <- <-.
  by apply (keeps_to_use held s tp m Hin Hg Hl tt).
Qed.

(** Which mutexes are in a list that is written out. *)
Local Ltac in_held := rewrite ?elem_of_cons, ?elem_of_nil; intuition congruence.

(** Taking and giving back the lock of a transaction. *)
Lemma lock_run_inv x s r s' :
  locks_are [] s -> nrt_mutex_lock (Some (TxnLock x)) s = Some (r, s') ->
  exists tx, sd_txns s !! x = Some tx /\ s' = add_trace (Lock (TxnLock x)) (relock x tx true s).
Proof.
  intros [Htx _] Hrun. destruct (sd_txns s !! x) as [tx|] eqn:Hx.
  - destruct (Htx x tx Hx) as [Hl _]. rewrite (lock_txn_run s x tx Hx Hl) in Hrun. injection Hrun as <- <-. by exists tx.
  - unfold nrt_mutex_lock in Hrun. erewrite bind_run in Hrun by done. cbn [id mutex_at] in Hrun. rewrite Hx in Hrun.
    cbn [fmap option_fmap option_map] in Hrun. by rewrite bind_undefined in Hrun.
Qed.

Lemma keeps_to_lock x s : keeps_to [] [TxnLock x] s (nrt_mutex_lock (Some (TxnLock x))).
Proof.
  intros Hl r s' Hrun. destruct (lock_run_inv x s r s' Hl Hrun) as (tx & Hx & ->). destruct Hl as [Htx Hst]. split.
  - constructor; [|exact Hst]. intros y ty. cbn [sd_txns add_trace relock set_sdk_txns].
    intros [[<- <-]|[Hne Hy]]%lookup_insert_Some.
    + split; [by rewrite bool_decide_eq_true_2 by left|]. apply (Htx x tx Hx).
    + destruct (Htx y ty Hy) as [-> Hg]. split; [|done]. rewrite !bool_decide_eq_false_2; [done|in_held|in_held].
  - by exists [Lock (TxnLock x)].
Qed.

Lemma keeps_to_unlock x s : keeps_to [TxnLock x] [] s (nrt_mutex_unlock (Some (TxnLock x))).
Proof.
  intros [Htx Hst] r s' Hrun. destruct (sd_txns s !! x) as [tx|] eqn:Hx.
  - destruct (Htx x tx Hx) as [Hl Hg]. rewrite bool_decide_eq_true_2 in Hl by left.
    rewrite (unlock_txn_run s x tx Hx Hl) in Hrun. injection Hrun as <- <-. split.
    + constructor; [|exact Hst]. intros y ty. cbn [sd_txns add_trace relock set_sdk_txns].
      intros [[<- <-]|[Hne Hy]]%lookup_insert_Some; [done|].
      destruct (Htx y ty Hy) as [-> Hg']. split; [|done]. rewrite !bool_decide_eq_false_2; [done|in_held|in_held].
    + exists [Unlock (TxnLock x)]. split; [done|]. cbn [lock_steps lock_step]. by rewrite bool_decide_eq_true_2.
  - unfold nrt_mutex_unlock in Hrun. erewrite bind_run in Hrun by done. cbn [id mutex_at] in Hrun. rewrite Hx in Hrun.
    cbn [fmap option_fmap option_map] in Hrun. by rewrite bind_undefined in Hrun.
Qed.

(** The static mutex, taken while the lock of a transaction is held. *)
Lemma keeps_to_lock_static x s : keeps_to [TxnLock x] [SegmentMutex; TxnLock x] s (nrt_mutex_lock (Some SegmentMutex)).
Proof.
  intros [Htx Hst] r s' Hrun. rewrite bool_decide_eq_false_2 in Hst by in_held.
  rewrite (lock_segments_run s Hst) in Hrun. injection Hrun as <- <-. split.
  - constructor; [|by rewrite bool_decide_eq_true_2 by left]. intros y ty Hy. destruct (Htx y ty Hy) as [-> Hg]. split; [|done].
    f_equal. apply bool_decide_ext. in_held.
  - by exists [Lock SegmentMutex].
Qed.

Lemma keeps_to_unlock_static x s : keeps_to [SegmentMutex; TxnLock x] [TxnLock x] s (nrt_mutex_unlock (Some SegmentMutex)).
Proof.
  intros [Htx Hst] r s' Hrun. rewrite bool_decide_eq_true_2 in Hst by left.
  rewrite (unlock_segments_run s Hst) in Hrun. injection Hrun as <- <-. split.
  - constructor; [|rewrite bool_decide_eq_false_2 by in_held; done]. intros y ty Hy. destruct (Htx y ty Hy) as [-> Hg]. split; [|done].
    f_equal. apply bool_decide_ext. in_held.
  - by exists [Unlock SegmentMutex].
Qed.

Lemma keeps_to_create x s tp :
  guard (TxnLock x) = Some tp -> keeps_to [TxnLock x] [TxnLock x] s (newrelic_segment_create realloc_ok clock tp).
Proof.
  intros Hg. unfold newrelic_segment_create. eapply keeps_to_bind; [eapply keeps_to_use; [left|exact Hg]|]. intros _ s1 _ _.
  eapply keeps_to_bind; [apply silent_keeps, silent_on_world|]. intros [sp|] s2 _ _; [|apply silent_keeps, silent_ret].
  eapply keeps_to_bind; [apply keeps_to_lock_static|]. intros _ s3 _ _.
  eapply keeps_to_bind; [apply silent_keeps, silent_gets|]. intros s4 s5 _ _.
  eapply keeps_to_bind; [apply keeps_to_unlock_static|]. intros _ s6 _ _.
  apply silent_keeps, silent_bind; [apply silent_set_segments|]. intros _. apply silent_ret.
Qed.

(** A call that locks a transaction, works and unlocks. *)
Lemma keeps_to_enter x s {T : Type} (F : txn_ptr -> prog T) :
  (forall s1 tx, sd_txns s !! x = Some tx -> guard (TxnLock x) = Some (tx_txn tx) -> sd_world s1 = sd_world s ->
     sd_segments s1 = sd_segments s -> keeps_to [TxnLock x] [] s1 (F (tx_txn tx))) ->
  keeps_to [] [] s (_ ← nrt_mutex_lock (Some (TxnLock x)); tp ← txn_of x; F tp).
Proof.
  intros HF Hl. revert Hl. intros Hl0. apply keeps_to_bind with (held1 := [TxnLock x]); [apply keeps_to_lock| |exact Hl0].
  intros r s1 Hl1 Hrun. destruct (lock_run_inv x s r s1 Hl0 Hrun) as (tx & Hx & ->). destruct (la_txns _ _ Hl0 x tx Hx) as [_ Hg].
  set (s1 := add_trace _ _). intros Hl r' s' Hrun'.
  erewrite bind_run in Hrun' by (apply (txn_of_run s1 x (mk_sdk_txn (tx_txn tx) (mk_mutex true true))); apply lookup_insert_eq).
  exact (HF s1 tx Hx Hg eq_refl eq_refl Hl r' s' Hrun').
Qed.

Lemma keeps_to_leave x s {T : Type} (m : prog T) :
  silent m -> keeps_to [TxnLock x] [] s (_ ← nrt_mutex_unlock (Some (TxnLock x)); m).
Proof. intros Hm. eapply keeps_to_bind; [apply keeps_to_unlock|]. intros _ s1 _ _. by apply silent_keeps. Qed.

(** *** Calls that use a transaction under its lock only *)

Lemma metric_keeps x s tp name :
  guard (TxnLock x) = Some tp ->
  keeps_to [TxnLock x] [TxnLock x] s (newrelic_add_api_supportability_metric (Some tp) (Some name)).
Proof.
  intros Hg. unfold newrelic_add_api_supportability_metric. eapply keeps_to_on_txn; [left|exact Hg].
Qed.

Lemma set_transaction_timing_keeps x s start duration :
  keeps_to [] [] s (newrelic_set_transaction_timing (Some x) start duration).
Proof.
  apply keeps_to_enter. intros s1 tx _ Hg _ _. eapply keeps_to_bind; [by apply metric_keeps|]. intros _ s2 _ _.
  eapply keeps_to_bind; [eapply keeps_to_use; [left|exact Hg]|]. intros _ s3 _ _.
  eapply keeps_to_bind; [apply silent_keeps, silent_on_world|]. intros r s4 _ _. apply keeps_to_leave, silent_ret.
Qed.

Lemma record_custom_metric_keeps x s name v : keeps_to [] [] s (newrelic_record_custom_metric (Some x) (Some name) v).
Proof.
  apply keeps_to_enter. intros s1 tx _ Hg _ _. eapply keeps_to_bind; [eapply keeps_to_on_txn; [left|exact Hg]|]. intros r s2 _ _.
  apply keeps_to_leave, silent_ret.
Qed.

Lemma silent_stack_trace : silent (newrelic_get_stack_trace_as_json HAVE_BACKTRACE : prog (option cstr)).
Proof.
  unfold newrelic_get_stack_trace_as_json. destruct HAVE_BACKTRACE; [|apply silent_ret].
  apply silent_bind; [apply silent_gets|]. intros r. apply silent_ret.
Qed.

Lemma notice_error_keeps x s priority msg cls :
  keeps_to [] [] s (newrelic_notice_error clock HAVE_BACKTRACE (Some x) priority msg cls).
Proof.
  unfold newrelic_notice_error. destruct (from_option _ true msg); [apply silent_keeps, silent_ret|].
  destruct (from_option _ true cls); [apply silent_keeps, silent_ret|].
  apply keeps_to_enter. intros s1 tx _ Hg _ _. eapply keeps_to_bind; [|intros _ s2 _ _; apply keeps_to_leave, silent_ret].
  unfold notice_error_locked. eapply keeps_to_bind; [eapply keeps_to_read_txn; [left|exact Hg]|]. intros t s2 _ _.
  destruct (0 =? _); [apply silent_keeps, silent_ret|]. destruct (0 =? _); [apply silent_keeps, silent_ret|].
  destruct (match t_error t with Some _ => _ | None => _ end); [apply silent_keeps, silent_ret|].
  destruct (nr_txn_record_error_worthy (Some t) priority); [|apply silent_keeps, silent_ret].
  eapply keeps_to_bind; [apply silent_keeps, silent_stack_trace|]. intros json s3 _ _.
  eapply keeps_to_bind; [apply silent_keeps, silent_on_world|]. intros now s4 _ _. eapply keeps_to_on_txn; [left|exact Hg].
Qed.

Lemma add_attribute_keeps x s key obj : keeps_to [] [] s (newrelic_add_attribute (Some x) key obj).
Proof.
  unfold newrelic_add_attribute. intros Hl0. apply keeps_to_bind with (held1 := [TxnLock x]); [apply keeps_to_lock| |exact Hl0].
  intros r s1 Hl1 Hrun. destruct (lock_run_inv x s r s1 Hl0 Hrun) as (tx & Hx & ->). destruct (la_txns _ _ Hl0 x tx Hx) as [_ Hg].
  eapply keeps_to_bind; [|intros ok s2 _ _; apply keeps_to_leave, silent_ret].
  destruct key as [key|]; [|apply silent_keeps, silent_ret]. destruct obj as [obj|]; [|apply silent_keeps, silent_ret].
  eapply keeps_to_bind; [apply silent_keeps, silent_txn_of|]. intros tp s2 _ Htp.
  erewrite (txn_of_run _ x (mk_sdk_txn (tx_txn tx) (mk_mutex true true))) in Htp by apply lookup_insert_eq. injection Htp as <- _.
  eapply keeps_to_bind; [|intros ret s3 _ _; destruct ret; apply silent_keeps, silent_ret].
  unfold nr_txn_add_user_custom_parameter. eapply keeps_to_bind; [eapply keeps_to_read_txn; [left|exact Hg]|]. intros t s3 _ _.
  destruct (negb _); [apply silent_keeps, silent_ret|]. destruct (0 =? _); [apply silent_keeps, silent_ret|].
  apply silent_keeps, silent_call.
Qed.

Lemma silent_discard e : silent (newrelic_discard_custom_event (Some (Some e)) : prog (option (option event_ptr))).
Proof.
  apply silent_bind; [apply silent_gets|]. intros s0. apply silent_bind; [apply silent_of_option|]. intros ev.
  apply silent_bind; [apply silent_set_events|]. intros _. apply silent_ret.
Qed.

Lemma record_custom_event_keeps x s e : keeps_to [] [] s (newrelic_record_custom_event clock (Some x) (Some (Some e))).
Proof.
  apply keeps_to_enter. intros s1 tx _ Hg _ _.
  eapply keeps_to_bind; [apply silent_keeps, silent_gets|]. intros s2 s3 _ _.
  eapply keeps_to_bind; [apply silent_keeps, silent_of_option|]. intros ev s4 _ _.
  eapply keeps_to_bind; [|intros _ s5 _ _; apply keeps_to_leave, silent_discard].
  unfold nr_txn_record_custom_event. eapply keeps_to_bind; [apply silent_keeps, silent_on_world|]. intros now s5 _ _.
  eapply keeps_to_bind; [eapply keeps_to_read_txn; [left|exact Hg]|]. intros t s6 _ _.
  destruct (_ =? 0); [apply silent_keeps, silent_ret|]. destruct (negb _); [apply silent_keeps, silent_ret|].
  destruct (_ =? 0); [apply silent_keeps, silent_ret|]. apply silent_keeps, silent_call_.
Qed.

(** A segment that was created belongs to the transaction. *)
Lemma create_owned k s kids tp p s2 :
  memory_ok (k + 1) (sd_world s) kids -> 0 <= k -> mu_locked (sd_mutex s) = false -> is_Some (w_txns (sd_world s) !! tp) ->
  newrelic_segment_create realloc_ok clock tp s = Some (Some p, s2) ->
  exists sg, sd_segments s2 !! p = Some sg /\ owned (w_segments (sd_world s2)) tp (sg_segment sg).
Proof.
  intros Hm Hk Hmu [t Ht] Hrun. destruct (decide (recording (t_status t) = 0)) as [Hrec|Hrec].
  { by rewrite (create_ignored realloc_ok clock s tp t Ht Hrec) in Hrun. }
  assert (Hmem : oa_next (w_mem (sd_world s)) (t_segment_slab t) <> None).
  { intros Hnone. unfold newrelic_segment_create in Hrun. erewrite bind_run in Hrun by done. rewrite bind_undefined in Hrun; [done|].
    unfold on_world, nr_segment_start. cbn [sd_world add_trace]. rewrite Ht. cbn [mbind option_bind].
    rewrite (proj2 (Z.eqb_neq _ 0)), Hnone by done. done. }
  destruct (segment_create_run realloc_ok clock Hroomy k s kids tp t Hm Hk Hmu Ht Hrec Hmem)
    as (l & sp & w' & kids' & s' & Hrun' & _ & _ & _ & Hst & Ew & Es & _).
  rewrite Hrun' in Hrun. injection Hrun as <- <-. eexists. split; [rewrite Es; apply lookup_insert_eq|].
  rewrite Ew. eexists. split; [exact (sa_segment _ _ _ _ _ _ _ _ Hst)|done].
Qed.

(** What is done to a new segment. *)
Lemma filled_keeps x s tp (segment : option sdk_seg_ptr) (rest : sdk_seg_ptr -> newrelic_segment_t -> prog unit) :
  guard (TxnLock x) = Some tp ->
  (forall p, segment = Some p -> exists sg, sd_segments s !! p = Some sg /\ owned (w_segments (sd_world s)) tp (sg_segment sg)) ->
  (forall p sg, silent (rest p sg)) ->
  keeps_to [TxnLock x] [TxnLock x] s
    (match segment with
     | None => mret tt
     | Some p => sg ← segment_of p; _ ← use_segment (sg_segment sg); rest p sg
     end).
Proof.
  intros Hg Hsegment Hrest. destruct segment as [p|]; [|apply silent_keeps, silent_ret].
  destruct (Hsegment p eq_refl) as (sg & Hp & Hown).
  eapply keeps_to_bind; [apply silent_keeps, silent_segment_of|]. intros sg' s1 _ Hrun.
  rewrite (segment_of_run s p sg Hp) in Hrun. injection Hrun as <- <-.
  eapply keeps_to_bind; [eapply keeps_to_use_segment; [left|exact Hg|exact Hown]|]. intros _ s2 _ _.
  apply silent_keeps, Hrest.
Qed.

Lemma created_filled k s kids x tx s1 s2 segment :
  sdk_ok (k + 2) s kids -> 0 <= k -> sd_txns s !! x = Some tx -> sd_world s1 = sd_world s -> locks_are [TxnLock x] s1 ->
  newrelic_segment_create realloc_ok clock (tx_txn tx) s1 = Some (segment, s2) ->
  forall p, segment = Some p ->
    exists sg, sd_segments s2 !! p = Some sg /\ owned (w_segments (sd_world s2)) (tx_txn tx) (sg_segment sg).
Proof.
  intros Hok Hk Hx Ew Hl Hrun p ->. apply (create_owned k s1 kids (tx_txn tx) p s2); [|done| | |done].
  - rewrite Ew. eapply memory_ok_le; [|apply Hok]. lia.
  - rewrite (la_static _ _ Hl). rewrite bool_decide_eq_false_2; [done|in_held].
  - rewrite Ew. by apply (so_txns _ _ _ Hok x tx Hx).
Qed.

Lemma start_segment_keeps k x s kids name category :
  sdk_ok (k + 2) s kids -> 0 <= k -> keeps_to [] [] s (newrelic_start_segment realloc_ok clock (Some x) name category).
Proof.
  intros Hok Hk. apply keeps_to_enter. intros s1 tx Hx Hg Ew _ Hl1. revert Hl1. intros Hl1.
  refine (keeps_to_bind _ _ _ _ _ _ (keeps_to_create x s1 _ Hg) _ Hl1). intros segment s2 _ Hrun.
  pose proof (created_filled k s kids x tx s1 s2 segment Hok Hk Hx Ew Hl1 Hrun) as Hsegment.
  eapply keeps_to_bind.
  { refine (filled_keeps x s2 (tx_txn tx) segment (fun _ sg => _ ← on_world (nr_segment_set_name (Some (sg_segment sg)) _); mret tt) Hg Hsegment _).
    intros p sg. apply silent_bind; [apply silent_on_world|]. intros _. apply silent_ret. }
  intros _ s3 _ _. eapply keeps_to_bind; [apply keeps_to_unlock|]. intros _ s4 _ _. apply silent_keeps.
  apply silent_bind; [apply silent_of_option|]. intros q. apply silent_bind; [apply silent_update_segment|]. intros _. apply silent_ret.
Qed.

Lemma locked_typed_keeps k x s kids ty fill :
  sdk_ok (k + 2) s kids -> 0 <= k -> (forall p, silent (fill p)) ->
  keeps_to [] [] s (locked_typed_segment realloc_ok clock x ty fill).
Proof.
  intros Hok Hk Hfill Hl0. apply keeps_to_bind with (held1 := [TxnLock x]); [apply keeps_to_lock| |exact Hl0].
  intros r s1 Hl1 Hrun. destruct (lock_run_inv x s r s1 Hl0 Hrun) as (tx & Hx & ->). destruct (la_txns _ _ Hl0 x tx Hx) as [_ Hg].
  eapply keeps_to_bind; [|intros q s2 _ _; apply keeps_to_leave, silent_ret]. unfold typed_segment. set (s1 := add_trace _ _) in *.
  eapply keeps_to_bind; [apply silent_keeps, silent_txn_of|]. intros tp s2 Hl2 Htp.
  erewrite (txn_of_run s1 x (mk_sdk_txn (tx_txn tx) (mk_mutex true true))) in Htp by apply lookup_insert_eq. injection Htp as <- <-.
  cbn [tx_txn]. eapply keeps_to_bind; [by apply keeps_to_create|]. intros segment s3 _ Hcreate.
  pose proof (created_filled k s kids x tx s1 s3 segment Hok Hk Hx eq_refl Hl1 Hcreate) as Hsegment.
  eapply keeps_to_bind; [|intros _ s4 _ _; apply silent_keeps, silent_ret].
  apply (filled_keeps x s3 (tx_txn tx) segment (fun p sg =>
    _ ← on_world (fun w => w ← upd_segment (sg_segment sg) (seg_type ty) w; Some (tt, w)); fill p)); [exact Hg|exact Hsegment|].
  intros p sg. apply silent_bind; [apply silent_on_world|]. intros _. apply Hfill.
Qed.

(** A program is what it computes. *)
Lemma keeps_to_ext held held' s {T : Type} (m m' : prog T) : m s = m' s -> keeps_to held held' s m' -> keeps_to held held' s m.
Proof. intros E Hm Hl r s' Hrun. rewrite E in Hrun. exact (Hm Hl r s' Hrun). Qed.

Lemma start_datastore_keeps k x s kids params :
  sdk_ok (k + 2) s kids -> 0 <= k ->
  keeps_to [] [] s (newrelic_start_datastore_segment realloc_ok clock (Some x) (Some params)).
Proof.
  intros Hok Hk. eapply keeps_to_ext; [apply start_datastore_eq|]. destruct (datastore_params_valid params); [|apply silent_keeps, silent_ret].
  apply (locked_typed_keeps k x s kids); [done|done|]. intros p. apply silent_bind; [apply silent_gets|]. intros h. apply silent_update_segment.
Qed.

Lemma start_external_keeps k x s kids params :
  sdk_ok (k + 2) s kids -> 0 <= k ->
  keeps_to [] [] s (newrelic_start_external_segment realloc_ok clock (Some x) (Some params)).
Proof.
  intros Hok Hk. eapply keeps_to_ext; [apply start_external_eq|]. destruct (external_params_valid params); [|apply silent_keeps, silent_ret].
  apply (locked_typed_keeps k x s kids); [done|done|]. intros p. apply silent_update_segment.
Qed.

(** Calls on a handle that holds the lock of its transaction. *)
Lemma keeps_to_wrapper k s kids p sg x {T : Type} (F : newrelic_segment_t -> prog T) :
  sdk_ok k s kids -> sd_segments s !! p = Some sg -> sg_txn_lock sg = Some (TxnLock x) ->
  (forall s1 tp, guard (TxnLock x) = Some tp -> sg_transaction sg = Some tp -> owned (w_segments (sd_world s)) tp (sg_segment sg) ->
     sd_world s1 = sd_world s -> sd_segments s1 = sd_segments s -> keeps_to [TxnLock x] [] s1 (F sg)) ->
  keeps_to [] [] s (sg ← segment_of p; _ ← nrt_mutex_lock (sg_txn_lock sg); F sg).
Proof.
  intros Hok Hp Hlock HF Hl0 r s' Hrun. erewrite bind_run in Hrun by by apply segment_of_run. rewrite Hlock in Hrun.
  destruct (so_segments _ _ _ Hok p sg Hp) as (tp & Htp & Hown & Hx & _). destruct (Hx _ Hlock) as (y & tx & [= <-] & Hy & <-).
  refine (keeps_to_bind _ _ _ _ _ _ (keeps_to_lock x s) _ Hl0 r s' Hrun). intros r1 s1 Hl1 Hrun1.
  destruct (lock_run_inv x s r1 s1 Hl0 Hrun1) as (tx' & Hx' & ->).
  apply (HF _ (tx_txn tx)); [by apply (la_txns _ _ Hl0 x tx)|done|done|done|done].
Qed.

Lemma set_segment_timing_keeps k s kids p sg x start duration :
  sdk_ok k s kids -> sd_segments s !! p = Some sg -> sg_txn_lock sg = Some (TxnLock x) ->
  keeps_to [] [] s (newrelic_set_segment_timing (Some p) start duration).
Proof.
  intros Hok Hp Hlock. eapply (keeps_to_wrapper k s kids p sg x); [done..|]. intros s1 tp Hg _ Hown Ew _.
  eapply keeps_to_bind; [eapply keeps_to_use_segment; [left|exact Hg|by rewrite Ew]|]. intros _ s2 _ _.
  eapply keeps_to_bind; [apply silent_keeps, silent_on_world|]. intros ok s3 _ _. rewrite Hlock. apply keeps_to_leave, silent_ret.
Qed.

Lemma metric_segments s tp name r s' :
  newrelic_add_api_supportability_metric (Some tp) (Some name) s = Some (r, s') -> w_segments (sd_world s') = w_segments (sd_world s).
Proof.
  unfold newrelic_add_api_supportability_metric, on_txn. intros Hrun. erewrite bind_run in Hrun by done.
  unfold on_world in Hrun. cbn [sd_world add_trace] in Hrun. destruct (w_txns (sd_world s) !! tp) as [t|]; [|done].
  cbn [mbind option_bind] in Hrun. destruct (add_unscoped _ t); [|done]. by injection Hrun as <- <-.
Qed.

Lemma set_segment_parent_keeps k s kids p q sg x :
  sdk_ok k s kids -> sd_segments s !! p = Some sg -> sg_txn_lock sg = Some (TxnLock x) ->
  keeps_to [] [] s (newrelic_set_segment_parent realloc_ok (Some p) (Some q)).
Proof.
  intros Hok Hp Hlock. unfold newrelic_set_segment_parent. case_bool_decide; [apply silent_keeps, silent_ret|].
  eapply (keeps_to_wrapper k s kids p sg x); [done..|]. intros s1 tp Hg Htp Hown Ew _. rewrite Htp.
  eapply keeps_to_bind; [by apply metric_keeps|]. intros r s2 _ Hmetric%metric_segments.
  eapply keeps_to_bind; [apply silent_keeps, silent_segment_of|]. intros sh s3 _ Hsh.
  assert (Ew3 : sd_world s3 = sd_world s2).
  { unfold segment_of, mbind, prog_bind, gets, of_option, id in Hsh. destruct (sd_segments s2 !! q); [|done]. by injection Hsh as _ <-. }
  eapply keeps_to_bind; [eapply keeps_to_use_segment; [left|exact Hg|by rewrite Ew3, Hmetric, Ew]|]. intros _ s4 _ _.
  eapply keeps_to_bind; [apply silent_keeps, silent_on_world|]. intros ok s5 _ _. rewrite Hlock. apply keeps_to_leave, silent_ret.
Qed.

(** The calls that use a transaction under its lock only: not the end of a segment, which reads the
    segment after it unlocked, not the calls without a lock, and not the ones on the handle of a
    datastore or external segment, which has no lock. *)
Definition call_locks (c : api_call (O := O)) s : bool :=
  match c with
  | SetSegmentParent p _ | SetSegmentTiming p _ _ =>
      match sd_segments s !! p with Some sg => is_some (sg_txn_lock sg) | None => false end
  | EndSegment _ _ | SetSegmentParentRoot _ | SetTransactionName _ _ | IgnoreTransaction _ => false
  | _ => true
  end.

Abbreviation api_run := (api_run realloc_ok clock HAVE_BACKTRACE).
Abbreviation session_run := (session_run realloc_ok clock HAVE_BACKTRACE).
Abbreviation session_valid := (session_valid realloc_ok clock HAVE_BACKTRACE).

Lemma keeps_to_done held s {T : Type} (m : prog T) : keeps_to [] held s m -> keeps_to [] held s (_ ← m; mret tt).
Proof. intros Hm. eapply keeps_to_bind; [exact Hm|]. intros _ s1 _ _. apply silent_keeps, silent_ret. Qed.

Lemma wrapper_lock k s kids p sg :
  sdk_ok k s kids -> sd_segments s !! p = Some sg -> is_some (sg_txn_lock sg) = true -> exists x, sg_txn_lock sg = Some (TxnLock x).
Proof.
  intros Hok Hp Hl. destruct (sg_txn_lock sg) as [m|] eqn:E; [|done].
  destruct (lock_of_wrapper k s kids p sg Hok Hp m E) as (x & -> & _). by exists x.
Qed.

Lemma api_run_keeps k s kids c : sdk_ok (k + 2) s kids -> 0 <= k -> call_locks c s = true -> keeps_to [] [] s (api_run c).
Proof.
  intros Hok Hk Hc. destruct c; cbn [call_locks] in Hc; try done; unfold api_run; apply keeps_to_done.
  - by apply (start_segment_keeps k x s kids).
  - by apply (start_datastore_keeps k x s kids).
  - by apply (start_external_keeps k x s kids).
  - destruct (sd_segments s !! p) as [sg|] eqn:Hp; [|done]. destruct (wrapper_lock _ _ _ _ _ Hok Hp Hc) as [x Hlock].
    by apply (set_segment_parent_keeps (k + 2) s kids p q sg x).
  - destruct (sd_segments s !! p) as [sg|] eqn:Hp; [|done]. destruct (wrapper_lock _ _ _ _ _ Hok Hp Hc) as [x Hlock].
    by apply (set_segment_timing_keeps (k + 2) s kids p sg x).
  - apply set_transaction_timing_keeps.
  - apply record_custom_metric_keeps.
  - apply notice_error_keeps.
  - apply add_attribute_keeps.
  - apply silent_keeps. destruct event_type; [|apply silent_ret]. apply silent_bind; [apply silent_gets|]. intros s0.
    apply silent_bind; [apply silent_set_events|]. intros _. apply silent_ret.
  - apply silent_keeps, silent_bind; [apply silent_gets|]. intros s0. apply silent_bind; [apply silent_of_option|]. intros ev.
    destruct (set_hash (ev_attributes ev)). apply silent_bind; [apply silent_set_events|]. intros _. apply silent_ret.
  - apply silent_keeps, silent_discard.
  - apply record_custom_event_keeps.
Qed.

(** Every call of a session locks. *)
Fixpoint session_locks (calls : list (api_call (O := O))) s : Prop :=
  match calls with
  | [] => True
  | c :: calls => call_locks c s = true /\ forall s', api_run c s = Some (tt, s') -> session_locks calls s'
  end.

Fixpoint session_locksb (calls : list (api_call (O := O))) s : bool :=
  match calls with
  | [] => true
  | c :: calls => call_locks c s && match api_run c s with Some (_, s') => session_locksb calls s' | None => true end
  end.

Lemma session_locksb_ok calls s : session_locksb calls s = true -> session_locks calls s.
Proof.
  revert s. induction calls as [|c calls IH]; intros s; cbn [session_locksb session_locks]; [done|].
  intros [Hc Hl]%andb_true_iff. split; [done|]. intros s' E. rewrite E in Hl. by apply IH.
Qed.

Lemma session_keeps calls k s kids :
  sdk_ok (k + 16 * Z.of_nat (length calls)) s kids -> 0 <= k -> all_fields s -> session_valid calls s ->
  session_locks calls s ->
  keeps_to [] [] s (session_run calls).
Proof.
  revert s kids. induction calls as [|c calls IH]; intros s kids Hok Hk Hall Hv Hlocks; [apply silent_keeps, silent_ret|].
  destruct Hv as [Hc Hv], Hlocks as [Hlc Hlocks]. cbn [length] in Hok.
  assert (Hok16 : sdk_ok (k + 16 * Z.of_nat (length calls) + 16) s kids) by (eapply sdk_ok_le; [|exact Hok]; lia).
  destruct (api_run_ok realloc_ok clock Hroomy HAVE_BACKTRACE (k + 16 * Z.of_nat (length calls)) s kids c Hok16 ltac:(lia) Hall Hc)
    as (s1 & kids1 & Hrun & Hok1 & Hall1).
  cbn [Calls.session_run]. eapply keeps_to_bind.
  { apply (api_run_keeps (k + 16 * Z.of_nat (length calls)) s kids); [eapply sdk_ok_le; [|exact Hok16]; lia|lia|done]. }
  intros [] s1' _ Hrun'. rewrite Hrun in Hrun'. injection Hrun' as <-. by apply (IH s1 kids1); [..|apply Hv|apply Hlocks].
Qed.

Lemma sdk_ok_locks k s kids : sdk_ok k s kids -> (forall m t, txn_guard s m = Some t -> guard m = Some t) -> locks_are [] s.
Proof.
  intros Hok Hg. constructor.
  - intros x tx Hx. destruct (so_txns _ _ _ Hok x tx Hx) as [_ ->]. split; [done|]. apply Hg. cbn [txn_guard]. by rewrite Hx.
  - rewrite (so_mutex _ _ _ Hok). done.
Qed.

End Keeping.
(** *** Properties *)

Abbreviation api_run := (api_run realloc_ok clock HAVE_BACKTRACE).
Abbreviation session_run := (session_run realloc_ok clock HAVE_BACKTRACE).
Abbreviation session_valid := (session_valid realloc_ok clock HAVE_BACKTRACE).

Lemma ends_with_use guard es t : ~ well_locked guard (es ++ [Uses t]).
Proof.
  unfold well_locked. rewrite lock_steps_app. destruct (lock_steps guard [] es) as [held|]; cbn [mbind option_bind]; [|done].
  cbn [lock_steps]. destruct (lock_step guard held (Uses t)) as [held'|] eqn:E; cbn [mbind option_bind]; [|done].
  intros [= ->]. apply lock_step_use in E as [<- (m & Hm & _)]. by apply elem_of_nil in Hm.
Qed.

(* @about newrelic_start_segment newrelic_segment_create newrelic_set_segment_parent newrelic_set_segment_timing newrelic_start_datastore_segment newrelic_start_external_segment newrelic_set_transaction_timing newrelic_record_custom_metric newrelic_notice_error newrelic_add_attribute newrelic_record_custom_event newrelic_set_transaction_name newrelic_ignore_transaction nrt_mutex_lock nrt_mutex_unlock *)
(** C14 (safety): which calls use a transaction under its lock.  From a state in order, starting a
    segment of any type, the timing of a transaction, metrics, errors, attributes, custom events,
    and the parent and the timing of a segment whose handle has a lock lock the transaction first,
    use no other one, take the static mutex only while they hold the lock, give back what they took
    in the opposite order and end without a lock.  [newrelic_set_transaction_name] and
    [newrelic_ignore_transaction] write to the transaction without its lock. *)
Theorem api_calls_lock_first (c : api_call (O := O)) k s kids :
  sdk_ok (k + 2) s kids -> 0 <= k ->
  (forall s', call_locks c s = true -> api_run c s = Some (tt, s') ->
     exists es, sd_trace s' = sd_trace s ++ es /\ well_locked (txn_guard s) es)
  /\ (forall x name tx, sd_txns s !! x = Some tx -> c = SetTransactionName x (Some name) \/ c = IgnoreTransaction x ->
     exists s', api_run c s = Some (tt, s') /\ sd_trace s' = sd_trace s ++ [Uses (tx_txn tx)]
       /\ ~ well_locked (txn_guard s) [Uses (tx_txn tx)]).
Proof.
  intros Hok Hk. split.
  - intros s' Hc Hrun. pose proof (sdk_ok_locks (txn_guard s) _ s kids Hok (fun _ _ E => E)) as Hl.
    destruct (api_run_keeps (txn_guard s) k s kids c Hok Hk Hc Hl tt s' Hrun) as (_ & es & Et & Hes). by exists es.
  - intros x name tx Hx Hc. destruct (txn_left k s kids x tx Hok Hx) as (t & Ht & _).
    assert (Huse : forall (T : Type) (f : option (nrtxn_t S P) -> option (T * option (nrtxn_t S P))) r t', f (Some t) = Some (r, Some t') ->
      on_txn (tx_txn tx) f s = Some (r, set_world (put_txn (tx_txn tx) t' (sd_world s)) (add_trace (Uses (tx_txn tx)) s))).
    { intros T f r t' Hf. unfold on_txn. erewrite bind_run by done. apply on_world_run. cbn [sd_world add_trace].
      rewrite Ht. cbn [mbind option_bind]. by rewrite Hf. }
    destruct Hc as [-> | ->]; cbn [Calls.api_run].
    + destruct (nr_txn_set_path (Some t) (Some name) NR_PATH_TYPE_CUSTOM NR_OK_TO_OVERWRITE) as [r t2] eqn:E.
      assert (exists t', t2 = Some t') as [t' ->] by (unfold nr_txn_set_path in E; repeat case_match; simplify_eq; by eexists).
      exists (set_world (put_txn (tx_txn tx) t' (sd_world s)) (add_trace (Uses (tx_txn tx)) s)).
      split; [|split; [|by apply (ends_with_use _ [])]].
      * eapply eq_trans; [apply (bind_run _ _ _ (match r with NR_SUCCESS => true | NR_FAILURE => false end))|reflexivity].
        unfold newrelic_set_transaction_name. erewrite bind_run by by apply txn_of_run. cbv beta.
        erewrite bind_run by (apply Huse; by rewrite E). by destruct r.
      * done.
    + eexists. split; [|split; [|by apply (ends_with_use _ [])]].
      * erewrite bind_run; [reflexivity|]. unfold newrelic_ignore_transaction. erewrite bind_run by by apply txn_of_run. cbv beta.
        apply Huse. reflexivity.
      * done.
Qed.

(** The trace of a thread that makes the calls of a session, each of which locks.  The state is the
    one the thread sees; its handles are of the transactions [guard] says. *)
Definition thread_trace (guard : mutex_id -> option txn_ptr) (es : list trace_event) : Prop :=
  exists calls k s kids s', sdk_ok (k + 16 * Z.of_nat (length calls)) s kids /\ 0 <= k /\ all_fields s
    /\ (forall m t, txn_guard s m = Some t -> guard m = Some t)
    /\ session_valid calls s /\ session_locks calls s
    /\ session_run calls s = Some (tt, s') /\ sd_trace s' = sd_trace s ++ es.

Lemma thread_trace_locked guard es : thread_trace guard es -> well_locked guard es.
Proof.
  intros (calls & k & s & kids & s' & Hok & Hk & Hall & Hg & Hv & Hlocks & Hrun & Htrace).
  destruct (session_keeps guard calls k s kids Hok Hk Hall Hv Hlocks (sdk_ok_locks guard _ s kids Hok Hg) tt s' Hrun) as (_ & es' & Et & Hes).
  rewrite Htrace in Et. apply app_inv_head in Et as ->. exact Hes.
Qed.

(* @about newrelic_start_segment newrelic_segment_create newrelic_set_segment_parent newrelic_set_transaction_timing newrelic_record_custom_metric newrelic_notice_error newrelic_add_attribute newrelic_record_custom_event nrt_mutex_lock nrt_mutex_unlock *)
(** C3 (liveness): threads that make such calls at once.  Each thread makes any valid calls that
    lock, on the same or on different transactions, in any order; every transaction has one handle;
    the events of the threads are interleaved in any way the mutexes allow.  Then no two threads are
    ever about to use the same transaction at the same time, and the threads never wait for each
    other in a circle: as long as one has not finished, some thread can go on, every step brings the
    end nearer, and when all have finished no mutex is held. *)
Theorem api_threads_race_free (guard : mutex_id -> option txn_ptr) (traces : list (list trace_event)) st :
  (forall m m' t, guard m = Some t -> guard m' = Some t -> m = m') ->
  Forall (thread_trace guard) traces -> rtc thread_step (threads_start traces) st ->
  ~ race st
  /\ (finished st \/ exists st', thread_step st st')
  /\ (forall st', thread_step st st' -> (events_left st' < events_left st)%nat)
  /\ (finished st -> forall m, th_owner st m = None).
Proof.
  intros Hguard Hall Hsteps.
  assert (Hlocked : Forall (well_locked guard) traces) by (eapply Forall_impl; [exact Hall|apply thread_trace_locked]).
  destruct (held_reachable guard traces st Hlocked Hsteps) as [helds Hh].
  split; [by apply (held_no_race guard Hguard st helds)|]. split; [by apply (held_progress guard st helds)|].
  split; [|by apply (held_finished guard st helds)]. intros st' Hstep. rewrite (step_events _ _ Hstep). lia.
Qed.

End Discipline.

(** *** Witnesses *)

Definition thread_calls : list (api_call (O := sample_object)) :=
  [StartSegment 1 None None; RecordCustomMetric 1 (str "m") (S754_zero false)].

Definition thread_end : sample_sdk_t :=
  match session_run sample_realloc sample_clock false thread_calls sample_open with Some (_, s) => s | None => sample_open end.

(** The locks it took and the transactions it used. *)
Definition thread_events : list trace_event := Eval vm_compute in sd_trace thread_end.

Lemma api_calls_lock_first_witness :
  exists s' es, api_run sample_realloc sample_clock false (StartSegment 1 None None) sample_open = Some (tt, s')
    /\ sd_trace s' = es /\ well_locked (txn_guard sample_open) es.
Proof.
  assert (Hsome : is_some (api_run sample_realloc sample_clock false (StartSegment 1 None None) sample_open) = true) by by vm_compute.
  destruct (api_run sample_realloc sample_clock false (StartSegment 1 None None) sample_open) as [[[] s']|] eqn:Hrun; [|discriminate Hsome].
  destruct (api_calls_lock_first sample_realloc sample_clock sample_realloc_roomy false (StartSegment 1 None None) 0 sample_open no_kids_map)
    as [Hlocks _].
  - apply (sdk_ok_le 1000000); [lia|exact sample_open_ok].
  - lia.
  - destruct (Hlocks s' eq_refl Hrun) as (es & Et & Hes). exists s', es. split; [reflexivity|]. split; [exact Et|exact Hes].
Defined.

Lemma sample_thread : thread_trace sample_realloc sample_clock false (txn_guard sample_open) thread_events.
Proof.
  exists thread_calls, 0, sample_open, no_kids_map, thread_end.
  split; [apply (sdk_ok_le 1000000); [by vm_compute|exact sample_open_ok]|]. split; [lia|]. split; [exact sample_fields|]. split; [done|].
  split; [apply session_validb_ok; by vm_compute|]. split; [apply session_locksb_ok; by vm_compute|].
  assert (Hsome : is_some (session_run sample_realloc sample_clock false thread_calls sample_open) = true) by by vm_compute.
  assert (Htrace : sd_trace thread_end = thread_events) by by vm_compute.
  unfold thread_end in *. destruct (session_run sample_realloc sample_clock false thread_calls sample_open) as [[[] s']|]; [|discriminate Hsome].
  split; [reflexivity|exact Htrace].
Qed.

Lemma api_threads_race_free_witness :
  ~ race (threads_start [thread_events; thread_events])
  /\ exists st', thread_step (threads_start [thread_events; thread_events]) st'.
Proof.
  destruct (api_threads_race_free sample_realloc sample_clock sample_realloc_roomy false (txn_guard sample_open)
    [thread_events; thread_events] (threads_start [thread_events; thread_events])) as (Hrace & Hgo & _).
  - intros m m' t Hm Hm'. unfold txn_guard in Hm, Hm'. destruct m as [| |x|]; try discriminate Hm. destruct m' as [| |x'|]; try discriminate Hm'.
    assert (Hone : forall y t', tx_txn <$> (sd_txns sample_open !! y) = Some t' -> y = 1%positive).
    { intros y t' E. destruct (decide (y = 1%positive)) as [|Hne]; [done|].
      change (tx_txn <$> (({[1%positive := mk_sdk_txn 1%positive free_lock]} : gmap sdk_txn_ptr newrelic_txn_t) !! y) = Some t') in E.
      rewrite lookup_singleton_ne in E by congruence. discriminate E. }
    by rewrite (Hone x t Hm), (Hone x' t Hm').
  - repeat constructor; exact sample_thread.
  - apply rtc_refl.
  - split; [exact Hrace|]. destruct Hgo as [Hfin|Hgo]; [|exact Hgo]. exfalso. apply (Forall_lookup_1 _ _ 0%nat thread_events) in Hfin; [discriminate Hfin|reflexivity].
Defined.
