(* ===== verification/LifeSample.v ===== *)
(** * Lifetimes on the sample axiom

    That the sample axiom, over an allocator that never fails, does for transactions what
    [TxnLifecycle] asks for. *)

From S2P Require Import Prelude Vector Strings Time StringPool Metrics.
From S2P Require Import HashMap SegmentChildren Slab Datastore Slowsqls Txn Config Segment SegmentEnd Sdk SdkSample.
From S2P Require Import SdkGlobal SdkTransaction SdkSegment Session Transactions SessionEnds Frames Calls Lifetimes.

(** An allocator that never fails: the objects are numbered. *)
#[export] Instance plain_allocator : ObjectAllocator unit Z.
Proof.
  refine {|
    oa_next m s := match s with None => Some (None, None, m) | Some _ => Some (Some m, Some tt, m + 1) end;
    oa_ok m slabs given := forall a, a ∈ given -> a < m |}; [done|].
  intros m slabs given t s r Hok Hs [= <-]. exists m, tt, (m + 1). split; [done|].
  split; [intros Hin; specialize (Hok m Hin); lia|]. intros a [->%elem_of_singleton|Ha]%elem_of_union; [lia|]. specialize (Hok a Ha). lia.
Defined.

#[export] Instance plain_axiom : AxiomLib unit nrstrpool_t Z sample_state sample_object := sample_lib (fun m => Some (Some tt, m)).

Abbreviation plain_world := (world unit nrstrpool_t Z).
Abbreviation plain_sdk := (sdk unit nrstrpool_t Z sample_state sample_object).


Implicit Types (w : plain_world) (kids : seg_ptr -> list seg_ptr) (k : Z).

(** ** Beginning *)

Lemma no_names k : k < 2 ^ 29 -> Z.of_nat (length (@nil cstr)) + k + NR_STRPOOL_INCREASE_SIZE < 2 ^ 31.
Proof. cbn [length Z.of_nat]. unfold NR_STRPOOL_INCREASE_SIZE. lia. Qed.

Lemma blank_live k (segments : gmap seg_ptr nr_segment_t) tp opts now :
  k < 2 ^ 29 -> (forall p s, segments !! p = Some s -> s_txn s <> Some tp) -> txn_live k segments tp (blank_txn opts tt now).
Proof.
  intros Hk Hnone. constructor.
  - by eexists.
  - exists nr_string_pool_create, []. split; [reflexivity|]. split; [exact (pool_create_holds (P := nrstrpool_t))|].
    split; [by apply no_names|]. intros p s Hp Ho. by destruct (Hnone p s Hp).
  - destruct (nrm_table_create_rep 0) as [Hrep _]; [lia|]. exists (nrm_table_create 0), []. split; [reflexivity|]. split; [exact Hrep|].
    apply no_names, Hk.
  - intros r [=].
  - exists nr_string_pool_create, []. split; [reflexivity|]. split; [exact (pool_create_holds (P := nrstrpool_t))|]. by apply no_names.
Qed.

(** A transaction of no segments in the memory. *)
Lemma memory_ok_new k w kids tp opts now :
  memory_ok k w kids -> w_txns w !! tp = None -> memory_ok k (put_txn tp (blank_txn opts tt now) w) kids.
Proof.
  intros [Hw Hsize Hlive] Htp. destruct Hw as [Hf Hseg Htxn (slabs & given & Hok & Hslab & Hgiven)].
  assert (Hgrow : forall tq, is_Some (w_txns w !! tq) -> is_Some (<[tp := blank_txn opts tt now]> (w_txns w) !! tq))
    by (intros tq Hq; apply lookup_insert_is_Some'; by right).
  constructor; [constructor| |]; cbn [w_segments w_txns w_mem put_txn set_txns].
  - done.
  - intros p s Hp. destruct (Hseg p s Hp) as [? (tq & Hq & Hin) ?]. constructor; [done| |done]. exists tq. split; [done|by apply Hgrow].
  - intros tq t [[<- <-]|[_ Hq]]%lookup_insert_Some; [|by apply Htxn]. constructor.
    + exists []. split; [|by intros p ?%elem_of_nil]. split; [|constructor].
      split; [done|]. split; [done|]. split; [done|]. by exists (replicate 32 None).
    + eexists _, []. split; [done|]. exact (pool_create_holds (P := nrstrpool_t)).
  - exists ((fun _ => tt) <$> <[tp := blank_txn opts tt now]> (w_txns w)), given. split; [exact Hok|]. split; [|done].
    intros tq t [] Hq _. cbn [w_txns put_txn set_txns] in Hq. by rewrite lookup_fmap, Hq.
  - lia.
  - intros tq t [[<- <-]|[_ Hq]]%lookup_insert_Some.
    + apply blank_live; [lia|]. intros p s Hp Ho. destruct (Hseg p s Hp) as [_ (tq & Hq & [t Ht]) _]. congruence.
    + by apply Hlive.
Qed.

(** The clock changes nothing of it. *)
Lemma memory_ok_same k w w' kids :
  w_segments w' = w_segments w -> w_txns w' = w_txns w -> w_mem w' = w_mem w -> memory_ok k w kids -> memory_ok k w' kids.
Proof.
  intros E1 E2 E3 [[Hf Hseg Htxn Hslabs] Hsize Hlive]. unfold slabs_hold in Hslabs.
  constructor; [constructor|rewrite E1; done|]; unfold slabs_hold; rewrite ?E1, ?E2, ?E3; done.
Qed.

(** A root for a transaction. *)
Lemma memory_ok_root k w kids tp t root :
  memory_ok k w kids -> w_txns w !! tp = Some t -> owned (w_segments w) tp root ->
  memory_ok k (put_txn tp (with_segment_root (Some root) t) w) kids.
Proof.
  intros [Hw Hsize Hlive] Ht Hroot. constructor; [|done|].
  - eapply world_ok_txn; [done|done| |done]. by destruct (wo_txns _ _ Hw tp t Ht).
  - intros tq tt. cbn [w_txns w_segments put_txn set_txns]. intros [[<- <-]|[_ Hq]]%lookup_insert_Some; [|by apply Hlive].
    destruct (Hlive tp t Ht) as [H1 H2 H3 H4 H5]. constructor; try done. intros r [= <-]. done.
Qed.

Lemma plain_begin k w kids app opts a txn w' a' :
  memory_ok (k + 1) w kids -> 0 <= k -> nr_txn_begin app opts w a = (txn, w', a') ->
  exists kids', memory_ok k w' kids' /\ grows w w'
    /\ match txn with
       | None => dom (w_txns w') = dom (w_txns w)
       | Some tp => w_txns w !! tp = None /\ dom (w_txns w') = {[tp]} ∪ dom (w_txns w)
           /\ exists t, w_txns w' !! tp = Some t /\ path_is_frozen (t_status t) = 0
              /\ path_type_int (path_type (t_status t)) <= path_type_int NR_PATH_TYPE_ACTION
              /\ recording (t_status t) <> 0
       end.
Proof.
  intros Hm Hk. cbn [nr_txn_begin plain_axiom sample_lib]. unfold sample_begin.
  set (tp := fresh (dom (w_txns w))). assert (Htp : w_txns w !! tp = None) by (apply not_elem_of_dom, is_fresh).
  destruct (read_clock sample_clock w) as [now w1] eqn:Eclock.
  assert (Ew1 : w1 = mk_world (w_segments w) (w_txns w) (w_stacks w) (w_mem w) (Datatypes.S (w_tick w))).
  { unfold read_clock in Eclock. destruct (sample_clock (w_tick w)). by injection Eclock as _ <-. }
  set (w2 := set_mem (w_mem w) (put_txn tp (blank_txn opts tt now) w1)).
  assert (Hm2 : memory_ok (k + 1) w2 kids).
  { apply (memory_ok_same _ (put_txn tp (blank_txn opts tt now) w1)); try done; [by subst w1|].
    apply memory_ok_new; [|by subst w1]. apply (memory_ok_same _ w); by subst w1. }
  assert (Ht2 : w_txns w2 !! tp = Some (blank_txn opts tt now)) by apply lookup_insert_eq.
  destruct (nr_segment_start_ok sample_realloc sample_clock permissive_roomy k w2 kids tp _ Hm2 Hk Ht2)
    as (l & p & w3 & kids3 & Hl & Hrun & Hm3 & Hg3 & Hst); [done|done|].
  rewrite Hrun. destruct (sa_txns _ _ _ _ _ _ _ _ Hst) as (slab & v & Et3 & _). rewrite Et3, lookup_insert_eq.
  set (t3 := with_default_parent_stack v _). intros [= <- <- <-]. exists kids3. subst w1.
  assert (Hown : owned (w_segments w3) tp p) by (eexists; split; [exact (sa_segment _ _ _ _ _ _ _ _ Hst)|done]).
  split; [apply memory_ok_root; [done|by rewrite Et3, lookup_insert_eq|done]|].
  split.
  { eapply grows_trans; [|apply grows_txn]. eapply grows_trans; [|exact Hg3].
    constructor; [intros q s Hs; by exists s|]. intros tq Hq. apply lookup_insert_is_Some'. by right. }
  split; [done|]. split.
  - cbn [w_txns put_txn set_txns]. rewrite Et3. cbn [w_txns w2 set_mem put_txn set_txns].
    rewrite !dom_insert_L. by rewrite !(assoc_L (∪)), !union_idemp_L.
  - exists (with_segment_root (Some p) t3). split; [apply lookup_insert_eq|]. by vm_compute.
Qed.

(** ** Ending *)

Definition kept_segment (tp : txn_ptr) (segments : gmap seg_ptr nr_segment_t) (p : seg_ptr) : bool :=
  match segments !! p with Some s => negb (bool_decide (s_txn s = Some tp)) | None => true end.

Definition without_txn (tp : txn_ptr) (segments : gmap seg_ptr nr_segment_t) : gmap seg_ptr nr_segment_t :=
  filter (fun x => x.2.(s_txn) <> Some tp) segments.

Lemma without_txn_lookup tp segments p s :
  without_txn tp segments !! p = Some s <-> segments !! p = Some s /\ s_txn s <> Some tp.
Proof. unfold without_txn. by rewrite map_lookup_filter_Some. Qed.

(** A forest without the trees of a transaction. *)
Lemma forest_without tp segments kids :
  forest segments kids ->
  forest (without_txn tp segments) (fun p => if kept_segment tp segments p then kids p else []).
Proof.
  intros [Hch Hlink Hpar Hnd Hchain].
  assert (Hkept : forall p s, segments !! p = Some s -> kept_segment tp segments p = true <-> s_txn s <> Some tp).
  { intros p s Hp. unfold kept_segment. rewrite Hp. by rewrite negb_true_iff, bool_decide_eq_false. }
  constructor.
  - intros p s [Hp Hs]%without_txn_lookup. rewrite (proj2 (Hkept p s Hp) Hs). by apply Hch.
  - intros p c. split.
    + intros Hc. destruct (kept_segment tp segments p) eqn:Ek; [|by apply elem_of_nil in Hc].
      apply Hlink in Hc as (s & Hs & Hp). exists s. split; [|done]. apply without_txn_lookup. split; [done|].
      destruct (Hpar c s p Hs Hp) as (sp & Hsp & <-). by apply (Hkept p).
    + intros (s & [Hs Ho]%without_txn_lookup & Hp). destruct (Hpar c s p Hs Hp) as (sp & Hsp & E).
      rewrite (proj2 (Hkept p sp Hsp)) by congruence. apply Hlink. by exists s.
  - intros c s p [Hs Ho]%without_txn_lookup Hp. destruct (Hpar c s p Hs Hp) as (sp & Hsp & E). exists sp. split; [|done].
    apply without_txn_lookup. split; [done|congruence].
  - intros p. destruct (kept_segment tp segments p); [apply Hnd|constructor].
  - intros p [s [Hs Ho]%without_txn_lookup]. destruct (Hchain p) as [l Hl]; [by eexists|]. exists l. revert s Hs Ho.
    induction Hl as [p Hr|p q l Hr Hl IH]; intros s Hs Ho.
    + apply chain_root. unfold parent_in in *. rewrite Hs in Hr. cbn in Hr.
      by rewrite (proj2 (without_txn_lookup tp segments p s)).
    + unfold parent_in in Hr. rewrite Hs in Hr. cbn in Hr. destruct (Hpar p s q Hs Hr) as (sq & Hsq & E).
      apply (chain_step _ p q); [|apply (IH sq Hsq); congruence]. unfold parent_in.
      by rewrite (proj2 (without_txn_lookup tp segments p s)).
Qed.

Lemma owned_without tp segments tq p : tq <> tp -> owned segments tq p -> owned (without_txn tp segments) tq p.
Proof. intros Hne (s & Hs & Ho). exists s. split; [|done]. apply without_txn_lookup. split; [done|congruence]. Qed.

Lemma memory_ok_forget k w kids tp :
  memory_ok k w kids -> exists kids', memory_ok k (forget_txn tp w) kids' /\ without tp w (forget_txn tp w).
Proof.
  intros [[Hf Hseg Htxn (slabs & given & Hok & Hslab & Hgiven)] Hsize Hlive].
  exists (fun p => if kept_segment tp (w_segments w) p then kids p else []). split.
  - constructor; [constructor| |].
    + by apply forest_without.
    + intros p s [Hp Hs]%without_txn_lookup. destruct (Hseg p s Hp) as [? (tq & Hq & Hin) ?]. constructor; [done| |done].
      exists tq. split; [done|]. cbn. rewrite lookup_delete_ne; [done|congruence].
    + intros tq t Hq. cbn [w_txns forget_txn set_txns] in Hq. apply lookup_delete_Some in Hq as [Hne Hq]. eapply txn_ok_owned; [|by apply Htxn].
      intros p. apply owned_without. congruence.
    + exists slabs, given. split; [done|]. split.
      { intros tq t s Hq. cbn [w_txns forget_txn set_txns] in Hq. apply lookup_delete_Some in Hq as [_ Hq]. by apply Hslab. }
      intros p [s [Hp _]%without_txn_lookup]. apply Hgiven. by eexists.
    + cbn. pose proof (map_size_filter (fun x => x.2.(s_txn) <> Some tp) (w_segments w)). unfold without_txn in *. lia.
    + intros tq t Hq. cbn [w_txns forget_txn set_txns] in Hq. apply lookup_delete_Some in Hq as [Hne Hq]. eapply (txn_live_le k k); [lia| | |by apply Hlive].
      * intros p. apply owned_without. congruence.
      * intros p s [Hp _]%without_txn_lookup. right. by exists s.
  - constructor; [|cbn; apply dom_delete_L].
    intros p s Hp Ho. exists s. split; [by apply without_txn_lookup|done].
Qed.

#[export] Instance plain_lifecycle : TxnLifecycle unit nrstrpool_t Z sample_state sample_object.
Proof.
  assert (Hsame : forall {T : Type} (r : T), changes_txn (fun (_ : txn_ptr) (w : plain_world) (a : sample_state) => Some (r, w, a))).
  { intros T r k w kids tp a Hm Hk _. exists r, w, a, kids. split; [done|]. split; [by eapply memory_ok_le; [|exact Hm]; lia|].
    split; [apply grows_refl|reflexivity]. }
  constructor; [| |intros root; exact (Hsame _ (Some (str "payload")))|intros p t; exact (Hsame _ true)..].
  - exact plain_begin.
  - intros k w kids tp a Hm Hk Ht. exists w, a. split; [done|]. split; [done|]. intros a2.
    destruct (memory_ok_forget k w kids tp Hm) as (kids' & Hm' & Hw'). by exists (forget_txn tp w), a2, kids'.
Qed.
