(* ===== verification/LifeBehaviour.v ===== *)
(** * What a process can rely on

    The theorem about all the calls of the API from the start of a process to its end. *)

From S2P Require Import Prelude Vector Strings Time StringPool Metrics.
From S2P Require Import HashMap SegmentChildren Slab Datastore Slowsqls Txn Config Segment SegmentEnd Sdk SdkSample.
From S2P Require Import SdkGlobal SdkTransaction SdkSegment Session Transactions SessionEnds Frames Calls Lifetimes LifeSample.

Section Decide.
Context {S P M A O : Type} `{NamePool P} `{ObjectAllocator S M} `{!AxiomLib S P M A O}.
Context (realloc_ok : Z -> bool) (clock : nat -> Z * Z) (NEWRELIC_VERSION : cstr) (HAVE_BACKTRACE : bool).

Implicit Types (s : sdk S P M A O).

(** Validity as a boolean function. *)
Definition terminatedb (c : newrelic_app_config_t) : bool :=
  (strlen (app_name c) <? 255) && (strlen (license_key c) <? 255) && (strlen (redirect_collector c) <? 100).

Definition segments_endedb s (x : sdk_txn_ptr) : bool :=
  match sd_txns s !! x with
  | Some tx => forallb (fun sg => negb (bool_decide (sg_transaction sg = Some (tx_txn tx)))) (map snd (map_to_list (sd_segments s)))
  | None => true
  end.

Definition life_validb (c : life_call (O := O)) s : bool :=
  match c with
  | Setup _ => true
  | CreateApp config _ => terminatedb config
  | DestroyApp a => is_some (sd_apps s !! a)
  | StartTransaction a _ _ => is_some (sd_apps s !! a)
  | EndTransaction x => is_some (sd_txns s !! x) && segments_endedb s x
  | CreatePayload x segment _ => is_some (sd_txns s !! x) && from_option (fun p => is_some (sd_segments s !! p)) true segment
  | AcceptPayload x _ _ _ => is_some (sd_txns s !! x)
  | Within c => api_validb c s
  end.

Fixpoint lifetime_validb (calls : list (life_call (O := O))) s : bool :=
  match calls with
  | [] => true
  | c :: calls => life_validb c s
      && match life_run realloc_ok clock NEWRELIC_VERSION HAVE_BACKTRACE c s with Some (_, s') => lifetime_validb calls s' | None => true end
  end.

Lemma segments_endedb_ok s x : segments_endedb s x = true -> segments_ended s x.
Proof.
  unfold segments_endedb. intros E tx p sg Hx Hp Ho. rewrite Hx, forallb_forall in E.
  specialize (E sg). rewrite bool_decide_eq_true_2 in E by done. discriminate E.
  apply in_map_iff. exists (p, sg). split; [done|]. by apply list_elem_of_In, elem_of_map_to_list.
Qed.

Lemma life_validb_ok c s : life_validb c s = true -> life_valid c s.
Proof.
  destruct c; cbn [life_validb life_valid]; rewrite ?andb_true_iff, ?is_some_iff; try done.
  - unfold terminatedb, terminated. rewrite !andb_true_iff, !Z.ltb_lt. tauto.
  - intros [? ?]. split; [done|by apply segments_endedb_ok].
  - intros [? E]. split; [done|]. intros p ->. by apply is_some_iff.
  - apply api_validb_ok.
Qed.

Lemma lifetime_validb_ok calls s :
  lifetime_validb calls s = true -> lifetime_valid realloc_ok clock NEWRELIC_VERSION HAVE_BACKTRACE calls s.
Proof.
  revert s. induction calls as [|c calls IH]; intros s; cbn [lifetime_validb lifetime_valid]; [done|].
  intros [Hc Hv]%andb_true_iff. split; [by apply life_validb_ok|]. intros s' E. rewrite E in Hv. by apply IH.
Qed.

End Decide.

(* @about newrelic_init newrelic_configure_log newrelic_create_app newrelic_destroy_app newrelic_start_transaction newrelic_end_transaction newrelic_create_distributed_trace_payload newrelic_create_distributed_trace_payload_httpsafe newrelic_accept_distributed_trace_payload newrelic_accept_distributed_trace_payload_httpsafe newrelic_start_segment newrelic_end_segment *)
(** C2 (safety): a whole process.  From its start, with nothing initialised, the application makes
    fewer than 2^25 calls of the API in any order, each of which is valid: handles were given and not
    given back; the segments of a transaction end before it; a custom segment is only started in a
    transaction that was not ignored, where it would dereference NULL, and any segment only while there
    is memory; custom metrics convert to unsigned milliseconds or are NaN or infinite; strings fit, and
    no query ends in a backslash inside a string.  Setting up, connecting and starting may fail.  If axiom
    keeps to what it promises about transactions, every call returns, none dereferences a NULL or dead
    pointer or waits for a lock that is held, and afterwards the state is in order: every transaction of
    axiom has exactly one handle, every wrapper is of a live segment and transaction, the segments are a
    forest, every lock is free.  When every transaction has been ended, axiom holds no transaction and no
    segment any more. *)
Theorem newrelic_lifetime_safe {S P M A O : Type} `{NamePool P} `{ObjectAllocator S M} `{!AxiomLib S P M A O}
  `{!TxnLifecycle S P M A O} (realloc_ok : Z -> bool) (clock : nat -> Z * Z) (version : cstr) (HAVE_BACKTRACE : bool)
  (calls : list (life_call (O := O))) (mem : M) (a : A) :
  roomy realloc_ok -> strlen version < LIMIT -> oa_ok mem empty empty -> 16 * Z.of_nat (length calls) < 2 ^ 29 ->
  lifetime_valid realloc_ok clock version HAVE_BACKTRACE calls (initial_sdk (O := O) mem a) ->
  exists s kids, lifetime_run realloc_ok clock version HAVE_BACKTRACE calls (initial_sdk mem a) = Some (tt, s)
    /\ handled s /\ apps_free (sd_apps s) /\ forest (w_segments (sd_world s)) kids
    /\ (forall p sg, sd_segments s !! p = Some sg -> wrapper_ok (w_segments (sd_world s)) (sd_txns s) sg)
    /\ (forall x tx, sd_txns s !! x = Some tx -> tx_lock tx = free_lock) /\ mu_locked (sd_mutex s) = false
    /\ (sd_txns s = empty -> w_txns (sd_world s) = empty /\ w_segments (sd_world s) = empty).
Proof.
  intros Hroomy Hversion Hmem Hlen Hv.
  destruct (lifetime_run_ok realloc_ok clock version HAVE_BACKTRACE Hversion Hroomy calls 0 (initial_sdk mem a) (fun _ => []))
    as (s & kids & Hrun & Hok); [apply initial_life_ok; [done|lia]|done|done|].
  pose proof (lo_sdk _ _ _ Hok) as Hsdk. exists s, kids. split; [done|]. split; [apply Hok|]. split; [apply Hok|].
  split; [apply Hsdk|]. split; [apply Hsdk|]. split; [intros x tx Hx; by apply (so_txns _ _ _ Hsdk x tx)|].
  split; [apply Hsdk|]. by eapply no_handles_no_memory.
Qed.

(** ** Witness *)

Definition plain_config : newrelic_app_config_t := default_config (str "shop") (replicate 40 97).

(** A process with one transaction, a segment in a segment, and an end of everything. *)
Definition plain_calls : list (life_call (O := sample_object)) :=
  [Setup (Init None 0); CreateApp plain_config 10; StartTransaction 1 (Some (str "checkout")) true;
   Within (StartSegment 1 (Some (str "a")) None); Within (StartSegment 1 None None); CreatePayload 1 (Some 1%positive) true;
   Within (EndSegment (Some 1%positive) 2); Within (EndSegment (Some 1%positive) 1); EndTransaction 1; DestroyApp 1].

Lemma plain_memory_ok : oa_ok 0 (∅ : gmap positive unit) ∅.
Proof. intros a Ha. exfalso. exact (not_elem_of_empty (C := gset Z) a Ha). Qed.

Lemma newrelic_lifetime_safe_witness :
  exists s : plain_sdk, lifetime_run sample_realloc sample_clock (str "1.0") false plain_calls (initial_sdk 0 []) = Some (tt, s)
    /\ handled s /\ w_segments (sd_world s) = empty.
Proof.
  assert (Hv : lifetime_validb sample_realloc sample_clock (str "1.0") false plain_calls (initial_sdk (P := nrstrpool_t) 0 []) = true)
    by by vm_compute.
  destruct (newrelic_lifetime_safe (P := nrstrpool_t) sample_realloc sample_clock (str "1.0") false plain_calls 0 [])
    as (s & kids & Hrun & Hh & _ & _ & _ & _ & _ & Hleak).
  - exact permissive_roomy.
  - by vm_compute.
  - exact plain_memory_ok.
  - by vm_compute.
  - apply lifetime_validb_ok. exact Hv.
  - exists s. split; [exact Hrun|]. split; [exact Hh|]. apply Hleak.
    assert (Htxns : (fun r => sd_txns r.2) <$> lifetime_run sample_realloc sample_clock (str "1.0") false plain_calls (initial_sdk (P := nrstrpool_t) 0 [])
      = Some empty) by by vm_compute.
    rewrite Hrun in Htxns. by injection Htxns.
Defined.
