(* ===== verification/Examples.v ===== *)
(** * The example programs

    [examples/common.c] and the programs [examples/ex_*.c], over the API: what a program starts with
    (its environment), what it shares with other programs (files), what it allocates, what it prints. *)

From Stdlib Require Import SpecFloat.
From S2P Require Import Prelude Vector Strings Time StringPool Metrics.
From S2P Require Import HashMap SegmentChildren Slab Datastore Slowsqls Txn Config Segment SegmentEnd Sdk SdkSample.
From S2P Require Import SdkGlobal SdkTransaction SdkSegment.

(** ** What a program works on *)

(** The bytes of a file; of one that is not a regular file (a FIFO, a device) also what [ftell] says at
    its end, -1 when there is none to seek. *)
Inductive file : Type :=
  | Regular (bytes : list Z)
  | Special (bytes : list Z) (at_end : Z).

Definition file_bytes (f : file) : list Z := match f with Regular bytes | Special bytes _ => bytes end.
Definition ftell_at_end (f : file) : Z := match f with Regular bytes => Z.of_nat (length bytes) | Special _ at_end => at_end end.
Definition with_bytes (bytes : list Z) (f : file) : file :=
  match f with Regular _ => Regular bytes | Special _ at_end => Special bytes at_end end.

(** Names of files and the files; an open file stays when its name goes. *)
Record file_system : Type := mk_files {
  fs_names : gmap cstr positive;
  fs_contents : gmap positive file;
}.

Definition file_at (f : file_system) (i : positive) : file := default (Regular []) (fs_contents f !! i).

(** What there is beside the SDK: the files, the strings the program allocated and has not freed, the
    text printed so far, and how many times the program let others run. *)
Record surroundings : Type := mk_surroundings {
  su_files : file_system;
  su_strings : gmap positive cstr;
  su_out : list cstr;
  su_turns : nat;
}.

(** The state of a program: the SDK in its process, and what is beside it. *)
Record process (S P M A O : Type) : Type := mk_process {
  pr_sdk : sdk S P M A O;
  pr_beside : surroundings;
}.
Arguments mk_process {S P M A O}.
Arguments pr_sdk {S P M A O}.
Arguments pr_beside {S P M A O}.

Definition program (S P M A O T : Type) : Type := process S P M A O -> option (T * process S P M A O).

#[export] Instance program_ret {S P M A O} : MRet (program S P M A O) := fun T x s => Some (x, s).
#[export] Instance program_bind {S P M A O} : MBind (program S P M A O) :=
  fun T U k m s => match m s with Some (x, s') => k x s' | None => None end.

(** Conversion of an [int] to [double]; the division of doubles is correctly rounded, so a decimal
    constant with few digits is a quotient of two of them. *)
Definition double_of_int (n : Z) : double := binary_normalize 53 1024 n 0 false.
Definition double_quotient (m n : Z) : double := SFdiv 53 1024 (double_of_int m) (double_of_int n).

Definition newline : cstr := [10].

(* @map common.h:17-17 NEWRELIC_MS_PER_SEC *)
Definition NEWRELIC_MS_PER_SEC : Z := 1000000.

(* @map common.h:19-21 ENV_NOTICE *)
Definition ENV_NOTICE : cstr :=
  str "This example program depends on environment variables NEW_RELIC_APP_NAME "
  ++ str "and NEW_RELIC_LICENSE_KEY.".

(* @map ex_distributed_tracing_client.c:18-18 REQUEST_FILE *)
Definition REQUEST_FILE : cstr := str "/tmp/request".
(* @map ex_distributed_tracing_client.c:19-19 RESPONSE_FILE *)
Definition RESPONSE_FILE : cstr := str "/tmp/response".

(** [strcpy] into an array: the string with its end, when they fit. *)
Definition strcpy (dest : list Z) (src : cstr) : option (list Z) := write_at dest 0 (c_str src ++ [0]).

(** The settings of a configuration that the examples write. *)
Definition set_redirect_collector (v : list Z) (c : newrelic_app_config_t) : newrelic_app_config_t :=
  mk_config (app_name c) (license_key c) v (log_filename c) (log_level c) (transaction_tracer c)
    (datastore_tracer c) (distributed_tracing c) (span_events c).
Definition set_threshold (threshold : newrelic_transaction_tracer_threshold_t) (duration : newrelic_time_us_t)
  (c : newrelic_app_config_t) : newrelic_app_config_t :=
  let t := transaction_tracer c in
  mk_config (app_name c) (license_key c) (redirect_collector c) (log_filename c) (log_level c)
    (mk_tracer (tracer_enabled t) threshold duration (tracer_stack_trace_threshold_us t) (tracer_datastore_reporting t))
    (datastore_tracer c) (distributed_tracing c) (span_events c).
Definition set_distributed_tracing (v : bool) (c : newrelic_app_config_t) : newrelic_app_config_t :=
  mk_config (app_name c) (license_key c) (redirect_collector c) (log_filename c) (log_level c) (transaction_tracer c)
    (datastore_tracer c) (mk_distributed_tracing v) (span_events c).

Section Programs.
Context {S P M A O : Type} `{NamePool P} `{ObjectAllocator S M} `{AxiomLib S P M A O}.
Context (realloc_ok : Z -> bool) (clock : nat -> Z * Z) (NEWRELIC_VERSION : cstr) (HAVE_BACKTRACE : bool).
(** The environment; which files can be written; what other programs do to the files while this one
    waits or looks for a file, the first time, the second time, and so on. *)
Context (getenv : cstr -> option cstr) (may_write : cstr -> bool) (others : nat -> file_system -> file_system).

Abbreviation prog := (prog S P M A O).
Abbreviation process := (process S P M A O).
Abbreviation program := (program S P M A O).

(** A call of the API. *)
Definition api {T : Type} (m : prog T) : program T :=
  fun s => match m (pr_sdk s) with
           | Some (x, v) => Some (x, mk_process v (pr_beside s))
           | None => None
           end.
Definition crash_if_none {T : Type} (o : option T) : program T := fun s => match o with Some x => Some (x, s) | None => None end.

(** A step beside the SDK. *)
Definition outside {T : Type} (f : surroundings -> option (T * surroundings)) : program T :=
  fun s => match f (pr_beside s) with
           | Some (x, b) => Some (x, mk_process (pr_sdk s) b)
           | None => None
           end.

Definition printf (text : cstr) : program unit :=
  outside (fun b => Some (tt, mk_surroundings (su_files b) (su_strings b) (su_out b ++ [text]) (su_turns b))).

(** Other programs run. *)
Definition others_run : program unit :=
  outside (fun b => Some (tt, mk_surroundings (others (su_turns b) (su_files b)) (su_strings b) (su_out b) (Datatypes.S (su_turns b)))).
Definition sleep (seconds : Z) : program unit := others_run.

Definition with_files (f : file_system) (b : surroundings) : surroundings :=
  mk_surroundings f (su_strings b) (su_out b) (su_turns b).
Definition set_files (f : file_system -> file_system) : program unit :=
  outside (fun b => Some (tt, with_files (f (su_files b)) b)).

(** [fopen] for reading and for writing, which empties a regular file that is there; [fprintf] of a
    string to a file that was opened for writing; [unlink]. *)
Definition fopen_r (name : cstr) : program (option positive) :=
  outside (fun b => Some (fs_names (su_files b) !! name, b)).

Definition emptied (f : file) : file := match f with Regular _ => Regular [] | Special _ _ => f end.

Definition fopen_w (name : cstr) : program (option positive) :=
  if may_write name then
    outside (fun b =>
      let f := su_files b in
      let i := default (fresh (dom (fs_contents f))) (fs_names f !! name) in
      Some (Some i, with_files (mk_files (<[name := i]> (fs_names f)) (<[i := emptied (file_at f i)]> (fs_contents f))) b))
  else mret None.

Definition fprintf (file : positive) (text : cstr) : program unit :=
  set_files (fun f => mk_files (fs_names f)
    (<[file := with_bytes (file_bytes (file_at f file) ++ c_str text) (file_at f file)]> (fs_contents f))).

Definition unlink (name : cstr) : program unit := set_files (fun f => mk_files (delete name (fs_names f)) (fs_contents f)).

(** A block that holds a string: one more; reading it; freeing it, which has no defined behaviour
    for a block that is not live. *)
Definition with_strings (strings : gmap positive cstr) (b : surroundings) : surroundings :=
  mk_surroundings (su_files b) strings (su_out b) (su_turns b).
Definition new_string (text : cstr) (b : surroundings) : positive * surroundings :=
  let p := fresh (dom (su_strings b)) in (p, with_strings (<[p := text]> (su_strings b)) b).

Definition owned (text : option cstr) : program (option positive) :=
  match text with
  | None => mret None
  | Some text => outside (fun b => let '(p, b) := new_string text b in Some (Some p, b))
  end.

Definition string_at (p : option positive) : program (option cstr) :=
  match p with
  | None => mret None
  | Some p => outside (fun b => text ← su_strings b !! p; Some (Some text, b))
  end.

Definition free (p : option positive) : program unit :=
  match p with
  | None => mret tt
  | Some p => outside (fun b => _ ← su_strings b !! p; Some (tt, with_strings (delete p (su_strings b)) b))
  end.

(** ** [common.c] *)

(** The result, and what [*config_ptr] is afterwards. *)
(* @map common.c:22-36 customize_config *)
Definition customize_config (config_ptr : option (option newrelic_app_config_t))
  : program (bool * option (option newrelic_app_config_t)) :=
  match config_ptr with
  | Some (Some config) =>
      match getenv (str "NEW_RELIC_HOST") with
      | Some collector =>
          v ← crash_if_none (strcpy (redirect_collector config) collector);
          mret (true, Some (Some (set_redirect_collector v config)))
      | None =>
          _ ← printf (str "Using default SDK configuration for collector..." ++ newline);
          mret (true, config_ptr)
      end
  | _ => mret (false, config_ptr)
  end.

(* @map common.c:38-45 example_init *)
Definition example_init : program bool :=
  configured ← api (newrelic_configure_log (Some (str "./c_sdk.log")) NEWRELIC_LOG_INFO);
  if negb configured then
    _ ← printf (str "Error configuring logging." ++ newline);
    mret false
  else api (newrelic_init None 0).

(* @map common.c:54-65 get_app_name *)
Definition get_app_name : program (option cstr) :=
  match getenv (str "NEW_RELIC_APP_NAME") with
  | None =>
      _ ← printf ENV_NOTICE;
      _ ← printf (newline ++ str "Environment variable NEW_RELIC_APP_NAME must be set to a meaningful "
                  ++ str "application name." ++ newline);
      mret None
  | Some app_name => mret (Some app_name)
  end.

(* @map common.c:73-85 get_license_key *)
Definition get_license_key : program (option cstr) :=
  match getenv (str "NEW_RELIC_LICENSE_KEY") with
  | None =>
      _ ← printf ENV_NOTICE;
      _ ← printf (newline ++ str "Environment variable NEW_RELIC_LICENSE_KEY must be set to a valid "
                  ++ str "New " ++ str "Relic license key." ++ newline);
      mret None
  | Some license_key => mret (Some license_key)
  end.

(* @map common.c:92-100 now_us *)
Definition now_us : program newrelic_time_us_t :=
  api (on_world (fun w => let '(tv_sec, tv_usec) := clock (w_tick w) in
                          Some (u64 (u64 (tv_sec * NEWRELIC_MS_PER_SEC) + tv_usec), snd (read_clock clock w)))).

(** ** What the examples have in common *)

(** Connecting an application: [None] when a variable is missing and the program is to end with -1,
    or else the application, NULL if that failed.  [tracing] says whether the settings of the
    transaction tracer are changed, [distributed] whether distributed tracing is enabled: without a
    configuration both write through NULL. *)
(* @map ex_segment.c:20-40 main *)
Definition example_app (tracing distributed : bool) : program (option (option app_ptr)) :=
  _ ← example_init;
  app_name ← get_app_name;
  match app_name with
  | None => mret None
  | Some _ =>
      license_key ← get_license_key;
      match license_key with
      | None => mret None
      | Some _ =>
          config ← crash_if_none (newrelic_create_app_config app_name license_key);
          '(_, config) ← customize_config (Some config);
          let config := from_option id None config in
          config ← (if tracing then
                      c ← crash_if_none config;
                      mret (Some (set_threshold NEWRELIC_THRESHOLD_IS_OVER_DURATION 1 c))
                    else mret config);
          config ← (if distributed then c ← crash_if_none config; mret (Some (set_distributed_tracing true c))
                    else mret config);
          app ← api (newrelic_create_app NEWRELIC_VERSION config 10000);
          let config := from_option id None (snd (newrelic_destroy_app_config (Some config))) in
          mret (Some app)
      end
  end.

(** The variable a call set to NULL or left. *)
Definition pointee {T : Type} (p : option (option T)) : option T := from_option id None p.

Definition end_segment (txn : option sdk_txn_ptr) (seg : option sdk_seg_ptr) : program (option sdk_seg_ptr) :=
  '(_, seg) ← api (newrelic_end_segment realloc_ok clock txn (Some seg)); mret (pointee seg).

(** The end of every example. *)
(* @map ex_segment.c:86-91 main *)
Definition example_end (txn : option sdk_txn_ptr) (app : option app_ptr) : program Z :=
  _ ← api (newrelic_end_transaction NEWRELIC_VERSION (Some txn));
  _ ← api (newrelic_destroy_app (Some app));
  mret 0.

(** ** The programs *)

(* @map ex_simple.c:13-50 main *)
Definition ex_simple : program Z :=
  config ← crash_if_none (newrelic_create_app_config (Some (str "YOUR_APP_NAME")) (Some (str "_NEW_RELIC_LICENSE_KEY_")));
  configured ← api (newrelic_configure_log (Some (str "./c_sdk.log")) NEWRELIC_LOG_INFO);
  if negb configured then
    _ ← printf (str "Error configuring logging." ++ newline);
    mret (-1)
  else
    ready ← api (newrelic_init None 0);
    if negb ready then
      _ ← printf (str "Error connecting to daemon." ++ newline);
      mret (-1)
    else
      app ← api (newrelic_create_app NEWRELIC_VERSION config 10000);
      let config := from_option id None (snd (newrelic_destroy_app_config (Some config))) in
      txn ← api (newrelic_start_web_transaction app (Some (str "Transaction name")));
      seg ← api (newrelic_start_segment realloc_ok clock txn (Some (str "Segment name")) (Some (str "Custom")));
      _ ← sleep 2;
      _ ← end_segment txn seg;
      example_end txn app.

(* @map ex_segment.c:11-92 main *)
Definition ex_segment : program Z :=
  connected ← example_app true false;
  match connected with
  | None => mret (-1)
  | Some app =>
      txn ← api (newrelic_start_web_transaction app (Some (str "ExampleWebTransaction")));
      now ← now_us;
      _ ← api (newrelic_set_transaction_timing txn now 5500000);
      seg ← api (newrelic_start_segment realloc_ok clock txn None None);
      _ ← sleep 1;
      _ ← end_segment txn seg;
      seg_a ← api (newrelic_start_segment realloc_ok clock txn (Some (str "A")) (Some (str "Parented by SDK")));
      _ ← sleep 1;
      seg ← api (newrelic_start_segment realloc_ok clock txn (Some (str "B")) (Some (str "Parented by SDK")));
      _ ← sleep 1;
      seg_c ← api (newrelic_start_segment realloc_ok clock txn (Some (str "C")) (Some (str "Manually reparented")));
      _ ← api (newrelic_set_segment_parent realloc_ok seg_c seg_a);
      _ ← api (newrelic_set_segment_timing seg_c 10 500000);
      _ ← end_segment txn seg_c;
      seg_d ← api (newrelic_start_segment realloc_ok clock txn (Some (str "D")) (Some (str "Manually reparented")));
      _ ← sleep 1;
      _ ← api (newrelic_set_segment_parent_root realloc_ok seg_d);
      _ ← end_segment txn seg_d;
      _ ← end_segment txn seg;
      _ ← end_segment txn seg_a;
      example_end txn app
  end.

(* @map ex_timing.c:8-54 main *)
Definition ex_timing : program Z :=
  connected ← example_app true false;
  match connected with
  | None => mret (-1)
  | Some app =>
      txn ← api (newrelic_start_web_transaction app (Some (str "ExampleWebTransaction")));
      now ← now_us;
      _ ← api (newrelic_set_transaction_timing txn now 2000000);
      seg ← api (newrelic_start_segment realloc_ok clock txn None None);
      _ ← sleep 1;
      _ ← api (newrelic_set_segment_timing seg 0 500000);
      _ ← end_segment txn seg;
      example_end txn app
  end.

(* @map ex_datastore.c:42-49 main *)
Definition datastore_example_params : newrelic_datastore_segment_params_t :=
  mk_datastore_params (Some (str "MySQL")) (Some (str "My_collection")) (Some (str "select")) (Some (str "Instance"))
    (Some (str "01")) None (Some (str "SELECT * FROM My_collection WHERE medical_patient is 'Foo Bar' ")).

(* @map ex_datastore.c:11-65 main *)
Definition ex_datastore : program Z :=
  connected ← example_app true false;
  match connected with
  | None => mret (-1)
  | Some app =>
      txn ← api (newrelic_start_web_transaction app (Some (str "ExampleWebTransaction")));
      segment ← api (newrelic_start_datastore_segment realloc_ok clock txn (Some datastore_example_params));
      _ ← sleep 2;
      _ ← end_segment txn segment;
      example_end txn app
  end.

(* @map ex_external.c:15-18 main *)
Definition external_example_params : newrelic_external_segment_params_t :=
  mk_external_params (Some (str "https://httpbin.org/delay/1")) (Some (str "GET")) None.

(* @map ex_external.c:11-60 main *)
Definition ex_external : program Z :=
  connected ← example_app true false;
  match connected with
  | None => mret (-1)
  | Some app =>
      txn ← api (newrelic_start_web_transaction app (Some (str "ExampleWebTransaction")));
      segment ← api (newrelic_start_external_segment realloc_ok clock txn (Some external_example_params));
      _ ← sleep 1;
      _ ← end_segment txn segment;
      example_end txn app
  end.

(* @map ex_custom.c:7-64 main *)
Definition ex_custom : program Z :=
  connected ← example_app true false;
  match connected with
  | None => mret (-1)
  | Some app =>
      txn ← api (newrelic_start_web_transaction app (Some (str "ExampleWebTransaction")));
      seg ← api (newrelic_start_segment realloc_ok clock txn None None);
      _ ← sleep 1;
      _ ← api (newrelic_record_custom_metric txn (Some (str "Custom/YourMetric/Label")) (double_of_int 100));
      custom_event ← api (newrelic_create_custom_event (Some (str "aTypeForYourEvent")));
      _ ← api (newrelic_custom_event_add_attribute_int custom_event (Some (str "keya")) 42);
      _ ← api (newrelic_custom_event_add_attribute_long custom_event (Some (str "keyb")) 84);
      _ ← api (newrelic_custom_event_add_attribute_double custom_event (Some (str "keyc")) (double_quotient 4242 100));
      _ ← api (newrelic_custom_event_add_attribute_string custom_event (Some (str "keyd")) (Some (str "A string")));
      _ ← api (newrelic_record_custom_event clock txn (Some custom_event));
      _ ← end_segment txn seg;
      example_end txn app
  end.

(* @map ex_notice_error.c:11-16 record_error *)
Definition record_error (txn : option sdk_txn_ptr) : program unit :=
  api (newrelic_notice_error clock HAVE_BACKTRACE txn 50 (Some (str "Meaningful error message"))
         (Some (str "Error.class.supervalu"))).

(* @map ex_notice_error.c:18-62 main *)
Definition ex_notice_error : program Z :=
  connected ← example_app false false;
  match connected with
  | None => mret (-1)
  | Some app =>
      txn ← api (newrelic_start_web_transaction app (Some (str "ExampleWebTransaction")));
      _ ← api (newrelic_add_attribute_int txn (Some (str "Custom_int")) (2 ^ 31 - 1));
      _ ← sleep 5;
      _ ← record_error txn;
      _ ← sleep 5;
      example_end txn app
  end.

(** ** Distributed tracing: the server *)

(** What a block of [len + 1] bytes holds after its first byte was set to zero and [fread] put up to
    [len] bytes of the file there: bytes that nothing wrote have no defined value. *)
Definition filled (len : Z) (bytes : list Z) : option cstr :=
  if Z.of_nat (length bytes) <? len then (match bytes with [] => Some [] | _ => None end)
  else Some (take (Z.to_nat len) bytes).

(** [realloc_ok] also says whether [malloc] can give a block of a size.  The terminator is written at
    [len], which is past the block when [ftell] failed: [len] is then the largest [size_t], and
    [len + 1] is zero. *)
(* @map ex_distributed_tracing_server.c:21-39 read_file *)
Definition read_file (fp : option positive) : program (option positive) :=
  match fp with
  | None => mret None
  | Some i => outside (fun b =>
      let f := file_at (su_files b) i in
      let len := u64 (ftell_at_end f) in
      let size := u64 (len + 1) in
      if realloc_ok size then
        if len <? size then
          text ← filled len (file_bytes f);
          let '(p, b) := new_string text b in
          Some (Some p, b)
        else None
      else Some (None, b))
  end.

(** One turn of the loop. *)
(* @map ex_distributed_tracing_server.c:77-123 main *)
Definition serve_once (app : option app_ptr) : program unit :=
  _ ← others_run;
  request_file ← fopen_r REQUEST_FILE;
  match request_file with
  | None => mret tt
  | Some file =>
      _ ← printf (str "Request received." ++ newline);
      txn ← api (newrelic_start_web_transaction app (Some (str "ExampleDTServer")));
      _ ← sleep 1;
      payload ← read_file (Some file);
      _ ← (match payload with
           | None => mret tt
           | Some _ =>
               _ ← printf (str "Accept payload." ++ newline);
               again ← read_file (Some file);
               text ← string_at again;
               _ ← api (newrelic_accept_distributed_trace_payload_httpsafe txn text (Some (str "Other")));
               free payload
           end);
      _ ← unlink REQUEST_FILE;
      response_file ← fopen_w RESPONSE_FILE;
      _ ← (match response_file with
           | Some _ => printf (str "Writing response." ++ newline ++ newline)
           | None =>
               _ ← api (newrelic_notice_error clock HAVE_BACKTRACE txn 50 (Some (str "Cannot send response"))
                          (Some (str "Error.class.response")));
               printf (str "Error writing response." ++ newline ++ newline)
           end);
      _ ← api (newrelic_end_transaction NEWRELIC_VERSION (Some txn));
      mret tt
  end.

Fixpoint serve (turns : nat) (app : option app_ptr) : program unit :=
  match turns with
  | Datatypes.O => mret tt
  | Datatypes.S turns => _ ← serve_once app; serve turns app
  end.

(** The loop never ends: the first [turns] turns of it.  [Some (-1)] is the end of the program, [None]
    that it runs on. *)
(* @map ex_distributed_tracing_server.c:41-129 main *)
Definition ex_distributed_tracing_server (turns : nat) : program (option Z) :=
  connected ← example_app true true;
  match connected with
  | None => mret (Some (-1))
  | Some app =>
      _ ← printf (str "Server started, ready to accept requests." ++ newline);
      _ ← unlink RESPONSE_FILE;
      _ ← serve turns app;
      mret None
  end.

(** ** Distributed tracing: the client *)

(** Looking for the response at most [looks] times: whether it was there. *)
(* @map ex_distributed_tracing_client.c:86-97 main *)
Fixpoint await_response (looks : nat) : program bool :=
  match looks with
  | Datatypes.O => mret false
  | Datatypes.S looks =>
      _ ← others_run;
      response_file ← fopen_r RESPONSE_FILE;
      match response_file with
      | Some _ =>
          _ ← printf (str "received." ++ newline ++ newline);
          _ ← unlink RESPONSE_FILE;
          mret true
      | None => _ ← sleep 1; await_response looks
      end
  end.

(* @map ex_distributed_tracing_client.c:54-57 main *)
Definition client_params : newrelic_external_segment_params_t :=
  mk_external_params (Some RESPONSE_FILE) (Some (str "GET")) None.

(** [None]: it still waits after looking [looks] times. *)
(* @map ex_distributed_tracing_client.c:21-113 main *)
Definition ex_distributed_tracing_client (looks : nat) : program (option Z) :=
  connected ← example_app true true;
  match connected with
  | None => mret (Some (-1))
  | Some app =>
      txn ← api (newrelic_start_web_transaction app (Some (str "ExampleDTClient")));
      segment ← api (newrelic_start_external_segment realloc_ok clock txn (Some client_params));
      _ ← unlink REQUEST_FILE;
      request_file ← fopen_w REQUEST_FILE;
      answered ← (match request_file with
                  | Some file =>
                      _ ← printf (str "Sending a request." ++ newline);
                      payload ← api (newrelic_create_distributed_trace_payload_httpsafe txn segment);
                      payload ← owned payload;
                      _ ← (match payload with
                           | Some _ =>
                               text ← string_at payload;
                               _ ← fprintf file (default [] text);
                               free payload
                           | None => mret tt
                           end);
                      _ ← printf (str "Waiting for response ... ");
                      await_response looks
                  | None =>
                      _ ← api (newrelic_notice_error clock HAVE_BACKTRACE txn 50 (Some (str "Cannot send request"))
                                 (Some (str "Error.class.request")));
                      _ ← printf (str "Error, cannot send request." ++ newline);
                      mret true
                  end);
      if negb answered then mret None
      else
        _ ← end_segment txn segment;
        code ← example_end txn app;
        mret (Some code)
  end.

End Programs.
