(* ===== verification/ExampleRuns.v ===== *)
(** * Running the examples

    What the steps of the example programs do to the handles of the process, and how the programs
    end. *)

From Stdlib Require Import SpecFloat.
From S2P Require Import Prelude Vector Strings Time StringPool Metrics.
From S2P Require Import HashMap SegmentChildren Slab Datastore Slowsqls Txn Config Segment SegmentEnd Sdk SdkSample.
From S2P Require Import SdkGlobal SdkTransaction SdkSegment Session Transactions SessionEnds Frames Calls Lifetimes Examples.

(** ** Total correctness *)

Section Wp.
Context {S P M A O : Type}.

Abbreviation process := (process S P M A O).
Abbreviation program := (program S P M A O).

(** The program returns, with a result and a state that satisfy [Q]. *)
Definition wp {T : Type} (m : program T) (Q : T -> process -> Prop) (s : process) : Prop :=
  exists x s', m s = Some (x, s') /\ Q x s'.

Lemma wp_ret {T : Type} (x : T) Q s : Q x s -> wp (mret x) Q s.
Proof. intros HQ. by exists x, s. Qed.

Lemma wp_bind {T U : Type} (m : program T) (f : T -> program U) Q s : wp m (fun x s' => wp (f x) Q s') s -> wp (m ≫= f) Q s.
Proof. intros (x & s1 & E & y & s2 & E2 & HQ). exists y, s2. unfold mbind, program_bind. by rewrite E. Qed.

Lemma wp_mono {T : Type} (m : program T) (Q Q' : T -> process -> Prop) s :
  wp m Q s -> (forall x s', Q x s' -> Q' x s') -> wp m Q' s.
Proof. intros (x & s' & E & HQ) HQQ. exists x, s'. split; [done|by apply HQQ]. Qed.

(** A first step that is known. *)
Lemma wp_step {T U : Type} (m : program T) (f : T -> program U) Q s (R : T -> process -> Prop) :
  wp m R s -> (forall x s', R x s' -> wp (f x) Q s') -> wp (m ≫= f) Q s.
Proof. intros Hm Hf. apply wp_bind. by eapply wp_mono. Qed.

End Wp.

(** ** The handles of a process *)

Definition one (o : option positive) : gset positive := match o with Some x => {[x]} | None => ∅ end.

Lemma elem_of_one (x : positive) : x ∈ one (Some x).
Proof. cbn [one]. by apply elem_of_singleton. Qed.

Section Inside.
Context {S P M A O : Type} `{NamePool P} `{ObjectAllocator S M} `{!AxiomLib S P M A O} `{!TxnLifecycle S P M A O}.
Context (realloc_ok : Z -> bool) (clock : nat -> Z * Z) (NEWRELIC_VERSION : cstr) (HAVE_BACKTRACE : bool).
Context (Hroomy : roomy realloc_ok) (Hversion : strlen NEWRELIC_VERSION < LIMIT).
(** Memory does not run out, and the name of the machine is short. *)
Context (Hmemory : forall m sl, oa_next m sl <> None) (Hhostname : forall a, short_string (nr_system_get_hostname a) = true).

Abbreviation sdk := (sdk S P M A O).
Abbreviation prog := (prog S P M A O).

Implicit Types (v : sdk) (k : Z) (apps txns segs evs : gset positive).

(** The process has exactly these handles, its transactions record, and there is room for [k] more additions. *)
Record inside k apps txns segs evs v : Prop := {
  in_life : exists kids, life_ok k v kids;
  in_apps : dom (sd_apps v) = apps;
  in_txns : dom (sd_txns v) = txns;
  in_records : forall x, records v x;
  in_segs : dom (sd_segments v) = segs;
  in_events : dom (sd_events v) = evs;
}.

Lemma inside_le k k' apps txns segs evs v : inside k apps txns segs evs v -> k' <= k -> inside k' apps txns segs evs v.
Proof. intros [[kids Hlife] ? ? ? ? ?] Hle. constructor; try done. exists kids. by eapply life_ok_le. Qed.

Lemma inside_handle k apps txns segs evs v x : inside k apps txns segs evs v -> x ∈ txns -> is_Some (sd_txns v !! x).
Proof. intros [_ _ <- _ _ _] Hx. by apply elem_of_dom. Qed.

Lemma inside_segment k apps txns segs evs v p : inside k apps txns segs evs v -> p ∈ segs -> is_Some (sd_segments v !! p).
Proof. intros [_ _ _ _ <- _] Hp. by apply elem_of_dom. Qed.

Lemma inside_event k apps txns segs evs v e : inside k apps txns segs evs v -> e ∈ evs -> is_Some (sd_events v !! e).
Proof. intros [_ _ _ _ _ <-] He. by apply elem_of_dom. Qed.

(** A step that touches only wrappers and events. *)
Lemma inside_touches k k' apps txns segs evs v v' kids' wrappers events segs' evs' :
  inside k apps txns segs evs v -> touches wrappers events v v' -> life_ok k' v' kids' ->
  dom (sd_segments v') = segs' -> dom (sd_events v') = evs' -> inside k' apps txns segs' evs' v'.
Proof.
  intros [_ Ha Ht Hr _ _] ((Hd & Eapps & Etxns) & [_ Hst] & _ & _) Hlife Hs He. constructor; [by exists kids'|by rewrite Eapps| | |done|done].
  - by rewrite <- (dom_fmap_L tx_txn), Etxns, dom_fmap_L.
  - intros x tx t Hx Htx. assert (Hx' : (tx_txn <$> sd_txns v) !! x = Some (tx_txn tx)) by (by rewrite <- Etxns, lookup_fmap, Hx).
    apply lookup_fmap_Some in Hx' as (tx0 & E & Hx0).
    assert (Hin : is_Some (w_txns (sd_world v) !! tx_txn tx)) by (apply elem_of_dom; rewrite <- Hd; apply elem_of_dom; by eexists).
    destruct Hin as [t0 Ht0]. destruct (Hst _ t0 Ht0) as (t' & Ht' & Erec). rewrite Htx in Ht'. injection Ht' as <-.
    rewrite Erec. apply (Hr x tx0 t0 Hx0). by rewrite E.
Qed.

(** ** Calls *)

(** Calls that make or remove no handle. *)
Definition quiet_call (c : api_call (O := O)) : bool :=
  match c with
  | SetSegmentParent _ _ | SetSegmentParentRoot _ | SetSegmentTiming _ _ _ | SetTransactionTiming _ _ _
  | SetTransactionName _ _ | RecordCustomMetric _ _ _ | NoticeError _ _ _ _ | AddAttribute _ _ _ => true
  | _ => false
  end.

Lemma quiet_touches k s kids c s' :
  sdk_ok k s kids -> quiet_call c = true -> api_run realloc_ok clock HAVE_BACKTRACE c s = Some (tt, s') -> touches false false s s'.
Proof.
  intros Hok Hc E. pose proof (fun p => wrapper_txn_locked k s kids p Hok) as Hlocked. unfold api_run in E.
  destruct c; try discriminate Hc; apply bind_inv in E as (r & s1 & E & E1); apply ret_inv in E1 as ->; revert E.
  - eapply set_segment_parent_frame; [apply _|apply Hlocked].
  - eapply set_segment_parent_root_frame; [apply _|apply Hlocked].
  - eapply set_segment_timing_frame; [apply _|apply Hlocked].
  - eapply set_transaction_timing_frame; apply _.
  - eapply set_transaction_name_frame; apply _.
  - eapply record_custom_metric_frame; apply _.
  - eapply notice_error_frame; apply _.
  - eapply add_attribute_frame; apply _.
Qed.

Lemma quiet_inside k apps txns segs evs v c {T : Type} (m : prog T) :
  inside (k + 16) apps txns segs evs v -> 0 <= k -> api_valid c v -> quiet_call c = true ->
  api_run realloc_ok clock HAVE_BACKTRACE c = (_ ← m; mret tt) ->
  exists r v', m v = Some (r, v') /\ inside k apps txns segs evs v'.
Proof.
  intros Hin Hk Hv Hc Em. destruct (in_life _ _ _ _ _ _ Hin) as [kids Hlife].
  destruct (within_ok realloc_ok clock HAVE_BACKTRACE Hroomy k v kids c Hlife Hk Hv) as (v' & kids' & Hrun & Hlife').
  pose proof (quiet_touches _ v kids c v' (lo_sdk _ _ _ Hlife) Hc Hrun) as Ht. rewrite Em in Hrun.
  apply bind_inv in Hrun as (r & v1 & Hrun & E1). apply ret_inv in E1 as ->. exists r, v1. split; [done|].
  destruct Ht as (Hh & Hst & Es & Ee). eapply inside_touches; [done|by split_and!|done| |].
  - rewrite Es by done. apply Hin.
  - rewrite Ee by done. apply Hin.
Qed.

(** A step that changes the wrappers. *)
Lemma inside_wrappers k k' apps txns segs evs v v' kids' segs' :
  inside k apps txns segs evs v -> touches true false v v' -> sdk_ok k' v' kids' -> all_fields v' -> dom (sd_segments v') = segs' ->
  inside k' apps txns segs' evs v'.
Proof.
  intros Hin Ht Hsdk Hf Es. destruct (in_life _ _ _ _ _ _ Hin) as [kids [_ _ Hh Hfree]].
  eapply inside_touches; [exact Hin|exact Ht| |done|].
  - constructor; [exact Hsdk|exact Hf| |by rewrite (proj1 (proj2 (proj1 Ht)))]. by eapply handles_kept_handled; [apply Ht|].
  - rewrite (proj2 (proj2 (proj2 Ht))) by done. apply Hin.
Qed.

(** Starting a segment gives a handle to a new one. *)
Lemma start_segment_inside k apps txns segs evs v x name category :
  inside (k + 16) apps txns segs evs v -> 0 <= k -> x ∈ txns -> strlen (start_name name category) < 2 ^ 31 - 1 ->
  exists p v', newrelic_start_segment realloc_ok clock (Some x) name category v = Some (Some p, v')
    /\ p ∉ segs /\ inside k apps txns ({[p]} ∪ segs) evs v'.
Proof.
  intros Hin Hk Hx Hname. destruct (in_life _ _ _ _ _ _ Hin) as [kids Hlife]. destruct (inside_handle _ _ _ _ _ _ x Hin Hx) as [tx Htx].
  assert (Hsdk : sdk_ok (k + 2) v kids) by (eapply sdk_ok_le; [|apply Hlife]; lia).
  destruct (so_txns _ _ _ Hsdk x tx Htx) as [[t Ht] _].
  destruct (start_segment_run realloc_ok clock Hroomy k v kids x tx t name category Hsdk Hk Htx Ht (in_records _ _ _ _ _ _ Hin x tx t Htx Ht)
    (Hmemory _ _) Hname) as (l & p & q & v' & kids' & sg & t' & idx & pool & ss & Hrun & Hsdk' & _ & _ & _ & _ & Hq & Es & _).
  exists q, v'. split; [done|]. split; [rewrite <- (in_segs _ _ _ _ _ _ Hin); by apply not_elem_of_dom|].
  eapply inside_wrappers; [exact Hin| |exact Hsdk'| |].
  - eapply start_segment_frame; [apply _|apply touches_wrappers|done|exact Hrun].
  - eapply all_fields_insert; [exact Es|apply no_fields_ok|apply Hlife].
  - by rewrite Es, dom_insert_L, (in_segs _ _ _ _ _ _ Hin).
Qed.

(** So does starting one of a type, with parameters that are taken. *)
Lemma typed_inside k apps txns segs evs v x ty fill (fields : A -> type_fields_t) (m : prog (option sdk_seg_ptr)) :
  inside (k + 16) apps txns segs evs v -> 0 <= k -> x ∈ txns ->
  m v = locked_typed_segment realloc_ok clock x ty fill v -> (forall r v', m v = Some (r, v') -> touches true false v v') ->
  (forall s q sg, sd_segments s !! q = Some sg ->
     fill q s = Some (tt, set_sdk_segments (<[q := with_type (fields (sd_axiom s)) sg]> (sd_segments s)) s)) ->
  fields_ok (fields (sd_axiom v)) -> (forall a, fits ty (fields a) = true) ->
  exists p v', m v = Some (Some p, v') /\ p ∉ segs /\ inside k apps txns ({[p]} ∪ segs) evs v'.
Proof.
  intros Hin Hk Hx Em Hframe Hfill Hgood Hfits. destruct (in_life _ _ _ _ _ _ Hin) as [kids Hlife].
  destruct (inside_handle _ _ _ _ _ _ x Hin Hx) as [tx Htx].
  assert (Hsdk : sdk_ok (k + 2) v kids) by (eapply sdk_ok_le; [|apply Hlife]; lia).
  destruct (so_txns _ _ _ Hsdk x tx Htx) as [[t Ht] _].
  destruct (locked_typed_run realloc_ok clock Hroomy k v kids x tx t ty fill fields Hsdk Hk Htx Ht
    (in_records _ _ _ _ _ _ Hin x tx t Htx Ht) (Hmemory _ _) Hfill Hfits)
    as (p & q & v' & kids' & sg & Hrun & Hsdk' & Hq & _ & _ & Es & _).
  rewrite <- Em in Hrun. exists q, v'. split; [done|]. split; [rewrite <- (in_segs _ _ _ _ _ _ Hin); by apply not_elem_of_dom|].
  eapply inside_wrappers; [exact Hin|by eapply Hframe|exact Hsdk'| |].
  - eapply all_fields_insert; [exact Es|exact Hgood|apply Hlife].
  - by rewrite Es, dom_insert_L, (in_segs _ _ _ _ _ _ Hin).
Qed.

Lemma start_datastore_inside k apps txns segs evs v x params :
  inside (k + 16) apps txns segs evs v -> 0 <= k -> x ∈ txns -> datastore_params_valid params = true ->
  (forall hostname, short_string hostname = true -> datastore_params_short params hostname = true) ->
  exists p v', newrelic_start_datastore_segment realloc_ok clock (Some x) (Some params) v = Some (Some p, v')
    /\ p ∉ segs /\ inside k apps txns ({[p]} ∪ segs) evs v'.
Proof.
  intros Hin Hk Hx Hvalid Hshort.
  apply (typed_inside k apps txns segs evs v x NR_SEGMENT_DATASTORE (fill_datastore params)
    (fun a => DatastoreFields (stored_datastore params (nr_system_get_hostname a)))); try done.
  - by rewrite start_datastore_eq, Hvalid.
  - intros r v' E. eapply start_datastore_frame; [apply _|apply touches_wrappers|done|exact E].
  - intros s q sg. apply fill_datastore_run.
  - by apply stored_datastore_fields, Hshort.
Qed.

Lemma start_external_inside k apps txns segs evs v x params :
  inside (k + 16) apps txns segs evs v -> 0 <= k -> x ∈ txns -> external_params_valid params = true ->
  external_params_short params = true ->
  exists p v', newrelic_start_external_segment realloc_ok clock (Some x) (Some params) v = Some (Some p, v')
    /\ p ∉ segs /\ inside k apps txns ({[p]} ∪ segs) evs v'.
Proof.
  intros Hin Hk Hx Hvalid Hshort.
  apply (typed_inside k apps txns segs evs v x NR_SEGMENT_EXTERNAL (fill_external params)
    (fun _ => ExternalFields (stored_external params))); try done.
  - by rewrite start_external_eq, Hvalid.
  - intros r v' E. eapply start_external_frame; [apply _|apply touches_wrappers|done|exact E].
  - intros s q sg Hq. by apply update_segment_run.
  - by apply stored_external_fields.
Qed.

(** Ending a segment removes its handle. *)
Lemma end_segment_inside k apps txns segs evs v x p :
  inside (k + 16) apps txns segs evs v -> 0 <= k -> x ∈ txns -> p ∈ segs ->
  exists ok v', newrelic_end_segment realloc_ok clock (Some x) (Some (Some p)) v = Some ((ok, Some None), v')
    /\ inside k apps txns (segs ∖ {[p]}) evs v'.
Proof.
  intros Hin Hk Hx Hp. destruct (in_life _ _ _ _ _ _ Hin) as [kids Hlife].
  destruct (inside_segment _ _ _ _ _ _ p Hin Hp) as [sg Hsg].
  destruct (end_segment_ok realloc_ok clock Hroomy k v kids p sg (Some x) (lo_sdk _ _ _ Hlife) Hk Hsg (lo_fields _ _ _ Hlife p sg Hsg))
    as (v' & kids' & Hrun & Hsdk' & Es); [intros y [= <-]; by eapply inside_handle|].
  eexists _, v'. split; [done|]. eapply inside_wrappers; [exact Hin| |exact Hsdk'| |].
  - eapply end_segment_frame; [apply _|apply touches_wrappers|done|exact Hrun].
  - eapply all_fields_delete; [exact Es|apply Hlife].
  - by rewrite Es, dom_delete_L, (in_segs _ _ _ _ _ _ Hin).
Qed.

(** ** Events *)

(** A step that changes the events. *)
Lemma inside_change_events k apps txns segs evs v ev evs' :
  inside k apps txns segs evs v -> dom ev = evs' -> inside k apps txns segs evs' (set_events ev v).
Proof.
  intros Hin Hev. destruct (in_life _ _ _ _ _ _ Hin) as [kids [[Hm Ht Hs Hl] Hf Hh Hfree]].
  destruct Hin as [_ Ha Htx Hr Hsg _]. constructor; [|done..]. exists kids. by constructor.
Qed.

Lemma create_event_inside k apps txns segs evs v ty :
  inside k apps txns segs evs v ->
  exists e v', newrelic_create_custom_event (Some ty) v = Some (Some e, v')
    /\ e ∉ evs /\ inside k apps txns segs ({[e]} ∪ evs) v'.
Proof.
  intros Hin. unfold newrelic_create_custom_event. erewrite bind_run by done. cbv beta zeta. cbn [id]. erewrite bind_run by done. cbv beta.
  eexists _, _. split; [reflexivity|]. rewrite <- (in_events _ _ _ _ _ _ Hin). split; [apply is_fresh|].
  eapply inside_change_events; [exact Hin|]. apply dom_insert_L.
Qed.

Lemma set_attribute_inside k apps txns segs evs v e f :
  inside k apps txns segs evs v -> e ∈ evs ->
  exists ok v', set_attribute (Some e) f v = Some (ok, v') /\ inside k apps txns segs evs v'.
Proof.
  intros Hin He. destruct (inside_event _ _ _ _ _ _ e Hin He) as [ev Hev]. unfold set_attribute.
  erewrite bind_run by done. cbv beta. erewrite bind_run by (apply of_option_run; exact Hev). cbv beta.
  destruct (f (ev_attributes ev)) as [status attributes]. erewrite bind_run by done. cbv beta.
  eexists _, _. split; [reflexivity|]. eapply inside_change_events; [exact Hin|].
  rewrite dom_insert_lookup_L by (by eexists). apply Hin.
Qed.

Lemma record_event_inside k apps txns segs evs v x e :
  inside (k + 16) apps txns segs evs v -> 0 <= k -> x ∈ txns -> e ∈ evs ->
  exists v', newrelic_record_custom_event clock (Some x) (Some (Some e)) v = Some (Some None, v')
    /\ inside k apps txns segs (evs ∖ {[e]}) v'.
Proof.
  intros Hin Hk Hx He. destruct (in_life _ _ _ _ _ _ Hin) as [kids Hlife].
  destruct (inside_event _ _ _ _ _ _ e Hin He) as [ev Hev]. destruct (inside_handle _ _ _ _ _ _ x Hin Hx) as [tx Htx].
  destruct (so_txns _ _ _ (lo_sdk _ _ _ Hlife) x tx Htx) as [[t Ht] Hfree].
  destruct (record_custom_event_run clock v x tx t e ev Htx Hfree Ht Hev) as (_ & v' & Hrun & Ee & _ & Es & _).
  destruct (within_ok realloc_ok clock HAVE_BACKTRACE Hroomy k v kids (RecordCustomEvent x e) Hlife Hk) as (v1 & kids' & Hrun' & Hlife').
  { split; by eexists. }
  unfold api_run in Hrun'. erewrite bind_run in Hrun' by exact Hrun. injection Hrun' as ->. exists v1. split; [done|].
  eapply inside_touches; [exact Hin| |exact Hlife'| |].
  - eapply (record_custom_event_frame (touches false true)); [apply _|apply _|exact Hrun].
  - rewrite Es. apply Hin.
  - by rewrite Ee, dom_delete_L, (in_events _ _ _ _ _ _ Hin).
Qed.

(** ** Transactions *)

Lemma start_transaction_inside k a segs evs v name web :
  inside (k + 16) (one a) ∅ segs evs v -> 0 <= k ->
  exists x v', newrelic_start_transaction a name web v = Some (x, v') /\ inside k (one a) (one x) segs evs v'
    /\ (a = None -> x = None).
Proof.
  intros Hin Hk. destruct a as [p|]; [|exists None, v; split; [done|]; split; [|done]; eapply inside_le; [exact Hin|lia]].
  destruct (in_life _ _ _ _ _ _ Hin) as [kids Hlife0]. pose proof (life_ok_le (k + 16) (k + 1) v kids ltac:(lia) Hlife0) as Hlife.
  assert (Hp : is_Some (sd_apps v !! p)) by (apply elem_of_dom; rewrite (in_apps _ _ _ _ _ _ Hin); apply elem_of_one).
  destruct Hp as [ap Hp]. pose proof (lo_sdk _ _ _ Hlife) as Hsdk.
  assert (Hnone : sd_txns v = ∅) by (apply dom_empty_inv_L, (in_txns _ _ _ _ _ _ Hin)).
  destruct (start_transaction_ok k v kids p name web Hlife Hk) as (r & v' & kids' & Hrun & Hlife'); [by eexists|].
  exists r, v'. split; [done|]. split; [|done].
  destruct (pthread_mutex_init (nr_app_consider_appinfo (ap_app ap) (sd_axiom v))) as [status a2] eqn:Hinit.
  destruct (nr_txn_begin (ap_app ap) (newrelic_get_transaction_options (ap_config ap)) (sd_world v) a2) as [[txn w] a3] eqn:Hbegin.
  destruct (start_transaction_run v p ap name web status a2 txn w a3 Hp (lo_apps _ _ _ Hlife p ap Hp) Hinit Hbegin) as [_ Hcases].
  destruct Hin as [_ Ha _ _ Hs He]. destruct status.
  2:{ rewrite Hrun in Hcases. injection Hcases as -> ->. constructor; try done; [by exists kids'|cbn [sd_txns set_axiom]; rewrite Hnone; apply dom_empty_L|].
      intros x tx t Hx. change (sd_txns v !! x = Some tx) in Hx. by rewrite Hnone in Hx. }
  destruct txn as [tp|].
  - destruct (lc_begin _ _ _ _ _ _ _ _ _ (so_memory _ _ _ Hsdk) Hk Hbegin) as (kids1 & _ & _ & _ & _ & t & Ht & Hfrozen & Htype & Hrec).
    destruct (Hcases t Ht Hfrozen Htype) as (x & s' & E & Hx & Et & Ew & Ea & Eapps & Es & Ee & Emu). rewrite Hrun in E. injection E as -> <-.
    rewrite Hnone in Et. constructor; [by exists kids'|by rewrite Eapps| | |by rewrite Es|by rewrite Ee].
    + rewrite Et, dom_insert_L, dom_empty_L. apply union_empty_r_L.
    + intros y ty t' Hy Ht'. rewrite Et, lookup_insert_Some, lookup_empty in Hy. destruct Hy as [[<- <-]|[_ [=]]].
      rewrite Ew in Ht'. cbn in Ht'. rewrite lookup_insert_eq in Ht'. injection Ht' as <-.
      unfold named_transaction. by destruct (decide _).
  - destruct Hcases as (s' & E & Ew & Ea & Et & Eapps & Es & Ee & Emu). rewrite Hrun in E. injection E as -> <-.
    constructor; [by exists kids'|by rewrite Eapps|by rewrite Et, Hnone, dom_empty_L| |by rewrite Es|by rewrite Ee].
    intros x tx t Hx. by rewrite Et, Hnone in Hx.
Qed.

Lemma end_transaction_inside k apps x evs v :
  inside (k + 16) apps (one x) ∅ evs v -> 0 <= k ->
  exists r v', newrelic_end_transaction NEWRELIC_VERSION (Some x) v = Some (r, v') /\ inside k apps ∅ ∅ evs v'.
Proof.
  intros Hin Hk. destruct x as [x|]; [|eexists _, v; split; [done|]; eapply inside_le; [exact Hin|lia]].
  destruct (in_life _ _ _ _ _ _ Hin) as [kids Hlife0]. pose proof (life_ok_le (k + 16) (k + 1) v kids ltac:(lia) Hlife0) as Hlife.
  assert (Hx : is_Some (sd_txns v !! x)) by (apply (inside_handle _ _ _ _ _ _ x Hin); apply elem_of_one).
  assert (Hnone : sd_segments v = ∅) by (apply dom_empty_inv_L, (in_segs _ _ _ _ _ _ Hin)).
  destruct (end_transaction_ok NEWRELIC_VERSION Hversion k v kids x Hlife Hk Hx) as (ok & v' & kids' & Hrun & Hlife' & Et & Ea & Es & Ee).
  { intros tx p sg _ Hp. by rewrite Hnone in Hp. }
  eexists _, v'. split; [exact Hrun|]. destruct Hin as [_ Ha Htx Hr Hs He].
  assert (Hgone : sd_txns v' = ∅).
  { apply dom_empty_inv_L. rewrite Et, dom_delete_L, Htx. apply difference_diag_L. }
  constructor; [by exists kids'|by rewrite Ea|by rewrite Hgone, dom_empty_L| |by rewrite Es|by rewrite Ee].
  intros y ty t Hy. by rewrite Hgone in Hy.
Qed.

(** ** Applications *)

Lemma inside_rest k apps txns segs evs v v' apps' :
  inside k apps txns segs evs v -> same_rest v v' -> apps_free (sd_apps v') -> dom (sd_apps v') = apps' ->
  inside k apps' txns segs evs v'.
Proof.
  intros Hin Hrest Hfree Happs. destruct (in_life _ _ _ _ _ _ Hin) as [kids Hlife].
  pose proof Hrest as (Ew & Et & Es & Ee & _). destruct Hin as [_ _ Htx Hr Hs He].
  constructor; [exists kids; by eapply life_ok_rest|done|by rewrite Et| |by rewrite Es|by rewrite Ee].
  intros x tx t. rewrite Et, Ew. apply Hr.
Qed.

Lemma setup_inside k apps txns segs evs v c :
  inside k apps txns segs evs v -> exists b v', run_global c v = Some (b, v') /\ inside k apps txns segs evs v'.
Proof.
  intros Hin. destruct (run_global_rest c v) as (b & v' & Hrun & Hrest & Eapps). exists b, v'. split; [done|].
  destruct (in_life _ _ _ _ _ _ Hin) as [kids Hlife]. eapply inside_rest; [exact Hin|done| |].
  - rewrite Eapps. apply Hlife.
  - rewrite Eapps. apply Hin.
Qed.

Lemma create_app_inside k txns segs evs v config timeout :
  inside k ∅ txns segs evs v -> terminated config ->
  exists a v', newrelic_create_app NEWRELIC_VERSION (Some config) timeout v = Some (a, v') /\ inside k (one a) txns segs evs v'.
Proof.
  intros Hin Hc. destruct (create_app_run NEWRELIC_VERSION config timeout v Hc) as (a & v' & Hrun & Hrest & _ & Ha).
  exists a, v'. split; [done|]. destruct (in_life _ _ _ _ _ _ Hin) as [kids Hlife]. destruct a as [p|].
  - destruct Ha as (_ & nrapp & cfg & lock & _ & Eapps & Hlock & _). eapply inside_rest; [exact Hin|done| |].
    + rewrite Eapps. apply apps_free_insert; [apply Hlife|done].
    + rewrite Eapps, dom_insert_L, (in_apps _ _ _ _ _ _ Hin). cbn [one]. apply union_empty_r_L.
  - eapply inside_rest; [exact Hin|done| |].
    + rewrite (proj1 Ha). apply Hlife.
    + rewrite (proj1 Ha). apply Hin.
Qed.

Lemma destroy_app_inside k a txns segs evs v :
  inside k (one a) txns segs evs v ->
  exists r v', newrelic_destroy_app (Some a) v = Some (r, v') /\ inside k ∅ txns segs evs v'.
Proof.
  intros Hin. destruct a as [p|]; [|by eexists _, v]. destruct (in_life _ _ _ _ _ _ Hin) as [kids Hlife].
  assert (Hp : is_Some (sd_apps v !! p)) by (apply elem_of_dom; rewrite (in_apps _ _ _ _ _ _ Hin); apply elem_of_one).
  destruct Hp as [ap Hp]. destruct (destroy_app_run p v ap Hp (lo_apps _ _ _ Hlife p ap Hp)) as (v' & Hrun & Eapps & Hrest).
  eexists _, v'. split; [exact Hrun|]. eapply inside_rest; [exact Hin|done| |].
  - rewrite Eapps. apply apps_free_delete, Hlife.
  - rewrite Eapps, dom_delete_L, (in_apps _ _ _ _ _ _ Hin). apply difference_diag_L.
Qed.

Lemma initial_inside mem (a : A) k : oa_ok mem empty empty -> k < 2 ^ 29 -> inside k ∅ ∅ ∅ ∅ (initial_sdk mem a).
Proof.
  intros Hmem Hk. constructor; try (cbn; apply dom_empty_L); [|done]. exists (fun _ => []). by apply initial_life_ok.
Qed.

(** ** Steps of programs *)

Abbreviation process := (process S P M A O).
Abbreviation program := (program S P M A O).

Implicit Types (s : process) (n : nat).

(** The handles of the process of a program, and room for [n] more calls. *)
Definition holds n apps txns segs evs s : Prop := inside (16 * Z.of_nat n) apps txns segs evs (pr_sdk s).

Lemma holds_room n apps txns segs evs s :
  holds (Datatypes.S n) apps txns segs evs s -> inside (16 * Z.of_nat n + 16) apps txns segs evs (pr_sdk s).
Proof. unfold holds. by replace (16 * Z.of_nat (Datatypes.S n)) with (16 * Z.of_nat n + 16) by lia. Qed.

Lemma wp_api {T : Type} (m : prog T) (R : T -> sdk -> Prop) s :
  (exists r v, m (pr_sdk s) = Some (r, v) /\ R r v) -> wp (api m) (fun r s' => R r (pr_sdk s')) s.
Proof. intros (r & v & E & HR). unfold wp, api. rewrite E. by eexists _, _. Qed.

(** A step beside the SDK. *)
Lemma wp_outside {T : Type} (f : surroundings -> option (T * surroundings)) (R : T -> process -> Prop) x b s :
  f (pr_beside s) = Some (x, b) -> R x (mk_process (pr_sdk s) b) -> wp (outside f) R s.
Proof. intros E HR. unfold wp, outside. rewrite E. by eexists _, _. Qed.

(** Calls on NULL. *)
Lemma null_step {T : Type} n apps txns segs evs (m : prog T) r s :
  holds n apps txns segs evs s -> (forall v, m v = Some (r, v)) -> wp (api m) (fun r' s' => r' = r /\ holds n apps txns segs evs s') s.
Proof.
  intros Hs Hm. apply (wp_api m (fun r' v => r' = r /\ inside (16 * Z.of_nat n) apps txns segs evs v)).
  exists r, (pr_sdk s). by rewrite Hm.
Qed.

(** What does not touch the SDK. *)
Lemma printf_step n apps txns segs evs text s :
  holds n apps txns segs evs s -> wp (printf text) (fun _ s' => holds n apps txns segs evs s') s.
Proof. intros Hs. by eexists _, _. Qed.

Lemma others_step n apps txns segs evs others s :
  holds n apps txns segs evs s -> wp (others_run others) (fun _ s' => holds n apps txns segs evs s') s.
Proof. intros Hs. by eexists _, _. Qed.

Lemma quiet_step n apps txns segs evs c {T : Type} (m : prog T) s :
  holds (Datatypes.S n) apps txns segs evs s -> api_valid c (pr_sdk s) -> quiet_call c = true ->
  api_run realloc_ok clock HAVE_BACKTRACE c = (_ ← m; mret tt) -> wp (api m) (fun _ s' => holds n apps txns segs evs s') s.
Proof.
  intros Hs%holds_room Hv Hc E. apply (wp_api m (fun _ v => inside (16 * Z.of_nat n) apps txns segs evs v)).
  by apply (quiet_inside _ apps txns segs evs _ c); [|lia|..].
Qed.

Lemma start_segment_step n apps txns segs evs x name category s :
  holds (Datatypes.S n) apps txns segs evs s -> x ∈ txns -> strlen (start_name name category) < 2 ^ 31 - 1 ->
  wp (api (newrelic_start_segment realloc_ok clock (Some x) name category))
    (fun r s' => exists p, r = Some p /\ p ∉ segs /\ holds n apps txns ({[p]} ∪ segs) evs s') s.
Proof.
  intros Hs%holds_room Hx Hname.
  apply (wp_api _ (fun r v => exists p, r = Some p /\ p ∉ segs /\ inside (16 * Z.of_nat n) apps txns ({[p]} ∪ segs) evs v)).
  destruct (start_segment_inside _ apps txns segs evs (pr_sdk s) x name category Hs) as (p & v & E & Hp & Hin); [lia|done|done|].
  exists (Some p), v. split; [done|]. by exists p.
Qed.

Lemma start_datastore_step n apps txns segs evs x params s :
  holds (Datatypes.S n) apps txns segs evs s -> x ∈ txns -> datastore_params_valid params = true ->
  (forall hostname, short_string hostname = true -> datastore_params_short params hostname = true) ->
  wp (api (newrelic_start_datastore_segment realloc_ok clock (Some x) (Some params)))
    (fun r s' => exists p, r = Some p /\ p ∉ segs /\ holds n apps txns ({[p]} ∪ segs) evs s') s.
Proof.
  intros Hs%holds_room Hx Hvalid Hshort.
  apply (wp_api _ (fun r v => exists p, r = Some p /\ p ∉ segs /\ inside (16 * Z.of_nat n) apps txns ({[p]} ∪ segs) evs v)).
  destruct (start_datastore_inside _ apps txns segs evs (pr_sdk s) x params Hs) as (p & v & E & Hp & Hin); [lia|done..|].
  exists (Some p), v. split; [done|]. by exists p.
Qed.

Lemma start_external_step n apps txns segs evs x params s :
  holds (Datatypes.S n) apps txns segs evs s -> x ∈ txns -> external_params_valid params = true ->
  external_params_short params = true ->
  wp (api (newrelic_start_external_segment realloc_ok clock (Some x) (Some params)))
    (fun r s' => exists p, r = Some p /\ p ∉ segs /\ holds n apps txns ({[p]} ∪ segs) evs s') s.
Proof.
  intros Hs%holds_room Hx Hvalid Hshort.
  apply (wp_api _ (fun r v => exists p, r = Some p /\ p ∉ segs /\ inside (16 * Z.of_nat n) apps txns ({[p]} ∪ segs) evs v)).
  destruct (start_external_inside _ apps txns segs evs (pr_sdk s) x params Hs) as (p & v & E & Hp & Hin); [lia|done..|].
  exists (Some p), v. split; [done|]. by exists p.
Qed.

(** The segment started last is ended. *)
Lemma end_segment_step n apps txns segs evs x p s :
  holds (Datatypes.S n) apps txns ({[p]} ∪ segs) evs s -> x ∈ txns -> p ∉ segs ->
  wp (end_segment realloc_ok clock (Some x) (Some p)) (fun r s' => r = None /\ holds n apps txns segs evs s') s.
Proof.
  intros Hs%holds_room Hx Hp. unfold end_segment.
  destruct (end_segment_inside _ apps txns _ evs (pr_sdk s) x p Hs) as (ok & v & E & Hin); [lia|done|set_solver|].
  replace (({[p]} ∪ segs) ∖ {[p]}) with segs in Hin by set_solver.
  apply wp_bind. apply (wp_mono _ (fun r s' => r = (ok, Some None) /\ holds n apps txns segs evs s')).
  - apply (wp_api _ (fun r v => r = (ok, Some None) /\ inside (16 * Z.of_nat n) apps txns segs evs v)). by exists (ok, Some None), v.
  - intros r s' [-> Hs']. by apply wp_ret.
Qed.

Lemma create_event_step n apps txns segs evs ty s :
  holds n apps txns segs evs s ->
  wp (api (newrelic_create_custom_event (Some ty))) (fun r s' => exists e, r = Some e /\ e ∉ evs /\ holds n apps txns segs ({[e]} ∪ evs) s') s.
Proof.
  intros Hs.
  apply (wp_api _ (fun r v => exists e, r = Some e /\ e ∉ evs /\ inside (16 * Z.of_nat n) apps txns segs ({[e]} ∪ evs) v)).
  destruct (create_event_inside _ apps txns segs evs (pr_sdk s) ty Hs) as (e & v & E & He & Hin). exists (Some e), v. split; [done|]. by exists e.
Qed.

Lemma set_attribute_step n apps txns segs evs e f s :
  holds n apps txns segs evs s -> e ∈ evs -> wp (api (set_attribute (Some e) f)) (fun _ s' => holds n apps txns segs evs s') s.
Proof.
  intros Hs He. apply (wp_api _ (fun _ v => inside (16 * Z.of_nat n) apps txns segs evs v)).
  exact (set_attribute_inside _ apps txns segs evs (pr_sdk s) e f Hs He).
Qed.

(** The event created last is recorded. *)
Lemma record_event_step n apps txns segs evs x e s :
  holds (Datatypes.S n) apps txns segs ({[e]} ∪ evs) s -> x ∈ txns -> e ∉ evs ->
  wp (api (newrelic_record_custom_event clock (Some x) (Some (Some e)))) (fun _ s' => holds n apps txns segs evs s') s.
Proof.
  intros Hs%holds_room Hx He. apply (wp_api _ (fun _ v => inside (16 * Z.of_nat n) apps txns segs evs v)).
  destruct (record_event_inside _ apps txns segs _ (pr_sdk s) x e Hs) as (v & E & Hin); [lia|done|set_solver|].
  exists (Some None), v. split; [done|]. by replace (({[e]} ∪ evs) ∖ {[e]}) with evs in Hin by set_solver.
Qed.

Lemma start_transaction_step n a segs evs name s :
  holds (Datatypes.S n) (one a) ∅ segs evs s ->
  wp (api (newrelic_start_web_transaction a name)) (fun x s' => holds n (one a) (one x) segs evs s') s.
Proof.
  intros Hs%holds_room. apply (wp_api _ (fun x v => inside (16 * Z.of_nat n) (one a) (one x) segs evs v)).
  destruct (start_transaction_inside _ a segs evs (pr_sdk s) name true Hs) as (x & v & E & Hin & _); [lia|]. by exists x, v.
Qed.

Lemma end_transaction_step n apps x evs s :
  holds (Datatypes.S n) apps (one x) ∅ evs s ->
  wp (api (newrelic_end_transaction NEWRELIC_VERSION (Some x))) (fun _ s' => holds n apps ∅ ∅ evs s') s.
Proof.
  intros Hs%holds_room. apply (wp_api _ (fun _ v => inside (16 * Z.of_nat n) apps ∅ ∅ evs v)).
  exact (end_transaction_inside _ apps x evs (pr_sdk s) Hs ltac:(lia)).
Qed.

Lemma create_payload_step n apps txns segs evs x p s :
  holds (Datatypes.S n) apps txns segs evs s -> x ∈ txns -> p ∈ segs ->
  wp (api (newrelic_create_distributed_trace_payload_httpsafe (Some x) (Some p))) (fun _ s' => holds n apps txns segs evs s') s.
Proof.
  intros Hs%holds_room Hx Hp. apply (wp_api _ (fun _ v => inside (16 * Z.of_nat n) apps txns segs evs v)).
  destruct (in_life _ _ _ _ _ _ Hs) as [kids Hlife].
  destruct (httpsafe_payload realloc_ok (16 * Z.of_nat n) (pr_sdk s) kids x (Some p)) as (r & v & kids' & E & Hlife' & Ht & Hst & Es & Ee);
    [eapply life_ok_le; [|exact Hlife]; lia|lia|by eapply inside_handle|by intros q [= <-]; eapply inside_segment|].
  exists r, v. split; [done|]. eapply (inside_touches _ _ _ _ _ _ _ _ _ false false); [exact Hs|by split_and!|exact Hlife'| |].
  - rewrite Es by done. apply Hs.
  - rewrite Ee by done. apply Hs.
Qed.

Lemma accept_payload_step n apps txns segs evs x payload transport s :
  holds (Datatypes.S n) apps txns segs evs s -> x ∈ txns ->
  wp (api (newrelic_accept_distributed_trace_payload_httpsafe (Some x) payload transport)) (fun _ s' => holds n apps txns segs evs s') s.
Proof.
  intros Hs%holds_room Hx. apply (wp_api _ (fun _ v => inside (16 * Z.of_nat n) apps txns segs evs v)).
  destruct (in_life _ _ _ _ _ _ Hs) as [kids Hlife].
  destruct (accept_payload_ok (16 * Z.of_nat n) (pr_sdk s) kids x payload transport nr_txn_accept_distributed_trace_payload_httpsafe)
    as (r & v & kids' & E & Hlife' & Ht & Hst & Es & Ee);
    [eapply life_ok_le; [|exact Hlife]; lia|lia|by eapply inside_handle|apply lc_accept_httpsafe|].
  exists r, v. split; [done|]. eapply (inside_touches _ _ _ _ _ _ _ _ _ false false); [exact Hs|by split_and!|exact Hlife'| |].
  - rewrite Es by done. apply Hs.
  - rewrite Ee by done. apply Hs.
Qed.

Lemma now_us_step n apps txns segs evs s :
  holds n apps txns segs evs s -> wp (now_us clock) (fun _ s' => holds n apps txns segs evs s') s.
Proof.
  intros Hs. unfold now_us. destruct (clock (w_tick (sd_world (pr_sdk s)))) as [sec usec] eqn:E.
  apply (wp_api _ (fun _ v => inside (16 * Z.of_nat n) apps txns segs evs v)). unfold on_world. rewrite E.
  eexists _, _. split; [reflexivity|]. destruct (in_life _ _ _ _ _ _ Hs) as [kids Hlife].
  assert (Ew : snd (read_clock clock (sd_world (pr_sdk s))) = mk_world (w_segments (sd_world (pr_sdk s))) (w_txns (sd_world (pr_sdk s)))
    (w_stacks (sd_world (pr_sdk s))) (w_mem (sd_world (pr_sdk s))) (Datatypes.S (w_tick (sd_world (pr_sdk s))))).
  { unfold read_clock. by rewrite E. }
  rewrite Ew. destruct Hlife as [[Hm Ht Hsg Hl] Hf Hh Hfree]. destruct Hs as [_ Ha Htx Hr Hs He]. constructor; try done.
  exists kids. constructor; try done. constructor; try done. cbn [sd_world set_world].
  destruct Hm as [[H1' H2' H3' H4'] Hsize Hlive]. by constructor; [constructor|..].
Qed.

(** The end of every example. *)
Lemma example_end_step n x a evs s :
  holds (Datatypes.S n) (one a) (one x) ∅ evs s ->
  wp (example_end NEWRELIC_VERSION x a) (fun code s' => code = 0 /\ holds n ∅ ∅ ∅ evs s') s.
Proof.
  intros Hs. unfold example_end. eapply wp_step; [by apply end_transaction_step|]. intros r s1 Hs1.
  eapply wp_step; [|intros r' s2 Hs2; apply wp_ret; split; [done|exact Hs2]].
  apply (wp_api _ (fun _ v => inside (16 * Z.of_nat n) ∅ ∅ ∅ evs v)). by apply destroy_app_inside.
Qed.

(** ** Connecting *)

Context (getenv : cstr -> option cstr) (may_write : cstr -> bool) (others : nat -> file_system -> file_system).

(** The variables of the environment are set: a name that fits, a key of the right length, and a host
    that fits if there is one. *)
Definition environment_ok : Prop :=
  (exists name, getenv (str "NEW_RELIC_APP_NAME") = Some name /\ strlen name < 255)
  /\ (exists key, getenv (str "NEW_RELIC_LICENSE_KEY") = Some key /\ strlen key = NR_LICENSE_SIZE)
  /\ forall host, getenv (str "NEW_RELIC_HOST") = Some host -> strlen host < 100.

Lemma strcpy_fits (dest : list Z) (src : cstr) :
  strlen src < Z.of_nat (length dest) -> exists d, strcpy dest src = Some d /\ strlen d = strlen src.
Proof.
  intros Hlen. unfold strcpy. destruct (write_at_spec dest 0 (c_str src ++ [0])) as (d & -> & _ & ->).
  - lia.
  - rewrite length_app. cbn [length]. unfold strlen in Hlen. lia.
  - eexists. split; [done|]. change (take (Z.to_nat 0) dest) with (@nil Z). rewrite <- app_assoc. cbn [app]. unfold strlen.
    by rewrite c_str_terminated by apply c_str_nonzero.
Qed.

Lemma customize_step n apps txns segs evs c s :
  environment_ok -> terminated c -> length (redirect_collector c) = 100%nat -> holds n apps txns segs evs s ->
  wp (customize_config getenv (Some (Some c))) (fun r s' => exists c', r = (true, Some (Some c')) /\ terminated c' /\ holds n apps txns segs evs s') s.
Proof.
  intros (_ & _ & Hhost) (Hn & Hk & Hr) Hlen Hs. unfold customize_config. destruct (getenv (str "NEW_RELIC_HOST")) as [host|] eqn:E.
  - destruct (strcpy_fits (redirect_collector c) host) as (d & Ed & Hd); [rewrite Hlen; by apply Hhost|].
    rewrite Ed. exists (true, Some (Some (set_redirect_collector d c))), s. split; [done|]. eexists. split; [done|].
    split; [|done]. split_and!; cbn; [done|done|]. rewrite Hd. by apply Hhost.
  - eapply wp_step; [by apply printf_step|]. intros r s' Hs'. apply wp_ret. exists c. split; [done|]. by split.
Qed.

Lemma default_terminated (name key : cstr) :
  strlen name < 255 -> strlen key = NR_LICENSE_SIZE -> terminated (default_config name key).
Proof.
  unfold NR_LICENSE_SIZE. intros Hn Hk. unfold strlen in Hn, Hk. split_and!; cbn [app_name license_key redirect_collector default_config]; unfold strlen;
    rewrite ?padded_string by lia; [lia|lia|by vm_compute].
Qed.

Lemma log_step n apps txns segs evs s :
  holds n apps txns segs evs s ->
  wp (api (newrelic_configure_log (Some (str "./c_sdk.log")) NEWRELIC_LOG_INFO)) (fun _ s' => holds n apps txns segs evs s') s.
Proof.
  intros Hs. apply (wp_api _ (fun _ v => inside (16 * Z.of_nat n) apps txns segs evs v)).
  exact (setup_inside _ apps txns segs evs (pr_sdk s) (ConfigureLog (Some (str "./c_sdk.log")) NEWRELIC_LOG_INFO) Hs).
Qed.

Lemma init_step n apps txns segs evs s :
  holds n apps txns segs evs s -> wp (api (newrelic_init None 0)) (fun _ s' => holds n apps txns segs evs s') s.
Proof.
  intros Hs. apply (wp_api _ (fun _ v => inside (16 * Z.of_nat n) apps txns segs evs v)).
  exact (setup_inside _ apps txns segs evs (pr_sdk s) (Init None 0) Hs).
Qed.

Lemma example_init_step n apps txns segs evs s :
  holds n apps txns segs evs s -> wp example_init (fun _ s' => holds n apps txns segs evs s') s.
Proof.
  intros Hs. unfold example_init. eapply wp_step; [by apply log_step|]. intros [] s1 Hs1; cbn [negb]; [by apply init_step|].
  eapply wp_step; [by apply printf_step|]. intros ? s2 Hs2. by apply wp_ret.
Qed.

Lemma wp_some {T : Type} (x : T) (Q : T -> process -> Prop) s : Q x s -> wp (crash_if_none (Some x)) Q s.
Proof. intros HQ. by exists x, s. Qed.

(** With the variables set an example gets its application, or NULL. *)
Lemma example_app_step n tracing distributed s :
  environment_ok -> holds n ∅ ∅ ∅ ∅ s ->
  wp (example_app NEWRELIC_VERSION getenv tracing distributed) (fun r s' => exists a, r = Some a /\ holds n (one a) ∅ ∅ ∅ s') s.
Proof.
  intros Henv Hs. pose proof Henv as ((name & Ename & Hname) & (key & Ekey & Hkey) & _). unfold example_app.
  eapply wp_step; [by apply example_init_step|]. intros ? s1 Hs1. cbv beta.
  unfold get_app_name, get_license_key. rewrite Ename, Ekey. eapply wp_bind, wp_ret. cbv beta iota. eapply wp_bind, wp_ret. cbv beta iota.
  rewrite create_app_config_some by (done || (cbn; lia)). eapply wp_bind, wp_some. cbv beta.
  eapply wp_step; [apply customize_step; [exact Henv|by apply default_terminated|by vm_compute|exact Hs1]|]. intros [ok cfg] s2 (c & [= -> ->] & Hc & Hs2).
  cbv beta iota zeta. cbn [from_option id].
  apply (wp_step _ _ _ _ (fun r s' => exists c', r = Some c' /\ terminated c' /\ holds n ∅ ∅ ∅ ∅ s')).
  { destruct tracing; [eapply wp_bind, wp_some; cbv beta|]; apply wp_ret; by eexists. }
  intros r s3 (c2 & -> & Hc2 & Hs3). cbv beta.
  apply (wp_step _ _ _ _ (fun r s' => exists c', r = Some c' /\ terminated c' /\ holds n ∅ ∅ ∅ ∅ s')).
  { destruct distributed; [eapply wp_bind, wp_some; cbv beta|]; apply wp_ret; by eexists. }
  intros r s4 (c3 & -> & Hc3 & Hs4). cbv beta.
  eapply wp_step; [apply (wp_api _ (fun a v => inside (16 * Z.of_nat n) (one a) ∅ ∅ ∅ v)); by apply create_app_inside|].
  intros a s5 Hs5. cbv beta zeta. apply wp_ret. by exists a.
Qed.

(** ** The programs *)

(** One call of a program, by the lemma for it. *)
Ltac call L := eapply wp_step; [eapply L; try eassumption; try apply elem_of_one; try done; try (by vm_compute)|]; cbv beta.
(** A call on NULL, with its result and the name of what holds then. *)
Ltac on_null H result H' :=
  eapply wp_step; [eapply (null_step _ _ _ _ _ _ result); [exact H|reflexivity]|]; cbv beta; intros ? ? [-> H'].

Lemma end_null n apps txns segs evs p s :
  p = None -> holds n apps txns segs evs s ->
  wp (end_segment realloc_ok clock None p) (fun r s' => r = None /\ holds n apps txns segs evs s') s.
Proof.
  intros -> Hs. unfold end_segment. eapply wp_step; [by apply (null_step n apps txns segs evs _ (false, Some None))|].
  intros r s1 [-> Hs1]. by apply wp_ret.
Qed.

Lemma holds_txn n apps txns segs evs x s : holds n apps txns segs evs s -> x ∈ txns -> is_Some (sd_txns (pr_sdk s) !! x).
Proof. apply inside_handle. Qed.

Lemma holds_segment n apps txns segs evs p s : holds n apps txns segs evs s -> p ∈ segs -> is_Some (sd_segments (pr_sdk s) !! p).
Proof. apply inside_segment. Qed.

Lemma holds_le n n' apps txns segs evs s : holds n apps txns segs evs s -> (n' <= n)%nat -> holds n' apps txns segs evs s.
Proof. intros Hs Hn. eapply inside_le; [exact Hs|]. lia. Qed.

(** A call of the session on handles that are there. *)
Ltac quiet c H' :=
  eapply wp_step;
    [ eapply (quiet_step _ _ _ _ _ c);
      [ eassumption
      | first [ eapply holds_txn; [eassumption|apply elem_of_one]
              | split; eapply holds_segment; [eassumption|set_solver|eassumption|set_solver]
              | eapply holds_segment; [eassumption|set_solver] ]
      | reflexivity | reflexivity ]
    |]; cbv beta; intros ? ? H'.

(** The end of a program. *)
Lemma example_end_last n x a evs s :
  holds n (one a) (one x) ∅ evs s -> (0 < n)%nat ->
  wp (example_end NEWRELIC_VERSION x a) (fun code s' => code = 0 /\ holds 0 ∅ ∅ ∅ evs s') s.
Proof.
  intros Hs Hn. destruct n as [|n]; [lia|]. eapply wp_mono; [by apply (example_end_step n)|].
  intros code s' [-> Hs']. split; [done|]. eapply holds_le; [exact Hs'|lia].
Qed.

(** Programs that leave no handle. *)
Definition runs (m : program Z) : Prop :=
  forall s, environment_ok -> holds 32 ∅ ∅ ∅ ∅ s -> wp m (fun code s' => code = 0 /\ holds 0 ∅ ∅ ∅ ∅ s') s.

(** Once an application is there, or NULL. *)
Lemma runs_app tracing distributed (f : option app_ptr -> program Z) :
  (forall a s, holds 32 (one a) ∅ ∅ ∅ s -> wp (f a) (fun code s' => code = 0 /\ holds 0 ∅ ∅ ∅ ∅ s') s) ->
  runs (connected ← example_app NEWRELIC_VERSION getenv tracing distributed;
        match connected with None => mret (-1) | Some app => f app end).
Proof.
  intros Hf s Henv Hs. eapply wp_step; [by apply (example_app_step 32)|]. intros r s1 (a & -> & Hs1). by apply Hf.
Qed.

Lemma ex_external_runs : runs (ex_external realloc_ok clock NEWRELIC_VERSION getenv others).
Proof.
  apply runs_app. intros a s Hs. call start_transaction_step. intros [x|] s1 Hs1.
  - call start_external_step. intros ? s2 (p & -> & Hp & Hs2). call others_step. intros ? s3 Hs3.
    call end_segment_step. intros ? s4 [-> Hs4]. eapply example_end_last; [exact Hs4|lia].
  - on_null Hs1 (@None sdk_seg_ptr) Hs2. call others_step. intros ? s3 Hs3. call end_null. intros ? s4 [-> Hs4].
    eapply example_end_last; [exact Hs4|lia].
Qed.

Lemma datastore_example_short (hostname : cstr) :
  short_string hostname = true -> datastore_params_short datastore_example_params hostname = true.
Proof.
  intros Hh. unfold datastore_params_short. rewrite Hh, andb_true_r. by vm_compute.
Qed.

Lemma ex_datastore_runs : runs (ex_datastore realloc_ok clock NEWRELIC_VERSION getenv others).
Proof.
  apply runs_app. intros a s Hs. call start_transaction_step. intros [x|] s1 Hs1.
  - eapply wp_step; [eapply start_datastore_step; [exact Hs1|apply elem_of_one|by vm_compute|apply datastore_example_short]|]; cbv beta.
    intros ? s2 (p & -> & Hp & Hs2). call others_step. intros ? s3 Hs3.
    call end_segment_step. intros ? s4 [-> Hs4]. eapply example_end_last; [exact Hs4|lia].
  - on_null Hs1 (@None sdk_seg_ptr) Hs2. call others_step. intros ? s3 Hs3. call end_null. intros ? s4 [-> Hs4].
    eapply example_end_last; [exact Hs4|lia].
Qed.

Lemma ex_timing_runs : runs (ex_timing realloc_ok clock NEWRELIC_VERSION getenv others).
Proof.
  apply runs_app. intros a s Hs. call start_transaction_step. intros [x|] s1 Hs1; call now_us_step; intros now s2 Hs2.
  - quiet (SetTransactionTiming (O := O) x now 2000000) Hs3. call start_segment_step. intros ? s4 (p & -> & Hp & Hs4).
    call others_step. intros ? s5 Hs5. quiet (SetSegmentTiming (O := O) p 0 500000) Hs6.
    call end_segment_step. intros ? s7 [-> Hs7]. eapply example_end_last; [exact Hs7|lia].
  - on_null Hs2 false Hs3. on_null Hs3 (@None sdk_seg_ptr) Hs4. call others_step. intros ? s5 Hs5. on_null Hs5 false Hs6.
    call end_null. intros ? s7 [-> Hs7]. eapply example_end_last; [exact Hs7|lia].
Qed.

Lemma ex_segment_runs : runs (ex_segment realloc_ok clock NEWRELIC_VERSION getenv others).
Proof.
  apply runs_app. intros a s Hs. call start_transaction_step. intros [x|] s1 Hs1; call now_us_step; intros now s2 Hs2.
  - quiet (SetTransactionTiming (O := O) x now 5500000) Hs3. call start_segment_step. intros ? s4 (p & -> & Hp & Hs4).
    call others_step. intros ? s5 Hs5. call end_segment_step. intros ? s6 [-> Hs6].
    call start_segment_step. intros ? s7 (pa & -> & Hpa & Hs7). call others_step. intros ? s8 Hs8.
    call start_segment_step. intros ? s9 (pb & -> & Hpb & Hs9). call others_step. intros ? s10 Hs10.
    call start_segment_step. intros ? s11 (pc & -> & Hpc & Hs11).
    quiet (SetSegmentParent (O := O) pc pa) Hs12. quiet (SetSegmentTiming (O := O) pc 10 500000) Hs13.
    call end_segment_step. intros ? s14 [-> Hs14].
    call start_segment_step. intros ? s15 (pd & -> & Hpd & Hs15). call others_step. intros ? s16 Hs16.
    quiet (SetSegmentParentRoot (O := O) pd) Hs17. call end_segment_step. intros ? s18 [-> Hs18].
    call end_segment_step. intros ? s19 [-> Hs19]. call end_segment_step. intros ? s20 [-> Hs20].
    eapply example_end_last; [exact Hs20|lia].
  - on_null Hs2 false Hs3. on_null Hs3 (@None sdk_seg_ptr) Hs4. call others_step. intros ? s5 Hs5. call end_null. intros ? s6 [-> Hs6].
    on_null Hs6 (@None sdk_seg_ptr) Hs7. call others_step. intros ? s8 Hs8.
    on_null Hs8 (@None sdk_seg_ptr) Hs9. call others_step. intros ? s10 Hs10.
    on_null Hs10 (@None sdk_seg_ptr) Hs11. on_null Hs11 false Hs12. on_null Hs12 false Hs13. call end_null. intros ? s14 [-> Hs14].
    on_null Hs14 (@None sdk_seg_ptr) Hs15. call others_step. intros ? s16 Hs16. on_null Hs16 false Hs17.
    call end_null. intros ? s18 [-> Hs18]. call end_null. intros ? s19 [-> Hs19]. call end_null. intros ? s20 [-> Hs20].
    eapply example_end_last; [exact Hs20|lia].
Qed.

Lemma ex_notice_error_runs : runs (ex_notice_error clock NEWRELIC_VERSION HAVE_BACKTRACE getenv others).
Proof.
  apply runs_app. intros a s Hs. call start_transaction_step. unfold newrelic_add_attribute_int, record_error. intros [x|] s1 Hs1.
  - quiet (AddAttribute x (Some (str "Custom_int")) (Some (nro_new_int (2 ^ 31 - 1)))) Hs2. call others_step. intros ? s3 Hs3.
    quiet (NoticeError (O := O) x 50 (Some (str "Meaningful error message")) (Some (str "Error.class.supervalu"))) Hs4.
    call others_step. intros ? s5 Hs5. eapply example_end_last; [exact Hs5|lia].
  - on_null Hs1 false Hs2. call others_step. intros ? s3 Hs3. on_null Hs3 tt Hs4. call others_step. intros ? s5 Hs5.
    eapply example_end_last; [exact Hs5|lia].
Qed.

(** Without a transaction the event is neither recorded nor freed. *)
Lemma ex_custom_runs s :
  environment_ok -> holds 32 ∅ ∅ ∅ ∅ s ->
  wp (ex_custom realloc_ok clock NEWRELIC_VERSION getenv others)
    (fun code s' => code = 0 /\ exists evs, holds 0 ∅ ∅ ∅ evs s' /\ (size evs <= 1)%nat) s.
Proof.
  intros Henv Hs0. unfold ex_custom. eapply wp_step; [by apply (example_app_step 32)|]. intros r s0 (a & -> & Hs). cbv beta iota.
  unfold newrelic_custom_event_add_attribute_int, newrelic_custom_event_add_attribute_long, newrelic_custom_event_add_attribute_double,
    newrelic_custom_event_add_attribute_string.
  call start_transaction_step. intros [x|] s1 Hs1.
  - call start_segment_step. intros ? s2 (p & -> & Hp & Hs2). call others_step. intros ? s3 Hs3.
    eapply wp_step.
    { eapply (quiet_step _ _ _ _ _ (RecordCustomMetric (O := O) x (str "Custom/YourMetric/Label") (double_of_int 100)));
        [exact Hs3| |reflexivity|reflexivity].
      split; [eapply holds_txn; [exact Hs3|apply elem_of_one]|]. split; [by vm_compute|]. right. by eexists. }
    cbv beta. intros ? s4 Hs4. call create_event_step. intros ? s5 (e & -> & He & Hs5).
    call set_attribute_step; [set_solver|]. intros ? s6 Hs6. call set_attribute_step; [set_solver|]. intros ? s7 Hs7.
    call set_attribute_step; [set_solver|]. intros ? s8 Hs8. call set_attribute_step; [set_solver|]. intros ? s9 Hs9.
    call record_event_step. intros ? s10 Hs10. call end_segment_step. intros ? s11 [-> Hs11].
    eapply wp_mono; [eapply example_end_last; [exact Hs11|lia]|]. intros code s12 [-> Hs12]. split; [done|].
    exists ∅. split; [exact Hs12|]. rewrite size_empty. lia.
  - on_null Hs1 (@None sdk_seg_ptr) Hs2. call others_step. intros ? s3 Hs3. on_null Hs3 false Hs4.
    call create_event_step. intros ? s5 (e & -> & He & Hs5).
    call set_attribute_step; [set_solver|]. intros ? s6 Hs6. call set_attribute_step; [set_solver|]. intros ? s7 Hs7.
    call set_attribute_step; [set_solver|]. intros ? s8 Hs8. call set_attribute_step; [set_solver|]. intros ? s9 Hs9.
    on_null Hs9 (Some (Some e)) Hs10. call end_null. intros ? s11 [-> Hs11].
    eapply wp_mono; [eapply example_end_last; [exact Hs11|lia]|]. intros code s12 [-> Hs12]. split; [done|].
    eexists. split; [exact Hs12|]. rewrite union_empty_r_L, size_singleton. lia.
Qed.

(** The license key of [ex_simple.c] is a placeholder: there is no configuration, and every call is on NULL. *)
Lemma ex_simple_runs n apps txns segs evs s :
  holds n apps txns segs evs s ->
  wp (ex_simple realloc_ok clock NEWRELIC_VERSION others)
    (fun code s' => (code = 0 \/ code = -1) /\ holds n apps txns segs evs s') s.
Proof.
  intros Hs. unfold ex_simple. eapply wp_bind.
  replace (newrelic_create_app_config (Some (str "YOUR_APP_NAME")) (Some (str "_NEW_RELIC_LICENSE_KEY_")))
    with (Some (@None newrelic_app_config_t)) by by vm_compute.
  apply wp_some. call log_step. intros [] s1 Hs1; cbn [negb].
  2:{ call printf_step. intros ? s2 Hs2. apply wp_ret. split; [by right|done]. }
  call init_step. intros [] s2 Hs2; cbn [negb].
  2:{ call printf_step. intros ? s3 Hs3. apply wp_ret. split; [by right|done]. }
  on_null Hs2 (@None app_ptr) Hs3. cbv zeta. on_null Hs3 (@None sdk_txn_ptr) Hs4. on_null Hs4 (@None sdk_seg_ptr) Hs5.
  call others_step. intros ? s6 Hs6. call end_null. intros ? s7 [-> Hs7]. unfold example_end.
  on_null Hs7 (false, Some (@None sdk_txn_ptr)) Hs8. on_null Hs8 (false, Some (@None app_ptr)) Hs9. apply wp_ret. split; [by left|done].
Qed.

(** ** What programs print *)

(** More output. *)
Definition say (texts : list cstr) (b : surroundings) : surroundings :=
  mk_surroundings (su_files b) (su_strings b) (su_out b ++ texts) (su_turns b).

Lemma say_nil b : say [] b = b.
Proof. destruct b. unfold say. cbn. by rewrite app_nil_r. Qed.

Lemma say_app l1 l2 b : say l2 (say l1 b) = say (l1 ++ l2) b.
Proof. unfold say. cbn. by rewrite app_assoc. Qed.

(** Beside the SDK the program only prints, texts that are [ok]. *)
Definition only_prints (ok : cstr -> Prop) {T : Type} (m : program T) : Prop :=
  forall s x s', m s = Some (x, s') -> exists texts, pr_beside s' = say texts (pr_beside s) /\ Forall ok texts.

Lemma prints_ret ok {T : Type} (x : T) : only_prints ok (mret x : program T).
Proof. intros s y s' [= <- <-]. exists []. by rewrite say_nil. Qed.

Lemma prints_bind ok {T U : Type} (m : program T) (k : T -> program U) :
  only_prints ok m -> (forall x, only_prints ok (k x)) -> only_prints ok (m ≫= k).
Proof.
  intros Hm Hk s y s' E. unfold mbind, program_bind in E. destruct (m s) as [[x s1]|] eqn:E1; [|done].
  destruct (Hm _ _ _ E1) as (l1 & Eb1 & H1'). destruct (Hk x _ _ _ E) as (l2 & Eb2 & H2').
  exists (l1 ++ l2). rewrite Eb2, Eb1, say_app. split; [done|]. by apply Forall_app.
Qed.

Lemma prints_api ok {T : Type} (m : prog T) : only_prints ok (api m).
Proof.
  intros s x s' E. unfold api in E. destruct (m (pr_sdk s)) as [[y v]|]; [|done]. injection E as <- <-. exists []. by rewrite say_nil.
Qed.

Lemma prints_some ok {T : Type} (o : option T) : only_prints ok (crash_if_none (S := S) (P := P) (M := M) (A := A) (O := O) o).
Proof. intros s x s' E. destruct o; [|done]. injection E as <- <-. exists []. by rewrite say_nil. Qed.

Lemma prints_printf (ok : cstr -> Prop) text : ok text -> only_prints ok (printf text).
Proof. intros Hok s x s' [= <- <-]. exists [text]. split; [done|]. by apply Forall_singleton. Qed.

(** A known result, and what was printed on the way. *)
Lemma wp_prints ok {T : Type} (m : program T) (Q : T -> process -> Prop) s :
  wp m Q s -> only_prints ok m ->
  wp m (fun x s' => Q x s' /\ exists texts, pr_beside s' = say texts (pr_beside s) /\ Forall ok texts) s.
Proof. intros (x & s' & E & HQ) Hm. exists x, s'. split; [done|]. split; [done|]. by eapply Hm. Qed.

(** What prints nothing leaves what is beside the SDK. *)
Lemma wp_silent {T : Type} (m : program T) (Q : T -> process -> Prop) s :
  wp m Q s -> only_prints (fun _ => False) m -> wp m (fun x s' => Q x s' /\ pr_beside s' = pr_beside s) s.
Proof.
  intros HQ Hm. eapply wp_mono; [by apply (wp_prints _ _ _ _ HQ Hm)|]. intros x s' (HQ' & texts & -> & Htexts). split; [done|].
  destruct texts as [|text texts]; [apply say_nil|]. by apply Forall_inv in Htexts.
Qed.

(** The text that the server prints for each payload. *)
Definition accept_text : cstr := str "Accept payload." ++ newline.

Ltac prints_step :=
  match goal with
  | |- only_prints _ (_ ≫= _) => apply prints_bind; [|intros ?]
  | |- only_prints _ (mret _) => apply prints_ret
  | |- only_prints _ (api _) => apply prints_api
  | |- only_prints _ (crash_if_none _) => apply prints_some
  | |- only_prints _ (printf _) => apply prints_printf; by vm_compute
  | |- only_prints _ (match ?x with _ => _ end) => destruct x
  end.

Lemma end_segment_silent txn seg : only_prints (fun _ => False) (end_segment realloc_ok clock txn seg).
Proof. unfold end_segment. repeat prints_step. Qed.

Lemma example_end_silent txn app : only_prints (fun _ => False) (example_end NEWRELIC_VERSION txn app).
Proof. unfold example_end. repeat prints_step. Qed.

Lemma example_init_prints : only_prints (fun text => text <> accept_text) example_init.
Proof. unfold example_init. repeat prints_step. Qed.

Lemma example_app_prints tracing distributed :
  only_prints (fun text => text <> accept_text) (example_app NEWRELIC_VERSION getenv tracing distributed).
Proof.
  unfold example_app. apply prints_bind; [apply example_init_prints|intros _].
  unfold get_app_name, get_license_key, customize_config. repeat (cbv zeta; prints_step).
Qed.

(** ** Distributed tracing *)

(** The run itself. *)
Lemma wp_run {T : Type} (m : program T) (Q : T -> process -> Prop) s :
  wp m Q s -> wp m (fun x s' => Q x s' /\ m s = Some (x, s')) s.
Proof. intros (x & s' & E & HQ). by exists x, s'. Qed.

(** Steps from a state that is written out. *)
Lemma wp_api_at {T U : Type} (m : prog T) (k : T -> program U) (R : T -> process -> Prop) Q v b :
  wp (api m) R (mk_process v b) ->
  (forall r v', m v = Some (r, v') -> R r (mk_process v' b) -> wp (k r) Q (mk_process v' b)) ->
  wp (api m ≫= k) Q (mk_process v b).
Proof.
  intros (r & s' & E & HR) Hk. apply wp_bind. unfold api in E. cbn [pr_sdk pr_beside] in E.
  destruct (m v) as [[x v']|] eqn:Em; [|done]. injection E as <- <-. exists x, (mk_process v' b). unfold api. cbn [pr_sdk pr_beside].
  rewrite Em. split; [done|]. by apply Hk.
Qed.

Lemma wp_outside_at {T U : Type} (f : surroundings -> option (T * surroundings)) (k : T -> program U) Q x b b' v :
  f b = Some (x, b') -> wp (k x) Q (mk_process v b') -> wp (outside f ≫= k) Q (mk_process v b).
Proof.
  intros E Hk. apply wp_bind. exists x, (mk_process v b'). unfold outside. cbn [pr_sdk pr_beside]. by rewrite E.
Qed.

(** A file of the usual kind, whose size [ftell] can say. *)
Definition regular (f : file) : Prop := exists bytes, f = Regular bytes /\ Z.of_nat (length bytes) < 2 ^ 63.
Definition files_regular (f : file_system) : Prop := forall i x, fs_contents f !! i = Some x -> regular x.

Lemma file_at_regular f i : files_regular f -> regular (file_at f i).
Proof.
  intros Hf. unfold file_at. destruct (fs_contents f !! i) as [x|] eqn:E; [by eapply Hf|]. exists []. by split.
Qed.

(** Reading a regular file gives a block that holds its bytes, when there is memory for them. *)
Lemma read_file_at {U : Type} (k : option positive -> program U) Q i bytes v b :
  file_at (su_files b) i = Regular bytes -> Z.of_nat (length bytes) < 2 ^ 63 ->
  (if realloc_ok (Z.of_nat (length bytes) + 1)
   then wp (k (Some (new_string bytes b).1)) Q (mk_process v (new_string bytes b).2)
   else wp (k None) Q (mk_process v b)) ->
  wp (read_file realloc_ok (Some i) ≫= k) Q (mk_process v b).
Proof.
  intros Hi Hlen Hk. unfold read_file. destruct (realloc_ok (Z.of_nat (length bytes) + 1)) eqn:Emem.
  all: eapply wp_outside_at; [|exact Hk]; rewrite Hi; cbn [ftell_at_end file_bytes].
  all: rewrite (u64_id (Z.of_nat (length bytes))), u64_id, Emem by (unfold in_u64; lia).
  2: done.
  destruct (Z.ltb_spec (Z.of_nat (length bytes)) (Z.of_nat (length bytes) + 1)); [|lia].
  unfold filled. by rewrite Z.ltb_irrefl, Nat2Z.id, firstn_all.
Qed.

(** A new block is no old one. *)
Lemma new_string_fresh text b : su_strings b !! (new_string text b).1 = None.
Proof. apply not_elem_of_dom, is_fresh. Qed.

Lemma string_at_at {U : Type} (k : option cstr -> program U) Q p text v b :
  su_strings b !! p = Some text -> wp (k (Some text)) Q (mk_process v b) -> wp (string_at (Some p) ≫= k) Q (mk_process v b).
Proof. intros Hp Hk. eapply wp_outside_at; [|exact Hk]. by rewrite Hp. Qed.

(** Opening a file to write it. *)
Definition opened (name : cstr) (i : positive) b : surroundings :=
  with_files (mk_files (<[name := i]> (fs_names (su_files b))) (<[i := emptied (file_at (su_files b) i)]> (fs_contents (su_files b)))) b.

Lemma fopen_w_at {U : Type} name (k : option positive -> program U) Q v b :
  (if may_write name
   then forall i, (fs_names (su_files b) !! name = None -> i = fresh (dom (fs_contents (su_files b)))) ->
          wp (k (Some i)) Q (mk_process v (opened name i b))
   else wp (k None) Q (mk_process v b)) ->
  wp (fopen_w may_write name ≫= k) Q (mk_process v b).
Proof.
  intros Hk. unfold fopen_w. destruct (may_write name); [|by apply wp_bind, wp_ret]. eapply wp_outside_at; [done|].
  apply Hk. by intros ->.
Qed.

(** Errors are noted on a transaction that is there, or not at all. *)
Lemma notice_error_step n apps x segs evs priority errmsg errclass s :
  holds (Datatypes.S n) apps (one x) segs evs s ->
  wp (api (newrelic_notice_error clock HAVE_BACKTRACE x priority errmsg errclass)) (fun _ s' => holds n apps (one x) segs evs s') s.
Proof.
  intros Hs. destruct x as [x|].
  - eapply (quiet_step _ _ _ _ _ (NoticeError (O := O) x priority errmsg errclass)); [exact Hs| |reflexivity|reflexivity].
    eapply holds_txn; [exact Hs|apply elem_of_one].
  - eapply wp_mono; [eapply (null_step _ _ _ _ _ _ tt); [exact Hs|reflexivity]|]. intros r s' [_ Hs']. eapply holds_le; [exact Hs'|lia].
Qed.

(** A payload is accepted by a transaction that is there, or not at all. *)
Lemma accept_any_step n a x payload transport s :
  holds (Datatypes.S n) (one a) (one x) ∅ ∅ s ->
  wp (api (newrelic_accept_distributed_trace_payload_httpsafe x payload transport)) (fun _ s' => holds n (one a) (one x) ∅ ∅ s') s.
Proof.
  intros Hs. destruct x as [x|]; [apply accept_payload_step; [exact Hs|apply elem_of_one]|].
  eapply wp_mono; [eapply (null_step _ _ _ _ _ _ false); [exact Hs|reflexivity]|]. intros r s' [_ Hs']. eapply holds_le; [exact Hs'|lia].
Qed.

(** *** The server *)

(** The calls of one turn that found a request, from its start to its end. *)
Definition turn_calls (a : option app_ptr) (accepted : bool) (payload : cstr) v v' : Prop :=
  exists x v1 v2 v3 r,
    newrelic_start_web_transaction a (Some (str "ExampleDTServer")) v = Some (x, v1)
    /\ (if accepted then exists ok, newrelic_accept_distributed_trace_payload_httpsafe x (Some payload) (Some (str "Other")) v1 = Some (ok, v2)
        else v2 = v1)
    /\ (if may_write RESPONSE_FILE then v3 = v2
        else newrelic_notice_error clock HAVE_BACKTRACE x 50 (Some (str "Cannot send response")) (Some (str "Error.class.response")) v2
             = Some (tt, v3))
    /\ newrelic_end_transaction NEWRELIC_VERSION (Some x) v3 = Some (r, v').

(** What a turn does to the names of the files. *)
Definition answered f f' : Prop :=
  fs_names f' !! REQUEST_FILE = None
  /\ (may_write RESPONSE_FILE = true -> is_Some (fs_names f' !! RESPONSE_FILE))
  /\ forall name, name <> REQUEST_FILE -> (name = RESPONSE_FILE -> may_write RESPONSE_FILE = false) ->
       fs_names f' !! name = fs_names f !! name.

(** One turn of the server.  A request that is there when it looks is read after its sleep; when there
    is memory to read it, it is accepted, and one copy of it stays allocated; then the request is gone
    and, if it can be written, the response is there. *)
Definition server_turn (a : option app_ptr) s s' : Prop :=
  let b := pr_beside s in
  let b' := pr_beside s' in
  let f := others (su_turns b) (su_files b) in
  match fs_names f !! REQUEST_FILE with
  | None => s' = mk_process (pr_sdk s) (mk_surroundings f (su_strings b) (su_out b) (Datatypes.S (su_turns b)))
  | Some i =>
      let f2 := others (Datatypes.S (su_turns b)) f in
      let payload := file_bytes (file_at f2 i) in
      let accepted := realloc_ok (Z.of_nat (length payload) + 1) in
      turn_calls a accepted payload (pr_sdk s) (pr_sdk s')
      /\ answered f2 (su_files b') /\ su_turns b' = Datatypes.S (Datatypes.S (su_turns b))
      /\ su_out b' = su_out b ++ [str "Request received." ++ newline] ++ (if accepted then [accept_text] else [])
           ++ [if may_write RESPONSE_FILE then str "Writing response." ++ newline ++ newline
               else str "Error writing response." ++ newline ++ newline]
      /\ if accepted then exists p, su_strings b !! p = None /\ su_strings b' = <[p := payload]> (su_strings b)
         else su_strings b' = su_strings b
  end.

Fixpoint server_turns (turns : nat) (a : option app_ptr) s s' : Prop :=
  match turns with
  | Datatypes.O => s' = s
  | Datatypes.S turns => exists s1, server_turn a s s1 /\ server_turns turns a s1 s'
  end.

(** The files stay regular. *)
Definition others_regular : Prop := forall n f, files_regular f -> files_regular (others n f).

(** Reading the payload twice, accepting the second copy and freeing the first. *)
Lemma accept_at {U : Type} (k : unit -> program U) Q n a x file bytes v b :
  holds (Datatypes.S n) (one a) (one x) ∅ ∅ (mk_process v b) -> file_at (su_files b) file = Regular bytes ->
  Z.of_nat (length bytes) < 2 ^ 63 ->
  let accepted := realloc_ok (Z.of_nat (length bytes) + 1) in
  (forall v' strings, holds n (one a) (one x) ∅ ∅ (mk_process v' b) ->
     (if accepted then exists ok, newrelic_accept_distributed_trace_payload_httpsafe x (Some bytes) (Some (str "Other")) v = Some (ok, v')
      else v' = v) ->
     (if accepted then exists p, su_strings b !! p = None /\ strings = <[p := bytes]> (su_strings b) else strings = su_strings b) ->
     wp (k tt) Q (mk_process v' (mk_surroundings (su_files b) strings (su_out b ++ (if accepted then [accept_text] else [])) (su_turns b)))) ->
  wp (payload ← read_file realloc_ok (Some file);
      _ ← (match payload with
           | None => mret tt
           | Some _ =>
               _ ← printf (str "Accept payload." ++ newline);
               again ← read_file realloc_ok (Some file);
               text ← string_at again;
               _ ← api (newrelic_accept_distributed_trace_payload_httpsafe x text (Some (str "Other")));
               free payload
           end);
      k tt) Q (mk_process v b).
Proof.
  intros Hs Hfile Hlen accepted Hk. unfold accepted in *. clear accepted. apply (read_file_at _ _ _ bytes); [done|done|].
  destruct (realloc_ok _) eqn:Emem.
  2:{ apply wp_bind, wp_ret. specialize (Hk v (su_strings b)). rewrite app_nil_r in Hk. destruct b. apply Hk; [|done|done].
      eapply inside_le; [exact Hs|lia]. }
  pose proof (new_string_fresh bytes b) as Hp. set (p := (new_string bytes b).1) in *.
  assert (Ep : su_strings (new_string bytes b).2 = <[p := bytes]> (su_strings b)) by done.
  assert (Eb : (new_string bytes b).2 = with_strings (<[p := bytes]> (su_strings b)) b) by done.
  rewrite Eb. clear Eb Ep. clearbody p. apply wp_bind. eapply wp_outside_at; [done|].
  set (b2 := mk_surroundings _ _ _ _). apply (read_file_at _ _ _ bytes); [done|done|]. rewrite Emem.
  pose proof (new_string_fresh bytes b2) as Hq. assert (Eq : (new_string bytes b2).2 = with_strings (<[(new_string bytes b2).1 := bytes]> (su_strings b2)) b2) by done.
  rewrite Eq. clear Eq. set (q := (new_string bytes b2).1) in *. clearbody q. unfold b2 in Hq. cbn [su_strings with_strings] in Hq.
  apply lookup_insert_None in Hq as [Hq Hpq].
  eapply string_at_at; [apply lookup_insert_eq|]. eapply wp_api_at; [by apply (accept_any_step n)|]. intros ok v' Eok Hs'. cbv beta.
  unfold b2 in *. clear b2.
  eapply wp_outside; [cbn [pr_beside with_strings su_strings]; rewrite lookup_insert_ne, lookup_insert_eq by done; reflexivity|].
  cbn [pr_sdk with_strings su_files su_strings su_out su_turns]. rewrite delete_insert_ne, delete_insert_id by done.
  apply Hk; [exact Hs'|by exists ok|by exists q].
Qed.

(** Writing the response, or noting that it cannot be written. *)
Lemma respond_at {U : Type} (k : unit -> program U) Q n a x v b :
  holds (Datatypes.S n) (one a) (one x) ∅ ∅ (mk_process v b) -> files_regular (su_files b) -> fs_names (su_files b) !! REQUEST_FILE = None ->
  (forall v' f, holds n (one a) (one x) ∅ ∅ (mk_process v' b) -> files_regular f -> answered (su_files b) f ->
     (if may_write RESPONSE_FILE then v' = v
      else newrelic_notice_error clock HAVE_BACKTRACE x 50 (Some (str "Cannot send response")) (Some (str "Error.class.response")) v
           = Some (tt, v')) ->
     wp (k tt) Q (mk_process v' (say [if may_write RESPONSE_FILE then str "Writing response." ++ newline ++ newline
                                      else str "Error writing response." ++ newline ++ newline] (with_files f b)))) ->
  wp (response_file ← fopen_w may_write RESPONSE_FILE;
      _ ← (match response_file with
           | Some _ => printf (str "Writing response." ++ newline ++ newline)
           | None =>
               _ ← api (newrelic_notice_error clock HAVE_BACKTRACE x 50 (Some (str "Cannot send response"))
                          (Some (str "Error.class.response")));
               printf (str "Error writing response." ++ newline ++ newline)
           end);
      k tt) Q (mk_process v b).
Proof.
  intros Hs Hf Hgone Hk. apply fopen_w_at. unfold answered in Hk. destruct (may_write RESPONSE_FILE).
  - intros i _. eapply wp_outside_at; [done|]. apply (Hk v (su_files (opened RESPONSE_FILE i b))); [eapply inside_le; [exact Hs|lia]| | |done].
    + intros j y. cbn [opened with_files su_files fs_contents]. rewrite lookup_insert_Some. intros [[<- <-]|[_ Hy]]; [|by eapply Hf].
      destruct (file_at_regular (su_files b) i Hf) as (l & -> & _). exists []. by split.
    + cbn [opened with_files su_files fs_names]. rewrite lookup_insert_ne by by vm_compute. split; [done|].
      split; [rewrite lookup_insert_eq; by eexists|]. intros name Hne Hresp. by rewrite lookup_insert_ne by (intros <-; by discriminate Hresp).
  - apply wp_bind. eapply wp_api_at; [by apply (notice_error_step n)|]. intros [] v' E Hs'. cbv beta. eapply wp_outside; [done|].
    cbn [pr_sdk]. destruct b as [f strings out turns]. apply (Hk v' f); [done|done| |done]. done.
Qed.

(** The server leaves no transaction behind. *)
Lemma serve_once_step n a s :
  holds (4 + n) (one a) ∅ ∅ ∅ s -> files_regular (su_files (pr_beside s)) -> others_regular ->
  wp (serve_once realloc_ok clock NEWRELIC_VERSION HAVE_BACKTRACE may_write others a)
    (fun _ s' => holds n (one a) ∅ ∅ ∅ s' /\ server_turn a s s' /\ files_regular (su_files (pr_beside s'))) s.
Proof.
  destruct s as [v b]. intros Hs Hfiles Hothers. unfold serve_once, server_turn. cbn [pr_sdk pr_beside].
  eapply wp_outside_at; [done|]. eapply wp_outside_at; [done|]. cbn [su_files]. pose proof (Hothers (su_turns b) _ Hfiles) as Hf1.
  destruct (fs_names (others (su_turns b) (su_files b)) !! REQUEST_FILE) as [file|].
  2:{ apply wp_ret. split; [eapply inside_le; [exact Hs|lia]|done]. }
  eapply wp_outside_at; [done|]. eapply wp_api_at; [by apply (start_transaction_step (3 + n))|]. intros x v1 Ex Hs1. cbv beta in Hs1 |- *.
  eapply wp_outside_at; [done|]. cbn [su_files su_strings su_out su_turns].
  pose proof (Hothers (Datatypes.S (su_turns b)) _ Hf1) as Hf2. set (f2 := others (Datatypes.S (su_turns b)) _) in *.
  destruct (file_at_regular f2 file Hf2) as (bytes & Ef & Hlen). rewrite Ef. cbn [file_bytes].
  apply (accept_at (fun _ => _) _ (2 + n) a x file bytes); [done|done|done|]. cbn [su_files su_strings su_out su_turns].
  intros v2 strings Hs2 Hcall Hstr. eapply wp_outside_at; [done|].
  apply (respond_at (fun _ => _) _ (1 + n) a x); [done|done|apply lookup_delete_eq|]. intros v3 f3 Hs3 Hf3 Hanswer Hnote.
  eapply wp_api_at; [by apply (end_transaction_step n)|]. intros r v4 Eend Hs4. cbv beta in Hs4 |- *.
  apply wp_ret. split; [exact Hs4|]. cbn [pr_sdk pr_beside say with_files su_files su_strings su_out su_turns].
  split; [|done]. rewrite <- !app_assoc. split; [by exists x, v1, v2, v3, r|]. split; [|by split].
  destruct Hanswer as (Hgone & Hresp & Hnames). split; [done|]. split; [done|]. intros name Hne Hr. rewrite Hnames by done.
  cbn [with_files su_files fs_names]. by rewrite lookup_delete_ne.
Qed.

Lemma serve_step n turns a s :
  holds (4 * turns + n) (one a) ∅ ∅ ∅ s -> files_regular (su_files (pr_beside s)) -> others_regular ->
  wp (serve realloc_ok clock NEWRELIC_VERSION HAVE_BACKTRACE may_write others turns a)
    (fun _ s' => holds n (one a) ∅ ∅ ∅ s' /\ server_turns turns a s s') s.
Proof.
  intros Hs Hf Hothers. revert s Hs Hf. induction turns as [|turns IH]; intros s Hs Hf; cbn [serve server_turns]; [by apply wp_ret|].
  eapply wp_step; [apply (serve_once_step (4 * turns + n) a); [eapply holds_le; [exact Hs|lia]|done..]|].
  intros ? s1 (Hs1 & Hturn & Hf1). cbv beta. eapply wp_mono; [by apply IH|]. intros r s' [Hs' Hturns]. split; [done|]. by eexists.
Qed.

(** As many strings stay allocated as payloads were accepted. *)
Definition accepts b : nat := length (filter (fun text => text = accept_text) (su_out b)).

Lemma accepts_none texts : Forall (fun text => text <> accept_text) texts -> filter (fun text => text = accept_text) texts = [].
Proof. induction 1 as [|text l Hne _ IH]; [done|]. by rewrite filter_cons_False by done. Qed.

Definition leaks_accepted s : Prop := size (su_strings (pr_beside s)) = accepts (pr_beside s).

Lemma server_turn_leaks a s s' : server_turn a s s' -> leaks_accepted s -> leaks_accepted s'.
Proof.
  unfold server_turn, leaks_accepted, accepts. cbv zeta. destruct (fs_names _ !! REQUEST_FILE) as [i|]; [|by intros ->].
  intros (_ & _ & _ & -> & Hstr) E. rewrite !filter_app, !length_app, <- E. clear E. rewrite filter_cons_False, filter_nil by by vm_compute.
  assert (Hlast : filter (fun text => text = accept_text) [if may_write RESPONSE_FILE then str "Writing response." ++ newline ++ newline
    else str "Error writing response." ++ newline ++ newline] = []) by (destruct (may_write RESPONSE_FILE); by vm_compute).
  rewrite Hlast. destruct (realloc_ok _).
  - destruct Hstr as (p & Hp & ->). rewrite map_size_insert_None, filter_cons_True, filter_nil by done. cbn. lia.
  - rewrite Hstr, filter_nil. cbn. lia.
Qed.

Lemma server_turns_leaks turns a s s' : server_turns turns a s s' -> leaks_accepted s -> leaks_accepted s'.
Proof.
  revert s. induction turns as [|turns IH]; intros s; cbn [server_turns]; [by intros ->|]. intros (s1 & Hturn & Hturns) E.
  apply (IH s1 Hturns). by eapply server_turn_leaks.
Qed.

(** The files without one of the names. *)
Definition unlinked (name : cstr) (f : file_system) : file_system := mk_files (delete name (fs_names f)) (fs_contents f).

(** The server before its first turn: it has connected, and removed a response that was there. *)
Definition server_started (a : option app_ptr) s s0 : Prop :=
  exists texts, Forall (fun text => text <> accept_text) texts
    /\ (exists sc, example_app NEWRELIC_VERSION getenv true true s = Some (Some a, sc) /\ pr_sdk s0 = pr_sdk sc)
    /\ pr_beside s0 = with_files (unlinked RESPONSE_FILE (su_files (pr_beside s))) (say texts (pr_beside s)).

Lemma ex_distributed_tracing_server_runs turns s :
  environment_ok -> holds (4 * turns) ∅ ∅ ∅ ∅ s -> files_regular (su_files (pr_beside s)) -> others_regular ->
  wp (ex_distributed_tracing_server realloc_ok clock NEWRELIC_VERSION HAVE_BACKTRACE getenv may_write others turns)
    (fun code s' => code = None /\ exists a s0, holds 0 (one a) ∅ ∅ ∅ s' /\ server_started a s s0 /\ server_turns turns a s0 s') s.
Proof.
  intros Henv Hs Hf Hothers. unfold ex_distributed_tracing_server.
  eapply wp_step; [apply wp_run, wp_prints; [by apply (example_app_step (4 * turns))|apply example_app_prints]|].
  intros r [v1 b1] [((a & -> & Hs1) & texts & Hb1 & Htexts) Eapp]. cbv beta iota. cbn [pr_beside] in Hb1. subst b1.
  eapply wp_outside_at; [done|]. eapply wp_outside_at; [done|].
  eapply wp_step; [apply (serve_step 0 turns a); [eapply inside_le; [exact Hs1|lia]|exact Hf|done]|].
  intros ? s4 [Hs4 Hturns]. cbv beta. apply wp_ret. split; [done|]. exists a. eexists. split; [done|]. split; [|exact Hturns].
  exists (texts ++ [str "Server started, ready to accept requests." ++ newline]). split.
  - apply Forall_app. split; [done|]. apply Forall_singleton. by vm_compute.
  - split; [by eexists|]. by rewrite <- say_app.
Qed.

(** *** The client *)

(** The files when the client looks for the [j]th time; it lets others run before each look and while
    it sleeps. *)
Fixpoint files_at_look (j turn : nat) (f : file_system) : file_system :=
  match j with
  | Datatypes.O => others turn f
  | Datatypes.S j => files_at_look j (Datatypes.S (Datatypes.S turn)) (others (Datatypes.S turn) (others turn f))
  end.

(** The response is there at one of the first looks. *)
Definition response_appears (looks turn : nat) (f : file_system) : Prop :=
  exists j, (j < looks)%nat /\ is_Some (fs_names (files_at_look j turn f) !! RESPONSE_FILE).

Lemma await_response_step n apps txns segs evs looks v b :
  holds n apps txns segs evs (mk_process v b) ->
  wp (await_response others looks) (fun r s' => pr_sdk s' = v /\ su_strings (pr_beside s') = su_strings b
    /\ (r = true <-> response_appears looks (su_turns b) (su_files b))
    /\ (r = true -> fs_names (su_files (pr_beside s')) !! RESPONSE_FILE = None)) (mk_process v b).
Proof.
  intros Hs. revert b Hs. induction looks as [|looks IH]; intros b Hs; cbn [await_response].
  { apply wp_ret. split; [done|]. split; [done|]. split; [|done]. split; [done|]. intros (j & Hj & _). lia. }
  eapply wp_outside_at; [done|]. eapply wp_outside_at; [done|]. cbn [su_files].
  destruct (fs_names (others (su_turns b) (su_files b)) !! RESPONSE_FILE) as [i|] eqn:E.
  - eapply wp_outside_at; [done|]. eapply wp_outside_at; [done|]. apply wp_ret. split; [done|]. split; [done|]. split.
    + split; [intros _; exists 0%nat; split; [lia|]; cbn; by rewrite E|done].
    + intros _. apply lookup_delete_eq.
  - eapply wp_outside_at; [done|]. eapply wp_mono; [by apply IH|]. cbn [su_files su_turns su_strings].
    intros r s' (Ev & Hstr & Hr & Hgone). split; [done|]. split; [done|]. split; [|done]. rewrite Hr. split.
    + intros (j & Hj & Hlook). exists (Datatypes.S j). split; [lia|done].
    + intros ([|j] & Hj & Hlook); [cbn in Hlook; rewrite E in Hlook; by destruct Hlook|]. exists j. split; [lia|done].
Qed.

(** The files with a request. *)
Definition requested (payload : cstr) (f : file_system) : file_system :=
  let i := fresh (dom (fs_contents f)) in
  mk_files (<[REQUEST_FILE := i]> (fs_names f)) (<[i := Regular payload]> (fs_contents f)).

(** The text of the request: the payload of a segment of a transaction. *)
Definition request_payload s (payload : cstr) : Prop :=
  exists a s0 x v1 p v2 created v3,
    example_app NEWRELIC_VERSION getenv true true s = Some (Some a, s0)
    /\ newrelic_start_web_transaction a (Some (str "ExampleDTClient")) (pr_sdk s0) = Some (x, v1)
    /\ newrelic_start_external_segment realloc_ok clock x (Some client_params) v1 = Some (p, v2)
    /\ newrelic_create_distributed_trace_payload_httpsafe x p v2 = Some (created, v3)
    /\ payload = c_str (default [] created).

(** The client has a segment when it has a transaction. *)
Definition segment_of (x p : option positive) (segs : gset positive) : Prop :=
  match x, p with Some _, Some p => segs = {[p]} | None, None => segs = ∅ | _, _ => False end.

Lemma client_segment_step n a x s :
  holds (Datatypes.S n) (one a) (one x) ∅ ∅ s ->
  wp (api (newrelic_start_external_segment realloc_ok clock x (Some client_params)))
    (fun p s' => exists segs, holds n (one a) (one x) segs ∅ s' /\ segment_of x p segs) s.
Proof.
  intros Hs. destruct x as [x|].
  - eapply wp_mono; [eapply start_external_step; [exact Hs|apply elem_of_one|by vm_compute|by vm_compute]|].
    intros ? s2 (p & -> & Hp & Hs2). eexists. split; [exact Hs2|]. apply union_empty_r_L.
  - eapply wp_mono; [eapply (null_step _ _ _ _ _ _ (@None sdk_seg_ptr)); [exact Hs|reflexivity]|].
    intros ? s2 [-> Hs2]. eexists. split; [|reflexivity]. eapply holds_le; [exact Hs2|lia].
Qed.

Lemma client_payload_step n a x p segs s :
  holds (Datatypes.S n) (one a) (one x) segs ∅ s -> segment_of x p segs ->
  wp (api (newrelic_create_distributed_trace_payload_httpsafe x p)) (fun _ s' => holds n (one a) (one x) segs ∅ s') s.
Proof.
  intros Hs Hsegs. unfold segment_of in Hsegs. destruct x as [x|], p as [p|]; try done; subst segs.
  - apply create_payload_step; [exact Hs|apply elem_of_one|by apply elem_of_singleton].
  - eapply wp_mono; [eapply (null_step _ _ _ _ _ _ (@None cstr)); [exact Hs|reflexivity]|].
    intros ? s6 [_ Hs6]. eapply holds_le; [exact Hs6|lia].
Qed.

Lemma client_end_step n a x p segs s :
  holds (Datatypes.S n) (one a) (one x) segs ∅ s -> segment_of x p segs ->
  wp (end_segment realloc_ok clock x p) (fun _ s' => holds n (one a) (one x) ∅ ∅ s') s.
Proof.
  intros Hs Hsegs. unfold segment_of in Hsegs. destruct x as [x|], p as [p|]; try done; subst segs.
  - eapply wp_mono; [eapply end_segment_step; [by rewrite union_empty_r_L|apply elem_of_one|set_solver]|]. by intros ? s6 [_ Hs6].
  - eapply wp_mono; [by eapply end_null|]. intros ? s6 [_ Hs6]. eapply holds_le; [exact Hs6|lia].
Qed.

(** Writing the payload to the new file and freeing it. *)
Lemma send_at {U : Type} (k : unit -> program U) Q (payload : option cstr) i v b :
  fs_contents (su_files b) !! i = Some (Regular []) ->
  wp (k tt) Q (mk_process v (with_files (mk_files (fs_names (su_files b))
                              (<[i := Regular (c_str (default [] payload))]> (fs_contents (su_files b)))) b)) ->
  wp (payload ← owned payload;
      _ ← (match payload with
           | Some _ => text ← string_at payload; _ ← fprintf i (default [] text); free payload
           | None => mret tt
           end);
      k tt) Q (mk_process v b).
Proof.
  intros Hi Hk. destruct payload as [text|]; cbn [owned default] in Hk |- *.
  2:{ apply wp_bind, wp_ret. apply wp_bind, wp_ret. cbn in Hk. rewrite insert_id in Hk by done. by destruct b as [[]]. }
  eapply wp_outside_at; [done|]. cbv zeta. pose proof (new_string_fresh text b) as Hp. unfold new_string in *. cbn [fst snd] in *.
  set (p := fresh (dom (su_strings b))) in *. clearbody p. apply wp_bind.
  eapply string_at_at; [apply lookup_insert_eq|]. eapply wp_outside_at; [done|]. cbn [default].
  eapply wp_outside; [cbn [pr_beside with_files with_strings su_strings]; rewrite lookup_insert_eq; reflexivity|].
  cbn [pr_sdk with_files with_strings su_files su_strings su_out su_turns]. rewrite delete_insert_id by done.
  unfold file_at. rewrite Hi. destruct b. exact Hk.
Qed.

Lemma requested_opened payload f i :
  i = fresh (dom (fs_contents f)) ->
  emptied (file_at (mk_files (delete REQUEST_FILE (fs_names f)) (fs_contents f)) i) = Regular []
  /\ mk_files (<[REQUEST_FILE := i]> (delete REQUEST_FILE (fs_names f))) (<[i := Regular payload]> (<[i := Regular []]> (fs_contents f)))
     = requested payload f.
Proof.
  intros ->. split.
  - unfold file_at. cbn [fs_contents]. by rewrite (proj1 (not_elem_of_dom _ _) (is_fresh (dom (fs_contents f)))).
  - unfold requested. by rewrite insert_delete_eq, insert_insert_eq.
Qed.

Lemma client_finish a x p segs s :
  holds 29 (one a) (one x) segs ∅ s -> segment_of x p segs ->
  wp (_ ← end_segment realloc_ok clock x p; code ← example_end NEWRELIC_VERSION x a; mret (Some code))
    (fun code s' => code = Some 0 /\ holds 0 ∅ ∅ ∅ ∅ s' /\ pr_beside s' = pr_beside s) s.
Proof.
  intros Hs Hsegs. eapply wp_step; [apply wp_silent; [by apply (client_end_step 28 a x p segs)|apply end_segment_silent]|].
  intros ? s1 [Hs1 Hb1]. cbv beta.
  eapply wp_step; [apply wp_silent; [eapply example_end_last; [exact Hs1|lia]|apply example_end_silent]|].
  intros ? s2 [[-> Hs2] Hb2]. apply wp_ret. split; [done|]. split; [done|]. by rewrite Hb2.
Qed.

(** The client ends with nothing left, unless it waits. *)
Lemma ex_distributed_tracing_client_runs looks s :
  environment_ok -> holds 32 ∅ ∅ ∅ ∅ s ->
  wp (ex_distributed_tracing_client realloc_ok clock NEWRELIC_VERSION HAVE_BACKTRACE getenv may_write others looks)
    (fun code s' => (code = None \/ code = Some 0 /\ holds 0 ∅ ∅ ∅ ∅ s') /\ su_strings (pr_beside s') = su_strings (pr_beside s)
       /\ if may_write REQUEST_FILE then exists payload, request_payload s payload
            /\ (code = Some 0 <-> response_appears looks (su_turns (pr_beside s)) (requested payload (su_files (pr_beside s))))
            /\ (code = Some 0 -> fs_names (su_files (pr_beside s')) !! RESPONSE_FILE = None)
          else code = Some 0) s.
Proof.
  intros Henv Hs. unfold ex_distributed_tracing_client.
  eapply wp_step; [apply wp_run, wp_prints; [by apply (example_app_step 32)|apply example_app_prints]|].
  intros r [v0 b0] [((a & -> & Hs0) & texts & Hb0 & _) Eapp]. cbv beta iota. cbn [pr_beside] in Hb0. subst b0.
  eapply wp_api_at; [by apply (start_transaction_step 31)|]. intros x v1 Ex Hs1. cbv beta in Hs1 |- *.
  eapply wp_api_at; [by apply (client_segment_step 30 a)|]. intros p v2 Ep (segs & Hs2 & Hsegs). cbv beta.
  eapply wp_outside_at; [done|]. apply fopen_w_at. destruct (may_write REQUEST_FILE).
  - intros i Hi. specialize (Hi (lookup_delete_eq _ _)). destruct (requested_opened [] (su_files (pr_beside s)) i Hi) as [Hempty _].
    apply wp_bind. eapply wp_outside_at; [done|]. eapply wp_api_at; [by apply (client_payload_step 29 a x p segs)|].
    intros created v3 Ecreated Hs3. cbv beta in Hs3 |- *. unfold opened. cbn [with_files say su_files fs_names fs_contents] in Hempty |- *.
    rewrite Hempty. apply (send_at (fun _ => _)); [apply lookup_insert_eq|]. eapply wp_outside_at; [done|].
    cbn [with_files say su_files su_strings su_out su_turns fs_names fs_contents].
    rewrite (proj2 (requested_opened (c_str (default [] created)) (su_files (pr_beside s)) i Hi)).
    eapply wp_mono; [by apply (await_response_step 29 (one a) (one x) segs ∅)|]. cbn [su_files su_strings su_turns].
    intros answered s5 (Ev & Hstr & Hiff & Hgone). assert (Hs5 : holds 29 (one a) (one x) segs ∅ s5) by (unfold holds; by rewrite Ev).
    assert (Hpayload : request_payload s (c_str (default [] created))) by (by exists a, (mk_process v0 (say texts (pr_beside s))), x, v1, p, v2, created, v3).
    destruct answered; cbn [negb].
    + eapply wp_mono; [by apply (client_finish a x p segs)|]. intros code s6 (-> & Hs6 & Hb6). split; [by right|]. rewrite Hb6.
      split; [done|]. eexists. split; [exact Hpayload|]. split; [|intros _; by apply Hgone]. split; [intros _; by apply Hiff|done].
    + apply wp_ret. split; [by left|]. split; [done|]. eexists. split; [exact Hpayload|]. split; [|done]. split; [done|]. by intros ?%Hiff.
  - apply wp_bind. eapply wp_api_at; [by apply (notice_error_step 29)|]. intros [] v3 _ Hs3. cbv beta in Hs3 |- *.
    eapply wp_outside_at; [done|]. apply wp_ret. cbn [negb].
    eapply wp_mono; [by apply (client_finish a x p segs)|]. intros code s6 (-> & Hs6 & Hb6). split; [by right|]. by rewrite Hb6.
Qed.

End Inside.
