(* ===== verification/ExampleBehaviour.v ===== *)
(** * What the examples do

    The theorems about the example programs: how they end, and what they need. *)

From S2P Require Import Prelude Vector Strings Time StringPool Metrics.
From S2P Require Import HashMap SegmentChildren Slab Datastore Slowsqls Txn Config Segment SegmentEnd Sdk SdkSample.
From S2P Require Import SdkGlobal SdkTransaction SdkSegment Session Transactions SessionEnds Frames Calls Lifetimes LifeSample LifeBehaviour.
From S2P Require Import Examples ExampleRuns.

Section Fresh.
Context {S P M A O : Type} `{NamePool P} `{ObjectAllocator S M} `{!AxiomLib S P M A O} `{!TxnLifecycle S P M A O}.

Implicit Types (s : process S P M A O).

(** A program that starts. *)
Definition fresh_process (mem : M) (a : A) (files : file_system) : process S P M A O := 
  mk_process (initial_sdk mem a) (mk_surroundings files ∅ [] Datatypes.O).

(** Nothing of the SDK is left, and nothing of axiom but what its agent keeps. *)
Definition nothing_left (s : process S P M A O) : Prop :=
  sd_apps (pr_sdk s) = ∅ /\ sd_txns (pr_sdk s) = ∅ /\ sd_segments (pr_sdk s) = ∅
  /\ w_txns (sd_world (pr_sdk s)) = ∅ /\ w_segments (sd_world (pr_sdk s)) = ∅.

Lemma fresh_holds n mem a files : oa_ok mem empty empty -> Z.of_nat n < 2 ^ 25 -> holds n ∅ ∅ ∅ ∅ (fresh_process mem a files).
Proof. intros Hmem Hn. apply initial_inside; [done|]. lia. Qed.

Lemma holds_nothing n evs s : holds n ∅ ∅ ∅ evs s -> nothing_left s /\ dom (sd_events (pr_sdk s)) = evs.
Proof.
  intros [[kids Hlife] Ha%dom_empty_inv_L Ht%dom_empty_inv_L _ Hs%dom_empty_inv_L He]. destruct (no_handles_no_memory _ _ _ Hlife Ht).
  done.
Qed.

(** *** Without a configuration *)

Context (realloc_ok : Z -> bool) (clock : nat -> Z * Z) (version : cstr).
Context (getenv : cstr -> option cstr) (others : nat -> file_system -> file_system).

(** The examples that change the settings of their configuration. *)
Definition tracing_examples : list (program S P M A O Z) :=
  [ex_segment realloc_ok clock version getenv others; ex_timing realloc_ok clock version getenv others;
   ex_datastore realloc_ok clock version getenv others; ex_external realloc_ok clock version getenv others;
   ex_custom realloc_ok clock version getenv others].

(** All of them go on once they have an application. *)
Lemma tracing_examples_app (m : program S P M A O Z) :
  m ∈ tracing_examples ->
  exists f, m = (connected ← example_app version getenv true false; match connected with None => mret (-1) | Some app => f app end).
Proof. unfold tracing_examples. rewrite !elem_of_cons. rewrite elem_of_nil. intros [->|[->|[->|[->|[->|[]]]]]]; by eexists. Qed.

(** The name of the application and its key. *)
Definition app_name_variable : option cstr := getenv (str "NEW_RELIC_APP_NAME").
Definition license_key_variable : option cstr := getenv (str "NEW_RELIC_LICENSE_KEY").

(** What an example says when a variable is missing. *)
Definition notice_text : cstr :=
  str "This example program depends on environment variables NEW_RELIC_APP_NAME and NEW_RELIC_LICENSE_KEY.".
Definition missing_text : cstr :=
  match app_name_variable with
  | None => [10] ++ str "Environment variable NEW_RELIC_APP_NAME must be set to a meaningful application name." ++ [10]
  | Some _ => [10] ++ str "Environment variable NEW_RELIC_LICENSE_KEY must be set to a valid New Relic license key." ++ [10]
  end.

Lemma example_app_missing n tracing distributed s :
  holds n ∅ ∅ ∅ ∅ s -> app_name_variable = None \/ license_key_variable = None ->
  wp (example_app version getenv tracing distributed) (fun r s' => r = None /\ holds n ∅ ∅ ∅ ∅ s'
    /\ exists before, su_out (pr_beside s') = su_out (pr_beside s) ++ before ++ [notice_text; missing_text]) s.
Proof.
  intros Hs Hmissing. unfold example_app.
  eapply wp_step; [apply wp_prints; [by apply example_init_step|apply example_init_prints]|].
  intros ready s1 (Hs1 & before & Hb1 & _). cbv beta. unfold get_app_name, get_license_key, missing_text.
  unfold app_name_variable, license_key_variable in *. destruct (getenv (str "NEW_RELIC_APP_NAME")) as [name|].
  - destruct Hmissing as [[=]| ->]. eexists _, _. split; [reflexivity|]. split; [done|]. split; [done|]. exists before.
    cbn [pr_beside su_out]. rewrite Hb1. cbn [say su_out]. by rewrite <- !app_assoc.
  - eexists _, _. split; [reflexivity|]. split; [done|]. split; [done|]. exists before.
    cbn [pr_beside su_out]. rewrite Hb1. cbn [say su_out]. by rewrite <- !app_assoc.
Qed.

Lemma example_app_no_config n name key distributed s :
  holds n ∅ ∅ ∅ ∅ s -> app_name_variable = Some name -> license_key_variable = Some key ->
  newrelic_create_app_config (Some name) (Some key) = None \/ newrelic_create_app_config (Some name) (Some key) = Some None ->
  example_app version getenv true distributed s = None.
Proof.
  intros Hs Hname Hkey Hconfig. destruct (example_init_step n ∅ ∅ ∅ ∅ s Hs) as (ready & s1 & E & _).
  unfold app_name_variable in Hname. unfold license_key_variable in Hkey.
  unfold example_app, get_app_name, get_license_key. rewrite Hname, Hkey. unfold mbind at 1, program_bind at 1. rewrite E.
  by destruct Hconfig as [Hc|Hc]; unfold mbind, program_bind, mret, program_ret; rewrite Hc.
Qed.

End Fresh.

(* @about ex_segment ex_timing ex_datastore ex_external ex_notice_error ex_custom example_app example_end customize_config get_app_name get_license_key example_init *)
(** C15 (liveness): the examples run to their end.  Started in a fresh process, with a name of the
    application that fits, a license key of forty characters and a host that fits or none, and with
    enough memory, each of [ex_segment.c], [ex_timing.c], [ex_datastore.c], [ex_external.c] and
    [ex_notice_error.c] ends and returns 0, whether or not the daemon answers: no call crashes
    or waits for ever.  It has given back everything: no application, transaction, segment or custom
    event of the API is left, and no transaction or segment of axiom.  So does [ex_custom.c], but it
    may leave its custom event, which it does not free when it could not start a transaction. *)
Theorem examples_end_clean {S P M A O : Type} `{NamePool P} `{ObjectAllocator S M} `{!AxiomLib S P M A O} `{!TxnLifecycle S P M A O}
  (realloc_ok : Z -> bool) (clock : nat -> Z * Z) (version : cstr) (HAVE_BACKTRACE : bool) (getenv : cstr -> option cstr)
  (others : nat -> file_system -> file_system) (mem : M) (a : A) (files : file_system) :
  roomy realloc_ok -> strlen version < LIMIT -> (forall m sl, oa_next m sl <> None) ->
  (forall a, short_string (nr_system_get_hostname a) = true) -> environment_ok getenv -> oa_ok mem empty empty ->
  Forall (fun m : program S P M A O Z => exists s, m (fresh_process mem a files) = Some (0, s) /\ nothing_left s /\ sd_events (pr_sdk s) = ∅)
    [ex_segment realloc_ok clock version getenv others; ex_timing realloc_ok clock version getenv others;
     ex_datastore realloc_ok clock version getenv others; ex_external realloc_ok clock version getenv others;
     ex_notice_error clock version HAVE_BACKTRACE getenv others]
  /\ exists s, ex_custom realloc_ok clock version getenv others (fresh_process mem a files) = Some (0, s)
       /\ nothing_left s /\ (size (sd_events (pr_sdk s)) <= 1)%nat.
Proof.
  intros Hroomy Hversion Hmemory Hhost Henv Hmem.
  assert (Hs : holds 32 ∅ ∅ ∅ ∅ (fresh_process (O := O) mem a files)) by (apply fresh_holds; [done|lia]).
  assert (Hall : forall m : program S P M A O Z, runs getenv m ->
    exists s, m (fresh_process mem a files) = Some (0, s) /\ nothing_left s /\ sd_events (pr_sdk s) = ∅).
  { intros m Hm. destruct (Hm _ Henv Hs) as (code & s & E & -> & [? He%dom_empty_inv_L]%holds_nothing). by exists s. }
  split.
  - repeat apply Forall_cons_2; [..|apply Forall_nil_2]; apply Hall.
    + by apply ex_segment_runs.
    + by apply ex_timing_runs.
    + by apply ex_datastore_runs.
    + by apply ex_external_runs.
    + by apply (ex_notice_error_runs realloc_ok).
  - destruct (ex_custom_runs realloc_ok clock version HAVE_BACKTRACE Hroomy Hversion Hmemory Hhost getenv (fun _ => true) others _ Henv Hs)
      as (code & s & E & -> & evs & [Hn He]%holds_nothing & Hsize). exists s. split; [done|]. split; [done|]. by rewrite <- size_dom, He.
Qed.

(* @about ex_segment ex_timing ex_datastore ex_external ex_custom example_app get_app_name get_license_key newrelic_create_app_config *)
(** C24 (error): what the examples need from their environment.  Without NEW_RELIC_APP_NAME or
    NEW_RELIC_LICENSE_KEY the last texts that an example prints are a notice that names both and a
    message that names the one that is missing (the first, when both are); it returns -1 and leaves
    nothing behind.  But when the key
    does not have forty characters, each of [ex_segment.c], [ex_timing.c], [ex_datastore.c],
    [ex_external.c] and [ex_custom.c] gets NULL for its configuration and dereferences it to change the
    transaction tracer; and when the key is right and the name has 255 characters or more, the name is
    written past its array. *)
Theorem examples_need_configuration {S P M A O : Type} `{NamePool P} `{ObjectAllocator S M} `{!AxiomLib S P M A O} `{!TxnLifecycle S P M A O}
  (realloc_ok : Z -> bool) (clock : nat -> Z * Z) (version : cstr) (getenv : cstr -> option cstr)
  (others : nat -> file_system -> file_system) (mem : M) (a : A) (files : file_system) (m : program S P M A O Z) :
  m ∈ tracing_examples realloc_ok clock version getenv others -> oa_ok mem empty empty ->
  short (app_name_variable getenv) -> short (license_key_variable getenv) ->
  (app_name_variable getenv = None \/ license_key_variable getenv = None ->
   exists s before, m (fresh_process mem a files) = Some (-1, s) /\ nothing_left s /\ sd_events (pr_sdk s) = ∅
     /\ su_out (pr_beside s) = before ++ [notice_text; missing_text getenv])
  /\ forall name key, app_name_variable getenv = Some name -> license_key_variable getenv = Some key ->
       strlen key <> NR_LICENSE_SIZE \/ 255 <= strlen name -> m (fresh_process mem a files) = None.
Proof.
  intros [f ->]%tracing_examples_app Hmem Hn Hk.
  assert (Hs : holds 0 ∅ ∅ ∅ ∅ (fresh_process (O := O) mem a files)) by (apply fresh_holds; [done|lia]).
  split.
  - intros Hmissing. destruct (example_app_missing version getenv 0 true false _ Hs Hmissing) as (r & s & E & -> & [? He%dom_empty_inv_L]%holds_nothing & before & Hout).
    exists s, before. unfold mbind, program_bind. by rewrite E.
  - intros name key Ename Ekey Hbad. rewrite Ename in Hn. rewrite Ekey in Hk. unfold mbind at 1, program_bind at 1.
    erewrite example_app_no_config; [done|exact Hs|done|done|].
    rewrite create_app_config_cases by done. destruct (decide (strlen key = NR_LICENSE_SIZE)) as [E|E]; [|by right].
    destruct (decide (strlen name < 255)) as [E'|E']; [|by left]. exfalso. destruct Hbad as [Hbad|Hbad]; [done|lia].
Qed.


(** ** Witnesses *)

(** An environment with a name and a key. *)
Definition plain_env (key : cstr) (name : cstr) : option cstr :=
  if decide (name = str "NEW_RELIC_APP_NAME") then Some (str "shop")
  else if decide (name = str "NEW_RELIC_LICENSE_KEY") then Some key else None.

Definition plain_files : file_system := mk_files ∅ ∅.

(** Another program makes a request before the server looks, and answers the client. *)
Definition plain_others (turn : nat) (f : file_system) : file_system :=
  mk_files (<[REQUEST_FILE := 1%positive]> (<[RESPONSE_FILE := 2%positive]> (fs_names f))) (<[1%positive := Regular (str "payload")]> (fs_contents f)).

Lemma plain_env_ok : environment_ok (plain_env (replicate 40 97)).
Proof.
  split; [by exists (str "shop"); vm_compute|]. split; [by exists (replicate 40 97); vm_compute|]. intros host. by vm_compute.
Qed.

Lemma plain_memory_left : forall (m : Z) (sl : option unit), oa_next m sl <> None.
Proof. by intros m [[]|]. Qed.

Lemma examples_end_clean_witness :
  exists s : process unit nrstrpool_t Z sample_state sample_object,
    ex_segment sample_realloc sample_clock (str "1.0") (plain_env (replicate 40 97)) (fun _ f => f) (fresh_process 0 [] plain_files) = Some (0, s)
    /\ nothing_left s.
Proof.
  destruct (examples_end_clean (P := nrstrpool_t) (M := Z) sample_realloc sample_clock (str "1.0") false (plain_env (replicate 40 97)) (fun _ f => f) 0 [] plain_files)
    as [Hall _].
  - exact permissive_roomy.
  - by vm_compute.
  - exact plain_memory_left.
  - intros b. reflexivity.
  - exact plain_env_ok.
  - exact plain_memory_ok.
  - apply Forall_inv in Hall. destruct Hall as (s & E & Hs & _). exists s. split; [exact E|exact Hs].
Defined.

Lemma examples_need_configuration_witness :
  ex_segment sample_realloc sample_clock (str "1.0") (plain_env (str "secret")) (fun _ f => f)
    (fresh_process (A := sample_state) (O := sample_object) (P := nrstrpool_t) 0 [] plain_files) = None
  /\ exists (s : process unit nrstrpool_t Z sample_state sample_object) before,
       ex_timing sample_realloc sample_clock (str "1.0") (fun _ => None) (fun _ f => f) (fresh_process 0 [] plain_files) = Some (-1, s)
       /\ su_out (pr_beside s) = before ++ [notice_text; missing_text (fun _ => None)].
Proof.
  split.
  - destruct (examples_need_configuration (P := nrstrpool_t) (M := Z) sample_realloc sample_clock (str "1.0") (plain_env (str "secret"))
      (fun _ f => f) 0 [] plain_files
      (ex_segment sample_realloc sample_clock (str "1.0") (plain_env (str "secret")) (fun _ f => f))) as [_ Hcrash].
    + apply list_elem_of_here.
    + exact plain_memory_ok.
    + by vm_compute.
    + by vm_compute.
    + apply (Hcrash (str "shop") (str "secret")); [by vm_compute..|]. left. by vm_compute.
  - destruct (examples_need_configuration (P := nrstrpool_t) (M := Z) (A := sample_state) (O := sample_object) sample_realloc sample_clock
      (str "1.0") (fun _ => None) (fun _ f => f) 0 [] plain_files
      (ex_timing sample_realloc sample_clock (str "1.0") (fun _ => None) (fun _ f => f))) as [Hmissing _].
    + apply list_elem_of_further, list_elem_of_here.
    + exact plain_memory_ok.
    + exact I.
    + exact I.
    + destruct (Hmissing (or_introl eq_refl)) as (s & before & E & _ & _ & Hout). exists s, before. split; [exact E|exact Hout].
Defined.

Lemma plain_others_regular : others_regular plain_others.
Proof.
  intros n f Hf i x. unfold plain_others. cbn [fs_contents]. rewrite lookup_insert_Some. intros [[<- <-]|[_ Hx]]; [|by eapply Hf].
  exists (str "payload"). split; [done|]. by vm_compute.
Qed.

